(* ===== verification/_CoqProject ===== *)
-Q . S2P
Prelude.v
Libc.v
CString.v
Mem.v
Buffer.v
Task.v
Queue.v
DfsMath.v
Des.v
Hashtable.v
Mblks.v
TaskQueue.v
Cache.v
NnTypes.v
Permission.v
NnBlocks.v
NnPath.v
FileIndex.v
Namespace.v
NsRefine.v
NnPaxos.v
HeapLogic.v
Rbtree.v
RbSpec.v
RbLogic.v
RbInsert.v
RbDelete.v
RbOps.v
RbRemove.v
RbCorrect.v
EventTimer.v
NnConn.v
NnConnOk.v
NnConnProps.v
Stdio.v
Posix.v
DnStorage.v
DnStorageOk.v
DnScan.v
DnWrite.v
DnService.v
DnServiceOk.v
DnSetup.v
DnProps.v
Shmem.v
ShmemOk.v
ShmemProps.v
MemAllocator.v
ShmemLaws.v
Slabs.v
SlabsOk.v
SlabsProps.v
ConnPool.v
MemPool.v
MemPoolOk.v
Faio.v
FaioWorker.v
FaioWorkerOk.v
Fio.v
FioOk.v
SysIo.v
DnRequest.v
DnAccept.v
DnRequestOk.v
DnReadOk.v
Client.v
ClientOk.v
