(* ===== verification/Prelude.v ===== *)
(** * Opendfs: a verification library

    Opendfs is a distributed file system in C.  A namenode keeps the tree of
    files and directories and the index of blocks and datanodes in memory;
    changes of the tree are entries of a log that phxpaxos replicates and that
    every namenode applies.  Datanodes store blocks, register with the namenode
    and report to it; clients ask the namenode and talk to the datanodes.  All
    of them use the library of src/src/core.  This development translates the
    namenode's state, handlers and connections, the datanode's storage, its
    service of the namenode and its requests with the file I/O beneath them,
    the client, and the parts of the core library they rest on, and proves what
    they do, alone and together.

    ** Files and what they model (paths below src/src)

    - Prelude: machine integers with their wrap-around, the state monad [ST]
      with failure, tactics and hint databases ([word]), generic lemmas.
    - Libc: bytes and C strings; strlen, strncmp and what is proved of them.
    - CString: core/dfs_string.c, .h.  Comparison, search, numbers, base64,
      URI and HTML escapes, UTF-8.
    - Mem: a byte memory, reading and writing little-endian fields.
    - Buffer: core/dfs_buffer.c, dfs_chain.c.  Buffers and chains of them.
    - Task: common/dfs_task.c, dfs_task_codec.c.  The message of all requests,
      its memory layout and its frames.
    - Queue: core/dfs_queue.h, .c.  The intrusive ring, on a store of nodes.
    - DfsMath, Des: core/dfs_math.c.  Primes, logarithm, DES and triple DES.
    - Hashtable: core/dfs_hashtable.c, chained buckets on a store of links.
    - Mblks: core/dfs_mblks.c, the pool of equal blocks.
    - TaskQueue: namenode/nn_task_queue.c, nn_task_handler.c, on Queue.
    - Cache: the combination the namenode uses three times, a pool of objects
      with a hash table over them, at the level of lists.  The classes [Keyed]
      and [KeyedLaws] state what an object type gives (key, hash, comparison);
      FileIndex and NnBlocks instantiate them.
    - NnTypes: common/dfs_task_cmd.h, inodes, and the entries of the log
      (data/phxeditlog.proto).
    - Permission: common/fs_permission.c.
    - NnBlocks: namenode/nn_blk_index.c, nn_dn_index.c.
    - NnPath: paths and keys of namenode/nn_file_index.c.
    - FileIndex: the operations of namenode/nn_file_index.c that the log
      applies ([update_fi_cache_mgmt] and the functions it calls) and the
      timeout of unfinished files.
    - Namespace, NsRefine: the specification (a finite map from paths to kind
      and state, with one step per operation), the representation relation
      between it and the index, and the refinement.
    - NnPaxos: the handlers of namenode/nn_paxos.c, ls and open, and
      paxos/FSEditlog.cpp, EditlogSM.cpp.
    - HeapLogic: assertions on a store of nodes, for the tree.
    - Rbtree: core/dfs_rbtree.c, .h, on a store of nodes.  RbSpec is the
      specification, ordered trees with colours; RbLogic, RbInsert, RbDelete,
      RbOps, RbRemove prove the pieces of the loops and RbCorrect the whole
      operations.
    - EventTimer: core/dfs_event_timer.c, on Rbtree.
    - NnConn: namenode/nn_request.c, the connection of a client: receiving,
      decoding, dispatch, answering, closing.  NnConnOk and NnConnProps prove
      what it does.
    - Stdio, Posix: the printf conversions and the file system calls the
      datanode uses.
    - DnStorage: datanode/dn_data_storage.c.  Storage directories, namespaces,
      the cache of blocks, completed and deleted blocks, the scanner.
      DnStorageOk, DnScan, DnWrite and DnSetup prove its operations.
    - DnService: datanode/dn_ns_service.c.  Registration, heartbeats, reports;
      DnServiceOk proves them, DnProps the datanode as a whole.
    - Shmem: core/dfs_shmem.c, the allocator on shared memory.  ShmemOk has its
      invariant, ShmemProps the operations, ShmemLaws the whole.
    - MemAllocator: core/dfs_mem_allocator.h, the interface of allocators, the
      classes [MemAllocator] and [AllocatorLaws]; ShmemLaws is an instance.
    - Slabs: core/dfs_slabs.c, over any allocator; SlabsOk and SlabsProps prove
      it against the interface.
    - ConnPool: core/dfs_conn_pool.c, the connections of the threads and the
      pool they share.
    - MemPool: core/dfs_memory_pool.c, over malloc and free as an allocator;
      MemPoolOk proves it.
    - Faio: the queue of tasks, the handlers and the notifiers of faio/.
      FaioWorker: its worker threads and the threads that submit tasks, as
      steps that interleave; FaioWorkerOk proves them.
    - Fio: cfs/cfs_fio.c, the stock of I/O tasks; FioOk proves it.
    - SysIo: core/dfs_sysio.c and the output loops of core/dfs_chain.c:
      receiving, writev and sendfile of chains, with what is proved of them.
    - DnRequest: datanode/dn_request.c with cfs/cfs.c and cfs/cfs_faio.c.  The
      [world] holds the requests, the tasks, the descriptors, the files and
      the pools; [step] is one event of the loop or one turn of a worker.
      DnAccept proves the start of a request, DnRequestOk storing a block,
      DnReadOk reading one.
    - Client: client/dfscli_main.c, dfscli_put.c, dfscli_get.c.  The command
      line and its paths, the requests to the namenode, the threads of a put
      ([put_step]) and the splices of a get.  ClientOk proves it, with the
      namenode of NnPaxos and the datanode of DnRequest on the other side.

    ** Conventions

    Bytes are integers from 0 to 255, a C string is the list of its bytes
    before the NUL.  Integers are [Z]; where the code can leave the width of a
    variable the wrap-around is written out ([u32], [u64], [s16], ...).  A
    result [None] is undefined behaviour: a null or freed pointer, a read past
    the end of an object, an overrun of an array, and also exhausted fuel.
    Theorems that a call succeeds state [Some], so they exclude both.  Locks
    make an operation one step; interleavings are sequences of steps.  A handler
    of the namenode is one step as a whole, although it takes its locks one
    after the other.

    The core data structures are modelled at the level of their stores (nodes,
    links and blocks with addresses) and proved to implement lists.  The
    namenode's state is written with those lists: rings are lists of objects,
    a hash table is its buckets.  Sockets are oracles, the answers they give
    in order; the peer of the datanode's service and the namenode of the client
    are functions of the frames they got.  In DnRequest addresses are never used again, so that a pointer
    into a destroyed pool is found out; the answers of pools, malloc and
    epoll are oracles too.

    ** What is proved

    - Namespace: every log entry that makes sense for the tree is applied
      without undefined behaviour and leaves an index that represents the tree
      after the operation, counts included; lookups find exactly the tree's
      paths; the handlers mkdir, rm and ls do what the tree says.
    - Blocks: no request runs into undefined behaviour while the pools last,
      if names and addresses of datanodes have less than 32 bytes and no datanode
      times out with blocks; deletions go through a queue, in order, none lost
      and none twice; identifiers are distinct.
    - Connections: what arrives in any pieces is decoded to the same tasks, the
      answers are sent whole and in order, a closed connection is returned once
      its last task is.
    - Datanode: written, deleted and scanned blocks refine a finite map from
      identifiers, below 10^15, to namespace and bytes; completed blocks too if
      there are unused bytes after the path of the request, beyond which the code
      writes; a start sets up the directories and
      finds them again; a heartbeat deletes what its answer lists; after a
      restart every stored block is reported.
    - Requests of the datanode: a block that arrives in any pieces is in its
      temporary file byte by byte, and the client has its answer; a range of a
      block that is asked for leaves as it is stored, however slowly the
      client takes it, and the descriptors, requests and files are then as
      before.  Chains of buffers leave whole and in order.
    - Client: an argument with any slashes reaches the namenode as the path of
      its names, and a mkdir makes its directories in the tree; a block that is
      got is the stored block and a file that is put is what the datanode
      stores; a put that reports success has sent the whole file to every
      datanode, if its threads take turns with the index they share.
    - File I/O: the queue of tasks refines a list; a submitted task is run,
      whatever the threads do; the stock of tasks is exact, none leaks or is
      freed twice.  Memory pools hand out blocks that do not overlap.
    - Red-black tree: insertion, removal and minimum refine a sorted multiset
      and keep the tree balanced; timers expire in the order of their keys.
    - Allocators: whatever is allocated and freed, the shared memory stays
      tiled by storages that do not overlap and no two free ones are
      neighbours; a request above the smallest class is served exactly when a
      free storage is large enough; slabs find the first class that fits, if
      there are three or more, and hand out disjoint chunks.
    - Connections of the threads: none is lost, in two lists, or handed out
      while in use.
    - Core: rings, sorting, hash table, pool, task queue against lists; round
      trips of base64, URI escapes, hexadecimal, UTF-8, tasks, DES and triple
      DES; primes, weak keys, buffers and chains.
    - Behaviour that differs from what the code means to do, each with the
      states in which it occurs: permissions that compare for equality, files
      refused in the root, a trailing slash that duplicates directories, the
      children count after removing an unfinished file, the count of objects
      after a timeout, closing a file without its directory, a dead datanode
      whose blocks stay linked, the hash of short keys, a frame of length
      zero, the size limit of a chain, a task whose payload is overwritten by
      the next read, and in the datanode the overrun of the path of a
      completed block, identifiers too long for the scanner, blocks in the
      cache twice and blocks freed while queued, and in the allocators small
      storages that hide larger ones, a search that needs three classes, and
      the release of a last chunk; a pool whose reset hands out the nodes it
      still uses; a chain whose empty buffer drops the file after it; and
      requests of the datanode that leave tasks with pointers into freed
      pools, or are closed while a worker still sends; and in the client the
      race for the index of a thread, an answer of which only a part has
      arrived, files of 2 GiB, and a closed connection taken for success; lengths
      and indexes kept in an int: a listing of 2 GiB, the removal from a table of more
      than 2^31 buckets.

    ** Bounds and fuel

    Loops that are not structural take fuel, and the theorems say how much is
    enough: the length of a ring or bucket (Queue, Hashtable, TaskQueue), the
    square root and the distance to the next prime (DfsMath), the halvings of
    the table of weak keys (Des).  [clear_children] descends at most as deep
    as there are objects; [clear_fuel] is that number and one, and the
    refinement shows that it suffices.  The loops of the red-black tree take
    the height of the tree, those of a connection the number of answers of
    its socket, those of the datanode's service one unit for a queued block,
    the loops of SysIo and DnRequest the answers of the socket and the buffers
    left, and the splices of the client the bytes of the block.

    The key comparison of the file index is bounded by the length of the key
    looked for, so that a longer key in the same bucket can be taken for it;
    the theorems on the namespace assume that this does not occur
    ([clash_free]) and that keys fit their arrays ([fits]).

    ** What is not modelled

    phxpaxos is a parameter (mastership, and whether and with which number a
    proposal is chosen); protobuf is the identity on log entries.  The clock,
    the configuration, the uninitialised stack of the handlers and the
    success of malloc are parameters or part of the state.  The set-up of
    sockets, epoll, processes, logging, the checkpoint image, the other pools,
    the configuration reader and the start of the client are not modelled: they
    are calls of the operating system, or read and write files whose contents
    are parameters here.  cfs/cfs_eio.c is a copy of libeio that nothing calls. *)

From Stdlib Require Import ZArith Lia Bool.
From stdpp Require Import base numbers list gmap strings option.
From coqutil Require Import Z.bitblast.

#[global] Open Scope Z_scope.

#[global] Arguments Z.sub : simpl never.
#[global] Arguments Z.add : simpl never.
#[global] Arguments Z.mul : simpl never.
#[global] Arguments Z.opp : simpl never.
#[global] Arguments Z.pow : simpl never.
#[global] Arguments Z.modulo : simpl never.
#[global] Arguments Z.div : simpl never.

(** ** Notations of the development *)

Declare Scope dfs_scope.
Delimit Scope dfs_scope with dfs.

(** Bitwise operators, at C's relative precedence. *)
Notation "a .& b" := (Z.land a b) (at level 40, left associativity) : dfs_scope.
Notation "a .^ b" := (Z.lxor a b) (at level 45, left associativity) : dfs_scope.
Notation "a .| b" := (Z.lor a b) (at level 48, left associativity) : dfs_scope.

(** ** Machine integers *)

(** Unsigned wrap-around at [w] bits, and two's-complement reading. *)
Definition uwrap (w z : Z) : Z := z mod 2 ^ w.
Definition swrap (w z : Z) : Z := (z + 2 ^ (w - 1)) mod 2 ^ w - 2 ^ (w - 1).

Definition u8 := uwrap 8.
Definition u32 := uwrap 32.
Definition u64 := uwrap 64.
Definition s16 := swrap 16.
Definition s32 := swrap 32.
Definition s64 := swrap 64.

(** Shifts of a 32-bit word. *)
Definition shl32 (x n : Z) : Z := u32 (Z.shiftl x n).
Definition shr (x n : Z) : Z := Z.shiftr x n.

(** Value ranges. *)
Definition in_u (w z : Z) : Prop := 0 <= z < 2 ^ w.
Definition in_s (w z : Z) : Prop := - 2 ^ (w - 1) <= z < 2 ^ (w - 1).

#[global] Instance in_u_dec w z : Decision (in_u w z).
Proof. unfold in_u. apply _. Defined.
#[global] Instance in_s_dec w z : Decision (in_s w z).
Proof. unfold in_s. apply _. Defined.

Lemma uwrap_range w z : 0 <= w -> in_u w (uwrap w z).
Proof. intros. unfold in_u, uwrap. apply Z.mod_pos_bound. lia. Qed.

Lemma uwrap_small w z : in_u w z -> uwrap w z = z.
Proof. unfold in_u, uwrap. intros. apply Z.mod_small. lia. Qed.

Lemma swrap_range w z : 0 < w -> in_s w (swrap w z).
Proof.
  intros. unfold in_s, swrap.
  pose proof (Z.mod_pos_bound (z + 2 ^ (w - 1)) (2 ^ w) ltac:(lia)).
  assert (2 ^ w = 2 * 2 ^ (w - 1)) by (rewrite <- Z.pow_succ_r by lia; f_equal; lia).
  lia.
Qed.

Lemma swrap_small w z : 0 < w -> in_s w z -> swrap w z = z.
Proof.
  unfold in_s, swrap. intros.
  assert (2 ^ w = 2 * 2 ^ (w - 1)) by (rewrite <- Z.pow_succ_r by lia; f_equal; lia).
  rewrite Z.mod_small; lia.
Qed.

Lemma u64_add_l a b : u64 (u64 a + b) = u64 (a + b).
Proof. unfold u64, uwrap. by rewrite Zplus_mod_idemp_l. Qed.

Lemma swrap_uwrap w z : 0 < w -> swrap w (z mod 2 ^ w) = swrap w z.
Proof. intros. unfold swrap. rewrite Z.add_mod_idemp_l; [done|]. lia. Qed.

Lemma in_u_shiftr w z : 0 <= w -> in_u w z <-> 0 <= z /\ Z.shiftr z w = 0.
Proof.
  intros Hw. unfold in_u. rewrite Z.shiftr_div_pow2 by done.
  assert (0 < 2 ^ w) by (apply Z.pow_pos_nonneg; lia). split.
  - intros [? ?]. split; [done|]. by apply Z.div_small.
  - intros [? Hd]. split; [done|]. apply Z.div_small_iff in Hd; lia.
Qed.

(** Words are closed under the bitwise operators. *)
Lemma in_u_lxor w a b : 0 <= w -> in_u w a -> in_u w b -> in_u w (Z.lxor a b).
Proof.
  intros Hw. rewrite !in_u_shiftr by done. intros [? Ha] [? Hb].
  rewrite Z.shiftr_lxor, Ha, Hb. split; [|done]. apply Z.lxor_nonneg. lia.
Qed.
Lemma in_u_lor w a b : 0 <= w -> in_u w a -> in_u w b -> in_u w (Z.lor a b).
Proof.
  intros Hw. rewrite !in_u_shiftr by done. intros [? Ha] [? Hb].
  rewrite Z.shiftr_lor, Ha, Hb. split; [|done]. apply Z.lor_nonneg. lia.
Qed.
Lemma in_u_land w a b : 0 <= w -> in_u w a -> in_u w (Z.land a b).
Proof.
  intros Hw. rewrite !in_u_shiftr by done. intros [? Ha].
  rewrite Z.shiftr_land, Ha. split; [|by rewrite Z.land_0_l]. apply Z.land_nonneg. by left.
Qed.
Lemma in_u_shr w a n : 0 <= n -> in_u w a -> in_u w (shr a n).
Proof.
  intros Hn [H1 H2]. unfold shr. split; [by apply Z.shiftr_nonneg|].
  rewrite Z.shiftr_div_pow2 by done. eapply Z.le_lt_trans; [|exact H2].
  apply Z.div_le_upper_bound; [apply Z.pow_pos_nonneg; lia|].
  assert (1 <= 2 ^ n) by (apply (Z.pow_le_mono_r 2 0 n); lia). nia.
Qed.
Lemma in_u_shl32 a n : in_u 32 (shl32 a n).
Proof. apply uwrap_range. lia. Qed.

(** Disjoint bit fields: the low [k] bits under a shifted word. *)
Lemma lor_shift_add u m k :
  0 <= k -> 0 <= m < 2 ^ k -> Z.lor (Z.shiftl u k) m = u * 2 ^ k + m.
Proof.
  intros Hk Hm. rewrite <- Z.shiftl_mul_pow2 by lia. apply Z.or_to_plus.
  apply Z.bits_inj'. intros i Hi. rewrite Z.land_spec, Z.shiftl_spec, Z.bits_0 by lia.
  destruct (Z.ltb_spec i k).
  - by rewrite Z.testbit_neg_r by lia.
  - by rewrite <- (Z.mod_small m (2 ^ k)), Z.mod_pow2_bits_high, andb_false_r by lia.
Qed.

(** Membership in a word range, by its closure properties. *)
Create HintDb word.
#[export] Hint Resolve in_u_lxor in_u_lor in_u_land in_u_shr in_u_shl32 uwrap_range : word.
#[export] Hint Extern 1 (0 <= _) => lia : word.

(** ** Computations on a store

    [ST S A] is a computation that reads and updates a store [S] and may stop
    with undefined behaviour (a dereference of an address that holds no
    object): [None].  stdpp's [x <- m; k] notation (written with its arrow)
    sequences such computations. *)
Definition ST (S A : Type) : Type := S -> option (A * S).

#[global] Instance ST_ret S : MRet (ST S) := fun A a s => Some (a, s).
#[global] Instance ST_bind S : MBind (ST S) :=
  fun A B k m s => match m s with Some (a, s') => k a s' | None => None end.

Definition ub {S A} : ST S A := fun _ => None.
Definition gets {S A} (f : S -> option A) : ST S A :=
  fun s => match f s with Some a => Some (a, s) | None => None end.
Definition puts {S} (f : S -> option S) : ST S unit :=
  fun s => match f s with Some s' => Some (tt, s') | None => None end.

(** Run one step of a computation in the goal: unfold the binds whose first
    component is known. *)
Lemma ST_bind_eq {S A B} (k : A -> ST S B) (m : ST S A) s a s' :
  m s = Some (a, s') -> (m ≫= k) s = k a s'.
Proof. intros E. unfold mbind, ST_bind. by rewrite E. Qed.

Lemma option_bind_eq {A B} (m : option A) x (f : A -> option B) : m = Some x -> m ≫= f = f x.
Proof. by intros ->. Qed.

Lemma ST_bind_inv {S A B} (k : A -> ST S B) (m : ST S A) s r :
  (m ≫= k) s = Some r -> exists a s', m s = Some (a, s') /\ k a s' = Some r.
Proof. unfold mbind, ST_bind. destruct (m s) as [[a s']|]; [eauto|done]. Qed.

(** Decide a closed proposition by evaluating its [Decision] instance. *)
Ltac by_decide :=
  match goal with |- ?P => apply (bool_decide_unpack P); vm_compute; exact I end.

(** ** Shared lemmas *)

(** A property of the integers below a constant, decided by evaluation. *)
Definition below (n : nat) (P : Z -> bool) : bool :=
  forallb P (map Z.of_nat (List.seq 0 n)).

Lemma below_forall n (P : Z -> Prop) `{HP : !forall z, Decision (P z)} :
  below n (fun z => bool_decide (P z)) = true -> forall z, 0 <= z < Z.of_nat n -> P z.
Proof.
  unfold below. rewrite forallb_forall. intros Hall z Hz.
  apply (bool_decide_eq_true (P z)), Hall, in_map_iff.
  exists (Z.to_nat z). split; [lia|]. apply in_seq. lia.
Qed.

(** Prove [forall z, 0 <= z < n -> P z] by evaluating [P] on every value. *)
Ltac by_range n := refine (below_forall n _ _); vm_compute; reflexivity.

(** Induction that follows a loop consuming two elements at a time. *)
Lemma list_ind2 {A} (P : list A -> Prop) :
  P [] -> (forall a, P [a]) -> (forall a b l, P l -> P (a :: b :: l)) -> forall l, P l.
Proof.
  intros H0 H1 H2 l. enough (P l /\ (forall a, P (a :: l))) by tauto.
  induction l as [|x l (IH0 & IH1)]; eauto.
Qed.

(** Induction that follows a loop consuming three elements at a time. *)
Lemma list_ind3 {A} (P : list A -> Prop) :
  P [] -> (forall a, P [a]) -> (forall a b, P [a; b]) ->
  (forall a b c l, P l -> P (a :: b :: c :: l)) -> forall l, P l.
Proof.
  intros H0 H1 H2 H3 l.
  enough (P l /\ (forall a, P (a :: l)) /\ (forall a b, P (a :: b :: l))) by tauto.
  induction l as [|x l (IH0 & IH1 & IH2)]; eauto.
Qed.

(** A filter that keeps every element. *)
Lemma list_filter_all {A} (P : A -> Prop) `{!forall x, Decision (P x)} (l : list A) : Forall P l -> filter P l = l.
Proof. induction 1 as [|x l Hx _ IH]; [done|]. rewrite filter_cons_True by done. by rewrite IH. Qed.
