(* ===== verification/Libc.v ===== *)
(** * The C library functions the sources call on strings

    A buffer is a [list Z] of byte values; a C string is a buffer read up to
    its first NUL (a list with no NUL in it is the content of the string, the
    end of the list being the terminator).  The functions follow the ISO C
    descriptions of [strlen], [strncmp], [strcmp], [strrchr], [memcmp] and the
    POSIX description of [strtok_r]; comparison results keep the sign of the
    first difference, as the standard does. *)

From Stdlib Require Import ZArith Lia Bool.
From stdpp Require Import base numbers list.
From S2P Require Import Prelude.

Module Libc.

(** ** Definitions *)

Fixpoint strlen (s : list Z) : nat :=
  match s with
  | [] => O
  | c :: s' => if c =? 0 then O else S (strlen s')
  end.

(** The content of the C string held by a buffer. *)
Definition cstr (s : list Z) : list Z := take (strlen s) s.

Fixpoint strncmp (s1 s2 : list Z) (n : nat) : Z :=
  match n with
  | O => 0
  | S n' =>
      let c1 := hd 0 s1 in
      let c2 := hd 0 s2 in
      if c1 =? c2 then (if c1 =? 0 then 0 else strncmp (tl s1) (tl s2) n')
      else c1 - c2
  end.

(** [strcmp] compares until the NUL: no bound but the longer length. *)
Definition strcmp (s1 s2 : list Z) : Z :=
  strncmp s1 s2 (S (Nat.max (length s1) (length s2))).

Fixpoint memcmp (s1 s2 : list Z) (n : nat) : Z :=
  match n with
  | O => 0
  | S n' =>
      let c1 := hd 0 s1 in
      let c2 := hd 0 s2 in
      if c1 =? c2 then memcmp (tl s1) (tl s2) n' else c1 - c2
  end.

(** [strrchr s c]: the index of the last occurrence of [c]. *)
Fixpoint strrchr (s : list Z) (c : Z) : option nat :=
  match s with
  | [] => None
  | x :: s' =>
      match strrchr s' c with
      | Some i => Some (S i)
      | None => if x =? c then Some O else None
      end
  end.

(** The tokens a [strtok_r] loop over the one delimiter [d] yields: maximal
    runs of bytes different from [d].  [cur] is the token being read. *)
Fixpoint tokens_from (d : Z) (s cur : list Z) : list (list Z) :=
  match s with
  | [] => match cur with [] => [] | _ => [cur] end
  | c :: s' =>
      if c =? d then
        match cur with
        | [] => tokens_from d s' []
        | _ => cur :: tokens_from d s' []
        end
      else tokens_from d s' (cur ++ [c])
  end.

Definition strtok_tokens (d : Z) (s : list Z) : list (list Z) := tokens_from d s [].

Fixpoint skip_char (d : Z) (s : list Z) : list Z :=
  match s with
  | [] => []
  | c :: s' => if c =? d then skip_char d s' else s
  end.

Fixpoint run_other (d : Z) (s : list Z) : list Z :=
  match s with
  | [] => []
  | c :: s' => if c =? d then [] else c :: run_other d s'
  end.

(** What the caller's buffer holds, as a C string, after the loop: the first
    [strtok_r] call writes a NUL over the delimiter that ends the first
    token, and leaves the delimiters before it in place. *)
Definition strtok_residue (d : Z) (s : list Z) : list Z :=
  let lead := (length s - length (skip_char d s))%nat in
  take lead s ++ run_other d (skip_char d s).

(** A list that is the content of a C string of bytes. *)
Definition is_cstr (s : list Z) : Prop := Forall (fun c => 1 <= c < 256) s.
Definition is_bytes (s : list Z) : Prop := Forall (fun c => 0 <= c < 256) s.

#[global] Instance is_cstr_dec s : Decision (is_cstr s).
Proof. unfold is_cstr. apply _. Defined.
#[global] Instance is_bytes_dec s : Decision (is_bytes s).
Proof. unfold is_bytes. apply _. Defined.

(** ** Lemmas *)

Lemma is_cstr_bytes s : is_cstr s -> is_bytes s.
Proof. intros H. eapply Forall_impl; [exact H|]. simpl. lia. Qed.

Lemma strlen_cstr s : is_cstr s -> strlen s = length s.
Proof.
  induction 1 as [|c s Hc _ IH]; [done|]. simpl.
  destruct (Z.eqb_spec c 0); [lia|]. by rewrite IH.
Qed.

Lemma cstr_id s : is_cstr s -> cstr s = s.
Proof. intros H. unfold cstr. by rewrite strlen_cstr, firstn_all by done. Qed.

Lemma strncmp_refl s n : strncmp s s n = 0.
Proof.
  revert s. induction n as [|n IH]; intros s; cbn [strncmp]; [done|].
  rewrite Z.eqb_refl. destruct (_ =? 0); [done|apply IH].
Qed.

(** [strncmp] bounded by the length of its first argument is the prefix test. *)
Lemma strncmp_prefix s1 s2 :
  is_cstr s1 -> strncmp s1 s2 (length s1) = 0 <-> s1 `prefix_of` s2.
Proof.
  intros H. revert s2. induction H as [|c s Hc _ IH]; intros s2.
  { split; [intros _; apply prefix_nil|done]. }
  destruct s2 as [|c2 s2]; cbn [strncmp hd tl length].
  - destruct (Z.eqb_spec c 0); [lia|]. split; [lia|].
    intros ?%prefix_nil_inv. done.
  - destruct (Z.eqb_spec c c2) as [->|Hne].
    + destruct (Z.eqb_spec c2 0); [lia|]. rewrite IH. split.
      * apply prefix_cons.
      * apply prefix_cons_inv_2.
    + split; [lia|]. intros ?%prefix_cons_inv_1. done.
Qed.

(** Bounded by the length of the second argument it is the prefix test the
    other way round. *)
Lemma strncmp_prefix_r s1 s2 :
  is_cstr s2 -> strncmp s1 s2 (length s2) = 0 <-> s2 `prefix_of` s1.
Proof.
  intros H. revert s1. induction H as [|c s Hc _ IH]; intros s1.
  { split; [intros _; apply prefix_nil|done]. }
  destruct s1 as [|c1 s1]; cbn [strncmp hd tl length].
  - destruct (Z.eqb_spec 0 c); [lia|]. split; [lia|].
    intros ?%prefix_nil_inv. done.
  - destruct (Z.eqb_spec c1 c) as [->|Hne].
    + destruct (Z.eqb_spec c 0); [lia|]. rewrite IH. split.
      * apply prefix_cons.
      * apply prefix_cons_inv_2.
    + split; [lia|]. intros ?%prefix_cons_inv_1. congruence.
Qed.

Lemma memcmp_eq n s1 s2 :
  length s1 = n -> length s2 = n -> memcmp s1 s2 n = 0 <-> s1 = s2.
Proof.
  revert s1 s2. induction n as [|n IH]; intros [|a s1] [|b s2] H1 H2; simplify_eq/=; [done|].
  destruct (Z.eqb_spec a b) as [->|Hne].
  - rewrite IH by lia. naive_solver.
  - split; [lia|]. naive_solver.
Qed.

End Libc.
