(* ===== verification/CString.v ===== *)
(** * Byte strings: src/core/dfs_string.c

    Character classes, case-insensitive comparison, number parsing,
    hexadecimal and base64 coding, URI and HTML escaping, UTF-8.

    A pointer into a buffer is the [list Z] of the bytes from the pointer to
    the end of the buffer.  A function that reads through such a pointer
    returns an [option]: [None] is an access past the end of the buffer, or a
    signed overflow, that is, behaviour C leaves undefined. *)

From Stdlib Require Import ZArith Lia Bool Ascii String.
From stdpp Require Import base numbers list.
From coqutil Require Import Z.bitblast.
From S2P Require Import Prelude Libc.

(** The byte values of a Rocq string literal, for tables and format strings. *)
Definition lit (s : string) : list Z :=
  map (fun a => Z.of_N (N_of_ascii a)) (list_ascii_of_string s).

Module CString.

(** ** Character codes *)

Definition c_0 : Z := 48.
Definition c_9 : Z := 57.
Definition c_A : Z := 65.
Definition c_Z : Z := 90.
Definition c_a : Z := 97.
Definition c_f : Z := 102.
Definition c_z : Z := 122.
Definition c_minus : Z := 45.
Definition c_percent : Z := 37.
Definition c_question : Z := 63.
Definition c_equals : Z := 61.

Definition is_digit (c : Z) : bool := (c_0 <=? c) && (c <=? c_9).

Definition string_xxctolower (c : Z) : Z :=
  if (c_A <=? c) && (c <=? c_Z) then Z.lor c 32 else c.

Definition string_xxctoupper (c : Z) : Z :=
  if (c_a <=? c) && (c <=? c_z) then Z.land c (255 - 32) else c.

(** ** Copying, skipping, searching *)

Fixpoint string_xxstrtolower (src : list Z) (n : nat) : option (list Z) :=
  match n with
  | O => Some []
  | S n' =>
      match src with
      | [] => None
      | c :: src' => r ← string_xxstrtolower src' n'; Some (string_xxctolower c :: r)
      end
  end.

(** The advanced pointer: leading bytes that occur in [chars] are skipped. *)
Fixpoint string_strskip_chars (p chars : list Z) : option (list Z) :=
  match p with
  | [] => None
  | ch :: p' => if bool_decide (ch ∈ chars) then string_strskip_chars p' chars else Some p
  end.

(** The suffix that starts at the first [c]; the region is [p, last). *)
Fixpoint string_xxstrlchr (p : list Z) (c : Z) : option (list Z) :=
  match p with
  | [] => None
  | x :: p' => if x =? c then Some p else string_xxstrlchr p' c
  end.

(** ** Comparison.  The pointers are C strings: a read past the list is the
    terminating NUL, and neither loop reads past it. *)

Fixpoint string_xxstrncasecmp (s1 s2 : list Z) (n : nat) : Z :=
  match n with
  | O => 0
  | S n' =>
      let c1 := string_xxctolower (hd 0 s1) in
      let c2 := string_xxctolower (hd 0 s2) in
      if c1 =? c2 then
        (if negb (c1 =? 0) then string_xxstrncasecmp (tl s1) (tl s2) n' else 0)
      else c1 - c2
  end.

Definition string_xxstrcasecmp (s1 s2 : list Z) : Z :=
  string_xxstrncasecmp s1 s2 (S (Nat.max (List.length s1) (List.length s2))).

(** Compare the first [n] bytes from the last one down. *)
Fixpoint string_xxstrnrcmp (s1 s2 : list Z) (n : nat) : option Z :=
  match n with
  | O => Some 0
  | S n' =>
      a ← s1 !! n'; b ← s2 !! n';
      if negb (a =? b) then Some (a - b) else string_xxstrnrcmp s1 s2 n'
  end.

Definition case_fold (c : Z) : Z :=
  if (c_a <=? c) && (c <=? c_z) then c - (c_a - c_A) else c.

Fixpoint string_xxstrncasercmp (s1 s2 : list Z) (n : nat) : option Z :=
  match n with
  | O => Some 0
  | S n' =>
      a ← s1 !! n'; b ← s2 !! n';
      let c1 := case_fold a in
      let c2 := case_fold b in
      if negb (c1 =? c2) then Some (c1 - c2) else string_xxstrncasercmp s1 s2 n'
  end.

(** ** Numbers *)

(** A value a signed [w]-bit variable may hold; overflow is undefined. *)
Definition signed (w z : Z) : option Z := if bool_decide (in_s w z) then Some z else None.

(** The digit loop [for (value = 0; n--; line++)] of the three signed
    decimal readers: it stops at the first byte that is not a digit. *)
Fixpoint dec_loop (w : Z) (line : list Z) (n : nat) (value : Z) {struct n} : option Z :=
  match n with
  | O => Some value
  | S n' =>
      match line with
      | [] => None
      | c :: line' =>
          if (c <? c_0) || (c_9 <? c) then Some value
          else v ← signed w (value * 10 + (c - c_0)); dec_loop w line' n' v
      end
  end.

(** [line++] on a leading '-' does not decrement [n]. *)
Definition signed_line (line : list Z) : option (bool * list Z) :=
  match line with
  | [] => None
  | c :: line' => if c =? c_minus then Some (true, line') else Some (false, line)
  end.

Definition string_xxstrtoi (line : list Z) (n : nat) : option Z :=
  if (n =? 0)%nat then Some 0
  else '(negflag, line) ← signed_line line;
       value ← dec_loop 32 line n 0;
       Some (if negflag : bool then - value else value).

Definition string_xxstrtossize (line : list Z) (n : nat) : option Z :=
  if (n =? 0)%nat then Some 0
  else '(negflag, line) ← signed_line line;
       value ← dec_loop 64 line n 0;
       Some (if negflag : bool then - value else value).

(** The value of a hexadecimal digit byte, if it is one: [ch | 0x20] maps
    upper to lower case. *)
Definition hexval (ch : Z) : option Z :=
  if (c_0 <=? ch) && (ch <=? c_9) then Some (ch - c_0)
  else let c := Z.lor ch 32 in
       if (c_a <=? c) && (c <=? c_f) then Some (c - c_a + 10) else None.

Fixpoint hex_loop (line : list Z) (n : nat) (value : Z) {struct n} : option Z :=
  match n with
  | O => Some value
  | S n' =>
      match line with
      | [] => None
      | ch :: line' =>
          match hexval ch with
          | Some d => v ← signed 32 (value * 16 + d); hex_loop line' n' v
          | None => Some value
          end
      end
  end.

Definition string_xxstrhextoi (line : list Z) (n : nat) : option Z :=
  if (n =? 0)%nat then Some 0
  else '(negflag, line) ← signed_line line;
       value ← hex_loop line n 0;
       Some (if negflag : bool then - value else value).

(** The strict readers: every one of the [n] bytes must be a digit, and
    [DFS_ERROR] (-1, converted to the result type) is returned otherwise.
    The unsigned ones wrap at their width; [time_t] is signed. *)
Fixpoint unsigned_loop (w : Z) (line : list Z) (n : nat) (value : Z) {struct n} : option Z :=
  match n with
  | O => Some value
  | S n' =>
      match line with
      | [] => None
      | c :: line' =>
          if (c <? c_0) || (c_9 <? c) then Some (uwrap w (-1))
          else unsigned_loop w line' n' (uwrap w (value * 10 + (c - c_0)))
      end
  end.

Definition string_xxstrtoui (line : list Z) (n : nat) : option Z :=
  if (n =? 0)%nat then Some (u32 (-1)) else unsigned_loop 32 line n 0.

Definition string_xxstrtosize (line : list Z) (n : nat) : option Z :=
  if (n =? 0)%nat then Some (u64 (-1)) else unsigned_loop 64 line n 0.

Fixpoint time_loop (line : list Z) (n : nat) (value : Z) {struct n} : option Z :=
  match n with
  | O => Some value
  | S n' =>
      match line with
      | [] => None
      | c :: line' =>
          if (c <? c_0) || (c_9 <? c) then Some (-1)
          else v ← signed 64 (value * 10 + (c - c_0)); time_loop line' n' v
      end
  end.

Definition string_xxstrtotime (line : list Z) (n : nat) : option Z :=
  if (n =? 0)%nat then Some (-1) else time_loop line n 0.

(** ** Hexadecimal output *)

Definition hex : list Z := lit "0123456789abcdef".
Definition hexdigit (d : Z) : Z := nth (Z.to_nat d) hex 0.

Fixpoint string_xxstrtohex (src : list Z) : list Z :=
  match src with
  | [] => []
  | c :: src' =>
      hexdigit (Z.shiftr c 4) :: hexdigit (Z.land c 15) :: string_xxstrtohex src'
  end.

(** ** Base64 *)

Definition basis64_enc : list Z :=
  lit "ABCDEFGHIJKLMNOPQRSTUVWXYZabcdefghijklmnopqrstuvwxyz0123456789+/".
Definition enc64 (v : Z) : Z := nth (Z.to_nat v) basis64_enc 0.

Fixpoint string_base64_encode (s : list Z) : list Z :=
  match s with
  | s0 :: s1 :: s2 :: s' =>
      enc64 (Z.land (Z.shiftr s0 2) 63)
      :: enc64 (Z.lor (Z.shiftl (Z.land s0 3) 4) (Z.shiftr s1 4))
      :: enc64 (Z.lor (Z.shiftl (Z.land s1 15) 2) (Z.shiftr s2 6))
      :: enc64 (Z.land s2 63)
      :: string_base64_encode s'
  | [s0; s1] =>
      [ enc64 (Z.land (Z.shiftr s0 2) 63);
        enc64 (Z.lor (Z.shiftl (Z.land s0 3) 4) (Z.shiftr s1 4));
        enc64 (Z.shiftl (Z.land s1 15) 2);
        c_equals ]
  | [s0] =>
      [ enc64 (Z.land (Z.shiftr s0 2) 63);
        enc64 (Z.shiftl (Z.land s0 3) 4);
        c_equals; c_equals ]
  | [] => []
  end.

Definition basis64_dec : list Z := [
  77; 77; 77; 77; 77; 77; 77; 77; 77; 77; 77; 77; 77; 77; 77; 77;
  77; 77; 77; 77; 77; 77; 77; 77; 77; 77; 77; 77; 77; 77; 77; 77;
  77; 77; 77; 77; 77; 77; 77; 77; 77; 77; 77; 62; 77; 77; 77; 63;
  52; 53; 54; 55; 56; 57; 58; 59; 60; 61; 77; 77; 77; 77; 77; 77;
  77;  0;  1;  2;  3;  4;  5;  6;  7;  8;  9; 10; 11; 12; 13; 14;
  15; 16; 17; 18; 19; 20; 21; 22; 23; 24; 25; 77; 77; 77; 77; 77;
  77; 26; 27; 28; 29; 30; 31; 32; 33; 34; 35; 36; 37; 38; 39; 40;
  41; 42; 43; 44; 45; 46; 47; 48; 49; 50; 51; 77; 77; 77; 77; 77;

  77; 77; 77; 77; 77; 77; 77; 77; 77; 77; 77; 77; 77; 77; 77; 77;
  77; 77; 77; 77; 77; 77; 77; 77; 77; 77; 77; 77; 77; 77; 77; 77;
  77; 77; 77; 77; 77; 77; 77; 77; 77; 77; 77; 77; 77; 77; 77; 77;
  77; 77; 77; 77; 77; 77; 77; 77; 77; 77; 77; 77; 77; 77; 77; 77;
  77; 77; 77; 77; 77; 77; 77; 77; 77; 77; 77; 77; 77; 77; 77; 77;
  77; 77; 77; 77; 77; 77; 77; 77; 77; 77; 77; 77; 77; 77; 77; 77;
  77; 77; 77; 77; 77; 77; 77; 77; 77; 77; 77; 77; 77; 77; 77; 77;
  77; 77; 77; 77; 77; 77; 77; 77; 77; 77; 77; 77; 77; 77; 77; 77 ].
Definition dec64 (c : Z) : Z := nth (Z.to_nat c) basis64_dec 77.

(** The scan: the bytes before the first '=', or [None] for a byte outside
    the alphabet. *)
Fixpoint base64_scan (src : list Z) : option (list Z) :=
  match src with
  | [] => Some []
  | c :: src' =>
      if c =? c_equals then Some []
      else if dec64 c =? 77 then None
      else r ← base64_scan src'; Some (c :: r)
  end.

Fixpoint base64_groups (s : list Z) : list Z :=
  match s with
  | s0 :: s1 :: s2 :: s3 :: s' =>
      u8 (Z.lor (Z.shiftl (dec64 s0) 2) (Z.shiftr (dec64 s1) 4))
      :: u8 (Z.lor (Z.shiftl (dec64 s1) 4) (Z.shiftr (dec64 s2) 2))
      :: u8 (Z.lor (Z.shiftl (dec64 s2) 6) (dec64 s3))
      :: base64_groups s'
  | [s0; s1; s2] =>
      [ u8 (Z.lor (Z.shiftl (dec64 s0) 2) (Z.shiftr (dec64 s1) 4));
        u8 (Z.lor (Z.shiftl (dec64 s1) 4) (Z.shiftr (dec64 s2) 2)) ]
  | [s0; s1] =>
      [ u8 (Z.lor (Z.shiftl (dec64 s0) 2) (Z.shiftr (dec64 s1) 4)) ]
  | _ => []
  end.

(** [None] is the [DFS_ERROR] return. *)
Definition string_base64_decode (src : list Z) : option (list Z) :=
  s ← base64_scan src;
  if (Nat.modulo (List.length s) 4 =? 1)%nat then None else Some (base64_groups s).

(** ** Substring search *)

(** [string_xxstrnstr]: the pattern is [c2] followed by the C string [s2];
    at most [len] bytes of [s1] are looked at.  The result is the index of
    the match. *)
Fixpoint strnstr_loop (s1 : list Z) (c2 : Z) (s2 : list Z) (len : nat) : option nat :=
  match len with
  | O => None
  | S len' =>
      match s1 with
      | [] => None
      | c1 :: s1' =>
          if c1 =? 0 then None
          else if negb (c1 =? c2) then S <$> strnstr_loop s1' c2 s2 len'
          else if (len' <? List.length s2)%nat then None
          else if negb (Libc.strncmp s1' s2 (List.length s2) =? 0)
               then S <$> strnstr_loop s1' c2 s2 len'
          else Some O
      end
  end.

Definition string_xxstrnstr (s1 s2 : list Z) (len : nat) : option nat :=
  strnstr_loop s1 (hd 0 s2) (tl s2) len.

(** The shape the three NUL-terminated and bounded searches share. *)
Fixpoint search_loop (fold : Z -> Z) (c2 : Z) (tail_eq : list Z -> bool)
    (s1 : list Z) : option nat :=
  match s1 with
  | [] => None
  | c1 :: s1' =>
      if c1 =? 0 then None
      else if (fold c1 =? c2) && tail_eq s1' then Some O
      else S <$> search_loop fold c2 tail_eq s1'
  end.

Definition string_xxstrstrn (s1 s2 : list Z) (n : nat) : option nat :=
  search_loop (fun c => c) (hd 0 s2) (fun s => Libc.strncmp s (tl s2) n =? 0) s1.

Definition string_xxstrcasestrn (s1 s2 : list Z) (n : nat) : option nat :=
  search_loop string_xxctolower (string_xxctolower (hd 0 s2))
    (fun s => string_xxstrncasecmp s (tl s2) (n - 1) =? 0) s1.

(** The [last]-bounded searches: [last -= n] leaves [todo] start positions. *)
Fixpoint bounded_search (c2 : Z) (tail_eq : list Z -> bool)
    (s1 : list Z) (todo : nat) : option nat :=
  match todo, s1 with
  | S todo', c1 :: s1' =>
      if (string_xxctolower c1 =? c2) && tail_eq s1' then Some O
      else S <$> bounded_search c2 tail_eq s1' todo'
  | _, _ => None
  end.

Definition string_xxstrlcasestrn (s1 s2 : list Z) (n : nat) : option nat :=
  bounded_search (string_xxctolower (hd 0 s2))
    (fun s => string_xxstrncasecmp s (tl s2) n =? 0) s1 (List.length s1 - n).

Definition string_xxstrlstrn (s1 s2 : list Z) (n : nat) : option nat :=
  bounded_search (string_xxctolower (hd 0 s2))
    (fun s => Libc.strncmp s (tl s2) n =? 0) s1 (List.length s1 - n).

(** ** URI escaping *)

Definition uri_map : list Z :=
  [0xffffffff; 0x80000029; 0x00000000; 0x80000000;
   0xffffffff; 0xffffffff; 0xffffffff; 0xffffffff].
Definition args_map : list Z :=
  [0xffffffff; 0x80000829; 0x00000000; 0x80000000;
   0xffffffff; 0xffffffff; 0xffffffff; 0xffffffff].
Definition html_map : list Z :=
  [0xffffffff; 0x000000ad; 0x00000000; 0x80000000;
   0xffffffff; 0xffffffff; 0xffffffff; 0xffffffff].
Definition refresh_map : list Z :=
  [0xffffffff; 0x00000085; 0x00000000; 0x80000000;
   0xffffffff; 0xffffffff; 0xffffffff; 0xffffffff].
Definition memcached_map : list Z :=
  [0xffffffff; 0x00000021; 0x00000000; 0x00000000;
   0x00000000; 0x00000000; 0x00000000; 0x00000000].

Definition escape_maps : list (list Z) :=
  [uri_map; args_map; html_map; refresh_map; memcached_map; memcached_map].

(** [escape[c >> 5] & (1 << (c & 0x1f))] *)
Definition must_escape (escape : list Z) (c : Z) : bool :=
  Z.testbit (nth (Z.to_nat (Z.shiftr c 5)) escape 0) (Z.land c 31).

(** The call with a NULL [dst] counts the bytes to escape. *)
Fixpoint escape_count (escape : list Z) (src : list Z) : Z :=
  match src with
  | [] => 0
  | c :: src' => (if must_escape escape c then 1 else 0) + escape_count escape src'
  end.

Fixpoint escape_bytes (escape : list Z) (src : list Z) : list Z :=
  match src with
  | [] => []
  | c :: src' =>
      if must_escape escape c then
        c_percent :: hexdigit (Z.shiftr c 4) :: hexdigit (Z.land c 15)
        :: escape_bytes escape src'
      else c :: escape_bytes escape src'
  end.

(** [None]: a [type] outside the table of maps. *)
Definition string_escape_uri (src : list Z) (type : nat) : option (list Z) :=
  escape ← escape_maps !! type; Some (escape_bytes escape src).
Definition string_escape_uri_size (src : list Z) (type : nat) : option Z :=
  escape ← escape_maps !! type; Some (escape_count escape src).

Definition DFS_UNESCAPE_URI : Z := 1.
Definition DFS_UNESCAPE_REDIRECT : Z := 2.

Inductive sw_state := sw_usual | sw_quoted | sw_quoted_second.

Definition flag (type bit : Z) : bool := negb (Z.land type bit =? 0).

(** What the [sw_quoted_second] state emits for the decoded byte [ch] when it
    does not stop: with [DFS_UNESCAPE_REDIRECT] only printable bytes after
    '%' are decoded, the others keep their three source bytes. *)
Definition redirect_bytes (ch prev raw : Z) : list Z :=
  if (c_percent <? ch) && (ch <? 0x7f) then [ch] else [c_percent; prev; raw].

(** [prev] is the source byte read just before ([*(s - 2)] in C).  The result
    is the bytes written and the bytes of [src] left unread. *)
Fixpoint unescape_loop (type : Z) (state : sw_state) (decoded prev : Z)
    (s : list Z) : list Z * list Z :=
  match s with
  | [] => ([], [])
  | ch :: s' =>
      match state with
      | sw_usual =>
          if (ch =? c_question) && flag type (Z.lor DFS_UNESCAPE_URI DFS_UNESCAPE_REDIRECT)
          then ([ch], s')
          else if ch =? c_percent then unescape_loop type sw_quoted decoded ch s'
          else let '(d, r) := unescape_loop type sw_usual decoded ch s' in (ch :: d, r)
      | sw_quoted =>
          if (c_0 <=? ch) && (ch <=? c_9) then
            unescape_loop type sw_quoted_second (u8 (ch - c_0)) ch s'
          else
            let c := Z.lor ch 32 in
            if (c_a <=? c) && (c <=? c_f) then
              unescape_loop type sw_quoted_second (u8 (c - c_a + 10)) ch s'
            else let '(d, r) := unescape_loop type sw_usual decoded ch s' in (ch :: d, r)
      | sw_quoted_second =>
          if (c_0 <=? ch) && (ch <=? c_9) then
            let b := u8 (Z.shiftl decoded 4 + ch - c_0) in
            let '(d, r) := unescape_loop type sw_usual decoded ch s' in
            if flag type DFS_UNESCAPE_REDIRECT then (redirect_bytes b prev ch ++ d, r)
            else (b :: d, r)
          else
            let c := Z.lor ch 32 in
            if (c_a <=? c) && (c <=? c_f) then
              let b := u8 (Z.shiftl decoded 4 + c - c_a + 10) in
              let '(d, r) := unescape_loop type sw_usual decoded ch s' in
              if flag type DFS_UNESCAPE_URI then
                if b =? c_question then ([b], s') else (b :: d, r)
              else if flag type DFS_UNESCAPE_REDIRECT then
                if b =? c_question then ([b], s') else (redirect_bytes b prev ch ++ d, r)
              else (b :: d, r)
            else unescape_loop type sw_usual decoded ch s'
      end
  end.

Definition string_unescape_uri (src : list Z) (type : Z) : list Z * list Z :=
  unescape_loop type sw_usual 0 0 src.

(** ** HTML escaping *)

Definition c_lt : Z := 60.
Definition c_gt : Z := 62.
Definition c_amp : Z := 38.

Fixpoint escape_html_extra (src : list Z) : Z :=
  match src with
  | [] => 0
  | c :: src' =>
      (if c =? c_lt then 3 else if c =? c_gt then 3 else if c =? c_amp then 4 else 0)
      + escape_html_extra src'
  end.

Fixpoint string_escape_html (src : list Z) : list Z :=
  match src with
  | [] => []
  | ch :: src' =>
      (if ch =? c_lt then lit "&lt;"
       else if ch =? c_gt then lit "&gt;"
       else if ch =? c_amp then lit "&amp;"
       else [ch]) ++ string_escape_html src'
  end.

(** ** UTF-8 *)

Definition utf8_error : Z := 0xffffffff.
Definition utf8_incomplete : Z := 0xfffffffe.

(** The continuation loop: the code point so far, or the early
    [return 0xffffffff], with the advanced pointer. *)
Fixpoint utf8_cont (len : nat) (u : Z) (p : list Z) : option ((Z + Z) * list Z) :=
  match len with
  | O => Some (inl u, p)
  | S len' =>
      match p with
      | [] => None
      | i :: p' =>
          if i <? 0x80 then Some (inr utf8_error, p')
          else utf8_cont len' (u32 (Z.lor (Z.shiftl u 6) (Z.land i 0x3f))) p'
      end
  end.

(** [(u, valid, len)] for a lead byte, by the three comparisons of the code. *)
Definition utf8_lead (u : Z) : option (Z * Z * nat) :=
  if 0xf0 <? u then Some (Z.land u 0x07, 0xffff, 3%nat)
  else if 0xe0 <? u then Some (Z.land u 0x0f, 0x7ff, 2%nat)
  else if 0xc0 <? u then Some (Z.land u 0x1f, 0x7f, 1%nat)
  else None.

Definition string_utf8_decode (p : list Z) (n : Z) : option (Z * list Z) :=
  match p with
  | [] => None
  | b :: p' =>
      match utf8_lead b with
      | None => Some (utf8_error, p')
      | Some (u, valid, len) =>
          if u64 (n - 1) <? Z.of_nat len then Some (utf8_incomplete, p)
          else '(r, p'') ← utf8_cont len u p';
               match r with
               | inr e => Some (e, p'')
               | inl u => Some (if valid <? u then u else utf8_error, p'')
               end
      end
  end.

(** [r] is [last - p]; [n] is passed unchanged to the decoder, as in C. *)
Fixpoint utf8_length_loop (fuel : nat) (p : list Z) (r n len : Z) : option Z :=
  if r <=? 0 then Some len else
  match fuel with
  | O => None
  | S fuel' =>
      match p with
      | [] => None
      | c :: p' =>
          if c <? 0x80 then utf8_length_loop fuel' p' (r - 1) n (len + 1)
          else '(u, q) ← string_utf8_decode p n;
               if 0x10ffff <? u then Some n
               else utf8_length_loop fuel' q
                      (r - (Z.of_nat (List.length p) - Z.of_nat (List.length q))) n (len + 1)
      end
  end.

(** Every round that goes on consumes a byte: [n] rounds of fuel suffice. *)
Definition string_utf8_length (p : list Z) (n : nat) : option Z :=
  utf8_length_loop n p (Z.of_nat n) (Z.of_nat n) 0.

(** ** Lemmas: base64 *)

Lemma enc64_spec : forall v,
  0 <= v < 64 -> dec64 (enc64 v) = v /\ enc64 v <> c_equals /\ 1 <= enc64 v < 128.
Proof. by_range 64%nat. Qed.

Lemma land_low_range a n : 0 <= n -> 0 <= Z.land a (Z.ones n) < 2 ^ n.
Proof. intros. rewrite Z.land_ones by lia. apply Z.mod_pos_bound. lia. Qed.

Lemma byte_mask a : 0 <= a < 256 -> a = Z.land a (Z.ones 8).
Proof. intros. rewrite Z.land_ones by lia. symmetry. by apply Z.mod_small. Qed.

(** Close an equation between bit expressions over bytes. *)
Ltac byte_bits :=
  unfold u8, uwrap;
  repeat match goal with |- context [ ?x mod 2 ^ 8 ] => rewrite <- (Z.land_ones x 8) by lia end;
  repeat match goal with
    | H : 0 <= ?a < 256 |- _ => rewrite (byte_mask a H); clear H
    end;
  change 63 with (Z.ones 6); change 15 with (Z.ones 4); change 3 with (Z.ones 2);
  Z.bitblast; Z.bitblast_core.

Lemma lor_range a b n m :
  0 <= n -> 0 <= m -> 0 <= a < 2 ^ n -> 0 <= b < 2 ^ m ->
  0 <= Z.lor (Z.shiftl a m) b < 2 ^ (n + m).
Proof.
  intros Hn Hm Ha Hb. rewrite lor_shift_add, Z.pow_add_r by lia. nia.
Qed.

Lemma shiftr_range a n m : 0 <= m <= n -> 0 <= a < 2 ^ n -> 0 <= Z.shiftr a m < 2 ^ (n - m).
Proof.
  intros Hm Ha. rewrite Z.shiftr_div_pow2 by lia. split.
  - apply Z.div_pos; lia.
  - apply Z.div_lt_upper_bound; [lia|]. rewrite <- Z.pow_add_r by lia.
    replace (m + (n - m)) with n by lia. lia.
Qed.

Section group.
Context (a b c : Z) (Ha : 0 <= a < 256) (Hb : 0 <= b < 256) (Hc : 0 <= c < 256).

(** The four 6-bit groups of three bytes. *)
Lemma sextet_ranges :
  0 <= Z.land (Z.shiftr a 2) 63 < 64 /\
  0 <= Z.lor (Z.shiftl (Z.land a 3) 4) (Z.shiftr b 4) < 64 /\
  0 <= Z.lor (Z.shiftl (Z.land b 15) 2) (Z.shiftr c 6) < 64 /\
  0 <= Z.land c 63 < 64 /\
  0 <= Z.shiftl (Z.land b 15) 2 < 64 /\
  0 <= Z.shiftl (Z.land a 3) 4 < 64.
Proof.
  pose proof (land_low_range (Z.shiftr a 2) 6 ltac:(lia)).
  pose proof (land_low_range a 2 ltac:(lia)).
  pose proof (land_low_range b 4 ltac:(lia)).
  pose proof (land_low_range c 6 ltac:(lia)).
  pose proof (shiftr_range b 8 4 ltac:(lia) Hb).
  pose proof (shiftr_range c 8 6 ltac:(lia) Hc).
  split; [done|]. split; [by apply (lor_range _ _ 2 4)|].
  split; [by apply (lor_range _ _ 4 2)|]. split; [done|].
  rewrite !Z.shiftl_mul_pow2 by lia.
  change (Z.ones 2) with 3 in *. change (Z.ones 4) with 15 in *. lia.
Qed.

(** Regrouping the sextets gives the bytes back. *)
Lemma regroup0 :
  u8 (Z.lor (Z.shiftl (Z.land (Z.shiftr a 2) 63) 2)
            (Z.shiftr (Z.lor (Z.shiftl (Z.land a 3) 4) (Z.shiftr b 4)) 4)) = a.
Proof. clear Hc. byte_bits. Qed.

Lemma regroup1 :
  u8 (Z.lor (Z.shiftl (Z.lor (Z.shiftl (Z.land a 3) 4) (Z.shiftr b 4)) 4)
            (Z.shiftr (Z.lor (Z.shiftl (Z.land b 15) 2) (Z.shiftr c 6)) 2)) = b.
Proof. byte_bits. Qed.

Lemma regroup2 :
  u8 (Z.lor (Z.shiftl (Z.lor (Z.shiftl (Z.land b 15) 2) (Z.shiftr c 6)) 6)
            (Z.land c 63)) = c.
Proof. clear Ha. byte_bits. Qed.

Lemma regroup0_last :
  u8 (Z.lor (Z.shiftl (Z.land (Z.shiftr a 2) 63) 2)
            (Z.shiftr (Z.shiftl (Z.land a 3) 4) 4)) = a.
Proof. clear Hb Hc. byte_bits. Qed.

Lemma regroup1_last :
  u8 (Z.lor (Z.shiftl (Z.lor (Z.shiftl (Z.land a 3) 4) (Z.shiftr b 4)) 4)
            (Z.shiftr (Z.shiftl (Z.land b 15) 2) 2)) = b.
Proof. clear Hc. byte_bits. Qed.
End group.

(** Scanning encoded sextets keeps them. *)
Lemma scan_enc64 v s : 0 <= v < 64 ->
  base64_scan (enc64 v :: s) = (r ← base64_scan s; Some (enc64 v :: r)).
Proof.
  intros Hv. destruct (enc64_spec v Hv) as (Hd & He & _). simpl.
  destruct (Z.eqb_spec (enc64 v) c_equals); [done|]. rewrite Hd.
  destruct (Z.eqb_spec v 77); [lia|done].
Qed.

Lemma base64_encode_scan s :
  Libc.is_bytes s ->
  exists t, base64_scan (string_base64_encode s) = Some t
    /\ (Nat.modulo (List.length t) 4 <> 1)%nat /\ base64_groups t = s.
Proof.
  induction s as [|a|a b|a b c l IH] using list_ind3; intros Hs.
  - by exists [].
  - apply Forall_cons in Hs as [Ha _].
    destruct (sextet_ranges a a a Ha Ha) as (R0 & _ & _ & _ & _ & R1).
    eexists. cbn [string_base64_encode]. rewrite !scan_enc64 by done. split; [done|].
    split; [done|]. cbn [base64_groups].
    destruct (enc64_spec _ R0) as [-> _], (enc64_spec _ R1) as [-> _].
    by rewrite regroup0_last.
  - apply Forall_cons in Hs as [Ha [Hb _]%Forall_cons].
    destruct (sextet_ranges a b a Hb Ha) as (R0 & R1 & _ & _ & R2 & _).
    eexists. cbn [string_base64_encode]. rewrite !scan_enc64 by done. split; [done|].
    split; [done|]. cbn [base64_groups].
    destruct (enc64_spec _ R0) as [-> _], (enc64_spec _ R1) as [-> _], (enc64_spec _ R2) as [-> _].
    by rewrite regroup0, regroup1_last.
  - apply Forall_cons in Hs as [Ha [Hb [Hc Hl]%Forall_cons]%Forall_cons].
    destruct (IH Hl) as (t & Ht & Hm & Hg).
    destruct (sextet_ranges a b c Hb Hc) as (R0 & R1 & R2 & R3 & _).
    eexists. cbn [string_base64_encode]. rewrite !scan_enc64, Ht by done. split; [done|].
    split.
    { cbn [List.length]. replace (S (S (S (S (List.length t))))) with (List.length t + 1 * 4)%nat by lia.
      by rewrite Nat.Div0.mod_add. }
    cbn [base64_groups].
    destruct (enc64_spec _ R0) as [-> _], (enc64_spec _ R1) as [-> _],
      (enc64_spec _ R2) as [-> _], (enc64_spec _ R3) as [-> _].
    by rewrite regroup0, regroup1, regroup2, Hg.
Qed.

Lemma base64_decode_encode s :
  Libc.is_bytes s -> string_base64_decode (string_base64_encode s) = Some s.
Proof.
  intros Hs. destruct (base64_encode_scan s Hs) as (t & Ht & Hm & Hg).
  unfold string_base64_decode. rewrite Ht. cbn [mbind option_bind].
  destruct (Nat.eqb_spec (Nat.modulo (List.length t) 4) 1); [done|]. by rewrite Hg.
Qed.

Lemma base64_encode_inj s t :
  Libc.is_bytes s -> Libc.is_bytes t ->
  string_base64_encode s = string_base64_encode t -> s = t.
Proof.
  intros Hs%base64_decode_encode Ht%base64_decode_encode E.
  rewrite E, Ht in Hs. by injection Hs.
Qed.

(** An encoded key is a C string of four bytes per three-byte group. *)
Lemma base64_encode_cstr s :
  Libc.is_bytes s -> Libc.is_cstr (string_base64_encode s).
Proof.
  unfold Libc.is_cstr.
  induction s as [|a|a b|a b c l IH] using list_ind3; intros Hs; cbn [string_base64_encode].
  - constructor.
  - apply Forall_cons in Hs as [Ha _].
    destruct (sextet_ranges a a a Ha Ha) as (R0 & _ & _ & _ & _ & R1).
    repeat constructor; try (unfold c_equals; lia);
      match goal with R : 0 <= ?v < 64 |- context [enc64 ?v] =>
        destruct (enc64_spec _ R) as (_ & _ & ?); lia end.
  - apply Forall_cons in Hs as [Ha [Hb _]%Forall_cons].
    destruct (sextet_ranges a b a Hb Ha) as (R0 & R1 & _ & _ & R2 & _).
    repeat constructor; try (unfold c_equals; lia);
      match goal with R : 0 <= ?v < 64 |- context [enc64 ?v] =>
        destruct (enc64_spec _ R) as (_ & _ & ?); lia end.
  - apply Forall_cons in Hs as [Ha [Hb [Hc Hl]%Forall_cons]%Forall_cons].
    destruct (sextet_ranges a b c Hb Hc) as (R0 & R1 & R2 & R3 & _).
    repeat (constructor; [match goal with R : 0 <= ?v < 64 |- context [enc64 ?v] =>
        destruct (enc64_spec _ R) as (_ & _ & ?); lia end|]). by apply IH.
Qed.

Lemma base64_encode_length s :
  List.length (string_base64_encode s) = (4 * ((List.length s + 2) / 3))%nat.
Proof.
  induction s as [|a|a b|a b c l IH] using list_ind3; try done.
  cbn [string_base64_encode List.length]. rewrite IH.
  replace (S (S (S (List.length l))) + 2)%nat with (List.length l + 2 + 1 * 3)%nat by lia.
  rewrite Nat.div_add by lia. lia.
Qed.

(** ** Lemmas: escaping *)

Lemma nibbles : forall c, 0 <= c < 256 ->
  (0 <= Z.shiftr c 4 < 16) /\ (0 <= Z.land c 15 < 16)
  /\ u8 (Z.shiftl (Z.shiftr c 4) 4 + Z.land c 15) = c.
Proof. by_range 256%nat. Qed.

(** A hexadecimal digit is a decimal digit or a letter a-f, with its value. *)
Lemma hexdigit_cases : forall d, 0 <= d < 16 ->
  let h := hexdigit d in
  ((c_0 <=? h) && (h <=? c_9) = true /\ h - c_0 = d) \/
  ((c_0 <=? h) && (h <=? c_9) = false
   /\ (c_a <=? Z.lor h 32) && (Z.lor h 32 <=? c_f) = true /\ Z.lor h 32 - c_a + 10 = d).
Proof. by_range 16%nat. Qed.

Lemma hexval_hexdigit d : 0 <= d < 16 -> hexval (hexdigit d) = Some d.
Proof.
  intros Hd. unfold hexval.
  destruct (hexdigit_cases d Hd) as [[-> ->]|(-> & -> & ->)]; done.
Qed.

(** The decoder reads back one escaped byte, in the mode that decodes all. *)
Lemma unescape_escaped c s decoded prev :
  0 <= c < 256 ->
  unescape_loop 0 sw_usual decoded prev
    (c_percent :: hexdigit (Z.shiftr c 4) :: hexdigit (Z.land c 15) :: s)
  = let '(d, r) := unescape_loop 0 sw_usual (Z.shiftr c 4) (hexdigit (Z.land c 15)) s in
    (c :: d, r).
Proof.
  intros Hc. destruct (nibbles c Hc) as (Hh & Hl & Hb).
  cbn [unescape_loop]. change (c_percent =? c_question) with false.
  change (c_percent =? c_percent) with true. cbn [andb].
  assert (u8 (Z.shiftr c 4) = Z.shiftr c 4) as Hu by (apply uwrap_small; unfold in_u; lia).
  assert (forall x, unescape_loop 0 sw_quoted_second (Z.shiftr c 4) x
            (hexdigit (Z.land c 15) :: s) =
          let '(d, r) := unescape_loop 0 sw_usual (Z.shiftr c 4) (hexdigit (Z.land c 15)) s in
          (c :: d, r)) as Hsecond.
  { intros x. cbn [unescape_loop].
    change (flag 0 DFS_UNESCAPE_REDIRECT) with false.
    change (flag 0 DFS_UNESCAPE_URI) with false.
    destruct (hexdigit_cases _ Hl) as [[-> E]|(-> & -> & E)].
    - replace (Z.shiftl (Z.shiftr c 4) 4 + hexdigit (Z.land c 15) - c_0)
        with (Z.shiftl (Z.shiftr c 4) 4 + Z.land c 15) by lia. by rewrite Hb.
    - replace (Z.shiftl (Z.shiftr c 4) 4 + Z.lor (hexdigit (Z.land c 15)) 32 - c_a + 10)
        with (Z.shiftl (Z.shiftr c 4) 4 + Z.land c 15) by lia. by rewrite Hb. }
  destruct (hexdigit_cases _ Hh) as [[-> E]|(-> & -> & E)]; rewrite E, Hu; apply Hsecond.
Qed.

(** Every table but the [refresh] one escapes the escape character. *)
Lemma maps_escape_percent m i :
  escape_maps !! i = Some m -> i <> 3%nat -> must_escape m c_percent = true.
Proof.
  intros Hm Hi. do 6 (destruct i as [|i]; [by injection Hm as <-|]). done.
Qed.

Lemma unescape_escape m s decoded prev :
  must_escape m c_percent = true -> Libc.is_bytes s ->
  unescape_loop 0 sw_usual decoded prev (escape_bytes m s) = (s, []).
Proof.
  intros Hm Hs. revert decoded prev.
  induction Hs as [|c s Hc _ IH]; intros decoded prev; [done|]. cbn [escape_bytes].
  destruct (must_escape m c) eqn:E.
  - rewrite unescape_escaped by done. by rewrite IH.
  - cbn [unescape_loop]. destruct (Z.eqb_spec c c_percent) as [->|]; [congruence|].
    change (flag 0 _) with false. rewrite andb_false_r, IH. done.
Qed.

Lemma escape_bytes_length m s :
  Z.of_nat (List.length (escape_bytes m s)) = Z.of_nat (List.length s) + 2 * escape_count m s.
Proof.
  induction s as [|c s IH]; [done|]. cbn [escape_bytes escape_count].
  destruct (must_escape m c); cbn [List.length]; lia.
Qed.

Lemma escape_html_length s :
  Z.of_nat (List.length (string_escape_html s))
  = Z.of_nat (List.length s) + escape_html_extra s.
Proof.
  induction s as [|c s IH]; [done|]. cbn [string_escape_html escape_html_extra].
  rewrite length_app.
  destruct (c =? c_lt), (c =? c_gt), (c =? c_amp); cbn [List.length lit]; 
    change (List.length (lit "&lt;")) with 4%nat; change (List.length (lit "&gt;")) with 4%nat;
    change (List.length (lit "&amp;")) with 5%nat; cbn [List.length]; lia.
Qed.

(** ** Lemmas: numbers *)

(** The big-endian value of a list of bytes, after [acc]. *)
Fixpoint be_value (acc : Z) (s : list Z) : Z :=
  match s with
  | [] => acc
  | b :: s' => be_value (acc * 256 + b) s'
  end.

Lemma be_value_mono acc s : 0 <= acc -> Libc.is_bytes s -> acc <= be_value acc s.
Proof.
  intros Ha Hs. revert acc Ha. induction Hs as [|b s Hb _ IH]; intros acc Ha; [done|].
  cbn [be_value]. specialize (IH (acc * 256 + b)). lia.
Qed.

Lemma hex_loop_step d line n v :
  0 <= d < 16 -> 0 <= v -> v * 16 + d < 2 ^ 31 ->
  hex_loop (hexdigit d :: line) (S n) v = hex_loop line n (v * 16 + d).
Proof.
  intros Hd Hv Hb. cbn [hex_loop]. rewrite hexval_hexdigit by done.
  unfold signed. rewrite bool_decide_true; [done|]. unfold in_s. lia.
Qed.

Lemma hex_loop_strtohex s acc rest :
  Libc.is_bytes s -> 0 <= acc -> be_value acc s < 2 ^ 31 ->
  hex_loop (string_xxstrtohex s ++ rest) (2 * List.length s) acc = Some (be_value acc s).
Proof.
  intros Hs. revert acc. induction Hs as [|b s Hb Hs IH]; intros acc Ha Hlt; [reflexivity|].
  cbn [be_value] in Hlt. pose proof (be_value_mono (acc * 256 + b) s ltac:(lia) Hs).
  destruct (nibbles b Hb) as (Hh & Hl & Hn).
  assert (Z.shiftr b 4 * 16 + Z.land b 15 = b) as Hsum.
  { rewrite Z.shiftl_mul_pow2 in Hn by lia. unfold u8 in Hn.
    rewrite uwrap_small in Hn by (unfold in_u; lia). lia. }
  cbn [List.length string_xxstrtohex app].
  replace (2 * S (List.length s))%nat with (S (S (2 * List.length s))) by lia.
  rewrite !hex_loop_step by lia.
  replace ((acc * 16 + Z.shiftr b 4) * 16 + Z.land b 15) with (acc * 256 + b) by lia.
  apply IH; lia.
Qed.

(** A run of digits that fills the buffer: the loop reads past the end. *)
Lemma dec_loop_past_end w digits v :
  Forall (fun c => is_digit c = true) digits ->
  dec_loop w digits (S (List.length digits)) v = None.
Proof.
  intros Hd. revert v. induction Hd as [|c s Hc _ IH]; intros v; [done|].
  cbn [List.length]. cbn [dec_loop]. unfold is_digit in Hc.
  destruct (Z.ltb_spec c c_0), (Z.ltb_spec c_9 c); cbn [orb]; try lia.
  destruct (signed w (v * 10 + (c - c_0))); [apply IH|done].
Qed.

(** ** Lemmas: substring search *)

(** [i] is the first position of [pat] in [s]; there is none for [None]. *)
Definition first_occurrence (pat s : list Z) (r : option nat) : Prop :=
  match r with
  | Some i => pat `prefix_of` drop i s /\ forall j, (j < i)%nat -> ~ pat `prefix_of` drop j s
  | None => forall j, ~ pat `prefix_of` drop j s
  end.

Lemma first_occurrence_cons pat c s r :
  ~ pat `prefix_of` c :: s -> first_occurrence pat s r ->
  first_occurrence pat (c :: s) (S <$> r).
Proof.
  intros Hno. destruct r as [i|]; simpl.
  - intros [Hi Hmin]. split; [done|]. intros [|j] Hj; [done|]. apply Hmin. lia.
  - intros Hnone [|j]; [done|]. apply Hnone.
Qed.

Lemma prefix_drop_length (pat s : list Z) j :
  pat `prefix_of` drop j s -> (List.length pat <= List.length s)%nat.
Proof. intros H%prefix_length. rewrite length_drop in H. lia. Qed.

Lemma prefix_take (pat s : list Z) n :
  (List.length pat <= n)%nat -> pat `prefix_of` take n s <-> pat `prefix_of` s.
Proof.
  intros Hn. split; intros [k Hk].
  - exists (k ++ drop n s). rewrite app_assoc, <- Hk. by rewrite take_drop.
  - exists (take (n - List.length pat) k). rewrite Hk, take_app.
    by rewrite (firstn_all2 pat) by lia.
Qed.

Lemma strnstr_loop_spec s1 c2 s2 len :
  Libc.is_cstr s1 -> Libc.is_cstr s2 ->
  first_occurrence (c2 :: s2) (take len s1) (strnstr_loop s1 c2 s2 len).
Proof.
  intros Hs1 Hs2. revert len. induction Hs1 as [|c1 s1 Hc Hs1 IH]; intros [|len];
    cbn [strnstr_loop take].
  1-3: intros j ?%prefix_drop_length; simpl in *; lia.
  destruct (Z.eqb_spec c1 0); [lia|].
  destruct (Z.eqb_spec c1 c2) as [->|Hne]; cbn [negb].
  - destruct (Nat.ltb_spec len (List.length s2)).
    { intros j ?%prefix_drop_length. cbn [List.length] in *. rewrite length_take in *. lia. }
    pose proof (Libc.strncmp_prefix_r s1 s2 Hs2) as Hp.
    destruct (Z.eqb_spec (Libc.strncmp s1 s2 (List.length s2)) 0) as [E|E]; cbn [negb].
    + split; [|lia]. apply prefix_cons, prefix_take; [lia|]. tauto.
    + apply first_occurrence_cons, IH. intros H2%prefix_cons_inv_2.
      apply prefix_take in H2; [tauto|lia].
  - apply first_occurrence_cons, IH. by intros ?%prefix_cons_inv_1.
Qed.

(** ** Lemmas: UTF-8 *)

(** The standard encoding of a code point of two to four bytes. *)
Definition utf8_encode (cp : Z) : list Z :=
  if cp <? 0x800 then [0xc0 + cp / 64; 0x80 + cp mod 64]
  else if cp <? 0x10000 then [0xe0 + cp / 4096; 0x80 + cp / 64 mod 64; 0x80 + cp mod 64]
  else [0xf0 + cp / 262144; 0x80 + cp / 4096 mod 64; 0x80 + cp / 64 mod 64; 0x80 + cp mod 64].

Lemma cont_byte_bits : forall m, 0 <= m < 64 -> Z.land (0x80 + m) 0x3f = m.
Proof. by_range 64%nat. Qed.

Lemma utf8_cont_step len u m p :
  0 <= m < 64 -> 0 <= u -> u * 64 + m < 2 ^ 32 ->
  utf8_cont (S len) u (0x80 + m :: p) = utf8_cont len (u * 64 + m) p.
Proof.
  intros Hm Hu Hb. cbn [utf8_cont]. destruct (Z.ltb_spec (0x80 + m) 0x80); [lia|].
  rewrite cont_byte_bits by done. f_equal.
  rewrite lor_shift_add by lia. change (2 ^ 6) with 64.
  apply uwrap_small. unfold in_u. lia.
Qed.

Lemma utf8_lead_bits : forall d,
  (0 <= d < 32 -> Z.land (0xc0 + d) 0x1f = d) /\ (0 <= d < 16 -> Z.land (0xe0 + d) 0x0f = d)
  /\ (0 <= d < 8 -> Z.land (0xf0 + d) 0x07 = d).
Proof. intros d. repeat split; revert d; [by_range 32%nat|by_range 16%nat|by_range 8%nat]. Qed.

(** The range of code points whose lead byte the decoder classifies right. *)
Definition utf8_supported (cp : Z) : bool :=
  (0x80 <=? cp) && (cp <? 0x800) || (0x1000 <=? cp) && (cp <? 0x10000)
  || (0x40000 <=? cp) && (cp <=? 0x10ffff).

Lemma utf8_lead_value d :
  (0 < d < 32 -> utf8_lead (0xc0 + d) = Some (d, 0x7f, 1%nat)) /\
  (0 < d < 16 -> utf8_lead (0xe0 + d) = Some (d, 0x7ff, 2%nat)) /\
  (0 < d < 8 -> utf8_lead (0xf0 + d) = Some (d, 0xffff, 3%nat)).
Proof.
  destruct (utf8_lead_bits d) as (H1 & H2 & H3). unfold utf8_lead.
  repeat split; intros Hd; repeat case_match; rewrite ?H1, ?H2, ?H3 by lia; try done; lia.
Qed.

(** One decoding: the lead byte, then [len] continuation bytes. *)
Lemma utf8_decode_run b u valid len bytes p n cp :
  utf8_lead b = Some (u, valid, len) -> Z.of_nat len + 1 <= n < 2 ^ 64 ->
  utf8_cont len u (bytes ++ p) = Some (inl cp, p) -> valid < cp ->
  string_utf8_decode ((b :: bytes) ++ p) n = Some (cp, p).
Proof.
  intros Hl Hn Hc Hv. cbn [app string_utf8_decode]. rewrite Hl.
  unfold u64. rewrite uwrap_small by (unfold in_u; lia).
  destruct (Z.ltb_spec (n - 1) (Z.of_nat len)); [lia|]. rewrite Hc. simpl.
  destruct (Z.ltb_spec valid cp); [done|lia].
Qed.

Lemma utf8_decode_encode cp p n :
  utf8_supported cp = true -> Z.of_nat (List.length (utf8_encode cp)) <= n < 2 ^ 64 ->
  string_utf8_decode (utf8_encode cp ++ p) n = Some (cp, p).
Proof.
  unfold utf8_supported, utf8_encode. intros Hcp Hn.
  destruct (Z.ltb_spec cp 0x800); [|destruct (Z.ltb_spec cp 0x10000)];
    cbn [List.length] in Hn.
  - pose proof (Z.div_mod cp 64 ltac:(lia)). pose proof (Z.mod_pos_bound cp 64 ltac:(lia)).
    destruct (utf8_lead_value (cp / 64)) as (Hlead & _ & _).
    eapply utf8_decode_run; [apply Hlead; lia|lia| |lia].
    cbn [app]. rewrite utf8_cont_step by lia. simpl. do 3 f_equal. lia.
  - pose proof (Z.div_mod cp 64 ltac:(lia)). pose proof (Z.mod_pos_bound cp 64 ltac:(lia)).
    pose proof (Z.div_mod (cp / 64) 64 ltac:(lia)). pose proof (Z.mod_pos_bound (cp / 64) 64 ltac:(lia)).
    assert (cp / 4096 = cp / 64 / 64) as E by (by rewrite Z.div_div by lia). rewrite E.
    destruct (utf8_lead_value (cp / 64 / 64)) as (_ & Hlead & _).
    eapply utf8_decode_run; [apply Hlead; lia|lia| |lia].
    cbn [app]. rewrite !utf8_cont_step by lia. simpl. do 3 f_equal. lia.
  - pose proof (Z.div_mod cp 64 ltac:(lia)). pose proof (Z.mod_pos_bound cp 64 ltac:(lia)).
    pose proof (Z.div_mod (cp / 64) 64 ltac:(lia)). pose proof (Z.mod_pos_bound (cp / 64) 64 ltac:(lia)).
    pose proof (Z.div_mod (cp / 64 / 64) 64 ltac:(lia)).
    pose proof (Z.mod_pos_bound (cp / 64 / 64) 64 ltac:(lia)).
    assert (cp / 4096 = cp / 64 / 64) as E by (by rewrite Z.div_div by lia).
    assert (cp / 262144 = cp / 64 / 64 / 64) as E' by (by rewrite !Z.div_div by lia).
    rewrite E, E'. destruct (utf8_lead_value (cp / 64 / 64 / 64)) as (_ & _ & Hlead).
    eapply utf8_decode_run; [apply Hlead; lia|lia| |lia].
    cbn [app]. rewrite !utf8_cont_step by lia. simpl. do 3 f_equal. lia.
Qed.

(** ** Properties *)

(** Base64 is a faithful key coding: decoding the encoding of any byte
    string gives it back, distinct byte strings get distinct keys, and a key
    is a NUL-free string of four bytes per group of three. *)
Theorem base64_roundtrip s t :
  Libc.is_bytes s -> Libc.is_bytes t ->
  string_base64_decode (string_base64_encode s) = Some s
  /\ (string_base64_encode s = string_base64_encode t -> s = t)
  /\ Libc.is_cstr (string_base64_encode s)
  /\ List.length (string_base64_encode s) = (4 * ((List.length s + 2) / 3))%nat.
Proof.
  intros Hs Ht. split_and!; eauto using base64_decode_encode, base64_encode_inj,
    base64_encode_cstr, base64_encode_length.
Qed.

Lemma base64_roundtrip_witness :
  string_base64_decode (string_base64_encode (lit "/home")) = Some (lit "/home").
Proof.
  apply (base64_roundtrip (lit "/home") (lit "/")); vm_compute; repeat constructor; done.
Defined.

(** For every escape table except [refresh], unescaping an escaped byte
    string in the decode-all mode gives the string back and reads all of it,
    and the size computed with a NULL destination is the room needed. *)
Theorem uri_escape_roundtrip s type e :
  Libc.is_bytes s -> type <> 3%nat -> string_escape_uri s type = Some e ->
  string_unescape_uri e 0 = (s, [])
  /\ exists n, string_escape_uri_size s type = Some n
       /\ Z.of_nat (List.length e) = Z.of_nat (List.length s) + 2 * n.
Proof.
  unfold string_escape_uri, string_escape_uri_size, string_unescape_uri. intros Hs Ht He.
  destruct (escape_maps !! type) as [m|] eqn:Hm; [|done]. injection He as <-. simpl. split.
  - apply unescape_escape; eauto using maps_escape_percent.
  - eexists. split; [done|]. apply escape_bytes_length.
Qed.

Lemma uri_escape_roundtrip_witness :
  string_escape_uri (lit "a b%c") 1 = Some (lit "a%20b%25c")
  /\ string_unescape_uri (lit "a%20b%25c") 0 = (lit "a b%c", []).
Proof.
  split; [reflexivity|].
  apply (uri_escape_roundtrip (lit "a b%c") 1); [|lia|reflexivity].
  vm_compute; repeat constructor; done.
Defined.

(** The [refresh] table (type 3) does not escape the escape character,
    although its comment lists it: two different strings are then unescaped
    to the same bytes, so the coding is not reversible. *)
Theorem uri_refresh_not_reversible :
  must_escape refresh_map c_percent = false
  /\ exists e, string_escape_uri (lit "%41") 3 = Some e
       /\ fst (string_unescape_uri e 0) = lit "A"
       /\ string_escape_uri (lit "A") 3 = Some (lit "A").
Proof. split; [reflexivity|]. eexists. repeat split; reflexivity. Qed.

(** [string_xxstrnstr] returns the first occurrence of the pattern within
    the first [len] bytes of the C string, and NULL exactly when there is
    none. *)
Theorem strnstr_first_occurrence s1 c s2 len :
  Libc.is_cstr s1 -> Libc.is_cstr (c :: s2) ->
  first_occurrence (c :: s2) (take len s1) (string_xxstrnstr s1 (c :: s2) len).
Proof. intros H1 [_ H2]%Forall_cons. by apply strnstr_loop_spec. Qed.

Lemma strnstr_first_occurrence_witness :
  string_xxstrnstr (lit "xabab") (lit "ab") 4 = Some 1%nat
  /\ first_occurrence (lit "ab") (take 4 (lit "xabab")) (Some 1%nat).
Proof.
  split; [reflexivity|].
  apply (strnstr_first_occurrence (lit "xabab") 97 (lit "b") 4);
    vm_compute; repeat constructor; done.
Defined.

(** Reading back the hexadecimal dump of a byte string gives its
    big-endian value, as long as it fits an [int]. *)
Theorem hex_roundtrip s rest :
  Libc.is_bytes s -> s <> [] -> be_value 0 s < 2 ^ 31 ->
  string_xxstrhextoi (string_xxstrtohex s ++ rest) (2 * List.length s) = Some (be_value 0 s).
Proof.
  intros Hs Hne Hv. unfold string_xxstrhextoi.
  destruct s as [|b s]; [done|]. destruct (Forall_cons_1 _ _ _ Hs) as [Hb _].
  destruct (nibbles b Hb) as (Hh & _ & _).
  assert (signed_line (string_xxstrtohex (b :: s) ++ rest)
          = Some (false, string_xxstrtohex (b :: s) ++ rest)) as ->.
  { cbn [string_xxstrtohex app signed_line]. destruct (Z.eqb_spec (hexdigit (Z.shiftr b 4)) c_minus) as [E|]; [|done].
    exfalso. pose proof (hexval_hexdigit _ Hh) as Hx. by rewrite E in Hx. }
  destruct (Nat.eqb_spec (2 * List.length (b :: s)) 0) as [E|_]; [cbn [List.length] in E; lia|].
  cbn [mbind option_bind]. by rewrite hex_loop_strtohex.
Qed.

Lemma hex_roundtrip_witness :
  string_xxstrhextoi (lit "1aff") 4 = Some 6911.
Proof.
  apply (hex_roundtrip [26; 255] []); [|done|done]. vm_compute; repeat constructor; done.
Defined.

(** [string_utf8_decode] inverts the standard UTF-8 encoding of every
    code point whose lead byte is not 0xC0, 0xE0 or 0xF0. *)
Theorem utf8_roundtrip cp p n :
  utf8_supported cp = true -> Z.of_nat (List.length (utf8_encode cp)) <= n < 2 ^ 64 ->
  string_utf8_decode (utf8_encode cp ++ p) n = Some (cp, p).
Proof. apply utf8_decode_encode. Qed.

Lemma utf8_roundtrip_witness :
  string_utf8_decode [0xe4; 0xb8; 0xad; 0x21] 4 = Some (0x4e2d, [0x21]).
Proof. apply (utf8_roundtrip 0x4e2d [0x21] 4); [reflexivity|vm_compute; split; congruence]. Defined.

(** Valid three-byte characters with lead byte 0xE0 (U+0800 to U+0FFF)
    are reported as errors: [u > 0xe0] sends the lead byte to the two-byte
    branch, although the comment promises 0x80 - 0x10ffff for valid input. *)
Theorem utf8_lead_e0_rejected cp p n :
  0x800 <= cp < 0x1000 -> 3 <= n < 2 ^ 64 ->
  exists q, string_utf8_decode (utf8_encode cp ++ p) n = Some (utf8_error, q).
Proof.
  intros Hcp Hn. unfold utf8_encode.
  destruct (Z.ltb_spec cp 0x800); [lia|]. destruct (Z.ltb_spec cp 0x10000); [|lia].
  rewrite (Z.div_small cp 4096) by lia.
  cbn [app string_utf8_decode]. change (utf8_lead (0xe0 + 0)) with (Some (0, 0x7f, 1%nat)).
  cbv beta iota. unfold u64. rewrite uwrap_small by (unfold in_u; lia).
  destruct (Z.ltb_spec (n - 1) (Z.of_nat 1)); [lia|].
  pose proof (Z.mod_pos_bound (cp / 64) 64 ltac:(lia)).
  rewrite utf8_cont_step by lia. simpl.
  destruct (Z.ltb_spec 127 (0 * 64 + (cp / 64) mod 64)); [lia|]. eauto.
Qed.

Lemma utf8_lead_e0_rejected_witness :
  exists q, string_utf8_decode (utf8_encode 0x905) 3 = Some (utf8_error, q).
Proof. rewrite <- (app_nil_r (utf8_encode 0x905)). apply (utf8_lead_e0_rejected 0x905 [] 3); lia. Defined.

(** A leading minus sign is skipped without being counted, so the signed
    readers look at one byte more than the [n] they are given: on a buffer
    that ends with the number, they read past it. *)
Theorem strtoi_minus_overread digits :
  Forall (fun c => is_digit c = true) digits ->
  string_xxstrtoi (c_minus :: digits) (S (List.length digits)) = None.
Proof.
  intros Hd. unfold string_xxstrtoi.
  change (signed_line (c_minus :: digits)) with (Some (true, digits)).
  cbn [Nat.eqb mbind option_bind]. by rewrite dec_loop_past_end.
Qed.

Lemma strtoi_minus_overread_witness : string_xxstrtoi (lit "-42") 3 = None.
Proof. apply (strtoi_minus_overread (lit "42")). vm_compute; repeat constructor; done. Defined.

End CString.
