(* ===== verification/Mem.v ===== *)
(** * Byte-addressed memory

    The memory a buffer, a pool or a task is stored in: a finite map from
    addresses to bytes.  Reading or writing an address outside it is undefined
    behaviour ([None]).  Integers are stored little-endian. *)

From Stdlib Require Import ZArith Lia Bool.
From stdpp Require Import base numbers list gmap option.
From S2P Require Import Prelude.

Module Mem.

Abbreviation mem := (gmap Z Z).

Fixpoint rd (m : mem) (a : Z) (n : nat) : option (list Z) :=
  match n with
  | O => Some []
  | S n' => b ← m !! a; l ← rd m (a + 1) n'; Some (b :: l)
  end.

Fixpoint wr (m : mem) (a : Z) (bs : list Z) : option mem :=
  match bs with
  | [] => Some m
  | b :: bs' => _ ← m !! a; wr (<[a := b]> m) (a + 1) bs'
  end.

(** memcpy(3) and memmove(3): the source is read before the target is written. *)
Definition memmove (m : mem) (dst src : Z) (n : nat) : option mem :=
  bs ← rd m src n; wr m dst bs.

Fixpoint le_enc (n : nat) (v : Z) : list Z :=
  match n with O => [] | S n' => (v mod 256) :: le_enc n' (v / 256) end.
Fixpoint le_dec (bs : list Z) : Z :=
  match bs with [] => 0 | b :: bs' => b + 256 * le_dec bs' end.

Definition rd_int (m : mem) (a : Z) : option Z :=
  bs ← rd m a 4; Some (s32 (le_dec bs)).

(** The bytes [a], ..., [a + n - 1] can be accessed. *)
Definition mapped (m : mem) (a : Z) (n : Z) : Prop :=
  forall i, a <= i < a + n -> is_Some (m !! i).

#[global] Instance mapped_dec m a n : Decision (mapped m a n).
Proof.
  refine (cast_if (decide (Forall (fun i => is_Some (m !! i)) (seqZ a n)))); unfold mapped.
  all: rewrite Forall_seqZ in *; intuition (auto with lia).
Defined.

(** ** Lemmas *)

Lemma rd_length m a n bs : rd m a n = Some bs -> length bs = n.
Proof.
  revert a bs. induction n as [|n IH]; intros a bs E; simpl in E; simplify_eq; [done|].
  destruct (m !! a); simplify_eq/=. destruct (rd m (a + 1) n) eqn:R; simplify_eq/=.
  by erewrite IH.
Qed.

Lemma rd_mapped m a n : mapped m a (Z.of_nat n) <-> is_Some (rd m a n).
Proof.
  revert a. induction n as [|n IH]; intros a; simpl.
  - split; [eauto|]. intros _ i Hi. lia.
  - split.
    + intros H. destruct (H a) as [b Eb]; [lia|].
      destruct (proj1 (IH (a + 1))) as [l E]; [intros i Hi; apply H; lia|].
      rewrite Eb. simpl. rewrite E. eauto.
    + intros [bs E]. destruct (m !! a) eqn:Eb; simplify_eq/=.
      destruct (rd m (a + 1) n) eqn:R; simplify_eq/=.
      intros i Hi. destruct (decide (i = a)) as [->|]; [eauto|].
      apply (proj2 (IH (a + 1))); [eauto|lia].
Qed.

Lemma wr_lookup_ne m a bs m' i :
  wr m a bs = Some m' -> i < a \/ a + Z.of_nat (length bs) <= i -> m' !! i = m !! i.
Proof.
  revert m a. induction bs as [|b bs IH]; intros m a E Hi; simplify_eq/=; [done|].
  destruct (m !! a); simplify_eq/=.
  rewrite (IH _ _ E) by lia. by rewrite lookup_insert_ne by lia.
Qed.

Lemma wr_mapped m a bs : mapped m a (Z.of_nat (length bs)) -> is_Some (wr m a bs).
Proof.
  revert m a. induction bs as [|b bs IH]; intros m a H; simpl; [eauto|].
  destruct (H a) as [c Ec]; [simpl; lia|]. rewrite Ec. simpl. apply IH.
  intros i Hi. destruct (decide (i = a)) as [->|]; [rewrite lookup_insert_eq; eauto|].
  rewrite lookup_insert_ne by lia. apply H. simpl. lia.
Qed.

Lemma wr_dom m a bs m' i : wr m a bs = Some m' -> is_Some (m !! i) <-> is_Some (m' !! i).
Proof.
  revert m a. induction bs as [|b bs IH]; intros m a E; simplify_eq/=; [done|].
  destruct (m !! a) eqn:Ea; simplify_eq/=. rewrite <- (IH _ _ E).
  destruct (decide (i = a)) as [->|].
  - rewrite lookup_insert_eq, Ea. split; eauto.
  - by rewrite lookup_insert_ne.
Qed.

Lemma mapped_wr m a bs m' b n : wr m a bs = Some m' -> mapped m b n -> mapped m' b n.
Proof. intros E H i Hi. rewrite <- (wr_dom _ _ _ _ _ E). auto. Qed.

Lemma wr_rd m a bs m' : wr m a bs = Some m' -> rd m' a (length bs) = Some bs.
Proof.
  revert m a. induction bs as [|b bs IH]; intros m a E; simplify_eq/=; [done|].
  destruct (m !! a); simplify_eq/=. rewrite (wr_lookup_ne _ _ _ _ a E) by lia.
  rewrite lookup_insert_eq. simpl. by rewrite (IH _ _ E).
Qed.

Lemma rd_frame m m' a n :
  (forall i, a <= i < a + Z.of_nat n -> m' !! i = m !! i) -> rd m' a n = rd m a n.
Proof.
  revert a. induction n as [|n IH]; intros a H; [done|]. simpl.
  rewrite H by lia. rewrite IH; [done|]. intros i Hi. apply H. lia.
Qed.

Lemma rd_wr_disjoint m a bs m' b n :
  wr m a bs = Some m' -> b + Z.of_nat n <= a \/ a + Z.of_nat (length bs) <= b ->
  rd m' b n = rd m b n.
Proof.
  intros E H. apply rd_frame. intros i Hi. apply (wr_lookup_ne _ _ _ _ _ E). lia.
Qed.

Lemma rd_app m a n k :
  rd m a (n + k) = (l1 ← rd m a n; l2 ← rd m (a + Z.of_nat n) k; Some (l1 ++ l2)).
Proof.
  revert a. induction n as [|n IH]; intros a; cbn [rd Nat.add].
  - replace (a + Z.of_nat 0) with a by lia. simpl. by destruct (rd m a k).
  - destruct (m !! a); simpl; [|done]. rewrite IH.
    replace (a + 1 + Z.of_nat n) with (a + Z.of_nat (S n)) by lia.
    destruct (rd m (a + 1) n); simpl; [|done]. by destruct (rd m (a + Z.of_nat (S n)) k).
Qed.

Lemma wr_app m a l1 l2 :
  wr m a (l1 ++ l2) = (m1 ← wr m a l1; wr m1 (a + Z.of_nat (length l1)) l2).
Proof.
  revert m a. induction l1 as [|b l1 IH]; intros m a; simpl.
  - by replace (a + Z.of_nat 0) with a by lia.
  - destruct (m !! a); simpl; [|done]. rewrite IH.
    by replace (a + 1 + Z.of_nat (length l1)) with (a + Z.of_nat (S (length l1))) by lia.
Qed.

Lemma le_enc_length n v : length (le_enc n v) = n.
Proof. revert v. induction n; intros; simpl; auto. Qed.

Lemma le_dec_enc n v : le_dec (le_enc n v) = v mod 2 ^ (8 * Z.of_nat n).
Proof.
  revert v. induction n as [|n IH]; intros v; cbn [le_enc le_dec].
  - by rewrite Z.mod_1_r.
  - rewrite IH. replace (8 * Z.of_nat (S n)) with (8 * Z.of_nat n + 8) by lia.
    rewrite Z.pow_add_r by lia. change (2 ^ 8) with 256.
    rewrite (Z.mul_comm (2 ^ (8 * Z.of_nat n)) 256), Z.rem_mul_r; [lia|lia|].
    apply Z.pow_pos_nonneg; lia.
Qed.

Lemma le_dec_enc_u n v : in_u (8 * Z.of_nat n) v -> le_dec (le_enc n v) = v.
Proof. intros H. rewrite le_dec_enc. apply Z.mod_small. exact H. Qed.

Lemma le_enc_bytes n v : Forall (fun b => 0 <= b < 256) (le_enc n v).
Proof.
  revert v. induction n; intros v; simpl; constructor; auto. apply Z.mod_pos_bound. lia.
Qed.

Lemma swrap_le_enc n v : (0 < n)%nat -> in_s (8 * Z.of_nat n) v ->
  swrap (8 * Z.of_nat n) (le_dec (le_enc n v)) = v.
Proof. intros Hn H. rewrite le_dec_enc. rewrite swrap_uwrap by lia. apply swrap_small; [lia|done]. Qed.

Lemma s32_le_enc v : in_s 32 v -> s32 (le_dec (le_enc 4 v)) = v.
Proof. intros H. exact (swrap_le_enc 4 v ltac:(lia) H). Qed.
Lemma s16_le_enc v : in_s 16 v -> s16 (le_dec (le_enc 2 v)) = v.
Proof. intros H. exact (swrap_le_enc 2 v ltac:(lia) H). Qed.

End Mem.
