(* ===== verification/Buffer.v ===== *)
(** * Buffers and buffer chains: src/core/dfs_buffer.[ch], dfs_chain.c

    A buffer is a window [pos, last) of pending bytes inside [start, end), in
    memory or in a file.  Addresses and file offsets are integers; the bytes
    live in a [Mem.mem].  A chain is the list of the buffers its nodes hold. *)

From Stdlib Require Import ZArith Lia Bool.
From stdpp Require Import base numbers list gmap option.
From S2P Require Import Prelude Mem.

Module Buffer.
Import Mem.

(** ** dfs_buffer *)

Record buffer_t := Buf {
  pos : Z; last : Z; file_pos : Z; file_last : Z; start : Z; end_ : Z;
  temporary : bool; memory : bool; in_file : bool
}.

Definition set_window (b : buffer_t) (p l : Z) : buffer_t :=
  Buf p l (file_pos b) (file_last b) (start b) (end_ b) (temporary b) (memory b) (in_file b).
Definition set_file_pos (b : buffer_t) (p : Z) : buffer_t :=
  Buf (pos b) (last b) p (file_last b) (start b) (end_ b) (temporary b) (memory b) (in_file b).

Definition buffer_in_memory (b : buffer_t) : bool := memory b.
Definition buffer_in_memory_only (b : buffer_t) : bool := buffer_in_memory b && negb (in_file b).
Definition buffer_size (b : buffer_t) : Z :=
  if buffer_in_memory b then last b - pos b else file_last b - file_pos b.
Definition buffer_free_size (b : buffer_t) : Z := end_ b - last b.
Definition buffer_full (b : buffer_t) : bool := end_ b =? pos b.
Definition buffer_reset (b : buffer_t) : buffer_t := set_window b (start b) (start b).
Definition buffer_pull (b : buffer_t) (s : Z) : buffer_t := set_window b (pos b + s) (last b).
Definition buffer_used (b : buffer_t) (s : Z) : buffer_t := set_window b (pos b) (last b + s).

(** [buffer_create]: [pool] says whether a pool is given, [b] is the address
    of the header and [data] that of the bytes the allocator returned, [old]
    what the header's storage held.  The result is the buffer and the
    addresses given back to the allocator. *)
Definition buffer_create (pool : bool) (size : Z) (b data : option Z) (old : buffer_t) :
    option buffer_t * list Z :=
  if size =? 0 then (None, []) else
  match b with
  | None => (None, [])
  | Some ba =>
      match data with
      | None => (None, if pool then [] else [ba])
      | Some d =>
          (Some (Buf d d (file_pos old) (file_last old) d (d + size) pool true false), [])
      end
  end.

(** [memmove] takes the [int] length as a [size_t]: a negative one is far out
    of bounds. *)
Definition buffer_shrink (m : mem) (b : buffer_t) : option (mem * buffer_t) :=
  if start b =? pos b then Some (m, b) else
  let blen := s32 (buffer_size b) in
  if blen =? 0 then Some (m, buffer_reset b) else
  if blen <? 0 then None else
  m' ← memmove m (start b) (pos b) (Z.to_nat blen);
  Some (m', set_window b (start b) (start b + blen)).

Definition sizeof_buffer_t : Z := 56.

(** What [buffer_free] gives back to the allocator: the bytes and the header,
    which is at [buf]. *)
Definition buffer_free (buf : Z) (b : buffer_t) : list (Z * Z) :=
  if temporary b then [] else [(start b, end_ b - start b); (buf, sizeof_buffer_t)].

(** ** dfs_chain *)

Definition chain_t := list buffer_t.

Definition chain_reset (cl : chain_t) : chain_t := map buffer_reset cl.

Fixpoint chain_empty (cl : chain_t) : bool :=
  match cl with
  | [] => true
  | b :: cl' => if 0 <? buffer_size b then false else chain_empty cl'
  end.

Fixpoint chain_size_from (len : Z) (cl : chain_t) : Z :=
  match cl with
  | [] => len
  | b :: cl' => chain_size_from (u64 (len + buffer_size b)) cl'
  end.
Definition chain_size (cl : chain_t) : Z := chain_size_from 0 cl.

Definition chain_append_all (dst src : chain_t) : chain_t := dst ++ src.

(** The second loop of [chain_append_withsize]: the nodes moved, and the rest.
    [size] is a [size_t]. *)
Fixpoint take_size (src : chain_t) (size : Z) : chain_t * chain_t :=
  match src with
  | [] => ([], [])
  | b :: src' =>
      if 0 <? size
      then let '(moved, rest) := take_size src' (u64 (size - buffer_size b)) in (b :: moved, rest)
      else ([], src)
  end.

(** The new destination and free chains. *)
Definition chain_append_withsize (dst src : chain_t) (size : Z) (free_chain : chain_t) :
    chain_t * chain_t :=
  if size =? 0 then (dst, free_chain) else
  let '(moved, rest) := take_size src size in
  (dst ++ moved, match rest with [] => free_chain | _ => rest end).

(** [node]: whether the pool yields the new node. *)
Definition chain_append_buffer (node : bool) (dst : chain_t) (b : buffer_t) : option chain_t :=
  if node then Some (dst ++ [b]) else None.

Definition chain_append_buffer_withsize (node : bool) (dst : chain_t) (b : buffer_t) (size : Z) :
    option chain_t :=
  if node then Some (dst ++ [b]) else None.

Fixpoint chain_read_update (cl : chain_t) (size : Z) : chain_t :=
  match cl with
  | [] => []
  | b :: cl' =>
      if 0 <? size then
        let chain_size := u64 (end_ b - last b) in
        if chain_size <=? size
        then set_window b (pos b) (end_ b) :: chain_read_update cl' (size - chain_size)
        else set_window b (pos b) (last b + size) :: chain_read_update cl' 0
      else cl
  end.

(** The nodes that were passed, and the chain that is returned. *)
Fixpoint chain_write_update (cl : chain_t) (size : Z) : chain_t * chain_t :=
  match cl with
  | [] => ([], [])
  | b :: cl' =>
      if 0 <? size then
        let bsize := u64 (buffer_size b) in
        if size <? bsize then
          ([], (if memory b then set_window b (pos b + size) (last b)
                else set_file_pos b (file_pos b + size)) :: cl')
        else
          let b' := if memory b then set_window b (last b) (last b)
                    else set_file_pos b (file_last b) in
          let '(passed, rest) := chain_write_update cl' (size - bsize) in (b' :: passed, rest)
      else ([], cl)
  end.

(** ** Well-formed buffers *)

Definition buffer_ok (b : buffer_t) : Prop :=
  start b <= pos b <= last b /\ last b <= end_ b /\ end_ b - start b < 2 ^ 31 /\
  file_pos b <= file_last b /\ file_last b - file_pos b < 2 ^ 63.

#[global] Instance buffer_ok_dec b : Decision (buffer_ok b).
Proof. unfold buffer_ok. apply _. Defined.

(** The pending units of a buffer, each with its kind and place. *)
Definition cells (b : buffer_t) : list (bool * Z) :=
  pair (memory b) <$>
    (if memory b then seqZ (pos b) (last b - pos b) else seqZ (file_pos b) (file_last b - file_pos b)).

Definition chain_cells (cl : chain_t) : list (bool * Z) := cl ≫= cells.

Lemma cells_length b : buffer_ok b -> Z.of_nat (length (cells b)) = buffer_size b.
Proof.
  intros (? & ? & ? & ? & ?). unfold cells, buffer_size, buffer_in_memory.
  rewrite length_fmap. destruct (memory b); rewrite length_seqZ; lia.
Qed.

Lemma buffer_size_range b : buffer_ok b -> 0 <= buffer_size b < 2 ^ 63.
Proof.
  intros (? & ? & ? & ? & ?). unfold buffer_size, buffer_in_memory.
  assert (2 ^ 31 < 2 ^ 63) by lia. destruct (memory b); lia.
Qed.

Lemma buffer_size_u64 b : buffer_ok b -> u64 (buffer_size b) = buffer_size b.
Proof. intros H%buffer_size_range. apply uwrap_small. unfold in_u. lia. Qed.

(** [buffer_shrink] touches nothing outside the buffer. *)
Lemma shrink_ok m b :
  buffer_ok b -> memory b = true -> mapped m (start b) (end_ b - start b) ->
  exists m', buffer_shrink m b = Some (m', set_window b (start b) (start b + buffer_size b)) /\
    rd m' (start b) (Z.to_nat (buffer_size b)) = rd m (pos b) (Z.to_nat (buffer_size b)) /\
    (forall i, i < start b \/ end_ b <= i -> m' !! i = m !! i) /\
    (forall i, is_Some (m !! i) <-> is_Some (m' !! i)).
Proof.
  intros OK HM HMap. pose proof OK as (H1 & H2 & H3 & H4).
  assert (Hs : buffer_size b = last b - pos b) by (unfold buffer_size, buffer_in_memory; by rewrite HM).
  unfold buffer_shrink. case_eq (start b =? pos b); intros E.
  { apply Z.eqb_eq in E. exists m. split; [|by rewrite E]. f_equal. f_equal. unfold set_window. rewrite Hs.
    destruct b; cbn in *. f_equal; lia. }
  apply Z.eqb_neq in E. rewrite Hs. unfold s32. rewrite swrap_small by (unfold in_s; lia).
  case_eq (last b - pos b =? 0); intros E0.
  { apply Z.eqb_eq in E0. exists m. split_and!; try done.
    - unfold buffer_reset, set_window. repeat f_equal. lia.
    - by rewrite E0. }
  apply Z.eqb_neq in E0. rewrite (proj2 (Z.ltb_ge _ _)) by lia.
  unfold memmove. destruct (proj1 (rd_mapped m (pos b) (Z.to_nat (last b - pos b)))) as [bs R].
  { intros i Hi. apply HMap. lia. }
  pose proof (rd_length _ _ _ _ R) as L. rewrite R. cbn [mbind option_bind].
  destruct (wr_mapped m (start b) bs) as [m' W]; [intros i Hi; apply HMap; lia|].
  rewrite W. cbn [mbind option_bind]. exists m'. split_and!; try done.
  - rewrite <- L. by rewrite (wr_rd _ _ _ _ W).
  - intros i Hi. apply (wr_lookup_ne _ _ _ _ _ W). lia.
  - intros i. by apply (wr_dom _ _ _ _ _ W).
Qed.

(** [buffer_shrink] moves the pending bytes to the start of the buffer
    unchanged, and the free space becomes everything that is not pending. *)
Theorem buffer_shrink_keeps_pending m b :
  buffer_ok b -> memory b = true -> mapped m (start b) (end_ b - start b) ->
  exists m' b', buffer_shrink m b = Some (m', b') /\ buffer_ok b' /\ pos b' = start b /\
    rd m' (pos b') (Z.to_nat (buffer_size b')) = rd m (pos b) (Z.to_nat (buffer_size b)) /\
    buffer_free_size b' = end_ b - start b - buffer_size b.
Proof.
  intros OK HM HMap. pose proof OK as (H1 & H2 & H3 & H4).
  assert (Hs : buffer_size b = last b - pos b) by (unfold buffer_size, buffer_in_memory; by rewrite HM).
  destruct (shrink_ok m b OK HM HMap) as (m' & E & R & _). exists m', (set_window b (start b) (start b + buffer_size b)).
  split; [done|]. unfold buffer_ok, buffer_free_size. cbn [set_window start end_ pos last file_pos file_last].
  assert (Hs' : buffer_size (set_window b (start b) (start b + buffer_size b)) = buffer_size b).
  { unfold buffer_size at 1, buffer_in_memory. cbn. rewrite HM. lia. }
  rewrite Hs'. split_and!; try done; lia.
Qed.

Lemma buffer_shrink_keeps_pending_witness :
  let m : mem := list_to_map [(100, 1); (101, 2); (102, 3); (103, 4)] in
  let b := Buf 101 103 0 0 100 104 false true false in
  exists m' b', buffer_shrink m b = Some (m', b') /\ buffer_ok b' /\ pos b' = start b /\
    rd m' (pos b') (Z.to_nat (buffer_size b')) = rd m (pos b) (Z.to_nat (buffer_size b)) /\
    buffer_free_size b' = end_ b - start b - buffer_size b.
Proof.
  intros m b. apply (buffer_shrink_keeps_pending m b); [by_decide|done|].
  intros i Hi. simpl in Hi.
  assert (i = 100 \/ i = 101 \/ i = 102 \/ i = 103) as [-> | [-> | [-> | ->]]] by lia;
    vm_compute; eauto.
Defined.

Lemma drop_seqZ m n s : 0 <= s <= n -> drop (Z.to_nat s) (seqZ m n) = seqZ (m + s) (n - s).
Proof.
  intros Hs. replace n with (s + (n - s)) at 1 by lia. rewrite seqZ_app by lia.
  rewrite drop_app_length'; [done|]. by rewrite length_seqZ.
Qed.

Lemma cells_advance b s : 0 <= s <= buffer_size b ->
  cells (if memory b then set_window b (pos b + s) (last b)
         else set_file_pos b (file_pos b + s)) = drop (Z.to_nat s) (cells b).
Proof.
  unfold buffer_size, buffer_in_memory, cells.
  destruct (memory b) eqn:HM; simpl; rewrite HM, <- fmap_drop; intros Hle; f_equal.
  - rewrite drop_seqZ by lia. f_equal. lia.
  - rewrite drop_seqZ by lia. f_equal. lia.
Qed.

Lemma cells_drained b :
  cells (if memory b then set_window b (last b) (last b)
         else set_file_pos b (file_last b)) = [].
Proof.
  unfold cells. destruct (memory b) eqn:HM; simpl; rewrite HM, seqZ_nil by lia; done.
Qed.

(** [chain_write_update] consumes exactly the first [size] pending units
    of a chain: every node it passes is drained, and what the returned chain
    has pending is what was pending after them. *)
Theorem chain_write_update_consumes cl size :
  Forall buffer_ok cl -> 0 <= size ->
  let '(passed, rest) := chain_write_update cl size in
  Forall (fun b => cells b = []) passed /\
  chain_cells rest = drop (Z.to_nat size) (chain_cells cl) /\
  (length passed + length rest = length cl)%nat.
Proof.
  intros OK. revert size. induction OK as [|b cl Hb OK IH]; intros size Hs; simpl.
  { unfold chain_cells. by rewrite drop_nil. }
  pose proof (buffer_size_range _ Hb). pose proof (cells_length _ Hb) as L.
  case_eq (0 <? size); intros E.
  2: { replace size with 0 by lia. done. }
  rewrite (buffer_size_u64 _ Hb). case_eq (size <? buffer_size b); intros E1.
  - split_and!; [constructor| |done]. unfold chain_cells. cbn [mbind list_bind].
    rewrite cells_advance by lia. rewrite drop_app_le by lia. done.
  - specialize (IH (size - buffer_size b) ltac:(lia)).
    destruct (chain_write_update cl (size - buffer_size b)) as [passed rest].
    destruct IH as (IH1 & IH2 & IH3). split_and!.
    + constructor; [apply cells_drained|done].
    + rewrite IH2. unfold chain_cells. cbn [mbind list_bind].
      rewrite drop_app_ge by lia. f_equal. lia.
    + simpl. lia.
Qed.

Lemma chain_write_update_consumes_witness :
  let cl := [Buf 10 13 0 0 10 20 true true false; Buf 0 0 5 9 0 0 true false true] in
  let '(passed, rest) := chain_write_update cl 4 in
  Forall (fun b => cells b = []) passed /\
  chain_cells rest = drop (Z.to_nat 4) (chain_cells cl) /\
  (length passed + length rest = length cl)%nat.
Proof. intros cl. apply (chain_write_update_consumes cl 4); [by_decide|lia]. Defined.

Definition free_total (cl : chain_t) : Z := foldr (fun b n => buffer_free_size b + n) 0 cl.

(** [chain_read_update] accounts for the bytes that were read into a
    chain: the free space shrinks by their number, or to nothing when there
    were more, and the buffers stay well formed. *)
Theorem chain_read_update_fills cl size :
  Forall buffer_ok cl -> 0 <= size ->
  Forall buffer_ok (chain_read_update cl size) /\
  free_total (chain_read_update cl size) = Z.max 0 (free_total cl - size) /\
  map pos (chain_read_update cl size) = map pos cl.
Proof.
  intros OK. revert size. induction OK as [|b cl Hb OK IH]; intros size Hs; simpl; [split_and!; [done|lia|done]|].
  pose proof Hb as (H1 & H2 & H3 & H4 & H5).
  assert (Hf : 0 <= free_total cl).
  { clear IH. induction OK as [|c cl Hc _ IH']; simpl; [lia|].
    destruct Hc as (? & ? & _). unfold buffer_free_size. lia. }
  case_eq (0 <? size); intros E.
  2: { split_and!; [by constructor| |done]. simpl. unfold buffer_free_size. lia. }
  assert (u64 (end_ b - last b) = end_ b - last b) as ->.
  { apply uwrap_small. unfold in_u. assert (2 ^ 31 < 2 ^ 64) by lia. lia. }
  case_eq (end_ b - last b <=? size); intros E1.
  - destruct (IH (size - (end_ b - last b)) ltac:(lia)) as (I1 & I2 & I3). split_and!.
    + constructor; [|done]. unfold buffer_ok. simpl. lia.
    + simpl. rewrite I2. unfold buffer_free_size. simpl. lia.
    + simpl. by rewrite I3.
  - destruct (IH 0 ltac:(lia)) as (I1 & I2 & I3). split_and!.
    + constructor; [|done]. unfold buffer_ok. simpl. lia.
    + simpl. rewrite I2. unfold buffer_free_size. simpl. lia.
    + simpl. by rewrite I3.
Qed.

Lemma chain_read_update_fills_witness :
  let cl := [Buf 10 13 0 0 10 20 true true false; Buf 30 30 0 0 30 40 true true false] in
  Forall buffer_ok (chain_read_update cl 9) /\
  free_total (chain_read_update cl 9) = Z.max 0 (free_total cl - 9) /\
  map pos (chain_read_update cl 9) = map pos cl.
Proof. intros cl. apply (chain_read_update_fills cl 9); [by_decide|lia]. Defined.

(** The sum of the pending sizes of the first [k] buffers. *)
Definition size_to (cl : chain_t) (k : nat) : Z := foldr (fun b n => buffer_size b + n) 0 (take k cl).

Lemma take_size_all cl size sum :
  Forall buffer_ok cl -> 0 <= sum -> sum + size_to cl (length cl) < 2 ^ 63 ->
  in_u 63 size -> size <> sum -> (forall k, sum + size_to cl k <> size) ->
  take_size cl (u64 (size - sum)) = (cl, []).
Proof.
  intros OK. revert sum. induction OK as [|b cl Hb OK IH]; intros sum H0 HT HS Hne Hk; [done|].
  cbn [take_size]. pose proof (buffer_size_range _ Hb). unfold in_u in HS.
  assert (P : 2 ^ 64 = 2 * 2 ^ 63) by done.
  assert (HC : 0 <= size_to cl (length cl)).
  { clear IH HT Hk. induction OK as [|c cl Hc _ IH']; unfold size_to in *; simpl; [lia|].
    pose proof (buffer_size_range _ Hc). lia. }
  assert (HT' : sum + (buffer_size b + size_to cl (length cl)) < 2 ^ 63) by exact HT.
  assert (0 < u64 (size - sum)).
  { unfold u64, uwrap. assert ((size - sum) mod 2 ^ 64 <> 0).
    - intros Z0. destruct (Z.lt_ge_cases size sum).
      + rewrite <- (Z_mod_plus_full _ 1) in Z0. rewrite Z.mod_small in Z0; lia.
      + rewrite Z.mod_small in Z0; lia.
    - pose proof (Z.mod_pos_bound (size - sum) (2 ^ 64) ltac:(lia)). lia. }
  rewrite (proj2 (Z.ltb_lt _ _)) by lia.
  replace (u64 (u64 (size - sum) - buffer_size b)) with (u64 (size - (sum + buffer_size b))).
  2: { unfold u64, uwrap. rewrite Zminus_mod_idemp_l. f_equal. lia. }
  rewrite IH; [done|lia|lia|done| |].
  - specialize (Hk 1%nat). unfold size_to in Hk. simpl in Hk. lia.
  - intros k. specialize (Hk (S k)). unfold size_to in *. simpl in Hk. lia.
Qed.

(** The size limit of [chain_append_withsize] only works on a boundary
    between buffers: [size] is unsigned, so a limit that falls inside a buffer
    wraps around and the whole source chain is appended. *)
Theorem chain_append_withsize_overruns dst src size free_chain :
  Forall buffer_ok src -> size_to src (length src) < 2 ^ 63 -> in_u 63 size ->
  (forall k, size_to src k <> size) ->
  chain_append_withsize dst src size free_chain = (dst ++ src, free_chain).
Proof.
  intros OK HT HS Hk. unfold chain_append_withsize.
  assert (size <> 0) by (specialize (Hk 0%nat); unfold size_to in Hk; simpl in Hk; lia).
  rewrite (proj2 (Z.eqb_neq _ _)) by done.
  pose proof (take_size_all src size 0 OK) as E. replace (u64 (size - 0)) with size in E.
  - rewrite E; [done|lia|done|done|done|]. intros k. rewrite Z.add_0_l. apply Hk.
  - symmetry. rewrite Z.sub_0_r. apply uwrap_small. unfold in_u in *.
    assert (2 ^ 64 = 2 * 2 ^ 63) by done. lia.
Qed.

Lemma chain_append_withsize_overruns_witness :
  let b := Buf 0 10 0 0 0 16 true true false in
  chain_append_withsize [] [b; b; b] 15 [] = ([b; b; b], []).
Proof.
  intros b. apply (chain_append_withsize_overruns [] [b; b; b] 15 []); [by_decide|done|done|].
  intros [|[|[|[|k]]]]; unfold size_to; simpl; rewrite ?take_nil; simpl; discriminate.
Defined.

End Buffer.
