(* ===== verification/Task.v ===== *)
(** * Tasks and their wire format: src/common/dfs_task.[ch], dfs_task_codec.c

    A task is sent as its in-memory image: a frame is the frame length, the
    336 bytes of the struct (LP64 layout, padding included), the data length
    and the data. *)

From Stdlib Require Import ZArith Lia Bool.
From stdpp Require Import base numbers list gmap option.
From S2P Require Import Prelude Mem Buffer.

Module Task.
Import Mem Buffer.

(** ** dfs_task.h *)

Definition TASK_ERROR : Z := -1.
Definition TASK_EAGIN : Z := -2.
Definition TASK_OK : Z := 0.
Definition KEY_LEN : nat := 256.
Definition OWNER_LEN : nat := 16.
Definition GROUP_LEN : nat := 16.

(** [pad0], [pad1] and [pad2] are the padding after [seq], [permission] and
    [data_len], which the image carries along. *)
Record task_t := Tsk {
  cmd : Z; ret : Z; seq : Z; pad0 : Z; opq : Z; master_nodeid : Z;
  key : list Z; user : list Z; group : list Z; permission : Z; pad1 : Z;
  data_len : Z; pad2 : Z; data : Z
}.

Definition sizeof_task_t : nat := 336.
Definition sizeof_int : Z := 4.

Definition task_bytes (t : task_t) : list Z :=
  le_enc 4 (cmd t) ++ le_enc 4 (ret t) ++ le_enc 4 (seq t) ++ le_enc 4 (pad0 t) ++
  le_enc 8 (opq t) ++ le_enc 4 (master_nodeid t) ++ key t ++ user t ++ group t ++
  le_enc 2 (permission t) ++ le_enc 2 (pad1 t) ++ le_enc 4 (data_len t) ++
  le_enc 4 (pad2 t) ++ le_enc 8 (data t).

Definition field (bs : list Z) (off n : nat) : list Z := take n (drop off bs).

Definition task_of_bytes (bs : list Z) : task_t :=
  {| cmd := le_dec (field bs 0 4);
     ret := s32 (le_dec (field bs 4 4));
     seq := le_dec (field bs 8 4);
     pad0 := le_dec (field bs 12 4);
     opq := le_dec (field bs 16 8);
     master_nodeid := s32 (le_dec (field bs 24 4));
     key := field bs 28 256;
     user := field bs 284 16;
     group := field bs 300 16;
     permission := s16 (le_dec (field bs 316 2));
     pad1 := le_dec (field bs 318 2);
     data_len := s32 (le_dec (field bs 320 4));
     pad2 := le_dec (field bs 324 4);
     data := le_dec (field bs 328 8) |}.

(** [memset(task, 0, sizeof(task_t))], in [task_new] and [task_clear]. *)
Definition task_clear : task_t :=
  Tsk 0 0 0 0 0 0 (replicate KEY_LEN 0) (replicate OWNER_LEN 0) (replicate GROUP_LEN 0) 0 0 0 0 0.
(** [ok]: whether malloc succeeds. *)
Definition task_new (ok : bool) : option task_t := if ok then Some task_clear else None.

Definition set_data (t : task_t) (d : Z) : task_t :=
  Tsk (cmd t) (ret t) (seq t) (pad0 t) (opq t) (master_nodeid t) (key t) (user t) (group t)
    (permission t) (pad1 t) (data_len t) (pad2 t) d.
Definition set_opq (t : task_t) (o : Z) : task_t :=
  Tsk (cmd t) (ret t) (seq t) (pad0 t) o (master_nodeid t) (key t) (user t) (group t)
    (permission t) (pad1 t) (data_len t) (pad2 t) (data t).

(** ** dfs_task.c *)

(** The sum of [int]s overflows for a huge [data_len]. *)
Definition frame_size (dlen : Z) : option Z :=
  let n := sizeof_int + Z.of_nat sizeof_task_t + sizeof_int + dlen in
  if decide (in_s 32 n) then Some n else None.

(** The result and the memory: the frame is written at [buff], which has room
    for [len] bytes; the data is read at [data t]. *)
Definition task_encode2str (m : mem) (t : task_t) (buff len : Z) : option (Z * mem) :=
  need_size ← frame_size (data_len t);
  if len <? need_size then Some (TASK_EAGIN, m) else
  m ← wr m buff (le_enc 4 need_size);
  let buff := buff + sizeof_int in
  m ← wr m buff (task_bytes t);
  let buff := buff + Z.of_nat sizeof_task_t in
  m ← wr m buff (le_enc 4 (data_len t));
  let buff := buff + sizeof_int in
  if 0 <? data_len t
  then m ← memmove m buff (data t) (Z.to_nat (data_len t)); Some (need_size, m)
  else Some (need_size, m).

(** The result and the task, whose [data] points into the buffer. *)
Definition task_decodefstr (m : mem) (buff len : Z) (t : task_t) : option (Z * task_t) :=
  let saved := opq t in
  need_size ← rd_int m buff;
  if len <? need_size then Some (TASK_EAGIN, t) else
  let buff := buff + sizeof_int in
  bs ← rd m buff sizeof_task_t;
  let t := task_of_bytes bs in
  let buff := buff + Z.of_nat sizeof_task_t in
  dlen ← rd_int m buff;
  let buff := buff + sizeof_int in
  let t := if 0 <? dlen then set_data t buff else t in
  Some (need_size, set_opq t saved).

(** ** dfs_task_codec.c *)

Definition DFS_OK : Z := 0.
Definition DFS_AGAIN : Z := -2.

Definition task_decode (m : mem) (b : buffer_t) (t : task_t) : option (Z * buffer_t * task_t) :=
  if buffer_size b <=? 0 then Some (DFS_AGAIN, b, t) else
  '(r, t) ← task_decodefstr m (pos b) (s32 (buffer_size b)) t;
  if r <=? 0 then Some (r, b, t) else Some (DFS_OK, buffer_pull b r, t).

Definition task_encode (m : mem) (t : task_t) (b : buffer_t) : option (Z * mem * buffer_t) :=
  if buffer_free_size b <=? 0 then Some (DFS_AGAIN, m, b) else
  '(r, m) ← task_encode2str m t (last b) (s32 (buffer_free_size b));
  if r <=? 0 then Some (r, m, b) else Some (DFS_OK, m, buffer_used b r).

(** ** Well-formed tasks *)

Definition task_ok (t : task_t) : Prop :=
  in_u 32 (cmd t) /\ in_s 32 (ret t) /\ in_u 32 (seq t) /\ in_u 32 (pad0 t) /\
  in_u 64 (opq t) /\ in_s 32 (master_nodeid t) /\
  length (key t) = KEY_LEN /\ length (user t) = OWNER_LEN /\ length (group t) = GROUP_LEN /\
  in_s 16 (permission t) /\ in_u 16 (pad1 t) /\ in_s 32 (data_len t) /\
  in_u 32 (pad2 t) /\ in_u 64 (data t).

#[global] Instance task_ok_dec t : Decision (task_ok t).
Proof. unfold task_ok. apply _. Defined.

Create Rewrite HintDb enc_len.
#[export] Hint Rewrite @length_app le_enc_length : enc_len.

Lemma task_bytes_length t : task_ok t -> length (task_bytes t) = sizeof_task_t.
Proof.
  intros (_ & _ & _ & _ & _ & _ & K & U & G & _). unfold task_bytes.
  autorewrite with enc_len. rewrite K, U, G. reflexivity.
Qed.

Lemma field_skip l1 l2 off n :
  (length l1 <= off)%nat -> field (l1 ++ l2) off n = field l2 (off - length l1) n.
Proof. intros H. unfold field. rewrite drop_app_ge by lia. done. Qed.
Lemma field_here l1 l2 n : length l1 = n -> field (l1 ++ l2) 0 n = l1.
Proof. intros <-. unfold field. rewrite drop_0, take_app_length. done. Qed.

(** The image determines the task. *)
Lemma task_of_bytes_bytes t : task_ok t -> task_of_bytes (task_bytes t) = t.
Proof.
  intros (H1 & H2 & H3 & H4 & H5 & H6 & K & U & G & H7 & H8 & H9 & H10 & H11).
  unfold task_of_bytes, task_bytes, KEY_LEN, OWNER_LEN, GROUP_LEN in *.
  repeat match goal with |- context [field (?a ++ ?b) ?o ?n] =>
    first
      [ rewrite (field_here a b n) by (rewrite ?le_enc_length; lia)
      | rewrite (field_skip a b o n) by (rewrite ?le_enc_length; lia);
        rewrite ?le_enc_length, ?K, ?U, ?G; simpl (_ - _)%nat ]
  end.
  replace (field (le_enc 8 (data t)) 0 8) with (le_enc 8 (data t))
    by (unfold field; rewrite drop_0, take_ge; [done|rewrite le_enc_length; lia]).
  rewrite !s32_le_enc, !s16_le_enc by assumption. rewrite !le_dec_enc_u by assumption.
  by destruct t.
Qed.

(** ** Frames in memory *)

(** The frame of [t] with the data [payload] is stored at [a]. *)
Definition frame_at (m : mem) (a : Z) (t : task_t) (payload : list Z) : Prop :=
  rd m a (4 + (sizeof_task_t + (4 + length payload))) =
  Some (le_enc 4 (344 + data_len t) ++ task_bytes t ++ le_enc 4 (data_len t) ++ payload).

Definition frame_len (payload : list Z) : Z := 344 + Z.of_nat (length payload).

(** A task whose data is the bytes [payload], in memory at [data t]. *)
Definition sendable (m : mem) (t : task_t) (payload : list Z) : Prop :=
  task_ok t /\ data_len t = Z.of_nat (length payload) /\ frame_len payload < 2 ^ 31 /\
  rd m (data t) (length payload) = Some payload.

(** The interval [a, a + n) does not meet [b, b + k). *)
Definition apart (a n b k : Z) : Prop := a + n <= b \/ b + k <= a.

Lemma frame_at_frame m m' a t p :
  (forall i, a <= i < a + frame_len p -> m' !! i = m !! i) -> frame_at m a t p -> frame_at m' a t p.
Proof.
  unfold frame_at, frame_len. intros H E. rewrite <- E. apply rd_frame.
  intros i Hi. apply H. unfold sizeof_task_t in Hi. lia.
Qed.

Lemma frame_size_sendable m t p : sendable m t p -> frame_size (data_len t) = Some (frame_len p).
Proof.
  intros (_ & L & B & _). unfold frame_size, frame_len, sizeof_int, sizeof_task_t in *.
  rewrite L. rewrite decide_True; [f_equal; lia|]. unfold in_s. lia.
Qed.

Lemma encode_frame m t p buff len :
  sendable m t p -> frame_len p <= len -> mapped m buff len ->
  apart buff (frame_len p) (data t) (Z.of_nat (length p)) ->
  exists m', task_encode2str m t buff len = Some (frame_len p, m') /\ frame_at m' buff t p /\
    (forall i, i < buff \/ buff + frame_len p <= i -> m' !! i = m !! i).
Proof.
  intros S Hlen HM HA. pose proof S as (OK & L & B & RD). unfold task_encode2str.
  rewrite (frame_size_sendable _ _ _ S). cbn [mbind option_bind].
  rewrite (proj2 (Z.ltb_ge _ _)) by done. unfold sizeof_int.
  set (hdr := le_enc 4 (frame_len p) ++ task_bytes t ++ le_enc 4 (data_len t)).
  assert (LH : length hdr = 344%nat).
  { unfold hdr. autorewrite with enc_len. by rewrite task_bytes_length. }
  destruct (wr_mapped m buff (hdr ++ p)) as [m' W].
  { intros i Hi. apply HM. rewrite length_app, LH in Hi. unfold frame_len in *. lia. }
  pose proof W as W'. rewrite wr_app in W'. destruct (wr m buff hdr) as [m1|] eqn:W1; [|done].
  cbn [mbind option_bind] in W'. rewrite LH in W'. unfold hdr in W1. rewrite !wr_app in W1.
  destruct (wr m buff (le_enc 4 (frame_len p))) as [ma|] eqn:Wa; [|done].
  cbn [mbind option_bind] in *. rewrite le_enc_length in W1. rewrite wr_app in W1.
  destruct (wr ma (buff + Z.of_nat 4) (task_bytes t)) as [mb|] eqn:Wb; [|done].
  change (Z.of_nat 4) with 4 in *. rewrite Wb. cbn [mbind option_bind] in *.
  rewrite task_bytes_length in W1 by done. rewrite W1. cbn [mbind option_bind].
  assert (R1 : rd m1 (data t) (length p) = Some p).
  { rewrite <- RD. apply rd_frame. intros i Hi.
    rewrite (wr_lookup_ne m buff hdr m1 i); [done| |].
    - unfold hdr. rewrite wr_app, Wa. cbn [mbind option_bind]. rewrite wr_app, le_enc_length.
      change (Z.of_nat 4) with 4. rewrite Wb. cbn [mbind option_bind].
      by rewrite task_bytes_length.
    - rewrite LH. unfold apart, frame_len in HA. lia. }
  exists m'. split_and!.
  - rewrite L. destruct (decide (p = [])) as [->|Hp]; [injection W' as ->; done|].
    assert (0 < length p)%nat by (destruct p; [done|simpl; lia]).
    rewrite (proj2 (Z.ltb_lt _ _)) by lia. unfold memmove. rewrite Nat2Z.id, R1.
    cbn [mbind option_bind]. replace (buff + 4 + Z.of_nat sizeof_task_t + 4)
      with (buff + Z.of_nat 344) by (unfold sizeof_task_t; lia).
    by rewrite W'.
  - unfold frame_at. pose proof (wr_rd _ _ _ _ W) as R. rewrite length_app, LH in R.
    change (4 + (sizeof_task_t + (4 + length p)))%nat with (344 + length p)%nat. rewrite R.
    unfold hdr, frame_len. rewrite L, <- !app_assoc. done.
  - intros i Hi. apply (wr_lookup_ne _ _ _ _ _ W). rewrite length_app, LH.
    unfold frame_len in Hi. lia.
Qed.

Lemma rd_split m a n k l1 l2 :
  length l1 = n -> rd m a (n + k) = Some (l1 ++ l2) ->
  rd m a n = Some l1 /\ rd m (a + Z.of_nat n) k = Some l2.
Proof.
  intros L. rewrite rd_app. destruct (rd m a n) as [l1'|] eqn:R1; [|done].
  cbn [mbind option_bind]. destruct (rd m (a + Z.of_nat n) k) as [l2'|]; [|done].
  cbn [mbind option_bind]. intros [= E]. apply rd_length in R1.
  apply app_inj_1 in E as [-> ->]; [done|]. congruence.
Qed.

(** What the receiver of a task sees: its own [opq], and the data in place. *)
Definition received (t : task_t) (a o : Z) : task_t :=
  set_opq (if 0 <? data_len t then set_data t (a + 344) else t) o.

Lemma decode_frame m a t p len t0 :
  task_ok t -> data_len t = Z.of_nat (length p) -> frame_len p < 2 ^ 31 ->
  frame_at m a t p -> frame_len p <= len ->
  task_decodefstr m a len t0 = Some (frame_len p, received t a (opq t0)) /\
  rd m (a + 344) (length p) = Some p.
Proof.
  intros OK L B F Hlen. unfold frame_at in F.
  apply rd_split in F as [F1 F]; [|apply le_enc_length].
  apply rd_split in F as [F2 F]; [|by apply task_bytes_length].
  apply rd_split in F as [F3 F4]; [|apply le_enc_length].
  change (Z.of_nat 4) with 4 in *. unfold task_decodefstr, rd_int, sizeof_int. rewrite F1.
  cbn [mbind option_bind]. rewrite s32_le_enc by (unfold in_s, frame_len in *; lia).
  replace (344 + data_len t) with (frame_len p) by (unfold frame_len; lia).
  rewrite (proj2 (Z.ltb_ge _ _)) by done. rewrite F2. cbn [mbind option_bind].
  rewrite F3. cbn [mbind option_bind].
  rewrite s32_le_enc by (unfold in_s, frame_len in *; lia).
  rewrite task_of_bytes_bytes by done.
  replace (a + 4 + Z.of_nat sizeof_task_t + 4) with (a + 344) in * by (unfold sizeof_task_t; lia).
  done.
Qed.

(** A task that was encoded is decoded to the same task: every field is
    kept but [opq], which stays the receiver's, and [data], which points to
    the copy of the payload in the receive buffer; encoding writes its frame
    and nothing else. *)
Theorem task_codec_roundtrip m t payload buff len t0 :
  sendable m t payload -> frame_len payload <= len -> mapped m buff len ->
  apart buff (frame_len payload) (data t) (Z.of_nat (length payload)) ->
  exists m',
    task_encode2str m t buff len = Some (frame_len payload, m') /\
    task_decodefstr m' buff (frame_len payload) t0 =
      Some (frame_len payload, received t buff (opq t0)) /\
    rd m' (buff + 344) (length payload) = Some payload /\
    (forall i, i < buff \/ buff + frame_len payload <= i -> m' !! i = m !! i).
Proof.
  intros S Hlen HM HA. destruct (encode_frame m t payload buff len S Hlen HM HA) as (m' & E & F & O).
  destruct S as (OK & L & B & _).
  destruct (decode_frame m' buff t payload (frame_len payload) t0 OK L B F) as [D R]; [lia|].
  exists m'. done.
Qed.

(** [n] zero bytes from address 0, and a task whose data is the first [k]. *)
Definition zero_mem (n : nat) : mem := list_to_map ((fun i => (i, 0)) <$> seqZ 0 (Z.of_nat n)).
Definition sample_task (k : Z) : task_t :=
  Tsk 5 (-17) 7 0 0 (-1) (replicate KEY_LEN 65) (replicate OWNER_LEN 66) (replicate GROUP_LEN 67)
    755 0 k 0 0.

Lemma sample_sendable : sendable (zero_mem 800) (sample_task 2) [0; 0].
Proof. split_and!; [by_decide|done|done|vm_compute; reflexivity]. Qed.

Lemma task_codec_roundtrip_witness :
  exists m',
    task_encode2str (zero_mem 800) (sample_task 2) 10 400 = Some (frame_len [0; 0], m') /\
    task_decodefstr m' 10 (frame_len [0; 0]) task_clear =
      Some (frame_len [0; 0], received (sample_task 2) 10 (opq task_clear)) /\
    rd m' (10 + 344) 2 = Some [0; 0] /\
    (forall i, i < 10 \/ 10 + frame_len [0; 0] <= i -> m' !! i = zero_mem 800 !! i).
Proof.
  apply (task_codec_roundtrip (zero_mem 800) (sample_task 2) [0; 0] 10 400 task_clear).
  - apply sample_sendable.
  - done.
  - by_decide.
  - right. done.
Defined.

(** ** Streams of frames *)

Definition encode_all : mem -> list task_t -> buffer_t -> option (mem * buffer_t) :=
  fix go m ts b :=
    match ts with
    | [] => Some (m, b)
    | t :: ts' =>
        '(r, m, b) ← task_encode m t b;
        if r =? DFS_OK then go m ts' b else None
    end.

Fixpoint decode_all (n : nat) (m : mem) (b : buffer_t) (t0 : task_t) : option (buffer_t * list task_t) :=
  match n with
  | O => Some (b, [])
  | S n' =>
      '(r, b, t) ← task_decode m b t0;
      if r =? DFS_OK then '(b, ts) ← decode_all n' m b t0; Some (b, t :: ts) else None
  end.

Definition total (ps : list (task_t * list Z)) : Z := foldr (fun tp n => frame_len (tp.2) + n) 0 ps.

(** The frames of [ps] stored one after the other from [a]. *)
Fixpoint frames (m : mem) (a : Z) (ps : list (task_t * list Z)) : Prop :=
  match ps with
  | [] => True
  | (t, p) :: ps' =>
      task_ok t /\ data_len t = Z.of_nat (length p) /\ frame_len p < 2 ^ 31 /\
      frame_at m a t p /\ frames m (a + frame_len p) ps'
  end.

Fixpoint received_all (a o : Z) (ps : list (task_t * list Z)) : list task_t :=
  match ps with
  | [] => []
  | (t, p) :: ps' => received t a o :: received_all (a + frame_len p) o ps'
  end.

Lemma total_nonneg ps : 0 <= total ps.
Proof. induction ps as [|[t p] ps IH]; simpl; unfold frame_len; lia. Qed.

(** The bytes of a list of tasks are in memory, outside the buffer. *)
Definition all_sendable (m : mem) (b : buffer_t) (ps : list (task_t * list Z)) : Prop :=
  Forall (fun tp => sendable m (tp.1) (tp.2) /\
    apart (start b) (end_ b - start b) (data (tp.1)) (Z.of_nat (length (tp.2)))) ps.

Lemma sendable_frame m m' t p :
  (forall i, data t <= i < data t + Z.of_nat (length p) -> m' !! i = m !! i) ->
  sendable m t p -> sendable m' t p.
Proof. intros H (? & ? & ? & R). split_and!; try done. rewrite <- R. by apply rd_frame. Qed.

(** One task appended to a memory buffer with room for it. *)
Lemma task_encode_ok m t p b :
  buffer_ok b -> memory b = true -> mapped m (start b) (end_ b - start b) ->
  sendable m t p -> apart (start b) (end_ b - start b) (data t) (Z.of_nat (length p)) ->
  frame_len p <= buffer_free_size b ->
  exists m', task_encode m t b = Some (DFS_OK, m', buffer_used b (frame_len p)) /\
    frame_at m' (last b) t p /\
    (forall i, i < last b \/ last b + frame_len p <= i -> m' !! i = m !! i).
Proof.
  intros (B1 & B2 & B3 & _) HM HMap S HA Hfree. unfold buffer_free_size in Hfree.
  destruct (encode_frame m t p (last b) (end_ b - last b)) as (m' & E & F & O); try done.
  { intros i Hi. apply HMap. lia. }
  { unfold apart in *. lia. }
  exists m'. split; [|done]. unfold task_encode, buffer_free_size.
  assert (0 < frame_len p) by (unfold frame_len; lia).
  rewrite (proj2 (Z.leb_gt _ _)) by lia. unfold s32.
  rewrite swrap_small by (unfold in_s; lia). rewrite E. cbn [mbind option_bind].
  by rewrite (proj2 (Z.leb_gt _ _)) by lia.
Qed.

Lemma task_decode_ok m t p b t0 :
  memory b = true -> buffer_size b < 2 ^ 31 -> frame_len p <= buffer_size b ->
  task_ok t -> data_len t = Z.of_nat (length p) -> frame_at m (pos b) t p ->
  task_decode m b t0 = Some (DFS_OK, buffer_pull b (frame_len p), received t (pos b) (opq t0)).
Proof.
  intros HM HB HF OK L F. unfold task_decode.
  assert (0 < frame_len p) by (unfold frame_len; lia).
  rewrite (proj2 (Z.leb_gt _ _)) by lia. unfold s32. rewrite swrap_small by (unfold in_s; lia).
  destruct (decode_frame m (pos b) t p (buffer_size b) t0) as [-> _]; [done..|lia|done|lia|].
  cbn [mbind option_bind]. by rewrite (proj2 (Z.leb_gt _ _)) by lia.
Qed.

Lemma frames_frame m m' a ps :
  (forall i, a <= i < a + total ps -> m' !! i = m !! i) -> frames m a ps -> frames m' a ps.
Proof.
  revert a. induction ps as [|[t p] ps IH]; intros a H; cbn [frames]; [done|].
  intros (? & ? & ? & F & R). cbn [total foldr snd] in H. pose proof (total_nonneg ps).
  assert (0 < frame_len p) by (unfold frame_len; lia). split_and!; try done.
  - apply (frame_at_frame m); [|done]. intros i Hi. apply H. fold (total ps). lia.
  - apply IH; [|done]. intros i Hi. apply H. fold (total ps). lia.
Qed.

Lemma encode_all_frames ps m b :
  buffer_ok b -> memory b = true -> mapped m (start b) (end_ b - start b) ->
  all_sendable m b ps -> total ps <= buffer_free_size b ->
  exists m', encode_all m (map fst ps) b = Some (m', buffer_used b (total ps)) /\
    frames m' (last b) ps /\ (forall i, i < last b -> m' !! i = m !! i).
Proof.
  revert m b. induction ps as [|[t p] ps IH]; intros m b OK HM HMap HS HT.
  { exists m. split_and!; try done. cbn. f_equal. f_equal. unfold buffer_used, set_window.
    destruct b; simpl. f_equal. lia. }
  apply Forall_cons_1 in HS as [[S HA] HS]. cbn [fst snd] in *.
  cbn [total foldr snd] in HT. fold (total ps) in HT. pose proof (total_nonneg ps).
  assert (L0 : 0 < frame_len p) by (unfold frame_len; lia).
  destruct (task_encode_ok m t p b) as (m1 & E1 & F1 & O1); try done; [lia|].
  pose proof OK as (B1 & B2 & B3 & B4). unfold buffer_free_size in HT.
  destruct (IH m1 (buffer_used b (frame_len p))) as (m' & E & F & O).
  - unfold buffer_ok, buffer_used. simpl. lia.
  - done.
  - simpl. intros i Hi. destruct (decide (last b <= i < last b + frame_len p)) as [Hin|Hout].
    + unfold frame_at in F1. assert (mapped m1 (last b) (frame_len p)) as M1; [|by apply M1].
      unfold frame_len. replace (344 + Z.of_nat (length p)) with
        (Z.of_nat (4 + (sizeof_task_t + (4 + length p)))) by (unfold sizeof_task_t; lia).
      apply rd_mapped. eauto.
    + rewrite O1 by lia. by apply HMap.
  - unfold all_sendable in *. revert HS. apply Forall_impl. intros [t' p'] [S' A']. simpl in *.
    split; [|done]. eapply sendable_frame; [|exact S']. intros i Hi. apply O1. unfold apart in A'. lia.
  - unfold buffer_free_size. simpl. lia.
  - exists m'. simpl in *. rewrite E1. cbn [mbind option_bind]. split_and!.
    + change (DFS_OK =? DFS_OK) with true. cbn match. fold encode_all. rewrite E.
      f_equal. f_equal. unfold buffer_used, set_window. simpl. f_equal. lia.
    + apply S.
    + apply S.
    + apply S.
    + apply (frame_at_frame m1); [|done]. intros i Hi. apply O. lia.
    + done.
    + intros i Hi. rewrite O by lia. apply O1. lia.
Qed.

Lemma decode_all_frames ps m b t0 :
  buffer_ok b -> memory b = true -> frames m (pos b) ps -> total ps <= buffer_size b ->
  decode_all (length ps) m b t0 =
    Some (buffer_pull b (total ps), received_all (pos b) (opq t0) ps).
Proof.
  revert b. induction ps as [|[t p] ps IH]; intros b OK HM F HT.
  { cbn. f_equal. f_equal. unfold buffer_pull, set_window. destruct b; simpl. f_equal. lia. }
  destruct F as (T1 & T2 & T3 & T4 & F). cbn [total foldr snd] in HT. fold (total ps) in HT.
  pose proof (total_nonneg ps). assert (0 < frame_len p) by (unfold frame_len; lia).
  pose proof OK as (B1 & B2 & B3 & B4).
  assert (HS : buffer_size b = last b - pos b) by (unfold buffer_size, buffer_in_memory; by rewrite HM).
  cbn [length decode_all]. rewrite (task_decode_ok m t p b t0) by (done || lia).
  cbn [mbind option_bind]. change (DFS_OK =? DFS_OK) with true. cbn match.
  rewrite IH; [|unfold buffer_ok; simpl; lia|done|done|].
  - cbn [mbind option_bind received_all]. f_equal. f_equal.
    unfold buffer_pull, set_window. simpl. f_equal. lia.
  - unfold buffer_size, buffer_in_memory. simpl. rewrite HM. lia.
Qed.

(** The data of every decoded task is the payload that was sent with it. *)
Definition carries (m : mem) (ts : list task_t) (ps : list (task_t * list Z)) : Prop :=
  Forall2 (fun t tp => rd m (data t) (length (tp.2)) = Some (tp.2)) ts ps.

Lemma frames_carry m a o ps : frames m a ps -> carries m (received_all a o ps) ps.
Proof.
  revert a. induction ps as [|[t p] ps IH]; intros a; cbn [frames received_all]; [constructor|].
  intros (T1 & T2 & T3 & T4 & F). constructor; [|by apply IH]. cbn [snd]. unfold received.
  destruct p as [|c p]; [done|]. rewrite (proj2 (Z.ltb_lt _ _)) by (rewrite T2; simpl; lia).
  apply (decode_frame m a t (c :: p) (frame_len (c :: p)) t); [done..|lia].
Qed.

(** C28. A stream of tasks encoded into an empty buffer one after the other is
    decoded to the same tasks in the same order, each with the bytes of its
    payload in the buffer, after which the buffer holds nothing and the decoder
    asks for more.  Every field of a task is kept but [opq], which stays the
    receiver's, and the pointer to the data.  The frames fit into the buffer and the
    payloads are outside it. *)
Theorem task_stream_roundtrip m b ps t0 :
  buffer_ok b -> memory b = true -> mapped m (start b) (end_ b - start b) ->
  pos b = last b -> all_sendable m b ps -> total ps <= buffer_free_size b ->
  exists m' b' b'',
    encode_all m (map fst ps) b = Some (m', b') /\
    decode_all (length ps) m' b' t0 = Some (b'', received_all (pos b) (opq t0) ps) /\
    carries m' (received_all (pos b) (opq t0) ps) ps /\
    buffer_size b'' = 0 /\ task_decode m' b'' t0 = Some (DFS_AGAIN, b'', t0).
Proof.
  intros OK HM HMap HP HS HT.
  destruct (encode_all_frames ps m b OK HM HMap HS HT) as (m' & E & F & O).
  pose proof OK as (B1 & B2 & B3 & B4). pose proof (total_nonneg ps).
  unfold buffer_free_size in HT. set (b' := buffer_used b (total ps)) in *.
  assert (HS' : buffer_size b' = total ps).
  { unfold buffer_size, buffer_in_memory, b'. simpl. rewrite HM. lia. }
  exists m', b', (buffer_pull b' (total ps)). split; [done|].
  rewrite (decode_all_frames ps m' b' t0).
  - assert (Z0 : buffer_size (buffer_pull b' (total ps)) = 0).
    { unfold buffer_size, buffer_in_memory, b'. simpl. rewrite HM. lia. }
    split_and!; [done|apply frames_carry; by rewrite HP|done|]. unfold task_decode. by rewrite Z0.
  - unfold buffer_ok, b'. simpl. lia.
  - done.
  - unfold b'. simpl. by rewrite HP.
  - lia.
Qed.

Lemma task_stream_roundtrip_witness :
  let b := Buf 10 10 0 0 10 800 true true false in
  let m := <[0 := 90]> (<[1 := 7]> (zero_mem 800)) in
  let ps := [(sample_task 2, [90; 7]); (sample_task 1, [90])] in
  exists m' b' b'',
    encode_all m (map fst ps) b = Some (m', b') /\
    decode_all 2 m' b' task_clear = Some (b'', received_all 10 (opq task_clear) ps) /\
    carries m' (received_all 10 (opq task_clear) ps) ps /\
    buffer_size b'' = 0 /\ task_decode m' b'' task_clear = Some (DFS_AGAIN, b'', task_clear).
Proof.
  intros b m ps. apply (task_stream_roundtrip m b ps task_clear);
    [by_decide|done|by_decide|done| |done].
  repeat constructor; simpl; try by_decide; try done; vm_compute; congruence.
Defined.

(** A frame that has not fully arrived leaves the buffer and the task as
    they were: the decoder only consumes whole frames. *)
Theorem task_decode_incomplete m b t0 need :
  rd m (pos b) 4 = Some (le_enc 4 need) -> in_s 32 need ->
  0 < buffer_size b < need -> buffer_size b < 2 ^ 31 ->
  task_decode m b t0 = Some (TASK_EAGIN, b, t0).
Proof.
  intros R HN HB HS. unfold task_decode. rewrite (proj2 (Z.leb_gt _ _)) by lia.
  unfold s32. rewrite swrap_small by (unfold in_s; lia).
  unfold task_decodefstr, rd_int. rewrite R. cbn [mbind option_bind].
  rewrite s32_le_enc by done. by rewrite (proj2 (Z.ltb_lt _ _)) by lia.
Qed.

Lemma task_decode_incomplete_witness :
  let b := Buf 0 5 0 0 0 800 true true false in
  let m := <[0 := 90]> (<[1 := 1]> (zero_mem 800)) in
  task_decode m b task_clear = Some (TASK_EAGIN, b, task_clear).
Proof.
  intros b m. apply (task_decode_incomplete m b task_clear 346);
    [vm_compute; reflexivity|by_decide|vm_compute; intuition congruence|done].
Defined.

(** A frame whose length field is zero is reported as decoded
    ([DFS_OK]) without consuming any byte, so a caller that decodes until it
    is asked to wait never gets past it. *)
Theorem task_decode_zero_frame m b t0 bs :
  rd m (pos b) 4 = Some (le_enc 4 0) -> 0 < buffer_size b < 2 ^ 31 ->
  rd m (pos b + 4) (sizeof_task_t + 4) = Some bs ->
  exists t, task_decode m b t0 = Some (DFS_OK, b, t).
Proof.
  intros R HB R'. unfold task_decode. rewrite (proj2 (Z.leb_gt _ _)) by lia.
  unfold s32. rewrite swrap_small by (unfold in_s; lia).
  unfold task_decodefstr, rd_int, sizeof_int. rewrite R. cbn [mbind option_bind].
  change (s32 (le_dec (le_enc 4 0))) with 0. rewrite (proj2 (Z.ltb_ge _ _)) by lia.
  rewrite rd_app in R'. destruct (rd m (pos b + 4) sizeof_task_t) as [tb|]; [|done].
  cbn [mbind option_bind] in *.
  destruct (rd m (pos b + 4 + Z.of_nat sizeof_task_t) 4) as [db|]; [|done].
  cbn [mbind option_bind] in *. simpl (0 <=? 0). eauto.
Qed.

Lemma task_decode_zero_frame_witness :
  let b := Buf 0 400 0 0 0 800 true true false in
  exists t, task_decode (zero_mem 800) b task_clear = Some (DFS_OK, b, t).
Proof.
  intros b. apply (task_decode_zero_frame (zero_mem 800) b task_clear (replicate 340 0));
    [vm_compute; reflexivity|by_decide|vm_compute; reflexivity].
Defined.

End Task.
