(* ===== verification/Queue.v ===== *)
(** * Intrusive circular doubly linked lists: src/core/dfs_queue.h and .c

    A [queue_t] is a pair of pointers embedded in some object.  The store
    maps addresses to such pairs; the macros of dfs_queue.h are the
    computations below, in the order of their assignments.  [ring h q xs]
    says that the list headed by the sentinel [q] holds the nodes [xs]. *)

From Stdlib Require Import ZArith Lia Bool.
From stdpp Require Import base numbers list gmap sorting.
From S2P Require Import Prelude.

Module Queue.

(** ** Definitions *)

Record queue_t := Node { prev : Z; next : Z }.

Abbreviation qheap := (gmap Z queue_t).
Abbreviation Q := (ST qheap).

Definition NULL : Z := 0.

Definition ld_prev (a : Z) : Q Z := gets (fun h => prev <$> h !! a).
Definition ld_next (a : Z) : Q Z := gets (fun h => next <$> h !! a).
Definition st_prev (a v : Z) : Q unit :=
  puts (fun h => n ← h !! a; Some (<[a := Node v (next n)]> h)).
Definition st_next (a v : Z) : Q unit :=
  puts (fun h => n ← h !! a; Some (<[a := Node (prev n) v]> h)).

Definition queue_init (q : Z) : Q unit := st_prev q q;; st_next q q.

Definition queue_empty (h : Z) : Q bool := p ← ld_prev h; mret (h =? p).
Definition queue_head (h : Z) : Q Z := ld_next h.
Definition queue_tail (h : Z) : Q Z := ld_prev h.
Definition queue_next (q : Z) : Q Z := ld_next q.
Definition queue_prev (q : Z) : Q Z := ld_prev q.

Definition queue_insert_head (h x : Z) : Q unit :=
  hn ← ld_next h; st_next x hn;;
  xn ← ld_next x; st_prev xn x;;
  st_prev x h;;
  st_next h x.

Definition queue_insert_tail (h x : Z) : Q unit :=
  hp ← ld_prev h; st_prev x hp;;
  xp ← ld_prev x; st_next xp x;;
  st_next x h;;
  st_prev h x.

Definition queue_insert_before (listelm elm : Z) : Q unit :=
  lp ← ld_prev listelm; st_prev elm lp;;
  st_next elm listelm;;
  lp' ← ld_prev listelm; st_next lp' elm;;
  st_prev listelm elm.

Definition queue_insert_after (listelm elm : Z) : Q unit :=
  ln ← ld_next listelm; st_next elm ln;;
  st_prev elm listelm;;
  ln' ← ld_next listelm; st_prev ln' elm;;
  st_next listelm elm.

Definition queue_add_queue (h n : Z) : Q unit :=
  nn ← ld_next n; hp ← ld_prev h; st_next hp nn;;
  hp' ← ld_prev h; nn' ← ld_next n; st_prev nn' hp';;
  np ← ld_prev n; st_prev h np;;
  hp'' ← ld_prev h; st_next hp'' h.

Definition queue_remove (x : Z) : Q unit :=
  xp ← ld_prev x; xn ← ld_next x; st_prev xn xp;;
  xn' ← ld_next x; xp' ← ld_prev x; st_next xp' xn';;
  st_next x NULL;; st_prev x NULL.

Definition queue_split (h q n : Z) : Q unit :=
  hp ← ld_prev h; st_prev n hp;;
  np ← ld_prev n; st_next np n;;
  st_next n q;;
  qp ← ld_prev q; st_prev h qp;;
  hp' ← ld_prev h; st_next hp' h;;
  st_prev q n.

(** [queue_middle]: [middle] advances one node a round, [next] two.  The fuel
    bounds the number of rounds. *)
Fixpoint middle_loop (fuel : nat) (queue middle nxt : Z) : Q Z :=
  match fuel with
  | O => ub
  | S fuel' =>
      middle ← queue_next middle;
      nxt ← queue_next nxt;
      tail ← queue_tail queue;
      if nxt =? tail then mret middle
      else nxt ← queue_next nxt;
           tail ← queue_tail queue;
           if nxt =? tail then mret middle else middle_loop fuel' queue middle nxt
  end.

Definition queue_middle (fuel : nat) (queue : Z) : Q Z :=
  middle ← queue_head queue;
  tail ← queue_tail queue;
  if middle =? tail then mret middle
  else nxt ← queue_head queue; middle_loop fuel queue middle nxt.

Section sort.
Context (cmp : Z -> Z -> Z).

(** The [do ... while] of [queue_sort]: walk back from [prv] to the node
    after which [q] goes. *)
Fixpoint sort_back (fuel : nat) (queue q prv : Z) : Q Z :=
  match fuel with
  | O => ub
  | S fuel' =>
      if cmp prv q <=? 0 then mret prv
      else prv ← queue_prev prv;
           if prv =? queue then mret prv else sort_back fuel' queue q prv
  end.

Fixpoint sort_loop (fuel : nat) (queue q : Z) : Q unit :=
  if q =? queue then mret tt else
  match fuel with
  | O => ub
  | S fuel' =>
      prv ← queue_prev q;
      nxt ← queue_next q;
      queue_remove q;;
      prv ← sort_back fuel queue q prv;
      queue_insert_head prv q;;
      sort_loop fuel' queue nxt
  end.

Definition queue_sort (fuel : nat) (queue : Z) : Q unit :=
  q ← queue_head queue;
  tail ← queue_tail queue;
  if q =? tail then mret tt
  else q ← queue_next q; sort_loop fuel queue q.

End sort.

(** ** The represented list *)

Definition nx (h : qheap) (a : Z) : option Z := next <$> h !! a.
Definition pv (h : qheap) (a : Z) : option Z := prev <$> h !! a.

(** [b] follows [a], in both directions. *)
Definition edge (h : qheap) (a b : Z) : Prop := nx h a = Some b /\ pv h b = Some a.

Fixpoint path (h : qheap) (l : list Z) : Prop :=
  match l with
  | a :: (b :: _) as l' => edge h a b /\ path h l'
  | _ => True
  end.

Definition ring (h : qheap) (q : Z) (xs : list Z) : Prop :=
  NoDup (q :: xs) /\ path h (q :: xs ++ [q]).

#[global] Instance edge_dec h a b : Decision (edge h a b).
Proof. unfold edge. apply _. Defined.
#[global] Instance path_dec h l : Decision (path h l).
Proof.
  induction l as [|a l IH]; [left; exact I|]. destruct l as [|b l]; [left; exact I|].
  cbn [path]. apply and_dec; [apply _|exact IH].
Defined.
#[global] Instance ring_dec h q xs : Decision (ring h q xs).
Proof. unfold ring. apply _. Defined.

(** [h'] differs from [h] at most at the addresses [l]. *)
Definition frame (l : list Z) (h h' : qheap) : Prop :=
  forall z, z ∉ l -> h' !! z = h !! z.

(** ** Reading and writing nodes *)

Lemma nx_pv_lookup h h' a : nx h a = nx h' a -> pv h a = pv h' a -> h !! a = h' !! a.
Proof.
  unfold nx, pv. destruct (h !! a) as [[]|], (h' !! a) as [[]|]; simpl; congruence.
Qed.

Lemma ld_next_eq h a b : nx h a = Some b -> ld_next a h = Some (b, h).
Proof. unfold ld_next, gets, nx. by intros ->. Qed.
Lemma ld_prev_eq h a b : pv h a = Some b -> ld_prev a h = Some (b, h).
Proof. unfold ld_prev, gets, pv. by intros ->. Qed.

Definition is_node (h : qheap) (a : Z) : Prop := is_Some (h !! a).

Lemma nx_node h a b : nx h a = Some b -> is_node h a.
Proof. unfold nx, is_node. destruct (h !! a); simpl; [eauto|discriminate]. Qed.
Lemma pv_node h a b : pv h a = Some b -> is_node h a.
Proof. unfold pv, is_node. destruct (h !! a); simpl; [eauto|discriminate]. Qed.
Lemma edge_nodes h a b : edge h a b -> is_node h a /\ is_node h b.
Proof. intros []; eauto using nx_node, pv_node. Qed.

(** What a store leaves behind, as the values of the two fields. *)
Definition set_next (a v : Z) (h : qheap) : qheap := alter (fun n => Node (prev n) v) a h.
Definition set_prev (a v : Z) (h : qheap) : qheap := alter (fun n => Node v (next n)) a h.

Lemma st_next_eq h a v : is_node h a -> st_next a v h = Some (tt, set_next a v h).
Proof.
  intros [n E]. unfold st_next, puts, set_next. rewrite E. cbn [mbind option_bind].
  f_equal. f_equal. apply map_eq. intros b. destruct (decide (a = b)) as [->|].
  - by rewrite lookup_insert_eq, lookup_alter_eq, E.
  - by rewrite lookup_insert_ne, lookup_alter_ne.
Qed.
Lemma st_prev_eq h a v : is_node h a -> st_prev a v h = Some (tt, set_prev a v h).
Proof.
  intros [n E]. unfold st_prev, puts, set_prev. rewrite E. cbn [mbind option_bind].
  f_equal. f_equal. apply map_eq. intros b. destruct (decide (a = b)) as [->|].
  - by rewrite lookup_insert_eq, lookup_alter_eq, E.
  - by rewrite lookup_insert_ne, lookup_alter_ne.
Qed.

Lemma nx_set_next h a v b :
  nx (set_next a v h) b = if decide (a = b) then (fun _ => v) <$> h !! b else nx h b.
Proof.
  unfold nx, set_next. case_decide; subst.
  - rewrite lookup_alter_eq. by destruct (h !! b).
  - by rewrite lookup_alter_ne.
Qed.
Lemma pv_set_next h a v b : pv (set_next a v h) b = pv h b.
Proof.
  unfold pv, set_next. destruct (decide (a = b)); subst.
  - rewrite lookup_alter_eq. by destruct (h !! b).
  - by rewrite lookup_alter_ne.
Qed.
Lemma pv_set_prev h a v b :
  pv (set_prev a v h) b = if decide (a = b) then (fun _ => v) <$> h !! b else pv h b.
Proof.
  unfold pv, set_prev. case_decide; subst.
  - rewrite lookup_alter_eq. by destruct (h !! b).
  - by rewrite lookup_alter_ne.
Qed.
Lemma nx_set_prev h a v b : nx (set_prev a v h) b = nx h b.
Proof.
  unfold nx, set_prev. destruct (decide (a = b)); subst.
  - rewrite lookup_alter_eq. by destruct (h !! b).
  - by rewrite lookup_alter_ne.
Qed.
Lemma node_set_next h a v b : is_node (set_next a v h) b <-> is_node h b.
Proof.
  unfold is_node, set_next. destruct (decide (a = b)); subst.
  - rewrite lookup_alter_eq. destruct (h !! b); simpl; split; intros []; eauto; discriminate.
  - by rewrite lookup_alter_ne.
Qed.
Lemma node_set_prev h a v b : is_node (set_prev a v h) b <-> is_node h b.
Proof.
  unfold is_node, set_prev. destruct (decide (a = b)); subst.
  - rewrite lookup_alter_eq. destruct (h !! b); simpl; split; intros []; eauto; discriminate.
  - by rewrite lookup_alter_ne.
Qed.

Lemma node_const (h : qheap) b (v : Z) : is_node h b -> (fun _ => v) <$> h !! b = Some v.
Proof. by intros [n ->]. Qed.

Create HintDb queue.
Create Rewrite HintDb queue.
#[export] Hint Rewrite nx_set_next pv_set_next nx_set_prev pv_set_prev
  node_set_next node_set_prev : queue.
#[export] Hint Resolve nx_node pv_node : queue.

(** The value of a field after a sequence of stores. *)
Ltac view :=
  autorewrite with queue; repeat (case_decide; simplify_eq);
  try (rewrite node_const; [|autorewrite with queue]);
  eauto with queue; try congruence; try done.

Section steps.
Context {A : Type}.
Implicit Types k : unit -> Q A.

Lemma ld_next_step (k : Z -> Q A) h a b : nx h a = Some b -> (ld_next a ≫= k) h = k b h.
Proof. intros E. by rewrite (ST_bind_eq _ _ _ _ _ (ld_next_eq _ _ _ E)). Qed.
Lemma ld_prev_step (k : Z -> Q A) h a b : pv h a = Some b -> (ld_prev a ≫= k) h = k b h.
Proof. intros E. by rewrite (ST_bind_eq _ _ _ _ _ (ld_prev_eq _ _ _ E)). Qed.
Lemma st_next_step k h a v : is_node h a -> (st_next a v ≫= k) h = k tt (set_next a v h).
Proof. intros E. by rewrite (ST_bind_eq _ _ _ _ _ (st_next_eq _ _ v E)). Qed.
Lemma st_prev_step k h a v : is_node h a -> (st_prev a v ≫= k) h = k tt (set_prev a v h).
Proof. intros E. by rewrite (ST_bind_eq _ _ _ _ _ (st_prev_eq _ _ v E)). Qed.
End steps.

(** Stores are executed one after the other; loads are given their value. *)
Ltac run := repeat first
  [ rewrite st_next_step by view | rewrite st_prev_step by view
  | rewrite st_next_eq by view | rewrite st_prev_eq by view ].

(** ** Inserting and removing at any position *)

(** [x] is linked between [a] and its former successor [b]. *)
Definition linked (h h' : qheap) (a x b : Z) : Prop :=
  (forall z, nx h' z = if decide (z = x) then Some b
                       else if decide (z = a) then Some x else nx h z) /\
  (forall z, pv h' z = if decide (z = x) then Some a
                       else if decide (z = b) then Some x else pv h z).

(** [x] is unlinked: its neighbours [a] and [b] are joined. *)
Definition unlinked (h h' : qheap) (a x b : Z) : Prop :=
  (forall z, nx h' z = if decide (z = x) then Some NULL
                       else if decide (z = a) then Some b else nx h z) /\
  (forall z, pv h' z = if decide (z = x) then Some NULL
                       else if decide (z = b) then Some a else pv h z).

Lemma linked_frame h h' a x b : linked h h' a x b -> frame [a; x; b] h h'.
Proof.
  intros [N P] z Hz. apply nx_pv_lookup.
  - rewrite N. repeat case_decide; set_solver.
  - rewrite P. repeat case_decide; set_solver.
Qed.
Lemma unlinked_frame h h' a x b : unlinked h h' a x b -> frame [a; x; b] h h'.
Proof.
  intros [N P] z Hz. apply nx_pv_lookup.
  - rewrite N. repeat case_decide; set_solver.
  - rewrite P. repeat case_decide; set_solver.
Qed.

Section insert.
Context (h : qheap) (a x b : Z) (E : edge h a b) (X : is_node h x) (Ha : x <> a) (Hb : x <> b).

Lemma insert_head_linked :
  exists h', queue_insert_head a x h = Some (tt, h') /\ linked h h' a x b.
Proof using All.
  destruct E as [En Ep]. unfold queue_insert_head.
  rewrite (ld_next_step _ _ _ b) by view. run.
  rewrite (ld_next_step _ _ _ b) by view. run.
  eexists; split; [reflexivity|]. split; intros z; view.
Qed.

Lemma insert_tail_linked :
  exists h', queue_insert_tail b x h = Some (tt, h') /\ linked h h' a x b.
Proof using All.
  destruct E as [En Ep]. unfold queue_insert_tail.
  rewrite (ld_prev_step _ _ _ a) by view. run.
  rewrite (ld_prev_step _ _ _ a) by view. run.
  eexists; split; [reflexivity|]. split; intros z; view.
Qed.

Lemma insert_before_linked :
  exists h', queue_insert_before b x h = Some (tt, h') /\ linked h h' a x b.
Proof using All.
  destruct E as [En Ep]. unfold queue_insert_before.
  rewrite (ld_prev_step _ _ _ a) by view. run.
  rewrite (ld_prev_step _ _ _ a) by view. run.
  eexists; split; [reflexivity|]. split; intros z; view.
Qed.

Lemma insert_after_linked :
  exists h', queue_insert_after a x h = Some (tt, h') /\ linked h h' a x b.
Proof using All.
  destruct E as [En Ep]. unfold queue_insert_after.
  rewrite (ld_next_step _ _ _ b) by view. run.
  rewrite (ld_next_step _ _ _ b) by view. run.
  eexists; split; [reflexivity|]. split; intros z; view.
Qed.
End insert.

Lemma remove_unlinked h a x b :
  edge h a x -> edge h x b -> x <> a -> x <> b ->
  exists h', queue_remove x h = Some (tt, h') /\ unlinked h h' a x b.
Proof.
  intros [E1 E2] [E3 E4] Ha Hb. unfold queue_remove.
  rewrite (ld_prev_step _ _ _ a) by view. rewrite (ld_next_step _ _ _ b) by view. run.
  rewrite (ld_next_step _ _ _ b) by view. rewrite (ld_prev_step _ _ _ a) by view. run.
  eexists; split; [reflexivity|]. split; intros z; view.
Qed.

Lemma path_app h l1 a l2 : path h (l1 ++ a :: l2) <-> path h (l1 ++ [a]) /\ path h (a :: l2).
Proof.
  induction l1 as [|c l1 IH]; [simpl; tauto|].
  destruct l1; simpl in *; tauto.
Qed.

Lemma path_cut h l1 a b l2 :
  path h (l1 ++ a :: b :: l2) <-> path h (l1 ++ [a]) /\ edge h a b /\ path h (b :: l2).
Proof. rewrite path_app. simpl. tauto. Qed.

(** A path only depends on the [next] of all but its last node and the [prev]
    of all but its first. *)
Lemma path_frame h h' l a :
  (forall z, z ∈ l -> nx h' z = nx h z) ->
  (forall z, z ∈ tail (l ++ [a]) -> pv h' z = pv h z) ->
  path h (l ++ [a]) -> path h' (l ++ [a]).
Proof.
  induction l as [|c l IH]; [done|]. intros N P.
  destruct l as [|d l]; simpl in *.
  - intros [[E1 E2] _]. split; [|done]. split; [rewrite N|rewrite P]; set_solver.
  - intros [[E1 E2] HP]. split.
    + split; [rewrite N|rewrite P]; set_solver.
    + apply IH; set_solver.
Qed.

Lemma snoc_inv {A} (l : list A) x : exists l1 a, x :: l = l1 ++ [a].
Proof.
  destruct (exists_last (l := x :: l)) as (l1 & a & ->); [done|]. eauto.
Qed.

(** Where a position [xs | ys] of a ring lies: the nodes before and after. *)
Definition around (q : Z) (xs ys : list Z) (a b : Z) : Prop :=
  last (q :: xs) = Some a /\ head (ys ++ [q]) = Some b.

Lemma around_split q xs ys a b :
  around q xs ys a b -> exists l1 l2, q :: xs = l1 ++ [a] /\ ys ++ [q] = b :: l2.
Proof.
  intros [L H]. destruct (ys ++ [q]) as [|c l2] eqn:E; simplify_eq/=.
  apply last_Some in L as [l1 L]. eauto.
Qed.

(** The four parts of a ring cut at a position. *)
Lemma ring_cut h q xs ys l1 a b l2 :
  q :: xs = l1 ++ [a] -> ys ++ [q] = b :: l2 ->
  ring h q (xs ++ ys) <->
  NoDup (q :: xs ++ ys) /\ path h (l1 ++ [a]) /\ edge h a b /\ path h (b :: l2).
Proof.
  intros E1 E2. unfold ring.
  replace (q :: (xs ++ ys) ++ [q]) with (l1 ++ a :: b :: l2); [by rewrite path_cut|].
  rewrite <- app_assoc, E2, (app_comm_cons xs _ q), E1. by rewrite <- app_assoc.
Qed.

Lemma around_edge h q xs ys a b : ring h q (xs ++ ys) -> around q xs ys a b -> edge h a b.
Proof.
  intros HR (l1 & l2 & E1 & E2)%around_split.
  apply (ring_cut h q xs ys l1 a b l2 E1 E2) in HR. tauto.
Qed.

Section relink.
Context (q : Z) (xs ys l1 l2 : list Z) (a b : Z).
Context (E1 : q :: xs = l1 ++ [a]) (E2 : ys ++ [q] = b :: l2).
Context (ND : NoDup (q :: xs ++ ys)).

(** Changing [next a] and [prev b], and nodes outside the ring, keeps both
    halves of the ring. *)
Lemma halves_frame h h' :
  (forall z, z ∈ q :: xs ++ ys -> z <> a -> nx h' z = nx h z) ->
  (forall z, z ∈ q :: xs ++ ys -> z <> b -> pv h' z = pv h z) ->
  path h (l1 ++ [a]) -> path h (b :: l2) -> path h' (l1 ++ [a]) /\ path h' (b :: l2).
Proof using All.
  intros N P H1 H2.
  assert (T : tail (l1 ++ [a]) = xs) by (by rewrite <- E1).
  assert (Hb : b ∉ xs).
  { destruct ys as [|y ys']; simplify_eq/=.
    - rewrite app_nil_r in ND. by apply NoDup_cons in ND as [? _].
    - intros I. apply NoDup_cons in ND as [_ ND']. apply NoDup_app in ND' as (_ & D & _).
      apply (D b I). left. }
  assert (Ha : a ∉ l1 /\ a ∉ ys).
  { rewrite (app_comm_cons xs ys q), E1 in ND. apply NoDup_app in ND as (D1 & D2 & _).
    apply NoDup_app in D1 as (_ & D1 & _). split.
    - intros I. apply (D1 a I). left.
    - apply D2. set_solver. }
  split.
  - apply (path_frame h); [| |exact H1].
    + intros z Hz. apply N; [|intros ->; tauto]. rewrite (app_comm_cons xs ys q), E1. set_solver.
    + rewrite T. intros z Hz. apply P; [set_solver|intros ->; tauto].
  - rewrite <- E2 in *. apply (path_frame h); [| |exact H2].
    + intros z Hz. apply N; [set_solver|intros ->; tauto].
    + rewrite E2. simpl. intros z Hz. apply P.
      * assert (z ∈ ys ++ [q]) by (rewrite E2; set_solver). set_solver.
      * intros ->. assert (D : NoDup (ys ++ [q])).
        { rewrite (app_comm_cons xs ys q) in ND. apply NoDup_app in ND as (_ & D & D').
          apply NoDup_app. split; [done|]. split; [|apply NoDup_singleton].
          intros w Hw ->%list_elem_of_singleton. apply (D q); [left|done]. }
        rewrite E2 in D. apply NoDup_cons in D. tauto.
Qed.
End relink.

(** [x] is linked at the position [xs | ys]. *)
Lemma ring_linked h h' q xs ys a x b :
  ring h q (xs ++ ys) -> around q xs ys a b -> x ∉ q :: xs ++ ys ->
  linked h h' a x b -> ring h' q (xs ++ x :: ys).
Proof.
  intros HR (l1 & l2 & E1 & E2)%around_split Hx [N P].
  destruct (proj1 (ring_cut h q xs ys l1 a b l2 E1 E2) HR) as (ND & P1 & E & P2).
  destruct (halves_frame q xs ys l1 l2 a b E1 E2 ND h h') as [P1' P2']; [| |done..|].
  1,2: intros z Hz ?; first [rewrite N|rewrite P]; rewrite !decide_False; set_solver.
  assert (a <> x /\ b <> x) as [Ha Hb].
  { assert (a ∈ q :: xs) by (rewrite E1; set_solver).
    assert (b ∈ ys ++ [q]) by (rewrite E2; set_solver). set_solver. }
  apply (ring_cut h' q xs (x :: ys) l1 a x (ys ++ [q])); [done..|].
  split_and!; [|done| |].
  - rewrite (app_comm_cons xs (x :: ys) q), <- Permutation_middle. by constructor.
  - split; [rewrite N|rewrite P]; repeat case_decide; congruence.
  - rewrite E2. split; [|done].
    split; [rewrite N|rewrite P]; repeat case_decide; congruence.
Qed.

(** [x] is unlinked from the position [xs | x | ys]. *)
Lemma ring_unlinked h h' q xs ys a x b :
  ring h q (xs ++ x :: ys) -> around q xs ys a b ->
  unlinked h h' a x b -> ring h' q (xs ++ ys).
Proof.
  intros HR (l1 & l2 & E1 & E2)%around_split [N P].
  destruct (proj1 (ring_cut h q xs (x :: ys) l1 a x (ys ++ [q]) E1 eq_refl) HR)
    as (ND & P1 & E & P2).
  rewrite E2 in P2. destruct P2 as [Eb P2].
  rewrite (app_comm_cons xs (x :: ys) q), <- Permutation_middle in ND. apply NoDup_cons in ND as [Hx ND].
  destruct (halves_frame q xs ys l1 l2 a b E1 E2 ND h h') as [P1' P2']; [| |done..|].
  1,2: intros z Hz ?; first [rewrite N|rewrite P]; rewrite !decide_False; set_solver.
  assert (a <> x /\ b <> x) as [Ha Hb].
  { assert (a ∈ q :: xs) by (rewrite E1; set_solver).
    assert (b ∈ ys ++ [q]) by (rewrite E2; set_solver). set_solver. }
  apply (ring_cut h' q xs ys l1 a b l2); [done..|].
  split_and!; [done|done| |done].
  split; [rewrite N|rewrite P]; repeat case_decide; congruence.
Qed.

(** ** Rings as lists *)

Lemma around_exists q xs ys : exists a b, around q xs ys a b.
Proof.
  destruct (snoc_inv xs q) as (l1 & a & E). exists a, (default q (head ys)).
  split; [rewrite E; apply last_snoc|]. by destruct ys.
Qed.

Lemma around_notin q xs ys a x b :
  around q xs ys a b -> x ∉ q :: xs ++ ys -> x <> a /\ x <> b.
Proof.
  intros (l1 & l2 & E1 & E2)%around_split Hx.
  assert (a ∈ q :: xs) by (rewrite E1; set_solver).
  assert (b ∈ ys ++ [q]) by (rewrite E2; set_solver). set_solver.
Qed.

Lemma linked_unique h h1 h2 a x b : linked h h1 a x b -> linked h h2 a x b -> h1 = h2.
Proof.
  intros [N1 P1] [N2 P2]. apply map_eq. intros z.
  apply nx_pv_lookup; [by rewrite N1, N2|by rewrite P1, P2].
Qed.

Lemma insert_head_at h q xs ys a x b :
  ring h q (xs ++ ys) -> around q xs ys a b -> is_node h x -> x ∉ q :: xs ++ ys ->
  exists h', queue_insert_head a x h = Some (tt, h') /\ linked h h' a x b /\
    ring h' q (xs ++ x :: ys).
Proof.
  intros HR HA X Hx. destruct (around_notin _ _ _ _ _ _ HA Hx).
  destruct (insert_head_linked h a x b) as (h' & E & L); eauto using around_edge.
  exists h'. eauto using ring_linked.
Qed.

Lemma ring_edges h q xs x ys a b :
  ring h q (xs ++ x :: ys) -> around q xs ys a b -> edge h a x /\ edge h x b /\ x <> a /\ x <> b.
Proof.
  intros HR HA. split_and!.
  - eapply (around_edge h q xs (x :: ys)); [done|]. destruct HA; by split.
  - eapply (around_edge h q (xs ++ [x]) ys); [by rewrite <- app_assoc|].
    destruct HA as [_ ?]; split; [|done]. by rewrite app_comm_cons, last_snoc.
  - destruct HR as [ND _]. rewrite (app_comm_cons xs (x :: ys) q), <- Permutation_middle in ND.
    apply NoDup_cons in ND as [Hx _]. exact (proj1 (around_notin _ _ _ _ _ _ HA Hx)).
  - destruct HR as [ND _]. rewrite (app_comm_cons xs (x :: ys) q), <- Permutation_middle in ND.
    apply NoDup_cons in ND as [Hx _]. exact (proj2 (around_notin _ _ _ _ _ _ HA Hx)).
Qed.

Lemma remove_at h q xs x ys a b :
  ring h q (xs ++ x :: ys) -> around q xs ys a b ->
  exists h', queue_remove x h = Some (tt, h') /\ unlinked h h' a x b /\ ring h' q (xs ++ ys).
Proof.
  intros HR HA. destruct (ring_edges _ _ _ _ _ _ _ HR HA) as (E1 & E2 & Ha & Hb).
  destruct (remove_unlinked h a x b) as (h' & E & U); [done..|].
  exists h'. eauto using ring_unlinked.
Qed.

(** Neighbouring elements, the head and the tail of a ring. *)
Lemma ring_nth h q xs i a b :
  ring h q xs -> xs !! i = Some a -> xs !! S i = Some b -> edge h a b.
Proof.
  intros HR Ha Hb.
  rewrite <- (take_drop (S i) xs) in HR. eapply around_edge; [exact HR|]. split.
  - rewrite (take_S_r _ _ _ Ha), app_comm_cons. apply last_snoc.
  - by rewrite (drop_S _ _ _ Hb).
Qed.

Lemma ring_head h q x xs : ring h q (x :: xs) -> edge h q x.
Proof. intros [_ HP]. simpl in HP. tauto. Qed.

Lemma ring_last h q xs x : ring h q (xs ++ [x]) -> edge h x q.
Proof.
  intros HR. eapply (around_edge h q (xs ++ [x]) []); [by rewrite app_nil_r|].
  split; [|done]. by rewrite app_comm_cons, last_snoc.
Qed.

Lemma ring_nil h q : ring h q [] <-> edge h q q.
Proof. unfold ring. simpl. split; [tauto|]. intros; split; [apply NoDup_singleton|done]. Qed.

(** A ring is untouched by changes elsewhere. *)
Lemma ring_frame h h' q xs l :
  frame l h h' -> (forall z, z ∈ l -> z ∉ q :: xs) -> ring h q xs -> ring h' q xs.
Proof.
  intros F D [ND HP]. split; [done|]. rewrite app_comm_cons in *.
  assert (G : forall z, z ∈ q :: xs -> h' !! z = h !! z) by (intros z Hz; apply F; set_solver).
  apply (path_frame h); [| |done]; unfold nx, pv; intros z Hz; rewrite G; set_solver.
Qed.

(** The four insertion macros agree: at any position [xs | ys] of a ring,
    between the nodes [a] and [b], inserting after [a] or before [b] with any
    of them leaves the same store, in which the ring holds [xs ++ x :: ys]
    and nothing but [a], [x] and [b] has changed. *)
Theorem queue_inserts_ring h q xs ys a x b :
  ring h q (xs ++ ys) -> around q xs ys a b -> is_node h x -> x ∉ q :: xs ++ ys ->
  exists h',
    ring h' q (xs ++ x :: ys) /\ frame [a; x; b] h h' /\
    queue_insert_head a x h = Some (tt, h') /\ queue_insert_after a x h = Some (tt, h') /\
    queue_insert_tail b x h = Some (tt, h') /\ queue_insert_before b x h = Some (tt, h').
Proof.
  intros HR HA X Hx. destruct (around_notin _ _ _ _ _ _ HA Hx).
  assert (E : edge h a b) by eauto using around_edge.
  destruct (insert_head_at _ _ _ _ _ _ _ HR HA X Hx) as (h' & E1 & L & HR').
  destruct (insert_after_linked h a x b) as (h2 & E2 & L2); [done..|].
  destruct (insert_tail_linked h a x b) as (h3 & E3 & L3); [done..|].
  destruct (insert_before_linked h a x b) as (h4 & E4 & L4); [done..|].
  rewrite (linked_unique _ _ _ _ _ _ L2 L), (linked_unique _ _ _ _ _ _ L3 L),
    (linked_unique _ _ _ _ _ _ L4 L) in *.
  exists h'. eauto 10 using linked_frame.
Qed.

(** Removing a node from any position of a ring keeps the order of the
    others, clears both links of the node and changes its neighbours only. *)
Theorem queue_remove_ring h q xs x ys :
  ring h q (xs ++ x :: ys) ->
  exists h' a b,
    queue_remove x h = Some (tt, h') /\ ring h' q (xs ++ ys) /\
    h' !! x = Some (Node NULL NULL) /\ around q xs ys a b /\ frame [a; x; b] h h'.
Proof.
  intros HR. destruct (around_exists q xs ys) as (a & b & HA).
  destruct (remove_at _ _ _ _ _ _ _ HR HA) as (h' & E & U & HR').
  exists h', a, b. split_and!; try done; [|by eapply unlinked_frame].
  destruct U as [N P]. specialize (N x). specialize (P x).
  rewrite decide_True in N, P by done.
  unfold nx, pv in *. destruct (h' !! x) as [[]|]; simplify_eq/=; done.
Qed.

(** A concrete ring: sentinel 1, nodes 2, 3 and 4; node 9 is free. *)
Definition sample_ring : qheap := list_to_map
  [(1, Node 4 2); (2, Node 1 3); (3, Node 2 4); (4, Node 3 1); (9, Node 0 0)].

Lemma queue_inserts_ring_witness :
  exists h', ring h' 1 [2; 9; 3; 4] /\ frame [2; 9; 3] sample_ring h' /\
    queue_insert_head 2 9 sample_ring = Some (tt, h') /\
    queue_insert_after 2 9 sample_ring = Some (tt, h') /\
    queue_insert_tail 3 9 sample_ring = Some (tt, h') /\
    queue_insert_before 3 9 sample_ring = Some (tt, h').
Proof.
  apply (queue_inserts_ring sample_ring 1 [2] [3; 4] 2 9 3); [by_decide|done| |by_decide].
  by exists (Node 0 0).
Defined.

Lemma queue_remove_ring_witness :
  exists h' a b, queue_remove 3 sample_ring = Some (tt, h') /\ ring h' 1 [2; 4] /\
    h' !! 3 = Some (Node NULL NULL) /\ around 1 [2] [4] a b /\ frame [a; 3; b] sample_ring h'.
Proof. apply (queue_remove_ring sample_ring 1 [2] 3 [4]). by_decide. Defined.

(** Joining two paths with one edge. *)
Lemma path_glue h l1 a b l2 :
  path h (l1 ++ [a]) -> edge h a b -> path h (b :: l2) -> path h (l1 ++ a :: b :: l2).
Proof. intros. apply path_cut. tauto. Qed.

(** The open path of a ring: its sentinel and its nodes. *)
Lemma ring_open h q xs : ring h q xs <->
  NoDup (q :: xs) /\ path h (q :: xs) /\ exists a, last (q :: xs) = Some a /\ edge h a q.
Proof.
  unfold ring. destruct (snoc_inv xs q) as (l1 & a & E).
  rewrite (app_comm_cons xs [q] q), E, <- app_assoc.
  change ([a] ++ [q]) with (a :: q :: []). rewrite path_cut, last_snoc. simpl. naive_solver.
Qed.

(** An open path depends on the [next] of all but its last node and the
    [prev] of all but its first. *)
Lemma path_frame_open h h' c xs a :
  last (c :: xs) = Some a -> NoDup (c :: xs) ->
  (forall z, z ∈ c :: xs -> z <> a -> nx h' z = nx h z) ->
  (forall z, z ∈ xs -> pv h' z = pv h z) ->
  path h (c :: xs) -> path h' (c :: xs).
Proof.
  intros [l E]%last_Some ND N P. assert (T : tail (l ++ [a]) = xs) by (by rewrite <- E).
  rewrite E in *. apply path_frame.
  - intros z Hz. apply N; [set_solver|]. intros ->.
    apply NoDup_app in ND as (_ & D & _). apply (D a Hz). set_solver.
  - by rewrite T.
Qed.

Lemma add_queue_effect h q n a b c :
  edge h a q -> edge h n b -> edge h c n -> a <> n -> b <> n -> q <> b -> c <> a -> q <> n ->
  exists h', queue_add_queue q n h = Some (tt, h') /\
    (forall z, nx h' z = if decide (z = c) then Some q
                         else if decide (z = a) then Some b else nx h z) /\
    (forall z, pv h' z = if decide (z = q) then Some c
                         else if decide (z = b) then Some a else pv h z).
Proof.
  intros [A1 A2] [B1 B2] [C1 C2] Han Hbn Hqb Hca Hqn. unfold queue_add_queue.
  rewrite (ld_next_step _ _ _ b) by view. rewrite (ld_prev_step _ _ _ a) by view. run.
  rewrite (ld_prev_step _ _ _ a) by view. rewrite (ld_next_step _ _ _ b) by view. run.
  rewrite (ld_prev_step _ _ _ c) by view. run.
  rewrite (ld_prev_step _ _ _ c) by view. run.
  eexists; split; [reflexivity|]. split; intros z; view.
Qed.

Lemma add_queue_empty h q n a :
  edge h a q -> edge h n n -> a <> n -> q <> n ->
  exists h', queue_add_queue q n h = Some (tt, h') /\ frame [n] h h'.
Proof.
  intros [A1 A2] [B1 B2] Han Hqn. unfold queue_add_queue.
  rewrite (ld_next_step _ _ _ n) by view. rewrite (ld_prev_step _ _ _ a) by view. run.
  rewrite (ld_prev_step _ _ _ a) by view. rewrite (ld_next_step _ _ _ n) by view. run.
  rewrite (ld_prev_step _ _ _ a) by view. run.
  rewrite (ld_prev_step _ _ _ a) by view. run.
  eexists; split; [reflexivity|]. intros z Hz. apply nx_pv_lookup; view; set_solver.
Qed.

(** A ring made of two open paths, the second not empty. *)
Lemma ring_parts h q xs x ys a b :
  last (q :: xs) = Some a -> last (x :: ys) = Some b ->
  ring h q (xs ++ x :: ys) <->
  NoDup ((q :: xs) ++ x :: ys) /\ path h (q :: xs) /\ edge h a x /\ path h (x :: ys) /\ edge h b q.
Proof.
  intros La Lb. rewrite ring_open, !(app_comm_cons xs (x :: ys) q), last_app, Lb.
  apply last_Some in La as [l La]. rewrite La, <- app_assoc. simpl ([a] ++ _).
  rewrite path_cut. naive_solver.
Qed.

Lemma last_in {A} (l : list A) a : last l = Some a -> a ∈ l.
Proof. intros [k ->]%last_Some. set_solver. Qed.

(** Case analysis on the addresses of a described store; the context says
    which of them differ. *)
Ltac edges N P := split; [rewrite N|rewrite P]; repeat case_decide; congruence.

(** [queue_add_queue h n] appends the nodes of the ring [n] to the ring
    [h], also when [n] is empty. *)
Theorem queue_add_queue_ring h q n xs ys :
  ring h q xs -> ring h n ys -> (forall z, z ∈ q :: xs -> z ∉ n :: ys) ->
  exists h', queue_add_queue q n h = Some (tt, h') /\ ring h' q (xs ++ ys).
Proof.
  intros HQ HN D. pose proof HQ as (NDq & Pq & a & La & Ea)%ring_open.
  pose proof HN as (NDn & Pn & c & Lc & Ec)%ring_open.
  pose proof (last_in _ _ La) as Ha. destruct ys as [|b ys].
  - injection Lc as <-.
    destruct (add_queue_empty h q n a) as (h' & E & F); [done|done|set_solver..|].
    exists h'. rewrite app_nil_r. split; [done|].
    eapply ring_frame; [exact F| |done]. set_solver.
  - change (last (b :: ys) = Some c) in Lc. pose proof (last_in _ _ Lc) as Hc.
    destruct Pn as [[Nb Pb] Pn]. apply NoDup_cons in NDn as [Hnb NDn].
    assert (a <> c /\ q <> b /\ q <> n /\ a <> n /\ b <> n) as (? & ? & ? & ? & ?).
    { clear Pq Pn. set_solver. }
    destruct (add_queue_effect h q n a b c) as (h' & E & N & P); try done.
    exists h'. split; [done|]. apply (ring_parts h' q xs b ys a c); [done..|].
    assert (q ∉ xs /\ b ∉ ys) as [? ?].
    { apply NoDup_cons in NDq as [? _]. by apply NoDup_cons in NDn as [? _]. }
    assert (forall z, z ∈ q :: xs -> z <> c /\ z <> b) by (clear Pq Pn; set_solver).
    assert (forall z, z ∈ b :: ys -> z <> a /\ z <> q) by (clear Pq Pn; set_solver).
    split_and!.
    + apply NoDup_app. split; [done|]. split; [|done]. clear Pq Pn. set_solver.
    + apply (path_frame_open h _ _ _ a); [done..| | |done]; intros z Hz.
      * intros ?. rewrite N, !decide_False; naive_solver.
      * rewrite P, !decide_False; [done|set_solver..].
    + edges N P.
    + apply (path_frame_open h _ _ _ c); [done..| | |done]; intros z Hz.
      * intros ?. rewrite N, !decide_False; naive_solver.
      * rewrite P, !decide_False; [done|set_solver..].
    + edges N P.
Qed.

Lemma queue_add_queue_ring_witness :
  let h := list_to_map [(1, Node 3 3); (2, Node 5 5); (3, Node 1 1); (5, Node 2 2)] in
  exists h', queue_add_queue 1 2 h = Some (tt, h') /\ ring h' 1 [3; 5].
Proof.
  intros h. apply (queue_add_queue_ring h 1 2 [3] [5]); [by_decide|by_decide|set_solver].
Defined.

Lemma split_effect h q x n a b :
  edge h a q -> edge h b x -> is_node h n -> n <> q -> n <> a -> n <> b -> n <> x ->
  x <> q -> a <> b ->
  exists h', queue_split q x n h = Some (tt, h') /\
    (forall z, nx h' z = if decide (z = n) then Some x else if decide (z = a) then Some n
                         else if decide (z = b) then Some q else nx h z) /\
    (forall z, pv h' z = if decide (z = n) then Some a else if decide (z = q) then Some b
                         else if decide (z = x) then Some n else pv h z).
Proof.
  intros [A1 A2] [B1 B2] X H1 H2 H3 H4 H5 H6. unfold queue_split.
  rewrite (ld_prev_step _ _ _ a) by view. run.
  rewrite (ld_prev_step _ _ _ a) by view. run.
  rewrite (ld_prev_step _ _ _ b) by view. run.
  rewrite (ld_prev_step _ _ _ b) by view. run.
  eexists; split; [reflexivity|]. split; intros z; view.
Qed.

(** [queue_split h q n] cuts a ring before its node [q]: the nodes before
    stay in [h], [q] and the nodes after it become the ring of [n]. *)
Theorem queue_split_ring h q n xs x ys :
  ring h q (xs ++ x :: ys) -> is_node h n -> n ∉ q :: xs ++ x :: ys ->
  exists h', queue_split q x n h = Some (tt, h') /\ ring h' q xs /\ ring h' n (x :: ys).
Proof.
  intros HR X Hn.
  destruct (last (q :: xs)) as [b|] eqn:Lb; [|by apply last_None in Lb].
  destruct (last (x :: ys)) as [a|] eqn:La; [|by apply last_None in La].
  apply (ring_parts h q xs x ys b a Lb La) in HR as (ND & P1 & Eb & P2 & Ea).
  pose proof (last_in _ _ La) as Ha. pose proof (last_in _ _ Lb) as Hb.
  apply NoDup_app in ND as (ND1 & D & ND2).
  assert (Hq : q ∉ x :: ys) by (apply D; left).
  assert (n <> q /\ n <> a /\ n <> b /\ n <> x /\ x <> q /\ a <> b) as (? & ? & ? & ? & ? & ?).
  { clear P1 P2. set_solver. }
  destruct (split_effect h q x n a b) as (h' & E & N & P); try done.
  exists h'. split; [done|].
  assert (q ∉ xs /\ x ∉ ys) as [? ?].
  { apply NoDup_cons in ND1 as [? _]. by apply NoDup_cons in ND2 as [? _]. }
  assert (forall z, z ∈ q :: xs -> z <> n /\ z <> a /\ z <> x) by (clear P1 P2; set_solver).
  assert (forall z, z ∈ x :: ys -> z <> n /\ z <> b /\ z <> q) by (clear P1 P2; set_solver).
  split; apply ring_open; split_and!.
  - done.
  - apply (path_frame_open h _ _ _ b); [done..| | |done]; intros z Hz.
    + intros ?. rewrite N, !decide_False; naive_solver.
    + rewrite P, !decide_False; [done|set_solver..].
  - exists b. split; [done|]. edges N P.
  - apply NoDup_cons. split; [clear P1 P2; set_solver|done].
  - split; [edges N P|].
    apply (path_frame_open h _ _ _ a); [done..| | |done]; intros z Hz.
    + intros ?. rewrite N, !decide_False; naive_solver.
    + rewrite P, !decide_False; [done|set_solver..].
  - exists a. split; [done|]. edges N P.
Qed.

Lemma queue_split_ring_witness :
  exists h', queue_split 1 3 9 sample_ring = Some (tt, h') /\ ring h' 1 [2] /\ ring h' 9 [3; 4].
Proof.
  apply (queue_split_ring sample_ring 1 9 [2] 3 [4]); [by_decide|by exists (Node 0 0)|by_decide].
Defined.

(** ** Iterating over a ring *)

Section middle.
Context (h : qheap) (q : Z) (xs : list Z) (HR : ring h q xs).

Lemma ring_tail a : last xs = Some a -> pv h q = Some a.
Proof using HR.
  intros [l ->]%last_Some. by destruct (ring_last _ _ _ _ HR).
Qed.

Lemma nth_tail i a t : xs !! i = Some a -> last xs = Some t -> a = t <-> S i = length xs.
Proof using HR.
  intros Ha Ht. destruct HR as [[_ ND]%NoDup_cons _].
  rewrite last_lookup in Ht. pose proof (lookup_lt_Some _ _ _ Ha). split.
  - intros ->. pose proof (NoDup_lookup _ _ _ _ ND Ha Ht). lia.
  - intros E. assert (Init.Nat.pred (length xs) = i) as X by lia. rewrite X in Ht. congruence.
Qed.

Lemma middle_loop_spec fuel i m n t r :
  last xs = Some t -> xs !! i = Some m -> xs !! (2 * i)%nat = Some n ->
  xs !! (length xs / 2)%nat = Some r ->
  (S (2 * i) < length xs)%nat -> (length xs <= 2 * (i + fuel))%nat ->
  middle_loop fuel q m n h = Some (r, h).
Proof using HR.
  intros Ht. pose proof (ring_tail _ Ht) as Pq.
  revert i m n. induction fuel as [|fuel IH]; intros i m n Hm Hn Hr Hi HF; [lia|].
  destruct (lookup_lt_is_Some_2 xs (S i)) as [m' Hm']; [lia|].
  destruct (lookup_lt_is_Some_2 xs (S (2 * i))) as [n' Hn']; [lia|].
  destruct (ring_nth _ _ _ _ _ _ HR Hm Hm') as [Em _].
  destruct (ring_nth _ _ _ _ _ _ HR Hn Hn') as [En _].
  cbn [middle_loop]. unfold queue_next, queue_tail.
  rewrite (ld_next_step _ _ _ _ Em), (ld_next_step _ _ _ _ En), (ld_prev_step _ _ _ _ Pq).
  pose proof (nth_tail _ _ _ Hn' Ht) as T1. destruct (n' =? t) eqn:Q1.
  - apply Z.eqb_eq, T1 in Q1. rewrite <- Q1 in Hr.
    replace (S (S (2 * i)) / 2)%nat with (S i) in Hr
      by (apply (Nat.div_unique _ _ _ 0); lia). unfold mret, ST_ret. congruence.
  - apply Z.eqb_neq in Q1. destruct (lookup_lt_is_Some_2 xs (S (S (2 * i)))) as [n'' Hn''].
    { pose proof (lookup_lt_Some _ _ _ Hn'). destruct (decide (S (S (2 * i)) = length xs)); tauto || lia. }
    destruct (ring_nth _ _ _ _ _ _ HR Hn' Hn'') as [En' _].
    rewrite (ld_next_step _ _ _ _ En'), (ld_prev_step _ _ _ _ Pq).
    pose proof (nth_tail _ _ _ Hn'' Ht) as T2. destruct (n'' =? t) eqn:Q2.
    + apply Z.eqb_eq, T2 in Q2. rewrite <- Q2 in Hr.
      replace (S (S (S (2 * i))) / 2)%nat with (S i) in Hr
        by (apply (Nat.div_unique _ _ _ 1); lia). unfold mret, ST_ret. congruence.
    + apply Z.eqb_neq in Q2. pose proof (lookup_lt_Some _ _ _ Hn'').
      assert (S (S (S (2 * i))) <> length xs) by tauto.
      apply (IH (S i)); [done| |done|lia|lia].
      by replace (2 * S i)%nat with (S (S (2 * i))) by lia.
Qed.
End middle.

(** [queue_middle] terminates within half as many rounds as the ring has
    nodes and returns the node of index [n / 2] of the [n] nodes: the middle
    one, or the first of the second half when [n] is even. *)
Theorem queue_middle_spec h q xs fuel r :
  ring h q xs -> xs !! (length xs / 2)%nat = Some r -> (length xs <= 2 * fuel)%nat ->
  queue_middle fuel q h = Some (r, h).
Proof.
  intros HR Hr HF. destruct xs as [|x xs]; [done|].
  destruct (last (x :: xs)) as [t|] eqn:Ht; [|by apply last_None in Ht].
  pose proof (ring_tail _ _ _ HR _ Ht) as Pq. destruct (ring_head _ _ _ _ HR) as [Nq _].
  unfold queue_middle, queue_head, queue_tail.
  rewrite (ld_next_step _ _ _ _ Nq), (ld_prev_step _ _ _ _ Pq).
  pose proof (nth_tail h q _ HR 0 x t eq_refl Ht) as T. destruct (x =? t) eqn:Q1.
  - apply Z.eqb_eq, T in Q1. destruct xs; [|done]. simplify_eq/=. done.
  - apply Z.eqb_neq in Q1. rewrite (ld_next_step _ _ _ _ Nq).
    apply (middle_loop_spec h q (x :: xs) HR fuel 0 x x t); simpl in *; try done; try lia.
Qed.

Lemma queue_middle_spec_witness : queue_middle 2 1 sample_ring = Some (3, sample_ring).
Proof.
  apply (queue_middle_spec sample_ring 1 [2; 3; 4]); [by_decide|done|simpl; lia].
Defined.

Section sort_spec.
Context (cmp : Z -> Z -> Z).

(** The reference insertion sort: [x] goes after the last element that is not
    greater. *)
Fixpoint place (x : Z) (l : list Z) : list Z :=
  match l with
  | [] => [x]
  | a :: l' => if existsb (fun b => cmp b x <=? 0) l then a :: place x l' else x :: l
  end.

Definition isort (xs : list Z) : list Z := foldl (fun acc x => place x acc) [] xs.

Definition above (x b : Z) : Prop := 0 < cmp b x.

Lemma place_here x l : Forall (above x) l -> place x l = x :: l.
Proof.
  destruct l as [|a l]; [done|]. intros F. cbn [place].
  destruct (existsb _ _) eqn:E; [|done]. apply existsb_exists in E as (b & Hb & Hc).
  rewrite Forall_forall in F. specialize (F b). unfold above in F.
  rewrite <- list_elem_of_In in Hb. specialize (F Hb). lia.
Qed.

Lemma place_split x p1 p2 :
  Forall (above x) p2 -> (p1 = [] \/ exists a, last p1 = Some a /\ cmp a x <= 0) ->
  place x (p1 ++ p2) = p1 ++ x :: p2.
Proof.
  intros F. induction p1 as [|c p1 IH]; intros HL; [by apply place_here|].
  destruct HL as [|(a & La & Ha)]; [done|]. cbn [place app].
  assert (existsb (fun b => cmp b x <=? 0) (c :: p1 ++ p2) = true) as ->.
  { apply existsb_exists. exists a. split; [|lia]. apply list_elem_of_In.
    apply (elem_of_app (c :: p1)). left. by apply last_in. }
  f_equal. apply IH. destruct p1 as [|d p1]; [by left|]. right. eauto.
Qed.

(** The walk back over the sorted prefix [pre]. *)
Lemma sort_back_spec h q x pre post fuel a :
  ring h q (pre ++ post) -> last pre = Some a -> (length pre <= fuel)%nat ->
  exists p1 p2 r, pre = p1 ++ p2 /\ sort_back cmp fuel q x a h = Some (r, h) /\
    last (q :: p1) = Some r /\ Forall (above x) p2 /\
    (p1 = [] \/ exists a, last p1 = Some a /\ cmp a x <= 0).
Proof.
  revert pre post a. induction fuel as [|fuel IH]; intros pre post a HR La HF.
  { destruct pre; [done|simpl in HF; lia]. }
  cbn [sort_back]. destruct (cmp a x <=? 0) eqn:C.
  { exists pre, [], a. rewrite app_nil_r. split_and!; try done.
    - by destruct pre.
    - right. exists a. split; [done|lia]. }
  apply last_Some in La as [l ->]. rewrite length_app in HF. simpl in HF.
  rewrite <- app_assoc in HR. simpl in HR. destruct (around_exists q l post) as (b & c & HA).
  destruct (ring_edges _ _ _ _ _ _ _ HR HA) as ([_ Eb] & _). destruct HA as [Lb _].
  unfold queue_prev. rewrite (ld_prev_step _ _ _ _ Eb).
  assert (Fa : Forall (above x) [a]) by (repeat constructor; unfold above; lia).
  destruct l as [|d l].
  - simplify_eq/=. rewrite Z.eqb_refl. exists [], [a], b. eauto 10.
  - change (last (d :: l) = Some b) in Lb. destruct (b =? q) eqn:Q1.
    { apply Z.eqb_eq in Q1. subst. destruct HR as [[Hq _]%NoDup_cons _].
      apply last_in in Lb. destruct Hq. rewrite elem_of_app. by left. }
    destruct (IH (d :: l) (a :: post) b) as (p1 & p2 & r & E & Er & Lr & F & HL);
      [done|done|simpl in *; lia|].
    exists p1, (p2 ++ [a]), r. rewrite app_assoc, <- E. split_and!; try done.
    by apply Forall_app.
Qed.

(** One round: the node [x] after the sorted prefix moves to its place. *)
Lemma sort_round h q pre x post fuel :
  ring h q (pre ++ x :: post) -> pre <> [] -> (length pre <= fuel)%nat ->
  exists a b h' r h'',
    pv h x = Some a /\ nx h x = Some b /\ head (post ++ [q]) = Some b /\
    queue_remove x h = Some (tt, h') /\ sort_back cmp fuel q x a h' = Some (r, h') /\
    queue_insert_head r x h' = Some (tt, h'') /\
    ring h'' q (place x pre ++ post) /\ frame (q :: pre ++ x :: post) h h''.
Proof.
  intros HR HP HF. destruct (around_exists q pre post) as (a & b & HA).
  destruct (ring_edges _ _ _ _ _ _ _ HR HA) as ([_ Ea] & [Eb _] & _).
  destruct (remove_at _ _ _ _ _ _ _ HR HA) as (h' & Er & U & HR').
  assert (La : last pre = Some a) by (destruct HA as [La _]; by destruct pre).
  destruct (sort_back_spec h' q x pre post fuel a HR' La HF)
    as (p1 & p2 & r & -> & Es & Lr & F & HL).
  assert (X : is_node h' x).
  { destruct U as [N _]. specialize (N x). rewrite decide_True in N by done. eauto with queue. }
  assert (Hx : x ∉ q :: (p1 ++ p2) ++ post).
  { destruct HR as [ND _]. rewrite (app_comm_cons (p1 ++ p2) (x :: post) q) in ND.
    rewrite <- Permutation_middle in ND. by apply NoDup_cons in ND as [? _]. }
  rewrite <- app_assoc in HR', Hx.
  assert (HA2 : exists c, around q p1 (p2 ++ post) r c).
  { destruct (around_exists q p1 (p2 ++ post)) as (r' & c & [L1 H1]). exists c. split; congruence. }
  destruct HA2 as [c HA2].
  destruct (insert_head_at _ _ _ _ _ _ _ HR' HA2 X Hx) as (h'' & Ei & L & HR'').
  exists a, b, h', r, h''. split_and!; try done; [by destruct HA| |].
  - rewrite place_split by done. by rewrite <- app_assoc.
  - intros z Hz. apply unlinked_frame in U. apply linked_frame in L.
    apply around_split in HA as (l1 & l2 & E1 & E2). apply around_split in HA2 as (l3 & l4 & E3 & E4).
    assert (a ∈ q :: p1 ++ p2) by (rewrite E1; set_solver).
    assert (b ∈ post ++ [q]) by (rewrite E2; set_solver).
    assert (r ∈ q :: p1) by (rewrite E3; set_solver).
    assert (c ∈ (p2 ++ post) ++ [q]) by (rewrite E4; set_solver).
    rewrite L, U; [done| |]; clear - Hz H H0 H1 H2; set_solver.
Qed.

Lemma place_perm x l : place x l ≡ₚ x :: l.
Proof.
  induction l as [|a l IH]; [done|]. cbn [place].
  destruct (existsb _ _); [|done]. rewrite IH. apply Permutation_swap.
Qed.

Lemma frame_trans l h1 h2 h3 : frame l h1 h2 -> frame l h2 h3 -> frame l h1 h3.
Proof. intros F1 F2 z Hz. by rewrite F2, F1. Qed.

Lemma frame_perm l k h1 h2 : l ≡ₚ k -> frame l h1 h2 -> frame k h1 h2.
Proof. intros E F z Hz. apply F. by rewrite E. Qed.

Lemma sort_loop_spec h q pre post fuel n :
  ring h q (pre ++ post) -> pre <> [] -> head (post ++ [q]) = Some n ->
  (length pre + 2 * length post <= fuel)%nat ->
  exists h', sort_loop cmp fuel q n h = Some (tt, h') /\
    ring h' q (foldl (fun acc x => place x acc) pre post) /\ frame (q :: pre ++ post) h h'.
Proof.
  revert h pre fuel n. induction post as [|x post IH]; intros h pre fuel n HR HP Hn HF; simplify_eq/=.
  { exists h. rewrite app_nil_r in *. destruct fuel; cbn [sort_loop]; rewrite Z.eqb_refl; done. }
  destruct fuel as [|fuel]; [lia|]. cbn [sort_loop].
  assert (n =? q = false) as ->.
  { apply Z.eqb_neq. intros ->. destruct HR as [[Hq _]%NoDup_cons _]. apply Hq. set_solver. }
  destruct (sort_round h q pre n post (S fuel) HR HP)
    as (a & b & h' & r & h'' & Ea & Eb & Hb & E1 & E2 & E3 & HR' & F); [lia|].
  unfold queue_prev, queue_next.
  rewrite (ld_prev_step _ _ _ _ Ea), (ld_next_step _ _ _ _ Eb).
  rewrite (ST_bind_eq _ _ _ _ _ E1), (ST_bind_eq _ _ _ _ _ E2), (ST_bind_eq _ _ _ _ _ E3).
  pose proof (place_perm n pre) as PM.
  destruct (IH h'' (place n pre) fuel b) as (h3 & E4 & HR3 & F3); [done| |done| |].
  - intros E. rewrite E in PM. by apply Permutation_nil_cons in PM.
  - rewrite (Permutation_length PM). simpl. lia.
  - exists h3. split_and!; [done|done|]. eapply frame_trans; [exact F|].
    eapply frame_perm; [|exact F3]. rewrite PM. simpl. by rewrite <- Permutation_middle.
Qed.

Lemma queue_sort_isort h q xs fuel :
  ring h q xs -> (2 * length xs <= fuel)%nat ->
  exists h', queue_sort cmp fuel q h = Some (tt, h') /\ ring h' q (isort xs) /\
    frame (q :: xs) h h'.
Proof.
  intros HR HF. unfold queue_sort, queue_head, queue_tail, queue_next.
  destruct xs as [|x xs].
  { pose proof HR as [Nq Pq]%ring_nil.
    rewrite (ld_next_step _ _ _ _ Nq), (ld_prev_step _ _ _ _ Pq), Z.eqb_refl. by exists h. }
  destruct (ring_head _ _ _ _ HR) as [Nq _].
  destruct (last (x :: xs)) as [t|] eqn:Ht; [|by apply last_None in Ht].
  pose proof (ring_tail _ _ _ HR _ Ht) as Pq.
  rewrite (ld_next_step _ _ _ _ Nq), (ld_prev_step _ _ _ _ Pq).
  pose proof (nth_tail h q _ HR 0 x t eq_refl Ht) as T. destruct (x =? t) eqn:Q1.
  - apply Z.eqb_eq, T in Q1. destruct xs; [|done]. by exists h.
  - destruct (around_exists q [x] xs) as (a & n & HA).
    destruct (around_edge h q [x] xs a n HR HA) as [En _]. destruct HA as [La Hn].
    injection La as <-. rewrite (ld_next_step _ _ _ _ En).
    apply (sort_loop_spec h q [x] xs); simpl in *; try done. lia.
Qed.

Lemma isort_perm xs : isort xs ≡ₚ xs.
Proof.
  unfold isort. cut (forall acc, foldl (fun acc x => place x acc) acc xs ≡ₚ acc ++ xs).
  { intros H. apply (H []). }
  induction xs as [|x xs IH]; intros acc; simpl; [by rewrite app_nil_r|].
  rewrite IH, place_perm. simpl. by rewrite Permutation_middle.
Qed.

(** ** Order *)
Definition cmp_le (a b : Z) : Prop := cmp a b <= 0.

Context (Tot : forall a b, cmp_le a b \/ cmp_le b a).
Context (Trans : forall a b c, cmp_le a b -> cmp_le b c -> cmp_le a c).

Lemma place_sorted x l : StronglySorted cmp_le l -> StronglySorted cmp_le (place x l).
Proof using Tot Trans.
  induction 1 as [|a l S IH F]; [by repeat constructor|]. cbn [place].
  destruct (existsb _ _) eqn:E.
  - constructor; [done|]. rewrite (place_perm x l). constructor; [|done].
    apply existsb_exists in E as (b & Hb & Hc). apply Z.leb_le in Hc. destruct Hb as [->|Hb]; [done|].
    rewrite <- list_elem_of_In in Hb. rewrite Forall_forall in F. eapply Trans; [by apply F|done].
  - constructor; [by constructor|]. apply Forall_forall. intros b Hb.
    destruct (Tot x b) as [|H]; [done|]. exfalso.
    apply Bool.not_true_iff_false in E. apply E. apply existsb_exists. exists b.
    split; [by apply list_elem_of_In|]. unfold cmp_le in H. lia.
Qed.

(** Two elements that compare equal both ways. *)
Definition tie (x y : Z) : bool := (cmp x y <=? 0) && (cmp y x <=? 0).

Lemma place_stable x y l : StronglySorted cmp_le l ->
  List.filter (tie y) (place x l) = List.filter (tie y) (l ++ [x]).
Proof using Tot Trans.
  induction 1 as [|a l S IH F]; [done|]. cbn [place].
  destruct (existsb _ _) eqn:E.
  - simpl. rewrite IH. done.
  - rewrite List.filter_app.
    change (List.filter (tie y) (x :: a :: l)) with
      (if tie y x then x :: List.filter (tie y) (a :: l) else List.filter (tie y) (a :: l)).
    change (List.filter (tie y) [x]) with (if tie y x then [x] else []).
    destruct (tie y x) eqn:T; [|by rewrite app_nil_r].
    assert (List.filter (tie y) (a :: l) = []) as ->; [|done].
    apply Bool.not_true_iff_false in E.
    destruct (List.filter (tie y) (a :: l)) as [|b k] eqn:K; [done|]. exfalso. apply E.
    assert (In b (List.filter (tie y) (a :: l))) as [Hb Tb]%filter_In by (rewrite K; by left).
    apply existsb_exists. exists b. split; [done|]. unfold tie in *.
    apply andb_prop in T as [T1 T2]. apply andb_prop in Tb as [T3 T4].
    apply Z.leb_le. apply Z.leb_le in T1, T4. by apply (Trans b y x).
Qed.

Lemma isort_sorted_stable xs :
  StronglySorted cmp_le (isort xs) /\
  forall y, List.filter (tie y) (isort xs) = List.filter (tie y) xs.
Proof using Tot Trans.
  unfold isort. cut (forall acc, StronglySorted cmp_le acc ->
    let r := foldl (fun acc x => place x acc) acc xs in
    StronglySorted cmp_le r /\ forall y, List.filter (tie y) r = List.filter (tie y) (acc ++ xs)).
  { intros H. apply (H []). constructor. }
  induction xs as [|x xs IH]; intros acc SS; simpl; [rewrite app_nil_r; by split|].
  destruct (IH (place x acc) (place_sorted _ _ SS)) as [S1 S2]. split; [done|].
  intros y. rewrite S2, List.filter_app, place_stable, <- List.filter_app by done.
  by rewrite <- app_assoc.
Qed.

End sort_spec.

(** [queue_sort] terminates, sorts the ring, is stable (nodes that compare
    equal keep their order) and only moves nodes of the ring, for every
    comparison that is a total preorder. *)
Theorem queue_sort_sorted (cmp : Z -> Z -> Z) h q xs fuel :
  (forall a b, cmp_le cmp a b \/ cmp_le cmp b a) ->
  (forall a b c, cmp_le cmp a b -> cmp_le cmp b c -> cmp_le cmp a c) ->
  ring h q xs -> (2 * length xs <= fuel)%nat ->
  exists h' ys, queue_sort cmp fuel q h = Some (tt, h') /\ ring h' q ys /\
    ys ≡ₚ xs /\ StronglySorted (cmp_le cmp) ys /\
    (forall y, List.filter (tie cmp y) ys = List.filter (tie cmp y) xs) /\ frame (q :: xs) h h'.
Proof.
  intros Tot Trans HR HF.
  destruct (queue_sort_isort cmp h q xs fuel HR HF) as (h' & E & HR' & F).
  destruct (isort_sorted_stable cmp Tot Trans xs) as [S1 S2].
  exists h', (isort cmp xs). split_and!; try done. apply isort_perm.
Qed.

Lemma queue_sort_sorted_witness :
  let cmp a b := b - a in
  exists h' ys, queue_sort cmp 6 1 sample_ring = Some (tt, h') /\ ring h' 1 ys /\
    ys ≡ₚ [2; 3; 4] /\ StronglySorted (cmp_le cmp) ys /\
    (forall y, List.filter (tie cmp y) ys = List.filter (tie cmp y) [2; 3; 4]) /\
    frame [1; 2; 3; 4] sample_ring h'.
Proof.
  intros cmp. apply (queue_sort_sorted cmp sample_ring 1 [2; 3; 4]);
    [unfold cmp_le, cmp; lia..|by_decide|simpl; lia].
Defined.

End Queue.
