(* ===== verification/DfsMath.v ===== *)
(** * Integer routines: src/core/dfs_math.c

    Trial-division primality and the search for the next prime, which size
    the hash tables, and the base-2 logarithm.  [size_t] arithmetic wraps at
    64 bits. *)

From Stdlib Require Import ZArith Lia Bool Znumtheory.
From stdpp Require Import base numbers list.
From S2P Require Import Prelude.

Module DfsMath.

(** The [for] loop of [dfs_math_is_prime]; [None] when [fuel] iterations are
    not enough. *)
Fixpoint prime_loop (fuel : nat) (i x : Z) : option bool :=
  if u64 (i * i) <=? x then
    match fuel with
    | O => None
    | S fuel' => if x mod i =? 0 then Some false else prime_loop fuel' (u64 (i + 1)) x
    end
  else Some true.

Definition dfs_math_is_prime (fuel : nat) (x : Z) : option bool :=
  if x <=? 1 then Some false else prime_loop fuel 2 x.

(** [tries] bounds the candidates examined. *)
Fixpoint dfs_math_find_prime (tries fuel : nat) (x : Z) : option Z :=
  match tries with
  | O => None
  | S tries' =>
      b ← dfs_math_is_prime fuel x;
      if b : bool then Some x else dfs_math_find_prime tries' fuel (u64 (x + 1))
  end.

(** The [while] loop of [dfs_math_dfslog2]: a [size_t] is 1 or 0 after 64
    shifts. *)
Fixpoint log2_loop (fuel : nat) (i x : Z) : option Z :=
  if 1 <? x then
    match fuel with
    | O => None
    | S fuel' => log2_loop fuel' (u32 (i + 1)) (Z.shiftr x 1)
    end
  else Some i.

Definition dfs_math_dfslog2 (x : Z) (round : bool) : option Z :=
  let i := if round && negb (Z.land x (u64 (x - 1)) =? 0) then 1 else 0 in
  log2_loop 64 i x.

Definition DFS_MATH_ALIGNMENT (x align : Z) : Z :=
  if x mod align =? 0 then x else x + (align - x mod align).

(** ** Primality *)

(** Below this bound [i * i] never wraps before the loop ends. *)
Definition prime_bound : Z := (2 ^ 32 - 1) * (2 ^ 32 - 1).

Lemma prime_loop_spec fuel i x :
  2 <= i -> 1 < x < prime_bound -> (forall d, 1 < d < i -> ~ (d | x)) ->
  Z.sqrt x - i < Z.of_nat fuel -> i <= Z.sqrt x + 1 ->
  exists b, prime_loop fuel i x = Some b /\ (b = true <-> prime x).
Proof.
  revert i. induction fuel as [|fuel IH]; intros i Hi Hx Hd HF Hs;
    destruct (Z.sqrt_spec x) as [S1 S2]; [lia| |lia|]; fold (Z.sqrt x) in *.
  all: assert (HS : Z.sqrt x < 2 ^ 32 - 1) by (unfold prime_bound in Hx; nia).
  all: assert (U : u64 (i * i) = i * i) by (apply uwrap_small; unfold in_u; change (2 ^ 64) with (2 ^ 32 * 2 ^ 32); nia).
  all: cbn [prime_loop]; rewrite U; destruct (i * i <=? x) eqn:E;
    [apply Z.leb_le in E|apply Z.leb_gt in E].
  - nia.
  - exists true. split; [done|]. split; [|done]. intros _.
    apply prime_alt. split; [lia|]. intros n Hn [q Hq].
    destruct (Z.lt_ge_cases n i); [by apply (Hd n); [lia|exists q]|].
    apply (Hd q); [|exists n; lia]. nia.
  - destruct (x mod i =? 0) eqn:M; [apply Z.eqb_eq in M|apply Z.eqb_neq in M].
    + exists false. split; [done|]. split; [done|]. intros P. exfalso.
      apply prime_alt in P as [_ P]. apply (P i); [nia|]. by apply Z.mod_divide; [lia|].
    + assert (i <= Z.sqrt x) by (apply Z.sqrt_le_square; lia).
      replace (u64 (i + 1)) with (i + 1)
        by (symmetry; apply uwrap_small; unfold in_u; change (2 ^ 64) with (2 ^ 32 * 2 ^ 32); nia).
      apply IH; [lia|done| |lia|lia]. intros d Hd' [q Hq].
      destruct (Z.eq_dec d i) as [->|]; [|by apply (Hd d); [lia|exists q]].
      apply M. subst x. apply Z_mod_mult.
  - exists true. split; [done|]. split; [|done]. intros _.
    apply prime_alt. split; [lia|]. intros n Hn [q Hq].
    destruct (Z.lt_ge_cases n i); [by apply (Hd n); [lia|exists q]|].
    apply (Hd q); [|exists n; lia]. nia.
Qed.

Lemma is_prime_spec fuel x :
  0 <= x < prime_bound -> Z.sqrt x <= Z.of_nat fuel ->
  exists b, dfs_math_is_prime fuel x = Some b /\ (b = true <-> prime x).
Proof.
  intros Hx HF. unfold dfs_math_is_prime.
  destruct (x <=? 1) eqn:E; [apply Z.leb_le in E|apply Z.leb_gt in E].
  - exists false. split; [done|]. split; [done|]. intros [? _]. lia.
  - apply prime_loop_spec; try lia.
    assert (1 <= Z.sqrt x) by (apply Z.sqrt_le_square; lia). lia.
Qed.

(** C35. [dfs_math_find_prime] terminates and returns the least prime that is
    not below its argument, for every table size whose square root loop does
    not wrap. *)
Theorem find_prime_least fuel tries x p :
  0 <= x <= p -> prime p -> p < prime_bound -> Z.sqrt p <= Z.of_nat fuel ->
  p - x < Z.of_nat tries -> (forall q, x <= q < p -> ~ prime q) ->
  dfs_math_find_prime tries fuel x = Some p.
Proof.
  revert x. induction tries as [|tries IH]; intros x Hx Hp HB HF HT HL; [lia|].
  cbn [dfs_math_find_prime].
  destruct (is_prime_spec fuel x) as (b & Eb & Hb);
    [lia|pose proof (Z.sqrt_le_mono x p ltac:(lia)); lia|].
  rewrite Eb. cbn [mbind option_bind].
  destruct (Z.eq_dec x p) as [->|Hne]; [by rewrite (proj2 Hb Hp)|].
  destruct b; [exfalso; apply (HL x); [lia|tauto]|].
  assert (p < 2 ^ 64) by (unfold prime_bound in HB; lia).
  replace (u64 (x + 1)) with (x + 1) by (symmetry; apply uwrap_small; unfold in_u; lia).
  apply IH; try done; try lia. intros q Hq. apply HL. lia.
Qed.

(** Primality of a small number, by running the code. *)
Lemma is_prime_run fuel x b :
  0 <= x < prime_bound -> Z.sqrt x <= Z.of_nat fuel -> dfs_math_is_prime fuel x = Some b ->
  b = true <-> prime x.
Proof. intros H1 H2 E. destruct (is_prime_spec fuel x H1 H2) as (b' & E' & H). congruence. Qed.

Lemma find_prime_least_witness : dfs_math_find_prime 10 400 100000 = Some 100003.
Proof.
  apply (find_prime_least 400 10 100000 100003); try lia.
  - apply (is_prime_run 400 100003 true); [unfold prime_bound; lia|vm_compute; done|reflexivity|done].
  - unfold prime_bound. lia.
  - vm_compute. done.
  - intros q Hq P. assert (q = 100000 \/ q = 100001 \/ q = 100002) as [-> | [-> | ->]] by lia;
      apply (is_prime_run 400 _ false) in P;
      solve [discriminate|unfold prime_bound; lia|vm_compute; done|reflexivity].
Defined.

(** ** Logarithm *)

Lemma log2_loop_spec fuel i x :
  0 < x -> Z.log2 x <= Z.of_nat fuel -> 0 <= i -> i + Z.log2 x < 2 ^ 32 ->
  log2_loop fuel i x = Some (i + Z.log2 x).
Proof.
  revert i x. induction fuel as [|fuel IH]; intros i x Hx HF Hi HB; cbn [log2_loop];
    destruct (1 <? x) eqn:E; [apply Z.ltb_lt in E|apply Z.ltb_ge in E|apply Z.ltb_lt in E|apply Z.ltb_ge in E].
  - pose proof (Z.log2_pos x). lia.
  - replace x with 1 by lia. f_equal. simpl. lia.
  - pose proof (Z.log2_pos x ltac:(lia)).
    assert (L : Z.log2 (Z.shiftr x 1) = Z.log2 x - 1) by (rewrite Z.log2_shiftr by lia; lia).
    unfold u32. rewrite uwrap_small by (unfold in_u; lia).
    rewrite IH; [rewrite L; f_equal; lia| |rewrite L; lia|lia|rewrite L; lia].
    rewrite Z.shiftr_div_pow2 by lia. apply Z.div_str_pos. lia.
  - replace x with 1 by lia. f_equal. simpl. lia.
Qed.

Lemma power_of_two_mask x : 0 < x ->
  Z.land x (x - 1) = 0 <-> exists b, 0 <= b /\ x = 2 ^ b.
Proof.
  intros Hx. split.
  - intros HL. exists (Z.log2 x). split; [apply Z.log2_nonneg|].
    destruct (Z.log2_spec x Hx) as [H1 H2]. destruct (Z.eq_dec x (2 ^ Z.log2 x)) as [|Hne]; [done|].
    exfalso. assert (1 < x) by (destruct (Z.eq_dec x 1) as [->|]; [by destruct Hne|lia]).
    assert (B : Z.testbit (Z.land x (x - 1)) (Z.log2 x) = true).
    { rewrite Z.land_spec, Z.bit_log2 by done. simpl.
      rewrite <- (Z.log2_unique (x - 1) (Z.log2 x)); [apply Z.bit_log2; lia|apply Z.log2_nonneg|lia]. }
    rewrite HL, Z.bits_0 in B. done.
  - intros (b & Hb & ->). replace (2 ^ b - 1) with (Z.ones b) by (rewrite Z.ones_equiv; lia).
    rewrite Z.land_ones by done.
    by rewrite Z_mod_same_full.
Qed.

(** The logarithm rounds down or up as asked, for every [size_t]. *)
Theorem dfslog2_spec x :
  0 < x < 2 ^ 64 ->
  dfs_math_dfslog2 x false = Some (Z.log2 x) /\ dfs_math_dfslog2 x true = Some (Z.log2_up x).
Proof.
  intros Hx. unfold dfs_math_dfslog2. cbn [andb].
  assert (HL : Z.log2 x < 64) by (apply Z.log2_lt_pow2; lia). pose proof (Z.log2_nonneg x).
  split; [rewrite log2_loop_spec; [done|lia..]|].
  replace (u64 (x - 1)) with (x - 1) by (symmetry; apply uwrap_small; unfold in_u; lia).
  pose proof (power_of_two_mask x ltac:(lia)) as P.
  pose proof (Z.log2_log2_up_exact x ltac:(lia)) as X.
  pose proof (Z.le_log2_log2_up x). pose proof (Z.le_log2_up_succ_log2 x).
  destruct (Z.land x (x - 1) =? 0) eqn:E; [apply Z.eqb_eq in E|apply Z.eqb_neq in E]; cbn [negb].
  - rewrite log2_loop_spec by lia. f_equal. rewrite Z.add_0_l. apply X.
    destruct (proj1 P E) as (b & _ & Eb). eauto.
  - rewrite log2_loop_spec by lia. f_equal.
    assert (Z.log2 x <> Z.log2_up x).
    { intros EQ. apply E, P. destruct (proj1 X EQ) as [b Eb]. exists b. split; [|done].
      destruct (Z.lt_ge_cases b 0); [|done]. rewrite Z.pow_neg_r in Eb by done. lia. }
    lia.
Qed.

Lemma dfslog2_spec_witness :
  dfs_math_dfslog2 1000 false = Some (Z.log2 1000) /\ dfs_math_dfslog2 1000 true = Some (Z.log2_up 1000).
Proof. apply (dfslog2_spec 1000). lia. Defined.

End DfsMath.
