(* ===== verification/Des.v ===== *)
(** * DES and triple DES: src/core/dfs_math.c

    The block cipher (a table-driven implementation on two 32-bit words), its
    key schedule and the weak-key table.  The macros of the source are
    functions of the words they update. *)

From Stdlib Require Import ZArith Lia Bool.
From stdpp Require Import base numbers list.
From coqutil Require Import Z.bitblast.
From S2P Require Import Prelude Libc.

Module Des.
#[local] Open Scope dfs_scope.

(** ** Tables *)

Definition sbox1 : list Z :=
  [0x01010400; 0x00000000; 0x00010000; 0x01010404; 0x01010004; 0x00010404;
   0x00000004; 0x00010000; 0x00000400; 0x01010400; 0x01010404; 0x00000400;
   0x01000404; 0x01010004; 0x01000000; 0x00000004; 0x00000404; 0x01000400;
   0x01000400; 0x00010400; 0x00010400; 0x01010000; 0x01010000; 0x01000404;
   0x00010004; 0x01000004; 0x01000004; 0x00010004; 0x00000000; 0x00000404;
   0x00010404; 0x01000000; 0x00010000; 0x01010404; 0x00000004; 0x01010000;
   0x01010400; 0x01000000; 0x01000000; 0x00000400; 0x01010004; 0x00010000;
   0x00010400; 0x01000004; 0x00000400; 0x00000004; 0x01000404; 0x00010404;
   0x01010404; 0x00010004; 0x01010000; 0x01000404; 0x01000004; 0x00000404;
   0x00010404; 0x01010400; 0x00000404; 0x01000400; 0x01000400; 0x00000000;
   0x00010004; 0x00010400; 0x00000000; 0x01010004].

Definition sbox2 : list Z :=
  [0x80108020; 0x80008000; 0x00008000; 0x00108020; 0x00100000; 0x00000020;
   0x80100020; 0x80008020; 0x80000020; 0x80108020; 0x80108000; 0x80000000;
   0x80008000; 0x00100000; 0x00000020; 0x80100020; 0x00108000; 0x00100020;
   0x80008020; 0x00000000; 0x80000000; 0x00008000; 0x00108020; 0x80100000;
   0x00100020; 0x80000020; 0x00000000; 0x00108000; 0x00008020; 0x80108000;
   0x80100000; 0x00008020; 0x00000000; 0x00108020; 0x80100020; 0x00100000;
   0x80008020; 0x80100000; 0x80108000; 0x00008000; 0x80100000; 0x80008000;
   0x00000020; 0x80108020; 0x00108020; 0x00000020; 0x00008000; 0x80000000;
   0x00008020; 0x80108000; 0x00100000; 0x80000020; 0x00100020; 0x80008020;
   0x80000020; 0x00100020; 0x00108000; 0x00000000; 0x80008000; 0x00008020;
   0x80000000; 0x80100020; 0x80108020; 0x00108000].

Definition sbox3 : list Z :=
  [0x00000208; 0x08020200; 0x00000000; 0x08020008; 0x08000200; 0x00000000;
   0x00020208; 0x08000200; 0x00020008; 0x08000008; 0x08000008; 0x00020000;
   0x08020208; 0x00020008; 0x08020000; 0x00000208; 0x08000000; 0x00000008;
   0x08020200; 0x00000200; 0x00020200; 0x08020000; 0x08020008; 0x00020208;
   0x08000208; 0x00020200; 0x00020000; 0x08000208; 0x00000008; 0x08020208;
   0x00000200; 0x08000000; 0x08020200; 0x08000000; 0x00020008; 0x00000208;
   0x00020000; 0x08020200; 0x08000200; 0x00000000; 0x00000200; 0x00020008;
   0x08020208; 0x08000200; 0x08000008; 0x00000200; 0x00000000; 0x08020008;
   0x08000208; 0x00020000; 0x08000000; 0x08020208; 0x00000008; 0x00020208;
   0x00020200; 0x08000008; 0x08020000; 0x08000208; 0x00000208; 0x08020000;
   0x00020208; 0x00000008; 0x08020008; 0x00020200].

Definition sbox4 : list Z :=
  [0x00802001; 0x00002081; 0x00002081; 0x00000080; 0x00802080; 0x00800081;
   0x00800001; 0x00002001; 0x00000000; 0x00802000; 0x00802000; 0x00802081;
   0x00000081; 0x00000000; 0x00800080; 0x00800001; 0x00000001; 0x00002000;
   0x00800000; 0x00802001; 0x00000080; 0x00800000; 0x00002001; 0x00002080;
   0x00800081; 0x00000001; 0x00002080; 0x00800080; 0x00002000; 0x00802080;
   0x00802081; 0x00000081; 0x00800080; 0x00800001; 0x00802000; 0x00802081;
   0x00000081; 0x00000000; 0x00000000; 0x00802000; 0x00002080; 0x00800080;
   0x00800081; 0x00000001; 0x00802001; 0x00002081; 0x00002081; 0x00000080;
   0x00802081; 0x00000081; 0x00000001; 0x00002000; 0x00800001; 0x00002001;
   0x00802080; 0x00800081; 0x00002001; 0x00002080; 0x00800000; 0x00802001;
   0x00000080; 0x00800000; 0x00002000; 0x00802080].

Definition sbox5 : list Z :=
  [0x00000100; 0x02080100; 0x02080000; 0x42000100; 0x00080000; 0x00000100;
   0x40000000; 0x02080000; 0x40080100; 0x00080000; 0x02000100; 0x40080100;
   0x42000100; 0x42080000; 0x00080100; 0x40000000; 0x02000000; 0x40080000;
   0x40080000; 0x00000000; 0x40000100; 0x42080100; 0x42080100; 0x02000100;
   0x42080000; 0x40000100; 0x00000000; 0x42000000; 0x02080100; 0x02000000;
   0x42000000; 0x00080100; 0x00080000; 0x42000100; 0x00000100; 0x02000000;
   0x40000000; 0x02080000; 0x42000100; 0x40080100; 0x02000100; 0x40000000;
   0x42080000; 0x02080100; 0x40080100; 0x00000100; 0x02000000; 0x42080000;
   0x42080100; 0x00080100; 0x42000000; 0x42080100; 0x02080000; 0x00000000;
   0x40080000; 0x42000000; 0x00080100; 0x02000100; 0x40000100; 0x00080000;
   0x00000000; 0x40080000; 0x02080100; 0x40000100].

Definition sbox6 : list Z :=
  [0x20000010; 0x20400000; 0x00004000; 0x20404010; 0x20400000; 0x00000010;
   0x20404010; 0x00400000; 0x20004000; 0x00404010; 0x00400000; 0x20000010;
   0x00400010; 0x20004000; 0x20000000; 0x00004010; 0x00000000; 0x00400010;
   0x20004010; 0x00004000; 0x00404000; 0x20004010; 0x00000010; 0x20400010;
   0x20400010; 0x00000000; 0x00404010; 0x20404000; 0x00004010; 0x00404000;
   0x20404000; 0x20000000; 0x20004000; 0x00000010; 0x20400010; 0x00404000;
   0x20404010; 0x00400000; 0x00004010; 0x20000010; 0x00400000; 0x20004000;
   0x20000000; 0x00004010; 0x20000010; 0x20404010; 0x00404000; 0x20400000;
   0x00404010; 0x20404000; 0x00000000; 0x20400010; 0x00000010; 0x00004000;
   0x20400000; 0x00404010; 0x00004000; 0x00400010; 0x20004010; 0x00000000;
   0x20404000; 0x20000000; 0x00400010; 0x20004010].

Definition sbox7 : list Z :=
  [0x00200000; 0x04200002; 0x04000802; 0x00000000; 0x00000800; 0x04000802;
   0x00200802; 0x04200800; 0x04200802; 0x00200000; 0x00000000; 0x04000002;
   0x00000002; 0x04000000; 0x04200002; 0x00000802; 0x04000800; 0x00200802;
   0x00200002; 0x04000800; 0x04000002; 0x04200000; 0x04200800; 0x00200002;
   0x04200000; 0x00000800; 0x00000802; 0x04200802; 0x00200800; 0x00000002;
   0x04000000; 0x00200800; 0x04000000; 0x00200800; 0x00200000; 0x04000802;
   0x04000802; 0x04200002; 0x04200002; 0x00000002; 0x00200002; 0x04000000;
   0x04000800; 0x00200000; 0x04200800; 0x00000802; 0x00200802; 0x04200800;
   0x00000802; 0x04000002; 0x04200802; 0x04200000; 0x00200800; 0x00000000;
   0x00000002; 0x04200802; 0x00000000; 0x00200802; 0x04200000; 0x00000800;
   0x04000002; 0x04000800; 0x00000800; 0x00200002].

Definition sbox8 : list Z :=
  [0x10001040; 0x00001000; 0x00040000; 0x10041040; 0x10000000; 0x10001040;
   0x00000040; 0x10000000; 0x00040040; 0x10040000; 0x10041040; 0x00041000;
   0x10041000; 0x00041040; 0x00001000; 0x00000040; 0x10040000; 0x10000040;
   0x10001000; 0x00001040; 0x00041000; 0x00040040; 0x10040040; 0x10041000;
   0x00001040; 0x00000000; 0x00000000; 0x10040040; 0x10000040; 0x10001000;
   0x00041040; 0x00040000; 0x00041040; 0x00040000; 0x10041000; 0x00001000;
   0x00000040; 0x10040040; 0x00001000; 0x00041040; 0x10001000; 0x00000040;
   0x10000040; 0x10040000; 0x10040040; 0x10000000; 0x00040000; 0x10001040;
   0x00000000; 0x10041040; 0x00040040; 0x10000040; 0x10040000; 0x10001000;
   0x10001040; 0x00000000; 0x10041040; 0x00041000; 0x00041000; 0x00001040;
   0x00001040; 0x00040040; 0x10000000; 0x10041000].

Definition leftkey_swap : list Z :=
  [0x00000000; 0x00000001; 0x00000100; 0x00000101; 0x00010000; 0x00010001;
   0x00010100; 0x00010101; 0x01000000; 0x01000001; 0x01000100; 0x01000101;
   0x01010000; 0x01010001; 0x01010100; 0x01010101].

Definition rightkey_swap : list Z :=
  [0x00000000; 0x01000000; 0x00010000; 0x01010000; 0x00000100; 0x01000100;
   0x00010100; 0x01010100; 0x00000001; 0x01000001; 0x00010001; 0x01010001;
   0x00000101; 0x01000101; 0x00010101; 0x01010101].

Definition encrypt_rotate_tab : list Z :=
  [1; 1; 2; 2; 2; 2;
   2; 2; 1; 2; 2; 2;
   2; 2; 2; 1].

Definition weak_keys : list (list Z) :=
  [[0x00; 0x00; 0x00; 0x00; 0x00; 0x00; 0x00; 0x00];
   [0x00; 0x00; 0x1e; 0x1e; 0x00; 0x00; 0x0e; 0x0e];
   [0x00; 0x00; 0xe0; 0xe0; 0x00; 0x00; 0xf0; 0xf0];
   [0x00; 0x00; 0xfe; 0xfe; 0x00; 0x00; 0xfe; 0xfe];
   [0x00; 0x1e; 0x00; 0x1e; 0x00; 0x0e; 0x00; 0x0e];
   [0x00; 0x1e; 0x1e; 0x00; 0x00; 0x0e; 0x0e; 0x00];
   [0x00; 0x1e; 0xe0; 0xfe; 0x00; 0x0e; 0xf0; 0xfe];
   [0x00; 0x1e; 0xfe; 0xe0; 0x00; 0x0e; 0xfe; 0xf0];
   [0x00; 0xe0; 0x00; 0xe0; 0x00; 0xf0; 0x00; 0xf0];
   [0x00; 0xe0; 0x1e; 0xfe; 0x00; 0xf0; 0x0e; 0xfe];
   [0x00; 0xe0; 0xe0; 0x00; 0x00; 0xf0; 0xf0; 0x00];
   [0x00; 0xe0; 0xfe; 0x1e; 0x00; 0xf0; 0xfe; 0x0e];
   [0x00; 0xfe; 0x00; 0xfe; 0x00; 0xfe; 0x00; 0xfe];
   [0x00; 0xfe; 0x1e; 0xe0; 0x00; 0xfe; 0x0e; 0xf0];
   [0x00; 0xfe; 0xe0; 0x1e; 0x00; 0xfe; 0xf0; 0x0e];
   [0x00; 0xfe; 0xfe; 0x00; 0x00; 0xfe; 0xfe; 0x00];
   [0x1e; 0x00; 0x00; 0x1e; 0x0e; 0x00; 0x00; 0x0e];
   [0x1e; 0x00; 0x1e; 0x00; 0x0e; 0x00; 0x0e; 0x00];
   [0x1e; 0x00; 0xe0; 0xfe; 0x0e; 0x00; 0xf0; 0xfe];
   [0x1e; 0x00; 0xfe; 0xe0; 0x0e; 0x00; 0xfe; 0xf0];
   [0x1e; 0x1e; 0x00; 0x00; 0x0e; 0x0e; 0x00; 0x00];
   [0x1e; 0x1e; 0x1e; 0x1e; 0x0e; 0x0e; 0x0e; 0x0e];
   [0x1e; 0x1e; 0xe0; 0xe0; 0x0e; 0x0e; 0xf0; 0xf0];
   [0x1e; 0x1e; 0xfe; 0xfe; 0x0e; 0x0e; 0xfe; 0xfe];
   [0x1e; 0xe0; 0x00; 0xfe; 0x0e; 0xf0; 0x00; 0xfe];
   [0x1e; 0xe0; 0x1e; 0xe0; 0x0e; 0xf0; 0x0e; 0xf0];
   [0x1e; 0xe0; 0xe0; 0x1e; 0x0e; 0xf0; 0xf0; 0x0e];
   [0x1e; 0xe0; 0xfe; 0x00; 0x0e; 0xf0; 0xfe; 0x00];
   [0x1e; 0xfe; 0x00; 0xe0; 0x0e; 0xfe; 0x00; 0xf0];
   [0x1e; 0xfe; 0x1e; 0xfe; 0x0e; 0xfe; 0x0e; 0xfe];
   [0x1e; 0xfe; 0xe0; 0x00; 0x0e; 0xfe; 0xf0; 0x00];
   [0x1e; 0xfe; 0xfe; 0x1e; 0x0e; 0xfe; 0xfe; 0x0e];
   [0xe0; 0x00; 0x00; 0xe0; 0xf0; 0x00; 0x00; 0xf0];
   [0xe0; 0x00; 0x1e; 0xfe; 0xf0; 0x00; 0x0e; 0xfe];
   [0xe0; 0x00; 0xe0; 0x00; 0xf0; 0x00; 0xf0; 0x00];
   [0xe0; 0x00; 0xfe; 0x1e; 0xf0; 0x00; 0xfe; 0x0e];
   [0xe0; 0x1e; 0x00; 0xfe; 0xf0; 0x0e; 0x00; 0xfe];
   [0xe0; 0x1e; 0x1e; 0xe0; 0xf0; 0x0e; 0x0e; 0xf0];
   [0xe0; 0x1e; 0xe0; 0x1e; 0xf0; 0x0e; 0xf0; 0x0e];
   [0xe0; 0x1e; 0xfe; 0x00; 0xf0; 0x0e; 0xfe; 0x00];
   [0xe0; 0xe0; 0x00; 0x00; 0xf0; 0xf0; 0x00; 0x00];
   [0xe0; 0xe0; 0x1e; 0x1e; 0xf0; 0xf0; 0x0e; 0x0e];
   [0xe0; 0xe0; 0xe0; 0xe0; 0xf0; 0xf0; 0xf0; 0xf0];
   [0xe0; 0xe0; 0xfe; 0xfe; 0xf0; 0xf0; 0xfe; 0xfe];
   [0xe0; 0xfe; 0x00; 0x1e; 0xf0; 0xfe; 0x00; 0x0e];
   [0xe0; 0xfe; 0x1e; 0x00; 0xf0; 0xfe; 0x0e; 0x00];
   [0xe0; 0xfe; 0xe0; 0xfe; 0xf0; 0xfe; 0xf0; 0xfe];
   [0xe0; 0xfe; 0xfe; 0xe0; 0xf0; 0xfe; 0xfe; 0xf0];
   [0xfe; 0x00; 0x00; 0xfe; 0xfe; 0x00; 0x00; 0xfe];
   [0xfe; 0x00; 0x1e; 0xe0; 0xfe; 0x00; 0x0e; 0xf0];
   [0xfe; 0x00; 0xe0; 0x1e; 0xfe; 0x00; 0xf0; 0x0e];
   [0xfe; 0x00; 0xfe; 0x00; 0xfe; 0x00; 0xfe; 0x00];
   [0xfe; 0x1e; 0x00; 0xe0; 0xfe; 0x0e; 0x00; 0xf0];
   [0xfe; 0x1e; 0x1e; 0xfe; 0xfe; 0x0e; 0x0e; 0xfe];
   [0xfe; 0x1e; 0xe0; 0x00; 0xfe; 0x0e; 0xf0; 0x00];
   [0xfe; 0x1e; 0xfe; 0x1e; 0xfe; 0x0e; 0xfe; 0x0e];
   [0xfe; 0xe0; 0x00; 0x1e; 0xfe; 0xf0; 0x00; 0x0e];
   [0xfe; 0xe0; 0x1e; 0x00; 0xfe; 0xf0; 0x0e; 0x00];
   [0xfe; 0xe0; 0xe0; 0xfe; 0xfe; 0xf0; 0xf0; 0xfe];
   [0xfe; 0xe0; 0xfe; 0xe0; 0xfe; 0xf0; 0xfe; 0xf0];
   [0xfe; 0xfe; 0x00; 0x00; 0xfe; 0xfe; 0x00; 0x00];
   [0xfe; 0xfe; 0x1e; 0x1e; 0xfe; 0xfe; 0x0e; 0x0e];
   [0xfe; 0xfe; 0xe0; 0xe0; 0xfe; 0xfe; 0xf0; 0xf0];
   [0xfe; 0xfe; 0xfe; 0xfe; 0xfe; 0xfe; 0xfe; 0xfe]].

Definition tab (t : list Z) (i : Z) : Z := nth (Z.to_nat i) t 0.

(** ** Macros *)

(** The new values of [a] and [b]. *)
Definition DO_PERMUTATION (a b offset mask : Z) : Z * Z :=
  let temp := (shr a offset .^ b) .& mask in
  (a .^ shl32 temp offset, b .^ temp).

Definition INITIAL_PERMUTATION (lft rgt : Z) : Z * Z :=
  let '(lft, rgt) := DO_PERMUTATION lft rgt 4 0x0f0f0f0f in
  let '(lft, rgt) := DO_PERMUTATION lft rgt 16 0x0000ffff in
  let '(rgt, lft) := DO_PERMUTATION rgt lft 2 0x33333333 in
  let '(rgt, lft) := DO_PERMUTATION rgt lft 8 0x00ff00ff in
  let rgt := shl32 rgt 1 .| shr rgt 31 in
  let temp := (lft .^ rgt) .& 0xaaaaaaaa in
  let rgt := rgt .^ temp in
  let lft := lft .^ temp in
  let lft := shl32 lft 1 .| shr lft 31 in
  (lft, rgt).

Definition FINAL_PERMUTATION (lft rgt : Z) : Z * Z :=
  let lft := shl32 lft 31 .| shr lft 1 in
  let temp := (lft .^ rgt) .& 0xaaaaaaaa in
  let lft := lft .^ temp in
  let rgt := rgt .^ temp in
  let rgt := shl32 rgt 31 .| shr rgt 1 in
  let '(rgt, lft) := DO_PERMUTATION rgt lft 8 0x00ff00ff in
  let '(rgt, lft) := DO_PERMUTATION rgt lft 2 0x33333333 in
  let '(lft, rgt) := DO_PERMUTATION lft rgt 16 0x0000ffff in
  let '(lft, rgt) := DO_PERMUTATION lft rgt 4 0x0f0f0f0f in
  (lft, rgt).

(** The new value of [to]. *)
Definition DES_ROUND (from to k0 k1 : Z) : Z :=
  let work := from .^ k0 in
  let to := to .^ tab sbox8 (work .& 0x3f) in
  let to := to .^ tab sbox6 (shr work 8 .& 0x3f) in
  let to := to .^ tab sbox4 (shr work 16 .& 0x3f) in
  let to := to .^ tab sbox2 (shr work 24 .& 0x3f) in
  let work := (shl32 from 28 .| shr from 4) .^ k1 in
  let to := to .^ tab sbox7 (work .& 0x3f) in
  let to := to .^ tab sbox5 (shr work 8 .& 0x3f) in
  let to := to .^ tab sbox3 (shr work 16 .& 0x3f) in
  to .^ tab sbox1 (shr work 24 .& 0x3f).

Definition READ_WORD (d0 d1 d2 d3 : Z) : Z :=
  u32 (Z.shiftl d0 24 .| Z.shiftl d1 16 .| Z.shiftl d2 8 .| d3).

(** [None]: fewer than 8 bytes can be read. *)
Definition READ_64BIT_DATA (data : list Z) : option (Z * Z) :=
  match data with
  | d0 :: d1 :: d2 :: d3 :: d4 :: d5 :: d6 :: d7 :: _ =>
      Some (READ_WORD d0 d1 d2 d3, READ_WORD d4 d5 d6 d7)
  | _ => None
  end.

Definition WRITE_64BIT_DATA (lft rgt : Z) : list Z :=
  [shr lft 24 .& 0xff; shr lft 16 .& 0xff; shr lft 8 .& 0xff; lft .& 0xff;
   shr rgt 24 .& 0xff; shr rgt 16 .& 0xff; shr rgt 8 .& 0xff; rgt .& 0xff].

(** ** Key schedule *)

Definition subkey_even (lft rgt : Z) : Z :=
  ((shl32 lft 4) .& 0x24000000) .|
  ((shl32 lft 28) .& 0x10000000) .|
  ((shl32 lft 14) .& 0x08000000) .|
  ((shl32 lft 18) .& 0x02080000) .|
  ((shl32 lft 6) .& 0x01000000) .|
  ((shl32 lft 9) .& 0x00200000) .|
  ((shr lft 1) .& 0x00100000) .|
  ((shl32 lft 10) .& 0x00040000) .|
  ((shl32 lft 2) .& 0x00020000) .|
  ((shr lft 10) .& 0x00010000) .|
  ((shr rgt 13) .& 0x00002000) .|
  ((shr rgt 4) .& 0x00001000) .|
  ((shl32 rgt 6) .& 0x00000800) .|
  ((shr rgt 1) .& 0x00000400) .|
  ((shr rgt 14) .& 0x00000200) .|
  (rgt .& 0x00000100) .|
  ((shr rgt 5) .& 0x00000020) .|
  ((shr rgt 10) .& 0x00000010) .|
  ((shr rgt 3) .& 0x00000008) .|
  ((shr rgt 18) .& 0x00000004) .|
  ((shr rgt 26) .& 0x00000002) .|
  ((shr rgt 24) .& 0x00000001).

Definition subkey_odd (lft rgt : Z) : Z :=
  ((shl32 lft 15) .& 0x20000000) .|
  ((shl32 lft 17) .& 0x10000000) .|
  ((shl32 lft 10) .& 0x08000000) .|
  ((shl32 lft 22) .& 0x04000000) .|
  ((shr lft 2) .& 0x02000000) .|
  ((shl32 lft 1) .& 0x01000000) .|
  ((shl32 lft 16) .& 0x00200000) .|
  ((shl32 lft 11) .& 0x00100000) .|
  ((shl32 lft 3) .& 0x00080000) .|
  ((shr lft 6) .& 0x00040000) .|
  ((shl32 lft 15) .& 0x00020000) .|
  ((shr lft 4) .& 0x00010000) .|
  ((shr rgt 2) .& 0x00002000) .|
  ((shl32 rgt 8) .& 0x00001000) .|
  ((shr rgt 14) .& 0x00000808) .|
  ((shr rgt 9) .& 0x00000400) .|
  (rgt .& 0x00000200) .|
  ((shl32 rgt 7) .& 0x00000100) .|
  ((shr rgt 7) .& 0x00000020) .|
  ((shr rgt 3) .& 0x00000011) .|
  ((shl32 rgt 2) .& 0x00000004) .|
  ((shr rgt 21) .& 0x00000002).

Definition swap_left (lft : Z) : Z :=
  (shl32 (tab leftkey_swap (shr lft 0 .& 0xf)) 3
   .| shl32 (tab leftkey_swap (shr lft 8 .& 0xf)) 2
   .| shl32 (tab leftkey_swap (shr lft 16 .& 0xf)) 1
   .| tab leftkey_swap (shr lft 24 .& 0xf)
   .| shl32 (tab leftkey_swap (shr lft 5 .& 0xf)) 7
   .| shl32 (tab leftkey_swap (shr lft 13 .& 0xf)) 6
   .| shl32 (tab leftkey_swap (shr lft 21 .& 0xf)) 5
   .| shl32 (tab leftkey_swap (shr lft 29 .& 0xf)) 4) .& 0x0fffffff.

Definition swap_right (rgt : Z) : Z :=
  (shl32 (tab rightkey_swap (shr rgt 1 .& 0xf)) 3
   .| shl32 (tab rightkey_swap (shr rgt 9 .& 0xf)) 2
   .| shl32 (tab rightkey_swap (shr rgt 17 .& 0xf)) 1
   .| tab rightkey_swap (shr rgt 25 .& 0xf)
   .| shl32 (tab rightkey_swap (shr rgt 4 .& 0xf)) 7
   .| shl32 (tab rightkey_swap (shr rgt 12 .& 0xf)) 6
   .| shl32 (tab rightkey_swap (shr rgt 20 .& 0xf)) 5
   .| shl32 (tab rightkey_swap (shr rgt 28 .& 0xf)) 4) .& 0x0fffffff.

(** The rounds of [des_key_schedule], driven by [encrypt_rotate_tab]. *)
Fixpoint schedule_rounds (rot : list Z) (lft rgt : Z) : list Z :=
  match rot with
  | [] => []
  | r :: rot' =>
      let lft := (shl32 lft r .| shr lft (28 - r)) .& 0x0fffffff in
      let rgt := (shl32 rgt r .| shr rgt (28 - r)) .& 0x0fffffff in
      subkey_even lft rgt :: subkey_odd lft rgt :: schedule_rounds rot' lft rgt
  end.

Definition des_key_schedule (rawkey : list Z) : option (list Z) :=
  '(lft, rgt) ← READ_64BIT_DATA rawkey;
  let '(rgt, lft) := DO_PERMUTATION rgt lft 4 0x0f0f0f0f in
  let '(rgt, lft) := DO_PERMUTATION rgt lft 0 0x10101010 in
  Some (schedule_rounds encrypt_rotate_tab (swap_left lft) (swap_right rgt)).

(** ** Contexts *)

Record gl_des_ctx := DesCtx { encrypt_subkeys : list Z; decrypt_subkeys : list Z }.

(** [for (i = 0; i < 32; i += 2) dst[i], dst[i+1] = src[30-i], src[31-i]]:
    the pairs of subkeys in reverse order. *)
Fixpoint rev_pairs (src acc : list Z) : list Z :=
  match src with
  | a :: b :: src' => rev_pairs src' (a :: b :: acc)
  | _ => acc
  end.

Definition gl_des_setkey (key : list Z) : option gl_des_ctx :=
  enc ← des_key_schedule key; Some (DesCtx enc (rev_pairs enc [])).

(** The binary search over [weak_keys]; [fuel] bounds the iterations. *)
Fixpoint weak_search (fuel : nat) (work : list Z) (lft rgt : Z) : option bool :=
  if lft <=? rgt then
    match fuel with
    | O => None
    | S fuel' =>
        let middle := (lft + rgt) ÷ 2 in
        row ← weak_keys !! Z.to_nat middle;
        let cmp_result := Libc.memcmp work row 8 in
        if cmp_result =? 0 then Some true
        else if 0 <? cmp_result then weak_search fuel' work (middle + 1) rgt
        else weak_search fuel' work lft (middle - 1)
    end
  else Some false.

Definition gl_des_is_weak_key (key : list Z) : option bool :=
  if (length key <? 8)%nat then None
  else weak_search 64 (map (fun c => c .& 0xfe) (take 8 key)) 0 63.

(** The returned flag and the context. *)
Definition gl_des_makekey (key : list Z) (keylen : Z) (ctx : gl_des_ctx) : option (bool * gl_des_ctx) :=
  if keylen =? 8 then
    ctx ← gl_des_setkey key; weak ← gl_des_is_weak_key key; Some (negb weak, ctx)
  else Some (false, ctx).

(** ** Encryption *)

(** [DES_ROUND (from, to) DES_ROUND (to, from)] repeated: two rounds consume
    four subkeys.  The pair is [(from, to)]. *)
Fixpoint round_pairs (n : nat) (from to : Z) (keys : list Z) : option (Z * Z * list Z) :=
  match n with
  | O => Some (from, to, keys)
  | S n' =>
      match keys with
      | k0 :: k1 :: k2 :: k3 :: keys' =>
          let to := DES_ROUND from to k0 k1 in
          let from := DES_ROUND to from k2 k3 in
          round_pairs n' from to keys'
      | _ => None
      end
  end.

Definition gl_des_ecb_crypt (ctx : gl_des_ctx) (from : list Z) (mode : bool) : option (Z * list Z) :=
  let keys := if mode then decrypt_subkeys ctx else encrypt_subkeys ctx in
  '(lft, rgt) ← READ_64BIT_DATA from;
  let '(lft, rgt) := INITIAL_PERMUTATION lft rgt in
  '(rgt, lft, _) ← round_pairs 8 rgt lft keys;
  let '(rgt, lft) := FINAL_PERMUTATION rgt lft in
  let to := WRITE_64BIT_DATA rgt lft in
  Some (if nth 7 to 0 =? 0 then Z.of_nat (Libc.strlen to) else 8, to).

Definition gl_3des_set2keys (key1 key2 : list Z) : option gl_des_ctx :=
  e0 ← des_key_schedule key1;
  d1 ← des_key_schedule key2;
  let d0 := rev_pairs e0 [] in
  let e1 := rev_pairs d1 [] in
  Some (DesCtx (e0 ++ e1 ++ e0) (d0 ++ d1 ++ d0)).

Definition gl_3des_set3keys (key1 key2 key3 : list Z) : option gl_des_ctx :=
  e0 ← des_key_schedule key1;
  d1 ← des_key_schedule key2;
  e2 ← des_key_schedule key3;
  let d0 := rev_pairs e2 [] in
  let e1 := rev_pairs d1 [] in
  let d2 := rev_pairs e0 [] in
  Some (DesCtx (e0 ++ e1 ++ e2) (d0 ++ d1 ++ d2)).

Definition gl_3des_ecb_crypt (ctx : gl_des_ctx) (from : list Z) (mode : bool) : option (list Z) :=
  let keys := if mode then decrypt_subkeys ctx else encrypt_subkeys ctx in
  '(lft, rgt) ← READ_64BIT_DATA from;
  let '(lft, rgt) := INITIAL_PERMUTATION lft rgt in
  '(rgt, lft, keys) ← round_pairs 8 rgt lft keys;
  '(lft, rgt, keys) ← round_pairs 8 lft rgt keys;
  '(rgt, lft, keys) ← round_pairs 8 rgt lft keys;
  let '(rgt, lft) := FINAL_PERMUTATION rgt lft in
  Some (WRITE_64BIT_DATA rgt lft).

Definition gl_3des_makekey (key : list Z) (keylen : Z) (ctx : gl_des_ctx) : option (bool * gl_des_ctx) :=
  if keylen =? 24 then
    ctx ← gl_3des_set3keys key (drop 8 key) (drop 16 key);
    w1 ← gl_des_is_weak_key key;
    w2 ← gl_des_is_weak_key (drop 8 key);
    w3 ← gl_des_is_weak_key (drop 16 key);
    Some (negb (w1 || w2 || w3), ctx)
  else Some (false, ctx).

(** ** Permutations *)

Lemma lxor_twice a b : Z.lxor (Z.lxor a b) b = a.
Proof. by rewrite Z.lxor_assoc, Z.lxor_nilpotent, Z.lxor_0_r. Qed.

Lemma lxor_cancel_mid a b c : Z.lxor (Z.lxor a c) (Z.lxor b c) = Z.lxor a b.
Proof.
  rewrite (Z.lxor_comm b c), Z.lxor_assoc, <- (Z.lxor_assoc c c b), Z.lxor_nilpotent.
  by rewrite Z.lxor_0_l.
Qed.

Lemma shl32_small x n m : 0 <= n -> 0 <= m -> Z.shiftl m n < 2 ^ 32 ->
  shl32 (Z.land x m) n = Z.shiftl (Z.land x m) n.
Proof.
  intros Hn Hm Hb. apply uwrap_small. rewrite Z.shiftl_land, Z.land_comm.
  apply in_u_land; [lia|]. split; [by apply Z.shiftl_nonneg|done].
Qed.

(** Swapping bits twice is the identity, for a mask that stays in the word. *)
Lemma do_permutation_invol a b offset mask :
  0 <= offset -> 0 <= mask -> Z.shiftl mask offset < 2 ^ 32 ->
  let '(a', b') := DO_PERMUTATION a b offset mask in
  DO_PERMUTATION a' b' offset mask = (a, b).
Proof.
  intros Ho Hm Hb. unfold DO_PERMUTATION, shr. cbv zeta.
  rewrite shl32_small by done. set (temp := Z.land _ mask).
  rewrite Z.shiftr_lxor, Z.shiftr_shiftl_l, Z.sub_diag, Z.shiftl_0_r by done.
  rewrite lxor_cancel_mid. fold temp. unfold temp at 2 4. rewrite shl32_small by done.
  fold temp. by rewrite !lxor_twice.
Qed.

Lemma do_permutation_range a b offset mask :
  0 <= mask < 2 ^ 32 -> in_u 32 a -> in_u 32 b ->
  in_u 32 (fst (DO_PERMUTATION a b offset mask)) /\ in_u 32 (snd (DO_PERMUTATION a b offset mask)).
Proof.
  intros Hm Ha Hb. unfold DO_PERMUTATION. cbn [fst snd]. split.
  - auto with word.
  - apply in_u_lxor; [lia|done|]. rewrite Z.land_comm. by apply in_u_land.
Qed.

Lemma rotate_bits x n i : 0 < n < 32 -> in_u 32 x -> 0 <= i ->
  Z.testbit (Z.lor (shl32 x n) (shr x (32 - n))) i =
  if i <? 32 then Z.testbit x (if i <? n then i + 32 - n else i - n) else false.
Proof.
  intros Hn Hx Hi. unfold shl32, u32, uwrap, shr.
  rewrite Z.lor_spec, Z.shiftr_spec by done.
  assert (HH : forall j, 32 <= j -> Z.testbit x j = false).
  { intros j Hj. destruct Hx as [? Hx]. destruct (Z.eq_dec x 0) as [->|]; [apply Z.bits_0|].
    apply Z.bits_above_log2; [lia|]. apply Z.log2_lt_pow2; [lia|].
    eapply Z.lt_le_trans; [exact Hx|]. apply Z.pow_le_mono_r; lia. }
  destruct (i <? 32) eqn:E; [apply Z.ltb_lt in E|apply Z.ltb_ge in E].
  - rewrite Z.mod_pow2_bits_low, Z.shiftl_spec by lia.
    destruct (i <? n) eqn:E2; [apply Z.ltb_lt in E2|apply Z.ltb_ge in E2].
    + rewrite Z.testbit_neg_r by lia. simpl. f_equal. lia.
    + rewrite (HH (i + (32 - n))) by lia. by rewrite orb_false_r.
  - rewrite Z.mod_pow2_bits_high by lia. simpl. apply HH. lia.
Qed.

Lemma rotate_inverse x n : 0 < n < 32 -> in_u 32 x ->
  let y := Z.lor (shl32 x n) (shr x (32 - n)) in
  Z.lor (shl32 y (32 - n)) (shr y n) = x.
Proof.
  intros Hn Hx y. assert (Hy : in_u 32 y) by (unfold y; auto with word).
  apply Z.bits_inj'. intros i Hi.
  replace (shr y n) with (shr y (32 - (32 - n))) by (f_equal; lia).
  rewrite rotate_bits by (done || lia).
  destruct (i <? 32) eqn:E; [apply Z.ltb_lt in E|apply Z.ltb_ge in E].
  - unfold y. destruct (i <? 32 - n) eqn:E2; [apply Z.ltb_lt in E2|apply Z.ltb_ge in E2];
      rewrite rotate_bits by (done || lia).
    + rewrite (proj2 (Z.ltb_lt _ _)), (proj2 (Z.ltb_ge _ _)) by lia. f_equal. lia.
    + rewrite (proj2 (Z.ltb_lt _ _)), (proj2 (Z.ltb_lt _ _)) by lia. f_equal. lia.
  - symmetry. destruct (proj1 (in_u_shiftr 32 x ltac:(lia)) Hx) as [_ Hs].
    replace i with ((i - 32) + 32) by lia. rewrite <- Z.shiftr_spec by lia.
    by rewrite Hs, Z.bits_0.
Qed.

Lemma do_permutation_inv a b a' b' offset mask :
  0 <= offset -> 0 <= mask -> Z.shiftl mask offset < 2 ^ 32 ->
  DO_PERMUTATION a b offset mask = (a', b') -> DO_PERMUTATION a' b' offset mask = (a, b).
Proof.
  intros H1 H2 H3 E. pose proof (do_permutation_invol a b offset mask H1 H2 H3) as I.
  by rewrite E in I.
Qed.

Lemma do_permutation_in a b a' b' offset mask :
  0 <= mask < 2 ^ 32 -> DO_PERMUTATION a b offset mask = (a', b') ->
  in_u 32 a -> in_u 32 b -> in_u 32 a' /\ in_u 32 b'.
Proof.
  intros H1 E Ha Hb. pose proof (do_permutation_range a b offset mask H1 Ha Hb) as R.
  by rewrite E in R.
Qed.

(** Introduce the result of the next bit swap, with its range and inverse. *)
Ltac step_perm a b :=
  match goal with |- context [DO_PERMUTATION a b ?o ?m] =>
    let a' := fresh "a" in let b' := fresh "b" in let E := fresh "E" in
    let R := fresh "R" in let Ra := fresh "Ra" in let Rb := fresh "Rb" in
    destruct (DO_PERMUTATION a b o m) as [a' b'] eqn:E;
    destruct (do_permutation_in a b a' b' o m ltac:(lia) E ltac:(assumption) ltac:(assumption))
      as [Ra Rb];
    apply do_permutation_inv in E; [|lia..|vm_compute; reflexivity]
  end.

Lemma rol_ror x : in_u 32 x ->
  let y := Z.lor (shl32 x 31) (shr x 1) in Z.lor (shl32 y 1) (shr y 31) = x.
Proof. intros H. exact (rotate_inverse x 31 ltac:(lia) H). Qed.
Lemma ror_rol x : in_u 32 x ->
  let y := Z.lor (shl32 x 1) (shr x 31) in Z.lor (shl32 y 31) (shr y 1) = x.
Proof. intros H. exact (rotate_inverse x 1 ltac:(lia) H). Qed.

Lemma in_u_land_r a m : in_u 32 m -> in_u 32 (Z.land a m).
Proof. rewrite Z.land_comm. apply in_u_land. lia. Qed.

Lemma initial_final l r : in_u 32 l -> in_u 32 r ->
  let '(l', r') := FINAL_PERMUTATION l r in INITIAL_PERMUTATION l' r' = (l, r).
Proof.
  intros Hl Hr. unfold FINAL_PERMUTATION. cbv zeta.
  set (l1 := Z.lor (shl32 l 31) (shr l 1)). assert (H1 : in_u 32 l1) by (unfold l1; auto with word).
  set (temp := Z.land (Z.lxor l1 r) 0xaaaaaaaa).
  assert (Ht : in_u 32 temp) by (apply in_u_land_r; by_decide).
  set (l2 := Z.lxor l1 temp). assert (H2 : in_u 32 l2) by (unfold l2; auto with word).
  set (r1 := Z.lxor r temp). assert (H3 : in_u 32 r1) by (unfold r1; auto with word).
  set (r2 := Z.lor (shl32 r1 31) (shr r1 1)). assert (H4 : in_u 32 r2) by (unfold r2; auto with word).
  step_perm r2 l2. step_perm a b. step_perm b0 a0. step_perm a1 b1.
  unfold INITIAL_PERMUTATION. rewrite E2, E1, E0, E. cbv zeta.
  assert (ER : Z.lor (shl32 r2 1) (shr r2 31) = r1) by (unfold r2; by apply rol_ror).
  rewrite !ER.
  replace (Z.land (Z.lxor l2 r1) 0xaaaaaaaa) with temp
    by (unfold l2, r1; by rewrite lxor_cancel_mid).
  unfold l2, r1. rewrite !lxor_twice. unfold l1. by rewrite rol_ror.
Qed.

Lemma final_initial l r : in_u 32 l -> in_u 32 r ->
  let '(l', r') := INITIAL_PERMUTATION l r in FINAL_PERMUTATION l' r' = (l, r).
Proof.
  intros Hl Hr. unfold INITIAL_PERMUTATION.
  step_perm l r. step_perm a b. step_perm b0 a0. step_perm a1 b1. cbv zeta.
  set (r1 := Z.lor (shl32 a2 1) (shr a2 31)). assert (H1 : in_u 32 r1) by (unfold r1; auto with word).
  set (temp := Z.land (Z.lxor b2 r1) 0xaaaaaaaa).
  assert (Ht : in_u 32 temp) by (apply in_u_land_r; by_decide).
  set (l2 := Z.lxor b2 temp). assert (H2 : in_u 32 l2) by (unfold l2; auto with word).
  set (r2 := Z.lxor r1 temp).
  set (l3 := Z.lor (shl32 l2 1) (shr l2 31)).
  assert (EL : Z.lor (shl32 l3 31) (shr l3 1) = l2) by (unfold l3; by apply ror_rol).
  unfold FINAL_PERMUTATION. cbv zeta. rewrite !EL.
  replace (Z.land (Z.lxor l2 r2) 0xaaaaaaaa) with temp
    by (unfold l2, r2; by rewrite lxor_cancel_mid).
  unfold l2, r2. rewrite !lxor_twice. unfold r1. rewrite !ror_rol by done.
  by rewrite E2, E1, E0, E.
Qed.

Lemma initial_range l r : in_u 32 l -> in_u 32 r ->
  let '(l', r') := INITIAL_PERMUTATION l r in in_u 32 l' /\ in_u 32 r'.
Proof.
  intros Hl Hr. unfold INITIAL_PERMUTATION.
  step_perm l r. step_perm a b. step_perm b0 a0. step_perm a1 b1. cbv zeta.
  assert (forall x, in_u 32 (Z.land x 0xaaaaaaaa))
    by (intros; apply in_u_land_r; by_decide).
  split; auto 8 with word.
Qed.

Lemma final_range l r : in_u 32 l -> in_u 32 r ->
  let '(l', r') := FINAL_PERMUTATION l r in in_u 32 l' /\ in_u 32 r'.
Proof.
  intros Hl Hr. unfold FINAL_PERMUTATION. cbv zeta.
  set (l1 := Z.lor (shl32 l 31) (shr l 1)). assert (H1 : in_u 32 l1) by (unfold l1; auto with word).
  set (temp := Z.land (Z.lxor l1 r) 0xaaaaaaaa).
  assert (Ht : in_u 32 temp) by (apply in_u_land_r; by_decide).
  set (l2 := Z.lxor l1 temp). assert (H2 : in_u 32 l2) by (unfold l2; auto with word).
  set (r1 := Z.lxor r temp). assert (H3 : in_u 32 r1) by (unfold r1; auto with word).
  set (r2 := Z.lor (shl32 r1 31) (shr r1 1)). assert (H4 : in_u 32 r2) by (unfold r2; auto with word).
  step_perm r2 l2. step_perm a b. step_perm b0 a0. step_perm a1 b1. done.
Qed.

(** ** Rounds *)

Lemma tab_range t i : Forall (in_u 32) t -> in_u 32 (tab t i).
Proof.
  intros H. unfold tab. destruct (nth_in_or_default (Z.to_nat i) t 0) as [I| ->]; [|by_decide].
  rewrite Forall_forall in H. apply H. by apply list_elem_of_In.
Qed.

(** What a round adds to the word it updates. *)
Definition round_fn (from k0 k1 : Z) : Z := DES_ROUND from 0 k0 k1.

Lemma des_round_xor from to k0 k1 : DES_ROUND from to k0 k1 = Z.lxor to (round_fn from k0 k1).
Proof. unfold round_fn, DES_ROUND. cbv zeta. rewrite Z.lxor_0_l, !Z.lxor_assoc. done. Qed.

Lemma round_fn_range from k0 k1 : in_u 32 (round_fn from k0 k1).
Proof.
  unfold round_fn, DES_ROUND. cbv zeta.
  repeat (apply in_u_lxor; [lia| |apply tab_range; by_decide]). by_decide.
Qed.

Lemma des_round_range from to k0 k1 : in_u 32 to -> in_u 32 (DES_ROUND from to k0 k1).
Proof. intros. rewrite des_round_xor. auto using round_fn_range with word. Qed.

Lemma des_round_twice from to k0 k1 : DES_ROUND from (DES_ROUND from to k0 k1) k0 k1 = to.
Proof. rewrite !des_round_xor. apply lxor_twice. Qed.

Lemma round_pairs_total n from to keys :
  length keys = (4 * n)%nat -> in_u 32 from -> in_u 32 to ->
  exists f t, round_pairs n from to keys = Some (f, t, []) /\ in_u 32 f /\ in_u 32 t.
Proof.
  revert from to keys. induction n as [|n IH]; intros from to keys L Hf Ht.
  - destruct keys; [|done]. eauto.
  - destruct keys as [|k0 [|k1 [|k2 [|k3 keys]]]]; simpl in L; try lia. cbn [round_pairs].
    apply IH; [lia|..]; auto using des_round_range.
Qed.

Lemma round_pairs_app n from to keys rest f t :
  round_pairs n from to keys = Some (f, t, []) ->
  round_pairs n from to (keys ++ rest) = Some (f, t, rest).
Proof.
  revert from to keys. induction n as [|n IH]; intros from to keys E; cbn [round_pairs] in *.
  - by simplify_eq.
  - destruct keys as [|k0 [|k1 [|k2 [|k3 keys]]]]; try done. simpl. by apply IH.
Qed.

(** The last two rounds come last. *)
Lemma round_pairs_snoc n from to keys k0 k1 k2 k3 f t :
  round_pairs n from to keys = Some (f, t, []) ->
  round_pairs (S n) from to (keys ++ [k0; k1; k2; k3]) =
    (let t' := DES_ROUND f t k0 k1 in Some (DES_ROUND t' f k2 k3, t', [])).
Proof.
  revert from to keys. induction n as [|n IH]; intros from to keys E.
  - cbn [round_pairs] in E. simplify_eq. done.
  - destruct keys as [|k0' [|k1' [|k2' [|k3' keys]]]]; try done.
    cbn [round_pairs] in E. cbn [app]. cbn [round_pairs]. by apply IH.
Qed.

Lemma rev_pairs_app src acc : rev_pairs src acc = rev_pairs src [] ++ acc.
Proof.
  revert acc. induction src as [| |a b src IH] using list_ind2; intros acc; [done..|].
  cbn [rev_pairs]. rewrite IH, (IH [a; b]), <- app_assoc. done.
Qed.

Lemma rev_pairs_cons a b src : rev_pairs (a :: b :: src) [] = rev_pairs src [] ++ [a; b].
Proof. cbn [rev_pairs]. apply rev_pairs_app. Qed.

Lemma rev_pairs_snoc a b src : Nat.Even (length src) ->
  rev_pairs (src ++ [a; b]) [] = a :: b :: rev_pairs src [].
Proof.
  induction src as [|c|c d src IH] using list_ind2; intros [k Hk]; [done|simpl in Hk; lia|].
  rewrite rev_pairs_cons. cbn [app]. rewrite rev_pairs_cons, IH; [done|].
  exists (k - 1)%nat. simpl in Hk. lia.
Qed.

Lemma rev_pairs_length src : Nat.Even (length src) -> length (rev_pairs src []) = length src.
Proof.
  induction src as [|c|c d src IH] using list_ind2; intros [k Hk]; [done|simpl in Hk; lia|].
  rewrite rev_pairs_cons, length_app, IH; [simpl; lia|]. exists (k - 1)%nat. simpl in Hk. lia.
Qed.

Lemma rev_pairs_involutive src : Nat.Even (length src) -> rev_pairs (rev_pairs src []) [] = src.
Proof.
  induction src as [|c|c d src IH] using list_ind2; intros [k Hk]; [done|simpl in Hk; lia|].
  assert (Nat.Even (length src)) by (exists (k - 1)%nat; simpl in Hk; lia).
  rewrite rev_pairs_cons, rev_pairs_snoc, IH; [done..|]. by rewrite rev_pairs_length.
Qed.

(** The rounds run backwards with the subkeys in reverse order. *)
Lemma round_pairs_inverse n from to keys f t :
  round_pairs n from to keys = Some (f, t, []) ->
  round_pairs n t f (rev_pairs keys []) = Some (to, from, []).
Proof.
  revert from to keys. induction n as [|n IH]; intros from to keys E.
  { cbn [round_pairs] in E. by simplify_eq. }
  destruct keys as [|k0 [|k1 [|k2 [|k3 keys]]]]; try done. cbn [round_pairs] in E.
  apply IH in E. rewrite !rev_pairs_cons, <- app_assoc. cbn [app].
  rewrite (round_pairs_snoc _ _ _ _ _ _ _ _ _ _ E). cbv zeta. by rewrite !des_round_twice.
Qed.

(** ** Bytes and words *)

Definition byte (b : Z) : Prop := 0 <= b < 256.
#[global] Instance byte_dec b : Decision (byte b).
Proof. unfold byte. apply _. Defined.

Lemma read_word_sum d0 d1 d2 d3 : byte d0 -> byte d1 -> byte d2 -> byte d3 ->
  READ_WORD d0 d1 d2 d3 = d0 * 2 ^ 24 + d1 * 2 ^ 16 + d2 * 2 ^ 8 + d3.
Proof.
  unfold byte. intros H0 H1 H2 H3. unfold READ_WORD. rewrite <- !Z.lor_assoc.
  rewrite (lor_shift_add d2 d3 8) by lia. rewrite (lor_shift_add d1 _ 16) by lia.
  rewrite (lor_shift_add d0 _ 24) by lia. unfold u32. rewrite uwrap_small by (unfold in_u; lia). lia.
Qed.

Lemma byte_of_word w n : 0 <= n -> Z.land (shr w n) 0xff = (w / 2 ^ n) mod 256.
Proof.
  intros Hn. unfold shr. change 0xff with (Z.ones 8).
  rewrite Z.land_ones, Z.shiftr_div_pow2 by lia. done.
Qed.

Lemma low_byte w : Z.land w 0xff = w mod 256.
Proof. change 0xff with (Z.ones 8). by rewrite Z.land_ones by lia. Qed.

Lemma word_of_bytes w : in_u 32 w ->
  READ_WORD (shr w 24 .& 0xff) (shr w 16 .& 0xff) (shr w 8 .& 0xff) (w .& 0xff) = w.
Proof.
  intros [H1 H2]. rewrite !byte_of_word, low_byte by lia.
  rewrite read_word_sum by (apply Z.mod_pos_bound; lia).
  change (2 ^ 24) with 16777216. change (2 ^ 16) with 65536. change (2 ^ 8) with 256.
  change (2 ^ 32) with 4294967296 in H2.
  Z.to_euclidean_division_equations. lia.
Qed.

Lemma bytes_of_words d0 d1 d2 d3 d4 d5 d6 d7 :
  Forall byte [d0; d1; d2; d3; d4; d5; d6; d7] ->
  WRITE_64BIT_DATA (READ_WORD d0 d1 d2 d3) (READ_WORD d4 d5 d6 d7) = [d0; d1; d2; d3; d4; d5; d6; d7].
Proof.
  intros H. repeat (apply Forall_cons_1 in H as [? H]).
  unfold WRITE_64BIT_DATA. rewrite !byte_of_word, !low_byte by lia.
  rewrite !read_word_sum by done. unfold byte in *.
  change (2 ^ 24) with 16777216. change (2 ^ 16) with 65536. change (2 ^ 8) with 256.
  repeat f_equal; Z.to_euclidean_division_equations; lia.
Qed.

Lemma read_write l r : in_u 32 l -> in_u 32 r ->
  READ_64BIT_DATA (WRITE_64BIT_DATA l r) = Some (l, r).
Proof. intros Hl Hr. unfold WRITE_64BIT_DATA, READ_64BIT_DATA. by rewrite !word_of_bytes. Qed.

Lemma write_read data : length data = 8%nat -> Forall byte data ->
  exists l r, READ_64BIT_DATA data = Some (l, r) /\ in_u 32 l /\ in_u 32 r /\
    WRITE_64BIT_DATA l r = data.
Proof.
  intros L H. do 8 (destruct data as [|? data]; [discriminate L|]). destruct data; [|discriminate L].
  eexists _, _. split; [reflexivity|]. split_and!; [apply uwrap_range; lia..|].
  by apply bytes_of_words.
Qed.

Lemma schedule_rounds_length rot l r : length (schedule_rounds rot l r) = (2 * length rot)%nat.
Proof. revert l r. induction rot as [|x rot IH]; intros l r; [done|]. simpl. rewrite IH. lia. Qed.

Lemma des_key_schedule_ok key : (8 <= length key)%nat ->
  exists ks, des_key_schedule key = Some ks /\ length ks = 32%nat.
Proof.
  intros L. do 8 (destruct key as [|? key]; [simpl in L; lia|]).
  unfold des_key_schedule. cbn [READ_64BIT_DATA mbind option_bind].
  destruct (DO_PERMUTATION _ _ 4 _) as [a b]. destruct (DO_PERMUTATION _ _ 0 _) as [c d].
  eexists. split; [reflexivity|]. by rewrite schedule_rounds_length.
Qed.

(** A block encrypted with subkeys [ks] and decrypted with [ks] reversed. *)
Lemma block_inverse ks l r : length ks = 32%nat -> in_u 32 l -> in_u 32 r ->
  exists a b c d,
    (let '(l1, r1) := INITIAL_PERMUTATION l r in round_pairs 8 r1 l1 ks = Some (a, b, [])) /\
    FINAL_PERMUTATION a b = (c, d) /\ in_u 32 c /\ in_u 32 d /\
    (let '(l2, r2) := INITIAL_PERMUTATION c d in
     exists e f, round_pairs 8 r2 l2 (rev_pairs ks []) = Some (e, f, []) /\
       FINAL_PERMUTATION e f = (l, r)).
Proof.
  intros L Hl Hr. pose proof (final_initial l r Hl Hr) as FI. pose proof (initial_range l r Hl Hr) as R1.
  destruct (INITIAL_PERMUTATION l r) as [l1 r1]. destruct R1 as [Rl Rr].
  destruct (round_pairs_total 8 r1 l1 ks) as (a & b & E & Ha & Hb); [lia|done..|].
  pose proof (initial_final a b Ha Hb) as IF. pose proof (final_range a b Ha Hb) as R2.
  destruct (FINAL_PERMUTATION a b) as [c d] eqn:F. destruct R2 as [Hc Hd].
  exists a, b, c, d. split_and!; try done. rewrite IF. exists l1, r1.
  split; [by apply round_pairs_inverse|done].
Qed.

(** C29. DES decrypts what it encrypted: for every 8-byte key and block, with
    the context that [gl_des_setkey] prepares. *)
Theorem des_decrypt_encrypt key block :
  (8 <= length key)%nat -> length block = 8%nat -> Forall byte block ->
  exists ctx c n m,
    gl_des_setkey key = Some ctx /\
    gl_des_ecb_crypt ctx block false = Some (n, c) /\ gl_des_ecb_crypt ctx c true = Some (m, block).
Proof.
  intros LK LB HB. destruct (des_key_schedule_ok key LK) as (ks & EK & Lks).
  destruct (write_read block LB HB) as (l & r & ER & Hl & Hr & EW).
  destruct (block_inverse ks l r Lks Hl Hr) as (a & b & c & d & E1 & F1 & Hc & Hd & E2).
  unfold gl_des_setkey. rewrite EK. cbn [mbind option_bind].
  unfold gl_des_ecb_crypt. cbn [encrypt_subkeys decrypt_subkeys].
  eexists _, _, _, _. split; [reflexivity|]. rewrite ER. cbn [mbind option_bind].
  destruct (INITIAL_PERMUTATION l r) as [l1 r1]. cbn [encrypt_subkeys decrypt_subkeys].
  rewrite E1. cbn [mbind option_bind]. rewrite F1. split; [reflexivity|].
  rewrite read_write by done. cbn [mbind option_bind].
  destruct (INITIAL_PERMUTATION c d) as [l2 r2]. destruct E2 as (e & f & E2 & F2).
  rewrite E2. cbn [mbind option_bind]. rewrite F2, EW. reflexivity.
Qed.

Lemma des_decrypt_encrypt_witness :
  let key := [0x13; 0x34; 0x57; 0x79; 0x9b; 0xbc; 0xdf; 0xf1] in
  let block := [0x01; 0x23; 0x45; 0x67; 0x89; 0xab; 0xcd; 0xef] in
  exists ctx c n m,
    gl_des_setkey key = Some ctx /\
    gl_des_ecb_crypt ctx block false = Some (n, c) /\ gl_des_ecb_crypt ctx c true = Some (m, block).
Proof.
  intros key block. apply (des_decrypt_encrypt key block); [simpl; lia|done|by_decide].
Defined.

(** Three stages, the halves changing roles between them. *)
Lemma triple_inverse e0 d1 e2 f t :
  length e0 = 32%nat -> length d1 = 32%nat -> length e2 = 32%nat -> in_u 32 f -> in_u 32 t ->
  exists f1 t1 f2 t2 f3 t3,
    round_pairs 8 f t (e0 ++ rev_pairs d1 [] ++ e2) = Some (f1, t1, rev_pairs d1 [] ++ e2) /\
    round_pairs 8 t1 f1 (rev_pairs d1 [] ++ e2) = Some (f2, t2, e2) /\
    round_pairs 8 t2 f2 e2 = Some (f3, t3, []) /\ in_u 32 f3 /\ in_u 32 t3 /\
    round_pairs 8 t3 f3 (rev_pairs e2 [] ++ d1 ++ rev_pairs e0 []) =
      Some (f2, t2, d1 ++ rev_pairs e0 []) /\
    round_pairs 8 t2 f2 (d1 ++ rev_pairs e0 []) = Some (f1, t1, rev_pairs e0 []) /\
    round_pairs 8 t1 f1 (rev_pairs e0 []) = Some (t, f, []).
Proof.
  intros L0 L1 L2 Hf Ht.
  assert (Ev : Nat.Even (length d1)) by (rewrite L1; exists 16%nat; done).
  destruct (round_pairs_total 8 f t e0) as (f1 & t1 & E1 & H1 & H1'); [lia|done..|].
  destruct (round_pairs_total 8 t1 f1 (rev_pairs d1 [])) as (f2 & t2 & E2 & H2 & H2');
    [rewrite rev_pairs_length by done; lia|done..|].
  destruct (round_pairs_total 8 t2 f2 e2) as (f3 & t3 & E3 & H3 & H3'); [lia|done..|].
  exists f1, t1, f2, t2, f3, t3. split_and!; try done; try (by apply round_pairs_app).
  - apply round_pairs_app. by apply round_pairs_inverse.
  - apply round_pairs_app. apply round_pairs_inverse in E2. by rewrite rev_pairs_involutive in E2.
  - by apply round_pairs_inverse.
Qed.

(** Any context whose decryption subkeys are the three schedules backwards. *)
Lemma triple_des_inverse e0 d1 e2 block :
  length e0 = 32%nat -> length d1 = 32%nat -> length e2 = 32%nat ->
  length block = 8%nat -> Forall byte block ->
  let ctx := DesCtx (e0 ++ rev_pairs d1 [] ++ e2) (rev_pairs e2 [] ++ d1 ++ rev_pairs e0 []) in
  exists c, gl_3des_ecb_crypt ctx block false = Some c /\ gl_3des_ecb_crypt ctx c true = Some block.
Proof.
  intros L0 L1 L2 LB HB ctx. destruct (write_read block LB HB) as (l & r & ER & Hl & Hr & EW).
  pose proof (final_initial l r Hl Hr) as FI. pose proof (initial_range l r Hl Hr) as RI.
  unfold gl_3des_ecb_crypt, ctx. cbn [encrypt_subkeys decrypt_subkeys].
  rewrite ER. cbn [mbind option_bind]. destruct (INITIAL_PERMUTATION l r) as [l1 r1].
  destruct RI as [Rl Rr].
  destruct (triple_inverse e0 d1 e2 r1 l1) as (f1 & t1 & f2 & t2 & f3 & t3 & E1 & E2 & E3 & H1 & H2 & D1 & D2 & D3);
    [done..|].
  rewrite E1. cbn [mbind option_bind]. rewrite E2. cbn [mbind option_bind].
  rewrite E3. cbn [mbind option_bind].
  pose proof (initial_final f3 t3 H1 H2) as IF. pose proof (final_range f3 t3 H1 H2) as RF.
  destruct (FINAL_PERMUTATION f3 t3) as [c d]. destruct RF as [Hc Hd].
  eexists. split; [reflexivity|]. rewrite read_write by done. cbn [mbind option_bind].
  rewrite IF, D1. cbn [mbind option_bind]. rewrite D2. cbn [mbind option_bind].
  rewrite D3. cbn [mbind option_bind]. by rewrite FI, EW.
Qed.

(** Triple DES decrypts what it encrypted, in both keying options: two
    keys and three keys. *)
Theorem triple_des_decrypt_encrypt key1 key2 key3 block :
  (8 <= length key1)%nat -> (8 <= length key2)%nat -> (8 <= length key3)%nat ->
  length block = 8%nat -> Forall byte block ->
  (exists ctx c, gl_3des_set3keys key1 key2 key3 = Some ctx /\
     gl_3des_ecb_crypt ctx block false = Some c /\ gl_3des_ecb_crypt ctx c true = Some block) /\
  (exists ctx c, gl_3des_set2keys key1 key2 = Some ctx /\
     gl_3des_ecb_crypt ctx block false = Some c /\ gl_3des_ecb_crypt ctx c true = Some block).
Proof.
  intros L1 L2 L3 LB HB.
  destruct (des_key_schedule_ok key1 L1) as (k1 & E1 & N1).
  destruct (des_key_schedule_ok key2 L2) as (k2 & E2 & N2).
  destruct (des_key_schedule_ok key3 L3) as (k3 & E3 & N3).
  unfold gl_3des_set3keys, gl_3des_set2keys. rewrite E1, E2, E3. cbn [mbind option_bind]. split.
  - destruct (triple_des_inverse k1 k2 k3 block N1 N2 N3 LB HB) as (c & D). eexists _, c. eauto.
  - destruct (triple_des_inverse k1 k2 k1 block N1 N2 N1 LB HB) as (c & D). eexists _, c. eauto.
Qed.

Lemma triple_des_decrypt_encrypt_witness :
  let k := [1; 2; 3; 4; 5; 6; 7; 8] in
  (exists ctx c, gl_3des_set3keys k (rev k) k = Some ctx /\
     gl_3des_ecb_crypt ctx k false = Some c /\ gl_3des_ecb_crypt ctx c true = Some k) /\
  (exists ctx c, gl_3des_set2keys k (rev k) = Some ctx /\
     gl_3des_ecb_crypt ctx k false = Some c /\ gl_3des_ecb_crypt ctx c true = Some k).
Proof.
  intros k. apply (triple_des_decrypt_encrypt k (rev k) k k); simpl; try lia. by_decide.
Defined.

(** ** Weak keys *)

Fixpoint be (acc : Z) (l : list Z) : Z :=
  match l with [] => acc | b :: l' => be (acc * 256 + b) l' end.

Lemma be_bounds l acc : Forall byte l ->
  acc * 256 ^ Z.of_nat (length l) <= be acc l < (acc + 1) * 256 ^ Z.of_nat (length l).
Proof.
  revert acc. induction l as [|b l IH]; intros acc H; cbn [be length].
  - rewrite Z.pow_0_r. lia.
  - apply Forall_cons_1 in H as [Hb H]. unfold byte in Hb. specialize (IH (acc * 256 + b) H).
    replace (Z.of_nat (S (length l))) with (Z.succ (Z.of_nat (length l))) by lia.
    rewrite Z.pow_succ_r by lia. assert (0 < 256 ^ Z.of_nat (length l)) by (apply Z.pow_pos_nonneg; lia).
    nia.
Qed.

(** [memcmp] orders equally long byte strings as big-endian numbers. *)
Lemma memcmp_be n s1 s2 acc :
  length s1 = n -> length s2 = n -> Forall byte s1 -> Forall byte s2 ->
  (Libc.memcmp s1 s2 n = 0 <-> s1 = s2) /\
  (0 < Libc.memcmp s1 s2 n <-> be acc s2 < be acc s1).
Proof.
  intros L1 L2 H1 H2. split; [by apply Libc.memcmp_eq|].
  revert s1 s2 acc L1 L2 H1 H2. induction n as [|n IH]; intros [|a s1] [|b s2] acc L1 L2 H1 H2;
    try discriminate; cbn [Libc.memcmp be hd tl]; [simpl; lia|].
  apply Forall_cons_1 in H1 as [Ha H1]. apply Forall_cons_1 in H2 as [Hb H2].
  simpl in L1, L2. destruct (Z.eqb_spec a b) as [->|Hne].
  - apply IH; auto; lia.
  - pose proof (be_bounds s1 (acc * 256 + a) H1). pose proof (be_bounds s2 (acc * 256 + b) H2).
    replace (length s2) with (length s1) in * by lia.
    assert (0 < 256 ^ Z.of_nat (length s1)) by (apply Z.pow_pos_nonneg; lia). nia.
Qed.

Fixpoint increasing (l : list Z) : bool :=
  match l with
  | a :: (b :: _) as l' => (a <? b) && increasing l'
  | _ => true
  end.

Lemma increasing_lookup l i j a b :
  increasing l = true -> l !! i = Some a -> l !! j = Some b -> (i < j)%nat -> a < b.
Proof.
  revert i j a b. induction l as [|x l IH]; intros i j a b H Hi Hj Hij; [done|].
  destruct l as [|y l]; [destruct i, j; simplify_eq/=; try lia; by destruct j|].
  cbn [increasing] in H. apply andb_prop in H as [H1 H2]. apply Z.ltb_lt in H1.
  destruct i as [|i], j as [|j]; simplify_eq/=; try lia.
  - destruct j as [|j]; simplify_eq/=; [done|].
    pose proof (IH 0%nat (S j) y b H2 eq_refl Hj). lia.
  - apply (IH i j); auto. lia.
Qed.

Lemma weak_row i row : weak_keys !! i = Some row -> length row = 8%nat /\ Forall byte row.
Proof.
  intros E. assert (F : Forall (fun r => length r = 8%nat /\ Forall byte r) weak_keys) by by_decide.
  exact (Forall_lookup_1 _ _ _ _ F E).
Qed.

Lemma weak_rows_increasing i j r1 r2 :
  weak_keys !! i = Some r1 -> weak_keys !! j = Some r2 -> (i < j)%nat -> be 0 r1 < be 0 r2.
Proof.
  intros H1 H2. apply (increasing_lookup (be 0 <$> weak_keys) i j).
  - vm_compute. reflexivity.
  - by rewrite list_lookup_fmap, H1.
  - by rewrite list_lookup_fmap, H2.
Qed.

Lemma weak_search_spec fuel work lft rgt :
  length work = 8%nat -> Forall byte work -> 0 <= lft -> rgt < 64 -> rgt - lft < Z.of_nat fuel ->
  exists b, weak_search fuel work lft rgt = Some b /\
    (b = true <-> exists i, lft <= i <= rgt /\ weak_keys !! Z.to_nat i = Some work).
Proof.
  intros LW HW. revert lft rgt. induction fuel as [|fuel IH]; intros lft rgt Hl Hr HF;
    cbn [weak_search]; destruct (lft <=? rgt) eqn:E;
    [apply Z.leb_le in E; lia|apply Z.leb_gt in E|apply Z.leb_le in E|apply Z.leb_gt in E];
    try (exists false; split; [done|]; split; [done|]; intros (i & ? & _); lia).
  rewrite Z.quot_div_nonneg by lia. set (mid := (lft + rgt) / 2).
  assert (Hm : lft <= mid <= rgt) by (unfold mid; Z.to_euclidean_division_equations; lia).
  destruct (lookup_lt_is_Some_2 weak_keys (Z.to_nat mid)) as [row Er]; [simpl; lia|].
  rewrite Er. cbn [mbind option_bind]. destruct (weak_row _ _ Er) as [LR HR].
  destruct (memcmp_be 8 work row 0 LW LR HW HR) as [C1 C2].
  destruct (Libc.memcmp work row 8 =? 0) eqn:Q; [apply Z.eqb_eq, C1 in Q|apply Z.eqb_neq in Q].
  { exists true. split; [done|]. split; [|done]. intros _. exists mid. subst. done. }
  assert (Hdiff : forall i, weak_keys !! Z.to_nat i = Some work -> 0 <= i -> i <> mid).
  { intros i Hi ? ->. rewrite Er in Hi. simplify_eq. tauto. }
  destruct (0 <? Libc.memcmp work row 8) eqn:Q2; [apply Z.ltb_lt, C2 in Q2|apply Z.ltb_ge in Q2].
  - destruct (IH (mid + 1) rgt ltac:(lia) ltac:(lia) ltac:(lia)) as (b & Eb & Hb).
    exists b. split; [done|]. rewrite Hb. split; intros (i & Hi & Ei); exists i; [split; [lia|done]|].
    split; [|done]. destruct (Z.lt_ge_cases mid i); [lia|].
    pose proof (Hdiff i Ei ltac:(lia)).
    pose proof (weak_rows_increasing _ _ _ _ Ei Er ltac:(lia)). lia.
  - destruct (IH lft (mid - 1) ltac:(lia) ltac:(lia) ltac:(lia)) as (b & Eb & Hb).
    exists b. split; [done|]. rewrite Hb. split; intros (i & Hi & Ei); exists i; [split; [lia|done]|].
    split; [|done]. destruct (Z.lt_ge_cases i mid); [lia|].
    pose proof (Hdiff i Ei ltac:(lia)).
    pose proof (weak_rows_increasing _ _ _ _ Er Ei ltac:(lia)). lia.
Qed.

(** The binary search of [gl_des_is_weak_key] terminates and decides
    membership: a key is reported weak exactly when, its parity bits cleared,
    it is one of the 64 keys of the table. *)
Theorem weak_key_membership key :
  (8 <= length key)%nat -> Forall byte key ->
  exists b, gl_des_is_weak_key key = Some b /\
    (b = true <-> map (fun c => Z.land c 0xfe) (take 8 key) ∈ weak_keys).
Proof.
  intros LK HK. unfold gl_des_is_weak_key.
  destruct (length key <? 8)%nat eqn:E; [apply Nat.ltb_lt in E; lia|].
  destruct (weak_search_spec 64 (map (fun c => Z.land c 0xfe) (take 8 key)) 0 63)
    as (b & Eb & Hb); [| |lia..|].
  - rewrite length_map, length_take. lia.
  - apply Forall_fmap. apply Forall_take. eapply Forall_impl; [exact HK|].
    intros c Hc. unfold byte in *. apply (in_u_land 8 c 0xfe); [lia|exact Hc].
  - exists b. split; [done|]. rewrite Hb, list_elem_of_lookup. split.
    + intros (i & _ & Ei). eauto.
    + intros (i & Ei). exists (Z.of_nat i). rewrite Nat2Z.id. split; [|done].
      apply lookup_lt_Some in Ei. simpl in Ei. lia.
Qed.

Lemma weak_key_membership_witness :
  let key := [0x1f; 0x1f; 0x1f; 0x1f; 0x0e; 0x0f; 0x0e; 0x0f] in
  exists b, gl_des_is_weak_key key = Some b /\
    (b = true <-> map (fun c => Z.land c 0xfe) (take 8 key) ∈ weak_keys).
Proof. intros key. apply (weak_key_membership key); [simpl; lia|by_decide]. Defined.

End Des.
