(* ===== verification/Hashtable.v ===== *)
(** * Chained hash tables: src/core/dfs_hashtable.[ch]

    The table is intrusive: objects embed a [dfs_hashtable_link_t], and each
    bucket is a singly linked list of them.  The first part models the code
    on a store of links; [rep] relates the store to the list of the links of
    each bucket, and the operations are shown to implement the operations of
    [Table], the list-level view the indexes of the namenode are built on. *)

From Stdlib Require Import ZArith Lia Bool String.
From stdpp Require Import base numbers strings gmap option list.
From S2P Require Import Prelude Libc CString Mem.

Module Hashtable.

(** ** Hash functions

    A key is the bytes from its address to the end of its object, so that
    reading past the key's length reads what follows it. *)

(** A [char] read as a [size_t]. *)
Definition char_val (c : Z) : Z := u64 (if c <? 128 then c else c - 256).

Definition DFS_HASH4 (ret c : Z) : Z := u64 (u64 (Z.shiftl ret 5) + ret + char_val c).

Fixpoint hash4_bytes (n : nat) (ret : Z) (key : list Z) : option Z :=
  match n with
  | O => Some ret
  | S n' => match key with [] => None | c :: key' => hash4_bytes n' (DFS_HASH4 ret c) key' end
  end.

Definition dfs_hashtable_hash_hash4 (key : list Z) (data_size hashtable_size : Z) : option Z :=
  let loop := Z.shiftr data_size 3 in
  let first := if Z.land data_size 7 =? 0 then 0 else 1 in
  ret ← hash4_bytes (Z.to_nat (first + 8 * loop)) 0 key;
  Some (ret mod hashtable_size).

(** [n] is the running value and [i] the number of words still to read. *)
Fixpoint key8_words (i : nat) (bnum n : Z) (s : list Z) : option Z :=
  match i with
  | O => Some n
  | S i' =>
      if (length s <? 8)%nat then None else
      let one := Mem.le_dec (take 8 s) in
      let one := if negb (bnum =? 0) && (i' =? 0)%nat then Z.shiftr one (bnum * 8) else one in
      key8_words i' bnum (Z.lxor n (u64 (271 * one))) (drop 8 s)
  end.

Definition dfs_hashtable_hash_key8 (key : list Z) (data_size hashtable_size : Z) : option Z :=
  let bnum := data_size mod 8 in
  let loop := Z.shiftr data_size 3 + (if bnum =? 0 then 0 else 1) in
  n ← key8_words (Z.to_nat loop) bnum 0 key;
  Some (Z.lxor n (u64 (loop * 271)) mod hashtable_size).

(** The loop stops at a NUL, which the end of the list stands for. *)
Fixpoint hash_low_loop (n : Z) (s : list Z) (data_size : nat) : Z :=
  match data_size, s with
  | S j, c :: s' =>
      if c =? 0 then n else hash_low_loop (u64 (u64 (n * 31) + CString.string_xxctolower c)) s' j
  | _, _ => n
  end.

Definition dfs_hashtable_hash_low (key : list Z) (data_size : nat) (hashtable_size : Z) : Z :=
  hash_low_loop 0 key data_size mod hashtable_size.

(** ** The table *)

Definition NULL : Z := 0.
Definition DFS_HASHTABLE_DEFAULT_SIZE : Z := 7951.

(** [key] is [None] for a null key. *)
Record dfs_hashtable_link_t := Link { key : option (list Z); len : nat; next : Z }.

Record dfs_hashtable_t := Table_t {
  links : gmap Z dfs_hashtable_link_t;
  buckets : list Z;
  size : Z;
  count : Z
}.

(** The list-level table: the links of each bucket, head first. *)
Abbreviation table := (list (list Z)).

Section table.
(** The table's function pointers. *)
Context (cmp : list Z -> list Z -> nat -> Z) (hash : list Z -> nat -> Z -> option Z).

(** [dfs_hashtable_init] once the bucket array is allocated and zeroed;
    [find_prime] is the table-size function. *)
Definition dfs_hashtable_init (find_prime : Z -> Z) (hash_sz : Z) (ls : gmap Z dfs_hashtable_link_t) :
    dfs_hashtable_t :=
  let size := if hash_sz =? 0 then DFS_HASHTABLE_DEFAULT_SIZE else find_prime hash_sz in
  Table_t ls (replicate (Z.to_nat size) NULL) size 0.

(** What the hash function returns, a [size_t]. *)
Definition hash_of (ht : dfs_hashtable_t) (k : list Z) (n : nat) : option Z :=
  h ← hash k n (size ht); Some (u64 h).

Definition link_hash (ht : dfs_hashtable_t) (l : dfs_hashtable_link_t) : option nat :=
  k ← key l; h ← hash_of ht k (len l); Some (Z.to_nat h).

(** [count] is an [int]: beyond its range the arithmetic is undefined. *)
Definition count_add (ht : dfs_hashtable_t) (d : Z) : option Z :=
  let n := count ht + d in if s32 n =? n then Some n else None.

(** Of a table and a link that are not null, here and below. *)
Definition dfs_hashtable_join (ht : dfs_hashtable_t) (hl : Z) : option dfs_hashtable_t :=
  l ← links ht !! hl;
  i ← link_hash ht l;
  b ← buckets ht !! i;
  n ← count_add ht 1;
  Some (Table_t (<[hl := Link (key l) (len l) b]> (links ht)) (<[i := hl]> (buckets ht))
          (size ht) n).

(** The walk along a bucket; [fuel] bounds its length. *)
Fixpoint lookup_walk (fuel : nat) (ls : gmap Z dfs_hashtable_link_t) (k : list Z) (n : nat) (walker : Z) :
    option Z :=
  if walker =? NULL then Some NULL else
  match fuel with
  | O => None
  | S fuel' =>
      l ← ls !! walker;
      match key l with
      | None => Some NULL
      | Some wk => if cmp k wk n =? 0 then Some walker else lookup_walk fuel' ls k n (next l)
      end
  end.

Definition dfs_hashtable_lookup (fuel : nat) (ht : dfs_hashtable_t) (k : list Z) (n : nat) : option Z :=
  h ← hash_of ht k n;
  b ← buckets ht !! Z.to_nat h;
  lookup_walk fuel (links ht) k n b.

(** The search for [hl] along a bucket.  [from] is the link whose [next] field
    is examined, or [None] for the bucket itself.  The result is [Some None]
    when [hl] is not there, and otherwise where it was found. *)
Fixpoint remove_walk (fuel : nat) (ls : gmap Z dfs_hashtable_link_t) (hl : Z) (from : option Z) (cur : Z) :
    option (option (option Z)) :=
  if cur =? NULL then Some None else
  match fuel with
  | O => None
  | S fuel' =>
      if cur =? hl then Some (Some from)
      else l ← ls !! cur; remove_walk fuel' ls hl (Some cur) (next l)
  end.

(** The result code is [DFS_HASHTABLE_OK] = [true].  The hash is kept in an
    [int]: from 2^31 on it is negative and the access is before the array, and
    a multiple of 2^32 is lost. *)
Definition dfs_hashtable_remove_link (fuel : nat) (ht : dfs_hashtable_t) (hl : Z) :
    option (bool * dfs_hashtable_t) :=
  l ← links ht !! hl;
  k ← key l;
  h ← hash_of ht k (len l);
  let i := s32 h in
  if i <? 0 then None else
  b ← buckets ht !! Z.to_nat i;
  r ← remove_walk fuel (links ht) hl None b;
  match r with
  | None => Some (false, ht)
  | Some None =>
      n ← count_add ht (-1);
      Some (true, Table_t (links ht) (<[Z.to_nat i := next l]> (buckets ht)) (size ht) n)
  | Some (Some p) =>
      pl ← links ht !! p;
      n ← count_add ht (-1);
      Some (true, Table_t (<[p := Link (key pl) (len pl) (next l)]> (links ht)) (buckets ht)
                    (size ht) n)
  end.

(** The links of a bucket in the order [dfs_hashtable_free_items] frees them:
    each [next] is read before its link is freed. *)
Fixpoint free_walk (fuel : nat) (ls : gmap Z dfs_hashtable_link_t) (walker : Z) : option (list Z) :=
  if walker =? NULL then Some [] else
  match fuel with
  | O => None
  | S fuel' => l ← ls !! walker; r ← free_walk fuel' ls (next l); Some (walker :: r)
  end.

(** The freed links and the table, whose buckets are left as they are. *)
Definition dfs_hashtable_free_items (fuel : nat) (ht : dfs_hashtable_t) :
    option (list Z * dfs_hashtable_t) :=
  freed ← mapM (free_walk fuel (links ht)) (buckets ht);
  n ← count_add ht (- Z.of_nat (length (concat freed)));
  Some (concat freed, Table_t (links ht) (buckets ht) (size ht) n).

Definition dfs_hashtable_get_bucket (ht : dfs_hashtable_t) (bucket : Z) : option Z :=
  if size ht <=? bucket then Some NULL else buckets ht !! Z.to_nat bucket.

Definition dfs_hashtable_empty (ht : dfs_hashtable_t) : bool := count ht =? 0.

(** ** The list-level table *)

Definition tb_update (B : table) (i : nat) (f : list Z -> list Z) : table :=
  match B !! i with Some xs => <[i := f xs]> B | None => B end.
Definition tb_join (B : table) (i : nat) (x : Z) : table := tb_update B i (cons x).
Definition tb_remove (B : table) (i : nat) (x : Z) : table :=
  tb_update B i (List.filter (fun y => negb (y =? x))).
Definition tb_lookup (keyof : Z -> option (list Z)) (B : table) (i : nat) (k : list Z) (n : nat) : option Z :=
  xs ← B !! i;
  List.find (fun x => match keyof x with Some wk => cmp k wk n =? 0 | None => false end) xs.

(** ** The representation *)

Fixpoint chain (ls : gmap Z dfs_hashtable_link_t) (p : Z) (xs : list Z) : Prop :=
  match xs with
  | [] => p = NULL
  | x :: xs' => p = x /\ x <> NULL /\ exists l, ls !! x = Some l /\ chain ls (next l) xs'
  end.

Record rep (ht : dfs_hashtable_t) (B : table) : Prop := {
  rep_size : length (buckets ht) = Z.to_nat (size ht);
  rep_buckets : Forall2 (chain (links ht)) (buckets ht) B;
  rep_nodup : NoDup (concat B);
  rep_keys : forall i xs x, B !! i = Some xs -> x ∈ xs ->
    exists l, links ht !! x = Some l /\ link_hash ht l = Some i;
}.

(** ** Chains *)

Lemma chain_frame ls ls' p xs :
  (forall x, x ∈ xs -> ls' !! x = ls !! x) -> chain ls p xs -> chain ls' p xs.
Proof.
  revert p. induction xs as [|x xs IH]; intros p F; cbn [chain]; [done|].
  intros (-> & Hx & l & El & Hc). split_and!; [done|done|]. exists l.
  split; [rewrite F; [done|left]|]. apply IH; [|done]. intros y Hy. apply F. by right.
Qed.

Lemma chain_cut ls p l1 x l2 :
  chain ls p (l1 ++ x :: l2) -> exists l, ls !! x = Some l /\ chain ls (next l) l2.
Proof.
  revert p. induction l1 as [|y l1 IH]; intros p; cbn [chain app].
  - intros (-> & _ & l & El & Hc). eauto.
  - intros (-> & _ & l & El & Hc). eauto.
Qed.

(** Unlinking the node after [y]. *)
Lemma chain_remove ls p l1 y x l2 lx ly :
  chain ls p (l1 ++ y :: x :: l2) -> NoDup (l1 ++ y :: x :: l2) ->
  ls !! x = Some lx -> ls !! y = Some ly ->
  chain (<[y := Link (key ly) (len ly) (next lx)]> ls) p (l1 ++ y :: l2).
Proof.
  revert p. induction l1 as [|z l1 IH]; intros p; cbn [chain app].
  - intros (-> & Hy & l & El & _ & Hx & l' & El' & Hc) ND Ex Ey. simplify_eq.
    split_and!; [done|done|]. eexists. split; [apply lookup_insert_eq|]. simpl.
    apply (chain_frame ls); [|done]. intros z Hz. rewrite lookup_insert_ne; [done|].
    intros ->. apply NoDup_cons in ND as [ND _]. apply ND. by right.
  - intros (-> & Hz & l & El & Hc) ND Ex Ey. apply NoDup_cons in ND as [Hn ND].
    split_and!; [done|done|]. exists l. rewrite lookup_insert_ne by set_solver.
    split; [done|]. by apply IH.
Qed.

Lemma remove_walk_spec ls hl fuel from p l1 l2 :
  chain ls p (l1 ++ hl :: l2) -> hl ∉ l1 -> (length l1 < fuel)%nat ->
  remove_walk fuel ls hl from p = Some (Some (match last l1 with Some y => Some y | None => from end)).
Proof.
  revert from p fuel. induction l1 as [|y l1 IH]; intros from p fuel Hc Hn HF;
    (destruct fuel as [|fuel]; [simpl in HF; lia|]); cbn [chain app remove_walk] in *.
  - destruct Hc as (-> & Hx & _). rewrite (proj2 (Z.eqb_neq _ _)) by done. by rewrite Z.eqb_refl.
  - destruct Hc as (-> & Hx & l & El & Hc). rewrite !(proj2 (Z.eqb_neq _ _)) by set_solver.
    rewrite El. cbn [mbind option_bind]. rewrite (IH (Some y) (next l) fuel Hc);
      [|set_solver|simpl in HF; lia]. destruct l1 as [|z l1]; [done|].
    change (last (y :: z :: l1)) with (last (z :: l1)).
    destruct (last (z :: l1)) eqn:E; [done|]. by apply last_None in E.
Qed.

Lemma remove_walk_absent ls hl fuel from p xs :
  chain ls p xs -> hl ∉ xs -> (length xs <= fuel)%nat -> remove_walk fuel ls hl from p = Some None.
Proof.
  revert from p fuel. induction xs as [|y xs IH]; intros from p fuel Hc Hn HF.
  - cbn [chain] in Hc. subst. by destruct fuel.
  - destruct fuel as [|fuel]; [simpl in HF; lia|]. cbn [chain remove_walk] in *.
    destruct Hc as (-> & Hx & l & El & Hc). rewrite !(proj2 (Z.eqb_neq _ _)) by set_solver.
    rewrite El. cbn [mbind option_bind]. apply IH; [done|set_solver|simpl in HF; lia].
Qed.

Definition keyof (ls : gmap Z dfs_hashtable_link_t) (x : Z) : option (list Z) :=
  l ← ls !! x; key l.

Definition found (r : option Z) : Z := default NULL r.

Lemma lookup_walk_spec ls k n fuel p xs :
  chain ls p xs -> (forall x, x ∈ xs -> is_Some (keyof ls x)) -> (length xs <= fuel)%nat ->
  lookup_walk fuel ls k n p =
    Some (found (List.find (fun x => match keyof ls x with
                                     | Some wk => cmp k wk n =? 0 | None => false end) xs)).
Proof.
  revert p fuel. induction xs as [|y xs IH]; intros p fuel Hc HK HF.
  - cbn [chain] in Hc. subst. by destruct fuel.
  - destruct fuel as [|fuel]; [simpl in HF; lia|]. cbn [chain lookup_walk List.find] in *.
    destruct Hc as (-> & Hx & l & El & Hc). rewrite (proj2 (Z.eqb_neq _ _)) by done.
    rewrite El. cbn [mbind option_bind]. destruct (HK y) as [wk Ek]; [left|].
    rewrite Ek. unfold keyof in Ek. rewrite El in Ek. cbn [mbind option_bind] in Ek. rewrite Ek.
    destruct (cmp k wk n =? 0); [done|]. apply IH; [done|set_solver|simpl in HF; lia].
Qed.

(** ** Buckets *)

Lemma bucket_split (B : table) i xs :
  B !! i = Some xs -> B = take i B ++ xs :: drop (S i) B /\ length (take i B) = i.
Proof.
  intros E. split; [by rewrite take_drop_middle|]. apply length_take_le.
  apply lookup_lt_Some in E. lia.
Qed.

Lemma update_split (B : table) i xs f :
  B !! i = Some xs -> tb_update B i f = take i B ++ f xs :: drop (S i) B.
Proof.
  intros E. unfold tb_update. rewrite E. apply insert_take_drop. by apply lookup_lt_Some in E.
Qed.

Lemma nodup_bucket (B : table) i xs : NoDup (concat B) -> B !! i = Some xs -> NoDup xs.
Proof.
  intros ND E. destruct (bucket_split B i xs E) as [EB _]. rewrite EB in ND.
  rewrite concat_app in ND. simpl in ND. apply NoDup_app in ND as (_ & _ & ND).
  by apply NoDup_app in ND as (ND & _ & _).
Qed.

Lemma in_concat (B : table) i xs x : B !! i = Some xs -> x ∈ xs -> x ∈ concat B.
Proof.
  clear cmp hash. intros E Hx. destruct (bucket_split B i xs E) as [-> _]. rewrite concat_app. simpl. set_solver.
Qed.

Lemma bucket_disjoint (B : table) i j xs ys x :
  NoDup (concat B) -> B !! i = Some xs -> B !! j = Some ys -> i <> j -> x ∈ xs -> x ∉ ys.
Proof.
  intros ND Ei Ej Hij Hx Hy. destruct (bucket_split B i xs Ei) as [EB L].
  rewrite EB in ND, Ej. rewrite concat_app in ND. simpl in ND.
  apply NoDup_app in ND as (_ & D1 & ND). apply NoDup_app in ND as (_ & D2 & _).
  destruct (decide (j < i)%nat) as [Hlt|Hge].
  - rewrite lookup_app_l in Ej by lia. apply (D1 x); [by eapply in_concat|set_solver].
  - rewrite lookup_app_r in Ej by lia. rewrite L in Ej.
    destruct (j - i)%nat as [|m] eqn:Em; [lia|]. simpl in Ej. apply (D2 x Hx). by eapply in_concat.
Qed.

(** Replacing one bucket of a represented table. *)
Lemma rep_update ht B i xs f ls bs c :
  rep ht B -> B !! i = Some xs ->
  length bs = length (buckets ht) ->
  (forall j, j <> i -> bs !! j = buckets ht !! j) ->
  (exists b, bs !! i = Some b /\ chain ls b (f xs)) ->
  (forall j ys, j <> i -> B !! j = Some ys -> forall y, y ∈ ys -> ls !! y = links ht !! y) ->
  NoDup (concat (tb_update B i f)) ->
  (forall y, y ∈ f xs -> exists l, ls !! y = Some l /\ link_hash ht l = Some i) ->
  rep (Table_t ls bs (size ht) c) (tb_update B i f).
Proof.
  intros R E Lb Hbs (b & Eb & Hb) HF ND HK. destruct R as [Rs Rb Rn Rk].
  assert (HU : forall j, j <> i -> tb_update B i f !! j = B !! j).
  { intros j Hj. unfold tb_update. rewrite E. by rewrite list_lookup_insert_ne. }
  assert (HI : tb_update B i f !! i = Some (f xs)).
  { unfold tb_update. rewrite E. apply list_lookup_insert_eq. by apply lookup_lt_Some in E. }
  split; cbn [links buckets size].
  - lia.
  - apply Forall2_same_length_lookup_2.
    + rewrite Lb. unfold tb_update. rewrite E, length_insert. by eapply Forall2_length.
    + intros j p ys Hp Hys. destruct (decide (j = i)) as [->|Hj]; [congruence|].
      rewrite HU in Hys by done. rewrite Hbs in Hp by done.
      apply (chain_frame (links ht)); [intros y Hy; by eapply HF|].
      eapply Forall2_lookup_lr; [exact Rb|done|done].
  - done.
  - intros j ys y Hys Hy. destruct (decide (j = i)) as [->|Hj]; [|rewrite HU in Hys by done].
    + rewrite HI in Hys. simplify_eq. by apply HK.
    + destruct (Rk j ys y Hys Hy) as (l & El & Hl). exists l. split; [|done].
      by rewrite (HF j ys Hj Hys y Hy).
Qed.

Lemma rep_bucket ht B i b : rep ht B -> buckets ht !! i = Some b ->
  exists xs, B !! i = Some xs /\ chain (links ht) b xs.
Proof.
  intros R E. destruct (Forall2_lookup_l _ _ _ _ _ (rep_buckets _ _ R) E) as (xs & ? & ?). eauto.
Qed.

Lemma rep_bucket_r ht B i xs : rep ht B -> B !! i = Some xs ->
  exists b, buckets ht !! i = Some b /\ chain (links ht) b xs.
Proof.
  intros R E. destruct (Forall2_lookup_r _ _ _ _ _ (rep_buckets _ _ R) E) as (b & ? & ?). eauto.
Qed.

Lemma nodup_join (B : table) i xs x :
  NoDup (concat B) -> B !! i = Some xs -> x ∉ concat B -> NoDup (concat (tb_join B i x)).
Proof.
  intros ND E Hx. unfold tb_join. rewrite (update_split B i xs) by done.
  destruct (bucket_split B i xs E) as [EB _]. rewrite EB in ND, Hx.
  rewrite concat_app in *. simpl in *. rewrite <- Permutation_middle. by constructor.
Qed.

Lemma filter_removes x l1 l2 : x ∉ l1 -> x ∉ l2 ->
  List.filter (fun y => negb (y =? x)) (l1 ++ x :: l2) = l1 ++ l2.
Proof. clear cmp hash.
  intros H1 H2. assert (K : forall l, x ∉ l -> List.filter (fun y => negb (y =? x)) l = l).
  { induction l as [|y l IH]; [done|]. intros H. simpl.
    rewrite (proj2 (Z.eqb_neq _ _)) by set_solver. simpl. rewrite IH; [done|set_solver]. }
  rewrite List.filter_app. simpl. rewrite Z.eqb_refl. simpl. by rewrite !K.
Qed.

Lemma nodup_remove (B : table) i xs x :
  NoDup (concat B) -> B !! i = Some xs -> NoDup (concat (tb_remove B i x)).
Proof.
  intros ND E. unfold tb_remove. rewrite (update_split B i xs) by done.
  destruct (bucket_split B i xs E) as [EB _]. rewrite EB in ND.
  rewrite concat_app in *. simpl in *. apply NoDup_app in ND as (N1 & D1 & N2).
  apply NoDup_app in N2 as (N2 & D2 & N3).
  assert (HF : forall y, y ∈ List.filter (fun y => negb (y =? x)) xs -> y ∈ xs).
  { intros y. rewrite !list_elem_of_In. by intros [? _]%filter_In. }
  apply NoDup_app. split_and!; [done| |].
  - intros y Hy [Hy'|Hy']%elem_of_app; apply (D1 y Hy); apply elem_of_app; auto.
  - apply NoDup_app. split_and!; [|by intros y Hy%HF; apply D2|done].
    apply NoDup_ListNoDup. apply List.NoDup_filter. by apply NoDup_ListNoDup.
Qed.

(** ** The operations implement the list-level table *)

Lemma count_add_small ht d : in_s 32 (count ht + d) -> count_add ht d = Some (count ht + d).
Proof.
  intros H. unfold count_add, s32. rewrite swrap_small by (done || lia). by rewrite Z.eqb_refl.
Qed.

Lemma join_rep ht B hl l i :
  in_s 32 (count ht + 1) -> rep ht B -> links ht !! hl = Some l -> link_hash ht l = Some i -> (i < length (buckets ht))%nat ->
  hl <> NULL -> hl ∉ concat B ->
  exists ht', dfs_hashtable_join ht hl = Some ht' /\ rep ht' (tb_join B i hl) /\
    count ht' = count ht + 1 /\ size ht' = size ht /\
    forall x, keyof (links ht') x = keyof (links ht) x.
Proof.
  intros HC R El Ei Hi Hnull Hn. destruct (lookup_lt_is_Some_2 _ _ Hi) as [b Eb].
  destruct (rep_bucket ht B i b R Eb) as (xs & Exs & Hc).
  unfold dfs_hashtable_join. rewrite El. cbn [mbind option_bind]. rewrite Ei. cbn [mbind option_bind].
  rewrite Eb, count_add_small by done. cbn [mbind option_bind]. eexists. split; [reflexivity|].
  assert (FR : forall j ys y, B !! j = Some ys -> y ∈ ys ->
    <[hl:=Link (key l) (len l) b]> (links ht) !! y = links ht !! y).
  { intros j ys y Ej Hy. rewrite lookup_insert_ne; [done|]. intros <-. apply Hn. by eapply in_concat. }
  split_and!; [|done|done|].
  - apply (rep_update ht B i xs (cons hl)); try done.
    + apply length_insert.
    + intros j Hj. by rewrite list_lookup_insert_ne.
    + exists hl. split; [by apply list_lookup_insert_eq|]. cbn [chain]. split_and!; [done|done|].
      eexists. split; [apply lookup_insert_eq|]. simpl.
      apply (chain_frame (links ht)); [|done]. intros y Hy. by eapply FR.
    + intros j ys _ Ej y Hy. by eapply FR.
    + by eapply nodup_join; [apply R| |].
    + intros y [->|Hy]%elem_of_cons.
      * eexists. split; [apply lookup_insert_eq|]. unfold link_hash in *. done.
      * rewrite (FR i xs y Exs Hy). by eapply (rep_keys _ _ R).
  - intros x. unfold keyof. simpl. destruct (decide (x = hl)) as [->|].
    + by rewrite lookup_insert_eq, El.
    + by rewrite lookup_insert_ne.
Qed.

Lemma concat_length_le (B : table) i xs : B !! i = Some xs -> (length xs <= length (concat B))%nat.
Proof.
  intros E. destruct (bucket_split B i xs E) as [-> _]. rewrite concat_app, length_app. simpl.
  rewrite length_app. lia.
Qed.

Lemma keys_present ht B i xs x : rep ht B -> B !! i = Some xs -> x ∈ xs -> is_Some (keyof (links ht) x).
Proof.
  intros R E Hx. destruct (rep_keys _ _ R i xs x E Hx) as (l & El & Hl).
  unfold keyof, link_hash in *. rewrite El. cbn [mbind option_bind].
  destruct (key l); [eauto|discriminate].
Qed.

Lemma lookup_rep ht B k n h fuel :
  rep ht B -> hash_of ht k n = Some h -> (Z.to_nat h < length (buckets ht))%nat ->
  (length (concat B) <= fuel)%nat ->
  dfs_hashtable_lookup fuel ht k n = Some (found (tb_lookup (keyof (links ht)) B (Z.to_nat h) k n)).
Proof.
  intros R Eh Hi HF. destruct (lookup_lt_is_Some_2 _ _ Hi) as [b Eb].
  destruct (rep_bucket ht B _ b R Eb) as (xs & Exs & Hc).
  unfold dfs_hashtable_lookup, tb_lookup. rewrite Eh. cbn [mbind option_bind].
  rewrite Eb, Exs. cbn [mbind option_bind]. apply lookup_walk_spec; [done| |].
  - intros x Hx. by eapply keys_present.
  - pose proof (concat_length_le B _ xs Exs). lia.
Qed.

Lemma link_hash_inv ht l i : link_hash ht l = Some i ->
  exists k h, key l = Some k /\ hash_of ht k (len l) = Some h /\ 0 <= h /\ i = Z.to_nat h.
Proof.
  unfold link_hash. intros (k & Ek & (h & Eh & [= <-])%bind_Some)%bind_Some. exists k, h.
  split_and!; [done|done| |done]. unfold hash_of in Eh. apply bind_Some in Eh as (h0 & _ & [= <-]).
  unfold u64. by apply uwrap_range.
Qed.

(** What [dfs_hashtable_remove_link] does to a link at a known place. *)
Lemma remove_link_eval ht B hl i l1 l2 l fuel :
  in_s 32 (count ht - 1) -> Z.of_nat i < 2 ^ 31 ->
  rep ht B -> B !! i = Some (l1 ++ hl :: l2) -> hl ∉ l1 -> (length (concat B) <= fuel)%nat ->
  links ht !! hl = Some l ->
  dfs_hashtable_remove_link fuel ht hl =
    match last l1 with
    | None => Some (true, Table_t (links ht) (<[i := next l]> (buckets ht)) (size ht) (count ht - 1))
    | Some p =>
        pl ← links ht !! p;
        Some (true, Table_t (<[p := Link (key pl) (len pl) (next l)]> (links ht)) (buckets ht)
                      (size ht) (count ht - 1))
    end.
Proof.
  intros HC H31 R Exs Hn HF El. destruct (rep_bucket_r ht B i _ R Exs) as (b & Eb & Hc).
  destruct (rep_keys _ _ R i _ hl Exs) as (l' & El' & Hl); [set_solver|]. simplify_eq.
  pose proof (concat_length_le B _ _ Exs) as HL. rewrite length_app in HL. simpl in HL.
  apply link_hash_inv in Hl as (k & h & Ek & Eh & Hh & ->).
  unfold dfs_hashtable_remove_link. rewrite El. cbn [mbind option_bind]. rewrite Ek. cbn [mbind option_bind].
  rewrite Eh. cbn [mbind option_bind]. unfold s32. rewrite swrap_small by (unfold in_s; lia).
  rewrite (proj2 (Z.ltb_ge h 0)) by lia.
  rewrite Eb. cbn [mbind option_bind]. rewrite (remove_walk_spec _ hl fuel None b l1 l2) by (done || lia).
  cbn [mbind option_bind]. rewrite (count_add_small _ (-1)) by done. by destruct (last l1).
Qed.

Lemma remove_link_rep ht B hl i xs fuel :
  in_s 32 (count ht - 1) -> Z.of_nat i < 2 ^ 31 -> rep ht B -> B !! i = Some xs -> hl ∈ xs -> (length (concat B) <= fuel)%nat ->
  exists ht', dfs_hashtable_remove_link fuel ht hl = Some (true, ht') /\ rep ht' (tb_remove B i hl) /\
    count ht' = count ht - 1 /\ size ht' = size ht /\
    forall x, keyof (links ht') x = keyof (links ht) x.
Proof.
  intros HC H31 R Exs Hx HF. destruct (rep_bucket_r ht B i xs R Exs) as (b & Eb & Hc).
  pose proof (nodup_bucket B i xs (rep_nodup _ _ R) Exs) as ND.
  apply list_elem_of_split in Hx as (l1 & l2 & ->).
  pose proof ND as ND'. rewrite <- Permutation_middle in ND'. apply NoDup_cons in ND' as [Hn ND'].
  assert (Hn1 : hl ∉ l1) by set_solver. assert (Hn2 : hl ∉ l2) by set_solver.
  destruct (chain_cut _ _ _ _ _ Hc) as (l & El & Hc2).
  rewrite (remove_link_eval ht B hl i l1 l2 l fuel) by done.
  pose proof (nodup_remove B i _ hl (rep_nodup _ _ R) Exs) as NDB.
  pose proof (filter_removes hl l1 l2 Hn1 Hn2) as FX.
  assert (KS : forall y, y ∈ l1 ++ l2 -> exists l, links ht !! y = Some l /\ link_hash ht l = Some i).
  { intros y Hy. eapply (rep_keys _ _ R); [exact Exs|]. set_solver. }
  destruct (last l1) as [p|] eqn:Ep.
  - apply last_Some in Ep as [l0 ->]. rewrite <- app_assoc in Hc, ND. simpl in Hc, ND.
    destruct (KS p) as (pl & Epl & Hpl); [set_solver|]. rewrite Epl. cbn [mbind option_bind].
    eexists. split; [reflexivity|]. split_and!; [|done|done|].
    + apply (rep_update ht B i _ _ _ _ _ R Exs); try done.
      * exists b. split; [done|]. rewrite FX, <- app_assoc. simpl. by apply (chain_remove _ _ _ _ hl).
      * intros j ys Hj Ej y Hy. rewrite lookup_insert_ne; [done|]. intros <-.
        eapply (bucket_disjoint B j i); [apply R|done|done|done|exact Hy|set_solver].
      * rewrite FX. intros y Hy. destruct (decide (y = p)) as [->|].
        -- rewrite lookup_insert_eq. eexists. split; [done|]. done.
        -- rewrite lookup_insert_ne by done. by apply KS.
    + intros x. unfold keyof. simpl. destruct (decide (x = p)) as [->|].
      * by rewrite lookup_insert_eq, Epl.
      * by rewrite lookup_insert_ne.
  - apply last_None in Ep. subst l1. eexists. split; [reflexivity|]. split_and!; [|done|done|done].
    apply (rep_update ht B i _ _ _ _ _ R Exs); try done; [apply length_insert| | |by rewrite FX].
    + intros j Hj. by rewrite list_lookup_insert_ne.
    + exists (next l). split; [apply list_lookup_insert_eq; by apply lookup_lt_Some in Eb|]. by rewrite FX.
Qed.

Lemma remove_link_far ht B hl i xs fuel :
  rep ht B -> B !! i = Some xs -> hl ∈ xs -> 2 ^ 31 <= Z.of_nat i < 2 ^ 32 ->
  dfs_hashtable_remove_link fuel ht hl = None.
Proof.
  intros R Exs Hx Hi. destruct (rep_keys _ _ R i _ hl Exs Hx) as (l & El & Hl).
  apply link_hash_inv in Hl as (k & h & Ek & Eh & Hh & ->).
  unfold dfs_hashtable_remove_link. rewrite El. cbn [mbind option_bind]. rewrite Ek. cbn [mbind option_bind].
  rewrite Eh. cbn [mbind option_bind]. replace (s32 h) with (h - 2 ^ 32).
  - by rewrite (proj2 (Z.ltb_lt _ 0)) by lia.
  - unfold s32, swrap. change (2 ^ (32 - 1)) with (2 ^ 31).
    rewrite <- (Z.mod_add (h + 2 ^ 31) (-1)), Z.mod_small by lia. lia.
Qed.

(** C27. The three operations of the table implement its list-level view, for
    any hash and comparison functions: joining puts a link at the head of its
    bucket, removing takes out that link and no other, looking up walks the
    bucket in order, and every walk ends.  The number of links, which is an int,
    has room for one more and one less.  Joining and looking up work for any
    number of buckets; removing keeps the hash in an int, so the link has to be in
    one of the first 2^31 buckets, and in a bucket from 2^31 to 2^32 removing
    reads before the array. *)
Theorem hashtable_refines_lists ht B fuel :
  rep ht B -> (length (concat B) <= fuel)%nat -> in_s 32 (count ht - 1) -> in_s 32 (count ht + 1) ->
  (forall hl l i, links ht !! hl = Some l -> link_hash ht l = Some i ->
     (i < length (buckets ht))%nat -> hl <> NULL -> hl ∉ concat B ->
     exists ht', dfs_hashtable_join ht hl = Some ht' /\ rep ht' (tb_join B i hl) /\
       count ht' = count ht + 1) /\
  (forall hl i xs, B !! i = Some xs -> hl ∈ xs -> Z.of_nat i < 2 ^ 31 ->
     exists ht', dfs_hashtable_remove_link fuel ht hl = Some (true, ht') /\
       rep ht' (tb_remove B i hl) /\ count ht' = count ht - 1) /\
  (forall hl i xs, B !! i = Some xs -> hl ∈ xs -> 2 ^ 31 <= Z.of_nat i < 2 ^ 32 ->
     dfs_hashtable_remove_link fuel ht hl = None) /\
  (forall k n h, hash_of ht k n = Some h -> (Z.to_nat h < length (buckets ht))%nat ->
     dfs_hashtable_lookup fuel ht k n =
       Some (found (tb_lookup (keyof (links ht)) B (Z.to_nat h) k n))).
Proof.
  intros R HF HC1 HC2. split_and!.
  - intros hl l i El Ei Hi H0 Hn. destruct (join_rep ht B hl l i) as (ht' & ? & ? & ? & _); eauto.
  - intros hl i xs Exs Hx Hi. destruct (remove_link_rep ht B hl i xs fuel) as (ht' & ? & ? & ? & _); eauto.
  - intros hl i xs Exs Hx Hi. by eapply remove_link_far.
  - intros k n h Eh Hh. by apply lookup_rep.
Qed.

Lemma in_concat_inv (B : table) x : x ∈ concat B -> exists i xs, B !! i = Some xs /\ x ∈ xs.
Proof.
  intros H. apply list_elem_of_In, List.in_concat in H as (xs & Hxs & Hx).
  apply list_elem_of_In, list_elem_of_lookup in Hxs as [i Hi]. apply list_elem_of_In in Hx. eauto.
Qed.

(** Where the comparison recognises exactly the key looked for, and no two
    links have the same key, the table is a finite map: a lookup returns the
    one link of the table that has the key, and [NULL] when there is none. *)
Theorem hashtable_lookup_exact ht B fuel k n h :
  rep ht B -> (length (concat B) <= fuel)%nat ->
  hash_of ht k n = Some h -> (Z.to_nat h < length (buckets ht))%nat ->
  (forall x wk, x ∈ concat B -> keyof (links ht) x = Some wk -> (cmp k wk n = 0 <-> wk = k)) ->
  (forall x l, x ∈ concat B -> links ht !! x = Some l -> key l = Some k -> len l = n) ->
  (forall x y, x ∈ concat B -> y ∈ concat B ->
     keyof (links ht) x = Some k -> keyof (links ht) y = Some k -> x = y) ->
  (forall x, x ∈ concat B -> keyof (links ht) x = Some k ->
     dfs_hashtable_lookup fuel ht k n = Some x) /\
  ((forall x, x ∈ concat B -> keyof (links ht) x <> Some k) ->
     dfs_hashtable_lookup fuel ht k n = Some NULL).
Proof.
  intros R HF Eh Hh HC HLen HU. rewrite (lookup_rep ht B k n h fuel R Eh Hh HF).
  unfold tb_lookup. destruct (lookup_lt_is_Some_2 _ _ Hh) as [b Eb].
  destruct (rep_bucket ht B _ b R Eb) as (xs & Exs & _). rewrite Exs. cbn [mbind option_bind].
  set (p := fun x => _). destruct (List.find p xs) as [y|] eqn:EF.
  - apply find_some in EF as [Hy Ky]. apply list_elem_of_In in Hy.
    pose proof (in_concat _ _ _ _ Exs Hy) as HyB.
    assert (Key : keyof (links ht) y = Some k).
    { unfold p in Ky. destruct (keyof (links ht) y) as [wk|] eqn:E; [|done].
      apply Z.eqb_eq in Ky. f_equal. by apply (HC y). }
    split; [|intros HN; exfalso; by apply (HN y)]. intros x Hx Kx. simpl. f_equal. by apply (HU y x).
  - split; [|done]. intros x Hx Kx. exfalso.
    destruct (in_concat_inv B x Hx) as (j & ys & Ej & Hxy).
    destruct (rep_keys _ _ R j ys x Ej Hxy) as (l & El & Hl).
    assert (key l = Some k) as Kl by (unfold keyof in Kx; by rewrite El in Kx).
    unfold link_hash in Hl. rewrite Kl in Hl. cbn [mbind option_bind] in Hl.
    rewrite (HLen x l Hx El Kl), Eh in Hl. cbn [mbind option_bind] in Hl. simplify_eq.
    apply list_elem_of_In in Hxy. pose proof (find_none _ _ EF x Hxy) as N. unfold p in N.
    rewrite Kx in N. apply Z.eqb_neq in N. apply N. by apply (HC x).
Qed.

End table.

(** ** The string tables of the namenode *)

(** [fi_hash_keycmp], [dn_hash_keycmp] and [dfs_hashtable_hash_low]. *)
Definition fi_hash_keycmp (arg1 arg2 : list Z) (sz : nat) : Z := Libc.strncmp arg1 arg2 sz.
Definition str_hash (k : list Z) (n : nat) (sz : Z) : option Z := Some (dfs_hashtable_hash_low k n sz).

Definition str_link (s : string) (nxt : Z) : dfs_hashtable_link_t :=
  Link (Some (lit s)) (length (lit s)) nxt.

(** A table of five buckets with two links, 100 and 200, and one to insert. *)
Definition sample_table : dfs_hashtable_t :=
  Table_t (list_to_map [(100, str_link "L2E=" 0); (200, str_link "L2I=" 0); (300, str_link "L2M=" 0)])
    [100; 0; 0; 0; 200] 5 2.
Definition sample_buckets : table := [[100]; []; []; []; [200]].

Lemma sample_rep : rep str_hash sample_table sample_buckets.
Proof.
  split.
  - done.
  - assert (C : forall x s, x <> NULL -> links sample_table !! x = Some (str_link s NULL) ->
      chain (links sample_table) x [x]) by (intros x s ? E; cbn [chain]; rewrite E; eauto).
    constructor; [apply (C 100 "L2E="); [done|vm_compute; reflexivity]|].
    do 3 (constructor; [reflexivity|]).
    constructor; [apply (C 200 "L2I="); [done|vm_compute; reflexivity]|constructor].
  - by_decide.
  - assert (H1 : exists l, links sample_table !! 100 = Some l /\ link_hash str_hash sample_table l = Some 0%nat)
      by (exists (str_link "L2E=" NULL); split; vm_compute; reflexivity).
    assert (H2 : exists l, links sample_table !! 200 = Some l /\ link_hash str_hash sample_table l = Some 4%nat)
      by (exists (str_link "L2I=" NULL); split; vm_compute; reflexivity).
    intros [|[|[|[|[|i]]]]] xs x [= <-]; rewrite ?elem_of_nil, ?list_elem_of_singleton;
      intros Hx; subst; done.
Qed.

Lemma hashtable_refines_lists_witness :
  (forall hl l i, links sample_table !! hl = Some l -> link_hash str_hash sample_table l = Some i ->
     (i < length (buckets sample_table))%nat -> hl <> NULL -> hl ∉ concat sample_buckets ->
     exists ht', dfs_hashtable_join str_hash sample_table hl = Some ht' /\
       rep str_hash ht' (tb_join sample_buckets i hl) /\ count ht' = count sample_table + 1) /\
  (forall hl i xs, sample_buckets !! i = Some xs -> hl ∈ xs -> Z.of_nat i < 2 ^ 31 ->
     exists ht', dfs_hashtable_remove_link str_hash 2 sample_table hl = Some (true, ht') /\
       rep str_hash ht' (tb_remove sample_buckets i hl) /\ count ht' = count sample_table - 1) /\
  (forall hl i xs, sample_buckets !! i = Some xs -> hl ∈ xs -> 2 ^ 31 <= Z.of_nat i < 2 ^ 32 ->
     dfs_hashtable_remove_link str_hash 2 sample_table hl = None) /\
  (forall k n h, hash_of str_hash sample_table k n = Some h ->
     (Z.to_nat h < length (buckets sample_table))%nat ->
     dfs_hashtable_lookup fi_hash_keycmp str_hash 2 sample_table k n =
       Some (found (tb_lookup fi_hash_keycmp (keyof (links sample_table)) sample_buckets (Z.to_nat h) k n))).
Proof.
  apply (hashtable_refines_lists fi_hash_keycmp str_hash sample_table sample_buckets 2 sample_rep).
  - vm_compute. lia.
  - split; vm_compute; congruence.
  - split; vm_compute; congruence.
Defined.

Lemma hashtable_lookup_exact_witness :
  let k := lit "L2I=" in
  (forall x, x ∈ concat sample_buckets -> keyof (links sample_table) x = Some k ->
     dfs_hashtable_lookup fi_hash_keycmp str_hash 2 sample_table k 4 = Some x) /\
  ((forall x, x ∈ concat sample_buckets -> keyof (links sample_table) x <> Some k) ->
     dfs_hashtable_lookup fi_hash_keycmp str_hash 2 sample_table k 4 = Some NULL).
Proof.
  intros k.
  assert (D : forall x, x ∈ concat sample_buckets -> x = 100 \/ x = 200) by (simpl; set_solver).
  apply (hashtable_lookup_exact fi_hash_keycmp str_hash sample_table sample_buckets 2 k 4 4 sample_rep).
  - vm_compute. lia.
  - vm_compute. reflexivity.
  - vm_compute. lia.
  - intros x wk [->| ->]%D E; vm_compute in E; injection E as <-; vm_compute; split; congruence.
  - intros x l [->| ->]%D E; vm_compute in E; injection E as <-; vm_compute; congruence.
  - intros x y [->| ->]%D [->| ->]%D; vm_compute; congruence.
Defined.

Lemma le_dec_app k r : Mem.le_dec (k ++ r) = Mem.le_dec k + 2 ^ (8 * Z.of_nat (length k)) * Mem.le_dec r.
Proof.
  induction k as [|b k IH]; cbn [Mem.le_dec app length].
  - replace (8 * Z.of_nat 0) with 0 by lia. rewrite Z.pow_0_r. lia.
  - rewrite IH. replace (8 * Z.of_nat (S (length k))) with (8 + 8 * Z.of_nat (length k)) by lia.
    rewrite Z.pow_add_r by lia. change (2 ^ 8) with 256. lia.
Qed.

Lemma le_dec_range k : Forall (fun b => 0 <= b < 256) k ->
  0 <= Mem.le_dec k < 2 ^ (8 * Z.of_nat (length k)).
Proof.
  induction 1 as [|b k Hb _ IH]; cbn [Mem.le_dec length]; [vm_compute; intuition congruence|].
  replace (8 * Z.of_nat (S (length k))) with (8 + 8 * Z.of_nat (length k)) by lia.
  rewrite Z.pow_add_r by lia. change (2 ^ 8) with 256. lia.
Qed.

Lemma key8_partial k rest size :
  Forall (fun b => 0 <= b < 256) k -> (0 < length k < 8)%nat -> (8 <= length k + length rest)%nat ->
  dfs_hashtable_hash_key8 (k ++ rest) (Z.of_nat (length k)) size =
    Some (Z.lxor (u64 (271 * Mem.le_dec (take (8 - length k) rest))) 271 mod size).
Proof.
  intros Hk L LR. unfold dfs_hashtable_hash_key8.
  rewrite Z.mod_small by lia. replace (Z.shiftr (Z.of_nat (length k)) 3) with 0
    by (rewrite Z.shiftr_div_pow2, Z.div_small; lia).
  rewrite (proj2 (Z.eqb_neq (Z.of_nat (length k)) 0)) by lia.
  change (Z.to_nat (0 + 1)) with 1%nat. cbn [key8_words].
  destruct (length (k ++ rest) <? 8)%nat eqn:E; [apply Nat.ltb_lt in E; rewrite length_app in E; lia|].
  rewrite (proj2 (Z.eqb_neq (Z.of_nat (length k)) 0)) by lia. cbn [negb andb Nat.eqb mbind option_bind].
  rewrite take_app, take_ge by lia. rewrite le_dec_app, Z.shiftr_div_pow2 by lia.
  replace (Z.of_nat (length k) * 8) with (8 * Z.of_nat (length k)) by lia.
  pose proof (le_dec_range k Hk). rewrite (Z.mul_comm (2 ^ _)), Z.div_add, Z.div_small, Z.add_0_l by lia.
  by rewrite Z.lxor_0_l.
Qed.

(** [dfs_hashtable_hash_key8] does not hash the last [len mod 8] bytes of
    a key but the bytes that follow it in memory: keys of the same length
    below 8 always collide, and the same key hashes differently next to
    different data. *)
Theorem hash_key8_hashes_what_follows k1 k2 rest size :
  Forall (fun b => 0 <= b < 256) k1 -> Forall (fun b => 0 <= b < 256) k2 ->
  length k1 = length k2 -> (0 < length k1 < 8)%nat -> (8 <= length k1 + length rest)%nat ->
  dfs_hashtable_hash_key8 (k1 ++ rest) (Z.of_nat (length k1)) size =
    dfs_hashtable_hash_key8 (k2 ++ rest) (Z.of_nat (length k2)) size /\
  dfs_hashtable_hash_key8 [97; 98; 99; 100; 101; 0; 0; 0] 5 7951 <>
    dfs_hashtable_hash_key8 [97; 98; 99; 100; 101; 0; 0; 1] 5 7951.
Proof.
  intros H1 H2 HL H8 HR. split.
  - rewrite !key8_partial by (done || lia). by rewrite HL.
  - vm_compute. discriminate.
Qed.

Lemma hash_key8_hashes_what_follows_witness :
  dfs_hashtable_hash_key8 ([97; 98; 99] ++ [0; 0; 0; 0; 0]) 3 7951 =
    dfs_hashtable_hash_key8 ([120; 121; 122] ++ [0; 0; 0; 0; 0]) 3 7951 /\
  dfs_hashtable_hash_key8 [97; 98; 99; 100; 101; 0; 0; 0] 5 7951 <>
    dfs_hashtable_hash_key8 [97; 98; 99; 100; 101; 0; 0; 1] 5 7951.
Proof.
  apply (hash_key8_hashes_what_follows [97; 98; 99] [120; 121; 122] [0; 0; 0; 0; 0] 7951);
    [by_decide|by_decide|done|simpl; lia|simpl; lia].
Defined.

End Hashtable.
