(* ===== verification/Mblks.v ===== *)
(** * Fixed-size block pools: src/core/dfs_mblks.[ch]

    One allocation holds a header and [count] blocks; free blocks are linked
    through their first word, which in a block that is in use points back to
    the header.  [pool_rep] relates the links to the stack of free blocks. *)

From Stdlib Require Import ZArith Lia Bool.
From stdpp Require Import base numbers gmap option list.
From S2P Require Import Prelude.

Module Mblks.

Definition MEM_BLOCK_HEAD : Z := 8.
Definition SIZEOF_PER_MEM_BLOCK (x : Z) : Z := x + MEM_BLOCK_HEAD.
(** [sizeof (struct mem_mblks)]. *)
Definition sizeof_mem_mblks : Z := 88.

(** The header is at address [self]; [next] is the first word of each block. *)
Record mem_mblks := Mblks_t {
  self : Z; hot_count : Z; cold_count : Z;
  padded_sizeof_type : Z; real_sizeof_type : Z;
  free_blks : Z; next : gmap Z Z
}.

(** The [for] loop of [mem_mblks_new_fn]. *)
Fixpoint link_blocks (n : nat) (ptr padded : Z) : gmap Z Z :=
  match n with
  | O => ∅
  | S n' => <[ptr := ptr + padded]> (link_blocks n' (ptr + padded) padded)
  end.

(** [mem]: what the caller's allocator returns. *)
Definition mem_mblks_new_fn (sizeof_type : Z) (count : nat) (mem : option Z) : option mem_mblks :=
  mblks ← mem;
  let padded := SIZEOF_PER_MEM_BLOCK sizeof_type in
  let first := mblks + sizeof_mem_mblks in
  Some (Mblks_t mblks 0 (Z.of_nat count) padded sizeof_type first (link_blocks count first padded)).

(** The address of the data and the pool; [Some (0, _)] is a null result. *)
Definition mem_get (m : mem_mblks) : option (Z * mem_mblks) :=
  if cold_count m =? 0 then Some (0, m) else
  let pdata := free_blks m in
  nxt ← next m !! pdata;
  Some (pdata + MEM_BLOCK_HEAD,
        Mblks_t (self m) (hot_count m + 1) (cold_count m - 1) (padded_sizeof_type m)
          (real_sizeof_type m) nxt (<[pdata := self m]> (next m))).

(** [mem_get0] also zeroes the block: [zeroed] is the range that is cleared. *)
Definition mem_get0 (m : mem_mblks) : option (Z * mem_mblks * option (Z * Z)) :=
  '(ptr, m) ← mem_get m;
  if ptr =? 0 then Some (0, m, None) else Some (ptr, m, Some (ptr, real_sizeof_type m)).

(** The block must be one of this pool's: its first word is the header. *)
Definition mem_put (m : mem_mblks) (ptr : Z) : option mem_mblks :=
  if ptr =? 0 then Some m else
  let pdata := ptr - MEM_BLOCK_HEAD in
  owner ← next m !! pdata;
  if owner =? 0 then Some m else
  if owner =? self m then
    Some (Mblks_t (self m) (hot_count m - 1) (cold_count m + 1) (padded_sizeof_type m)
            (real_sizeof_type m) pdata (<[pdata := free_blks m]> (next m)))
  else None.

(** ** The stack of free blocks *)

Fixpoint linked (nx : gmap Z Z) (p : Z) (bs : list Z) : Prop :=
  match bs with
  | [] => True
  | b :: bs' => p = b /\ exists n, nx !! b = Some n /\ linked nx n bs'
  end.

(** The addresses of [n] blocks from [first] on. *)
Fixpoint blocks_from (n : nat) (first padded : Z) : list Z :=
  match n with O => [] | S n' => first :: blocks_from n' (first + padded) padded end.

Record pool_rep (m : mem_mblks) (all free used : list Z) : Prop := {
  pr_linked : linked (next m) (free_blks m) free;
  pr_perm : free ++ used ≡ₚ all;
  pr_nodup : NoDup all;
  pr_cold : cold_count m = Z.of_nat (length free);
  pr_hot : hot_count m = Z.of_nat (length used);
  pr_used : forall b, b ∈ used -> next m !! b = Some (self m);
  pr_addr : forall b, b ∈ all -> self m < b;
  pr_self : 0 < self m;
}.

Lemma free_list_frame nx nx' p bs :
  (forall b, b ∈ bs -> nx' !! b = nx !! b) -> linked nx p bs -> linked nx' p bs.
Proof.
  revert p. induction bs as [|b bs IH]; intros p F; cbn [linked]; [done|].
  intros (-> & n & En & H). split; [done|]. exists n. rewrite F by left. split; [done|].
  apply IH; [|done]. intros c Hc. apply F. by right.
Qed.

Lemma blocks_from_ge n first padded b :
  0 < padded -> b ∈ blocks_from n first padded -> first <= b.
Proof.
  intros Hp. revert first. induction n as [|n IH]; intros first; cbn [blocks_from].
  - by intros ?%elem_of_nil.
  - intros [->|H]%elem_of_cons; [lia|]. specialize (IH _ H). lia.
Qed.

Lemma blocks_from_nodup n first padded : 0 < padded -> NoDup (blocks_from n first padded).
Proof.
  intros Hp. revert first. induction n as [|n IH]; intros first; cbn [blocks_from]; [constructor|].
  apply NoDup_cons. split; [|done]. intros H. apply blocks_from_ge in H; lia.
Qed.

Lemma link_blocks_linked n first padded :
  0 < padded -> linked (link_blocks n first padded) first (blocks_from n first padded).
Proof.
  intros Hp. revert first. induction n as [|n IH]; intros first; cbn [blocks_from link_blocks linked]; [done|].
  split; [done|]. eexists. rewrite lookup_insert_eq. split; [done|].
  apply (free_list_frame (link_blocks n (first + padded) padded)); [|done].
  intros b Hb. rewrite lookup_insert_ne; [done|]. intros ->. apply blocks_from_ge in Hb; lia.
Qed.

Lemma blocks_from_length n first padded : length (blocks_from n first padded) = n.
Proof. revert first. induction n; intros; simpl; auto. Qed.

Lemma new_rep sizeof_type count mem :
  0 < mem -> 0 <= sizeof_type ->
  exists m, mem_mblks_new_fn sizeof_type count (Some mem) = Some m /\
    let bs := blocks_from count (mem + sizeof_mem_mblks) (SIZEOF_PER_MEM_BLOCK sizeof_type) in
    pool_rep m bs bs [].
Proof.
  intros Hmem Hsz. eexists. split; [reflexivity|]. intros bs.
  unfold bs, SIZEOF_PER_MEM_BLOCK, MEM_BLOCK_HEAD. split; simpl; try done.
  - apply link_blocks_linked. lia.
  - by rewrite app_nil_r.
  - apply blocks_from_nodup. lia.
  - by rewrite blocks_from_length.
  - by intros b ?%elem_of_nil.
  - intros b Hb. apply blocks_from_ge in Hb; [|lia]. unfold sizeof_mem_mblks in Hb. lia.
Qed.

Lemma get_rep m all b free used :
  pool_rep m all (b :: free) used ->
  exists m', mem_get m = Some (b + MEM_BLOCK_HEAD, m') /\ pool_rep m' all free (b :: used).
Proof.
  intros [RL RP RN RC RH RU RA RS]. unfold mem_get. rewrite RC.
  rewrite (proj2 (Z.eqb_neq _ _)) by (simpl; lia). destruct RL as (-> & n & En & RL).
  rewrite En. cbn [mbind option_bind]. eexists. split; [reflexivity|].
  assert (ND : NoDup ((b :: free) ++ used)) by (by rewrite RP).
  apply NoDup_cons in ND as [Hb ND]. split; simpl; try done; try lia.
  - apply (free_list_frame (next m)); [|done]. intros c Hc. rewrite lookup_insert_ne by set_solver. done.
  - rewrite <- RP. simpl. by rewrite Permutation_middle.
  - intros c [->|Hc]%elem_of_cons; [apply lookup_insert_eq|].
    rewrite lookup_insert_ne by set_solver. auto.
Qed.

Lemma put_rep m all free used b used' :
  pool_rep m all free used -> used ≡ₚ b :: used' ->
  exists m', mem_put m (b + MEM_BLOCK_HEAD) = Some m' /\ pool_rep m' all (b :: free) used'.
Proof.
  intros [RL RP RN RC RH RU RA RS] EU. assert (Hb : b ∈ used) by (rewrite EU; left).
  assert (Hpos : self m < b) by (apply RA; rewrite <- RP; set_solver).
  unfold mem_put, MEM_BLOCK_HEAD. rewrite (proj2 (Z.eqb_neq _ _)) by lia.
  replace (b + 8 - 8) with b by lia. rewrite RU by done. cbn [mbind option_bind].
  rewrite (proj2 (Z.eqb_neq _ _)), Z.eqb_refl by lia. eexists. split; [reflexivity|].
  assert (ND : NoDup (b :: free ++ used')).
  { rewrite <- RP, EU in RN. by rewrite <- Permutation_middle in RN. }
  apply NoDup_cons in ND as [Hn ND]. split; simpl; try done; try lia.
  - split; [done|]. eexists. rewrite lookup_insert_eq. split; [done|].
    apply (free_list_frame (next m)); [|done]. intros c Hc. rewrite lookup_insert_ne by set_solver. done.
  - rewrite <- RP, EU. simpl. by rewrite Permutation_middle.
  - rewrite RH, (Permutation_length EU). simpl. lia.
  - intros c Hc. rewrite lookup_insert_ne by set_solver. apply RU. rewrite EU. by right.
Qed.

(** A block pool hands every block out at most once: taking returns the
    top of the stack of free blocks and null exactly when there is none,
    giving back pushes it again, the two counters count the blocks in use and
    free, and a new pool has all its blocks, at distinct addresses a padded
    size apart, free. *)
Theorem block_pool_discipline sizeof_type count mem m all free used :
  0 < mem -> 0 <= sizeof_type -> pool_rep m all free used ->
  (exists m0, mem_mblks_new_fn sizeof_type count (Some mem) = Some m0 /\
     let bs := blocks_from count (mem + sizeof_mem_mblks) (SIZEOF_PER_MEM_BLOCK sizeof_type) in
     pool_rep m0 bs bs []) /\
  match free with
  | [] => mem_get m = Some (0, m)
  | b :: free' => exists m', mem_get m = Some (b + MEM_BLOCK_HEAD, m') /\ pool_rep m' all free' (b :: used)
  end /\
  (forall b used', used ≡ₚ b :: used' ->
     exists m', mem_put m (b + MEM_BLOCK_HEAD) = Some m' /\ pool_rep m' all (b :: free) used').
Proof.
  intros Hmem Hsz R. split_and!.
  - by apply new_rep.
  - destruct free as [|b free]; [|by apply get_rep].
    unfold mem_get. by rewrite (pr_cold _ _ _ _ R).
  - intros b used'. by apply put_rep.
Qed.

Lemma block_pool_discipline_witness :
  exists m all free used, pool_rep m all free used /\ free = [88; 104] /\
    exists m', mem_get m = Some (88 + MEM_BLOCK_HEAD, m') /\ pool_rep m' all [104] (88 :: used).
Proof.
  set (m := Mblks_t 8 0 2 16 8 88 (link_blocks 2 88 16)).
  assert (R : pool_rep m [88; 104] [88; 104] []).
  { split; simpl; try done; [|by_decide|by intros b ?%elem_of_nil|].
    - apply (link_blocks_linked 2 88 16). lia.
    - set_solver by lia. }
  exists m, [88; 104], [88; 104], []. split_and!; [done|done|].
  apply (block_pool_discipline 8 2 8 m [88; 104] [88; 104] []); [lia|lia|done].
Defined.

End Mblks.
