(* ===== verification/TaskQueue.v ===== *)
(** * Task queues: src/namenode/nn_task_queue.c and its consumers

    A task queue is a ring of task nodes behind a spin lock.  Producers push
    at the head; [pop_task] takes from the tail; the worker threads
    ([do_task_handler] of nn_task_handler.c, [do_paxos_task_handler] of
    nn_paxos.c) move the whole ring to a local head with [pop_all] and work it
    off.  Each operation runs under the lock, so it is one step on the store
    of queue nodes of [Queue]. *)

From Stdlib Require Import ZArith Lia Bool.
From stdpp Require Import base numbers gmap option list.
From S2P Require Import Prelude Queue.

Module TaskQueue.
Import Queue.

(** ** Definitions *)

(** The address of the node, or [NULL]. *)
Definition pop_task (queue : Z) : Q Z :=
  e ← queue_empty queue;
  if e : bool then mret NULL
  else q ← queue_tail queue; queue_remove q;; mret q.

Definition pop_all (tq queue : Z) : Q unit :=
  e ← queue_empty tq;
  if e : bool then mret tt
  else
    n ← ld_next tq; st_next queue n;;
    p ← ld_prev tq; st_prev queue p;;
    qn ← ld_next queue; st_prev qn queue;;
    qp ← ld_prev queue; st_next qp queue;;
    queue_init tq.

Definition push_task (queue tnode : Z) : Q unit := queue_insert_head queue tnode.

Section handler.
(** What handling one task does to the store. *)
Context (do_task : Z -> Q unit).

(** The loop of [do_task_handler]; the result lists the tasks in the order
    they were handled.  [running] is the thread's flag. *)
Fixpoint handler_loop (fuel : nat) (running : bool) (qhead cur : Z) : Q (list Z) :=
  e ← queue_empty qhead;
  if negb e && running then
    match fuel with
    | O => ub
    | S fuel' =>
        queue_remove cur;;
        do_task cur;;
        nxt ← queue_head qhead;
        l ← handler_loop fuel' running qhead nxt;
        mret (cur :: l)
    end
  else mret [].

(** [qhead] is the local list head on the handler's stack. *)
Definition do_task_handler (fuel : nat) (running : bool) (tq qhead : Z) : Q (list Z) :=
  queue_init qhead;;
  pop_all tq qhead;;
  cur ← queue_head qhead;
  handler_loop fuel running qhead cur.
End handler.

Fixpoint push_all (tq : Z) (xs : list Z) : Q unit :=
  match xs with [] => mret tt | x :: xs' => push_task tq x;; push_all tq xs' end.

Fixpoint pop_n (n : nat) (tq : Z) : Q (list Z) :=
  match n with
  | O => mret []
  | S n' => x ← pop_task tq; l ← pop_n n' tq; mret (x :: l)
  end.

(** ** Lemmas *)

Lemma init_ring h q : is_node h q ->
  exists h', queue_init q h = Some (tt, h') /\ ring h' q [] /\ frame [q] h h'.
Proof.
  intros N. unfold queue_init. run. eexists. split; [reflexivity|]. split.
  - apply ring_nil. split; view.
  - intros z Hz. apply nx_pv_lookup; view; set_solver.
Qed.

Lemma empty_eq h q xs : ring h q xs ->
  queue_empty q h = Some (match xs with [] => true | _ => false end, h).
Proof.
  intros HR. unfold queue_empty. destruct xs as [|x xs].
  - apply ring_nil in HR as [_ P]. rewrite (ld_prev_step _ _ _ _ P), Z.eqb_refl. done.
  - destruct (last (x :: xs)) as [t|] eqn:L; [|by apply last_None in L].
    rewrite (ld_prev_step _ _ _ _ (ring_tail _ _ _ HR _ L)).
    rewrite (proj2 (Z.eqb_neq _ _)); [done|]. intros ->.
    destruct HR as [[Hq _]%NoDup_cons _]. apply Hq. by apply last_in.
Qed.

Lemma pop_all_effect h tq q a b :
  edge h tq a -> edge h b tq -> is_node h q -> tq <> a -> tq <> b -> q <> a -> q <> b -> q <> tq ->
  exists h', (n ← ld_next tq; st_next q n;;
              p ← ld_prev tq; st_prev q p;;
              qn ← ld_next q; st_prev qn q;;
              qp ← ld_prev q; st_next qp q;;
              queue_init tq) h = Some (tt, h') /\
    (forall z, nx h' z = if decide (z = tq) then Some tq else if decide (z = q) then Some a
                         else if decide (z = b) then Some q else nx h z) /\
    (forall z, pv h' z = if decide (z = tq) then Some tq else if decide (z = q) then Some b
                         else if decide (z = a) then Some q else pv h z).
Proof.
  intros [A1 A2] [B1 B2] N H1 H2 H3 H4 H5. unfold queue_init.
  rewrite (ld_next_step _ _ _ a) by view. run.
  rewrite (ld_prev_step _ _ _ b) by view. run.
  rewrite (ld_next_step _ _ _ a) by view. run.
  rewrite (ld_prev_step _ _ _ b) by view. run.
  eexists. split; [reflexivity|]. split; intros z; view.
Qed.

Lemma pop_all_ring h tq q xs :
  ring h tq xs -> ring h q [] -> q ∉ tq :: xs ->
  exists h', pop_all tq q h = Some (tt, h') /\ ring h' q xs /\ ring h' tq [].
Proof.
  intros HR HQ Hq. unfold pop_all. rewrite (ST_bind_eq _ _ _ _ _ (empty_eq _ _ _ HR)).
  destruct xs as [|x xs]; [by exists h|].
  destruct (last (x :: xs)) as [t|] eqn:L; [|by apply last_None in L].
  pose proof (proj1 (ring_open _ _ _) HR) as (ND & P1 & b & Lb & Eb).
  assert (b = t) as -> by (change (last (x :: xs) = Some b) in Lb; congruence).
  pose proof (ring_head _ _ _ _ HR) as Ea. pose proof (last_in _ _ L) as Ht.
  apply NoDup_cons in ND as [Htq ND].
  assert (tq <> x /\ tq <> t /\ q <> x /\ q <> t /\ q <> tq) as (? & ? & ? & ? & ?).
  { clear P1. set_solver. }
  destruct (pop_all_effect h tq q x t) as (h' & E & N & P); try done.
  { apply ring_nil in HQ as [HQ _]. eauto with queue. }
  exists h'. split; [done|]. split.
  - apply ring_open. split_and!.
    + apply NoDup_cons. split; [set_solver|done].
    + split; [edges N P|]. destruct P1 as [_ P1].
      apply (path_frame_open h _ _ _ t); [done..| | |done]; intros z Hz.
      * intros ?. rewrite N, !decide_False; clear P1; set_solver.
      * apply NoDup_cons in ND as [? _]. rewrite P, !decide_False; clear P1; set_solver.
    + exists t. split; [done|]. edges N P.
  - apply ring_nil. edges N P.
Qed.

Lemma push_ring h tq xs x :
  ring h tq xs -> is_node h x -> x ∉ tq :: xs ->
  exists h', push_task tq x h = Some (tt, h') /\ ring h' tq (x :: xs) /\
    forall z, is_node h z -> is_node h' z.
Proof.
  intros HR X Hx. destruct (around_exists tq [] xs) as (a & b & HA).
  destruct (insert_head_at h tq [] xs a x b HR HA X Hx) as (h' & E & L & HR').
  assert (a = tq) as -> by (destruct HA as [HA _]; by injection HA).
  exists h'. split_and!; [done|done|]. intros z Hz.
  destruct L as [N _]. specialize (N z). destruct Hz as [n Hn].
  assert (exists v, nx h' z = Some v) as [v Hv]; [|by eapply nx_node].
  rewrite N. unfold nx. rewrite Hn. simpl. repeat case_decide; eauto.
Qed.

Lemma push_all_ring h tq xs ys :
  ring h tq ys -> Forall (is_node h) xs -> NoDup (xs ++ tq :: ys) ->
  exists h', push_all tq xs h = Some (tt, h') /\ ring h' tq (rev xs ++ ys) /\
    forall z, is_node h z -> is_node h' z.
Proof.
  revert h ys. induction xs as [|x xs IH]; intros h ys HR HN ND; [by exists h|].
  apply Forall_cons in HN as [Hx HN]. simpl in ND. apply NoDup_cons in ND as [Hn ND].
  destruct (push_ring h tq ys x HR Hx) as (h1 & E1 & R1 & K1); [set_solver|].
  destruct (IH h1 (x :: ys) R1) as (h2 & E2 & R2 & K2).
  - eapply Forall_impl; [exact HN|]. auto.
  - rewrite (Permutation_swap x tq ys). rewrite <- Permutation_middle. by constructor.
  - exists h2. cbn [push_all]. rewrite (ST_bind_eq _ _ _ _ _ E1). split_and!; [done| |auto].
    simpl. by rewrite <- app_assoc.
Qed.

Lemma pop_task_ring h tq xs x :
  ring h tq (xs ++ [x]) -> exists h', pop_task tq h = Some (x, h') /\ ring h' tq xs.
Proof.
  intros HR. unfold pop_task. rewrite (ST_bind_eq _ _ _ _ _ (empty_eq _ _ _ HR)).
  assert (forall A (a b : A), match xs ++ [x] with [] => a | _ => b end = b) as -> by (by destruct xs).
  destruct (ring_last _ _ _ _ HR) as [_ P]. unfold queue_tail. rewrite (ld_prev_step _ _ _ _ P).
  destruct (around_exists tq xs []) as (a & b & HA).
  destruct (remove_at h tq xs x [] a b HR HA) as (h' & E & _ & HR').
  rewrite (ST_bind_eq _ _ _ _ _ E). exists h'. by rewrite app_nil_r in HR'.
Qed.

Lemma pop_n_ring h tq xs : ring h tq (rev xs) ->
  exists h', pop_n (length xs) tq h = Some (xs, h') /\ ring h' tq [].
Proof.
  revert h. induction xs as [|x xs IH]; intros h HR; [by exists h|]. simpl in HR.
  destruct (pop_task_ring h tq (rev xs) x HR) as (h1 & E1 & R1).
  destruct (IH h1 R1) as (h2 & E2 & R2). exists h2. cbn [length pop_n].
  rewrite (ST_bind_eq _ _ _ _ _ E1), (ST_bind_eq _ _ _ _ _ E2). done.
Qed.

(** Handling a task leaves the local list alone. *)
Definition leaves_list (do_task : Z -> Q unit) (qhead : Z) : Prop :=
  forall h cur rest, ring h qhead rest -> is_node h cur -> cur ∉ qhead :: rest ->
    exists h', do_task cur h = Some (tt, h') /\ ring h' qhead rest.

Lemma handler_loop_all do_task qhead xs h fuel cur :
  leaves_list do_task qhead -> ring h qhead xs -> head (xs ++ [qhead]) = Some cur ->
  (length xs <= fuel)%nat ->
  exists h', handler_loop do_task fuel true qhead cur h = Some (xs, h') /\ ring h' qhead [].
Proof.
  intros Act. revert h cur fuel. induction xs as [|x xs IH]; intros h cur fuel HR Hcur HF.
  - exists h. destruct fuel; cbn [handler_loop];
      rewrite (ST_bind_eq _ _ _ _ _ (empty_eq _ _ _ HR)); done.
  - destruct fuel as [|fuel]; [simpl in HF; lia|]. simplify_eq/=.
    rewrite (ST_bind_eq _ _ _ _ _ (empty_eq _ _ _ HR)). cbn [negb andb].
    destruct (around_exists qhead [] xs) as (a & b & HA).
    destruct (remove_at h qhead [] cur xs a b HR HA) as (h1 & E1 & U & R1). simpl in R1.
    rewrite (ST_bind_eq _ _ _ _ _ E1).
    destruct (Act h1 cur xs R1) as (h2 & E2 & R2).
    { destruct U as [N _]. specialize (N cur). rewrite decide_True in N by done. eauto with queue. }
    { destruct HR as [ND _]. apply NoDup_cons in ND as [H1 ND]. apply NoDup_cons in ND as [H2 _]. set_solver. }
    rewrite (ST_bind_eq _ _ _ _ _ E2).
    destruct (around_exists qhead [] xs) as (a' & nxt & HA').
    pose proof (around_edge h2 qhead [] xs a' nxt R2 HA') as [En _]. destruct HA' as [La Hn].
    injection La as <-. unfold queue_head. rewrite (ld_next_step _ _ _ _ En).
    destruct (IH h2 nxt fuel R2 Hn) as (h3 & E3 & R3); [lia|].
    rewrite (ST_bind_eq _ _ _ _ _ E3). exists h3. done.
Qed.

(** Order of the tasks of a queue: [pop_task] returns them in the order
    they were pushed, but a worker that takes the whole queue handles the
    tasks pushed since its last round in the reverse order, the last one
    first; it handles each of them exactly once and leaves nothing in the list
    it works on. *)
Theorem task_queue_order do_task h tq qhead xs :
  ring h tq [] -> is_node h qhead -> Forall (is_node h) xs -> NoDup (xs ++ [tq]) ->
  qhead ∉ xs ++ [tq] -> leaves_list do_task qhead ->
  exists h1, push_all tq xs h = Some (tt, h1) /\
    (exists h2, pop_n (length xs) tq h1 = Some (xs, h2) /\ ring h2 tq []) /\
    (exists h2, do_task_handler do_task (length xs) true tq qhead h1 = Some (rev xs, h2) /\
       ring h2 qhead []).
Proof.
  intros HR HQ HN ND Hq Act.
  destruct (push_all_ring h tq xs [] HR HN ND) as (h1 & E1 & R1 & K1). rewrite app_nil_r in R1.
  exists h1. split; [done|]. split; [by apply pop_n_ring|].
  unfold do_task_handler. destruct (init_ring h1 qhead (K1 _ HQ)) as (h2 & E2 & R2 & F2).
  rewrite (ST_bind_eq _ _ _ _ _ E2).
  assert (Hq' : qhead ∉ tq :: rev xs).
  { rewrite elem_of_cons, list_elem_of_In, <- in_rev, <- list_elem_of_In.
    rewrite elem_of_app, list_elem_of_singleton in Hq. tauto. }
  destruct (pop_all_ring h2 tq qhead (rev xs)) as (h3 & E3 & R3 & _); [|done..|].
  { eapply ring_frame; [exact F2| |exact R1]. by intros z ->%list_elem_of_singleton. }
  rewrite (ST_bind_eq _ _ _ _ _ E3).
  destruct (around_exists qhead [] (rev xs)) as (a & nxt & HA).
  pose proof (around_edge h3 qhead [] (rev xs) a nxt R3 HA) as [En _]. destruct HA as [La Hn].
  injection La as <-. unfold queue_head. rewrite (ld_next_step _ _ _ _ En).
  apply handler_loop_all; try done. by rewrite length_rev.
Qed.

Lemma task_queue_order_witness :
  let h := list_to_map [(1, Node 1 1); (2, Node 0 0); (10, Node 0 0); (11, Node 0 0); (12, Node 0 0)] in
  exists h1, push_all 1 [10; 11; 12] h = Some (tt, h1) /\
    (exists h2, pop_n 3 1 h1 = Some ([10; 11; 12], h2) /\ ring h2 1 []) /\
    (exists h2, do_task_handler (fun _ => mret tt) 3 true 1 2 h1 = Some ([12; 11; 10], h2) /\ ring h2 2 []).
Proof.
  intros h. apply (task_queue_order (fun _ => mret tt) h 1 2 [10; 11; 12]).
  - by_decide.
  - by_decide.
  - by_decide.
  - by_decide.
  - by_decide.
  - intros h' cur rest R _ _. by exists h'.
Defined.

End TaskQueue.
