(* ===== verification/Cache.v ===== *)
(** * Object caches of the namenode

    The file index, the block index and the datanode index keep their objects
    the same way: in blocks of a fixed size taken from a pool (dfs_mblks),
    linked into a hash table by a key inside the object (dfs_hashtable).  This
    file has the three operations they share on the level Mblks.v
    ([block_pool_discipline]) and Hashtable.v ([hashtable_refines_lists])
    justify: the pool is a stack of free addresses, the table a list of
    buckets, of which there are at most 2^31, as removing a link needs, and less
    than 2^31 objects. *)

From Stdlib Require Import ZArith Lia Bool.
From stdpp Require Import base numbers gmap option list.
From S2P Require Import Prelude Libc Hashtable.

Module Cache.

(** ** Definitions *)

(** What a table needs to know about its objects: the key and length stored in
    the link, the table's comparison and its hash function. *)
Class Keyed (A : Type) := {
  c_key : A -> list Z;
  c_len : A -> nat;
  c_cmp : list Z -> list Z -> nat -> Z;
  c_hash : list Z -> nat -> Z -> option Z
}.

(** What the comparison and the hash function promise. *)
Class KeyedLaws (A : Type) `{Keyed A} := {
  cmp_refl (k : list Z) (n : nat) : c_cmp k k n = 0;
  hash_range (a : A) (sz : Z) : 0 < sz ->
    exists h, c_hash (c_key a) (c_len a) sz = Some h /\ 0 <= h < sz
}.

Record cache (A : Type) := Cache {
  objs : gmap Z A; free : list Z; tab : Hashtable.table
}.
Arguments Cache {A}.
Arguments objs {A}.
Arguments free {A}.
Arguments tab {A}.

Section cache.

Context {A : Type} `{KA : Keyed A}.

Definition size_ (c : cache A) : Z := Z.of_nat (length (tab c)).

(** [dfs_hashtable_lookup]; the outer option is a hash function that reads
    memory it may not. *)
Definition get (c : cache A) (k : list Z) (n : nat) : option (option Z) :=
  h ← c_hash k n (size_ c);
  Some (Hashtable.tb_lookup c_cmp (fun x => c_key <$> objs c !! x) (tab c) (Z.to_nat h) k n).

(** [mem_get0] and [dfs_hashtable_join]: [None] when the pool is empty. *)
Definition add (c : cache A) (a : A) : option (Z * cache A) :=
  match free c with
  | [] => None
  | x :: fr =>
      h ← c_hash (c_key a) (c_len a) (size_ c);
      Some (x, Cache (<[x := a]> (objs c)) fr (Hashtable.tb_join (tab c) (Z.to_nat h) x))
  end.

(** [dfs_hashtable_remove_link] and [mem_put]. *)
Definition del (c : cache A) (x : Z) : option (cache A) :=
  a ← objs c !! x;
  h ← c_hash (c_key a) (c_len a) (size_ c);
  Some (Cache (delete x (objs c)) (x :: free c) (Hashtable.tb_remove (tab c) (Z.to_nat h) x)).

(** A write to a field of an object. *)
Definition upd (c : cache A) (x : Z) (f : A -> A) : cache A :=
  Cache (alter f x (objs c)) (free c) (tab c).

(** A pool of the addresses [xs] and an empty table of [n] buckets. *)
Definition empty_cache (xs : list Z) (n : nat) : cache A := Cache ∅ xs (replicate n []).

(** ** Invariant *)

(** The bucket of an object. *)
Definition bucket_of (c : cache A) (a : A) (i : nat) : Prop :=
  exists h, c_hash (c_key a) (c_len a) (size_ c) = Some h /\ i = Z.to_nat h.

Record ok (c : cache A) : Prop := {
  ok_size : (0 < length (tab c))%nat;
  ok_nodup : NoDup (concat (tab c));
  ok_mem x : x ∈ concat (tab c) <-> is_Some (objs c !! x);
  ok_bucket i xs x a : tab c !! i = Some xs -> x ∈ xs -> objs c !! x = Some a -> bucket_of c a i;
  ok_free : NoDup (free c);
  ok_disj x : x ∈ free c -> objs c !! x = None
}.

(** ** Lemmas *)

Lemma in_tb_update (B : Hashtable.table) i xs f y : B !! i = Some xs ->
  forall j ys, Hashtable.tb_update B i f !! j = Some ys -> y ∈ ys ->
  (j = i /\ y ∈ f xs) \/ (j <> i /\ B !! j = Some ys).
Proof.
  intros E j ys Ej Hy. unfold Hashtable.tb_update in Ej. rewrite E in Ej.
  destruct (decide (j = i)) as [->|N].
  - rewrite list_lookup_insert_eq in Ej by (by apply lookup_lt_Some in E). left. by simplify_eq.
  - rewrite list_lookup_insert_ne in Ej by done. by right.
Qed.

Lemma tb_update_length (B : Hashtable.table) i f : length (Hashtable.tb_update B i f) = length B.
Proof. unfold Hashtable.tb_update. destruct (B !! i); [|done]. apply length_insert. Qed.

Lemma concat_tb_join (B : Hashtable.table) i xs x :
  B !! i = Some xs -> concat (Hashtable.tb_join B i x) ≡ₚ x :: concat B.
Proof.
  intros E. unfold Hashtable.tb_join. rewrite (Hashtable.update_split B i xs) by done.
  destruct (Hashtable.bucket_split B i xs E) as [EB _]. rewrite EB at 3.
  rewrite !concat_app. simpl. by rewrite <- Permutation_middle.
Qed.

Lemma elem_filter_ne x y xs : y ∈ List.filter (fun z => negb (z =? x)) xs <-> y ∈ xs /\ y <> x.
Proof. rewrite !list_elem_of_In, filter_In, negb_true_iff, Z.eqb_neq. done. Qed.

Lemma nodup_filter_ne x xs : NoDup xs -> NoDup (List.filter (fun z => negb (z =? x)) xs).
Proof. intros H. apply NoDup_ListNoDup, List.NoDup_filter, NoDup_ListNoDup, H. Qed.

Lemma filter_ne_length x xs : NoDup xs -> x ∈ xs ->
  length xs = S (length (List.filter (fun z => negb (z =? x)) xs)).
Proof.
  intros ND Hx. apply list_elem_of_split in Hx as (l1 & l2 & ->).
  apply NoDup_app in ND as (_ & D & N). apply NoDup_cons in N as [N _].
  rewrite Hashtable.filter_removes, !length_app; [simpl; lia| |done]. intros H. apply (D x H). set_solver.
Qed.

Lemma elem_tb_remove (B : Hashtable.table) i xs x y :
  NoDup (concat B) -> B !! i = Some xs -> x ∈ xs ->
  y ∈ concat (Hashtable.tb_remove B i x) <-> y ∈ concat B /\ y <> x.
Proof.
  intros ND E Hx. unfold Hashtable.tb_remove. rewrite (Hashtable.update_split B i xs) by done.
  destruct (Hashtable.bucket_split B i xs E) as [EB _].
  set (l1 := take i B) in *. set (l2 := drop (S i) B) in *.
  rewrite EB in ND |- *. clearbody l1 l2. clear E EB.
  rewrite !concat_app in *. simpl in *. rewrite !elem_of_app, elem_filter_ne.
  apply NoDup_app in ND as (_ & D1 & N2). apply NoDup_app in N2 as (_ & D2 & _).
  assert (x ∉ concat l1) by (intros Hc; apply (D1 x Hc); set_solver).
  assert (x ∉ concat l2) by (intros Hc; by apply (D2 x Hx)).
  split; [intros [|[[]|]]|intros [[|[|]] ?]]; split_and?; try tauto; intros ->; tauto.
Qed.

Lemma upd_lookup c x f y : objs (upd c x f) !! y = (if decide (x = y) then f else id) <$> objs c !! y.
Proof.
  cbn. destruct (decide (x = y)) as [->|N]; [by rewrite lookup_alter_eq|].
  rewrite lookup_alter_ne by done. by rewrite option_fmap_id.
Qed.

(** A write that keeps the key does not change what is found. *)
Lemma get_upd c x f k n : (forall a, objs c !! x = Some a -> c_key (f a) = c_key a) -> get (upd c x f) k n = get c k n.
Proof.
  intros H. unfold get, Hashtable.tb_lookup.
  assert (E : forall y, (c_key <$> objs (upd c x f) !! y) = (c_key <$> objs c !! y)).
  { intros y. rewrite upd_lookup. destruct (objs c !! y) eqn:Ey; [|done]. cbn. case_decide; [subst; by rewrite H|done]. }
  change (size_ (upd c x f)) with (size_ c). change (tab (upd c x f)) with (tab c).
  destruct (c_hash k n (size_ c)) as [h|]; [|done]. cbn [mbind option_bind]. f_equal.
  destruct (tab c !! Z.to_nat h) as [xs|]; [|done]. cbn [mbind option_bind].
  induction xs as [|y xs IH]; [done|]. cbn [List.find]. by rewrite E, IH.
Qed.

Lemma upd_ok c x f :
  (forall a, c_key (f a) = c_key a) -> (forall a, c_len (f a) = c_len a) ->
  ok c -> ok (upd c x f).
Proof.
  intros Hk Hl [S N M B F D]. split; try done.
  - intros y. cbn [tab upd]. rewrite M, upd_lookup, fmap_is_Some. done.
  - intros i xs y a E Hy Ha. rewrite upd_lookup in Ha.
    apply fmap_Some in Ha as (a0 & Ea & ->). destruct (B i xs y a0 E Hy Ea) as (h & Eh & ->).
    exists h. split; [|done]. destruct (decide (x = y)); cbn [id]; [by rewrite Hk, Hl|done].
  - intros y Hy. rewrite upd_lookup, (D y Hy). done.
Qed.

Lemma fmap_ok c (f : A -> A) :
  (forall a, c_key (f a) = c_key a) -> (forall a, c_len (f a) = c_len a) ->
  ok c -> ok (Cache (f <$> objs c) (free c) (tab c)).
Proof.
  intros Hk Hl [S N M B F D]. split; try done.
  - intros y. cbn [tab objs]. by rewrite M, lookup_fmap, fmap_is_Some.
  - intros i xs y a E Hy Ha. cbn [objs] in Ha. rewrite lookup_fmap in Ha.
    apply fmap_Some in Ha as (a0 & Ea & ->). destruct (B i xs y a0 E Hy Ea) as (h & Eh & ->).
    exists h. by rewrite Hk, Hl.
  - intros y Hy. cbn [objs]. by rewrite lookup_fmap, (D y Hy).
Qed.

(** *** Lookup *)

Lemma get_sound c k n x :
  get c k n = Some (Some x) ->
  exists a h xs, objs c !! x = Some a /\ c_cmp k (c_key a) n = 0 /\
    c_hash k n (size_ c) = Some h /\ tab c !! Z.to_nat h = Some xs /\ x ∈ xs.
Proof.
  unfold get. destruct (c_hash k n (size_ c)) as [h|]; cbn [mbind option_bind]; [|done].
  unfold Hashtable.tb_lookup. destruct (tab c !! Z.to_nat h) as [xs|] eqn:Exs; cbn [mbind option_bind]; [|done].
  intros [= E]. apply List.find_some in E as [Hin Hc].
  destruct (objs c !! x) as [a|] eqn:Ea; cbn in Hc; [|done].
  apply Z.eqb_eq in Hc. exists a, h, xs. by rewrite list_elem_of_In.
Qed.

Lemma get_None c k n :
  get c k n = Some None -> ok c ->
  forall x a, objs c !! x = Some a ->
    c_hash (c_key a) (c_len a) (size_ c) = c_hash k n (size_ c) -> c_cmp k (c_key a) n <> 0.
Proof.
  intros G O x a Ea Eh. unfold get in G.
  destruct (c_hash k n (size_ c)) as [h|] eqn:EH; cbn [mbind option_bind] in G; [|done].
  injection G as G.
  assert (Hx : x ∈ concat (tab c)) by (apply (ok_mem c O); eauto).
  destruct (Hashtable.in_concat_inv _ _ Hx) as (i & xs & Exs & Hin).
  destruct (ok_bucket c O i xs x a Exs Hin Ea) as (h' & Eh' & ->).
  rewrite Eh in Eh'. injection Eh' as <-.
  unfold Hashtable.tb_lookup in G. rewrite Exs in G. cbn [mbind option_bind] in G.
  pose proof (List.find_none _ _ G x (proj1 (list_elem_of_In xs x) Hin)) as Hn.
  cbn in Hn. rewrite Ea in Hn. cbn in Hn. by apply Z.eqb_neq in Hn.
Qed.

(** A key that compares equal to one object of its bucket only is found. *)
Lemma get_exact `{!KeyedLaws A} c x a :
  ok c -> objs c !! x = Some a ->
  (forall y b, objs c !! y = Some b ->
     c_hash (c_key b) (c_len b) (size_ c) = c_hash (c_key a) (c_len a) (size_ c) ->
     c_cmp (c_key a) (c_key b) (c_len a) = 0 -> y = x) ->
  get c (c_key a) (c_len a) = Some (Some x).
Proof.
  intros O Ea U. destruct (hash_range a (size_ c)) as (h & Eh & _).
  { unfold size_. pose proof (ok_size c O). lia. }
  destruct (get c (c_key a) (c_len a)) as [[y|]|] eqn:G.
  - destruct (get_sound c _ _ y G) as (b & h' & xs & Eb & Hc & Eh' & Exs & Hin).
    do 2 f_equal. apply (U y b Eb); [|done].
    destruct (ok_bucket c O _ xs y b Exs Hin Eb) as (hb & Ehb & Hb). rewrite Ehb, Eh.
    f_equal. rewrite Eh in Eh'. injection Eh' as <-.
    destruct (hash_range b (size_ c)) as (hb' & Ehb' & R); [unfold size_; pose proof (ok_size c O); lia|].
    destruct (hash_range a (size_ c)) as (ha' & Eha' & R'); [unfold size_; pose proof (ok_size c O); lia|].
    rewrite Ehb in Ehb'. rewrite Eh in Eha'. simplify_eq. lia.
  - exfalso. apply (get_None c _ _ G O x a Ea); [done|]. apply cmp_refl.
  - unfold get in G. by rewrite Eh in G.
Qed.

Lemma get_fresh `{!KeyedLaws A} c (a : A) :
  ok c ->
  (forall y b, objs c !! y = Some b ->
     c_hash (c_key b) (c_len b) (size_ c) = c_hash (c_key a) (c_len a) (size_ c) ->
     c_cmp (c_key a) (c_key b) (c_len a) <> 0) ->
  get c (c_key a) (c_len a) = Some None.
Proof.
  intros O U. destruct (hash_range a (size_ c)) as (h & Eh & R).
  { unfold size_. pose proof (ok_size c O). lia. }
  destruct (get c (c_key a) (c_len a)) as [[y|]|] eqn:G; [|done|unfold get in G; by rewrite Eh in G].
  destruct (get_sound c _ _ y G) as (b & h' & xs & Eb & Hc & Eh' & Exs & Hin).
  exfalso. apply (U y b Eb); [|done].
  destruct (ok_bucket c O _ xs y b Exs Hin Eb) as (hb & Ehb & Hb). rewrite Ehb, Eh. f_equal.
  rewrite Eh in Eh'. injection Eh' as <-.
  destruct (hash_range b (size_ c)) as (hb' & Ehb' & R'); [unfold size_; pose proof (ok_size c O); lia|].
  rewrite Ehb in Ehb'. simplify_eq. lia.
Qed.

(** *** Adding and removing *)

Lemma index_bucket `{!KeyedLaws A} c (a : A) : ok c ->
  exists h xs, c_hash (c_key a) (c_len a) (size_ c) = Some h /\ tab c !! Z.to_nat h = Some xs.
Proof.
  intros O. destruct (hash_range a (size_ c)) as (h & Eh & R).
  { unfold size_. pose proof (ok_size c O). lia. }
  destruct (lookup_lt_is_Some_2 (tab c) (Z.to_nat h)) as [xs Exs]; [unfold size_ in R; lia|]. eauto.
Qed.

Lemma add_ok `{!KeyedLaws A} c a x fr :
  ok c -> free c = x :: fr ->
  exists c', add c a = Some (x, c') /\ ok c' /\ objs c !! x = None /\
    objs c' = <[x := a]> (objs c) /\ free c' = fr /\ size_ c' = size_ c.
Proof.
  intros O Ef. destruct (index_bucket c a O) as (h & xs & Eh & Exs).
  assert (Hx : objs c !! x = None) by (apply (ok_disj c O); rewrite Ef; set_solver).
  unfold add. rewrite Ef, Eh. cbn [mbind option_bind]. eexists. split; [reflexivity|].
  assert (ES : size_ (Cache (<[x:=a]> (objs c)) fr (Hashtable.tb_join (tab c) (Z.to_nat h) x)) = size_ c).
  { unfold size_. cbn [tab]. unfold Hashtable.tb_join. by rewrite tb_update_length. }
  split_and?; try done. destruct O as [S N M B F D]. rewrite Ef in F, D. apply NoDup_cons in F as [F1 F2].
  split; cbn [tab objs free].
  - unfold Hashtable.tb_join. by rewrite tb_update_length.
  - rewrite (concat_tb_join _ _ xs) by done. apply NoDup_cons. split; [|done].
    rewrite M, Hx. by intros [? ?].
  - intros y. rewrite (concat_tb_join _ _ xs), elem_of_cons, M by done.
    rewrite lookup_insert. case_decide as E; split; intros HH; try naive_solver.
  - intros i ys y b Ei Hy Eb. unfold bucket_of. rewrite ES.
    destruct (in_tb_update _ _ xs (cons x) y Exs i ys Ei Hy) as [[-> Hy']|[Hne Ei']].
    + apply elem_of_cons in Hy' as [->|Hy'].
      * rewrite lookup_insert_eq in Eb. simplify_eq. eauto.
      * rewrite lookup_insert_ne in Eb; [exact (B _ xs y b Exs Hy' Eb)|]. intros <-.
        destruct (proj1 (M x)) as [? ?]; [exact (Hashtable.in_concat _ _ _ _ Exs Hy')|congruence].
    + rewrite lookup_insert_ne in Eb; [exact (B _ ys y b Ei' Hy Eb)|]. intros <-.
      destruct (proj1 (M x)) as [? ?]; [exact (Hashtable.in_concat _ _ _ _ Ei' Hy)|congruence].
  - done.
  - intros y Hy. rewrite lookup_insert_ne by (intros <-; done). apply D. set_solver.
Qed.

Lemma del_ok `{!KeyedLaws A} c x a :
  ok c -> objs c !! x = Some a ->
  exists c', del c x = Some c' /\ ok c' /\
    objs c' = delete x (objs c) /\ free c' = x :: free c /\ size_ c' = size_ c.
Proof.
  intros O Ea. unfold del. rewrite Ea. cbn [mbind option_bind].
  assert (Hx : x ∈ concat (tab c)) by (apply (ok_mem c O); eauto).
  destruct (Hashtable.in_concat_inv _ _ Hx) as (i & xs & Exs & Hin).
  destruct (ok_bucket c O i xs x a Exs Hin Ea) as (h & Eh & ->). rewrite Eh. cbn [mbind option_bind].
  eexists. split; [reflexivity|].
  assert (ES : size_ (Cache (delete x (objs c)) (x :: free c)
    (Hashtable.tb_remove (tab c) (Z.to_nat h) x)) = size_ c).
  { unfold size_. cbn [tab]. unfold Hashtable.tb_remove. by rewrite tb_update_length. }
  split_and?; try done. destruct O as [S N M B F D]. split; cbn [tab objs free].
  - unfold Hashtable.tb_remove. by rewrite tb_update_length.
  - by apply (Hashtable.nodup_remove _ _ xs).
  - intros y. rewrite (elem_tb_remove _ _ xs), M by done. rewrite lookup_delete.
    case_decide as E; split; intros HH; try naive_solver.
  - intros j ys y b Ej Hy Eb. unfold bucket_of. rewrite ES. apply lookup_delete_Some in Eb as [Hne Eb].
    destruct (in_tb_update _ _ xs _ y Exs j ys Ej Hy) as [[-> Hy']|[_ Ej']].
    + apply elem_filter_ne in Hy' as [Hy' _]. exact (B _ xs y b Exs Hy' Eb).
    + exact (B _ ys y b Ej' Hy Eb).
  - apply NoDup_cons. split; [|done]. intros Hf. rewrite (D x Hf) in Ea. done.
  - intros y [->|Hy]%elem_of_cons; [apply lookup_delete_eq|].
    rewrite lookup_delete. case_decide; [done|]. by apply D.
Qed.

Lemma concat_replicate_nil n : concat (replicate n ([] : list Z)) = [].
Proof. induction n; simpl; auto. Qed.

Lemma empty_ok xs n : (0 < n)%nat -> NoDup xs -> ok (empty_cache xs n).
Proof.
  intros Hn Hx. split; cbn [tab objs free empty_cache].
  - by rewrite length_replicate.
  - rewrite concat_replicate_nil. apply NoDup_nil_2.
  - intros x. rewrite concat_replicate_nil, lookup_empty. split; [by intros ?%elem_of_nil|by intros [? ?]].
  - intros i ys x a Ei Hin. apply lookup_replicate in Ei as [-> _]. by apply elem_of_nil in Hin.
  - done.
  - intros x _. apply lookup_empty.
Qed.

End cache.
End Cache.
