(* ===== verification/NnTypes.v ===== *)
(** * Constants and records of the namenode

    src/common/dfs_task_cmd.h, src/core/dfs_types.h and the records of
    src/namenode/nn_file_index.h.  Character arrays that hold a C string are
    the list of its characters. *)

From Stdlib Require Import ZArith Lia Bool.
From stdpp Require Import base numbers list.
From S2P Require Import Prelude Libc.

Module NnTypes.

(** ** Return values *)
Definition DFS_OK : Z := 0.
Definition DFS_ERROR : Z := -1.

(** [cmd_t] *)
Definition NN_MKDIR : Z := 1.
Definition NN_RMR : Z := 2.
Definition NN_LS : Z := 3.
Definition NN_GET_FILE_INFO : Z := 4.
Definition NN_CREATE : Z := 5.
Definition NN_GET_ADDITIONAL_BLK : Z := 6.
Definition NN_CLOSE : Z := 7.
Definition NN_RM : Z := 8.
Definition NN_OPEN : Z := 9.
Definition DN_REGISTER : Z := 10.
Definition DN_HEARTBEAT : Z := 11.
Definition DN_RECV_BLK_REPORT : Z := 12.
Definition DN_DEL_BLK_REPORT : Z := 13.
Definition DN_BLK_REPORT : Z := 14.

(** [paxos_status], [opt_err] and [fi_status] *)
Definition SUCC : Z := 0.
Definition FAIL : Z := -10.
Definition MASTER_REDIRECT : Z := 10.
Definition NO_MASTER : Z := 101.
Definition PERMISSION_DENY : Z := -1.
Definition FSOBJECT_EXCEED : Z := -2.
Definition NOT_DIRECTORY : Z := -20.
Definition NOT_FILE : Z := -21.
Definition IN_SAFE_MODE : Z := -4.
Definition NOT_DATANODE : Z := -3.
Definition KEY_STATE_OK : Z := 0.
Definition KEY_EXIST : Z := -17.
Definition KEY_NOTEXIST : Z := -2.
Definition KEY_STATE_CREATING : Z := -1.

Definition BLK_LIMIT : nat := 64.

(** ** Records *)

Record fi_inode_t := Inode {
  key : list Z; uid : Z; permission : Z; owner : list Z; group : list Z;
  modification_time : Z; access_time : Z; is_directory : bool; flength : Z;
  blk_size : Z; blk_replication : Z; blks : list Z
}.

(** An inode cleared with [memset]. *)
Definition zero_inode : fi_inode_t := Inode [] 0 0 [] [] 0 0 false 0 0 0 (replicate BLK_LIMIT 0).

Definition set_mtime (i : fi_inode_t) (t : Z) : fi_inode_t :=
  Inode (key i) (uid i) (permission i) (owner i) (group i) t (access_time i) (is_directory i)
    (flength i) (blk_size i) (blk_replication i) (blks i).
Definition set_blks (i : fi_inode_t) (bs : list Z) : fi_inode_t :=
  Inode (key i) (uid i) (permission i) (owner i) (group i) (modification_time i) (access_time i)
    (is_directory i) (flength i) (blk_size i) (blk_replication i) bs.

(** What the log entries carry (data/phxeditlog.proto): the operation type and
    the message for it. *)
Inductive log_op :=
  | LogMkdir (key : list Z) (permission : Z) (owner group : list Z) (mtime : Z)
  | LogRmr (key : list Z) (mtime : Z)
  | LogGetFileInfo
  | LogCreate (key : list Z) (permission : Z) (owner group : list Z) (mtime blk_id blk_sz blk_rep : Z)
  | LogGetAdditionalBlk (key : list Z) (blk_id blk_sz blk_rep : Z)
  | LogClose (key : list Z) (mtime len blk_rep : Z)
  | LogRm (key : list Z) (mtime : Z)
  | LogOpen
  | LogUnknown (optype : Z).

End NnTypes.
