(* ===== verification/Permission.v ===== *)
(** * Access checks: src/common/fs_permission.c

    Permissions are three decimal digits (user, group, others), each the
    number of an entry of [FsAction]. *)

From Stdlib Require Import ZArith Lia Bool String.
From stdpp Require Import base numbers list.
From S2P Require Import Prelude Libc CString NnTypes.

Module Permission.
Import NnTypes.

(** ** Definitions *)

Definition NONE : Z := 0.
Definition EXECUTE : Z := 1.
Definition WRITE : Z := 2.
Definition WRITE_EXECUTE : Z := 3.
Definition READ : Z := 4.
Definition READ_EXECUTE : Z := 5.
Definition READ_WRITE : Z := 6.
Definition ALL : Z := 7.

Definition FsAction : list (list Z) :=
  map lit ["---"; "--x"; "-w-"; "-wx"; "r--"; "r-x"; "rw-"; "rwx"]%string.

(** [FsAction[i]]: undefined out of range. *)
Definition action (i : Z) : option (list Z) :=
  if i <? 0 then None else FsAction !! Z.to_nat i.

(** The digits of a [short]; C division truncates. *)
Definition digits (permission : Z) : Z * Z * Z :=
  let o := Z.rem permission 10 in
  let c := Z.quot permission 10 in
  (Z.quot c 10, Z.rem c 10, o).

(** [Some None] is [DFS_OK]; otherwise the message written to [err]. *)
Definition check_permission (user group_ : list Z) (finode : fi_inode_t) (access : Z) :
    option (option (list Z)) :=
  let '(u, g, o) := digits (permission finode) in
  let granted :=
    if Libc.strncmp user (owner finode) (Libc.strlen (owner finode)) =? 0 then u =? access
    else if Libc.strncmp group_ (group finode) (Libc.strlen (group finode)) =? 0 then g =? access
    else o =? access in
  if granted : bool then Some None
  else
    a ← action access;
    Some (Some (lit "Permission denied: user=" ++ user ++ lit ", access=" ++ a)%list).

Definition is_super (user admin : list Z) : bool :=
  Libc.strncmp user admin (List.length admin) =? 0.

Definition get_permission (permission : Z) : option (list Z) :=
  let '(u, g, o) := digits permission in
  a ← action u; b ← action g; c ← action o; Some (a ++ b ++ c)%list.

(** ** Lemmas *)

Lemma action_range i a : action i = Some a -> 0 <= i < 8.
Proof.
  unfold action. destruct (i <? 0) eqn:E; [done|]. apply Z.ltb_ge in E.
  intros H%lookup_lt_Some. simpl in H. lia.
Qed.

Lemma action_ok i : 0 <= i < 8 -> exists a, action i = Some a.
Proof.
  intros Hi. unfold action. rewrite (proj2 (Z.ltb_ge _ _)) by lia.
  apply lookup_lt_is_Some_2. simpl. lia.
Qed.

(** The digit that decides about a user. *)
Definition class_digit (user group_ : list Z) (finode : fi_inode_t) : Z :=
  let '(u, g, o) := digits (permission finode) in
  if Libc.strncmp user (owner finode) (Libc.strlen (owner finode)) =? 0 then u
  else if Libc.strncmp group_ (group finode) (Libc.strlen (group finode)) =? 0 then g
  else o.

Lemma check_permission_digit user group_ finode access :
  0 <= access < 8 ->
  exists r, check_permission user group_ finode access = Some r /\
    (r = None <-> class_digit user group_ finode = access).
Proof.
  intros Ha. destruct (action_ok access Ha) as [a Ea].
  unfold check_permission, class_digit. destruct (digits (permission finode)) as [[u g] o].
  repeat match goal with |- context [if ?c =? 0 then _ else _] => destruct (c =? 0) end;
    match goal with |- context [?d =? access] => destruct (Z.eqb_spec d access) end;
    rewrite ?Ea; cbn [mbind option_bind]; eexists; (split; [reflexivity|]); split; congruence.
Qed.

(** Access is granted on equality with the digit, not on a set of bits: no
    inode grants the same user two different kinds of access. *)
Theorem permission_is_equality user group_ finode a1 a2 :
  0 <= a1 < 8 -> 0 <= a2 < 8 ->
  check_permission user group_ finode a1 = Some None ->
  check_permission user group_ finode a2 = Some None -> a1 = a2.
Proof.
  intros H1 H2 E1 E2.
  destruct (check_permission_digit user group_ finode a1 H1) as (r1 & R1 & D1).
  destruct (check_permission_digit user group_ finode a2 H2) as (r2 & R2 & D2).
  rewrite E1 in R1. rewrite E2 in R2. simplify_eq. destruct D1 as [D1 _], D2 as [D2 _].
  rewrite <- (D1 eq_refl). by apply D2.
Qed.

Lemma permission_is_equality_witness : WRITE = WRITE.
Proof.
  apply (permission_is_equality (lit "bob") (lit "staff")
    (Inode [] 0 277 (lit "bob") (lit "staff") 0 0 true 0 0 0 []) WRITE WRITE);
    [unfold WRITE; lia|unfold WRITE; lia|vm_compute; reflexivity|vm_compute; reflexivity].
Defined.

(** The superuser test is a prefix test: every user whose name starts with
    the administrator's name is the superuser. *)
Theorem is_super_prefix user admin :
  Libc.is_cstr admin -> is_super user admin = true <-> admin `prefix_of` user.
Proof.
  intros Hc. unfold is_super. rewrite Z.eqb_eq. by apply Libc.strncmp_prefix_r.
Qed.

Lemma is_super_prefix_witness :
  is_super (lit "rooter") (lit "root") = true <-> lit "root" `prefix_of` lit "rooter".
Proof. apply (is_super_prefix (lit "rooter") (lit "root")). by_decide. Defined.

End Permission.
