(* ===== verification/NnBlocks.v ===== *)
(** * Block and datanode indexes: src/namenode/nn_blk_index.c, nn_dn_index.c

    Blocks and datanodes live in caches (Cache.v).  A block is linked through
    [dn_me] into the ring [blk] of the datanode that reported it; [rings]
    holds these rings by the address of the datanode they belong to, and keeps
    a ring whose datanode was freed.  The C heap is the number of allocations
    that still succeed.

    A request is one step.  The code locks the parts of a handler one by one
    and changes some rings without the lock or with the lock for readers, so that
    requests in two threads can meet inside a handler; that is not modelled. *)

From Stdlib Require Import ZArith Lia Bool String.
From stdpp Require Import base numbers gmap option list.
From S2P Require Import Prelude Libc CString Mem Hashtable Cache NnTypes.

Module NnBlocks.
Import NnTypes Cache.

(** ** Data *)

(** [id] is a [long]; the table reads it as an unsigned number. *)
Record blk_store_t := Blk { id : Z; bsize : Z; dn_ip : list Z; dn_me : option Z }.

Record dn_store_t := Dn { dn_id : list Z; del_blk : list Z; del_blk_num : Z }.

Record dn_timer_t := Timer { t_id : list Z; t_dns : Z; t_expire : Z }.

Definition DFS_FALSE : Z := 0.
Definition DFS_TRUE : Z := 1.

Definition uint64_cmp (s1 s2 : list Z) (_ : nat) : Z :=
  if Mem.le_dec (take 8 s1) =? Mem.le_dec (take 8 s2) then DFS_FALSE else DFS_TRUE.

Definition req_hash (data : list Z) (_ : nat) (hashtable_size : Z) : option Z :=
  Some (Mem.le_dec (take 8 data) mod hashtable_size).

Definition dn_hash_keycmp (arg1 arg2 : list Z) (sz : nat) : Z := Libc.strncmp arg1 arg2 sz.

Definition ID_LEN : nat := 32.

(** A string in a zeroed [char id[ID_LEN]]. *)
Definition id_buf (s : list Z) : list Z := take 31 s ++ replicate (32 - length (take 31 s)) 0.

#[export] Instance blk_keyed : Keyed blk_store_t := {|
  c_key k := Mem.le_enc 8 (id k); c_len _ := 8%nat; c_cmp := uint64_cmp; c_hash := req_hash |}.

#[export] Instance dn_keyed : Keyed dn_store_t := {|
  c_key := dn_id; c_len n := length (dn_id n); c_cmp := dn_hash_keycmp; c_hash := Hashtable.str_hash |}.

#[export] Instance timer_keyed : Keyed dn_timer_t := {|
  c_key t := id_buf (t_id t); c_len t := length (take 31 (t_id t)); c_cmp := dn_hash_keycmp;
  c_hash k n sz := Hashtable.dfs_hashtable_hash_key8 k (Z.of_nat n) sz |}.

Record blocks := Blocks {
  g_nn_bcm : cache blk_store_t;
  g_dcm : cache dn_store_t;
  rings : gmap Z (list Z);
  g_dn_q : list Z;
  g_dn_n : Z;
  dn_timers : cache dn_timer_t;
  heap : nat;
  sequence : Z
}.

Definition set_bcm (b : blocks) (c : cache blk_store_t) (r : gmap Z (list Z)) : blocks :=
  Blocks c (g_dcm b) r (g_dn_q b) (g_dn_n b) (dn_timers b) (heap b) (sequence b).
Definition set_dcm (b : blocks) (c : cache dn_store_t) (hp : nat) : blocks :=
  Blocks (g_nn_bcm b) c (rings b) (g_dn_q b) (g_dn_n b) (dn_timers b) hp (sequence b).
Definition set_timers (b : blocks) (c : cache dn_timer_t) : blocks :=
  Blocks (g_nn_bcm b) (g_dcm b) (rings b) (g_dn_q b) (g_dn_n b) c (heap b) (sequence b).
Definition set_heap (b : blocks) (hp : nat) : blocks :=
  Blocks (g_nn_bcm b) (g_dcm b) (rings b) (g_dn_q b) (g_dn_n b) (dn_timers b) hp (sequence b).

(** [malloc] of an answer that the caller writes to without a check. *)
Definition malloc_unchecked (b : blocks) : option blocks :=
  match heap b with O => None | S hp => Some (set_heap b hp) end.

(** ** nn_blk_index.c *)

Definition get_blk_store_obj (b : blocks) (i : Z) : option (option Z) :=
  get (g_nn_bcm b) (Mem.le_enc 8 i) 8.

Definition get_dn_store_obj (b : blocks) (key : list Z) : option (option Z) :=
  get (g_dcm b) key (Libc.strlen key).

Definition notify_dn_2_delete_blk (b : blocks) (blk_id : Z) (ip : list Z) : option (Z * blocks) :=
  dns ← get_dn_store_obj b ip;
  match dns with
  | None => Some (DFS_ERROR, b)
  | Some d =>
      match heap b with
      | O => Some (DFS_ERROR, b)
      | S hp =>
          Some (DFS_OK, set_dcm b (upd (g_dcm b) d
            (fun n => Dn (dn_id n) (del_blk n ++ [blk_id]) (u64 (del_blk_num n + 1)))) hp)
      end
  end.

(** [queue_remove(&blk->dn_me)] writes to the two neighbours of the block: to
    freed memory when one of them is the ring of a datanode that is gone. *)
Definition dn_me_remove (b : blocks) (x : Z) (k : blk_store_t) : option (gmap Z (list Z)) :=
  match dn_me k with
  | None => Some (rings b)
  | Some d =>
      xs ← rings b !! d;
      if negb (bool_decide (x ∈ xs)) then None
      else if bool_decide (is_Some (objs (g_dcm b) !! d)) ||
              negb (bool_decide (head xs = Some x)) && negb (bool_decide (last xs = Some x))
      then Some (<[d := List.filter (fun y => negb (y =? x)) xs]> (rings b))
      else None
  end.

Definition block_object_del (b : blocks) (i : Z) : option blocks :=
  blk ← get_blk_store_obj b i;
  match blk with
  | None => Some b
  | Some x =>
      k ← objs (g_nn_bcm b) !! x;
      '(_, b1) ← notify_dn_2_delete_blk b i (dn_ip k);
      r ← dn_me_remove b1 x k;
      c ← del (g_nn_bcm b1) x;
      Some (set_bcm b1 c r)
  end.

(** Only the address is [None] when the pool is empty. *)
Definition add_block (b : blocks) (blk_id blk_sz : Z) (ip : list Z) : option (option Z * blocks) :=
  match free (g_nn_bcm b) with
  | [] => Some (None, b)
  | _ =>
      if (32 <=? length ip)%nat then None else
      '(x, c) ← add (g_nn_bcm b) (Blk blk_id blk_sz ip None);
      Some (Some x, set_bcm b c (rings b))
  end.

(** [sec] is the low half of the identifier, [seq] the high one. *)
Definition generate_uid (b : blocks) (time_curtime : Z) : Z * blocks :=
  let sec := u32 (time_curtime / 1000) in
  (sec + 2 ^ 32 * sequence b,
   Blocks (g_nn_bcm b) (g_dcm b) (rings b) (g_dn_q b) (g_dn_n b) (dn_timers b) (heap b)
     (u32 (sequence b + 1))).

(** ** nn_dn_index.c *)

Definition dn_timer_create (b : blocks) (now timeout : Z) (d : Z) (key : list Z) : option blocks :=
  match free (dn_timers b) with
  | [] => Some b
  | _ => '(_, c) ← add (dn_timers b) (Timer key d (now + timeout)); Some (set_timers b c)
  end.

(** A timer that is not found is a null pointer. *)
Definition dn_timer_update (b : blocks) (now timeout : Z) (d : Z) : option blocks :=
  n ← objs (g_dcm b) !! d;
  dt ← get (dn_timers b) (id_buf (dn_id n)) (Libc.strlen (dn_id n));
  y ← dt;
  Some (set_timers b (upd (dn_timers b) y (fun t => Timer (t_id t) (t_dns t) (now + timeout)))).

Definition nn_dn_register (b : blocks) (now timeout : Z) (key : list Z) : option (Z * blocks) :=
  dns ← get_dn_store_obj b key;
  b1 ← match dns with
       | Some d => dn_timer_update b now timeout d
       | None =>
           if (ID_LEN <=? length key)%nat then None else
           '(d, c) ← add (g_dcm b) (Dn key [] 0);
           dn_timer_create
             (Blocks (g_nn_bcm b) c (<[d := []]> (rings b)) (g_dn_q b ++ [d]) (g_dn_n b + 1)
                (dn_timers b) (heap b) (sequence b)) now timeout d key
       end;
  b2 ← malloc_unchecked b1;
  Some (DFS_OK, b2).

Definition DELETING_BLK_FOR_ONCE : Z := 5.

(** The loop of the heartbeat: the head of the ring is taken [n] times. *)
Fixpoint pop_del (n : nat) (dn : dn_store_t) : option (list Z * dn_store_t) :=
  match n with
  | O => Some ([], dn)
  | S n' =>
      match del_blk dn with
      | [] => None
      | i :: rest =>
          '(ids, dn') ← pop_del n' (Dn (dn_id dn) rest (u64 (del_blk_num dn - 1)));
          Some (i :: ids, dn')
      end
  end.

Definition nn_dn_heartbeat (b : blocks) (now timeout : Z) (key : list Z) :
    option (Z * list Z * blocks) :=
  dns ← get_dn_store_obj b key;
  match dns with
  | None => Some (DFS_ERROR, [], b)
  | Some d =>
      b1 ← dn_timer_update b now timeout d;
      n ← objs (g_dcm b1) !! d;
      if 0 <? del_blk_num n then
        let num := if DELETING_BLK_FOR_ONCE <? del_blk_num n then DELETING_BLK_FOR_ONCE
                   else del_blk_num n in
        b2 ← malloc_unchecked b1;
        '(ids, n') ← pop_del (Z.to_nat num) n;
        Some (DFS_OK, ids, set_dcm b2 (upd (g_dcm b2) d (fun _ => n')) (heap b2 + Z.to_nat num))
      else Some (DFS_OK, [], b1)
  end.

(** The timer [y] of a datanode expires.  The datanode's ring of blocks and
    its list of blocks to delete are left as they are. *)
Definition dn_timeout_handler (b : blocks) (y : Z) : option blocks :=
  dt ← objs (dn_timers b) !! y;
  tc ← del (dn_timers b) y;
  c ← del (g_dcm b) (t_dns dt);
  Some (Blocks (g_nn_bcm b) c (rings b) (List.filter (fun z => negb (z =? t_dns dt)) (g_dn_q b))
    (g_dn_n b - 1) tc (heap b) (sequence b)).

(** [queue_insert_tail(&dns->blk, &blk->dn_me)]; a block that could not be
    added is a null pointer. *)
Definition link_block (b : blocks) (d : Z) (blk : option Z) : option blocks :=
  x ← blk;
  xs ← rings b !! d;
  Some (set_bcm b (upd (g_nn_bcm b) x (fun k => Blk (id k) (bsize k) (dn_ip k) (Some d)))
    (<[d := xs ++ [x]]> (rings b))).

Definition nn_dn_recv_blk_report (b : blocks) (key : list Z) (blk_id blk_sz : Z) (ip : list Z) :
    option (Z * blocks) :=
  dns ← get_dn_store_obj b key;
  match dns with
  | None => Some (DFS_ERROR, b)
  | Some d =>
      '(blk, b1) ← add_block b blk_id blk_sz ip;
      b2 ← link_block b1 d blk;
      Some (DFS_OK, b2)
  end.

Definition nn_dn_blk_report (b : blocks) (key : list Z) (blk_id blk_sz : Z) (ip : list Z) :
    option (Z * blocks) :=
  dns ← get_dn_store_obj b key;
  match dns with
  | None => Some (DFS_ERROR, b)
  | Some d =>
      blk ← get_blk_store_obj b blk_id;
      match blk with
      | Some _ => Some (DFS_OK, b)
      | None =>
          '(blk, b1) ← add_block b blk_id blk_sz ip;
          b2 ← link_block b1 d blk;
          Some (DFS_OK, b2)
      end
  end.

(** The name of the datanode a new block goes to: always the head of the
    queue; [Some None] is [DFS_ERROR]. *)
Definition generate_dns (b : blocks) : option (option (list Z)) :=
  if g_dn_n b =? 0 then Some None
  else d ← head (g_dn_q b); n ← objs (g_dcm b) !! d; Some (Some (dn_id n)).

(** ** The caches' laws *)

#[export] Instance blk_laws : KeyedLaws blk_store_t.
Proof.
  split.
  - intros k n. cbn. unfold uint64_cmp. by rewrite Z.eqb_refl.
  - intros a sz Hs. cbn. unfold req_hash. eexists. split; [reflexivity|]. by apply Z.mod_pos_bound.
Qed.

#[export] Instance dn_laws : KeyedLaws dn_store_t.
Proof.
  split.
  - intros k n. cbn. apply Libc.strncmp_refl.
  - intros a sz Hs. cbn. unfold Hashtable.str_hash. eexists. split; [reflexivity|]. by apply Z.mod_pos_bound.
Qed.

Lemma id_buf_length s : length (id_buf s) = 32%nat.
Proof. unfold id_buf. rewrite length_app, length_replicate, length_take. lia. Qed.

Lemma key8_defined i bnum n s : (8 * i <= length s)%nat -> exists v, Hashtable.key8_words i bnum n s = Some v.
Proof.
  revert n s. induction i as [|i IH]; intros n s L; cbn [Hashtable.key8_words]; [eauto|].
  rewrite (proj2 (Nat.ltb_ge _ _)) by lia. apply IH. rewrite length_drop. lia.
Qed.

#[export] Instance timer_laws : KeyedLaws dn_timer_t.
Proof.
  split.
  - intros k n. cbn. apply Libc.strncmp_refl.
  - intros a sz Hs. cbn [c_hash c_key c_len timer_keyed]. unfold Hashtable.dfs_hashtable_hash_key8.
    set (n := length (take 31 (t_id a))).
    assert (n <= 31)%nat by (subst n; rewrite length_take; lia).
    edestruct key8_defined as [v ->]; [|cbn [mbind option_bind]; eexists; split; [reflexivity|by apply Z.mod_pos_bound]].
    rewrite id_buf_length, Z.shiftr_div_pow2 by lia.
    destruct (Z.eqb_spec (Z.of_nat n mod 8) 0); Z.to_euclidean_division_equations; lia.
Qed.

(** ** Invariant *)

(** Every block hangs in the ring of a datanode that is there. *)
Record blk_ok (b : blocks) : Prop := {
  bo_b : ok (g_nn_bcm b);
  bo_d : ok (g_dcm b);
  bo_t : ok (dn_timers b);
  bo_owner x k : objs (g_nn_bcm b) !! x = Some k ->
    exists d xs, dn_me k = Some d /\ is_Some (objs (g_dcm b) !! d) /\ rings b !! d = Some xs /\ x ∈ xs;
  bo_ring d : is_Some (objs (g_dcm b) !! d) -> exists xs, rings b !! d = Some xs /\ NoDup xs;
  bo_in d xs x : is_Some (objs (g_dcm b) !! d) -> rings b !! d = Some xs -> x ∈ xs ->
    exists k, objs (g_nn_bcm b) !! x = Some k /\ dn_me k = Some d;
  bo_num d n : objs (g_dcm b) !! d = Some n ->
    Libc.is_cstr (dn_id n) /\ (length (dn_id n) < ID_LEN)%nat /\ del_blk_num n = u64 (Z.of_nat (length (del_blk n)));
  bo_timer d n : objs (g_dcm b) !! d = Some n ->
    exists y t, objs (dn_timers b) !! y = Some t /\ t_id t = dn_id n /\ t_dns t = d;
  bo_timer_dn y t : objs (dn_timers b) !! y = Some t -> is_Some (objs (g_dcm b) !! t_dns t);
  bo_timer_inj y1 y2 t1 t2 : objs (dn_timers b) !! y1 = Some t1 -> objs (dn_timers b) !! y2 = Some t2 ->
    t_dns t1 = t_dns t2 -> y1 = y2;
  bo_q : NoDup (g_dn_q b);
  bo_q_in d : d ∈ g_dn_q b <-> is_Some (objs (g_dcm b) !! d);
  bo_n : g_dn_n b = Z.of_nat (length (g_dn_q b))
}.

(** ** Preservation *)

Lemma get_dn_total b key : exists r, get_dn_store_obj b key = Some r.
Proof. unfold get_dn_store_obj, get. cbn. eauto. Qed.

Lemma get_blk_total b i : exists r, get_blk_store_obj b i = Some r.
Proof. unfold get_blk_store_obj, get. cbn [c_hash blk_keyed]. unfold req_hash. cbn [mbind option_bind]. eauto. Qed.

Lemma get_dn_live b key d : get_dn_store_obj b key = Some (Some d) -> is_Some (objs (g_dcm b) !! d).
Proof. intros G. destruct (get_sound _ _ _ _ G) as (a & _ & _ & Ea & _). eauto. Qed.

(** A write to a datanode that keeps its name and its count right. *)
Lemma set_dcm_ok b d f hp :
  blk_ok b -> (forall n, dn_id (f n) = dn_id n) ->
  (forall n, objs (g_dcm b) !! d = Some n -> del_blk_num n = u64 (Z.of_nat (length (del_blk n))) ->
     del_blk_num (f n) = u64 (Z.of_nat (length (del_blk (f n))))) ->
  blk_ok (set_dcm b (upd (g_dcm b) d f) hp).
Proof.
  intros [] Hid Hnum.
  assert (HS : forall e, is_Some (objs (upd (g_dcm b) d f) !! e) <-> is_Some (objs (g_dcm b) !! e)).
  { intros e. by rewrite upd_lookup, fmap_is_Some. }
  split; cbn [g_nn_bcm g_dcm rings g_dn_q g_dn_n dn_timers set_dcm]; try done.
  - apply upd_ok; [done| |done]. intros n. cbn. by rewrite Hid.
  - intros x k Hx. destruct (bo_owner0 x k Hx) as (e & xs & ? & ? & ? & ?). exists e, xs. by rewrite HS.
  - intros e. rewrite HS. apply bo_ring0.
  - intros e xs x. rewrite HS. apply bo_in0.
  - intros e n He. rewrite upd_lookup in He. apply fmap_Some in He as (n0 & E0 & ->).
    destruct (bo_num0 e n0 E0) as (? & ? & ?). case_decide; subst; cbn [Datatypes.id]; [|done].
    rewrite Hid. auto.
  - intros e n He. rewrite upd_lookup in He. apply fmap_Some in He as (n0 & E0 & ->).
    destruct (bo_timer0 e n0 E0) as (y & t & ? & Ht & ?). exists y, t. split_and!; try done.
    rewrite Ht. case_decide; cbn [Datatypes.id]; [by rewrite Hid|done].
  - intros y t Hy. rewrite HS. by apply (bo_timer_dn0 y).
  - intros e. by rewrite HS.
Qed.

Lemma notify_ok b i ip :
  blk_ok b -> exists r b', notify_dn_2_delete_blk b i ip = Some (r, b') /\ blk_ok b' /\
    g_nn_bcm b' = g_nn_bcm b /\ rings b' = rings b.
Proof.
  intros O. unfold notify_dn_2_delete_blk. destruct (get_dn_total b ip) as [[d|] ->]; cbn [mbind option_bind].
  - destruct (heap b) as [|hp]; do 2 eexists; (split; [reflexivity|]); [done|].
    split; [|done]. apply set_dcm_ok; [done|done|].
    cbn. intros n _ ->. rewrite length_app. cbn. rewrite u64_add_l. f_equal. lia.
  - do 2 eexists. split; [reflexivity|]. done.
Qed.

Lemma strlen_id b d n : blk_ok b -> objs (g_dcm b) !! d = Some n ->
  Libc.strlen (dn_id n) = length (dn_id n) /\ take 31 (dn_id n) = dn_id n.
Proof.
  intros O E. destruct (bo_num b O d n E) as (? & L & _). unfold ID_LEN in L.
  by rewrite Libc.strlen_cstr, take_ge by (done || lia).
Qed.

Lemma dn_timer_update_ok b now timeout d :
  blk_ok b -> is_Some (objs (g_dcm b) !! d) ->
  exists c, dn_timer_update b now timeout d = Some (set_timers b c) /\ blk_ok (set_timers b c).
Proof.
  intros O [n En]. unfold dn_timer_update. rewrite En. cbn [mbind option_bind].
  destruct (strlen_id b d n O En) as [EL ET].
  destruct (bo_timer b O d n En) as (y & t & Ey & Et & _).
  assert (Hk : c_key t = id_buf (dn_id n)) by (cbn; by rewrite Et).
  assert (Hl : c_len t = Libc.strlen (dn_id n)) by (cbn; by rewrite Et, ET, EL).
  assert (exists z, get (dn_timers b) (id_buf (dn_id n)) (Libc.strlen (dn_id n)) = Some (Some z)) as [z ->].
  { destruct (get _ _ _) as [[z|]|] eqn:G; [eauto| |].
    - exfalso. apply (get_None _ _ _ G (bo_t b O) y t Ey); [by rewrite Hk, Hl|]. rewrite Hk. apply cmp_refl.
    - destruct (index_bucket _ t (bo_t b O)) as (h & _ & Eh & _). unfold get in G.
      by rewrite <- Hk, <- Hl, Eh in G. }
  cbn [mbind option_bind]. eexists. split; [reflexivity|].
  destruct O. split; cbn [g_nn_bcm g_dcm rings g_dn_q g_dn_n dn_timers set_timers]; try done.
  - by apply upd_ok.
  - intros e m Ee. destruct (bo_timer0 e m Ee) as (y' & t' & Ey' & Et' & Ed').
    exists y', (if decide (z = y') then Timer (t_id t') (t_dns t') (now + timeout) else t').
    rewrite upd_lookup, Ey'. case_decide; done.
  - intros y' t' Ey'. rewrite upd_lookup in Ey'. apply fmap_Some in Ey' as (t0 & E0 & ->).
    specialize (bo_timer_dn0 y' t0 E0). by case_decide.
  - intros y1 y2 t1 t2 E1 E2 ED. rewrite upd_lookup in E1, E2.
    apply fmap_Some in E1 as (u1 & E1 & ->). apply fmap_Some in E2 as (u2 & E2 & ->).
    apply (bo_timer_inj0 y1 y2 u1 u2 E1 E2). by repeat case_decide.
Qed.

Lemma blk_del_ok b x k :
  blk_ok b -> objs (g_nn_bcm b) !! x = Some k ->
  exists r c, dn_me_remove b x k = Some r /\ del (g_nn_bcm b) x = Some c /\ blk_ok (set_bcm b c r) /\
    objs c = delete x (objs (g_nn_bcm b)).
Proof.
  intros O Ek. destruct (bo_owner b O x k Ek) as (d & xs & Ed & Hd & Er & Hx).
  destruct (del_ok _ x k (bo_b b O) Ek) as (c & Ec & Oc & Eo & _).
  unfold dn_me_remove. rewrite Ed, Er. cbn [mbind option_bind].
  rewrite (bool_decide_true (x ∈ xs)), (bool_decide_true (is_Some _)) by done. cbn [negb orb].
  do 2 eexists. split; [reflexivity|]. split; [exact Ec|]. split; [|done].
  destruct O. split; cbn [g_nn_bcm g_dcm rings g_dn_q g_dn_n dn_timers set_bcm]; try done.
  - intros y l Hy. rewrite Eo in Hy. apply lookup_delete_Some in Hy as [Hne Hy].
    destruct (bo_owner0 y l Hy) as (e & ys & El & He & Ee & Hin).
    destruct (decide (e = d)) as [->|Hde].
    + exists d. eexists. rewrite lookup_insert_eq. split_and!; try done. simplify_eq.
      by apply elem_filter_ne.
    + exists e, ys. by rewrite lookup_insert_ne.
  - intros e He. destruct (decide (e = d)) as [->|Hde].
    + rewrite lookup_insert_eq. eexists. split; [reflexivity|].
      destruct (bo_ring0 d He) as (ys & Ey & ND). simplify_eq.
      by apply nodup_filter_ne.
    + rewrite lookup_insert_ne by done. by apply bo_ring0.
  - intros e ys y He Hys Hy. destruct (decide (e = d)) as [->|Hde].
    + rewrite lookup_insert_eq in Hys. injection Hys as <-. apply elem_filter_ne in Hy as [Hy Hne].
      rewrite Eo, lookup_delete_ne by done. by apply (bo_in0 d xs y).
    + rewrite lookup_insert_ne in Hys by done. destruct (bo_in0 e ys y He Hys Hy) as (l & El & Hl).
      exists l. rewrite Eo, lookup_delete_ne; [done|]. intros <-. congruence.
Qed.

(** Deleting a block is defined and keeps the invariant; without the block
    nothing happens. *)
Lemma block_object_del_ok b i :
  blk_ok b -> exists b', block_object_del b i = Some b' /\ blk_ok b'.
Proof.
  intros O. unfold block_object_del.
  destruct (get_blk_store_obj b i) as [[x|]|] eqn:G; cbn [mbind option_bind]; [|eauto|done].
  destruct (get_sound _ _ _ _ G) as (k & _ & _ & Ek & _). rewrite Ek. cbn [mbind option_bind].
  destruct (notify_ok b i (dn_ip k) O) as (r & b1 & -> & O1 & E1 & _). cbn [mbind option_bind].
  rewrite <- E1 in Ek. destruct (blk_del_ok b1 x k O1 Ek) as (r' & c & -> & -> & O2 & _).
  cbn [mbind option_bind]. eauto.
Qed.

Lemma add_link_ok b d i sz ip x fr :
  blk_ok b -> is_Some (objs (g_dcm b) !! d) -> free (g_nn_bcm b) = x :: fr -> (length ip < 32)%nat ->
  exists b1 b2, add_block b i sz ip = Some (Some x, b1) /\ link_block b1 d (Some x) = Some b2 /\
    blk_ok b2 /\ objs (g_nn_bcm b2) = <[x := Blk i sz ip (Some d)]> (objs (g_nn_bcm b)).
Proof.
  intros O Hd Hf L. unfold add_block, link_block. rewrite Hf, (proj2 (Nat.leb_gt _ _)) by lia.
  destruct (add_ok _ (Blk i sz ip None) x fr (bo_b b O) Hf) as (c & -> & Oc & Hx & Eo & Ef & _).
  destruct (bo_ring b O d Hd) as (xs & Er & ND).
  cbn [mbind option_bind]. do 2 eexists. split; [reflexivity|].
  cbn [rings set_bcm]. rewrite Er. cbn [mbind option_bind]. split; [reflexivity|].
  cbn [g_nn_bcm set_bcm upd objs]. rewrite Eo, alter_insert_eq. split; [|done].
  assert (Hnew : forall e ys, is_Some (objs (g_dcm b) !! e) -> rings b !! e = Some ys -> x ∉ ys).
  { intros e ys He Hys Hin. destruct (bo_in b O e ys x He Hys Hin) as (k & Ek & _). congruence. }
  destruct O. split; cbn [g_nn_bcm g_dcm rings g_dn_q g_dn_n dn_timers set_bcm upd objs]; try done.
  - by apply upd_ok.
  - rewrite Eo, alter_insert_eq. intros y k Hy. destruct (decide (y = x)) as [->|Hne].
    + rewrite lookup_insert_eq in Hy. simplify_eq. exists d. eexists. cbn. rewrite lookup_insert_eq.
      split_and!; try done. set_solver.
    + rewrite lookup_insert_ne in Hy by done. destruct (bo_owner0 y k Hy) as (e & ys & ? & ? & ? & ?).
      destruct (decide (e = d)) as [->|]; [exists d|exists e, ys; by rewrite lookup_insert_ne].
      eexists. rewrite lookup_insert_eq. simplify_eq. split_and!; try done. set_solver.
  - intros e He. destruct (decide (e = d)) as [->|]; [|rewrite lookup_insert_ne by done; by apply bo_ring0].
    rewrite lookup_insert_eq. eexists. split; [reflexivity|]. apply NoDup_app. split_and!; [done| |apply NoDup_singleton].
    intros y Hy E. apply list_elem_of_singleton in E as ->. by apply (Hnew d xs).
  - rewrite Eo, alter_insert_eq. intros e ys y He Hys Hy. destruct (decide (e = d)) as [->|].
    + rewrite lookup_insert_eq in Hys. injection Hys as <-.
      apply elem_of_app in Hy as [Hy|Hy]; [|apply list_elem_of_singleton in Hy as ->].
      * destruct (bo_in0 d xs y He Er Hy) as (k & Ek & Hk). exists k. rewrite lookup_insert_ne; [done|].
        intros <-. by apply (Hnew d xs).
      * eexists. by rewrite lookup_insert_eq.
    + rewrite lookup_insert_ne in Hys by done. destruct (bo_in0 e ys y He Hys Hy) as (k & Ek & Hk).
      exists k. rewrite lookup_insert_ne; [done|]. intros <-. by apply (Hnew e ys).
Qed.

Lemma malloc_ok b : blk_ok b -> (0 < heap b)%nat ->
  exists b', malloc_unchecked b = Some b' /\ blk_ok b' /\ g_dcm b' = g_dcm b /\ dn_timers b' = dn_timers b.
Proof.
  intros O Hh. unfold malloc_unchecked. destruct (heap b) as [|hp]; [lia|].
  eexists. split; [reflexivity|]. destruct O. by split_and!.
Qed.

(** A new datanode, with its timer. *)
Lemma dn_new_ok b now timeout key d fr y tr :
  blk_ok b -> Libc.is_cstr key -> (length key < ID_LEN)%nat ->
  free (g_dcm b) = d :: fr -> free (dn_timers b) = y :: tr ->
  exists c b', add (g_dcm b) (Dn key [] 0) = Some (d, c) /\
    dn_timer_create
      (Blocks (g_nn_bcm b) c (<[d := []]> (rings b)) (g_dn_q b ++ [d]) (g_dn_n b + 1)
         (dn_timers b) (heap b) (sequence b)) now timeout d key = Some b' /\
    blk_ok b' /\ heap b' = heap b.
Proof.
  intros O Hc HL Hf Ht.
  destruct (add_ok _ (Dn key [] 0) d fr (bo_d b O) Hf) as (c & -> & Oc & Hd & Eo & _).
  destruct (add_ok _ (Timer key d (now + timeout)) y tr (bo_t b O) Ht) as (tc & Et & Otc & Hy & Eto & _).
  exists c. eexists. split; [reflexivity|]. unfold dn_timer_create. cbn [dn_timers].
  rewrite Ht. cbv iota. rewrite Et. cbn [mbind option_bind]. split; [reflexivity|]. split; [|done].
  destruct O. assert (HQ : d ∉ g_dn_q b) by (rewrite bo_q_in0, Hd; by intros [? ?]).
  split; cbn [g_nn_bcm g_dcm rings g_dn_q g_dn_n dn_timers set_timers]; try done.
  - intros x k Hx. destruct (bo_owner0 x k Hx) as (e & xs & He & [? Hl] & ? & ?). exists e, xs.
    rewrite Eo, !lookup_insert_ne by congruence. by rewrite Hl.
  - intros e. rewrite Eo. destruct (decide (e = d)) as [->|].
    + rewrite !lookup_insert_eq. intros _. eexists. split; [reflexivity|apply NoDup_nil_2].
    + rewrite !lookup_insert_ne by done. apply bo_ring0.
  - intros e xs x. rewrite Eo. destruct (decide (e = d)) as [->|].
    + rewrite !lookup_insert_eq. intros _ [= <-] ?%elem_of_nil. done.
    + rewrite !lookup_insert_ne by done. apply bo_in0.
  - intros e n. rewrite Eo. destruct (decide (e = d)) as [->|].
    + rewrite lookup_insert_eq. intros [= <-]. by split_and!.
    + rewrite lookup_insert_ne by done. apply bo_num0.
  - intros e n. rewrite Eo, Eto. destruct (decide (e = d)) as [->|].
    + rewrite lookup_insert_eq. intros [= <-]. exists y. eexists. rewrite lookup_insert_eq. by split_and!.
    + rewrite lookup_insert_ne by done. intros He. destruct (bo_timer0 e n He) as (z & t & Hz & ?).
      exists z, t. rewrite lookup_insert_ne by congruence. done.
  - intros z t. rewrite Eo, Eto. destruct (decide (z = y)) as [->|].
    + rewrite lookup_insert_eq. intros [= <-]. cbn. rewrite lookup_insert_eq. eauto.
    + rewrite lookup_insert_ne by done. intros Hz. destruct (bo_timer_dn0 z t Hz) as [m Hm].
      rewrite lookup_insert_ne by congruence. by rewrite Hm.
  - assert (HN : forall z t, objs (dn_timers b) !! z = Some t -> t_dns t <> d).
    { intros z t Hz <-. destruct (bo_timer_dn0 z t Hz). congruence. }
    intros y1 y2 t1 t2. rewrite Eto, !lookup_insert. repeat case_decide; subst; try done.
    + intros [= <-] H2 E. by destruct (HN y2 t2 H2).
    + intros H1 [= <-] E. by destruct (HN y1 t1 H1).
    + apply bo_timer_inj0.
  - apply NoDup_app. split_and!; [done| |apply NoDup_singleton]. intros e He E. by apply list_elem_of_singleton in E as ->.
  - intros e. rewrite Eo, elem_of_app, list_elem_of_singleton, bo_q_in0. destruct (decide (e = d)) as [->|].
    + rewrite lookup_insert_eq. naive_solver.
    + rewrite lookup_insert_ne by done. naive_solver.
  - rewrite length_app. cbn. lia.
Qed.

Lemma dn_timeout_ok b y t :
  blk_ok b -> objs (dn_timers b) !! y = Some t -> rings b !! t_dns t = Some [] ->
  exists b', dn_timeout_handler b y = Some b' /\ blk_ok b'.
Proof.
  intros O Ey Er. unfold dn_timeout_handler. rewrite Ey. cbn [mbind option_bind].
  destruct (bo_timer_dn b O y t Ey) as [n En].
  destruct (del_ok _ y t (bo_t b O) Ey) as (tc & -> & Otc & Et & _).
  destruct (del_ok _ _ n (bo_d b O) En) as (c & -> & Oc & Ec & _). cbn [mbind option_bind].
  eexists. split; [reflexivity|]. destruct O. set (d := t_dns t) in *.
  assert (Hsome : forall e, is_Some (objs c !! e) <-> is_Some (objs (g_dcm b) !! e) /\ e <> d).
  { intros e. rewrite Ec, lookup_delete. case_decide; subst; split; naive_solver. }
  split; cbn [g_nn_bcm g_dcm rings g_dn_q g_dn_n dn_timers]; try done.
  - intros x k Hx. destruct (bo_owner0 x k Hx) as (e & xs & ? & ? & He & Hin). exists e, xs.
    rewrite Hsome. split_and!; try done. intros ->. simplify_eq. by apply elem_of_nil in Hin.
  - intros e [? _]%Hsome. by apply bo_ring0.
  - intros e xs x [? _]%Hsome. by apply bo_in0.
  - intros e m. rewrite Ec. intros [_ ?]%lookup_delete_Some. by apply (bo_num0 e).
  - intros e m. rewrite Ec, Et. intros [Hne He]%lookup_delete_Some.
    destruct (bo_timer0 e m He) as (z & u & Hz & ? & Hu). exists z, u.
    rewrite lookup_delete_ne by (intros <-; subst d; congruence). done.
  - intros z u. rewrite Et. intros [Hne Hz]%lookup_delete_Some. apply Hsome.
    split; [by apply (bo_timer_dn0 z)|]. intros E. apply Hne. by apply (bo_timer_inj0 y z t u).
  - intros y1 y2 t1 t2. rewrite Et. intros [_ H1]%lookup_delete_Some [_ H2]%lookup_delete_Some.
    by apply bo_timer_inj0.
  - by apply nodup_filter_ne.
  - intros e. rewrite elem_filter_ne, bo_q_in0. by rewrite Hsome.
  - rewrite bo_n0. assert (Hd : d ∈ g_dn_q b) by (apply bo_q_in0; eauto).
    rewrite (filter_ne_length d (g_dn_q b)) by done. lia.
Qed.

(** ** Sequences of requests *)

Inductive bop :=
  | Register (key : list Z)
  | Heartbeat (key : list Z)
  | RecvBlk (key : list Z) (blk_id blk_sz : Z) (ip : list Z)
  | BlkReport (key : list Z) (blk_id blk_sz : Z) (ip : list Z)
  | DeleteBlk (i : Z)
  | DnTimeout (y : Z).

Definition run_bop (now timeout : Z) (b : blocks) (o : bop) : option blocks :=
  match o with
  | Register key => snd <$> nn_dn_register b now timeout key
  | Heartbeat key => snd <$> nn_dn_heartbeat b now timeout key
  | RecvBlk key i sz ip => snd <$> nn_dn_recv_blk_report b key i sz ip
  | BlkReport key i sz ip => snd <$> nn_dn_blk_report b key i sz ip
  | DeleteBlk i => block_object_del b i
  | DnTimeout y => dn_timeout_handler b y
  end.

(** The pools are not exhausted, names fit their arrays, and a datanode that
    is given up has no blocks. *)
Definition admissible (b : blocks) (o : bop) : Prop :=
  match o with
  | Register key =>
      Libc.is_cstr key /\ (length key < ID_LEN)%nat /\ (0 < heap b)%nat /\
      free (g_dcm b) <> [] /\ free (dn_timers b) <> []
  | Heartbeat key => (0 < heap b)%nat
  | RecvBlk key i sz ip | BlkReport key i sz ip => free (g_nn_bcm b) <> [] /\ (length ip < 32)%nat
  | DeleteBlk i => True
  | DnTimeout y => exists t, objs (dn_timers b) !! y = Some t /\ rings b !! t_dns t = Some []
  end.

Definition init_blocks (bs ds ts : list Z) (nb nd nt hp : nat) : blocks :=
  Blocks (empty_cache bs nb) (empty_cache ds nd) ∅ [] 0 (empty_cache ts nt) hp 0.

Inductive reachable : blocks -> Prop :=
  | reach_init bs ds ts nb nd nt hp :
      (0 < nb)%nat -> (0 < nd)%nat -> (0 < nt)%nat -> NoDup bs -> NoDup ds -> NoDup ts ->
      reachable (init_blocks bs ds ts nb nd nt hp)
  | reach_step now timeout b o b' :
      reachable b -> admissible b o -> run_bop now timeout b o = Some b' -> reachable b'.

Lemma init_ok bs ds ts nb nd nt hp :
  (0 < nb)%nat -> (0 < nd)%nat -> (0 < nt)%nat -> NoDup bs -> NoDup ds -> NoDup ts ->
  blk_ok (init_blocks bs ds ts nb nd nt hp).
Proof.
  intros. split; cbn [g_nn_bcm g_dcm rings g_dn_q g_dn_n dn_timers init_blocks];
    try (by apply empty_ok); cbn [objs empty_cache].
  - intros x k. by rewrite lookup_empty.
  - intros d. rewrite lookup_empty. by intros [? ?].
  - intros d xs x. rewrite lookup_empty. by intros [? ?].
  - intros d n. by rewrite lookup_empty.
  - intros d n. by rewrite lookup_empty.
  - intros y t. by rewrite lookup_empty.
  - intros y1 y2 t1 t2. by rewrite lookup_empty.
  - apply NoDup_nil_2.
  - intros d. rewrite lookup_empty. split; [by intros ?%elem_of_nil|by intros [? ?]].
  - done.
Qed.

Lemma register_ok b now timeout key :
  blk_ok b -> admissible b (Register key) ->
  exists b', nn_dn_register b now timeout key = Some (DFS_OK, b') /\ blk_ok b'.
Proof.
  intros O (Hc & HL & Hh & Hf & Ht). unfold nn_dn_register.
  destruct (get_dn_total b key) as [[d|] G]; rewrite G; cbn [mbind option_bind].
  - destruct (dn_timer_update_ok b now timeout d O (get_dn_live _ _ _ G)) as (c & -> & O1).
    cbn [mbind option_bind]. destruct (malloc_ok _ O1 Hh) as (b2 & -> & O2 & _). cbn. eauto.
  - rewrite (proj2 (Nat.leb_gt _ _)) by done.
    destruct (free (g_dcm b)) as [|d fr] eqn:Ef; [done|]. destruct (free (dn_timers b)) as [|y tr] eqn:Et; [done|].
    destruct (dn_new_ok b now timeout key d fr y tr O Hc HL Ef Et) as (c & b1 & -> & E1 & O1 & Eh).
    cbn [mbind option_bind]. rewrite E1. cbn [mbind option_bind]. rewrite <- Eh in Hh.
    destruct (malloc_ok _ O1 Hh) as (b2 & -> & O2 & _). cbn. eauto.
Qed.

Lemma pop_del_spec n dn : (n <= length (del_blk dn))%nat ->
  exists m, pop_del n dn = Some (take n (del_blk dn), Dn (dn_id dn) (drop n (del_blk dn)) m) /\
    (del_blk_num dn = u64 (Z.of_nat (length (del_blk dn))) ->
     m = u64 (Z.of_nat (length (drop n (del_blk dn))))).
Proof.
  revert dn. induction n as [|n IH]; intros [i l num] L; cbn in *.
  - rewrite !drop_0, take_0. eauto.
  - destruct l as [|x l]; cbn in *; [lia|]. destruct (IH (Dn i l (u64 (num - 1))) ltac:(cbn; lia)) as (m & -> & Hm).
    cbn. exists m. split; [done|]. intros ->. apply Hm. cbn.
    unfold Z.sub. rewrite u64_add_l. f_equal. lia.
Qed.

(** The number of identifiers a heartbeat takes is never more than there
    are. *)
Lemma heartbeat_num_le n :
  del_blk_num n = u64 (Z.of_nat (length (del_blk n))) ->
  (Z.to_nat (if (DELETING_BLK_FOR_ONCE <? del_blk_num n)%Z then DELETING_BLK_FOR_ONCE else del_blk_num n)
     <= length (del_blk n))%nat.
Proof.
  intros ->. set (l := Z.of_nat (length (del_blk n))).
  assert (0 <= u64 l <= l).
  { unfold u64, uwrap. pose proof (Z.mod_pos_bound l (2 ^ 64) ltac:(lia)).
    split; [lia|]. apply Z.mod_le; lia. }
  unfold DELETING_BLK_FOR_ONCE. destruct (Z.ltb_spec 5 (u64 l)); lia.
Qed.

Lemma heartbeat_ok b now timeout key :
  blk_ok b -> (0 < heap b)%nat ->
  exists r ids b', nn_dn_heartbeat b now timeout key = Some (r, ids, b') /\ blk_ok b'.
Proof.
  intros O Hh. unfold nn_dn_heartbeat.
  destruct (get_dn_total b key) as [[d|] G]; rewrite G; cbn [mbind option_bind]; [|eauto 10].
  pose proof (get_dn_live _ _ _ G) as Hd.
  destruct (dn_timer_update_ok b now timeout d O Hd) as (c & -> & O1).
  destruct Hd as [n En]. cbn [mbind option_bind g_dcm set_timers]. rewrite En. cbn [mbind option_bind].
  destruct (0 <? del_blk_num n); [|eauto 10].
  destruct (malloc_ok _ O1 Hh) as (b2 & -> & O2 & ED & _). cbn [mbind option_bind].
  destruct (bo_num b O d n En) as (_ & _ & Hnum).
  destruct (pop_del_spec _ n (heartbeat_num_le n Hnum)) as (m & -> & Hm). cbn [mbind option_bind].
  do 3 eexists. split; [reflexivity|]. cbn [g_dcm set_timers] in ED.
  replace (upd (g_dcm b2) d (fun _ => _)) with (upd (g_dcm b2) d (fun n0 => Dn (dn_id n0)
    (drop (Z.to_nat (if DELETING_BLK_FOR_ONCE <? del_blk_num n then DELETING_BLK_FOR_ONCE
       else del_blk_num n)) (del_blk n)) m)).
  - apply set_dcm_ok; [done|done|]. cbn. intros _ _ _. by apply Hm.
  - unfold upd. f_equal. rewrite ED. apply map_eq. intros e. destruct (decide (d = e)) as [<-|].
    + by rewrite !lookup_alter_eq, En.
    + by rewrite !lookup_alter_ne.
Qed.

Lemma recv_ok b key i sz ip :
  blk_ok b -> admissible b (RecvBlk key i sz ip) ->
  exists r b', nn_dn_recv_blk_report b key i sz ip = Some (r, b') /\ blk_ok b'.
Proof.
  intros O [Hf HL]. unfold nn_dn_recv_blk_report.
  destruct (get_dn_total b key) as [[d|] G]; rewrite G; cbn [mbind option_bind]; [|eauto].
  destruct (free (g_nn_bcm b)) as [|x fr] eqn:Ef; [done|].
  destruct (add_link_ok b d i sz ip x fr O (get_dn_live _ _ _ G) Ef HL) as (b1 & b2 & -> & E2 & O2 & _).
  cbn [mbind option_bind]. rewrite E2. cbn. eauto.
Qed.

Lemma report_ok b key i sz ip :
  blk_ok b -> admissible b (BlkReport key i sz ip) ->
  exists r b', nn_dn_blk_report b key i sz ip = Some (r, b') /\ blk_ok b'.
Proof.
  intros O H. destruct (recv_ok b key i sz ip O H) as (r & b' & E & O'). revert E.
  unfold nn_dn_blk_report, nn_dn_recv_blk_report.
  destruct (get_dn_total b key) as [[d|] ->]; cbn [mbind option_bind]; [|eauto].
  destruct (get_blk_total b i) as [[x|] ->]; cbn [mbind option_bind]; eauto.
Qed.

Lemma run_bop_ok now timeout b o :
  blk_ok b -> admissible b o -> exists b', run_bop now timeout b o = Some b' /\ blk_ok b'.
Proof.
  intros O H. destruct o as [key|key|key i sz ip|key i sz ip|i|y]; cbn [run_bop].
  - destruct (register_ok b now timeout key O H) as (b' & -> & O'). cbn. eauto.
  - destruct (heartbeat_ok b now timeout key O H) as (r & ids & b' & -> & O'). cbn. eauto.
  - destruct (recv_ok b key i sz ip O H) as (r & b' & -> & O'). cbn. eauto.
  - destruct (report_ok b key i sz ip O H) as (r & b' & -> & O'). cbn. eauto.
  - by apply block_object_del_ok.
  - destruct H as (t & Ht & Hr). by apply (dn_timeout_ok b y t).
Qed.

Lemma reachable_ok b : reachable b -> blk_ok b.
Proof.
  induction 1 as [|now timeout b o b' _ IH Ha E]; [by apply init_ok|].
  destruct (run_bop_ok now timeout b o IH Ha) as (b'' & E'' & O). congruence.
Qed.

(** ** Claims *)

(** C7. The block and datanode indexes never run into undefined behaviour: in
    every state that registrations, heartbeats, block reports, deletions and
    expired datanodes without blocks lead to, each of these requests is
    defined (no null pointer, no freed object) while the pools and the memory last,
    and every block hangs in the ring of a registered datanode.  The name a datanode
    registers with and the address in a block report have less than 32 bytes,
    which the code does not check before it copies them, and a request
    is handled as one step: two requests are never inside the handlers at the
    same time. *)
Theorem block_index_safe now timeout b o :
  reachable b -> admissible b o -> exists b', run_bop now timeout b o = Some b' /\ blk_ok b'.
Proof. intros R H. apply run_bop_ok; [by apply reachable_ok|done]. Qed.

Definition sample_ip : list Z := lit "10.0.0.1"%string.

Definition step_to (b : blocks) (o : bop) : blocks := default b (run_bop 1000 30000 b o).

Definition sample_init : blocks := init_blocks [100; 200; 300] [10; 20] [1; 2] 11 5 7 100.
Definition sample_dn : blocks := step_to sample_init (Register sample_ip).
Definition sample_blk : blocks := step_to sample_dn (RecvBlk sample_ip 7 100 sample_ip).
Definition sample_blocks : blocks := step_to sample_blk (RecvBlk sample_ip 9 50 sample_ip).

Lemma step_to_eq b o : is_Some (run_bop 1000 30000 b o) -> run_bop 1000 30000 b o = Some (step_to b o).
Proof. unfold step_to. by intros [b' ->]. Qed.

Lemma sample_reachable : reachable sample_blocks.
Proof.
  apply (reach_step 1000 30000 sample_blk (RecvBlk sample_ip 9 50 sample_ip));
    [|split; [by_decide|vm_compute; lia]|apply step_to_eq; vm_compute; by eexists].
  apply (reach_step 1000 30000 sample_dn (RecvBlk sample_ip 7 100 sample_ip));
    [|split; [by_decide|vm_compute; lia]|apply step_to_eq; vm_compute; by eexists].
  apply (reach_step 1000 30000 sample_init (Register sample_ip)).
  - apply reach_init; try lia; by_decide.
  - split; [by_decide|]. split; [vm_compute; lia|]. split; [vm_compute; lia|]. split; discriminate.
  - apply step_to_eq. vm_compute. by eexists.
Qed.

Lemma block_index_safe_witness :
  exists b', run_bop 2000 30000 sample_blocks (DeleteBlk 7) = Some b' /\ blk_ok b'.
Proof. apply (block_index_safe 2000 30000 sample_blocks (DeleteBlk 7)); [apply sample_reachable|exact I]. Defined.

(** A heartbeat takes the first five identifiers; the memory it frees is at
    least what it takes. *)
Lemma heartbeat_step now timeout b key d n :
  blk_ok b -> (0 < heap b)%nat -> get_dn_store_obj b key = Some (Some d) ->
  objs (g_dcm b) !! d = Some n -> Z.of_nat (length (del_blk n)) < 2 ^ 64 ->
  exists b' n', nn_dn_heartbeat b now timeout key = Some (DFS_OK, take 5 (del_blk n), b') /\
    objs (g_dcm b') !! d = Some n' /\ dn_id n' = dn_id n /\ del_blk n' = drop 5 (del_blk n) /\ blk_ok b' /\
    get_dn_store_obj b' key = Some (Some d) /\ (heap b <= heap b')%nat.
Proof.
  intros O Hh G En HL. destruct (heartbeat_ok b now timeout key O Hh) as (r & ids & b' & E & O').
  revert E. unfold nn_dn_heartbeat. rewrite G. cbn [mbind option_bind].
  destruct (dn_timer_update_ok b now timeout d O) as (c & -> & O1); [eauto|].
  cbn [mbind option_bind g_dcm set_timers]. rewrite En. cbn [mbind option_bind].
  destruct (bo_num b O d n En) as (_ & _ & Hnum).
  pose proof (heartbeat_num_le n Hnum) as Hle.
  assert (Hl : del_blk_num n = Z.of_nat (length (del_blk n))).
  { rewrite Hnum. apply uwrap_small. split; [lia|done]. }
  destruct (Z.ltb_spec 0 (del_blk_num n)).
  - unfold malloc_unchecked. cbn [heap set_timers]. destruct (heap b) as [|hp] eqn:Ehp; [lia|]. cbn [mbind option_bind].
    destruct (pop_del_spec _ n Hle) as (m & -> & Hm). cbn [mbind option_bind]. intros [= <- <- <-].
    set (num := Z.to_nat _) in *. assert (1 <= num)%nat.
    { subst num. unfold DELETING_BLK_FOR_ONCE. destruct (Z.ltb_spec 5 (del_blk_num n)); lia. }
    assert (HT : take num (del_blk n) = take 5 (del_blk n) /\ drop num (del_blk n) = drop 5 (del_blk n)).
    { subst num. unfold DELETING_BLK_FOR_ONCE. destruct (Z.ltb_spec 5 (del_blk_num n)); [done|].
      rewrite Hl, Nat2Z.id. rewrite !take_ge, !drop_ge by lia. done. }
    destruct HT as [HT HD]. rewrite HT. do 2 eexists. split; [reflexivity|].
    cbn [g_dcm set_dcm set_heap set_timers heap]. rewrite upd_lookup, En, decide_True by done.
    cbn [fmap option_fmap option_map]. split; [reflexivity|]. cbn [dn_id del_blk]. rewrite HD in *.
    split_and!; [done|done|exact O'| |lia]. unfold get_dn_store_obj in *. cbn [g_dcm set_dcm].
    rewrite <- G. apply get_upd. intros a Ea. rewrite En in Ea. by injection Ea as <-.
  - intros [= <- <- <-]. destruct (del_blk n) as [|] eqn:El; [|cbn in Hl; lia].
    do 2 eexists. split; [reflexivity|]. rewrite El. split_and!; done.
Qed.

(** What happens at one datanode: a block of it is deleted, or its heartbeat
    arrives at the time [now]. *)
Inductive dn_event := Notify (i : Z) | Beat (now : Z).

(** The results, and for a heartbeat the identifiers of its answer. *)
Fixpoint run_events (timeout : Z) (key : list Z) (es : list dn_event) (b : blocks) : option (list (Z * list Z) * blocks) :=
  match es with
  | [] => Some ([], b)
  | Notify i :: es => '(r, b) ← notify_dn_2_delete_blk b i key; '(l, b) ← run_events timeout key es b; Some ((r, []) :: l, b)
  | Beat now :: es => '(r, ids, b) ← nn_dn_heartbeat b now timeout key; '(l, b) ← run_events timeout key es b; Some ((r, ids) :: l, b)
  end.

(** The same on a queue: a deletion goes to its end, a heartbeat takes five. *)
Fixpoint queue_events (es : list dn_event) (q : list Z) : list (Z * list Z) * list Z :=
  match es with
  | [] => ([], q)
  | Notify i :: es => let '(l, q) := queue_events es (q ++ [i]) in ((DFS_OK, []) :: l, q)
  | Beat _ :: es => let '(l, q') := queue_events es (drop 5 q) in ((DFS_OK, take 5 q) :: l, q')
  end.

Definition requested (es : list dn_event) : list Z := omap (fun e => match e with Notify i => Some i | Beat _ => None end) es.

(** Nothing is lost, repeated or reordered. *)
Lemma queue_events_all es q : concat ((queue_events es q).1.*2) ++ (queue_events es q).2 = q ++ requested es.
Proof.
  revert q. induction es as [|[i|now] es IH]; intros q; cbn [queue_events requested omap list_omap].
  - by rewrite app_nil_r.
  - specialize (IH (q ++ [i])). destruct (queue_events es (q ++ [i])) as [l q']. cbn in *. by rewrite IH, <- app_assoc.
  - specialize (IH (drop 5 q)). destruct (queue_events es (drop 5 q)) as [l q']. cbn [fst snd fmap list_fmap concat] in *.
    by rewrite <- app_assoc, IH, app_assoc, take_drop.
Qed.

Lemma notify_step b key i d n :
  blk_ok b -> (0 < heap b)%nat -> get_dn_store_obj b key = Some (Some d) -> objs (g_dcm b) !! d = Some n ->
  exists b' n', notify_dn_2_delete_blk b i key = Some (DFS_OK, b') /\ objs (g_dcm b') !! d = Some n' /\ dn_id n' = dn_id n /\
    del_blk n' = del_blk n ++ [i] /\ blk_ok b' /\ get_dn_store_obj b' key = Some (Some d) /\ heap b = S (heap b').
Proof.
  intros O Hh G En. destruct (notify_ok b i key O) as (r & b' & E & O' & _). revert E. unfold notify_dn_2_delete_blk.
  rewrite G. cbn [mbind option_bind]. destruct (heap b) as [|hp] eqn:Ehp; [lia|]. intros [= <- <-].
  do 2 eexists. split; [reflexivity|]. cbn [g_dcm set_dcm]. rewrite upd_lookup, En, decide_True by done.
  split; [reflexivity|]. split_and!; [done|done|exact O'| |done].
  unfold get_dn_store_obj in *. cbn [g_dcm set_dcm]. rewrite <- G. by apply get_upd.
Qed.

Lemma run_events_queue timeout key es b d n :
  blk_ok b -> get_dn_store_obj b key = Some (Some d) -> objs (g_dcm b) !! d = Some n ->
  (length (requested es) < heap b)%nat -> Z.of_nat (length (del_blk n) + length (requested es)) < 2 ^ 64 ->
  exists b' n', run_events timeout key es b = Some ((queue_events es (del_blk n)).1, b') /\
    objs (g_dcm b') !! d = Some n' /\ dn_id n' = dn_id n /\ del_blk n' = (queue_events es (del_blk n)).2 /\ blk_ok b'.
Proof.
  revert b n. induction es as [|[i|now] es IH]; intros b n O G En Hh HL; cbn [run_events queue_events].
  - by exists b, n.
  - cbn in Hh, HL. destruct (notify_step b key i d n O ltac:(lia) G En) as (b1 & n1 & -> & E1 & Hi & Hd & O1 & G1 & H1).
    cbn [mbind option_bind]. destruct (IH b1 n1 O1 G1 E1) as (b2 & n2 & -> & E2 & Hi2 & Hd2 & O2);
      [unfold requested; lia|rewrite Hd, length_app; unfold requested; cbn; lia|].
    rewrite Hd in *. destruct (queue_events es (del_blk n ++ [i])). exists b2, n2. split_and!; [done|done|congruence|done|done].
  - change (requested (Beat now :: es)) with (requested es) in *.
    destruct (heartbeat_step now timeout b key d n O ltac:(lia) G En ltac:(lia)) as (b1 & n1 & -> & E1 & Hi & Hd & O1 & G1 & H1).
    cbn [mbind option_bind]. destruct (IH b1 n1 O1 G1 E1) as (b2 & n2 & -> & E2 & Hi2 & Hd2 & O2);
      [lia|rewrite Hd, length_drop; lia|].
    rewrite Hd in *. destruct (queue_events es (drop 5 (del_blk n))). exists b2, n2. split_and!; [done|done|congruence|done|done].
Qed.

(** C8. Deletions reach the datanode in the order they were requested, at
    most five with each heartbeat, none lost and none twice.  For any sequence of
    deletions of blocks of a registered datanode and of its heartbeats, each handled as
    one step, the answers are those of a queue to whose end a deletion goes and from
    which a heartbeat takes the first five, and all that was answered followed by
    what is still queued is what was queued followed by what was requested.
    There is memory for every deletion and one answer, and the queue stays shorter
    than 2^64. *)
Theorem heartbeat_fifo timeout b key d n es :
  blk_ok b -> get_dn_store_obj b key = Some (Some d) -> objs (g_dcm b) !! d = Some n ->
  (length (requested es) < heap b)%nat -> Z.of_nat (length (del_blk n) + length (requested es)) < 2 ^ 64 ->
  exists l b' n', run_events timeout key es b = Some (l, b') /\ blk_ok b' /\
    objs (g_dcm b') !! d = Some n' /\ dn_id n' = dn_id n /\ (l, del_blk n') = queue_events es (del_blk n) /\
    concat (l.*2) ++ del_blk n' = del_blk n ++ requested es.
Proof.
  intros O G En Hh HL. destruct (run_events_queue timeout key es b d n O G En Hh HL) as (b' & n' & E & En' & Hi & Hd & O').
  do 3 eexists. split_and!; [exact E|exact O'|exact En'|exact Hi|rewrite Hd; by destruct (queue_events _ _)|].
  rewrite Hd. apply queue_events_all.
Qed.

Definition sample_deleted : blocks := step_to (step_to sample_blocks (DeleteBlk 9)) (DeleteBlk 7).

Lemma sample_deleted_ok : blk_ok sample_deleted.
Proof.
  apply reachable_ok. unfold sample_deleted.
  apply (reach_step 1000 30000 (step_to sample_blocks (DeleteBlk 9)) (DeleteBlk 7));
    [|exact I|apply step_to_eq; vm_compute; by eexists].
  apply (reach_step 1000 30000 sample_blocks (DeleteBlk 9));
    [apply sample_reachable|exact I|apply step_to_eq; vm_compute; by eexists].
Qed.

Lemma heartbeat_fifo_witness :
  let es := [Beat 5000; Notify 1; Notify 2; Notify 3; Notify 4; Notify 5; Notify 6; Beat 6000; Notify 7; Beat 7000] in
  exists l b' n', run_events 30000 sample_ip es sample_deleted = Some (l, b') /\ blk_ok b' /\
    objs (g_dcm b') !! 10 = Some n' /\ dn_id n' = sample_ip /\ (l, del_blk n') = queue_events es [9; 7] /\
    concat (l.*2) ++ del_blk n' = [9; 7; 1; 2; 3; 4; 5; 6; 7].
Proof.
  intros es. apply (heartbeat_fifo 30000 sample_deleted sample_ip 10 (Dn sample_ip [9; 7] 2) es);
    [apply sample_deleted_ok|vm_compute; reflexivity|vm_compute; reflexivity|vm_compute; lia|vm_compute; reflexivity].
Defined.

(** A datanode that times out is freed while its blocks stay linked into
    its ring: deleting the block at the head of that ring afterwards writes to
    the freed datanode. *)
Theorem dead_datanode_dangling b y t x xs k :
  blk_ok b -> objs (dn_timers b) !! y = Some t -> rings b !! t_dns t = Some (x :: xs) ->
  objs (g_nn_bcm b) !! x = Some k -> get_blk_store_obj b (id k) = Some (Some x) ->
  exists b', dn_timeout_handler b y = Some b' /\ block_object_del b' (id k) = None.
Proof.
  intros O Ey Er Ek G. unfold dn_timeout_handler. rewrite Ey. cbn [mbind option_bind].
  destruct (bo_timer_dn b O y t Ey) as [n En].
  destruct (bo_in b O (t_dns t) (x :: xs) x) as (k' & Ek' & Hme); [eauto|done|set_solver|].
  rewrite Ek in Ek'. injection Ek' as <-.
  destruct (del_ok _ y t (bo_t b O) Ey) as (tc & -> & _).
  destruct (del_ok _ _ n (bo_d b O) En) as (c & -> & _ & Ec & _). cbn [mbind option_bind].
  eexists. split; [reflexivity|]. unfold block_object_del. set (b' := Blocks _ _ _ _ _ _ _ _).
  change (get_blk_store_obj b' (id k)) with (get_blk_store_obj b (id k)). rewrite G. cbn [mbind option_bind].
  change (g_nn_bcm b') with (g_nn_bcm b). rewrite Ek. cbn [mbind option_bind].
  assert (HN : forall r b1, notify_dn_2_delete_blk b' (id k) (dn_ip k) = Some (r, b1) ->
    dn_me_remove b1 x k = None).
  { intros r b1 E. assert (rings b1 = rings b /\ objs (g_dcm b1) !! t_dns t = None) as [R1 R2].
    { revert E. unfold notify_dn_2_delete_blk. destruct (get_dn_total b' (dn_ip k)) as [[d|] ->]; cbn [mbind option_bind].
      - destruct (heap b'); intros [= <- <-]; cbn [rings g_dcm set_dcm];
          rewrite ?upd_lookup; subst b'; cbn [g_dcm rings]; by rewrite Ec, lookup_delete_eq.
      - intros [= <- <-]. subst b'. cbn [g_dcm rings]. by rewrite Ec, lookup_delete_eq. }
    unfold dn_me_remove. rewrite Hme, R1, Er. cbn [mbind option_bind].
    rewrite (bool_decide_true (x ∈ x :: xs)) by set_solver. rewrite R2, (bool_decide_false (is_Some None)) by (by intros [? ?]).
    rewrite (bool_decide_true (head _ = _)) by done. done. }
  destruct (notify_dn_2_delete_blk b' (id k) (dn_ip k)) as [[r b1]|]; cbn [mbind option_bind]; [|done].
  by rewrite (HN r b1).
Qed.

Lemma dead_datanode_dangling_witness :
  exists b', dn_timeout_handler sample_blocks 1 = Some b' /\ block_object_del b' 7 = None.
Proof.
  apply (dead_datanode_dangling sample_blocks 1 (Timer sample_ip 10 31000) 100 [200] (Blk 7 100 sample_ip (Some 10)));
    [apply reachable_ok, sample_reachable|vm_compute; reflexivity|vm_compute; reflexivity|vm_compute; reflexivity
    |vm_compute; reflexivity].
Defined.

(** The identifiers of successive calls at the times [ts]. *)
Fixpoint uids (b : blocks) (ts : list Z) : list Z :=
  match ts with
  | [] => []
  | t :: ts' => let '(u, b') := generate_uid b t in u :: uids b' ts'
  end.

Lemma uids_high b ts i u : in_u 32 (sequence b) -> uids b ts !! i = Some u ->
  u / 2 ^ 32 = u32 (sequence b + Z.of_nat i).
Proof.
  revert b i. induction ts as [|t ts IH]; intros b i Hs E; [done|].
  cbn [uids generate_uid] in E. destruct i as [|i]; cbn in E.
  - injection E as <-. rewrite Z.mul_comm, Z.div_add by lia.
    rewrite Z.div_small by (apply (uwrap_range 32); lia). rewrite !Z.add_0_l, Z.add_0_r.
    symmetry. by apply uwrap_small.
  - apply IH in E as ->; [|cbn; apply uwrap_range; lia]. cbn [sequence].
    unfold u32, uwrap. rewrite Zplus_mod_idemp_l. f_equal. lia.
Qed.

(** Block identifiers are distinct: any number of calls up to 2^32 in one
    run of the namenode, whatever the clock says, returns different
    identifiers. *)
Theorem uids_distinct b ts :
  in_u 32 (sequence b) -> Z.of_nat (length ts) <= 2 ^ 32 -> NoDup (uids b ts).
Proof.
  intros Hs HL. apply NoDup_alt. intros i j u Ei Ej.
  assert (HB : forall k, uids b ts !! k = Some u -> (k < length ts)%nat).
  { intros k Ek. apply lookup_lt_Some in Ek. replace (length (uids b ts)) with (length ts) in Ek; [done|].
    clear. revert b. induction ts; intros b; cbn; auto. }
  pose proof (HB i Ei). pose proof (HB j Ej). clear HB.
  pose proof (uids_high b ts i u Hs Ei) as H1. rewrite (uids_high b ts j u Hs Ej) in H1.
  unfold u32, uwrap in H1. Z.to_euclidean_division_equations. nia.
Qed.

Lemma uids_distinct_witness : NoDup (uids sample_init [1000; 1001; 5000; 1000]).
Proof. apply (uids_distinct sample_init [1000; 1001; 5000; 1000]); [by_decide|vm_compute; discriminate]. Defined.

End NnBlocks.
