(* ===== verification/NnPath.v ===== *)
(** * Paths and keys of the namenode: src/namenode/nn_file_index.c 300-371, 785-803

    A key is the base64 form of a path.  Buffers hold C strings; a string
    printed over a longer one leaves the rest of it in place. *)

From Stdlib Require Import ZArith Lia Bool String.
From stdpp Require Import base numbers option list.
From S2P Require Import Prelude Libc CString.

Module NnPath.
Import CString.

(** ** Definitions *)

Definition SLASH : Z := 47.
Definition PATH_LEN : nat := 256.

(** [path] is empty before the call, and stays so when the key is not base64. *)
Definition get_store_path (key : list Z) : list Z :=
  match string_base64_decode key with Some p => Libc.cstr p | None => [] end.

Definition key_encode (path : list Z) : list Z := string_base64_encode path.

(** The names and what the loop leaves in [path]. *)
Definition get_path_names (path : list Z) : list (list Z) * list Z :=
  ([SLASH] :: Libc.strtok_tokens SLASH path, Libc.strtok_residue SLASH path).

(** Printing or copying [new] without a NUL over the string [old]. *)
Definition overlay (new old : list Z) : list Z := new ++ drop (List.length new) old.

Fixpoint path_keys_loop (i : nat) (names : list (list Z)) (sub_path ancestor_path : list Z) :
    list (list Z) :=
  match names with
  | [] => []
  | name :: names' =>
      let new := match i with
                 | O => name
                 | S O => SLASH :: name
                 | _ => ancestor_path ++ SLASH :: name
                 end in
      let sub_path := overlay new sub_path in
      key_encode sub_path :: path_keys_loop (S i) names' sub_path (overlay sub_path ancestor_path)
  end.

Definition get_path_keys (names : list (list Z)) : list (list Z) := path_keys_loop 0 names [] [].

(** Undefined without a '/', and when the key does not fit with its NUL. *)
Definition get_parent_key (path : list Z) : option (list Z) :=
  pIndex ← Libc.strrchr path SLASH;
  let pName := match pIndex with O => [SLASH] | _ => take pIndex path end in
  if (PATH_LEN <=? List.length (key_encode pName))%nat then None else Some (key_encode pName).

(** [0 == string_strncmp("/", path, string_strlen(path))] *)
Definition is_root_path (path : list Z) : bool :=
  Libc.strncmp [SLASH] path (Libc.strlen path) =? 0.

(** ** Paths as lists of names *)

Abbreviation path := (list (list Z)).

Definition valid_name (n : list Z) : Prop := n <> [] /\ Forall (fun c => 1 <= c < 256 /\ c <> SLASH) n.
Definition valid_path (ns : path) : Prop := Forall valid_name ns.

#[export] Instance valid_path_dec ns : Decision (valid_path ns).
Proof. unfold valid_path, valid_name. apply _. Defined.

Definition path_str (ns : path) : list Z :=
  match ns with [] => [SLASH] | _ => concat (map (cons SLASH) ns) end.

Definition key_of (ns : path) : list Z := key_encode (path_str ns).

(** The key and the keys of the ancestors fit their arrays. *)
Definition fits (ns : path) : Prop := (List.length (path_str ns) <= 189)%nat.

(** ** Lemmas *)

Lemma valid_name_cstr n : valid_name n -> Libc.is_cstr n.
Proof. intros [_ H]. eapply Forall_impl; [exact H|]. simpl. tauto. Qed.

Lemma concat_cstr ns : valid_path ns -> Libc.is_cstr (concat (map (cons SLASH) ns)).
Proof.
  induction 1 as [|n ns Hn _ IH]; simpl; [constructor|]. constructor; [unfold SLASH; lia|].
  apply Forall_app. split; [by apply valid_name_cstr|done].
Qed.

Lemma path_str_cstr ns : valid_path ns -> Libc.is_cstr (path_str ns).
Proof.
  intros H. destruct ns as [|n ns]; [|by apply concat_cstr].
  repeat constructor; unfold SLASH; lia.
Qed.

Lemma path_str_ne ns : path_str ns <> [].
Proof. by destruct ns. Qed.

Lemma path_str_snoc ns n : path_str (ns ++ [n]) = match ns with [] => SLASH :: n | _ => path_str ns ++ SLASH :: n end.
Proof.
  destruct ns as [|m ns]; cbn; [by rewrite app_nil_r|].
  rewrite map_app, concat_app. cbn. rewrite app_nil_r. by rewrite <- app_assoc.
Qed.

Lemma tokens_word w s cur : Forall (fun c => c <> SLASH) w ->
  Libc.tokens_from SLASH (w ++ s) cur = Libc.tokens_from SLASH s (cur ++ w).
Proof.
  intros H. revert cur. induction H as [|c w Hc _ IH]; intros cur; cbn; [by rewrite app_nil_r|].
  rewrite (proj2 (Z.eqb_neq _ _)) by done. rewrite IH. by rewrite <- app_assoc.
Qed.

Lemma tokens_path ns cur : valid_path ns ->
  Libc.tokens_from SLASH (concat (map (cons SLASH) ns)) cur = match cur with [] => ns | _ => cur :: ns end.
Proof.
  intros H. revert cur. induction H as [|n ns [Hn Hc] _ IH]; intros cur; [by destruct cur|].
  cbn [map concat app Libc.tokens_from]. rewrite Z.eqb_refl.
  assert (HT : Libc.tokens_from SLASH (n ++ concat (map (cons SLASH) ns)) [] = n :: ns).
  { rewrite tokens_word; [|eapply Forall_impl; [exact Hc|]; simpl; tauto]. cbn [app]. rewrite IH. by destruct n. }
  destruct cur; by rewrite HT.
Qed.

Lemma path_names ns : valid_path ns -> fst (get_path_names (path_str ns)) = [SLASH] :: ns.
Proof.
  intros H. unfold get_path_names, Libc.strtok_tokens. cbn [fst]. f_equal.
  destruct ns as [|n ns]; [done|]. by apply (tokens_path (n :: ns) []).
Qed.

Lemma store_path ns : valid_path ns -> get_store_path (key_of ns) = path_str ns.
Proof.
  intros H. unfold get_store_path, key_of, key_encode.
  rewrite base64_decode_encode by (by apply Libc.is_cstr_bytes, path_str_cstr).
  by apply Libc.cstr_id, path_str_cstr.
Qed.

Lemma key_of_inj ns ms : valid_path ns -> valid_path ms -> key_of ns = key_of ms -> ns = ms.
Proof.
  intros Hn Hm E. apply (f_equal get_store_path) in E. rewrite !store_path in E by done.
  apply (f_equal (fun p => fst (get_path_names p))) in E. rewrite !path_names in E by done. by injection E.
Qed.

Lemma key_of_cstr ns : valid_path ns -> Libc.is_cstr (key_of ns).
Proof. intros H. by apply base64_encode_cstr, Libc.is_cstr_bytes, path_str_cstr. Qed.

Lemma key_of_fits ns : fits ns -> (List.length (key_of ns) < PATH_LEN)%nat.
Proof.
  unfold fits, key_of, key_encode, PATH_LEN. intros H. rewrite base64_encode_length.
  assert ((List.length (path_str ns) + 2) / 3 <= 191 / 3)%nat by (apply Nat.Div0.div_le_mono; lia).
  change (191 / 3)%nat with 63%nat in *. lia.
Qed.

Lemma fits_parent ns n : fits (ns ++ [n]) -> fits ns.
Proof.
  unfold fits. rewrite path_str_snoc. destruct ns as [|m ns]; [simpl; lia|].
  rewrite length_app. simpl. lia.
Qed.

Lemma strrchr_none n : Forall (fun c => c <> SLASH) n -> Libc.strrchr n SLASH = None.
Proof.
  induction 1 as [|c n Hc _ IH]; [done|]. cbn. rewrite IH. by rewrite (proj2 (Z.eqb_neq _ _)).
Qed.

Lemma strrchr_last s n : Forall (fun c => c <> SLASH) n ->
  Libc.strrchr (s ++ SLASH :: n) SLASH = Some (List.length s).
Proof.
  intros H. induction s as [|c s IH]; cbn; [by rewrite strrchr_none|]. by rewrite IH.
Qed.

(** The parent's key is the key of the parent. *)
Lemma parent_key ns n : valid_path (ns ++ [n]) -> fits (ns ++ [n]) ->
  get_parent_key (path_str (ns ++ [n])) = Some (key_of ns).
Proof.
  intros H HF. pose proof (key_of_fits ns (fits_parent ns n HF)) as HL.
  apply Forall_app in H as [Hns Hn]. apply Forall_inv in Hn as [_ Hn].
  assert (HS : Forall (fun c => c <> SLASH) n) by (eapply Forall_impl; [exact Hn|]; simpl; tauto).
  unfold get_parent_key. rewrite path_str_snoc. destruct ns as [|m ns].
  - change (SLASH :: n) with ([] ++ SLASH :: n). rewrite strrchr_last by done. done.
  - rewrite strrchr_last by done. cbn [mbind option_bind].
    destruct (List.length (path_str (m :: ns))) as [|k] eqn:E; [by destruct (path_str (m :: ns)) eqn:E'|].
    rewrite <- E, take_app_length. unfold key_of in HL |- *. by rewrite (proj2 (Nat.leb_gt _ _)).
Qed.

Lemma is_root_path_spec ns : valid_path ns -> is_root_path (path_str ns) = bool_decide (ns = []).
Proof.
  intros H. destruct ns as [|n ns]; [done|]. rewrite bool_decide_false by done.
  unfold is_root_path. rewrite Libc.strlen_cstr by (by apply path_str_cstr).
  apply Z.eqb_neq. intros E. apply Libc.strncmp_prefix_r in E; [|by apply path_str_cstr].
  apply Forall_inv in H as [Hn _]. apply prefix_length in E. cbn in E.
  destruct n as [|c n]; [done|]. cbn in E. lia.
Qed.

Lemma overlay_longer new old : (List.length old <= List.length new)%nat -> overlay new old = new.
Proof. intros H. unfold overlay. by rewrite drop_ge, app_nil_r. Qed.

Lemma path_keys_tail ms ns : ns <> [] ->
  path_keys_loop (S (List.length ns)) ms (path_str ns) (path_str ns) =
  map (fun i => key_of (ns ++ take i ms)) (seq 1 (List.length ms)).
Proof.
  revert ns. induction ms as [|m ms IH]; intros ns Hne; [done|].
  cbn [path_keys_loop List.length seq map]. destruct ns as [|n ns]; [done|].
  cbn [List.length]. set (old := path_str (n :: ns)).
  assert (EP : old ++ SLASH :: m = path_str ((n :: ns) ++ [m])) by (by rewrite path_str_snoc).
  rewrite EP, !overlay_longer by (rewrite <- EP, length_app; simpl; lia). cbn [take].
  f_equal. specialize (IH ((n :: ns) ++ [m])). rewrite length_app in IH. cbn [List.length] in IH.
  rewrite Nat.add_1_r in IH. rewrite IH by (by destruct ns).
  rewrite <- (seq_shift _ 1), map_map. apply map_ext. intros i. cbn [take]. by rewrite <- app_assoc.
Qed.

(** The keys of a path are the keys of its prefixes. *)
Lemma path_keys ns : valid_path ns ->
  get_path_keys ([SLASH] :: ns) = map (fun i => key_of (take i ns)) (seq 0 (S (List.length ns))).
Proof.
  intros H. unfold get_path_keys. cbn [path_keys_loop seq map take]. unfold overlay at 1. cbn [drop List.length app].
  f_equal. destruct ns as [|n ns]; [done|]. cbn [path_keys_loop List.length seq map].
  apply Forall_inv in H as [Hn _].
  assert (EP : SLASH :: n = path_str [n]) by (cbn; by rewrite app_nil_r).
  assert (HL : (1 <= List.length n)%nat) by (destruct n; [done|simpl; lia]).
  rewrite !overlay_longer by (simpl; lia). cbn [take]. rewrite EP. f_equal.
  transitivity (map (fun i => key_of ([n] ++ take i ns)) (seq 1 (List.length ns))).
  { by apply (path_keys_tail ns [n]). }
  rewrite <- (seq_shift _ 1), map_map. done.
Qed.

End NnPath.
