(* ===== verification/FileIndex.v ===== *)
(** * The namespace of the namenode: src/namenode/nn_file_index.c

    The objects (files and directories) live in a cache (Cache.v) keyed by the
    base64 form of their path.  A directory's children are the ring its
    children are linked into through [me], [g_checkpoint_q] the ring of all
    finished objects; both are lists here (Queue.v relates the rings to
    lists).  The ring of a file is never initialised: it is [None].  A file
    under construction has a timer; [fi_timers] are the objects whose timer is
    armed. *)

From Stdlib Require Import ZArith Lia Bool String.
From stdpp Require Import base numbers gmap option list.
From S2P Require Import Prelude Libc CString Mem Hashtable Cache NnTypes NnBlocks NnPath.

Module FileIndex.
Import NnTypes Cache NnPath.

(** ** Data *)

Record fi_store_t := FiStore {
  fin : fi_inode_t; children : option (list Z); children_num : Z; state : Z; thread : bool
}.

#[export] Instance fi_keyed : Keyed fi_store_t := {|
  c_key o := key (fin o); c_len o := List.length (key (fin o));
  c_cmp := Hashtable.fi_hash_keycmp; c_hash := Hashtable.str_hash |}.

#[export] Instance fi_laws : KeyedLaws fi_store_t.
Proof.
  split.
  - intros k n. cbn. apply Libc.strncmp_refl.
  - intros a sz Hs. cbn. unfold Hashtable.str_hash. eexists. split; [reflexivity|]. by apply Z.mod_pos_bound.
Qed.

Record fstate := FState {
  g_fcm : cache fi_store_t;
  g_checkpoint_q : list Z;
  g_fs_object_num : Z;
  fi_timers : list Z;
  blk : NnBlocks.blocks
}.

Definition set_fcm (s : fstate) (c : cache fi_store_t) : fstate :=
  FState c (g_checkpoint_q s) (g_fs_object_num s) (fi_timers s) (blk s).
Definition set_ckp (s : fstate) (q : list Z) : fstate :=
  FState (g_fcm s) q (g_fs_object_num s) (fi_timers s) (blk s).
Definition set_num (s : fstate) (n : Z) : fstate :=
  FState (g_fcm s) (g_checkpoint_q s) n (fi_timers s) (blk s).
Definition set_fi_timers (s : fstate) (ts : list Z) : fstate :=
  FState (g_fcm s) (g_checkpoint_q s) (g_fs_object_num s) ts (blk s).
Definition set_blk (s : fstate) (b : NnBlocks.blocks) : fstate :=
  FState (g_fcm s) (g_checkpoint_q s) (g_fs_object_num s) (fi_timers s) b.

Definition set_fin (o : fi_store_t) (i : fi_inode_t) : fi_store_t :=
  FiStore i (children o) (children_num o) (state o) (thread o).
Definition set_children (o : fi_store_t) (xs : option (list Z)) (n : Z) : fi_store_t :=
  FiStore (fin o) xs n (state o) (thread o).

(** ** Operations *)

(** [dfs_hashtable_lookup(g_fcm->fi_htable, key, string_strlen(key))] *)
Definition get_store_obj (s : fstate) (k : list Z) : option Z :=
  r ← get (g_fcm s) k (Libc.strlen k); r.

Definition is_FsObjectExceed (s : fstate) (index_num num : Z) : bool :=
  index_num <=? u64 (g_fs_object_num s + num).
Definition inc_FsObjectNum (s : fstate) (num : Z) : fstate := set_num s (u64 (g_fs_object_num s + num)).
Definition sub_FsObjectNum (s : fstate) (num : Z) : fstate := set_num s (u64 (g_fs_object_num s - num)).

Definition remove_z (x : Z) (xs : list Z) : list Z := List.filter (fun y => negb (y =? x)) xs.

(** [queue_remove(&fis->me)]: out of whatever ring it is in. *)
Definition remove_me (s : fstate) (x : Z) : fstate :=
  set_fcm s (Cache ((fun o => set_children o (remove_z x <$> children o) (children_num o)) <$> objs (g_fcm s))
    (free (g_fcm s)) (tab (g_fcm s))).
(** [queue_remove(&fis->ckp)] *)
Definition remove_ckp (s : fstate) (x : Z) : fstate := set_ckp s (remove_z x (g_checkpoint_q s)).

(** [dfs_hashtable_remove_link] and [fi_store_destroy].  An object that still
    has children leaves them with pointers into the freed object. *)
Definition fi_destroy (s : fstate) (x : Z) : option fstate :=
  o ← objs (g_fcm s) !! x;
  match children o with
  | Some (_ :: _) => None
  | _ => c ← del (g_fcm s) x; Some (set_fcm s c)
  end.

(** The parent of a path: a null pointer if it is not there. *)
Definition find_parent (s : fstate) (p : list Z) : option Z :=
  pKey ← get_parent_key p; get_store_obj s pKey.

(** [fparent->fin.modification_time = mtime] *)
Definition touch (s : fstate) (p mtime : Z) : fstate :=
  set_fcm s (upd (g_fcm s) p (fun o => set_fin o (set_mtime (fin o) mtime))).

(** [queue_insert_tail(&fparent->children, &fis->me); fparent->children_num++]:
    through null pointers when the parent's ring is not initialised. *)
Definition insert_child (s : fstate) (p x : Z) : option fstate :=
  o ← objs (g_fcm s) !! p;
  xs ← children o;
  Some (set_fcm s (upd (g_fcm s) p (fun o => set_children o (Some (xs ++ [x])) (u64 (children_num o + 1))))).

Definition push_ckp (s : fstate) (x : Z) : fstate := set_ckp s (g_checkpoint_q s ++ [x]).

(** A new object, zeroed and joined to the table.  An exhausted pool is a null
    pointer; an object whose timer is still armed is part of the event timer's
    tree, which clearing it destroys. *)
Definition new_object (s : fstate) (o : fi_store_t) : option (Z * fstate) :=
  '(x, c) ← add (g_fcm s) o;
  if bool_decide (x ∈ fi_timers s) then None else Some (x, set_fcm s c).

Definition update_fi_mkdir (s : fstate) (f : fi_inode_t) : option fstate :=
  '(x, s) ← new_object s (FiStore f (Some []) 0 0 false);
  let p := get_store_path (key f) in
  s ← (if is_root_path p then Some s
       else fparent ← find_parent s p;
            insert_child (touch s fparent (modification_time f)) fparent x);
  Some (inc_FsObjectNum (push_ckp s x) 1).

(** The loop over the blocks of a file. *)
Fixpoint del_blocks (b : NnBlocks.blocks) (ids : list Z) : option NnBlocks.blocks :=
  match ids with
  | [] => Some b
  | i :: ids' =>
      if 0 <? i then b' ← NnBlocks.block_object_del b i; del_blocks b' ids' else del_blocks b ids'
  end.

Section clear.

(** The recursive call. *)
Context (clear : fstate -> Z -> option (Z * fstate)).

Definition clear_one (s : fstate) (x : Z) : option (Z * fstate) :=
  o ← objs (g_fcm s) !! x;
  let s := remove_ckp (remove_me s x) x in
  '(n, s) ← (if is_directory (fin o) then '(n, s) ← clear s x; Some (n + 1, s)
             else b ← del_blocks (blk s) (blks (fin o)); Some (1, set_blk s b));
  s ← fi_destroy s x;
  Some (n, s).

Fixpoint clear_list (s : fstate) (xs : list Z) : option (Z * fstate) :=
  match xs with
  | [] => Some (0, s)
  | x :: xs' => '(n, s) ← clear_one s x; '(m, s) ← clear_list s xs'; Some (n + m, s)
  end.

End clear.

(** [clear_children(&fis->children, fis->children_num)]: [num] entries from
    the head of the ring; past its end the ring's head is taken for a child.
    [fuel] bounds the depth of the tree. *)
Fixpoint clear_children (fuel : nat) (s : fstate) (d : Z) : option (Z * fstate) :=
  match fuel with
  | O => None
  | S fuel' =>
      o ← objs (g_fcm s) !! d;
      if children_num o =? 0 then Some (0, s) else
      xs ← children o;
      if Z.of_nat (List.length xs) <? children_num o then None
      else clear_list (clear_children fuel') s (take (Z.to_nat (children_num o)) xs)
  end.

(** A directory is nested at most as deep as there are objects. *)
Definition clear_fuel (s : fstate) : nat := S (size (objs (g_fcm s))).

(** [fparent->children_num--]: in freed memory if the parent is gone. *)
Definition dec_children (s : fstate) (p : Z) : option fstate :=
  _ ← objs (g_fcm s) !! p;
  Some (set_fcm s (upd (g_fcm s) p (fun o => set_children o (children o) (u64 (children_num o - 1))))).

Definition update_fi_rmr (s : fstate) (f : fi_inode_t) : option fstate :=
  fparent ← find_parent s (get_store_path (key f));
  let s := touch s fparent (modification_time f) in
  fcurrent ← get_store_obj s (key f);
  '(num, s) ← clear_children (clear_fuel s) s fcurrent;
  s ← fi_destroy (remove_ckp (remove_me s fcurrent) fcurrent) fcurrent;
  s ← dec_children s fparent;
  Some (sub_FsObjectNum s (num + 1)).

Definition update_fi_create (s : fstate) (f : fi_inode_t) (blk_id : Z) (has_thread : bool) : option fstate :=
  let f := set_blks f (u64 blk_id :: replicate (BLK_LIMIT - 1) (u64 (-1))) in
  '(x, s) ← new_object s (FiStore f None 0 KEY_STATE_CREATING has_thread);
  Some (inc_FsObjectNum (if has_thread then set_fi_timers s (fi_timers s ++ [x]) else s) 1).

(** The timer of an unfinished file expires. *)
Definition fi_create_timeout (s : fstate) (x : Z) : option fstate :=
  if bool_decide (x ∈ fi_timers s)
  then c ← del (g_fcm s) x; Some (set_fi_timers (set_fcm s c) (remove_z x (fi_timers s)))
  else Some s.

(** The first slot that is free. *)
Fixpoint put_blk (bs : list Z) (blk_id : Z) : list Z :=
  match bs with
  | [] => []
  | i :: bs' => if i =? u64 (-1) then u64 blk_id :: bs' else i :: put_blk bs' blk_id
  end.

(** A file that is not there is a null pointer; re-arming a timer only moves
    it. *)
Definition update_fi_get_additional_blk (s : fstate) (f : fi_inode_t) (blk_id : Z) : option fstate :=
  fis ← get_store_obj s (key f);
  Some (set_fcm s (upd (g_fcm s) fis (fun o => set_fin o (set_blks (fin o) (put_blk (blks (fin o)) blk_id))))).

(** The fields an inode gets when it is closed. *)
Definition close_inode (i f : fi_inode_t) : fi_inode_t :=
  Inode (key i) (uid i) (permission i) (owner i) (group i) (modification_time f) (access_time i)
    (is_directory i) (flength f) (blk_size i) (blk_replication f) (blks i).

Definition update_fi_close (s : fstate) (f : fi_inode_t) : option fstate :=
  fis ← get_store_obj s (key f);
  o ← objs (g_fcm s) !! fis;
  let s := if thread o then set_fi_timers s (remove_z fis (fi_timers s)) else s in
  let s := set_fcm s (upd (g_fcm s) fis (fun o =>
    FiStore (close_inode (fin o) f) (children o) (children_num o) KEY_STATE_OK false)) in
  fparent ← find_parent s (get_store_path (key f));
  s ← insert_child (touch s fparent (modification_time f)) fparent fis;
  Some (push_ckp s fis).

Definition update_fi_rm (s : fstate) (f : fi_inode_t) : option fstate :=
  fparent ← find_parent s (get_store_path (key f));
  let s := touch s fparent (modification_time f) in
  fcurrent ← get_store_obj s (key f);
  o ← objs (g_fcm s) !! fcurrent;
  s ← fi_destroy (remove_ckp (remove_me s fcurrent) fcurrent) fcurrent;
  s ← dec_children s fparent;
  b ← del_blocks (blk s) (blks (fin o));
  Some (set_blk (sub_FsObjectNum s 1) b).

(** [strcpy] into an array of [n] bytes. *)
Definition fits_in (n : nat) (s : list Z) : bool := (List.length s <? n)%nat.

(** Applying one entry of the log; the result is also the return value. *)
Definition update_fi_cache_mgmt (s : fstate) (llInstanceID : Z) (op : log_op) (has_thread : bool) :
    option (Z * fstate) :=
  match op with
  | LogMkdir k perm ow gr mtime =>
      if fits_in 256 k && fits_in 16 ow && fits_in 16 gr then
        s ← update_fi_mkdir s (Inode k llInstanceID (s16 perm) ow gr mtime 0 true 0 0 0 (replicate BLK_LIMIT 0));
        Some (DFS_OK, s)
      else None
  | LogRmr k mtime =>
      if fits_in 256 k then
        s ← update_fi_rmr s (Inode k 0 0 [] [] mtime 0 false 0 0 0 (replicate BLK_LIMIT 0)); Some (DFS_OK, s)
      else None
  | LogGetFileInfo => Some (DFS_OK, s)
  | LogCreate k perm ow gr mtime blk_id blk_sz blk_rep =>
      if fits_in 256 k && fits_in 16 ow && fits_in 16 gr then
        s ← update_fi_create s
              (Inode k llInstanceID (s16 perm) ow gr mtime 0 false 0 blk_sz (s16 blk_rep) (replicate BLK_LIMIT 0))
              blk_id has_thread;
        Some (DFS_OK, s)
      else None
  | LogGetAdditionalBlk k blk_id blk_sz blk_rep =>
      if fits_in 256 k then
        s ← update_fi_get_additional_blk s
              (Inode k llInstanceID 0 [] [] 0 0 false 0 blk_sz (s16 blk_rep) (replicate BLK_LIMIT 0)) blk_id;
        Some (DFS_OK, s)
      else None
  | LogClose k mtime len blk_rep =>
      if fits_in 256 k then
        s ← update_fi_close s (Inode k 0 0 [] [] mtime 0 false len 0 (s16 blk_rep) (replicate BLK_LIMIT 0));
        Some (DFS_OK, s)
      else None
  | LogRm k mtime =>
      if fits_in 256 k then
        s ← update_fi_rm s (Inode k 0 0 [] [] mtime 0 false 0 0 0 (replicate BLK_LIMIT 0)); Some (DFS_OK, s)
      else None
  | LogOpen => Some (DFS_OK, s)
  | LogUnknown _ => Some (DFS_ERROR, s)
  end.

End FileIndex.
