(* ===== verification/Namespace.v ===== *)
(** * The namespace as a tree

    The specification of the file index: a finite map from paths to files and
    directories, and the proof that the log entries nn_file_index.c applies
    implement the operations on it (FileIndex.v). *)

From Stdlib Require Import ZArith Lia Bool String.
From stdpp Require Import base numbers gmap option list.
From S2P Require Import Prelude Libc CString Mem Hashtable Cache NnTypes NnBlocks NnPath FileIndex.

Module Namespace.
Import NnTypes Cache NnPath FileIndex.

(** ** Specification *)

(** A directory or a file, and whether it is finished. *)
Record entry := Entry { e_dir : bool; e_closed : bool }.

Abbreviation view := (gmap path entry).

Inductive ns_op :=
  | Mkdir (ns : path) | Create (ns : path) | AddBlk (ns : path)
  | Close (ns : path) | Rm (ns : path) | Rmr (ns : path).

Definition strictly_below (ns ms : path) : Prop := ns `prefix_of` ms /\ ns <> ms.

#[export] Instance strictly_below_dec ns ms : Decision (strictly_below ns ms).
Proof. unfold strictly_below. apply _. Defined.

Definition parent_dir (V : view) (ns : path) : bool :=
  match V !! removelast ns with Some e => e_dir e | None => false end.

(** [None]: the operation is not meant to be applied. *)
Definition spec_step (V : view) (op : ns_op) : option view :=
  match op with
  | Mkdir ns =>
      if bool_decide (V !! ns = None) && (bool_decide (ns = []) || parent_dir V ns)
      then Some (<[ns := Entry true true]> V) else None
  | Create ns => if bool_decide (V !! ns = None) then Some (<[ns := Entry false false]> V) else None
  | AddBlk ns =>
      match V !! ns with Some (Entry false false) => Some V | _ => None end
  | Close ns =>
      match V !! ns with
      | Some (Entry false false) =>
          if negb (bool_decide (ns = [])) && parent_dir V ns then Some (<[ns := Entry false true]> V) else None
      | _ => None
      end
  | Rm ns =>
      match V !! ns with
      | Some (Entry false true) => if negb (bool_decide (ns = [])) then Some (delete ns V) else None
      | _ => None
      end
  | Rmr ns =>
      match V !! ns with
      | Some (Entry true true) =>
          if negb (bool_decide (ns = []))
          then Some (filter (fun '(ms, e) => ~ (ns `prefix_of` ms /\ e_closed e = true)) V) else None
      | _ => None
      end
  end.

(** ** Representation *)

Record node := Node { loc : Z; dir : bool; closed : bool }.

Abbreviation tree := (gmap path node).

Definition key_hash (sz : Z) (ns : path) : Z :=
  Hashtable.dfs_hashtable_hash_low (key_of ns) (List.length (key_of ns)) sz.

(** No key of [U] is a proper prefix of another one in the same bucket. *)
Definition clash_free (sz : Z) (U : gset path) : Prop :=
  forall p q, p ∈ U -> q ∈ U -> key_hash sz p = key_hash sz q -> key_of p `prefix_of` key_of q -> p = q.

Lemma clash_free_sub (sz : Z) (U U' : gset path) : U' ⊆ U -> clash_free sz U -> clash_free sz U'.
Proof. intros HS HC p q Hp Hq. apply HC; by apply HS. Qed.

(** What an object stores about its node. *)
Record obj_rep (N : gset Z) (ts : list Z) (ns : path) (nd : node) (o : fi_store_t) : Prop := {
  or_key : key (fin o) = key_of ns;
  or_dir : is_directory (fin o) = dir nd;
  or_state : state o = if closed nd then KEY_STATE_OK else KEY_STATE_CREATING;
  or_thread : thread o = bool_decide (loc nd ∈ ts);
  or_timer : closed nd = true -> loc nd ∉ ts;
  or_closed : dir nd = true -> closed nd = true;
  or_file : dir nd = false -> children o = None;
  or_ring : dir nd = true -> exists xs, children o = Some xs /\ NoDup xs /\
    (loc nd ∉ N -> children_num o = Z.of_nat (List.length xs))
}.

(** [D]: objects taken out of their rings; [N]: directories whose
    [children_num] is out of date. *)
Record rep (s : fstate) (A : tree) (D N : gset Z) : Prop := {
  r_cache : ok (g_fcm s);
  r_small : Z.of_nat (size (objs (g_fcm s)) + List.length (free (g_fcm s))) < 2 ^ 64;
  r_node ns nd : A !! ns = Some nd ->
    valid_path ns /\ exists o, objs (g_fcm s) !! loc nd = Some o /\ obj_rep N (fi_timers s) ns nd o;
  r_surj x : is_Some (objs (g_fcm s) !! x) -> exists ns nd, A !! ns = Some nd /\ loc nd = x;
  r_clash : clash_free (size_ (g_fcm s)) (dom A);
  r_child ns nd o xs x : A !! ns = Some nd -> objs (g_fcm s) !! loc nd = Some o -> children o = Some xs ->
    x ∈ xs <-> exists n nd', A !! (ns ++ [n]) = Some nd' /\ loc nd' = x /\ closed nd' = true /\ x ∉ D;
  r_parent ns n nd : A !! (ns ++ [n]) = Some nd -> closed nd = true -> loc nd ∉ D ->
    exists p, A !! ns = Some p /\ dir p = true;
  r_ckp_nodup : NoDup (g_checkpoint_q s);
  r_ckp x : x ∈ g_checkpoint_q s <->
    exists ns nd, A !! ns = Some nd /\ loc nd = x /\ closed nd = true /\ x ∉ D;
  r_timers x : x ∈ fi_timers s -> exists ns nd, A !! ns = Some nd /\ loc nd = x;
  r_blk : NnBlocks.blk_ok (blk s)
}.

Definition abs (A : tree) : view := (fun nd => Entry (dir nd) (closed nd)) <$> A.

Definition implements (s : fstate) (V : view) : Prop := exists A, rep s A ∅ ∅ /\ V = abs A.

(** ** Lemmas *)

Section lemmas.

Context (s : fstate) (A : tree) (D N : gset Z) (R : rep s A D N).

Lemma node_obj ns nd : A !! ns = Some nd ->
  exists o, objs (g_fcm s) !! loc nd = Some o /\ obj_rep N (fi_timers s) ns nd o.
Proof. intros E. by destruct (r_node _ _ _ _ R ns nd E) as [_ ?]. Qed.

Lemma node_valid ns nd : A !! ns = Some nd -> valid_path ns.
Proof. intros E. by destruct (r_node _ _ _ _ R ns nd E) as [? _]. Qed.

Lemma loc_inj ns ms nd md : A !! ns = Some nd -> A !! ms = Some md -> loc nd = loc md -> ns = ms.
Proof.
  intros E1 E2 L. destruct (node_obj ns nd E1) as (o1 & H1 & O1). destruct (node_obj ms md E2) as (o2 & H2 & O2).
  rewrite L, H2 in H1. injection H1 as ->.
  apply key_of_inj; [by eapply node_valid|by eapply node_valid|].
  by rewrite <- (or_key _ _ _ _ _ O1), <- (or_key _ _ _ _ _ O2).
Qed.

Lemma lookup_node ns nd : A !! ns = Some nd -> get_store_obj s (key_of ns) = Some (loc nd).
Proof.
  intros E. pose proof (key_of_cstr ns (node_valid ns nd E)) as HC.
  destruct (node_obj ns nd E) as (o & Ho & O). unfold get_store_obj.
  rewrite Libc.strlen_cstr by done.
  assert (EK : c_key o = key_of ns) by apply (or_key _ _ _ _ _ O).
  assert (EL : c_len o = List.length (key_of ns)) by (cbn; by rewrite (or_key _ _ _ _ _ O)).
  rewrite <- EL, <- EK. rewrite (get_exact (g_fcm s) (loc nd) o (r_cache _ _ _ _ R) Ho); [done|].
  intros y b Hb EH EC. destruct (r_surj _ _ _ _ R y) as (ms & md & Em & <-); [eauto|].
  destruct (node_obj ms md Em) as (b' & Hb' & OB). rewrite Hb in Hb'. injection Hb' as <-.
  assert (EKb : c_key b = key_of ms) by apply (or_key _ _ _ _ _ OB).
  assert (ELb : c_len b = List.length (key_of ms)) by (cbn; by rewrite (or_key _ _ _ _ _ OB)).
  rewrite EK, EL, EKb in EC. rewrite EK, EL, EKb, ELb in EH. apply Libc.strncmp_prefix in EC; [|done].
  assert (ns = ms) as <-; [|by simplify_eq].
  apply (r_clash _ _ _ _ R); [by apply elem_of_dom_2 in E|by apply elem_of_dom_2 in Em| |done].
  by injection EH.
Qed.

Lemma find_parent_node ns n p :
  valid_path (ns ++ [n]) -> fits (ns ++ [n]) -> A !! ns = Some p ->
  find_parent s (path_str (ns ++ [n])) = Some (loc p).
Proof.
  intros HV HF E. unfold find_parent. rewrite parent_key by done. cbn [mbind option_bind].
  by apply lookup_node.
Qed.

(** A key without an object is not found if no key in its bucket starts with
    it. *)
Lemma lookup_fresh ns : valid_path ns -> A !! ns = None ->
  clash_free (size_ (g_fcm s)) ({[ns]} ∪ dom A) -> get_store_obj s (key_of ns) = None.
Proof.
  intros HV E HC. pose proof (key_of_cstr ns HV) as HK. unfold get_store_obj. rewrite Libc.strlen_cstr by done.
  set (o := FiStore (Inode (key_of ns) 0 0 [] [] 0 0 false 0 0 0 []) None 0 0 false).
  change (key_of ns) with (c_key o). change (List.length (c_key o)) with (c_len o).
  rewrite (get_fresh (g_fcm s) o (r_cache _ _ _ _ R)); [done|].
  intros y b Hb EH EC. destruct (r_surj _ _ _ _ R y) as (ms & md & Em & <-); [eauto|].
  destruct (node_obj ms md Em) as (b' & Hb' & OB). rewrite Hb in Hb'. injection Hb' as <-.
  cbn in EC, EH. rewrite (or_key _ _ _ _ _ OB) in EC, EH. apply Libc.strncmp_prefix in EC; [|done].
  assert (ns = ms) as <-; [|congruence].
  apply HC; [set_solver|apply elem_of_dom_2 in Em; set_solver| |done]. by injection EH.
Qed.

Lemma ring_bound ns nd o xs y : A !! ns = Some nd -> objs (g_fcm s) !! loc nd = Some o ->
  children o = Some xs -> NoDup xs -> y ∉ xs -> (exists ms md, A !! ms = Some md /\ loc md = y) ->
  Z.of_nat (S (List.length xs)) < 2 ^ 64.
Proof.
  intros E Ho Hc ND Hy (ms & md & Em & El). pose proof (r_small _ _ _ _ R) as HS.
  assert (S (List.length xs) <= size (objs (g_fcm s)))%nat; [|lia].
  change (S (List.length xs)) with (List.length (y :: xs)).
  assert (NoDup (y :: xs)) by (by constructor).
  rewrite <- size_dom, <- (size_list_to_set (C:=gset Z) (y :: xs)) by done. apply subseteq_size.
  intros x [->|Hx]%elem_of_list_to_set%elem_of_cons; apply elem_of_dom.
  - destruct (node_obj _ _ Em) as (o' & Ho' & _). rewrite El in Ho'. eauto.
  - apply (r_child _ _ _ _ R ns nd o xs x E Ho Hc) in Hx as (n & nd' & E' & <- & _).
    destruct (node_obj _ _ E') as (o' & -> & _). eauto.
Qed.

End lemmas.

Lemma obj_rep_frame N ts ts' ns nd o : (loc nd ∈ ts' <-> loc nd ∈ ts) ->
  obj_rep N ts ns nd o -> obj_rep N ts' ns nd o.
Proof.
  intros Ht []. split; try done.
  - rewrite or_thread0. by apply bool_decide_ext.
  - intros Hc. rewrite Ht. auto.
Qed.

Lemma app_nil_end_ne (ns : path) n : ns <> ns ++ [n].
Proof. intros E. apply (f_equal List.length) in E. rewrite length_app in E. simpl in E. lia. Qed.

Lemma snoc_ne_nil (ns : path) n : ns ++ [n] <> [].
Proof. by destruct ns. Qed.

(** A new object at a free path; a finished one is not in any ring yet. *)
Lemma new_object_rep s A D N ns nd o x fr ts' :
  rep s A D N -> valid_path ns -> A !! ns = None ->
  clash_free (size_ (g_fcm s)) ({[ns]} ∪ dom A) -> free (g_fcm s) = x :: fr ->
  loc nd = x -> x ∉ D -> obj_rep N ts' ns nd o -> (children o = None \/ children o = Some []) ->
  (forall y, y <> x -> y ∈ ts' <-> y ∈ fi_timers s) ->
  exists c, new_object s o = Some (x, set_fcm s c) /\ free c = fr /\ size_ c = size_ (g_fcm s) /\
    rep (set_fi_timers (set_fcm s c) ts') (<[ns := nd]> A) (if closed nd then {[x]} ∪ D else D) N.
Proof.
  intros R HV EA HC HF Hx HD HO Hch Hts.
  destruct (add_ok _ o x fr (r_cache _ _ _ _ R) HF) as (c & Ec & Oc & Hnone & Eo & Ef & Es).
  assert (HL : forall ms md, A !! ms = Some md -> loc md <> x).
  { intros ms md Em El. destruct (node_obj _ _ _ _ R ms md Em) as (b & Hb & _). rewrite El in Hb. congruence. }
  assert (HT : x ∉ fi_timers s).
  { intros (ms & md & Em & El)%(r_timers _ _ _ _ R). by apply (HL ms md). }
  exists c. unfold new_object. rewrite Ec. cbn [mbind option_bind]. rewrite bool_decide_false by done.
  split_and!; [done|done|done|].
  assert (HA : forall ms md, <[ns := nd]> A !! ms = Some md -> loc md <> x -> A !! ms = Some md).
  { intros ms md [[<- <-]|[_ ?]]%lookup_insert_Some; done. }
  assert (HB : forall ms md, A !! ms = Some md -> <[ns := nd]> A !! ms = Some md).
  { intros ms md Em. rewrite lookup_insert_ne; [done|congruence]. }
  assert (HDx : forall y, y <> x -> y ∈ (if closed nd then {[x]} ∪ D else D) <-> y ∈ D).
  { intros y Hy. destruct (closed nd); set_solver. }
  destruct R. split; cbn [g_fcm g_checkpoint_q fi_timers blk set_fi_timers set_fcm]; try done.
  - rewrite Eo, Ef. rewrite map_size_insert_None by done. rewrite HF in r_small0. simpl in r_small0. lia.
  - intros ms md Em. destruct (decide (loc md = x)) as [El|Hne].
    + assert (ms = ns /\ md = nd) as [-> ->].
      { apply lookup_insert_Some in Em as [[<- <-]|[_ Em]]; [done|]. by destruct (HL ms md Em). }
      split; [done|]. exists o. rewrite Eo, El, lookup_insert_eq. done.
    + destruct (r_node0 ms md (HA ms md Em Hne)) as (? & b & Hb & OB). split; [done|].
      exists b. rewrite Eo, lookup_insert_ne by done. split; [done|].
      apply (obj_rep_frame _ (fi_timers s)); [by apply Hts|done].
  - intros y. rewrite Eo. destruct (decide (y = x)) as [->|Hne].
    + intros _. exists ns, nd. by rewrite lookup_insert_eq.
    + rewrite lookup_insert_ne by done. intros (ms & md & Em & ?)%r_surj0. exists ms, md. auto.
  - rewrite Es, dom_insert_L. done.
  - intros ms md b xs y Em Hb Hxs. rewrite Eo in Hb. destruct (decide (loc md = x)) as [El|Hne].
    + assert (ms = ns /\ md = nd) as [-> ->].
      { apply lookup_insert_Some in Em as [[<- <-]|[_ Em]]; [done|]. by destruct (HL ms md Em). }
      rewrite El, lookup_insert_eq in Hb. injection Hb as <-. destruct Hch as [Hch|Hch]; [congruence|].
      rewrite Hch in Hxs. injection Hxs as <-. split; [by intros ?%elem_of_nil|].
      intros (n & nd' & En & El' & Hc & Hd). exfalso.
      rewrite lookup_insert_ne in En by (intros E; by apply (app_nil_end_ne ns n)).
      destruct (r_parent0 ns n nd' En Hc) as (p & Ep & _); [|congruence].
      rewrite El'. rewrite <- HDx; [done|]. rewrite <- El'. by apply (HL (ns ++ [n])).
    + rewrite lookup_insert_ne in Hb by done. rewrite (r_child0 ms md b xs y (HA ms md Em Hne) Hb Hxs).
      split; intros (n & nd' & En & El & Hc & Hd).
      * exists n, nd'. split_and!; [by apply HB|done|done|]. rewrite HDx; [done|]. rewrite <- El. by apply (HL (ms ++ [n])).
      * assert (Hy : y <> x).
        { intros ->. apply lookup_insert_Some in En as [[_ <-]|[_ En]]; [|by apply (HL (ms ++ [n]) nd')].
          rewrite Hc in Hd. set_solver. }
        exists n, nd'. rewrite HDx in Hd by done. split_and!; try done. apply HA; [done|congruence].
  - intros ms n md En Hc Hd. assert (Hy : loc md <> x).
    { intros E. apply lookup_insert_Some in En as [[_ <-]|[_ En]]; [|by apply (HL (ms ++ [n]) md)].
      rewrite Hc, E in Hd. set_solver. }
    rewrite HDx in Hd by done. destruct (r_parent0 ms n md (HA _ _ En Hy) Hc Hd) as (p & Ep & ?). exists p. auto.
  - intros y. rewrite r_ckp0. split; intros (ms & md & Em & El & Hc & Hd).
    + exists ms, md. split_and!; [by apply HB|done|done|]. rewrite HDx; [done|]. rewrite <- El. by apply (HL ms).
    + assert (Hy : y <> x).
      { intros ->. apply lookup_insert_Some in Em as [[_ <-]|[_ Em]]; [|by apply (HL ms md)].
        rewrite Hc in Hd. set_solver. }
      exists ms, md. rewrite HDx in Hd by done. split_and!; try done. apply HA; [done|congruence].
  - intros y Hy. destruct (decide (y = x)) as [->|Hne].
    + exists ns, nd. by rewrite lookup_insert_eq.
    + apply Hts in Hy; [|done]. destruct (r_timers0 y Hy) as (ms & md & Em & ?). exists ms, md. auto.
Qed.

(** Writes to an object that keep its key and node, and its ring up to the
    order: the new ring must hold the children [D'] leaves attached. *)
Lemma upd_rep s A D D' N N' q ts' x f :
  rep s A D N ->
  (forall a, key (fin (f a)) = key (fin a)) ->
  (forall ns nd o, A !! ns = Some nd -> objs (g_fcm s) !! loc nd = Some o -> loc nd <> x ->
     obj_rep N (fi_timers s) ns nd o -> obj_rep N' ts' ns nd o) ->
  (forall ns nd o, A !! ns = Some nd -> objs (g_fcm s) !! x = Some o -> loc nd = x ->
     obj_rep N (fi_timers s) ns nd o -> obj_rep N' ts' ns nd (f o)) ->
  (forall ns nd o xs y, A !! ns = Some nd -> objs (g_fcm s) !! loc nd = Some o ->
     children (if decide (x = loc nd) then f o else o) = Some xs ->
     y ∈ xs <-> exists n nd', A !! (ns ++ [n]) = Some nd' /\ loc nd' = y /\ closed nd' = true /\ y ∉ D') ->
  (forall ns n nd, A !! (ns ++ [n]) = Some nd -> closed nd = true -> loc nd ∉ D' ->
     exists p, A !! ns = Some p /\ dir p = true) ->
  NoDup q ->
  (forall y, y ∈ q <-> exists ns nd, A !! ns = Some nd /\ loc nd = y /\ closed nd = true /\ y ∉ D') ->
  (forall y, y ∈ ts' -> exists ns nd, A !! ns = Some nd /\ loc nd = y) ->
  rep (FState (upd (g_fcm s) x f) q (g_fs_object_num s) ts' (blk s)) A D' N'.
Proof.
  intros R Hk Hne Heq Hch Hpar HNQ HQ HT. destruct R. split; cbn [g_fcm g_checkpoint_q fi_timers blk]; try done.
  - apply upd_ok; [done| |done]. intros a. cbn. by rewrite Hk.
  - cbn [objs upd free]. rewrite <- size_dom, dom_alter_L, size_dom. done.
  - intros ns nd E. destruct (r_node0 ns nd E) as (HV & o & Ho & OO). split; [done|].
    destruct (decide (x = loc nd)) as [->|Hx].
    + exists (f o). rewrite upd_lookup, Ho, decide_True by done. split; [done|]. by apply Heq.
    + exists o. rewrite upd_lookup, Ho, decide_False by done. split; [done|]. apply Hne; congruence.
  - intros y. rewrite upd_lookup, fmap_is_Some. apply r_surj0.
  - intros ns nd o xs y E Ho Hxs. rewrite upd_lookup in Ho. apply fmap_Some in Ho as (o0 & Ho & ->).
    apply (Hch ns nd o0 xs y E Ho). by destruct (decide (x = loc nd)).
Qed.

(** Fields that are not part of the tree. *)
Lemma upd_inode_rep s A D N x f :
  rep s A D N ->
  (forall o, key (f (fin o)) = key (fin o)) -> (forall o, is_directory (f (fin o)) = is_directory (fin o)) ->
  rep (set_fcm s (upd (g_fcm s) x (fun o => set_fin o (f (fin o))))) A D N.
Proof.
  intros R Hk Hd. apply (upd_rep s A D D N N (g_checkpoint_q s) (fi_timers s) x (fun o => set_fin o (f (fin o))));
    try done; try apply R.
  - intros ns nd o E Ho El []. split; try done; cbn [fin set_fin]; by rewrite ?Hk, ?Hd.
  - intros ns nd o xs y E Ho Hxs. apply (r_child _ _ _ _ R ns nd o); try done. by destruct (decide (x = loc nd)).
Qed.

Lemma touch_rep s A D N p t : rep s A D N -> rep (touch s p t) A D N.
Proof. intros R. by apply (upd_inode_rep s A D N p (fun i => set_mtime i t)). Qed.

(** Linking a finished object into its parent's ring and the checkpoint
    queue. *)
Lemma attach_rep s A D N ns n nd p :
  rep s A D N -> A !! (ns ++ [n]) = Some nd -> closed nd = true -> loc nd ∈ D ->
  A !! ns = Some p -> dir p = true -> loc p ∉ N ->
  exists s', insert_child s (loc p) (loc nd) = Some s' /\ rep (push_ckp s' (loc nd)) A (D ∖ {[loc nd]}) N /\
    g_fs_object_num s' = g_fs_object_num s.
Proof.
  intros R E Hc HD Ep Hp HN. destruct (node_obj _ _ _ _ R ns p Ep) as (o & Ho & OO).
  destruct (or_ring _ _ _ _ _ OO Hp) as (xs & Hxs & ND & Hnum). specialize (Hnum HN).
  set (x := loc nd) in *.
  assert (Hx : x ∉ xs).
  { intros (n' & nd' & _ & _ & _ & HD')%(r_child _ _ _ _ R ns p o xs x Ep Ho Hxs). by apply HD'. }
  assert (HQ : x ∉ g_checkpoint_q s) by (intros (? & ? & _ & _ & _ & ?)%(r_ckp _ _ _ _ R); done).
  unfold insert_child. rewrite Ho. cbn [mbind option_bind]. rewrite Hxs. cbn [mbind option_bind].
  eexists. split; [reflexivity|]. split; [|done].
  eapply (upd_rep s A D (D ∖ {[x]}) N N (g_checkpoint_q s ++ [x]) (fi_timers s) (loc p)); try done; try apply R.
  - intros ms md o' Em Ho' El OB. destruct (or_ring _ _ _ _ _ OB) as (xs' & Hxs' & ND' & Hnum').
    { assert (ms = ns) as -> by (by eapply (loc_inj _ _ _ _ R)). by simplify_eq. }
    rewrite Ho in Ho'. injection Ho' as <-. rewrite Hxs in Hxs'. injection Hxs' as <-.
    destruct OB. split; cbn; try done.
    + intros Hf. specialize (or_file0 Hf). congruence.
    + intros _. eexists. split; [reflexivity|]. rewrite length_app. split.
      * apply NoDup_app. split_and!; [done| |apply NoDup_singleton].
        intros y Hy Ey. by apply list_elem_of_singleton in Ey as ->.
      * intros _. rewrite Hnum. cbn. unfold u64. rewrite uwrap_small; [lia|]. split; [lia|].
        assert (Z.of_nat (S (List.length xs)) < 2 ^ 64); [|lia].
        apply (ring_bound s A D N R ns p o xs x Ep Ho Hxs ND Hx). exists (ns ++ [n]), nd. done.
  - intros ms md o' ys y Em Ho' Hys. destruct (decide (loc p = loc md)) as [El|Hne].
    + assert (ms = ns) as -> by (by eapply (loc_inj _ _ _ _ R)). simplify_eq. cbn in Hys. injection Hys as <-.
      rewrite elem_of_app, list_elem_of_singleton, (r_child _ _ _ _ R ns p o xs y Ep Ho Hxs). split.
      * intros [(n' & nd' & ? & ? & ? & ?)| ->]; [exists n', nd'; set_solver|exists n, nd; set_solver].
      * intros (n' & nd' & ? & Hl & ? & HD'). destruct (decide (y = x)) as [->|]; [by right|left].
        exists n', nd'. set_solver.
    + rewrite (r_child _ _ _ _ R ms md o' ys y Em Ho' Hys).
      split; intros (n' & nd' & En & Hl & ? & HD'); exists n', nd'; split_and!; try done; [set_solver|].
      intros Hy. apply HD'. apply elem_of_difference. split; [done|]. intros Ey%elem_of_singleton. subst y.
      assert (HH : ms ++ [n'] = ns ++ [n]) by (by eapply (loc_inj _ _ _ _ R)).
      apply app_inj_tail in HH as [-> _]. congruence.
  - intros ms n' md Em Hc' HD'. destruct (decide (loc md = x)) as [Ex|Hne].
    + assert (HH : ms ++ [n'] = ns ++ [n]) by (by eapply (loc_inj _ _ _ _ R)).
      apply app_inj_tail in HH as [-> _]. eauto.
    + apply (r_parent _ _ _ _ R ms n' md Em Hc'). set_solver.
  - apply NoDup_app. split_and!; [apply R| |apply NoDup_singleton].
    intros y Hy Ey. by apply list_elem_of_singleton in Ey as ->.
  - intros y. rewrite elem_of_app, list_elem_of_singleton, (r_ckp _ _ _ _ R). split.
    + intros [(ms & md & ? & ? & ? & ?)| ->]; [exists ms, md; set_solver|exists (ns ++ [n]), nd; set_solver].
    + intros (ms & md & ? & Hl & ? & HD'). destruct (decide (y = x)) as [->|]; [by right|left].
      exists ms, md. set_solver.
Qed.

Lemma remove_z_notin x xs : x ∉ xs -> remove_z x xs = xs.
Proof.
  unfold remove_z. induction xs as [|y xs IH]; intros H; [done|]. simpl.
  rewrite (proj2 (Z.eqb_neq _ _)) by set_solver. simpl. rewrite IH; [done|set_solver].
Qed.

Lemma elem_remove_z x y xs : y ∈ remove_z x xs <-> y ∈ xs /\ y <> x.
Proof. apply elem_filter_ne. Qed.

(** Taking an object out of its parent's ring and the checkpoint queue leaves
    the parent's count out of date. *)
Lemma detach_rep s A D N ns n nd p :
  rep s A D N -> A !! (ns ++ [n]) = Some nd -> A !! ns = Some p ->
  rep (remove_ckp (remove_me s (loc nd)) (loc nd)) A ({[loc nd]} ∪ D) ({[loc p]} ∪ N).
Proof.
  intros R E Ep. set (x := loc nd).
  assert (HX : forall ms md o xs, A !! ms = Some md -> objs (g_fcm s) !! loc md = Some o ->
    children o = Some xs -> x ∈ xs -> ms = ns).
  { intros ms md o xs Em Ho Hxs (n' & nd' & En & El & _)%(r_child _ _ _ _ R ms md o xs x Em Ho Hxs).
    assert (HH : ms ++ [n'] = ns ++ [n]) by (by eapply (loc_inj _ _ _ _ R)). by apply app_inj_tail in HH as [-> _]. }
  pose proof R as R0. destruct R.
  split; cbn [g_fcm g_checkpoint_q fi_timers blk set_fcm set_ckp remove_me remove_ckp]; try done.
  - by apply fmap_ok.
  - cbn [objs free]. by rewrite map_size_fmap.
  - intros ms md Em. destruct (r_node0 ms md Em) as (HV & o & Ho & OO). split; [done|].
    eexists. cbn [objs]. rewrite lookup_fmap, Ho. split; [reflexivity|].
    destruct OO. split; cbn [fin children children_num state thread set_children]; try done.
    + intros Hf. by rewrite or_file0.
    + intros Hd. destruct (or_ring0 Hd) as (xs & Hxs & ND & Hnum). exists (remove_z x xs).
      rewrite Hxs. split_and!; [done|by apply nodup_filter_ne|]. intros HN. rewrite remove_z_notin.
      * apply Hnum. set_solver.
      * intros Hx. apply HN. assert (ms = ns) as -> by (by eapply HX). simplify_eq. set_solver.
  - intros y. cbn [objs]. rewrite lookup_fmap, fmap_is_Some. apply r_surj0.
  - intros ms md o xs y Em Ho Hxs. cbn [objs] in Ho. rewrite lookup_fmap in Ho.
    apply fmap_Some in Ho as (o0 & Ho & ->). cbn [children set_children] in Hxs.
    apply fmap_Some in Hxs as (xs0 & Hxs & ->). rewrite elem_remove_z, (r_child0 ms md o0 xs0 y Em Ho Hxs).
    split; [intros [(n' & nd' & ? & ? & ? & ?) Hy]|intros (n' & nd' & ? & ? & ? & Hy)]; [|split; [|set_solver]];
      exists n', nd'; set_solver.
  - intros ms n' md Em Hc HD. apply (r_parent0 ms n' md Em Hc). set_solver.
  - by apply nodup_filter_ne.
  - intros y. rewrite elem_remove_z, r_ckp0.
    split; [intros [(ms & md & ? & ? & ? & ?) Hy]|intros (ms & md & ? & ? & ? & Hy)]; [|split; [|set_solver]];
      exists ms, md; set_solver.
Qed.

Lemma weaken_rep s A D N N' : N ⊆ N' -> rep s A D N -> rep s A D N'.
Proof.
  intros HN []. split; try done. intros ns nd E. destruct (r_node0 ns nd E) as (HV & o & Ho & []).
  split; [done|]. exists o. split; [done|]. split; try done.
  intros Hd. destruct (or_ring0 Hd) as (xs & ? & ? & Hnum). exists xs. split_and!; try done. intros ?. apply Hnum. set_solver.
Qed.

Lemma set_blk_rep s A D N b : NnBlocks.blk_ok b -> rep s A D N -> rep (set_blk s b) A D N.
Proof. intros Hb []. by split. Qed.

Lemma set_num_rep s A D N n : rep s A D N -> rep (set_num s n) A D N.
Proof. intros []. by split. Qed.

(** Freeing an object that is in no ring, and forgetting its timer. *)
Lemma free_rep s A D N ns nd :
  rep s A D N -> A !! ns = Some nd -> (closed nd = true -> loc nd ∈ D) ->
  (forall n nd', A !! (ns ++ [n]) = Some nd' -> closed nd' = true -> loc nd' ∈ D) ->
  exists c, del (g_fcm s) (loc nd) = Some c /\
    rep (set_fi_timers (set_fcm s c) (remove_z (loc nd) (fi_timers s))) (delete ns A)
      (D ∖ {[loc nd]}) (N ∖ {[loc nd]}) /\
    (forall y, y <> loc nd -> objs c !! y = objs (g_fcm s) !! y).
Proof.
  intros R E HD Hno. destruct (node_obj _ _ _ _ R ns nd E) as (o & Ho & OO). set (x := loc nd) in *.
  assert (HX : forall ms md, A !! ms = Some md -> ms <> ns -> loc md <> x).
  { intros ms md Em Hne El. apply Hne. by eapply (loc_inj _ _ _ _ R). }
  assert (HK : forall ms y, (exists md, A !! ms = Some md /\ loc md = y /\ closed md = true /\ y ∉ D) <->
    (exists md, delete ns A !! ms = Some md /\ loc md = y /\ closed md = true /\ y ∉ D ∖ {[x]})).
  { intros ms y. split; intros (md & Em & El & Hm & Hy).
    - exists md. rewrite lookup_delete_ne by (intros <-; simplify_eq; auto). split_and!; try done. set_solver.
    - apply lookup_delete_Some in Em as [Hms Em]. exists md. split_and!; try done.
      pose proof (HX ms md Em). set_solver. }
  destruct (del_ok _ x o (r_cache _ _ _ _ R) Ho) as (c & Ec & Oc & Eo & Ef & Es).
  exists c. split; [done|]. split; [|intros y Hy; by rewrite Eo, lookup_delete_ne].
  destruct R. split; cbn [g_fcm g_checkpoint_q fi_timers blk set_fcm set_fi_timers]; try done.
  - rewrite Eo, Ef. cbn [List.length]. rewrite map_size_delete, Ho.
    assert (size (objs (g_fcm s)) <> 0)%nat by (intros Hz%map_size_empty_inv; rewrite Hz, lookup_empty in Ho; done). lia.
  - intros ms md [Hms Em]%lookup_delete_Some. destruct (r_node0 ms md Em) as (HV & b & Hb & OB). split; [done|].
    pose proof (HX ms md Em ltac:(done)) as Hl. exists b. rewrite Eo, lookup_delete_ne by done. split; [done|].
    apply (obj_rep_frame _ (fi_timers s)); [rewrite elem_remove_z; tauto|].
    destruct OB. split; try done. intros Hd. destruct (or_ring0 Hd) as (xs & ? & ? & Hnum). exists xs.
    split_and!; try done. intros HN. apply Hnum. set_solver.
  - intros y. rewrite Eo. intros [o' [Hy Hl]%lookup_delete_Some]. destruct (r_surj0 y) as (ms & md & Em & El); [eauto|].
    exists ms, md. rewrite lookup_delete_ne; [done|]. intros <-. simplify_eq.
  - rewrite Es. intros p q Hp Hq. apply r_clash0; set_solver.
  - intros ms md b xs y [Hms Em]%lookup_delete_Some Hb Hxs. rewrite Eo in Hb.
    apply lookup_delete_Some in Hb as [Hl Hb]. rewrite (r_child0 ms md b xs y Em Hb Hxs).
    split; intros (n & HH); exists n; by apply HK.
  - intros ms n md [Hms Em]%lookup_delete_Some Hc' HD'.
    assert (Hl : loc md ∉ D) by (pose proof (HX _ md Em ltac:(done)); set_solver).
    destruct (r_parent0 ms n md Em Hc' Hl) as (p & Ep & Hp). exists p. rewrite lookup_delete_ne; [done|].
    intros <-. by apply Hl, (Hno n).
  - intros y. rewrite r_ckp0. split; intros (ms & HH); exists ms; by apply HK.
  - intros y [Hy Hne]%elem_remove_z. destruct (r_timers0 y Hy) as (ms & md & Em & El). exists ms, md.
    rewrite lookup_delete_ne; [done|]. intros <-. by simplify_eq.
Qed.

(** An object without children that is out of its rings can be freed. *)
Lemma destroy_rep s A D N ns nd :
  rep s A D N -> A !! ns = Some nd -> closed nd = true -> loc nd ∈ D ->
  (forall n nd', A !! (ns ++ [n]) = Some nd' -> closed nd' = true -> loc nd' ∈ D) ->
  exists s', fi_destroy s (loc nd) = Some s' /\ rep s' (delete ns A) (D ∖ {[loc nd]}) (N ∖ {[loc nd]}) /\
    g_fs_object_num s' = g_fs_object_num s /\ blk s' = blk s /\
    (forall y, y <> loc nd -> objs (g_fcm s') !! y = objs (g_fcm s) !! y).
Proof.
  intros R E Hc HD Hno. destruct (node_obj _ _ _ _ R ns nd E) as (o & Ho & OO). set (x := loc nd) in *.
  assert (HC : children o = None \/ children o = Some []).
  { destruct (children o) as [[|y xs]|] eqn:Hxs; [by right| |by left]. exfalso.
    destruct (proj1 (r_child _ _ _ _ R ns nd o (y :: xs) y E Ho Hxs)) as (n & nd' & En & El & Hc' & Hy); [set_solver|].
    apply Hy. rewrite <- El. by apply (Hno n). }
  destruct (free_rep s A D N ns nd R E ltac:(done) Hno) as (c & Ec & R' & Hfr). fold x in Ec, R', Hfr.
  rewrite remove_z_notin in R' by (by apply (or_timer _ _ _ _ _ OO)).
  change (fi_timers s) with (fi_timers (set_fcm s c)) in R'.
  exists (set_fcm s c). split_and!; [|by destruct s|done|done|done].
  unfold fi_destroy. rewrite Ho. cbn [mbind option_bind]. destruct HC as [-> | ->]; by rewrite Ec.
Qed.

(** ** Removing a subtree *)

Definition prune (A : tree) (ns : path) : tree :=
  filter (fun '(ms, md) => ~ (strictly_below ns ms /\ closed md = true)) A.

Definition desc (A : tree) (ns : path) : gset path := filter (strictly_below ns) (dom A).

(** Nothing below [ns] is being removed already. *)
Definition calm (A : tree) (D N : gset Z) (ns : path) : Prop :=
  forall ms md, A !! ms = Some md -> strictly_below ns ms -> loc md ∉ D /\ loc md ∉ N.

Lemma prune_lookup A ns ms md :
  prune A ns !! ms = Some md <-> A !! ms = Some md /\ ~ (strictly_below ns ms /\ closed md = true).
Proof. unfold prune. by rewrite map_lookup_filter_Some. Qed.

Lemma below_snoc ns n : strictly_below ns (ns ++ [n]).
Proof. split; [by apply prefix_app_r|apply app_nil_end_ne]. Qed.

Lemma below_trans ns ms ps : strictly_below ns ms -> strictly_below ms ps -> strictly_below ns ps.
Proof.
  intros [H1 N1] [H2 N2]. split; [by etrans|]. intros <-. apply N1. apply (anti_symm prefix); done.
Qed.

Lemma calm_child A D N ns n nd s : rep s A D N -> A !! (ns ++ [n]) = Some nd -> calm A D N ns ->
  calm A ({[loc nd]} ∪ D) ({[loc nd]} ∪ N) (ns ++ [n]).
Proof.
  intros R E HC ms md Em HB. destruct (HC ms md Em) as [HD HN]; [by eapply below_trans; [apply below_snoc|]|].
  assert (loc md <> loc nd); [|set_solver]. intros El. destruct HB as [_ HB]. apply HB.
  symmetry. by eapply (loc_inj _ _ _ _ R).
Qed.

Lemma prefix_snoc_inv (ns ms : path) m : ns `prefix_of` ms ++ [m] -> ns `prefix_of` ms \/ ns = ms ++ [m].
Proof.
  intros [k Hk]. destruct k as [|y k _] using rev_ind.
  - right. by rewrite app_nil_r in Hk.
  - left. rewrite app_assoc in Hk. apply app_inj_tail in Hk as [-> _]. by apply prefix_app_r.
Qed.

(** Between [ns] and a finished object below it there is a finished child of
    [ns]. *)
Lemma ancestor_child s A D N ns ms md :
  rep s A D N -> calm A D N ns -> A !! ms = Some md -> closed md = true -> strictly_below ns ms ->
  exists n nd, A !! (ns ++ [n]) = Some nd /\ closed nd = true /\ ns ++ [n] `prefix_of` ms /\ (dir nd = true \/ ms = ns ++ [n]).
Proof.
  intros R HC. revert md. induction ms as [|m ms IH] using rev_ind; intros md E Hc HB.
  { destruct HB as [[k Hk] Hne]. destruct ns; done. }
  destruct (decide (ms = ns)) as [->|Hne].
  - exists m, md. split_and!; try done. by right.
  - destruct (r_parent _ _ _ _ R ms m md E Hc) as (p & Ep & Hp); [by apply (HC _ md E)|].
    destruct (node_obj _ _ _ _ R ms p Ep) as (o & _ & OO).
    assert (HB' : strictly_below ns ms).
    { split; [|done]. destruct HB as [Hpre HNE]. apply prefix_snoc_inv in Hpre as [?| ->]; [done|].
      by destruct HNE. }
    destruct (IH p Ep (or_closed _ _ _ _ _ OO Hp) HB') as (n & nd & En & Hn & Hpre & Hd).
    exists n, nd. split_and!; try done; [by apply prefix_app_r|left].
    destruct Hd as [Hd| ->]; [done|]. by simplify_eq.
Qed.

Lemma prune_id s A D N ns : rep s A D N -> calm A D N ns ->
  (forall n nd, A !! (ns ++ [n]) = Some nd -> closed nd = true -> False) -> prune A ns = A.
Proof.
  intros R HC Hno. apply map_eq. intros ms. apply option_eq. intros md. rewrite prune_lookup.
  split; [by intros [? _]|]. intros E. split; [done|]. intros [HB Hc].
  destruct (ancestor_child s A D N ns ms md R HC E Hc HB) as (n & nd & En & Hn & _). by apply (Hno n nd).
Qed.

Lemma prune_child A ns n nd : A !! (ns ++ [n]) = Some nd -> closed nd = true ->
  prune (delete (ns ++ [n]) (prune A (ns ++ [n]))) ns = prune A ns.
Proof.
  intros E Hc. apply map_eq. intros ms. apply option_eq. intros md.
  rewrite !prune_lookup, lookup_delete_Some, prune_lookup. split; [tauto|].
  intros [Em HB]. split_and!; try done.
  - intros <-. simplify_eq. apply HB. split; [apply below_snoc|done].
  - intros [HB' Hc']. apply HB. split; [|done]. by eapply below_trans; [apply below_snoc|].
Qed.

Lemma size_delete_S {B} (A : gmap path B) ns nd : A !! ns = Some nd -> size A = S (size (delete ns A)).
Proof.
  intros E. rewrite <- (insert_delete_id A ns nd) at 1 by done.
  by rewrite map_size_insert_None by apply lookup_delete_eq.
Qed.

Lemma del_blocks_ok b ids : NnBlocks.blk_ok b -> exists b', del_blocks b ids = Some b' /\ NnBlocks.blk_ok b'.
Proof.
  revert b. induction ids as [|i ids IH]; intros b O; cbn [del_blocks]; [eauto|].
  destruct (0 <? i); [|by apply IH].
  destruct (NnBlocks.block_object_del_ok b i O) as (b1 & -> & O1). cbn [mbind option_bind]. by apply IH.
Qed.

(** The claim about the recursive call. *)
Definition clears (clear : fstate -> Z -> option (Z * fstate)) (fuel : nat) : Prop :=
  forall s A D N ns nd,
    rep s A D N -> A !! ns = Some nd -> dir nd = true -> calm A D N ns ->
    (forall o xs, objs (g_fcm s) !! loc nd = Some o -> children o = Some xs ->
       children_num o = Z.of_nat (List.length xs)) ->
    loc nd ∈ N -> (size (desc A ns) < fuel)%nat ->
    exists k s', clear s (loc nd) = Some (k, s') /\ rep s' (prune A ns) D N /\
      k = Z.of_nat (size A) - Z.of_nat (size (prune A ns)) /\ g_fs_object_num s' = g_fs_object_num s.

Lemma desc_child A ns n nd : A !! (ns ++ [n]) = Some nd ->
  (size (desc A (ns ++ [n])) < size (desc A ns))%nat.
Proof.
  intros E. apply subset_size. split.
  - intros ms. unfold desc. rewrite !elem_of_filter. intros [HB ?]. split; [|done].
    by eapply below_trans; [apply below_snoc|].
  - intros HS. specialize (HS (ns ++ [n])). unfold desc in HS. rewrite !elem_of_filter in HS.
    destruct HS as [[_ HH] _]; [|done]. split; [apply below_snoc|]. by apply elem_of_dom_2 in E.
Qed.

Lemma desc_size s A D N ns : rep s A D N -> (size (desc A ns) <= size (dom (objs (g_fcm s))))%nat.
Proof.
  intros R. transitivity (size (dom A)); [apply subseteq_size; unfold desc; set_solver|].
  assert (ND : NoDup ((fun x => loc x.2) <$> map_to_list A)).
  { apply NoDup_fmap_2_strong; [|apply NoDup_map_to_list].
    intros [ms md] [ms' md'] E1%elem_of_map_to_list E2%elem_of_map_to_list El. cbn in El.
    assert (ms = ms') as <- by (by eapply (loc_inj _ _ _ _ R)). congruence. }
  rewrite size_dom, <- length_map_to_list, <- (length_fmap (fun x => loc x.2)), <- (size_list_to_set (C:=gset Z)) by done.
  apply subseteq_size. intros x ([ms md] & -> & E%elem_of_map_to_list)%elem_of_list_to_set%list_elem_of_fmap.
  destruct (node_obj _ _ _ _ R ms md E) as (o & Ho & _). apply elem_of_dom. eauto.
Qed.

Lemma clear_one_rep clear fuel s A D N ns n nd nd' :
  clears clear fuel -> rep s A D N -> A !! ns = Some nd -> loc nd ∈ N -> calm A D N ns ->
  A !! (ns ++ [n]) = Some nd' -> closed nd' = true -> (size (desc A ns) <= fuel)%nat ->
  exists k s', clear_one clear s (loc nd') = Some (k, s') /\
    let A3 := delete (ns ++ [n]) (prune A (ns ++ [n])) in
    rep s' A3 D N /\ k = Z.of_nat (size A) - Z.of_nat (size A3) /\ g_fs_object_num s' = g_fs_object_num s.
Proof.
  intros HCl R E HN HC E' Hc' Hf. set (x := loc nd').
  destruct (HC _ _ E' (below_snoc ns n)) as [HxD HxN]. fold x in HxD, HxN.
  destruct (node_obj _ _ _ _ R _ _ E') as (o & Ho & OO). fold x in Ho.
  pose proof (calm_child A D N ns n nd' s R E' HC) as HC'. fold x in HC'.
  pose proof (detach_rep s A D N ns n nd' nd R E' E) as R1. fold x in R1.
  replace ({[loc nd]} ∪ N) with N in R1 by set_solver.
  unfold clear_one. rewrite Ho. cbn [mbind option_bind]. rewrite (or_dir _ _ _ _ _ OO).
  set (s1 := remove_ckp (remove_me s x) x) in *.
  assert (HEND : forall s2, rep s2 (prune A (ns ++ [n])) ({[x]} ∪ D) ({[x]} ∪ N) ->
    g_fs_object_num s2 = g_fs_object_num s -> exists s3, fi_destroy s2 x = Some s3 /\
      rep s3 (delete (ns ++ [n]) (prune A (ns ++ [n]))) D N /\ g_fs_object_num s3 = g_fs_object_num s).
  { intros s2 R2 Hn2. destruct (destroy_rep s2 _ _ _ (ns ++ [n]) nd' R2) as (s3 & Es3 & R3 & Hn3 & _).
    - apply prune_lookup. split; [done|]. by intros [[_ []] _].
    - done.
    - set_solver.
    - intros m md [_ Hm]%prune_lookup Hmc. destruct Hm. split; [apply below_snoc|done].
    - exists s3. split_and!; [done| |congruence]. fold x in R3.
      replace (({[x]} ∪ D) ∖ {[x]}) with D in R3 by set_solver.
      by replace (({[x]} ∪ N) ∖ {[x]}) with N in R3 by set_solver. }
  assert (HSZ : Z.of_nat (size (prune A (ns ++ [n]))) =
    Z.of_nat (size (delete (ns ++ [n]) (prune A (ns ++ [n])))) + 1).
  { rewrite (size_delete_S (prune A (ns ++ [n])) (ns ++ [n]) nd'); [lia|].
    apply prune_lookup. split; [done|]. by intros [[_ []] _]. }
  destruct (dir nd') eqn:Hd'.
  - destruct (HCl s1 A ({[x]} ∪ D) ({[x]} ∪ N) (ns ++ [n]) nd') as (k & s2 & Ek & R2 & Hk & Hn2); try done.
    + eapply weaken_rep; [|done]. set_solver.
    + intros o1 xs Ho1 Hxs. destruct (node_obj _ _ _ _ R1 _ _ E') as (o2 & Ho2 & O2).
      destruct (or_ring _ _ _ _ _ O2 Hd') as (xs' & Hxs' & _ & Hnum). simplify_eq. by apply Hnum.
    + fold x. set_solver.
    + pose proof (desc_child A ns n nd' E'). lia.
    + fold x in Ek. rewrite Ek. cbn [mbind option_bind].
      destruct (HEND s2 R2 Hn2) as (s3 & -> & R3 & Hn3). cbn [mbind option_bind].
      do 2 eexists. split; [reflexivity|]. split_and!; [done| |done]. lia.
  - destruct (del_blocks_ok (blk s1) (blks (fin o)) (r_blk _ _ _ _ R1)) as (b & -> & Ob). cbn [mbind option_bind].
    assert (EP : prune A (ns ++ [n]) = A).
    { apply (prune_id s1 A _ _ _ (weaken_rep _ _ _ N ({[x]} ∪ N) ltac:(set_solver) R1) HC').
      intros m md Em Hm. destruct (HC' _ _ Em (below_snoc _ _)) as [HmD _].
      destruct (r_parent _ _ _ _ R1 _ m md Em Hm HmD) as (p & Ep & Hp). congruence. }
    destruct (HEND (set_blk s1 b)) as (s3 & -> & R3 & Hn3).
    { rewrite EP. apply set_blk_rep; [done|]. eapply weaken_rep; [|done]. set_solver. }
    { done. }
    cbn [mbind option_bind]. do 2 eexists. split; [reflexivity|]. split_and!; [done| |done]. rewrite EP in *. lia.
Qed.

Lemma calm_sub A A' D N ns : (forall ms md, A' !! ms = Some md -> A !! ms = Some md) ->
  calm A D N ns -> calm A' D N ns.
Proof. intros HS HC ms md Em. by apply HC, HS. Qed.

Lemma desc_sub A A' ns : (forall ms md, A' !! ms = Some md -> A !! ms = Some md) ->
  (size (desc A' ns) <= size (desc A ns))%nat.
Proof.
  intros HS. apply subseteq_size. intros ms. unfold desc. rewrite !elem_of_filter, !elem_of_dom.
  intros [? [md Em]]. split; [done|]. eauto.
Qed.

Lemma clear_list_rep clear fuel ns nd ys : clears clear fuel ->
  forall s A D N, rep s A D N -> A !! ns = Some nd -> loc nd ∈ N -> calm A D N ns ->
  NoDup ys ->
  (forall x, x ∈ ys <-> exists n nd', A !! (ns ++ [n]) = Some nd' /\ loc nd' = x /\ closed nd' = true) ->
  (size (desc A ns) <= fuel)%nat ->
  exists k s', clear_list clear s ys = Some (k, s') /\ rep s' (prune A ns) D N /\
    k = Z.of_nat (size A) - Z.of_nat (size (prune A ns)) /\ g_fs_object_num s' = g_fs_object_num s.
Proof.
  intros HCl. induction ys as [|x ys IH]; intros s A D N R E HN HC ND HY Hf.
  - assert (EP : prune A ns = A).
    { apply (prune_id s A D N ns R HC). intros n md En Hn.
      destruct (not_elem_of_nil (loc md)). apply HY. eauto. }
    exists 0, s. rewrite EP. split_and!; try done. lia.
  - destruct (proj1 (HY x)) as (n & nd' & En & El & Hc); [set_solver|]. subst x.
    destruct (clear_one_rep clear fuel s A D N ns n nd nd' HCl R E HN HC En Hc Hf)
      as (k & s1 & E1 & R1 & Hk & Hn1).
    set (A3 := delete (ns ++ [n]) (prune A (ns ++ [n]))) in *.
    assert (HS : forall ms md, A3 !! ms = Some md -> A !! ms = Some md).
    { by intros ms md [_ [? _]%prune_lookup]%lookup_delete_Some. }
    apply NoDup_cons in ND as [Hx ND].
    destruct (IH s1 A3 D N R1) as (k2 & s2 & E2 & R2 & Hk2 & Hn2); try done.
    + apply lookup_delete_Some. split; [intros HH; symmetry in HH; by apply app_nil_end_ne in HH|].
      apply prune_lookup. split; [done|]. intros [[[z Hz] _] _]. rewrite <- app_assoc in Hz.
      apply (f_equal List.length) in Hz. rewrite length_app in Hz. simpl in Hz. lia.
    + by apply (calm_sub A).
    + intros y. split.
      * intros Hy. destruct (proj1 (HY y)) as (m & md & Em & El & Hm); [set_solver|]. exists m, md.
        split_and!; try done. apply lookup_delete_Some. split; [intros HH; rewrite <- HH in Em; simplify_eq; congruence|].
        apply prune_lookup. split; [done|]. intros [[HB1 HB2] _]. apply HB2.
        apply prefix_length_eq; [done|]. rewrite !length_app. simpl. lia.
      * intros (m & md & Em & El & Hm). assert (HyA : y ∈ loc nd' :: ys) by (apply HY; eauto 10).
        apply elem_of_cons in HyA as [Ey|]; [|done]. exfalso.
        apply lookup_delete_Some in Em as [Hne [Em _]%prune_lookup]. apply Hne.
        symmetry. eapply (loc_inj _ _ _ _ R); [done|done|congruence].
    + pose proof (desc_sub A A3 ns HS). lia.
    + cbn [clear_list]. rewrite E1. cbn [mbind option_bind]. rewrite E2. cbn [mbind option_bind].
      unfold A3 in R2, Hk2. rewrite (prune_child A ns n nd' En Hc) in R2, Hk2. fold A3 in Hk2.
      do 2 eexists. split; [reflexivity|]. split_and!; [done| |congruence]. lia.
Qed.

Lemma clear_children_rep fuel : clears (clear_children fuel) fuel.
Proof.
  induction fuel as [|fuel IH]; intros s A D N ns nd R E Hd HC Hnum HN Hf; [lia|].
  destruct (node_obj _ _ _ _ R ns nd E) as (o & Ho & OO).
  destruct (or_ring _ _ _ _ _ OO Hd) as (xs & Hxs & ND & _). specialize (Hnum o xs Ho Hxs).
  assert (HY : forall x, x ∈ xs <-> exists n nd', A !! (ns ++ [n]) = Some nd' /\ loc nd' = x /\ closed nd' = true).
  { intros x. rewrite (r_child _ _ _ _ R ns nd o xs x E Ho Hxs). split; [naive_solver|].
    intros (n & nd' & En & El & Hc). exists n, nd'. split_and!; try done. rewrite <- El.
    by apply (HC _ _ En), below_snoc. }
  cbn [clear_children]. rewrite Ho. cbn [mbind option_bind]. rewrite Hnum, Hxs. cbn [mbind option_bind].
  destruct (clear_list_rep (clear_children fuel) fuel ns nd xs IH s A D N R E HN HC ND HY) as (k & s' & EL & R' & Hk & Hn'); [lia|].
  destruct (Z.eqb_spec (Z.of_nat (List.length xs)) 0) as [Hz|_].
  - assert (xs = []) as -> by (by destruct xs). cbn in EL. injection EL as <- <-. eauto 10.
  - rewrite (proj2 (Z.ltb_ge _ _)) by lia. rewrite Nat2Z.id, take_ge by lia. eauto 10.
Qed.

(** *** The parent's count *)

Lemma dec_rep s A D N ns p o xs :
  rep s A D ({[loc p]} ∪ N) -> A !! ns = Some p -> dir p = true ->
  objs (g_fcm s) !! loc p = Some o -> children o = Some xs ->
  children_num o = Z.of_nat (S (List.length xs)) -> Z.of_nat (S (List.length xs)) < 2 ^ 64 ->
  exists s', dec_children s (loc p) = Some s' /\ rep s' A D N /\ g_fs_object_num s' = g_fs_object_num s /\ blk s' = blk s.
Proof.
  intros R E Hd Ho Hxs Hnum HB. unfold dec_children. rewrite Ho. cbn [mbind option_bind].
  eexists. split; [reflexivity|]. split_and!; [|done|done].
  apply (upd_rep s A D D ({[loc p]} ∪ N) N (g_checkpoint_q s) (fi_timers s) (loc p)); try done; try apply R.
  - intros ms md b Em Hb El []. split; try done. intros HH. destruct (or_ring0 HH) as (ys & ? & ? & Hn).
    exists ys. split_and!; try done. intros ?. apply Hn. set_solver.
  - intros ms md b Em Hb El []. split; try done. intros HH. destruct (or_ring0 HH) as (ys & Hys & ND & _).
    exists ys. split_and!; try done. intros _. cbn [children_num set_children]. simplify_eq.
    rewrite Hnum. unfold u64. rewrite uwrap_small; [lia|]. unfold in_u. lia.
  - intros ms md b ys y Em Hb Hys. apply (r_child _ _ _ _ R ms md b ys y Em Hb).
    by destruct (decide (loc p = loc md)).
Qed.

(** Taking out, freeing and counting an object without finished children. *)
Lemma remove_rep s A N ns n nd p :
  rep s A ∅ N -> A !! (ns ++ [n]) = Some nd -> closed nd = true -> A !! ns = Some p -> dir p = true ->
  N ⊆ {[loc nd]} -> (forall m md, A !! ((ns ++ [n]) ++ [m]) = Some md -> closed md = true -> False) ->
  exists s1 s', fi_destroy (remove_ckp (remove_me s (loc nd)) (loc nd)) (loc nd) = Some s1 /\
    dec_children s1 (loc p) = Some s' /\ rep s' (delete (ns ++ [n]) A) ∅ ∅ /\
    g_fs_object_num s' = g_fs_object_num s /\ blk s' = blk s.
Proof.
  intros R E Hc Ep Hp HN Hno. set (x := loc nd).
  assert (Hxp : loc p <> x).
  { intros Hl. apply (app_nil_end_ne ns n). by eapply (loc_inj _ _ _ _ R). }
  destruct (node_obj _ _ _ _ R ns p Ep) as (o & Ho & OO).
  destruct (or_ring _ _ _ _ _ OO Hp) as (xs & Hxs & ND & Hnum).
  assert (Hx : x ∈ xs) by (apply (r_child _ _ _ _ R ns p o xs x Ep Ho Hxs); exists n, nd; set_solver).
  pose proof (detach_rep s A ∅ N ns n nd p R E Ep) as R1. fold x in R1.
  set (s1 := remove_ckp (remove_me s x) x) in *.
  assert (Ho1 : objs (g_fcm s1) !! loc p = Some (set_children o (Some (remove_z x xs)) (children_num o))).
  { subst s1. cbn [g_fcm remove_ckp remove_me set_ckp set_fcm objs]. rewrite lookup_fmap, Ho. cbn [fmap option_fmap option_map]. by rewrite Hxs. }
  destruct (destroy_rep s1 A _ _ (ns ++ [n]) nd R1 E Hc) as (s2 & E2 & R2 & Hn2 & Hb2 & Hfr);
    [fold x; set_solver|by intros m md Em Hm; destruct (Hno m md Em Hm)|]. fold x in E2, R2, Hfr.
  replace (({[x]} ∪ ∅) ∖ {[x]}) with (∅ : gset Z) in R2 by set_solver.
  replace (({[loc p]} ∪ N) ∖ {[x]}) with ({[loc p]} ∪ ∅ : gset Z) in R2 by set_solver.
  rewrite <- (Hfr (loc p) Hxp) in Ho1. pose proof (filter_ne_length x xs ND Hx) as HL. fold (remove_z x xs) in HL.
  set (o1 := set_children o (Some (remove_z x xs)) (children_num o)) in *.
  destruct (dec_rep s2 (delete (ns ++ [n]) A) ∅ ∅ ns p o1 (remove_z x xs) R2) as (s3 & E3 & R3 & Hn3 & Hb3); try done.
  - rewrite lookup_delete_ne; [done|]. intros HH. symmetry in HH. by apply app_nil_end_ne in HH.
  - cbn [o1 children_num set_children]. rewrite Hnum, HL; [lia|]. set_solver.
  - rewrite Hfr in Ho1 by done. apply (ring_bound _ _ _ _ R1 ns p o1 (remove_z x xs) x Ep Ho1 eq_refl).
    + by apply nodup_filter_ne.
    + rewrite elem_remove_z. by intros [_ ?].
    + eauto.
  - exists s2, s3. split_and!; [done|done|done|by rewrite Hn3, Hn2|by rewrite Hb3, Hb2].
Qed.

(** Finishing a file: it is not in any ring yet. *)
Lemma close_rep s A ns nd (f : fi_store_t -> fi_store_t) :
  rep s A ∅ ∅ -> A !! ns = Some nd -> dir nd = false -> closed nd = false ->
  (forall o, key (fin (f o)) = key (fin o) /\ is_directory (fin (f o)) = is_directory (fin o) /\
     children (f o) = children o /\ state (f o) = KEY_STATE_OK /\ thread (f o) = false) ->
  rep (set_fi_timers (set_fcm s (upd (g_fcm s) (loc nd) f)) (remove_z (loc nd) (fi_timers s)))
    (<[ns := Node (loc nd) false true]> A) {[loc nd]} ∅.
Proof.
  intros R E Hd Hc Hf. set (x := loc nd). set (nd1 := Node x false true).
  assert (HX : forall ms md, A !! ms = Some md -> ms <> ns -> loc md <> x).
  { intros ms md Em Hne El. apply Hne. by eapply (loc_inj _ _ _ _ R). }
  assert (HI : forall ms md, <[ns := nd1]> A !! ms = Some md ->
    (ms = ns /\ md = nd1) \/ (ms <> ns /\ A !! ms = Some md /\ loc md <> x)).
  { intros ms md [[<- <-]|[Hne Em]]%lookup_insert_Some; [by left|right]. split_and!; try done. by apply (HX ms). }
  assert (HJ : forall ms md, A !! ms = Some md -> exists md', <[ns := nd1]> A !! ms = Some md' /\ loc md' = loc md).
  { intros ms md Em. destruct (decide (ms = ns)) as [->|Hne].
    - exists nd1. rewrite lookup_insert_eq. by simplify_eq.
    - exists md. by rewrite lookup_insert_ne. }
  assert (HK : forall ms y, (exists md, A !! ms = Some md /\ loc md = y /\ closed md = true /\ y ∉ (∅ : gset Z)) <->
    (exists md, <[ns := nd1]> A !! ms = Some md /\ loc md = y /\ closed md = true /\ y ∉ ({[x]} : gset Z))).
  { intros ms y. split; intros (md & Em & El & Hm & Hy).
    - assert (ms <> ns) by (intros ->; congruence). exists md. rewrite lookup_insert_ne by done.
      split_and!; try done. pose proof (HX ms md Em). set_solver.
    - destruct (HI ms md Em) as [[-> ->]|(? & ? & ?)]; [cbn in El; set_solver|]. exists md. set_solver. }
  destruct (node_obj _ _ _ _ R ns nd E) as (o & Ho & OO). pose proof (node_valid _ _ _ _ R ns nd E) as HV. fold x in Ho.
  destruct R. split; cbn [g_fcm g_checkpoint_q fi_timers blk set_fi_timers set_fcm]; try done.
  - apply upd_ok; [| |done]; intros a; cbn; by rewrite (proj1 (Hf a)).
  - cbn [objs upd free]. rewrite <- size_dom, dom_alter_L, size_dom. done.
  - intros ms md Em. destruct (HI ms md Em) as [[-> ->]|(Hne & Em' & Hl)].
    + split; [done|]. exists (f o). rewrite upd_lookup. cbn [loc nd1]. rewrite Ho, decide_True by done.
      split; [done|]. destruct (Hf o) as (H1 & H2 & H3 & H4 & H5), OO. split; cbn [dir closed loc nd1]; try done; try congruence.
      * rewrite H5. symmetry. apply bool_decide_eq_false. rewrite elem_remove_z. by intros [_ ?].
      * intros _. rewrite elem_remove_z. by intros [_ ?].
      * intros _. rewrite H3. auto.
    + destruct (r_node0 ms md Em') as (? & b & Hb & OB). split; [done|]. exists b.
      rewrite upd_lookup, Hb, decide_False by congruence. split; [done|].
      apply (obj_rep_frame _ (fi_timers s)); [|done]. rewrite elem_remove_z. tauto.
  - intros y. rewrite upd_lookup, fmap_is_Some. intros (ms & md & Em & <-)%r_surj0.
    destruct (HJ ms md Em) as (md' & ? & ?). eauto.
  - rewrite dom_insert_L. replace ({[ns]} ∪ dom A) with (dom A) by (apply elem_of_dom_2 in E; set_solver). done.
  - intros ms md b ys y Em Hb Hys. rewrite upd_lookup in Hb. apply fmap_Some in Hb as (b0 & Hb & ->).
    destruct (HI ms md Em) as [[-> ->]|(Hne & Em' & Hl)].
    + cbn [loc nd1] in Hb, Hys. rewrite decide_True in Hys by done. rewrite Ho in Hb. injection Hb as <-.
      destruct (Hf o) as (_ & _ & H3 & _). rewrite H3, (or_file _ _ _ _ _ OO Hd) in Hys. done.
    + rewrite decide_False in Hys by congruence. rewrite (r_child0 ms md b0 ys y Em' Hb Hys).
      split; intros (n & HH); exists n; by apply HK.
  - intros ms n md Em Hm HD. destruct (HI _ md Em) as [[_ ->]|(Hne & Em' & Hl)]; [cbn in HD; set_solver|].
    destruct (r_parent0 ms n md Em' Hm) as (p & Ep & Hp); [set_solver|]. exists p.
    rewrite lookup_insert_ne; [done|]. intros ->. congruence.
  - intros y. rewrite r_ckp0. split; intros (ms & HH); exists ms; by apply HK.
  - intros y [Hy _]%elem_remove_z. destruct (r_timers0 y Hy) as (ms & md & Em & <-).
    destruct (HJ ms md Em) as (md' & ? & ?). eauto.
Qed.

(** ** The operations *)

Lemma abs_lookup A ns e : abs A !! ns = Some e <->
  exists nd, A !! ns = Some nd /\ e = Entry (dir nd) (closed nd).
Proof. unfold abs. rewrite lookup_fmap, fmap_Some. done. Qed.

Lemma abs_None A ns : abs A !! ns = None <-> A !! ns = None.
Proof. unfold abs. by rewrite lookup_fmap, fmap_None. Qed.

Lemma abs_dom A : dom (abs A) = dom A.
Proof. unfold abs. by rewrite dom_fmap_L. Qed.

Lemma parent_dir_node A ns n : parent_dir (abs A) (ns ++ [n]) = true ->
  exists p, A !! ns = Some p /\ dir p = true.
Proof.
  unfold parent_dir. rewrite removelast_last. destruct (abs A !! ns) as [e|] eqn:E; [|done].
  apply abs_lookup in E as (p & Ep & ->). eauto.
Qed.

Lemma set_timers_id s : set_fi_timers s (fi_timers s) = s.
Proof. by destruct s. Qed.

(** The count the namenode keeps follows the tree. *)
Definition counted (s : fstate) (V : view) : Prop := g_fs_object_num s = u64 (Z.of_nat (size V)).

Lemma counted_insert s s' V ns e : V !! ns = None -> g_fs_object_num s' = u64 (g_fs_object_num s + 1) ->
  counted s V -> counted s' (<[ns := e]> V).
Proof.
  unfold counted. intros HV Hn HC. rewrite Hn, HC, map_size_insert_None by done. rewrite u64_add_l. f_equal. lia.
Qed.

Lemma mkdir_rep s A ns f x fr :
  rep s A ∅ ∅ -> valid_path ns -> fits ns -> A !! ns = None ->
  (ns = [] \/ parent_dir (abs A) ns = true) ->
  clash_free (size_ (g_fcm s)) ({[ns]} ∪ dom A) -> free (g_fcm s) = x :: fr ->
  key f = key_of ns -> is_directory f = true ->
  exists s', update_fi_mkdir s f = Some s' /\ rep s' (<[ns := Node x true true]> A) ∅ ∅ /\
    g_fs_object_num s' = u64 (g_fs_object_num s + 1) /\ free (g_fcm s') = fr /\
    size_ (g_fcm s') = size_ (g_fcm s) /\ blk s' = blk s.
Proof.
  intros R HV HF EA Hpar HC Hfr Hk Hd. unfold update_fi_mkdir.
  destruct (new_object_rep s A ∅ ∅ ns (Node x true true) (FiStore f (Some []) 0 0 false) x fr (fi_timers s) R)
    as (c & -> & Ef & Es & R1); try done.
  { assert (HT : x ∉ fi_timers s).
    { intros (ms & md & Em & El)%(r_timers _ _ _ _ R). destruct (node_obj _ _ _ _ R ms md Em) as (b & Hb & _).
      rewrite El, (ok_disj _ (r_cache _ _ _ _ R)) in Hb; [done|]. rewrite Hfr. set_solver. }
    split; cbn; try done.
    - by rewrite bool_decide_false.
    - intros _. exists []. split_and!; [done|apply NoDup_nil_2|done]. }
  { by right. }
  change (fi_timers s) with (fi_timers (set_fcm s c)) in R1. rewrite set_timers_id in R1.
  cbn [mbind option_bind closed] in *. rewrite Hk, store_path, is_root_path_spec by done.
  destruct ns as [|n ns _] using rev_ind.
  - rewrite bool_decide_true by done. cbn [mbind option_bind]. eexists. split; [reflexivity|].
    split_and!; try done. apply set_num_rep.
    assert (HX : forall ms md, <[[] := Node x true true]> A !! ms = Some md -> loc md = x -> ms = []).
    { intros ms md Em El. eapply (loc_inj _ _ _ _ R1); [done|apply lookup_insert_eq|done]. }
    assert (HQ : x ∉ g_checkpoint_q s) by (intros (? & ? & _ & _ & _ & HD)%(r_ckp _ _ _ _ R1); set_solver).
    destruct R1. split; cbn [g_fcm g_checkpoint_q fi_timers blk set_fcm push_ckp set_ckp]; try done.
    + intros ms md o xs y Em Ho Hxs. rewrite (r_child0 ms md o xs y Em Ho Hxs).
      split; intros (m & md' & Em' & El & Hc & _); exists m, md'; split_and!; try done.
      intros Hy. assert (y = x) as -> by set_solver. by apply (snoc_ne_nil ms m), (HX _ _ Em' El).
    + intros ms m md Em Hc _. apply (r_parent0 ms m md Em Hc). intros Hl. assert (El : loc md = x) by set_solver.
      by apply (snoc_ne_nil ms m), (HX _ _ Em El).
    + apply NoDup_app. split_and!; [done| |apply NoDup_singleton].
      intros y Hy Ey. apply list_elem_of_singleton in Ey as ->. done.
    + intros y. rewrite elem_of_app, list_elem_of_singleton, r_ckp0. split.
      * intros [(ms & md & ? & ? & ? & _)| ->]; [by exists ms, md|exists [], (Node x true true)]. by rewrite lookup_insert_eq.
      * intros (ms & md & ? & ? & ? & _). destruct (decide (y = x)) as [->|]; [by right|left]. exists ms, md. set_solver.
  - destruct Hpar as [HH|(p & Ep & Hp)%parent_dir_node]; [by apply snoc_ne_nil in HH|].
    rewrite bool_decide_false by apply snoc_ne_nil.
    assert (Ep1 : <[ns ++ [n] := Node x true true]> A !! ns = Some p).
    { rewrite lookup_insert_ne; [done|]. intros HH. symmetry in HH. by apply app_nil_end_ne in HH. }
    rewrite (find_parent_node _ _ _ _ R1 ns n p) by done. cbn [mbind option_bind].
    pose proof (touch_rep _ _ _ _ (loc p) (modification_time f) R1) as R2.
    destruct (attach_rep _ _ _ _ ns n (Node x true true) p R2) as (s2 & E2 & R3 & Hn3); try done.
    { by rewrite lookup_insert_eq. } { cbn. set_solver. }
    cbn [loc] in *. pose proof E2 as E2'. rewrite E2. cbn [mbind option_bind]. eexists. split; [reflexivity|].
    unfold insert_child in E2'. destruct (objs _ !! loc p) as [o|]; [|done]. cbn [mbind option_bind] in E2'.
    destruct (children o); [|done]. cbn [mbind option_bind] in E2'. injection E2' as <-.
    split_and!; try done. apply set_num_rep.
    by replace (({[x]} ∪ ∅) ∖ {[x]}) with (∅ : gset Z) in R3 by set_solver.
Qed.

End Namespace.
