(* ===== verification/NsRefine.v ===== *)
(** * The log entries implement the tree

    Every log entry that makes sense for the current tree (Namespace.v) is
    applied without undefined behaviour, and the index represents the tree the
    specification asks for. *)

From Stdlib Require Import ZArith Lia Bool String.
From stdpp Require Import base numbers gmap option list.
From S2P Require Import Prelude Libc CString Mem Hashtable Cache NnTypes NnBlocks NnPath FileIndex Namespace.

Module NsRefine.
Import NnTypes Cache NnPath FileIndex Namespace.

(** ** The operations *)

Lemma free_not_timer s A D N x fr : rep s A D N -> free (g_fcm s) = x :: fr -> x ∉ fi_timers s.
Proof.
  intros R Hfr (ms & md & Em & El)%(r_timers _ _ _ _ R). destruct (node_obj _ _ _ _ R ms md Em) as (b & Hb & _).
  rewrite El, (ok_disj _ (r_cache _ _ _ _ R)) in Hb; [done|]. rewrite Hfr. set_solver.
Qed.

Lemma create_rep s A ns f i th x fr :
  rep s A ∅ ∅ -> valid_path ns -> A !! ns = None ->
  clash_free (size_ (g_fcm s)) ({[ns]} ∪ dom A) -> free (g_fcm s) = x :: fr ->
  key f = key_of ns -> is_directory f = false ->
  exists s', update_fi_create s f i th = Some s' /\ rep s' (<[ns := Node x false false]> A) ∅ ∅ /\
    g_fs_object_num s' = u64 (g_fs_object_num s + 1).
Proof.
  intros R HV EA HC Hfr Hk Hd. pose proof (free_not_timer s A ∅ ∅ x fr R Hfr) as HT.
  set (ts' := if th then fi_timers s ++ [x] else fi_timers s). unfold update_fi_create.
  set (o := FiStore _ None 0 KEY_STATE_CREATING th).
  destruct (new_object_rep s A ∅ ∅ ns (Node x false false) o x fr ts' R)
    as (c & -> & Ef & Es & R1); try done.
  { split; cbn; try done. subst ts'. destruct th; symmetry.
    - apply bool_decide_eq_true. set_solver.
    - by apply bool_decide_eq_false. }
  { by left. }
  { intros y Hy. subst ts'. destruct th; [|done]. set_solver. }
  cbn [mbind option_bind]. eexists. split; [reflexivity|]. split; [|by destruct th].
  apply set_num_rep. subst ts'. cbn [closed] in R1. destruct th; [done|].
  change (fi_timers s) with (fi_timers (set_fcm s c)) in R1. by rewrite set_timers_id in R1.
Qed.

Lemma add_blk_rep s A ns nd f i :
  rep s A ∅ ∅ -> A !! ns = Some nd -> key f = key_of ns ->
  exists s', update_fi_get_additional_blk s f i = Some s' /\ rep s' A ∅ ∅ /\
    g_fs_object_num s' = g_fs_object_num s.
Proof.
  intros R E Hk. unfold update_fi_get_additional_blk. rewrite Hk, (lookup_node _ _ _ _ R ns nd E).
  cbn [mbind option_bind]. eexists. split; [reflexivity|]. split; [|done].
  by apply (upd_inode_rep s A ∅ ∅ (loc nd) (fun j => set_blks j (put_blk (blks j) i))).
Qed.

Lemma close_op_rep s A ns n nd p f :
  rep s A ∅ ∅ -> fits (ns ++ [n]) -> A !! (ns ++ [n]) = Some nd -> dir nd = false -> closed nd = false ->
  A !! ns = Some p -> dir p = true -> key f = key_of (ns ++ [n]) ->
  exists s', update_fi_close s f = Some s' /\ rep s' (<[ns ++ [n] := Node (loc nd) false true]> A) ∅ ∅ /\
    g_fs_object_num s' = g_fs_object_num s.
Proof.
  intros R HF E Hd Hc Ep Hp Hk. pose proof (node_valid _ _ _ _ R _ _ E) as HV.
  unfold update_fi_close. rewrite Hk, (lookup_node _ _ _ _ R _ nd E), store_path by done. cbn [mbind option_bind].
  destruct (node_obj _ _ _ _ R _ nd E) as (o & Ho & OO). rewrite Ho. cbn [mbind option_bind].
  set (x := loc nd) in *. set (g := fun o0 => FiStore (close_inode (fin o0) f) _ _ _ _).
  pose proof (close_rep s A _ nd g R E Hd Hc ltac:(done)) as R1. fold x in R1.
  set (s1 := set_fi_timers _ _) in R1.
  replace (set_fcm (if thread o then _ else s) (upd (g_fcm (if thread o then _ else s)) x g)) with s1.
  2: { rewrite (or_thread _ _ _ _ _ OO). fold x. unfold s1. case_bool_decide as HT; [done|].
       by rewrite remove_z_notin. }
  rewrite (find_parent_node _ _ _ _ R1 ns n p); [|done|done|].
  2: { rewrite lookup_insert_ne; [done|]. intros HH. symmetry in HH. by apply app_nil_end_ne in HH. }
  cbn [mbind option_bind]. pose proof (touch_rep _ _ _ _ (loc p) (modification_time f) R1) as R2.
  destruct (attach_rep _ _ _ _ ns n (Node x false true) p R2) as (s2 & E2 & R3 & Hn3); try done.
  { by rewrite lookup_insert_eq. } { cbn. set_solver. }
  { rewrite lookup_insert_ne; [done|]. intros HH. symmetry in HH. by apply app_nil_end_ne in HH. }
  cbn [loc] in *. rewrite E2. cbn [mbind option_bind]. eexists. split; [reflexivity|]. split.
  - by replace ({[x]} ∖ {[x]}) with (∅ : gset Z) in R3 by set_solver.
  - cbn. rewrite Hn3. done.
Qed.

Lemma rm_rep s A ns n nd f :
  rep s A ∅ ∅ -> fits (ns ++ [n]) -> A !! (ns ++ [n]) = Some nd -> dir nd = false -> closed nd = true ->
  key f = key_of (ns ++ [n]) ->
  exists s', update_fi_rm s f = Some s' /\ rep s' (delete (ns ++ [n]) A) ∅ ∅ /\
    g_fs_object_num s' = u64 (g_fs_object_num s - 1).
Proof.
  intros R HF E Hd Hc Hk. pose proof (node_valid _ _ _ _ R _ _ E) as HV.
  destruct (r_parent _ _ _ _ R ns n nd E Hc) as (p & Ep & Hp); [set_solver|].
  unfold update_fi_rm. rewrite Hk, store_path, (find_parent_node _ _ _ _ R ns n p) by done. cbn [mbind option_bind].
  pose proof (touch_rep _ _ _ _ (loc p) (modification_time f) R) as R1.
  rewrite (lookup_node _ _ _ _ R1 _ nd E). cbn [mbind option_bind].
  destruct (node_obj _ _ _ _ R1 _ nd E) as (o & -> & _). cbn [mbind option_bind].
  destruct (remove_rep _ A ∅ ns n nd p R1 E Hc Ep Hp) as (s1 & s2 & -> & E2 & R2 & Hn2 & Hb2); [set_solver| |].
  { intros m md Em Hm. destruct (r_parent _ _ _ _ R _ m md Em Hm) as (q & Eq & Hq); [set_solver|]. congruence. }
  cbn [mbind option_bind]. rewrite E2. cbn [mbind option_bind].
  destruct (del_blocks_ok (blk s2) (blks (fin o)) (r_blk _ _ _ _ R2)) as (b & -> & Ob). cbn [mbind option_bind].
  eexists. split; [reflexivity|]. split; [by apply set_blk_rep, set_num_rep|]. cbn. by rewrite Hn2.
Qed.

Lemma calm_empty A ns : calm A ∅ ∅ ns.
Proof. intros ms md _ _. set_solver. Qed.

Lemma rmr_rep s A ns n nd f :
  rep s A ∅ ∅ -> fits (ns ++ [n]) -> A !! (ns ++ [n]) = Some nd -> dir nd = true -> closed nd = true ->
  key f = key_of (ns ++ [n]) ->
  exists s', update_fi_rmr s f = Some s' /\ rep s' (delete (ns ++ [n]) (prune A (ns ++ [n]))) ∅ ∅ /\
    g_fs_object_num s' = u64 (g_fs_object_num s -
      (Z.of_nat (size A) - Z.of_nat (size (delete (ns ++ [n]) (prune A (ns ++ [n])))))).
Proof.
  intros R HF E Hd Hc Hk. pose proof (node_valid _ _ _ _ R _ _ E) as HV.
  destruct (r_parent _ _ _ _ R ns n nd E Hc) as (p & Ep & Hp); [set_solver|].
  unfold update_fi_rmr. rewrite Hk, store_path, (find_parent_node _ _ _ _ R ns n p) by done. cbn [mbind option_bind].
  pose proof (touch_rep _ _ _ _ (loc p) (modification_time f) R) as R1. set (s1 := touch s _ _) in *.
  rewrite (lookup_node _ _ _ _ R1 _ nd E). cbn [mbind option_bind].
  destruct (clear_children_rep (clear_fuel s1) s1 A ∅ {[loc nd]} (ns ++ [n]) nd) as (k & s2 & E2 & R2 & Hk2 & Hn2); try done.
  - eapply weaken_rep; [|done]. set_solver.
  - intros ms md Em HB. split; [set_solver|]. rewrite not_elem_of_singleton. intros El. destruct HB as [_ HB].
    apply HB. symmetry. by eapply (loc_inj _ _ _ _ R).
  - intros o xs Ho Hxs. destruct (node_obj _ _ _ _ R1 _ nd E) as (o' & Ho' & OO). simplify_eq.
    destruct (or_ring _ _ _ _ _ OO Hd) as (ys & Hys & _ & Hnum). simplify_eq. apply Hnum. set_solver.
  - set_solver.
  - unfold clear_fuel. apply Nat.lt_succ_r. rewrite <- (size_dom (objs (g_fcm s1))). by apply (desc_size s1 A ∅ ∅).
  - rewrite E2. cbn [mbind option_bind].
    assert (Hne : forall m, ~ strictly_below (ns ++ [n]) m -> prune A (ns ++ [n]) !! m = A !! m).
    { intros m Hm. apply option_eq. intros md. rewrite prune_lookup. tauto. }
    assert (E' : prune A (ns ++ [n]) !! (ns ++ [n]) = Some nd) by (rewrite Hne; [done|by intros [_ ?]]).
    destruct (remove_rep s2 _ {[loc nd]} ns n nd p R2 E' Hc) as (s3 & s4 & -> & E4 & R4 & Hn4 & _); [|done|done| |].
    { rewrite Hne; [done|]. intros [[k' Hk'] _]. rewrite <- app_assoc in Hk'.
      apply (f_equal List.length) in Hk'. rewrite length_app in Hk'. simpl in Hk'. lia. }
    { intros m md [_ Hm]%prune_lookup Hmc. apply Hm. split; [apply below_snoc|done]. }
    cbn [mbind option_bind]. rewrite E4. cbn [mbind option_bind]. eexists. split; [reflexivity|].
    split; [by apply set_num_rep|]. cbn. rewrite Hn4, Hn2, Hk2.
    rewrite (size_delete_S (prune A (ns ++ [n])) (ns ++ [n]) nd E'). cbn. f_equal. lia.
Qed.

(** ** Refinement *)

(** The log entry of an operation; names and owners fit their fields. *)
Inductive denotes : log_op -> ns_op -> Prop :=
  | d_mkdir ns perm ow gr t : fits_in 16 ow = true -> fits_in 16 gr = true ->
      denotes (LogMkdir (key_of ns) perm ow gr t) (Mkdir ns)
  | d_create ns perm ow gr t i sz rp : fits_in 16 ow = true -> fits_in 16 gr = true ->
      denotes (LogCreate (key_of ns) perm ow gr t i sz rp) (Create ns)
  | d_add ns i sz rp : denotes (LogGetAdditionalBlk (key_of ns) i sz rp) (AddBlk ns)
  | d_close ns t l rp : denotes (LogClose (key_of ns) t l rp) (Close ns)
  | d_rm ns t : denotes (LogRm (key_of ns) t) (Rm ns)
  | d_rmr ns t : denotes (LogRmr (key_of ns) t) (Rmr ns).

Definition op_path (op : ns_op) : path :=
  match op with Mkdir ns | Create ns | AddBlk ns | Close ns | Rm ns | Rmr ns => ns end.

(** The path is well formed and short enough, no key of the new tree is
    mistaken for another one, and there is an object left for a new entry. *)
Record room (s : fstate) (op : ns_op) (V' : view) : Prop := {
  room_valid : valid_path (op_path op);
  room_fits : fits (op_path op);
  room_clash : clash_free (size_ (g_fcm s)) (dom V');
  room_free : match op with Mkdir _ | Create _ => free (g_fcm s) <> [] | _ => True end
}.

Lemma fits_in_key ns : fits ns -> fits_in 256 (key_of ns) = true.
Proof. intros H%key_of_fits. unfold fits_in. by apply Nat.ltb_lt. Qed.

Lemma counted_same s s' V ns e e' : V !! ns = Some e -> g_fs_object_num s' = g_fs_object_num s ->
  counted s V -> counted s' (<[ns := e']> V).
Proof. unfold counted. intros HV -> ->. do 2 f_equal. by rewrite map_size_insert_Some by eauto. Qed.

Lemma counted_sub s s' V V' : (size V' <= size V)%nat ->
  g_fs_object_num s' = u64 (g_fs_object_num s - (Z.of_nat (size V) - Z.of_nat (size V'))) ->
  counted s V -> counted s' V'.
Proof. unfold counted. intros HL -> ->. unfold Z.sub at 1. rewrite u64_add_l. f_equal. lia. Qed.

Lemma abs_rmr A ns nd : A !! ns = Some nd -> closed nd = true ->
  abs (delete ns (prune A ns)) = filter (fun '(ms, e) => ~ (ns `prefix_of` ms /\ e_closed e = true)) (abs A).
Proof.
  intros E Hc. apply map_eq. intros ms. apply option_eq. intros e.
  rewrite map_lookup_filter_Some, !abs_lookup. split.
  - intros (md & [Hne [Em HB]%prune_lookup]%lookup_delete_Some & ->). split; [eauto|]. cbn.
    intros [Hp Hm]. apply HB. split; [|done]. by split.
  - intros [(md & Em & ->) HB]. exists md. split; [|done]. apply lookup_delete_Some. split.
    + intros <-. simplify_eq. by apply HB.
    + apply prune_lookup. split; [done|]. intros [[Hp _] Hm]. by apply HB.
Qed.

Lemma abs_size A : size (abs A) = size A.
Proof. unfold abs. apply map_size_fmap. Qed.

Lemma refine_step s V lop op V' id th :
  implements s V -> denotes lop op -> spec_step V op = Some V' -> room s op V' ->
  exists s', update_fi_cache_mgmt s id lop th = Some (DFS_OK, s') /\ implements s' V' /\
    (counted s V -> counted s' V').
Proof.
  intros (A & R & ->) HD HS [HV HF HC HR]. destruct HD; cbn [op_path] in *; cbn [spec_step] in HS;
    unfold update_fi_cache_mgmt; rewrite fits_in_key by done.
  - rewrite H, H0. cbn [andb]. case_bool_decide as EA; [|done]. cbn [andb] in HS.
    destruct (bool_decide (ns = []) || parent_dir (abs A) ns) eqn:EP; [|done]. injection HS as <-.
    rewrite dom_insert_L, abs_dom in HC. destruct (free (g_fcm s)) as [|x fr] eqn:Ef; [done|].
    edestruct (mkdir_rep s A ns) as (s' & -> & R' & Hn & _);
      [done|done|done|by apply abs_None| |done|done|reflexivity|done|].
    { apply orb_true_iff in EP as [?%bool_decide_eq_true|?]; auto. }
    cbn. exists s'. split; [done|]. split; [|by apply counted_insert].
    eexists. split; [done|]. unfold abs. by rewrite fmap_insert.
  - rewrite H, H0. cbn [andb]. case_bool_decide as EA; [|done]. injection HS as <-.
    rewrite dom_insert_L, abs_dom in HC. destruct (free (g_fcm s)) as [|x fr] eqn:Ef; [done|].
    edestruct (create_rep s A ns) as (s' & -> & R' & Hn);
      [done|done|by apply abs_None|done|done|reflexivity|done|].
    cbn. exists s'. split; [done|]. split; [|by apply counted_insert].
    eexists. split; [done|]. unfold abs. by rewrite fmap_insert.
  - destruct (abs A !! ns) as [[[] []]|] eqn:EA; try done. injection HS as <-.
    apply abs_lookup in EA as (nd & E & _).
    edestruct (add_blk_rep s A ns nd) as (s' & -> & R' & Hn); [done|done|reflexivity|].
    cbn. exists s'. split; [done|]. split; [by exists A|]. unfold counted. by rewrite Hn.
  - destruct (abs A !! ns) as [[[] []]|] eqn:EA; try done.
    destruct ns as [|n ns _] using rev_ind; [done|]. rewrite bool_decide_false in HS by apply snoc_ne_nil.
    destruct (parent_dir (abs A) (ns ++ [n])) eqn:EP; [|done]. injection HS as <-.
    pose proof EA as EA'. apply abs_lookup in EA as (nd & E & [= Hd Hc]). apply parent_dir_node in EP as (p & Ep & Hp).
    edestruct (close_op_rep s A ns n nd p) as (s' & -> & R' & Hn); [done..|reflexivity|].
    cbn. exists s'. split; [done|]. split; [|by eapply counted_same].
    eexists. split; [done|]. unfold abs. by rewrite fmap_insert.
  - destruct (abs A !! ns) as [[[] []]|] eqn:EA; try done.
    destruct ns as [|n ns _] using rev_ind; [done|]. rewrite bool_decide_false in HS by apply snoc_ne_nil.
    injection HS as <-. pose proof EA as EA'. apply abs_lookup in EA as (nd & E & [= Hd Hc]).
    edestruct (rm_rep s A ns n nd) as (s' & -> & R' & Hn); [done..|reflexivity|].
    cbn. exists s'. split; [done|]. split.
    + eexists. split; [done|]. unfold abs. by rewrite fmap_delete.
    + pose proof (size_delete_S _ _ _ EA'). apply counted_sub; [lia|]. rewrite Hn. f_equal. lia.
  - destruct (abs A !! ns) as [[[] []]|] eqn:EA; try done.
    destruct ns as [|n ns _] using rev_ind; [done|]. rewrite bool_decide_false in HS by apply snoc_ne_nil.
    injection HS as <-. apply abs_lookup in EA as (nd & E & [= Hd Hc]).
    edestruct (rmr_rep s A ns n nd) as (s' & -> & R' & Hn); [done..|reflexivity|].
    cbn. exists s'. split; [done|]. rewrite <- (abs_rmr A _ nd) by done. split; [eexists; by split|].
    apply counted_sub; rewrite !abs_size; [|done].
    apply map_subseteq_size. etrans; [apply delete_subseteq|apply map_filter_subseteq].
Qed.

(** An index with the pool [xs], a table of [n] buckets and the blocks [b]. *)
Definition init_fstate (xs : list Z) (n : nat) (b : NnBlocks.blocks) : fstate :=
  FState (empty_cache xs n) [] 0 [] b.

Lemma init_rep xs n b : (0 < n)%nat -> NoDup xs -> Z.of_nat (List.length xs) < 2 ^ 64 -> NnBlocks.blk_ok b ->
  rep (init_fstate xs n b) ∅ ∅ ∅.
Proof.
  intros Hn HX HL HB. split; cbn [g_fcm g_checkpoint_q fi_timers blk init_fstate objs free empty_cache]; try done.
  - by apply empty_ok.
  - intros x. rewrite lookup_empty. by intros [? ?].
  - apply NoDup_nil_2.
  - intros x. split; [by intros ?%elem_of_nil|]. intros (ns & nd & E & _). by rewrite lookup_empty in E.
  - by intros x ?%elem_of_nil.
Qed.

(** The states log entries lead to, with the tree they stand for. *)
Inductive history : fstate -> view -> Prop :=
  | h_init xs n b : (0 < n)%nat -> NoDup xs -> Z.of_nat (List.length xs) < 2 ^ 64 -> NnBlocks.blk_ok b ->
      history (init_fstate xs n b) ∅
  | h_step s V lop op V' id th s' : history s V -> denotes lop op -> spec_step V op = Some V' ->
      room s op V' -> update_fi_cache_mgmt s id lop th = Some (DFS_OK, s') -> history s' V'
  | h_blocks s V b : history s V -> NnBlocks.blk_ok b -> history (set_blk s b) V.

Lemma history_implements s V : history s V -> implements s V /\ counted s V.
Proof.
  induction 1 as [xs n b|s V lop op V' id th s' _ [IM IC] HD HS HR E|s V b _ [(A & R & ->) IC] HB].
  - split; [|done]. exists ∅. split; [by apply init_rep|]. unfold abs. by rewrite fmap_empty.
  - destruct (refine_step s V lop op V' id th IM HD HS HR) as (s'' & E' & IM' & IC'). simplify_eq. auto.
  - split; [|done]. exists A. split; [by apply set_blk_rep|done].
Qed.

(** C1. The namespace of the namenode is the tree its log describes: from the
    empty index on, in any order with changes of the block index, each log
    entry that makes sense for the current tree (mkdir under an existing
    directory, close or rm of a file in the right state, rmr of a directory,
    ...) is applied without undefined behaviour while there is a free object
    and no key is a prefix of another one of its bucket; afterwards the index
    (hash table, children rings, checkpoint queue, children counts) represents
    the tree after the operation, rmr removing all finished objects below the
    directory, with the object count the number of its entries.  Paths have at most
    189 bytes and the names of owner and group less than 16, and the changes
    of the block index keep its invariant ([blk_ok]): a datanode that timed out with
    blocks, after which removing a file of its blocks is undefined, is not one of
    them. *)
Theorem namespace_refines s V lop op V' id th :
  history s V -> denotes lop op -> spec_step V op = Some V' -> room s op V' ->
  exists s', update_fi_cache_mgmt s id lop th = Some (DFS_OK, s') /\ implements s' V' /\ counted s' V'.
Proof.
  intros H HD HS HR. destruct (history_implements s V H) as [IM IC].
  destruct (refine_step s V lop op V' id th IM HD HS HR) as (s' & E & IM' & IC'). eauto.
Qed.

(** *** A sample history *)

Definition apply_log (s : fstate) (lop : log_op) : fstate :=
  match update_fi_cache_mgmt s 1 lop false with Some (_, s') => s' | None => s end.

Definition root_user : list Z := lit "root".
Definition p_a : path := [lit "a"].
Definition p_af : path := [lit "a"; lit "f"].

Definition s0 : fstate := init_fstate [100; 200; 300; 400] 7 NnBlocks.sample_blocks.
Definition s1 : fstate := apply_log s0 (LogMkdir (key_of []) 755 root_user root_user 5).
Definition s2 : fstate := apply_log s1 (LogMkdir (key_of p_a) 755 root_user root_user 6).
Definition s3 : fstate := apply_log s2 (LogCreate (key_of p_af) 644 root_user root_user 7 11 64 1).
Definition s4 : fstate := apply_log s3 (LogClose (key_of p_af) 8 64 1).

Definition V1 : view := <[[] := Entry true true]> ∅.
Definition V2 : view := <[p_a := Entry true true]> V1.
Definition V3 : view := <[p_af := Entry false false]> V2.
Definition V4 : view := <[p_af := Entry false true]> V3.

(** [clash_free] is decidable. *)
Lemma clash_free_dec (sz : Z) (U : gset path) :
  set_Forall (fun p : path => set_Forall (fun q : path => key_hash sz p = key_hash sz q ->
    key_of p `prefix_of` key_of q -> p = q) U) U -> clash_free sz U.
Proof. intros H p q Hp Hq. by apply (H p Hp q Hq). Qed.

Lemma apply_log_eq s lop : fst <$> update_fi_cache_mgmt s 1 lop false = Some DFS_OK ->
  update_fi_cache_mgmt s 1 lop false = Some (DFS_OK, apply_log s lop).
Proof. unfold apply_log. destruct (update_fi_cache_mgmt s 1 lop false) as [[r s']|]; cbn; [|done]. congruence. Qed.

Ltac room_tac := split; [by_decide|vm_compute; lia|apply clash_free_dec; by_decide|first [exact I|by_decide]].

Lemma sample_history2 : history s2 V2.
Proof.
  apply (h_step s1 V1 (LogMkdir (key_of p_a) 755 root_user root_user 6) (Mkdir p_a) V2 1 false s2);
    [|by constructor|vm_compute; reflexivity|room_tac|apply apply_log_eq; vm_compute; reflexivity].
  apply (h_step s0 ∅ (LogMkdir (key_of []) 755 root_user root_user 5) (Mkdir []) V1 1 false s1);
    [|by constructor|vm_compute; reflexivity|room_tac|apply apply_log_eq; vm_compute; reflexivity].
  apply h_init; [lia|by_decide|vm_compute; reflexivity|apply NnBlocks.reachable_ok, NnBlocks.sample_reachable].
Qed.

Lemma sample_history3 : history s3 V3.
Proof.
  apply (h_step s2 V2 (LogCreate (key_of p_af) 644 root_user root_user 7 11 64 1) (Create p_af) V3 1 false s3);
    [apply sample_history2|by constructor|vm_compute; reflexivity|room_tac|apply apply_log_eq; vm_compute; reflexivity].
Qed.

Lemma sample_history4 : history s4 V4.
Proof.
  apply (h_step s3 V3 (LogClose (key_of p_af) 8 64 1) (Close p_af) V4 1 false s4);
    [apply sample_history3|by constructor|vm_compute; reflexivity|room_tac|apply apply_log_eq; vm_compute; reflexivity].
Qed.

Lemma namespace_refines_witness :
  exists s', update_fi_cache_mgmt s3 1 (LogClose (key_of p_af) 8 64 1) false = Some (DFS_OK, s') /\
    implements s' V4 /\ counted s' V4.
Proof.
  apply (namespace_refines s3 V3 (LogClose (key_of p_af) 8 64 1) (Close p_af) V4 1 false);
    [apply sample_history3|constructor|vm_compute; reflexivity|room_tac].
Defined.

(** ** Lookup *)

(** C5. A path is found exactly if the tree has it, with the kind and state
    the tree gives it, as long as no key of its bucket starts with its key. *)
Theorem namespace_lookup s V ns :
  history s V -> valid_path ns -> clash_free (size_ (g_fcm s)) ({[ns]} ∪ dom V) ->
  match V !! ns with
  | None => get_store_obj s (key_of ns) = None
  | Some e => exists x o, get_store_obj s (key_of ns) = Some x /\ objs (g_fcm s) !! x = Some o /\
      key (fin o) = key_of ns /\ is_directory (fin o) = e_dir e /\
      state o = if e_closed e then KEY_STATE_OK else KEY_STATE_CREATING
  end.
Proof.
  intros [(A & R & ->) _]%history_implements HV HC. rewrite abs_dom in HC.
  destruct (abs A !! ns) as [e|] eqn:E.
  - apply abs_lookup in E as (nd & E & ->). destruct (node_obj _ _ _ _ R ns nd E) as (o & Ho & []).
    exists (loc nd), o. split_and!; try done. by apply (lookup_node _ _ _ _ R).
  - apply abs_None in E. by apply (lookup_fresh _ _ _ _ R).
Qed.

Lemma namespace_lookup_witness :
  get_store_obj s3 (key_of [lit "b"]) = None.
Proof.
  apply (namespace_lookup s3 V3 [lit "b"]); [apply sample_history3|by_decide|apply clash_free_dec; by_decide].
Defined.

(** ** Unfinished files *)

Lemma remove_me_lookup s x y : objs (g_fcm (remove_me s x)) !! y =
  (fun o => set_children o (remove_z x <$> children o) (children_num o)) <$> objs (g_fcm s) !! y.
Proof. unfold remove_me. cbn [g_fcm set_fcm objs]. by rewrite lookup_fmap. Qed.

(** Removing a file that is still being created, which the handler does
    not refuse, takes one off the children count of its directory although the
    file was never counted there: the count no longer matches the children,
    and wraps around to 2^64 - 1 in an empty directory. *)
Theorem rm_unfinished_miscounts s V ns n t :
  history s V -> V !! (ns ++ [n]) = Some (Entry false false) -> V !! ns = Some (Entry true true) ->
  fits (ns ++ [n]) ->
  exists s' p o xs, update_fi_rm s (Inode (key_of (ns ++ [n])) 0 0 [] [] t 0 false 0 0 0 []) = Some s' /\
    get_store_obj s (key_of ns) = Some p /\ objs (g_fcm s') !! p = Some o /\ children o = Some xs /\
    children_num o = u64 (Z.of_nat (List.length xs) - 1).
Proof.
  intros [(A & R & ->) _]%history_implements Ef Ep HF.
  apply abs_lookup in Ef as (nd & E & [= Hd Hc]). apply abs_lookup in Ep as (p & Ep & [= Hp _]).
  pose proof (node_valid _ _ _ _ R _ _ E) as HV.
  unfold update_fi_rm. cbn [key modification_time].
  rewrite store_path, (find_parent_node _ _ _ _ R ns n p) by done. cbn [mbind option_bind].
  pose proof (touch_rep _ _ _ _ (loc p) t R) as R1. set (s1 := touch s _ _) in *.
  rewrite (lookup_node _ _ _ _ R1 _ nd E). cbn [mbind option_bind].
  destruct (node_obj _ _ _ _ R1 _ nd E) as (o & Ho & OO). rewrite Ho. cbn [mbind option_bind].
  destruct (node_obj _ _ _ _ R1 _ p Ep) as (q & Hq & OQ).
  destruct (or_ring _ _ _ _ _ OQ) as (xs & Hxs & ND & Hnum); [congruence|].
  assert (Hx : loc nd ∉ xs).
  { intros (m & md & Em & El & Hm & _)%(r_child _ _ _ _ R1 ns p q xs _ Ep Hq Hxs).
    assert (ns ++ [m] = ns ++ [n]) as [_ ->]%app_inj_tail by (by eapply (loc_inj _ _ _ _ R)). congruence. }
  assert (Hne : loc p <> loc nd).
  { intros Hl. apply (app_nil_end_ne ns n). by eapply (loc_inj _ _ _ _ R). }
  set (x := loc nd) in *. unfold fi_destroy. cbn [g_fcm remove_ckp set_ckp]. rewrite remove_me_lookup, Ho.
  cbn [fmap option_fmap option_map mbind option_bind children set_children].
  rewrite (or_file _ _ _ _ _ OO) by congruence. cbn [fmap option_fmap option_map].
  destruct (del_ok (g_fcm (remove_me s1 x)) x (set_children o (remove_z x <$> children o) (children_num o)))
    as (c & -> & _ & Eo & _).
  { by apply fmap_ok, (r_cache _ _ _ _ R1). } { by rewrite remove_me_lookup, Ho. }
  cbn [mbind option_bind]. unfold dec_children. cbn [g_fcm set_fcm].
  assert (Hq1 : objs c !! loc p = Some (set_children q (Some xs) (children_num q))).
  { rewrite Eo, lookup_delete_ne, remove_me_lookup, Hq by done.
    cbn [fmap option_fmap option_map]. rewrite Hxs. cbn [fmap option_fmap option_map]. by rewrite remove_z_notin. }
  rewrite Hq1. cbn [mbind option_bind].
  edestruct del_blocks_ok as (b & -> & _); [apply (r_blk _ _ _ _ R1)|]. cbn [mbind option_bind].
  do 4 eexists. split; [reflexivity|]. split; [by apply (lookup_node _ _ _ _ R)|].
  cbn [g_fcm set_blk sub_FsObjectNum set_num set_fcm]. rewrite upd_lookup, Hq1, decide_True by done.
  split; [reflexivity|]. cbn [children children_num set_children]. split; [reflexivity|].
  rewrite Hnum; [done|set_solver].
Qed.

Lemma rm_unfinished_miscounts_witness :
  exists s' p o xs, update_fi_rm s3 (Inode (key_of p_af) 0 0 [] [] 9 0 false 0 0 0 []) = Some s' /\
    get_store_obj s3 (key_of p_a) = Some p /\ objs (g_fcm s') !! p = Some o /\ children o = Some xs /\
    children_num o = u64 (Z.of_nat (List.length xs) - 1).
Proof.
  apply (rm_unfinished_miscounts s3 V3 p_a (lit "f") 9);
    [apply sample_history3|vm_compute; reflexivity|vm_compute; reflexivity|vm_compute; lia].
Defined.

(** Closing a file whose directory is gone (removed while the file was
    being written, or never there: creating a file does not need its
    directory) dereferences a null pointer. *)
Theorem close_orphan_undefined s V ns n t len rep_ id th :
  history s V -> V !! (ns ++ [n]) = Some (Entry false false) -> V !! ns = None -> valid_path (ns ++ [n]) ->
  fits (ns ++ [n]) -> clash_free (size_ (g_fcm s)) ({[ns]} ∪ dom V) ->
  update_fi_cache_mgmt s id (LogClose (key_of (ns ++ [n])) t len rep_) th = None.
Proof.
  intros [(A & R & ->) _]%history_implements Ef Ep HV HF HC. apply abs_None in Ep. rewrite abs_dom in HC.
  apply abs_lookup in Ef as (nd & E & [= Hd Hc]).
  unfold update_fi_cache_mgmt. rewrite fits_in_key by done. unfold update_fi_close.
  cbn [key]. rewrite (lookup_node _ _ _ _ R _ nd E), store_path by done. cbn [mbind option_bind].
  destruct (node_obj _ _ _ _ R _ nd E) as (o & Ho & OO). rewrite Ho. cbn [mbind option_bind].
  set (x := loc nd) in *. set (g := fun o0 => FiStore (close_inode (fin o0) _) _ _ _ _).
  pose proof (close_rep s A _ nd g R E ltac:(done) ltac:(done) ltac:(done)) as R1. fold x in R1.
  set (s1' := set_fi_timers _ _) in R1.
  replace (set_fcm (if thread o then _ else s) (upd (g_fcm (if thread o then _ else s)) x g)) with s1'.
  2: { rewrite (or_thread _ _ _ _ _ OO). fold x. unfold s1'. case_bool_decide as HT; [done|].
       by rewrite remove_z_notin. }
  assert (HN : get_store_obj s1' (key_of ns) = None).
  { apply Forall_app in HV as [HVn _]. apply (lookup_fresh _ _ _ _ R1); [done| |].
    - rewrite lookup_insert_ne; [done|]. intros HH. symmetry in HH. by apply app_nil_end_ne in HH.
    - rewrite dom_insert_L. replace ({[ns]} ∪ ({[ns ++ [n]]} ∪ dom A)) with ({[ns]} ∪ dom A); [done|].
      apply elem_of_dom_2 in E. set_solver. }
  unfold find_parent. rewrite parent_key by done. cbn [mbind option_bind]. by rewrite HN.
Qed.

Definition s_orphan : fstate := apply_log s3 (LogRmr (key_of p_a) 9).
Definition V_orphan : view := <[p_af := Entry false false]> V1.

Lemma sample_orphan : history s_orphan V_orphan.
Proof.
  apply (h_step s3 V3 (LogRmr (key_of p_a) 9) (Rmr p_a) V_orphan 1 false s_orphan);
    [apply sample_history3|by constructor|vm_compute; reflexivity|room_tac|apply apply_log_eq; vm_compute; reflexivity].
Qed.

Lemma close_orphan_undefined_witness :
  update_fi_cache_mgmt s_orphan 1 (LogClose (key_of p_af) 10 64 1) false = None.
Proof.
  apply (close_orphan_undefined s_orphan V_orphan p_a (lit "f") 10 64 1 1 false);
    [apply sample_orphan|vm_compute; reflexivity|vm_compute; reflexivity|by_decide|vm_compute; lia|apply clash_free_dec; by_decide].
Defined.

(** When the creation of a file times out the file disappears from the
    tree, and everything else stays as it was; but the number of objects is
    not taken back: every expired file lowers for good the number of objects
    the namenode accepts. *)
Theorem create_timeout_leaks_count s V ns x :
  history s V -> V !! ns = Some (Entry false false) -> get_store_obj s (key_of ns) = Some x -> x ∈ fi_timers s ->
  exists s', fi_create_timeout s x = Some s' /\ implements s' (delete ns V) /\
    g_fs_object_num s' = u64 (Z.of_nat (size (delete ns V)) + 1).
Proof.
  intros [(A & R & ->) HC]%history_implements Ef G Hx.
  pose proof (size_delete_S _ _ _ Ef) as HSZ. apply abs_lookup in Ef as (nd & E & [= Hd Hc]).
  rewrite (lookup_node _ _ _ _ R ns nd E) in G. injection G as <-.
  destruct (free_rep s A ∅ ∅ ns nd R E) as (c & Ec & R' & _); [congruence| |].
  { intros n nd' En Hn. destruct (r_parent _ _ _ _ R ns n nd' En Hn) as (p & Ep & Hp); [set_solver|]. congruence. }
  unfold fi_create_timeout. rewrite bool_decide_true, Ec by done. cbn [mbind option_bind].
  eexists. split; [reflexivity|]. split.
  - exists (delete ns A). split; [|unfold abs; by rewrite fmap_delete].
    by replace (∅ ∖ {[loc nd]}) with (∅ : gset Z) in R' by set_solver.
  - cbn. rewrite HC, HSZ. f_equal. lia.
Qed.

Definition s3t : fstate :=
  match update_fi_cache_mgmt s2 1 (LogCreate (key_of p_af) 644 root_user root_user 7 11 64 1) true with
  | Some (_, s) => s | None => s2 end.

Lemma sample_history3t : history s3t V3.
Proof.
  apply (h_step s2 V2 (LogCreate (key_of p_af) 644 root_user root_user 7 11 64 1) (Create p_af) V3 1 true s3t);
    [apply sample_history2|by constructor|vm_compute; reflexivity|room_tac|vm_compute; reflexivity].
Qed.

Lemma create_timeout_leaks_count_witness :
  exists s', fi_create_timeout s3t 300 = Some s' /\ implements s' (delete p_af V3) /\
    g_fs_object_num s' = u64 (Z.of_nat (size (delete p_af V3)) + 1).
Proof.
  apply (create_timeout_leaks_count s3t V3 p_af 300);
    [apply sample_history3t|vm_compute; reflexivity|vm_compute; reflexivity|by_decide].
Defined.

End NsRefine.
