(* ===== verification/NnPaxos.v ===== *)
(** * Request handlers of the namenode

    src/namenode/nn_paxos.c (the handlers of the replicated operations),
    nn_file_index.c 471-696 (ls and open), src/paxos/FSEditlog.cpp and
    EditlogSM.cpp.  The phxpaxos library is a parameter: whether this node is
    master of a group, who is, and whether a proposal is chosen (with its
    instance number); phxpaxos runs the state machine ([Execute]) for a chosen
    value before [Propose] returns.  [write_back] is the answer the handler
    ends with. *)

From Stdlib Require Import ZArith Lia Bool String.
From stdpp Require Import base numbers gmap option list.
From S2P Require Import Prelude Libc CString Mem Hashtable Cache NnTypes Permission NnBlocks NnPath FileIndex.
From S2P Require Import Namespace NsRefine.

Module NnPaxos.
Import NnTypes Cache NnPath FileIndex.

(** ** Data *)

(** What a handler reads of a task. *)
Record request := Request {
  r_cmd : Z; r_key : list Z; r_user : list Z; r_group : list Z; r_permission : Z; r_ret : Z;
  r_blk_sz : Z; r_blk_rep : Z; r_len : Z
}.

(** What it answers with: the return value, and the data it puts in; with
    [NoData] the data of the request, which clients send none of, is left in the
    task. *)
Inductive payload :=
  | NoData
  | Master (nodeid : Z)
  | BlkResp (blk_id : Z) (dn : list Z)
  | OpenResp (blk_id blk_sz : Z) (dn : list Z)
  | Inodes (inodes : list fi_inode_t).

Record answer := Answer { ret : Z; data : payload }.

Record nnstate := NN { fs : fstate; g_edit_op_num : Z; checkpoints_started : Z }.

Section handlers.

(** phxpaxos. *)
Context (paxos_is_master : Z -> bool) (paxos_master : Z -> Z) (paxos_propose : Z -> log_op -> option Z).

(** The configuration and the environment: [dfs_cycle->admin], the limits, the
    clock and whether the local thread is known. *)
Context (m_iGroupCount : Z) (admin : list Z) (index_num checkpoint_num : Z) (dfs_current_msec : Z)
  (local_thread : bool).

(** The bytes on the stack where the array [finodes] is: a null pointer is 0. *)
Context (stack : nat -> Z).

(** ** FSEditlog.cpp, EditlogSM.cpp *)

Definition GetGroupIdx (sKey : list Z) : Z :=
  foldl (fun h c => u32 (h * 7 + (if c <? 128 then c else c - 256))) 0 sKey mod m_iGroupCount.

Definition IsIMMaster (sKey : list Z) : bool := paxos_is_master (GetGroupIdx sKey).
Definition GetMaster (sKey : list Z) : Z := paxos_master (GetGroupIdx sKey).

Definition Execute (s : fstate) (llInstanceID : Z) (v : log_op) (ctx_data : bool) : option fstate :=
  snd <$> update_fi_cache_mgmt s llInstanceID v ctx_data.

(** The handlers ignore the result. *)
Definition Propose (s : nnstate) (sKey : list Z) (v : log_op) (ctx_data : bool) : option nnstate :=
  match paxos_propose (GetGroupIdx sKey) v with
  | Some id => f ← Execute (fs s) id v ctx_data; Some (NN f (g_edit_op_num s) (checkpoints_started s))
  | None => Some s
  end.

(** ** nn_paxos.c *)

(** A checkpoint runs in a thread of its own. *)
Definition inc_edit_op_num (s : nnstate) : nnstate :=
  let n := u32 (g_edit_op_num s + 1) in
  if n =? checkpoint_num then NN (fs s) 0 (checkpoints_started s + 1)
  else NN (fs s) n (checkpoints_started s).

Definition answer_with (r : Z) (s : nnstate) : option (answer * nnstate) := Some (Answer r NoData, s).
Definition redirect (t : request) (s : nnstate) : option (answer * nnstate) :=
  Some (Answer MASTER_REDIRECT (Master (GetMaster (r_key t))), s).

(** [true] is [DFS_OK]. *)
Definition check_access (t : request) (f : fi_inode_t) (access : Z) : option bool :=
  r ← Permission.check_permission (r_user t) (r_group t) f access;
  Some (match r with None => true | Some _ => false end).

Definition check_ancestor_access := check_access.

(** [finodes] from index [i] on, [num] entries. *)
Fixpoint check_traverse (s : fstate) (t : request) (finodes : nat -> Z) (num i : nat) : option bool :=
  match num with
  | O => Some true
  | S num' =>
      if finodes i =? 0 then Some true else
      o ← objs (g_fcm s) !! finodes i;
      granted ← check_access t (fin o) Permission.EXECUTE;
      if granted : bool then check_traverse s t finodes num' (S i) else Some false
  end.

(** The objects found before the first key without one; -1 if there is no
    such key, and also if the first has none. *)
Fixpoint inodes_loop (s : fstate) (keys : list (list Z)) (i : Z) : Z * list Z :=
  match keys with
  | [] => (-1, [])
  | k :: keys' =>
      match get_store_obj s k with
      | None => (i - 1, [])
      | Some x => let '(r, xs) := inodes_loop s keys' (i + 1) in (r, x :: xs)
      end
  end.

Definition get_path_inodes (s : fstate) (keys : list (list Z)) : Z * (nat -> Z) :=
  let '(r, xs) := inodes_loop s keys 0 in (r, fun i => match xs !! i with Some x => x | None => stack i end).

Definition is_dir (s : fstate) (x : Z) : option bool :=
  o ← objs (g_fcm s) !! x; Some (is_directory (fin o)).

(** The key of step [i] of the mkdir loop; [Some None] is [continue]. *)
Definition mkdir_key (s : nnstate) (t : request) (names_sz : nat) (parent_index : Z) (finodes : nat -> Z)
    (i : nat) (k : list Z) : option (option (list Z)) :=
  if (names_sz =? 1)%nat then Some (Some (r_key t))
  else if parent_index <? 0 then Some (Some k)
  else if finodes i =? 0 then Some (Some k)
  else o ← objs (g_fcm (fs s)) !! finodes i;
       if Libc.strncmp (key (fin o)) k (Libc.strlen k) =? 0 then Some None else Some (Some k).

Fixpoint mkdir_loop (s : nnstate) (t : request) (names_sz : nat) (parent_index : Z) (finodes : nat -> Z)
    (i : nat) (keys : list (list Z)) : option nnstate :=
  match keys with
  | [] => Some s
  | k :: keys' =>
      sk ← mkdir_key s t names_sz parent_index finodes i k;
      s ← match sk with
          | None => Some s
          | Some sKey =>
              Propose s sKey (LogMkdir sKey (r_permission t) (r_user t) (r_group t) dfs_current_msec) false
          end;
      mkdir_loop s t names_sz parent_index finodes (S i) keys'
  end.

(** From the label [do_paxos] on. *)
Definition mkdir_do_paxos (s : nnstate) (t : request) (keys : list (list Z)) (parent_index : Z)
    (finodes : nat -> Z) : option (answer * nnstate) :=
  s ← mkdir_loop s t (List.length keys) parent_index finodes 0 keys;
  answer_with SUCC (inc_edit_op_num s).

Definition log_mkdir (s : nnstate) (t : request) : option (answer * nnstate) :=
  if negb (IsIMMaster (r_key t)) then redirect t s else
  match get_store_obj (fs s) (r_key t) with
  | Some _ => answer_with KEY_EXIST s
  | None =>
      let '(names, path_) := get_path_names (get_store_path (r_key t)) in
      let keys := get_path_keys names in
      let names_sz := List.length names in
      if is_root_path path_ then mkdir_do_paxos s t keys 0 stack else
      let '(parent_index, finodes) := get_path_inodes (fs s) keys in
      d ← (if 0 <? parent_index then is_dir (fs s) (finodes (Z.to_nat parent_index)) else Some true);
      if negb d then answer_with NOT_DIRECTORY s else
      allowed ←
        (if Permission.is_super (r_user t) admin then Some true
         else if parent_index <? 0 then Some false
         else tr ← check_traverse (fs s) t finodes names_sz 0;
              if negb tr then Some false
              else o ← objs (g_fcm (fs s)) !! finodes (Z.to_nat parent_index);
                   check_ancestor_access t (fin o) Permission.WRITE);
      if negb allowed then answer_with PERMISSION_DENY s else
      if is_FsObjectExceed (fs s) index_num (Z.of_nat names_sz - parent_index - 1)
      then answer_with FSOBJECT_EXCEED s
      else mkdir_do_paxos s t keys parent_index finodes
  end.

Definition log_rmr (s : nnstate) (t : request) : option (answer * nnstate) :=
  if negb (IsIMMaster (r_key t)) then redirect t s else
  match get_store_obj (fs s) (r_key t) with
  | None => answer_with KEY_NOTEXIST s
  | Some x =>
      o ← objs (g_fcm (fs s)) !! x;
      if negb (is_directory (fin o)) then answer_with NOT_DIRECTORY s else
      allowed ← (if Permission.is_super (r_user t) admin then Some true
                 else check_ancestor_access t (fin o) Permission.WRITE);
      if negb allowed then answer_with PERMISSION_DENY s else
      s ← Propose s (r_key t) (LogRmr (r_key t) dfs_current_msec) false;
      answer_with SUCC (inc_edit_op_num s)
  end.

(** [malloc] of the answer's data, written to without a check. *)
Definition malloc_answer (s : nnstate) : option nnstate :=
  b ← NnBlocks.malloc_unchecked (blk (fs s));
  Some (NN (set_blk (fs s) b) (g_edit_op_num s) (checkpoints_started s)).

(** [generate_uid] on the way to a proposal. *)
Definition new_uid (s : nnstate) : Z * nnstate :=
  let '(u, b) := NnBlocks.generate_uid (blk (fs s)) dfs_current_msec in
  (u, NN (set_blk (fs s) b) (g_edit_op_num s) (checkpoints_started s)).

Definition log_create (s : nnstate) (t : request) : option (answer * nnstate) :=
  if negb (IsIMMaster (r_key t)) then redirect t s else
  match get_store_obj (fs s) (r_key t) with
  | Some x =>
      o ← objs (g_fcm (fs s)) !! x;
      answer_with (if state o =? KEY_STATE_OK then KEY_EXIST else KEY_STATE_CREATING) s
  | None =>
      let '(names, _) := get_path_names (get_store_path (r_key t)) in
      let keys := get_path_keys names in
      let names_sz := List.length names in
      let '(parent_index, finodes) := get_path_inodes (fs s) keys in
      d ← (if parent_index <=? 0 then Some false else is_dir (fs s) (finodes (Z.to_nat parent_index)));
      if negb d then answer_with NOT_DIRECTORY s else
      allowed ←
        (if Permission.is_super (r_user t) admin then Some true
         else if parent_index <? 0 then Some false
         else tr ← check_traverse (fs s) t finodes names_sz 0;
              if negb tr then Some false
              else o ← objs (g_fcm (fs s)) !! finodes (Z.to_nat parent_index);
                   check_ancestor_access t (fin o) Permission.WRITE);
      if negb allowed then answer_with PERMISSION_DENY s else
      if is_FsObjectExceed (fs s) index_num 1 then answer_with FSOBJECT_EXCEED s else
      dns ← NnBlocks.generate_dns (blk (fs s));
      match dns with
      | None => answer_with NOT_DATANODE s
      | Some dn =>
          let '(blk_id, s) := new_uid s in
          s ← Propose s (r_key t)
                (LogCreate (r_key t) (r_permission t) (r_user t) (r_group t) dfs_current_msec
                   blk_id (r_blk_sz t) (r_blk_rep t)) local_thread;
          s ← malloc_answer s;
          Some (Answer SUCC (BlkResp blk_id dn), inc_edit_op_num s)
      end
  end.

Definition log_get_additional_blk (s : nnstate) (t : request) : option (answer * nnstate) :=
  if negb (IsIMMaster (r_key t)) then redirect t s else
  finished ← match get_store_obj (fs s) (r_key t) with
             | Some x => o ← objs (g_fcm (fs s)) !! x; Some (negb (state o =? KEY_STATE_CREATING))
             | None => Some false
             end;
  if finished : bool then answer_with FAIL s else
  dns ← NnBlocks.generate_dns (blk (fs s));
  match dns with
  | None => answer_with NOT_DATANODE s
  | Some dn =>
      let '(blk_id, s) := new_uid s in
      s ← Propose s (r_key t) (LogGetAdditionalBlk (r_key t) blk_id (r_blk_sz t) (r_blk_rep t)) false;
      s ← malloc_answer s;
      Some (Answer SUCC (BlkResp blk_id dn), inc_edit_op_num s)
  end.

(** Without the master check, which is commented out. *)
Definition log_close (s : nnstate) (t : request) : option (answer * nnstate) :=
  finished ← match get_store_obj (fs s) (r_key t) with
             | Some x => o ← objs (g_fcm (fs s)) !! x; Some (negb (state o =? KEY_STATE_CREATING))
             | None => Some false
             end;
  if finished : bool then answer_with FAIL s else
  s ← Propose s (r_key t) (LogClose (r_key t) dfs_current_msec (r_len t) (r_ret t)) false;
  answer_with SUCC (inc_edit_op_num s).

Definition log_rm (s : nnstate) (t : request) : option (answer * nnstate) :=
  if negb (IsIMMaster (r_key t)) then redirect t s else
  match get_store_obj (fs s) (r_key t) with
  | None => answer_with KEY_NOTEXIST s
  | Some x =>
      o ← objs (g_fcm (fs s)) !! x;
      if is_directory (fin o) then answer_with NOT_FILE s else
      allowed ← (if Permission.is_super (r_user t) admin then Some true
                 else check_ancestor_access t (fin o) Permission.WRITE);
      if negb allowed then answer_with PERMISSION_DENY s else
      s ← Propose s (r_key t) (LogRm (r_key t) dfs_current_msec) false;
      answer_with SUCC (inc_edit_op_num s)
  end.

(** [None] for the answer: the task is dropped without one. *)
Definition do_paxos_task (s : nnstate) (t : request) : option (option answer * nnstate) :=
  let handled r := '(a, s) ← r; Some (Some a, s) in
  if r_cmd t =? NN_MKDIR then handled (log_mkdir s t)
  else if r_cmd t =? NN_RMR then handled (log_rmr s t)
  else if r_cmd t =? NN_CREATE then handled (log_create s t)
  else if r_cmd t =? NN_GET_ADDITIONAL_BLK then handled (log_get_additional_blk s t)
  else if r_cmd t =? NN_CLOSE then handled (log_close s t)
  else if r_cmd t =? NN_RM then handled (log_rm s t)
  else Some (None, s).

(** ** nn_file_index.c: ls and open *)

(** The first [n] objects of a ring; past its end the head is taken for an
    object. *)
Definition ring_inodes (s : fstate) (xs : list Z) (n : Z) : option (list fi_inode_t) :=
  if Z.of_nat (List.length xs) <? n then None
  else mapM (fun x => o ← objs (g_fcm s) !! x; Some (fin o)) (take (Z.to_nat n) xs).

Definition sizeof_fi_inode_t : Z := 864.

(** [task->data_len] is an [int]: where the bytes of the children exceed it,
    it is negative or too small, and the copies go past what was allocated. *)
Definition nn_ls (s : nnstate) (t : request) : option (answer * nnstate) :=
  match get_store_obj (fs s) (r_key t) with
  | None => answer_with KEY_NOTEXIST s
  | Some x =>
      o ← objs (g_fcm (fs s)) !! x;
      allowed ← (if Permission.is_super (r_user t) admin then Some true
                 else check_ancestor_access t (fin o) Permission.READ_EXECUTE);
      if negb allowed then answer_with PERMISSION_DENY s else
      if negb (is_directory (fin o)) then
        s ← malloc_answer s; Some (Answer DFS_OK (Inodes [fin o]), s)
      else if children_num o =? 0 then answer_with DFS_OK s
      else
        let data_len := s32 (u64 (children_num o * sizeof_fi_inode_t)) in
        if data_len <? children_num o * sizeof_fi_inode_t then None else
        s' ← malloc_answer s;
        xs ← children o;
        inodes ← ring_inodes (fs s) xs (children_num o);
        Some (Answer DFS_OK (Inodes inodes), s')
  end.

(** A block that is not there is a null pointer. *)
Definition nn_open (s : nnstate) (t : request) : option (answer * nnstate) :=
  match get_store_obj (fs s) (r_key t) with
  | None => answer_with KEY_NOTEXIST s
  | Some x =>
      o ← objs (g_fcm (fs s)) !! x;
      if state o =? KEY_STATE_CREATING then answer_with KEY_STATE_CREATING s else
      if is_directory (fin o) then answer_with NOT_FILE s else
      allowed ← (if Permission.is_super (r_user t) admin then Some true
                 else check_ancestor_access t (fin o) Permission.READ_EXECUTE);
      if negb allowed then answer_with PERMISSION_DENY s else
      id0 ← blks (fin o) !! 0%nat;
      b ← NnBlocks.get_blk_store_obj (blk (fs s)) id0;
      y ← b;
      k ← objs (NnBlocks.g_nn_bcm (blk (fs s))) !! y;
      s ← malloc_answer s;
      Some (Answer SUCC (OpenResp (NnBlocks.id k) (NnBlocks.bsize k) (NnBlocks.dn_ip k)), s)
  end.

(** ** Only the superuser creates *)

Lemma inodes_loop_spec s keys i r xs : inodes_loop s keys i = (r, xs) ->
  (r = -1 \/ r = i + Z.of_nat (List.length xs) - 1) /\ (List.length xs <= List.length keys)%nat /\
  (r = -1 \/ (List.length xs < List.length keys)%nat) /\
  Forall (fun x => is_Some (objs (g_fcm s) !! x)) xs.
Proof.
  revert i r xs. induction keys as [|k keys IH]; intros i r xs E; cbn [inodes_loop] in E.
  - injection E as <- <-. split_and!; auto.
  - unfold get_store_obj in E. destruct (get (g_fcm s) k (Libc.strlen k)) as [[x|]|] eqn:G; cbn [mbind option_bind] in E.
    + destruct (inodes_loop s keys (i + 1)) as [r' xs'] eqn:E'. injection E as <- <-.
      destruct (IH _ _ _ E') as (H1 & H2 & H3 & H4). cbn [List.length]. split_and!; [lia|lia|lia|].
      constructor; [|done]. destruct (get_sound _ _ _ _ G) as (a & _ & _ & Ea & _). eauto.
    + injection E as <- <-. cbn [List.length]. split_and!; [lia|lia|lia|constructor].
    + injection E as <- <-. cbn [List.length]. split_and!; [lia|lia|lia|constructor].
Qed.

Lemma check_traverse_at s t f num i k :
  check_traverse s t f num i = Some true -> (i <= k < i + num)%nat -> (forall j, (j <= k)%nat -> f j <> 0) ->
  exists o, objs (g_fcm s) !! f k = Some o /\ check_access t (fin o) Permission.EXECUTE = Some true.
Proof.
  revert i. induction num as [|num IH]; intros i E Hk Hf; [lia|]. cbn [check_traverse] in E.
  rewrite (proj2 (Z.eqb_neq _ _)) in E by (apply Hf; lia).
  destruct (objs (g_fcm s) !! f i) as [o|] eqn:Eo; cbn [mbind option_bind] in E; [|done].
  destruct (check_access t (fin o) Permission.EXECUTE) as [[]|] eqn:Ec; cbn [mbind option_bind] in E; try done.
  destruct (decide (i = k)) as [->|]; [eauto|]. apply (IH (S i) E); [lia|done].
Qed.

Lemma check_access_one t f a1 a2 : 0 <= a1 < 8 -> 0 <= a2 < 8 ->
  check_access t f a1 = Some true -> check_access t f a2 = Some true -> a1 = a2.
Proof.
  intros H1 H2. unfold check_access.
  destruct (Permission.check_permission_digit (r_user t) (r_group t) f a1 H1) as (r1 & -> & D1).
  destruct (Permission.check_permission_digit (r_user t) (r_group t) f a2 H2) as (r2 & -> & D2).
  cbn. destruct r1, r2; try done. intros _ _. by rewrite <- (proj1 D1 eq_refl), <- (proj1 D2 eq_refl).
Qed.

(** The two checks of the parent never succeed together. *)
Lemma ordinary_denied s t keys r f :
  objs (g_fcm s) !! 0 = None -> get_path_inodes s keys = (r, f) -> 0 <= r ->
  forall b, (tr ← check_traverse s t f (List.length keys) 0;
     if negb tr then Some false
     else o ← objs (g_fcm s) !! f (Z.to_nat r); check_ancestor_access t (fin o) Permission.WRITE) = Some b -> b = false.
Proof.
  intros H0 E Hr b HB. unfold get_path_inodes in E. destruct (inodes_loop s keys 0) as [r' xs] eqn:EL.
  injection E as <- <-. destruct (inodes_loop_spec _ _ _ _ _ EL) as (H1 & H2 & H3 & H4).
  assert (Hlive : forall j, (j <= Z.to_nat r')%nat -> match xs !! j with Some x => x | None => stack j end <> 0).
  { intros j Hj. destruct (lookup_lt_is_Some_2 xs j) as [x Ex]; [lia|]. rewrite Ex. intros ->.
    rewrite Forall_lookup in H4. destruct (H4 j 0 Ex). congruence. }
  destruct (check_traverse s t _ _ 0) as [[]|] eqn:ET; cbn [mbind option_bind negb] in HB; [| |done].
  - destruct (check_traverse_at _ _ _ _ _ (Z.to_nat r') ET) as (o & Eo & Ec); [lia|done|].
    rewrite Eo in HB. cbn [mbind option_bind] in HB. destruct b; [|done].
    by pose proof (check_access_one t (fin o) 1 2 ltac:(lia) ltac:(lia) Ec HB).
  - congruence.
Qed.

Lemma keys_length names : List.length (get_path_keys names) = List.length names.
Proof.
  assert (K : forall i a b, List.length (path_keys_loop i names a b) = List.length names); [|apply K].
  induction names as [|n names IH]; intros i a b; cbn; [done|]. by rewrite IH.
Qed.

(** No user but the superuser ever creates anything: whatever the
    permissions, the request of an ordinary user to make a directory (other
    than the root) or to create a file is refused and changes nothing, because
    the parent would have to grant exactly [--x] for the traversal and exactly
    [-w-] for the write. *)
Theorem ordinary_users_never_create s t a s' :
  objs (g_fcm (fs s)) !! 0 = None -> Permission.is_super (r_user t) admin = false ->
  is_root_path (snd (get_path_names (get_store_path (r_key t)))) = false ->
  log_mkdir s t = Some (a, s') \/ log_create s t = Some (a, s') -> s' = s /\ ret a <> SUCC.
Proof.
  intros H0 HS HR. assert (HD : forall r, r <> SUCC -> answer_with r s = Some (a, s') -> s' = s /\ ret a <> SUCC).
  { intros r Hr [= <- <-]. done. }
  assert (HRD : redirect t s = Some (a, s') -> s' = s /\ ret a <> SUCC) by (intros [= <- <-]; done).
  intros [H|H]; revert H; [unfold log_mkdir|unfold log_create]; (destruct (IsIMMaster (r_key t)); cbn [negb]; [|done]);
    (destruct (get_store_obj (fs s) (r_key t)) as [x|]).
  - by apply HD.
  - destruct (get_path_names (get_store_path (r_key t))) as [names path_]. cbn [snd] in HR. rewrite HR.
    destruct (get_path_inodes (fs s) (get_path_keys names)) as [r f] eqn:EI.
    destruct (if 0 <? r then _ else _) as [[]|]; cbn [mbind option_bind negb]; [|by apply HD|done].
    rewrite HS. destruct (Z.ltb_spec r 0); [cbn; by apply HD|].
    rewrite <- keys_length. destruct (check_traverse _ _ _ _ _ ≫= _) as [b|] eqn:EB; cbn [mbind option_bind]; [|done].
    rewrite (ordinary_denied (fs s) t _ r f H0 EI ltac:(lia) b EB). cbn. by apply HD.
  - destruct (objs (g_fcm (fs s)) !! x) as [o|]; cbn [mbind option_bind]; [|done].
    destruct (state o =? KEY_STATE_OK); by apply HD.
  - destruct (get_path_names (get_store_path (r_key t))) as [names path_].
    destruct (get_path_inodes (fs s) (get_path_keys names)) as [r f] eqn:EI.
    destruct (Z.leb_spec r 0); [cbn; by apply HD|].
    destruct (is_dir (fs s) (f (Z.to_nat r))) as [[]|]; cbn [mbind option_bind negb]; [|by apply HD|done].
    rewrite HS. rewrite (proj2 (Z.ltb_ge r 0)) by lia. rewrite <- keys_length.
    destruct (check_traverse _ _ _ _ _ ≫= _) as [b|] eqn:EB; cbn [mbind option_bind]; [|done].
    rewrite (ordinary_denied (fs s) t _ r f H0 EI ltac:(lia) b EB). cbn. by apply HD.
Qed.

(** ** The superuser's requests *)

Section super.

Import Namespace NsRefine.

(** phxpaxos has every proposal chosen. *)
Context (chosen : forall g v, exists id, paxos_propose g v = Some id).

Lemma propose_chosen s k v th f' :
  (forall id, update_fi_cache_mgmt (fs s) id v th = Some (DFS_OK, f' id)) ->
  exists id, Propose s k v th = Some (NN (f' id) (g_edit_op_num s) (checkpoints_started s)).
Proof.
  intros H. unfold Propose, Execute. destruct (chosen (GetGroupIdx k) v) as [id ->]. exists id. by rewrite H.
Qed.

Lemma fits_take ns i : fits ns -> fits (take i ns).
Proof.
  revert i. induction ns as [|n ns IH] using rev_ind; intros i H; [by rewrite take_nil|].
  destruct (decide (i <= List.length ns)%nat).
  - rewrite take_app_le by done. apply IH. by eapply fits_parent.
  - rewrite take_ge; [done|]. rewrite length_app. simpl. lia.
Qed.

Lemma valid_take ns i : valid_path ns -> valid_path (take i ns).
Proof. intros H. by apply Forall_take. Qed.

(** The directories [ns] from its prefix of length [i] on, [m] of them. *)
Definition add_dirs (V : view) (ns : path) (i m : nat) : view :=
  foldl (fun V j => <[take j ns := Entry true true]> V) V (seq i m).

Definition prefixes (ns : path) : gset path := list_to_set (map (fun j => take j ns) (seq 0 (S (List.length ns)))).

Lemma prefixes_in ns i : (i <= List.length ns)%nat -> take i ns ∈ prefixes ns.
Proof.
  intros H. unfold prefixes. apply elem_of_list_to_set, list_elem_of_In, in_map_iff. exists i.
  split; [done|]. apply in_seq. lia.
Qed.

Lemma take_snoc (ns : path) i : (i < List.length ns)%nat -> exists n, take (S i) ns = take i ns ++ [n].
Proof. intros H. destruct (lookup_lt_is_Some_2 ns i H) as [n En]. exists n. by apply take_S_r. Qed.

(** The loop makes the directories that are missing. *)
Lemma mkdir_loop_creates t ns pi f m : forall s A i,
  valid_path ns -> fits ns -> ns <> [] -> (i + m = S (List.length ns))%nat ->
  fits_in 16 (r_user t) = true -> fits_in 16 (r_group t) = true ->
  (forall j, (i <= j)%nat -> pi <? 0 = true \/ f j = 0) ->
  rep (fs s) A ∅ ∅ ->
  (forall j, (i <= j <= List.length ns)%nat -> A !! take j ns = None) ->
  (i = 0%nat \/ exists p, A !! take (i - 1) ns = Some p /\ dir p = true) ->
  (m <= List.length (free (g_fcm (fs s))))%nat ->
  clash_free (size_ (g_fcm (fs s))) (dom A ∪ prefixes ns) ->
  exists s' A', mkdir_loop s t (S (List.length ns)) pi f i (map (fun j => key_of (take j ns)) (seq i m)) = Some s' /\
    rep (fs s') A' ∅ ∅ /\ abs A' = add_dirs (abs A) ns i m.
Proof.
  induction m as [|m IH]; intros s A i HV HF Hne Him Hu Hg Hf R HA HP HL HC; cbn [seq map mkdir_loop]; [eauto 10|].
  assert (EK : mkdir_key s t (S (List.length ns)) pi f i (key_of (take i ns)) = Some (Some (key_of (take i ns)))).
  { unfold mkdir_key. rewrite (proj2 (Nat.eqb_neq _ _)) by (destruct ns; simpl; congruence || lia).
    destruct (pi <? 0) eqn:Epi; [done|]. destruct (Hf i ltac:(lia)) as [?| ->]; done. }
  rewrite EK. cbn [mbind option_bind].
  destruct (free (g_fcm (fs s))) as [|x fr] eqn:Ef; [simpl in HL; lia|].
  pose proof (valid_take ns i HV) as HVi. pose proof (fits_take ns i HF) as HFi.
  assert (Hpar : take i ns = [] \/ parent_dir (abs A) (take i ns) = true).
  { destruct i as [|i]; [by left|right]. destruct HP as [?|(p & Ep & Hp)]; [done|].
    replace (S i - 1)%nat with i in Ep by lia. destruct (take_snoc ns i) as [n ->]; [lia|].
    unfold parent_dir. rewrite removelast_last. unfold abs. by rewrite lookup_fmap, Ep. }
  assert (HC1 : clash_free (size_ (g_fcm (fs s))) ({[take i ns]} ∪ dom A)).
  { eapply clash_free_sub; [|exact HC]. pose proof (prefixes_in ns i ltac:(lia)) as Hpr. clear - Hpr. set_solver. }
  unfold Propose, Execute. destruct (chosen (GetGroupIdx (key_of (take i ns)))
    (LogMkdir (key_of (take i ns)) (r_permission t) (r_user t) (r_group t) dfs_current_msec)) as [id ->].
  unfold update_fi_cache_mgmt. rewrite fits_in_key, Hu, Hg by done. cbn [andb].
  edestruct (mkdir_rep (fs s) A (take i ns)) as (f' & -> & R' & _ & Ef' & Es' & _);
    [done|done|done|by apply HA; lia|done|done|done|reflexivity|done|].
  cbn [mbind option_bind fmap option_fmap option_map snd].
  edestruct (IH (NN f' (g_edit_op_num s) (checkpoints_started s)) (<[take i ns := Node x true true]> A) (S i))
    as (s' & A' & E' & R'' & Eabs); try done.
  - lia.
  - intros j Hj. apply Hf. lia.
  - intros j Hj. rewrite lookup_insert_ne; [apply HA; lia|]. intros HH. apply (f_equal List.length) in HH.
    rewrite !length_take in HH. lia.
  - right. exists (Node x true true). replace (S i - 1)%nat with i by lia. by rewrite lookup_insert_eq.
  - cbn [fs]. rewrite Ef'. simpl in HL. lia.
  - cbn [fs]. rewrite Es', dom_insert_L. eapply clash_free_sub; [|exact HC].
    pose proof (prefixes_in ns i ltac:(lia)) as Hpr. clear - Hpr. set_solver.
  - exists s', A'. split_and!; [done|done|]. rewrite Eabs. unfold add_dirs. cbn [seq foldl]. unfold abs. by rewrite fmap_insert.
Qed.

(** The objects of the prefixes that exist. *)
Lemma inodes_prefixes s A ns i e m :
  rep s A ∅ ∅ -> valid_path ns -> (i + m = S (List.length ns))%nat -> (e <= List.length ns)%nat -> (i <= e)%nat ->
  (forall j, (j < e)%nat -> exists p, A !! take j ns = Some p) ->
  (forall j, (e <= j <= List.length ns)%nat -> A !! take j ns = None) ->
  clash_free (size_ (g_fcm s)) (dom A ∪ prefixes ns) ->
  exists xs, inodes_loop s (map (fun j => key_of (take j ns)) (seq i m)) (Z.of_nat i) = (Z.of_nat e - 1, xs) /\
    List.length xs = (e - i)%nat /\
    (forall j x, xs !! j = Some x -> exists p, A !! take (i + j) ns = Some p /\ loc p = x).
Proof.
  revert i. induction m as [|m IH]; intros i R HV Him He Hie HE HN HC; [lia|]. cbn [seq map inodes_loop].
  destruct (decide (i = e)) as [->|Hne].
  - rewrite (lookup_fresh _ _ _ _ R (take e ns)); [|by apply valid_take|apply HN; lia|].
    2: { intros p q Hp Hq. pose proof (prefixes_in ns e ltac:(lia)). apply HC; set_solver. }
    exists []. split_and!; [done|simpl; lia|]. intros j x. by rewrite lookup_nil.
  - destruct (HE i ltac:(lia)) as [p Ep]. rewrite (lookup_node _ _ _ _ R _ p Ep).
    destruct (IH (S i) R HV) as (xs & EL & HL & HX); try done; [lia|lia|].
    replace (Z.of_nat i + 1) with (Z.of_nat (S i)) by lia. rewrite EL. eexists. split; [reflexivity|].
    split; [simpl; lia|]. intros [|j] x Hx; cbn in Hx.
    + injection Hx as <-. exists p. by rewrite Nat.add_0_r.
    + destruct (HX j x Hx) as (q & Eq & Hq). exists q. by rewrite <- plus_n_Sm.
Qed.

(** The loop skips the directories that are there. *)
Lemma mkdir_loop_skips s A t ns pi f e m : forall i,
  rep (fs s) A ∅ ∅ -> objs (g_fcm (fs s)) !! 0 = None -> valid_path ns -> ns <> [] -> (i + m = e)%nat ->
  (e <= List.length ns)%nat -> 0 <= pi ->
  (forall j, (j < e)%nat -> exists p, A !! take j ns = Some p /\ f j = loc p) ->
  forall rest, mkdir_loop s t (S (List.length ns)) pi f i (map (fun j => key_of (take j ns)) (seq i m) ++ rest) =
    mkdir_loop s t (S (List.length ns)) pi f e rest.
Proof.
  induction m as [|m IH]; intros i R H0 HV Hne Him He Hpi HE rest.
  { cbn [seq map app]. by replace i with e by lia. }
  cbn [seq map app mkdir_loop]. destruct (HE i ltac:(lia)) as (p & Ep & Hp).
  destruct (node_obj _ _ _ _ R _ p Ep) as (o & Ho & OO).
  assert (EK : mkdir_key s t (S (List.length ns)) pi f i (key_of (take i ns)) = Some None).
  { unfold mkdir_key. rewrite (proj2 (Nat.eqb_neq _ _)) by (destruct ns; simpl; congruence || lia).
    rewrite (proj2 (Z.ltb_ge _ _)) by lia. rewrite (proj2 (Z.eqb_neq _ _)) by congruence.
    rewrite Hp, Ho. cbn [mbind option_bind]. by rewrite (or_key _ _ _ _ _ OO), Libc.strncmp_refl. }
  rewrite EK. cbn [mbind option_bind]. apply IH; try done. lia.
Qed.

Lemma root_residue ns : valid_path ns -> ns <> [] -> is_root_path (snd (get_path_names (path_str ns))) = false.
Proof.
  intros HV Hne. destruct ns as [|n ns]; [done|]. apply Forall_inv in HV as [Hn Hc].
  destruct n as [|c n]; [done|]. apply Forall_inv in Hc as HC. cbn [get_path_names snd path_str map concat app].
  unfold Libc.strtok_residue. cbn [Libc.skip_char]. rewrite Z.eqb_refl. cbn [Libc.skip_char].
  rewrite (proj2 (Z.eqb_neq _ _)) by lia. cbn [Libc.run_other].
  replace (List.length _ - List.length _)%nat with 1%nat by (simpl; lia). cbn [take app].
  rewrite (proj2 (Z.eqb_neq _ _)) by lia. unfold is_root_path. cbn [Libc.strlen].
  change (SLASH =? 0) with false. rewrite (proj2 (Z.eqb_neq c 0)) by lia. cbv iota.
  cbn [Libc.strncmp hd tl]. rewrite Z.eqb_refl. change (SLASH =? 0) with false. cbv iota.
  rewrite (proj2 (Z.eqb_neq 0 c)) by lia. apply Z.eqb_neq. lia.
Qed.

(** The slots [get_path_inodes] fills, when the first [e] prefixes exist. *)
Lemma slots_prefixes s A ns e :
  rep s A ∅ ∅ -> valid_path ns -> (forall j, stack j = 0) -> (e <= List.length ns)%nat ->
  (forall j, (j < e)%nat -> exists p, A !! take j ns = Some p) ->
  (forall j, (e <= j <= List.length ns)%nat -> A !! take j ns = None) ->
  clash_free (size_ (g_fcm s)) (dom A ∪ prefixes ns) ->
  exists f, get_path_inodes s (map (fun j => key_of (take j ns)) (seq 0 (S (List.length ns)))) = (Z.of_nat e - 1, f) /\
    (forall j, (j < e)%nat -> exists p, A !! take j ns = Some p /\ f j = loc p) /\
    (forall j, (e <= j)%nat -> f j = 0).
Proof.
  intros R HV Hst He HE HN HC.
  destruct (inodes_prefixes s A ns 0 e (S (List.length ns)) R HV) as (xs & EL & Hxs & HXS); try done; [lia|].
  change (Z.of_nat 0) with 0 in EL. unfold get_path_inodes. rewrite EL. eexists. split; [reflexivity|]. cbn beta. split.
  - intros j Hj. destruct (lookup_lt_is_Some_2 xs j) as [x Ex]; [lia|]. destruct (HXS j x Ex) as (p & Ep & El).
    exists p. by rewrite Ex.
  - intros j Hj. rewrite lookup_ge_None_2 by lia. apply Hst.
Qed.

(** The whole loop: the prefixes that exist are skipped, the others made. *)
Lemma mkdir_loop_all t ns f s A e :
  rep (fs s) A ∅ ∅ -> valid_path ns -> fits ns -> ns <> [] ->
  fits_in 16 (r_user t) = true -> fits_in 16 (r_group t) = true ->
  objs (g_fcm (fs s)) !! 0 = None -> (e <= List.length ns)%nat ->
  (forall j, (j < e)%nat -> exists p, A !! take j ns = Some p /\ dir p = true) ->
  (forall j, (e <= j <= List.length ns)%nat -> A !! take j ns = None) ->
  (forall j, (j < e)%nat -> exists p, A !! take j ns = Some p /\ f j = loc p) -> (forall j, (e <= j)%nat -> f j = 0) ->
  (S (List.length ns) - e <= List.length (free (g_fcm (fs s))))%nat ->
  clash_free (size_ (g_fcm (fs s))) (dom A ∪ prefixes ns) ->
  exists s' A', mkdir_loop s t (S (List.length ns)) (Z.of_nat e - 1) f 0
      (map (fun j => key_of (take j ns)) (seq 0 (S (List.length ns)))) = Some s' /\
    rep (fs s') A' ∅ ∅ /\ add_dirs (abs A) ns e (S (List.length ns) - e) = abs A'.
Proof.
  intros R HV HF Hne Hu Hg H0 He HEA HNA Hf1 Hf2 HL HC.
  assert (ES : seq 0 (S (List.length ns)) = seq 0 e ++ seq e (S (List.length ns) - e))
    by (rewrite <- seq_app; f_equal; lia).
  rewrite ES, map_app.
  assert (HSK : forall rest, mkdir_loop s t (S (List.length ns)) (Z.of_nat e - 1) f 0
      (map (fun j => key_of (take j ns)) (seq 0 e) ++ rest) =
    mkdir_loop s t (S (List.length ns)) (Z.of_nat e - 1) f e rest).
  { destruct e as [|e']; [done|]. apply (mkdir_loop_skips s A t ns); try done; lia. }
  rewrite HSK.
  destruct (mkdir_loop_creates t ns (Z.of_nat e - 1) f (S (List.length ns) - e) s A e) as (s' & A' & -> & R' & EA'); try done.
  - lia.
  - intros j Hj. right. by apply Hf2.
  - destruct e as [|e']; [by left|right]. destruct (HEA e' ltac:(lia)) as (p & ? & ?). exists p.
    by replace (S e' - 1)%nat with e' by lia.
  - eauto.
Qed.

(** A request of the superuser to make a directory makes it with all its
    missing ancestors, in that order, and leaves the directories that are
    there alone: if the first [e] ancestors of the path exist and the others
    do not, the answer is SUCC and the tree has one new directory for every
    missing prefix of the path.  This needs phxpaxos to choose the proposals,
    and the slots of [finodes] the handler did not fill to be null. *)
Theorem mkdir_creates_ancestors s V t ns e :
  history (fs s) V -> r_key t = key_of ns -> valid_path ns -> fits ns -> ns <> [] ->
  IsIMMaster (key_of ns) = true -> Permission.is_super (r_user t) admin = true ->
  fits_in 16 (r_user t) = true -> fits_in 16 (r_group t) = true ->
  (forall j, stack j = 0) -> objs (g_fcm (fs s)) !! 0 = None -> (e <= List.length ns)%nat ->
  (forall j, (j < e)%nat -> V !! take j ns = Some (Entry true true)) ->
  (forall j, (e <= j <= List.length ns)%nat -> V !! take j ns = None) ->
  (S (List.length ns) - e <= List.length (free (g_fcm (fs s))))%nat ->
  is_FsObjectExceed (fs s) index_num (Z.of_nat (S (List.length ns)) - (Z.of_nat e - 1) - 1) = false ->
  clash_free (size_ (g_fcm (fs s))) (dom V ∪ prefixes ns) ->
  exists s', log_mkdir s t = Some (Answer SUCC NoData, s') /\
    implements (fs s') (add_dirs V ns e (S (List.length ns) - e)).
Proof.
  intros [(A & R & ->) _]%history_implements Hk HV HF Hne HM HS Hu Hg Hst H0 He HE HN HL HX HC. rewrite abs_dom in HC.
  assert (HNA : forall j, (e <= j <= List.length ns)%nat -> A !! take j ns = None) by (intros; by apply abs_None, HN).
  assert (HEA : forall j, (j < e)%nat -> exists p, A !! take j ns = Some p /\ dir p = true).
  { intros j Hj. destruct (proj1 (abs_lookup _ _ _) (HE j Hj)) as (p & Ep & [= Hp _]). eauto. }
  unfold log_mkdir. rewrite Hk, HM. cbn [negb]. rewrite (lookup_fresh _ _ _ _ R ns HV); [| |].
  2: { rewrite <- (firstn_all ns). apply HNA. lia. }
  2: { intros p q Hp Hq. pose proof (prefixes_in ns (List.length ns) ltac:(lia)) as Hpr.
       rewrite take_ge in Hpr by lia. apply HC; set_solver. }
  rewrite store_path by done. pose proof (root_residue ns HV Hne) as HRR.
  pose proof (path_names ns HV) as HPN. destruct (get_path_names (path_str ns)) as [names res]. cbn [fst snd] in HPN, HRR.
  rewrite HPN, path_keys, HRR by done. cbn [List.length].
  destruct (slots_prefixes (fs s) A ns e) as (f & EG & Hf1 & Hf2); try done.
  { intros j Hj. destruct (HEA j Hj) as (p & ? & _). eauto. }
  rewrite EG. cbv beta iota.
  replace (if 0 <? Z.of_nat e - 1 then is_dir (fs s) (f (Z.to_nat (Z.of_nat e - 1))) else Some true) with (Some true).
  2: { destruct (Z.ltb_spec 0 (Z.of_nat e - 1)); [|done]. destruct (Hf1 (Z.to_nat (Z.of_nat e - 1)) ltac:(lia)) as (p & Ep & ->).
       destruct (node_obj _ _ _ _ R _ p Ep) as (o & Ho & OO). unfold is_dir. rewrite Ho. cbn.
       destruct (HEA (Z.to_nat (Z.of_nat e - 1)) ltac:(lia)) as (p' & Ep' & Hp'). simplify_eq. by rewrite (or_dir _ _ _ _ _ OO), Hp'. }
  cbn [mbind option_bind negb]. rewrite HS. cbn [mbind option_bind negb]. rewrite HX.
  unfold mkdir_do_paxos. rewrite length_map, length_seq.
  destruct (mkdir_loop_all t ns f s A e) as (s' & A' & -> & R' & EA'); try done.
  cbn [mbind option_bind]. eexists. split; [reflexivity|]. exists A'. split; [|done].
  unfold inc_edit_op_num. by destruct (_ =? checkpoint_num).
Qed.

Lemma lookup_view s A ns : rep s A ∅ ∅ -> valid_path ns -> clash_free (size_ (g_fcm s)) ({[ns]} ∪ dom A) ->
  get_store_obj s (key_of ns) = loc <$> A !! ns.
Proof.
  intros R HV HC. destruct (A !! ns) as [nd|] eqn:E; [by apply (lookup_node _ _ _ _ R)|by apply (lookup_fresh _ _ _ _ R)].
Qed.

(** C3. The superuser's request to remove a file does what the tree says: a
    missing file is KEY_NOTEXIST, a directory NOT_FILE, both without effect,
    and a finished file is removed from the tree and from the object count,
    when this node is the master of the path and phxpaxos chooses its proposals.
    The path has at most 189 bytes, no key of its bucket is a prefix of another one,
    and the state is one that the log and changes of the block index that keep
    its invariant lead to, so that no datanode has timed out with blocks.  Nothing
    is said of a file that is still being created. *)
Theorem rm_handler s V t ns :
  history (fs s) V -> r_key t = key_of ns -> valid_path ns -> fits ns -> ns <> [] ->
  IsIMMaster (key_of ns) = true -> Permission.is_super (r_user t) admin = true ->
  clash_free (size_ (g_fcm (fs s))) ({[ns]} ∪ dom V) ->
  match V !! ns with
  | None => log_rm s t = Some (Answer KEY_NOTEXIST NoData, s)
  | Some (Entry true _) => log_rm s t = Some (Answer NOT_FILE NoData, s)
  | Some (Entry false true) => exists s', log_rm s t = Some (Answer SUCC NoData, s') /\
      implements (fs s') (delete ns V) /\ counted (fs s') (delete ns V)
  | Some (Entry false false) => True
  end.
Proof.
  intros HH Hk HV HF Hne HM HS HC. destruct (history_implements _ _ HH) as [(A & R & ->) HCT]. rewrite abs_dom in HC.
  unfold log_rm. rewrite Hk, HM, (lookup_view _ A) by done. cbn [negb].
  destruct (abs A !! ns) as [e|] eqn:E; [|apply abs_None in E; by rewrite E].
  pose proof E as EV. apply abs_lookup in E as (nd & E & ->). rewrite E. cbn [fmap option_fmap option_map].
  destruct (node_obj _ _ _ _ R ns nd E) as (o & Ho & OO). rewrite Ho. cbn [mbind option_bind].
  rewrite (or_dir _ _ _ _ _ OO). destruct (dir nd) eqn:Hd; [done|]. destruct (closed nd) eqn:Hc; [|done].
  rewrite HS. cbn [mbind option_bind negb]. unfold Propose, Execute.
  destruct (chosen (GetGroupIdx (key_of ns)) (LogRm (key_of ns) dfs_current_msec)) as [id ->].
  destruct (refine_step (fs s) (abs A) (LogRm (key_of ns) dfs_current_msec) (Rm ns) (delete ns (abs A)) id false)
    as (f' & -> & HI & HCT'); [by exists A|constructor| | |].
  - cbn [spec_step]. rewrite EV. by rewrite bool_decide_false.
  - split; [done|done| |done]. rewrite dom_delete_L, abs_dom. intros p q Hp Hq. apply HC; set_solver.
  - cbn. eexists. split; [reflexivity|]. unfold inc_edit_op_num.
    destruct (_ =? checkpoint_num); cbn [fs]; auto.
Qed.

End super.

Section queries.

Import Namespace NsRefine.

Lemma mapM_fins s A D N ns nd o xs : rep s A D N -> A !! ns = Some nd -> objs (g_fcm s) !! loc nd = Some o ->
  children o = Some xs ->
  exists fs_, mapM (fun x => o ← objs (g_fcm s) !! x; Some (fin o)) xs = Some fs_ /\
    Forall2 (fun x i => exists n nd', A !! (ns ++ [n]) = Some nd' /\ loc nd' = x /\ closed nd' = true /\ x ∉ D /\
      key i = key_of (ns ++ [n])) xs fs_.
Proof.
  clear.
  intros R E Ho Hxs.
  assert (HX : Forall (fun x => exists n nd', A !! (ns ++ [n]) = Some nd' /\ loc nd' = x /\ closed nd' = true /\ x ∉ D) xs).
  { apply Forall_forall. intros x Hx. by apply (r_child _ _ _ _ R ns nd o xs x E Ho Hxs). }
  clear Hxs. induction HX as [|x xs (n & nd' & En & El & Hc & HD) _ (fs_ & EM & F)]; [by exists []|].
  destruct (node_obj _ _ _ _ R _ nd' En) as (o' & Ho' & OO). rewrite El in Ho'.
  cbn. rewrite Ho'. cbn [mbind option_bind]. rewrite EM. cbn [mbind option_bind]. eexists. split; [reflexivity|].
  constructor; [|done]. exists n, nd'. split_and!; try done. apply (or_key _ _ _ _ _ OO).
Qed.

(** The finished entries directly below a directory. *)
Definition below (V : view) (ns : path) : list path :=
  (map_to_list (filter (fun pe : path * entry => e_closed pe.2 = true /\ pe.1 <> [] /\ removelast pe.1 = ns) V)).*1.

Lemma elem_of_below V ns p : p ∈ below V ns <-> exists n e, p = ns ++ [n] /\ V !! p = Some e /\ e_closed e = true.
Proof.
  clear. unfold below. rewrite list_elem_of_fmap. split.
  - intros ([q e] & -> & [E (Hc & Hq & HR)]%elem_of_map_to_list%map_lookup_filter_Some). cbn in *.
    destruct (exists_last Hq) as (l & n & ->). rewrite removelast_last in HR. subst l. eauto.
  - intros (n & e & -> & E & Hc). exists (ns ++ [n], e). split; [done|].
    apply elem_of_map_to_list, map_lookup_filter_Some. split; [done|]. cbn.
    split_and!; [done|by destruct ns|apply removelast_last].
Qed.

Lemma below_nodup V ns : NoDup (below V ns).
Proof. apply NoDup_fst_map_to_list. Qed.

Lemma NoDup_fmap_valid (l : list path) : (forall p, p ∈ l -> valid_path p) -> NoDup l -> NoDup (map key_of l).
Proof.
  clear. induction l as [|p l IH]; intros HV NB; [constructor|]. apply NoDup_cons in NB as [Hp NB]. cbn. constructor.
  - intros (q & Hk & Hq)%list_elem_of_fmap. apply key_of_inj in Hk; [|apply HV; set_solver..]. by subst q.
  - apply IH; [set_solver|done].
Qed.

(** The inodes of the children have the keys of the entries below. *)
Lemma inodes_below s A D N ns nd o xs is_ : rep s A D N -> D = ∅ -> A !! ns = Some nd -> objs (g_fcm s) !! loc nd = Some o ->
  children o = Some xs -> NoDup xs ->
  Forall2 (fun x i => exists n nd', A !! (ns ++ [n]) = Some nd' /\ loc nd' = x /\ closed nd' = true /\ x ∉ D /\
      key i = key_of (ns ++ [n])) xs is_ ->
  map key is_ ≡ₚ map key_of (below (abs A) ns).
Proof.
  clear. intros R HD E Ho Hxs ND F.
  assert (HV : forall p, p ∈ below (abs A) ns -> valid_path p).
  { intros p (n & e & -> & (nd' & En & _)%abs_lookup & _)%elem_of_below. by eapply (node_valid _ _ _ _ R). }
  apply NoDup_Permutation.
  - clear Hxs. revert ND. induction F as [|x i xs is_ (n & nd' & En & El & _ & _ & Hki) F IH]; intros ND; [constructor|].
    apply NoDup_cons in ND as [Hx ND]. cbn. constructor; [|by apply IH].
    intros (j & Hj & Hin)%list_elem_of_fmap. apply list_elem_of_lookup in Hin as [q Hq].
    destruct (Forall2_lookup_r _ _ _ _ _ F Hq) as (y & Hy & m & nd2 & Em & El2 & _ & _ & Hkj).
    assert (ns ++ [n] = ns ++ [m]) as HH.
    { apply key_of_inj; [by eapply (node_valid _ _ _ _ R)|by eapply (node_valid _ _ _ _ R)|congruence]. }
    rewrite HH in En. simplify_eq. apply Hx. by eapply list_elem_of_lookup_2.
  - apply NoDup_fmap_valid; [done|apply below_nodup].
  - intros k. split.
    + intros (i & -> & Hin)%list_elem_of_fmap. apply list_elem_of_lookup in Hin as [q Hq].
      destruct (Forall2_lookup_r _ _ _ _ _ F Hq) as (y & Hy & m & nd2 & Em & _ & Hc & _ & Hkj).
      rewrite Hkj. apply list_elem_of_fmap_2, elem_of_below. exists m, (Entry (dir nd2) (closed nd2)).
      split_and!; [done|apply abs_lookup; eauto|done].
    + intros (p & -> & (n & e & -> & (nd' & En & ->)%abs_lookup & Hc)%elem_of_below)%list_elem_of_fmap.
      assert (Hin : loc nd' ∈ xs) by (apply (r_child _ _ _ _ R ns nd o xs _ E Ho Hxs); exists n, nd'; set_solver).
      apply list_elem_of_lookup in Hin as [q Hq].
      destruct (Forall2_lookup_l _ _ _ _ _ F Hq) as (i & Hi & m & nd2 & Em & El & _ & _ & Hkj).
      assert (ns ++ [m] = ns ++ [n]) as HH by (by eapply (loc_inj _ _ _ _ R)). rewrite HH in Hkj.
      rewrite <- Hkj. apply list_elem_of_fmap_2. by eapply list_elem_of_lookup_2.
Qed.

Lemma ls_len n : 0 <= n -> (s32 (u64 (n * sizeof_fi_inode_t)) <? n * sizeof_fi_inode_t) = negb (n * sizeof_fi_inode_t <? 2 ^ 31).
Proof.
  clear. intros Hn. unfold sizeof_fi_inode_t. pose proof (swrap_range 32 (u64 (n * 864)) ltac:(lia)) as [_ H].
  change (swrap 32) with s32 in H. change (2 ^ (32 - 1)) with (2 ^ 31) in H. destruct (Z.ltb_spec (n * 864) (2 ^ 31)); cbn [negb].
  - assert (s32 (u64 (n * 864)) = n * 864) as ->; [|apply Z.ltb_irrefl]. unfold u64. rewrite uwrap_small by (unfold in_u; lia).
    apply swrap_small; [lia|]. unfold in_s. lia.
  - apply Z.ltb_lt. lia.
Qed.

(** The data of a listing. *)
Definition listing (inodes : list fi_inode_t) : payload := match inodes with [] => NoData | _ => Inodes inodes end.

(** C4. Listing a directory as the superuser answers with one inode for each
    finished entry the tree has directly below it, and nothing else, and without
    data when there is none.  The allocation of the answer succeeds, and the
    inodes, 864 bytes each, are less than 2 GiB together: from 2485514
    entries on the length of the answer does not fit into its int and the copies go
    beyond the allocation. *)
Theorem ls_lists_children s V t ns :
  history (fs s) V -> r_key t = key_of ns -> V !! ns = Some (Entry true true) ->
  Permission.is_super (r_user t) admin = true -> (0 < NnBlocks.heap (blk (fs s)))%nat ->
  if Z.of_nat (List.length (below V ns)) * sizeof_fi_inode_t <? 2 ^ 31 then
    exists inodes s', nn_ls s t = Some (Answer DFS_OK (listing inodes), s') /\ NoDup (map key inodes) /\
      map key inodes ≡ₚ map key_of (below V ns) /\
      forall k, k ∈ map key inodes <->
        exists n e, V !! (ns ++ [n]) = Some e /\ e_closed e = true /\ k = key_of (ns ++ [n])
  else nn_ls s t = None.
Proof.
  clear - admin.
  intros [(A & R & ->) _]%history_implements Hk EV HS Hh. apply abs_lookup in EV as (nd & E & [= Hd _]).
  destruct (node_obj _ _ _ _ R ns nd E) as (o & Ho & OO).
  destruct (or_ring _ _ _ _ _ OO) as (xs & Hxs & ND & Hnum); [done|].
  specialize (Hnum ltac:(set_solver)).
  destruct (mapM_fins _ _ _ _ ns nd o xs R E Ho Hxs) as (is_ & EM & F).
  pose proof (inodes_below _ _ _ _ ns nd o xs is_ R eq_refl E Ho Hxs ND F) as HP.
  assert (HL : List.length (below (abs A) ns) = List.length xs).
  { apply Forall2_length in F. rewrite F. apply Permutation_length in HP. by rewrite !length_map in HP. }
  assert (HN : NoDup (map key is_)).
  { rewrite HP. eapply NoDup_fmap_valid; [|apply below_nodup].
    intros p (n & e & -> & (nd' & En & _)%abs_lookup & _)%elem_of_below. by eapply (node_valid _ _ _ _ R). }
  assert (HK : forall k, k ∈ map key is_ <->
    exists n e, abs A !! (ns ++ [n]) = Some e /\ e_closed e = true /\ k = key_of (ns ++ [n])).
  { intros k. rewrite HP. rewrite list_elem_of_fmap. setoid_rewrite elem_of_below. naive_solver. }
  unfold nn_ls. rewrite Hk, (lookup_node _ _ _ _ R ns nd E), Ho. cbn [mbind option_bind]. rewrite HS.
  cbn [mbind option_bind negb]. rewrite (or_dir _ _ _ _ _ OO), <- Hd. cbn [negb]. rewrite Hnum, HL.
  destruct (Z.eqb_spec (Z.of_nat (List.length xs)) 0) as [Hz|Hz].
  - assert (xs = []) as -> by (by destruct xs). cbn in EM. injection EM as <-. cbn. exists [], s. split_and!; done.
  - rewrite ls_len by lia. destruct (_ <? 2 ^ 31); cbn [negb]; [|done].
    unfold malloc_answer, NnBlocks.malloc_unchecked. destruct (NnBlocks.heap (blk (fs s))) as [|hp]; [lia|].
    cbn [mbind option_bind]. rewrite Hxs. cbn [mbind option_bind]. unfold ring_inodes.
    rewrite (proj2 (Z.ltb_ge _ _)) by lia. rewrite Nat2Z.id, take_ge by lia. rewrite EM. cbn [mbind option_bind].
    exists is_. eexists. split_and!; [|done|done|done]. destruct is_; [|reflexivity].
    apply Forall2_length in F. cbn in F. lia.
Qed.

(** Files cannot be created in the root directory: with the root there
    and the name free, the request is answered with NOT_DIRECTORY, also for
    the superuser. *)
Theorem create_in_root_refused s V t n :
  history (fs s) V -> r_key t = key_of [n] -> valid_path [n] -> V !! [] = Some (Entry true true) -> V !! [n] = None ->
  IsIMMaster (key_of [n]) = true -> clash_free (size_ (g_fcm (fs s))) ({[[n]]} ∪ dom V) ->
  log_create s t = Some (Answer NOT_DIRECTORY NoData, s).
Proof.
  intros [(A & R & ->) _]%history_implements Hk HV ER EN HM HC. rewrite abs_dom in HC.
  apply abs_lookup in ER as (p & Ep & _). apply abs_None in EN.
  unfold log_create. rewrite Hk, HM, (lookup_fresh _ _ _ _ R [n] HV EN HC), store_path by done. cbn [negb].
  pose proof (path_names [n] HV) as HPN. destruct (get_path_names (path_str [n])) as [names res]. cbn [fst] in HPN.
  rewrite HPN, path_keys by done. unfold get_path_inodes.
  cbn [List.length seq map inodes_loop take].
  rewrite (lookup_node _ _ _ _ R [] p Ep), (lookup_fresh _ _ _ _ R [n] HV EN HC). done.
Qed.

End queries.
End handlers.

(** ** A sample namenode *)

(** Always master, every proposal chosen, NULs on the stack, administrator
    [root]. *)
Definition yes (_ : Z) : bool := true.
Definition chosen1 (_ : Z) (_ : log_op) : option Z := Some 1.
Definition nulls (_ : nat) : Z := 0.

Lemma chosen1_ok (g : Z) (v : log_op) : exists id, chosen1 g v = Some id.
Proof. by exists 1. Qed.

Definition sample_mkdir := log_mkdir yes (fun _ => 1) chosen1 1 (lit "root") 100 1000 50 nulls.
Definition sample_create := log_create yes (fun _ => 1) chosen1 1 (lit "root") 100 1000 50 true nulls.
Definition sample_rm := log_rm yes (fun _ => 1) chosen1 1 (lit "root") 1000 50.
Definition sample_ls := nn_ls (lit "root").

Definition as_user (user : string) (cmd : Z) (k : list Z) : request :=
  Request cmd k (lit user) (lit "users") 755 0 64 1 0.

Definition nn2 : nnstate := NN NsRefine.s2 0 0.
Definition nn3 : nnstate := NN NsRefine.s3 0 0.
Definition nn4 : nnstate := NN NsRefine.s4 0 0.

Lemma ordinary_users_never_create_witness :
  fst <$> sample_create nn2 (as_user "bob" NN_CREATE (key_of NsRefine.p_af)) = Some (Answer PERMISSION_DENY NoData) /\
  nn2 = nn2 /\ PERMISSION_DENY <> SUCC.
Proof.
  split; [vm_compute; reflexivity|].
  apply (ordinary_users_never_create yes (fun _ => 1) chosen1 1 (lit "root") 100 1000 50 true nulls nn2
    (as_user "bob" NN_CREATE (key_of NsRefine.p_af)) (Answer PERMISSION_DENY NoData) nn2);
    [vm_compute; reflexivity|vm_compute; reflexivity|vm_compute; reflexivity|right; vm_compute; reflexivity].
Defined.

Definition p_abc : path := [lit "a"; lit "b"; lit "c"].

Lemma mkdir_creates_ancestors_witness :
  exists s', sample_mkdir nn2 (as_user "root" NN_MKDIR (key_of p_abc)) = Some (Answer SUCC NoData, s') /\
    Namespace.implements (fs s') (add_dirs NsRefine.V2 p_abc 2 2).
Proof.
  apply (mkdir_creates_ancestors yes (fun _ => 1) chosen1 1 (lit "root") 100 1000 50 nulls chosen1_ok
    nn2 NsRefine.V2 (as_user "root" NN_MKDIR (key_of p_abc)) p_abc 2);
    [apply NsRefine.sample_history2|reflexivity|by_decide|vm_compute; lia|discriminate|reflexivity|vm_compute; reflexivity
    |vm_compute; reflexivity|vm_compute; reflexivity|reflexivity|vm_compute; reflexivity|vm_compute; lia| | |vm_compute; lia
    |vm_compute; reflexivity|apply NsRefine.clash_free_dec; by_decide].
  - intros [|[|j]] Hj; [vm_compute; reflexivity|vm_compute; reflexivity|lia].
  - intros [|[|[|[|j]]]] [Hj1 Hj2]; cbn in Hj2; [lia|lia|vm_compute; reflexivity|vm_compute; reflexivity|lia].
Defined.

Lemma rm_handler_witness :
  exists s', sample_rm nn4 (as_user "root" NN_RM (key_of NsRefine.p_af)) = Some (Answer SUCC NoData, s') /\
    Namespace.implements (fs s') (delete NsRefine.p_af NsRefine.V4) /\
    Namespace.counted (fs s') (delete NsRefine.p_af NsRefine.V4).
Proof.
  apply (rm_handler yes (fun _ => 1) chosen1 1 (lit "root") 1000 50 chosen1_ok nn4 NsRefine.V4
    (as_user "root" NN_RM (key_of NsRefine.p_af)) NsRefine.p_af);
    [apply NsRefine.sample_history4|reflexivity|by_decide|vm_compute; lia|discriminate|reflexivity|vm_compute; reflexivity
    |apply NsRefine.clash_free_dec; by_decide].
Defined.

Lemma ls_lists_children_witness :
  exists inodes s', sample_ls nn4 (as_user "root" NN_LS (key_of NsRefine.p_a)) = Some (Answer DFS_OK (listing inodes), s') /\
    NoDup (map key inodes) /\ map key inodes ≡ₚ map key_of (below NsRefine.V4 NsRefine.p_a) /\
    forall k, k ∈ map key inodes <-> exists n e, NsRefine.V4 !! (NsRefine.p_a ++ [n]) = Some e /\
      Namespace.e_closed e = true /\ k = key_of (NsRefine.p_a ++ [n]).
Proof.
  assert (HB : (Z.of_nat (List.length (below NsRefine.V4 NsRefine.p_a)) * sizeof_fi_inode_t <? 2 ^ 31) = true) by (vm_compute; reflexivity).
  pose proof (ls_lists_children (lit "root") nn4 NsRefine.V4 (as_user "root" NN_LS (key_of NsRefine.p_a)) NsRefine.p_a
    NsRefine.sample_history4 eq_refl ltac:(vm_compute; reflexivity) ltac:(vm_compute; reflexivity) ltac:(vm_compute; lia)) as H.
  rewrite HB in H. exact H.
Defined.

Lemma create_in_root_refused_witness :
  sample_create nn2 (as_user "root" NN_CREATE (key_of [lit "f"])) = Some (Answer NOT_DIRECTORY NoData, nn2).
Proof.
  apply (create_in_root_refused yes (fun _ => 1) chosen1 1 (lit "root") 100 1000 50 true nulls nn2 NsRefine.V2
    (as_user "root" NN_CREATE (key_of [lit "f"])) (lit "f"));
    [apply NsRefine.sample_history2|reflexivity|by_decide|vm_compute; reflexivity|vm_compute; reflexivity|reflexivity
    |apply NsRefine.clash_free_dec; by_decide].
Defined.

(** A path that ends in a slash is not recognised as existing: with "/"
    and "/a" there, the superuser's request to make "/a/" is answered with
    SUCC and makes a second "/" and a second "/a", two objects each with the
    same key. *)
Theorem mkdir_trailing_slash_duplicates :
  exists s' x y o1 o2, sample_mkdir nn2 (as_user "root" NN_MKDIR (key_encode (lit "/a/"))) = Some (Answer SUCC NoData, s') /\
    x <> y /\ objs (g_fcm (fs s')) !! x = Some o1 /\ objs (g_fcm (fs s')) !! y = Some o2 /\
    key (fin o1) = key_of NsRefine.p_a /\ key (fin o2) = key_of NsRefine.p_a /\
    size (objs (g_fcm (fs s'))) = (2 + size (objs (g_fcm (fs nn2))))%nat.
Proof.
  destruct (sample_mkdir nn2 (as_user "root" NN_MKDIR (key_encode (lit "/a/")))) as [[a s']|] eqn:E;
    [|vm_compute in E; discriminate E].
  assert (EA : fst <$> sample_mkdir nn2 (as_user "root" NN_MKDIR (key_encode (lit "/a/"))) = Some (Answer SUCC NoData))
    by (vm_compute; reflexivity).
  rewrite E in EA. cbn in EA. injection EA as ->. exists s', 200, 400.
  assert (ES : s' = default nn2 (snd <$> sample_mkdir nn2 (as_user "root" NN_MKDIR (key_encode (lit "/a/")))))
    by (by rewrite E).
  rewrite ES. do 2 eexists. split; [reflexivity|]. split; [discriminate|].
  split; [vm_compute; reflexivity|]. split; [vm_compute; reflexivity|]. by_decide.
Qed.

End NnPaxos.
