(* ===== verification/HeapLogic.v ===== *)
(** * A program logic for computations on a store of nodes

    Pointer structures are verified with separation logic: the store of an
    [ST] computation is a finite map from addresses to nodes together with a
    plain value (the variables outside the nodes, a root pointer for
    instance).  [wp m r Φ] says that [m], started with the value [r], does not
    run into undefined behaviour, ends, and leaves a store that satisfies [Φ]
    of its result and of the new value.  The assertions are Iris's, with a
    ghost map that follows the store; [wp_adequate] brings a specification
    back to a statement about running [m]. *)

From stdpp Require Import base numbers gmap option list.
From iris.proofmode Require Import proofmode environments.
From iris.base_logic Require Import base_logic derived.
From iris.base_logic.lib Require Import own ghost_map.
From S2P Require Import Prelude.

Section logic.

Context {V R : Type} `{!ghost_mapG Σ Z V} (γ : gname).

Definition wp {A} (m : ST (gmap Z V * R) A) (r : R) (Φ : A -> R -> iProp Σ) : iProp Σ :=
  ∀ h, ghost_map_auth γ 1 h ==∗
    ∃ a h' r', ⌜m (h, r) = Some (a, (h', r')) /\ dom h' = dom h⌝ ∗ ghost_map_auth γ 1 h' ∗ Φ a r'.

(** ** Primitive computations *)

Definition ld {A} (f : V -> A) (a : Z) : ST (gmap Z V * R) A := gets (fun s => f <$> fst s !! a).
Definition st (f : V -> V) (a : Z) : ST (gmap Z V * R) unit :=
  puts (fun s => n ← fst s !! a; Some (<[a := f n]> (fst s), snd s)).
Definition get_reg : ST (gmap Z V * R) R := fun s => Some (snd s, s).
Definition set_reg (r : R) : ST (gmap Z V * R) unit := fun s => Some (tt, (fst s, r)).

(** ** Rules *)

Lemma wp_ret {A} (a : A) r Φ : Φ a r -∗ wp (mret a) r Φ.
Proof. iIntros "H" (h) "Hh". iModIntro. iExists a, h, r. iFrame. by iPureIntro. Qed.

Lemma wp_bind {A B} (m : ST (gmap Z V * R) A) (k : A -> ST (gmap Z V * R) B) r Φ :
  wp m r (fun a r' => wp (k a) r' Φ) -∗ wp (m ≫= k) r Φ.
Proof.
  iIntros "H" (h) "Hh". iMod ("H" with "Hh") as (a h1 r1) "([%E %D1] & Hh & H)".
  iMod ("H" with "Hh") as (b h2 r2) "([%E2 %D2] & Hh & H)". iModIntro. iExists b, h2, r2. iFrame.
  iPureIntro. rewrite (ST_bind_eq _ _ _ _ _ E). split; [done|congruence].
Qed.

Lemma wp_wand {A} (m : ST (gmap Z V * R) A) r Φ Ψ :
  wp m r Φ -∗ (∀ a r', Φ a r' -∗ Ψ a r') -∗ wp m r Ψ.
Proof.
  iIntros "H K" (h) "Hh". iMod ("H" with "Hh") as (a h1 r1) "(%E & Hh & H)". iModIntro.
  iExists a, h1, r1. iFrame. iSplitR; [done|]. by iApply "K".
Qed.

Lemma wp_ld {A B} (f : V -> A) a n (k : A -> ST (gmap Z V * R) B) r Φ :
  a ↪[γ] n -∗ (a ↪[γ] n -∗ wp (k (f n)) r Φ) -∗ wp (ld f a ≫= k) r Φ.
Proof.
  iIntros "Ha H". iApply wp_bind. iIntros (h) "Hh".
  iDestruct (ghost_map_lookup with "Hh Ha") as %E. iModIntro. iExists (f n), h, r. iFrame.
  iSplitR; [|by iApply "H"]. iPureIntro. split; [|done]. unfold ld, gets. cbn. by rewrite E.
Qed.

Lemma wp_st {B} (f : V -> V) a n (k : unit -> ST (gmap Z V * R) B) r Φ :
  a ↪[γ] n -∗ (a ↪[γ] f n -∗ wp (k tt) r Φ) -∗ wp (st f a ≫= k) r Φ.
Proof.
  iIntros "Ha H". iApply wp_bind. iIntros (h) "Hh".
  iDestruct (ghost_map_lookup with "Hh Ha") as %E.
  iMod (ghost_map_update (f n) with "Hh Ha") as "[Hh Ha]". iModIntro. iExists tt, _, r. iFrame "Hh".
  iSplitR; [|by iApply "H"]. iPureIntro. split; [unfold st, puts; cbn; by rewrite E|]. apply dom_insert_lookup_L. eauto.
Qed.

Lemma wp_get_reg {B} (k : R -> ST (gmap Z V * R) B) r Φ : wp (k r) r Φ -∗ wp (get_reg ≫= k) r Φ.
Proof. iIntros "H". iApply wp_bind. iIntros (h) "Hh". iModIntro. iExists r, h, r. iFrame. by iPureIntro. Qed.

Lemma wp_set_reg {B} r' (k : unit -> ST (gmap Z V * R) B) r Φ : wp (k tt) r' Φ -∗ wp (set_reg r' ≫= k) r Φ.
Proof. iIntros "H". iApply wp_bind. iIntros (h) "Hh". iModIntro. iExists tt, h, r'. iFrame. by iPureIntro. Qed.

(** The rules for the last computation of a sequence. *)
Lemma wp_last {A} (m : ST (gmap Z V * R) A) r Φ : wp (m ≫= mret) r Φ -∗ wp m r Φ.
Proof.
  iIntros "H" (h) "Hh". iMod ("H" with "Hh") as (a h1 r1) "([%E %D] & Hh & H)". iModIntro.
  iExists a, h1, r1. iFrame. iPureIntro. split; [|done]. revert E. unfold mbind, ST_bind, mret, ST_ret.
  destruct (m (h, r)) as [[b [h2 r2]]|]; [|done]. intros [= -> -> ->]. done.
Qed.

Lemma wp_assoc {A B C} (m : ST (gmap Z V * R) A) (k : A -> ST (gmap Z V * R) B) (l : B -> ST (gmap Z V * R) C) r Φ :
  wp (m ≫= fun a => k a ≫= l) r Φ -∗ wp ((m ≫= k) ≫= l) r Φ.
Proof.
  iIntros "H" (h) "Hh". iMod ("H" with "Hh") as (a h1 r1) "([%E %D] & Hh & H)". iModIntro.
  iExists a, h1, r1. iFrame. iPureIntro. split; [|done]. revert E. unfold mbind, ST_bind. by destruct (m (h, r)) as [[]|].
Qed.

End logic.

(** ** Adequacy *)

(** A specification proved from the ownership of all nodes holds of a run. *)
Lemma wp_adequate {V R A} (m : ST (gmap Z V * R) A) (h : gmap Z V) (r : R) (Q : A -> R -> gmap Z V -> Prop) :
  (forall Σ (H : ghost_mapG Σ Z V) (γ : gname), ([∗ map] a ↦ n ∈ h, a ↪[γ] n) ⊢
    wp γ m r (fun a r' => ∀ h', ghost_map_auth γ 1 h' -∗ ⌜Q a r' h'⌝)) ->
  exists a h' r', m (h, r) = Some (a, (h', r')) /\ dom h' = dom h /\ Q a r' h'.
Proof.
  intros Hwp. set (Σ := #[ghost_mapΣ Z V]).
  eapply (pure_soundness (PROP := iPropI Σ)). apply (uPred.bupd_soundness _).
  iMod (ghost_map_alloc h) as (γ) "[Hh Hm]". iDestruct (Hwp Σ _ γ with "Hm") as "Hwp".
  iMod ("Hwp" with "Hh") as (a h' r') "([%E %D] & Hh & HQ)". iDestruct ("HQ" with "Hh") as %HQ.
  iModIntro. iPureIntro. by exists a, h', r'.
Qed.

(** Some of the nodes, and the rest. *)
Lemma own_some {V} `{!ghost_mapG Σ Z V} (γ : gname) (h : gmap Z V) (xs : list Z) :
  NoDup xs -> Forall (fun a => is_Some (h !! a)) xs ->
  ([∗ map] a ↦ n ∈ h, a ↪[γ] n) ⊢@{iPropI Σ}
    ([∗ list] a ∈ xs, ∃ n, ⌜h !! a = Some n⌝ ∗ a ↪[γ] n) ∗ [∗ map] a ↦ n ∈ filter (fun x => fst x ∉ xs) h, a ↪[γ] n.
Proof.
  intros Hnd. revert h. induction Hnd as [|x xs Hx Hnd IH]; intros h HF; cbn.
  - iIntros "H". iSplitR; [done|]. by rewrite map_filter_id; [|intros ? ? ? ?%elem_of_nil].
  - apply Forall_cons in HF as [[n Hn] HF]. rewrite (big_sepM_delete _ h x n) // (IH (delete x h)).
    2: { apply Forall_forall. intros y Hy. rewrite lookup_delete_ne; [|set_solver]. by eapply Forall_forall in HF. }
    iIntros "(Hx & Hxs & Hm)". iSplitL "Hx Hxs".
    + iSplitL "Hx"; [by iFrame|]. iApply (big_sepL_impl with "Hxs"). iIntros "!>" (i y Hy) "(%m & %Hm & Hy)".
      iExists m. iFrame. iPureIntro. rewrite lookup_delete_Some in Hm. tauto.
    + replace (filter (fun x0 => fst x0 ∉ x :: xs) h) with (filter (fun x0 => fst x0 ∉ xs) (delete x h)); [done|].
      apply map_eq. intros y. apply option_eq. intros m.
      rewrite !map_lookup_filter_Some lookup_delete_Some. cbn. set_solver.
Qed.

(** ** Symbolic execution

    [wp_step] runs the first primitive computation of the goal, finding the
    node it needs among the hypotheses; [wp_eval] and [wp_eval_node], which
    a client redefines, evaluate fields and updates of nodes; [wp_eq] decides a comparison of pointers with
    the equations and inequations at hand. *)

Ltac wp_eval t := constr:(t).
Ltac wp_eval_node n := constr:(n).

Ltac wp_simpl :=
  lazymatch goal with
  | |- envs_entails _ (wp _ ?m _ _) => let m' := wp_eval m in change m with m'
  end.

(** The name of the hypothesis about the node [a]. *)
Ltac wp_find Γ a :=
  lazymatch Γ with
  | Esnoc _ ?i (ghost_map_elem _ a _ _) => i
  | Esnoc ?Γ' _ _ => wp_find Γ' a
  end.

Ltac wp_access a tac :=
  lazymatch goal with
  | |- envs_entails (Envs _ ?Γ _) _ =>
      let i := wp_find Γ a in
      tac i;
      lazymatch goal with
      | |- envs_entails _ (bi_wand (ghost_map_elem _ _ _ ?n) _) =>
          let n' := wp_eval_node n in change n with n'; iIntros i; wp_simpl
      end
  end.

Ltac wp_step :=
  lazymatch goal with
  | |- envs_entails _ (wp _ (mbind _ (ld _ ?a)) _ _) => wp_access a ltac:(fun i => iApply (wp_ld with i))
  | |- envs_entails _ (wp _ (mbind _ (st _ ?a)) _ _) => wp_access a ltac:(fun i => iApply (wp_st with i))
  | |- envs_entails _ (wp _ (mbind _ get_reg) _ _) => iApply wp_get_reg; wp_simpl
  | |- envs_entails _ (wp _ (mbind _ (set_reg _)) _ _) => iApply wp_set_reg; wp_simpl
  | |- envs_entails _ (wp _ (mbind _ (mbind _ _)) _ _) => iApply wp_assoc
  | |- envs_entails _ (wp _ (mbind _ (mret _)) _ _) => iApply wp_bind; iApply wp_ret; wp_simpl
  | |- envs_entails _ (wp _ (mret _) _ _) => iApply wp_ret
  | |- envs_entails _ (wp _ (ld _ _) _ _) => iApply wp_last
  | |- envs_entails _ (wp _ (st _ _) _ _) => iApply wp_last
  | |- envs_entails _ (wp _ (set_reg _) _ _) => iApply wp_last
  | |- envs_entails _ (wp _ get_reg _ _) => iApply wp_last
  end.

(** The condition of the first branch of a computation. *)
Ltac wp_cond m :=
  lazymatch m with
  | mbind _ ?m' => wp_cond m'
  | (if ?c then _ else _) => c
  end.

Ltac wp_eq :=
  lazymatch goal with
  | |- envs_entails _ (wp _ ?m _ _) =>
      let c := wp_cond m in
      match c with
      | context [?a =? ?b] =>
          first [ replace (a =? b) with true by (symmetry; apply Z.eqb_eq; congruence)
                | replace (a =? b) with false by (symmetry; apply Z.eqb_neq; congruence) ]
      | _ => idtac
      end
  end; cbn [negb andb orb]; wp_simpl.

Ltac wp_run := repeat (progress first [wp_step | wp_eq]).
