(* ===== verification/Rbtree.v ===== *)
(** * Red-black trees: src/core/dfs_rbtree.h and .c

    The nodes are part of other objects; the store maps addresses to nodes,
    and the value beside it is [tree->root].  The functions are translated
    statement by statement, loops with fuel. *)

From stdpp Require Import base numbers gmap option list.
From S2P Require Import Prelude HeapLogic.

Module Rbtree.

(** ** Data *)

Record rbtree_node_t := Node { key : Z; left : Z; right : Z; parent : Z; color : Z; data : Z }.

Definition RBTREE_COLOR_RED : Z := 1.
Definition RBTREE_COLOR_BLACK : Z := 0.
Definition NULL : Z := 0.

Abbreviation nodes := (gmap Z rbtree_node_t).
Abbreviation RB := (ST (nodes * Z)).

Definition with_key (v : Z) (n : rbtree_node_t) := Node v (left n) (right n) (parent n) (color n) (data n).
Definition with_left (v : Z) (n : rbtree_node_t) := Node (key n) v (right n) (parent n) (color n) (data n).
Definition with_right (v : Z) (n : rbtree_node_t) := Node (key n) (left n) v (parent n) (color n) (data n).
Definition with_parent (v : Z) (n : rbtree_node_t) := Node (key n) (left n) (right n) v (color n) (data n).
Definition with_color (v : Z) (n : rbtree_node_t) := Node (key n) (left n) (right n) (parent n) v (data n).

Definition set_key (a v : Z) : RB unit := st (with_key v) a.
Definition set_left (a v : Z) : RB unit := st (with_left v) a.
Definition set_right (a v : Z) : RB unit := st (with_right v) a.
Definition set_parent (a v : Z) : RB unit := st (with_parent v) a.
Definition root : RB Z := get_reg.
Definition set_root (v : Z) : RB unit := set_reg v.

Definition rbtree_red (a : Z) : RB unit := st (with_color RBTREE_COLOR_RED) a.
Definition rbtree_black (a : Z) : RB unit := st (with_color RBTREE_COLOR_BLACK) a.
Definition rbtree_is_red (a : Z) : RB bool := c ← ld color a; mret (c =? RBTREE_COLOR_RED).
Definition rbtree_is_black (a : Z) : RB bool := c ← ld color a; mret (c =? RBTREE_COLOR_BLACK).
Definition rbtree_copy_color (n1 n2 : Z) : RB unit := c ← ld color n2; st (with_color c) n1.

(** ** Operations *)

Definition rbtree_sentinel_init (s : Z) : RB unit := if s =? NULL then mret tt else rbtree_black s.

Definition rbtree_init (s : Z) : RB unit := rbtree_sentinel_init s;; set_root s.

Definition rbtree_left_rotate (sentinel node : Z) : RB unit :=
  temp ← ld right node;
  tl ← ld left temp; set_right node tl;;
  tl ← ld left temp;
  (if tl =? sentinel then mret tt else set_parent tl node);;
  np ← ld parent node; set_parent temp np;;
  r ← root;
  (if node =? r then set_root temp
   else np ← ld parent node; npl ← ld left np;
        if node =? npl then np ← ld parent node; set_left np temp
        else np ← ld parent node; set_right np temp);;
  set_left temp node;;
  set_parent node temp.

Definition rbtree_right_rotate (sentinel node : Z) : RB unit :=
  temp ← ld left node;
  tr ← ld right temp; set_left node tr;;
  tr ← ld right temp;
  (if tr =? sentinel then mret tt else set_parent tr node);;
  np ← ld parent node; set_parent temp np;;
  r ← root;
  (if node =? r then set_root temp
   else np ← ld parent node; npr ← ld right np;
        if node =? npr then np ← ld parent node; set_right np temp
        else np ← ld parent node; set_left np temp);;
  set_right temp node;;
  set_parent node temp.

Fixpoint rbtree_min (fuel : nat) (sentinel node : Z) : RB Z :=
  match fuel with
  | O => ub
  | S fuel' => l ← ld left node; if l =? sentinel then mret node else rbtree_min fuel' sentinel l
  end.

(** The descent of [rbtree_insert_value]: the node the new one goes below. *)
Fixpoint insert_value_loop (fuel : nat) (temp node sentinel : Z) : RB unit :=
  match fuel with
  | O => ub
  | S fuel' =>
      nk ← ld key node; tk ← ld key temp;
      if nk <? tk then
        p ← ld left temp;
        if p =? sentinel then
          set_left temp node;; set_parent node temp;; set_left node sentinel;; set_right node sentinel;;
          rbtree_red node
        else insert_value_loop fuel' p node sentinel
      else
        p ← ld right temp;
        if p =? sentinel then
          set_right temp node;; set_parent node temp;; set_left node sentinel;; set_right node sentinel;;
          rbtree_red node
        else insert_value_loop fuel' p node sentinel
  end.

Definition rbtree_insert_value (fuel : nat) (temp node sentinel : Z) : RB unit :=
  insert_value_loop fuel temp node sentinel.

(** The keys are of the same signed type as the casts. *)
Definition rbtree_insert_timer_value (fuel : nat) (root node sentinel : Z) : RB unit :=
  if (root =? NULL) || (node =? NULL) then mret tt
  else insert_value_loop fuel root node sentinel.

(** The loop that re-balances after an insertion. *)
Fixpoint insert_loop (fuel : nat) (sentinel node : Z) : RB unit :=
  match fuel with
  | O => ub
  | S fuel' =>
      r ← root;
      if node =? r then mret tt else
      np ← ld parent node; red ← rbtree_is_red np;
      if negb red then mret tt else
      np ← ld parent node; g ← ld parent np; gl ← ld left g;
      node ← (if np =? gl then
        np ← ld parent node; g ← ld parent np; temp ← ld right g;
        red ← rbtree_is_red temp;
        if red : bool then
          np ← ld parent node; rbtree_black np;;
          rbtree_black temp;;
          np ← ld parent node; g ← ld parent np; rbtree_red g;;
          np ← ld parent node; ld parent np
        else
          np ← ld parent node; npr ← ld right np;
          node ← (if node =? npr then
                    np ← ld parent node; rbtree_left_rotate sentinel np;; mret np
                  else mret node);
          np ← ld parent node; rbtree_black np;;
          np ← ld parent node; g ← ld parent np; rbtree_red g;;
          np ← ld parent node; g ← ld parent np; rbtree_right_rotate sentinel g;;
          mret node
      else
        np ← ld parent node; g ← ld parent np; temp ← ld left g;
        red ← rbtree_is_red temp;
        if red : bool then
          np ← ld parent node; rbtree_black np;;
          rbtree_black temp;;
          np ← ld parent node; g ← ld parent np; rbtree_red g;;
          np ← ld parent node; ld parent np
        else
          np ← ld parent node; npl ← ld left np;
          node ← (if node =? npl then
                    np ← ld parent node; rbtree_right_rotate sentinel np;; mret np
                  else mret node);
          np ← ld parent node; rbtree_black np;;
          np ← ld parent node; g ← ld parent np; rbtree_red g;;
          np ← ld parent node; g ← ld parent np; rbtree_left_rotate sentinel g;;
          mret node);
      insert_loop fuel' sentinel node
  end.

(** [insert] is the function [tree->insert] points to. *)
Definition rbtree_insert (insert : Z -> Z -> Z -> RB unit) (fuel : nat) (sentinel node : Z) : RB unit :=
  r ← root;
  if r =? sentinel then
    set_parent node NULL;; set_left node sentinel;; set_right node sentinel;;
    rbtree_black node;; set_root node
  else
    insert r node sentinel;;
    insert_loop fuel sentinel node;;
    r ← root; rbtree_black r.

(** The loop that re-balances after a deletion: what it does with the sibling
    [w] of [temp] once [w] is black.  The result is the next [temp]. *)
Definition delete_left (sentinel temp w : Z) : RB Z :=
  wl ← ld left w; bl ← rbtree_is_black wl;
  both ← (if bl : bool then wr ← ld right w; rbtree_is_black wr else mret false);
  if both : bool then
    rbtree_red w;; ld parent temp
  else
    wr ← ld right w; br ← rbtree_is_black wr;
    w ← (if br : bool then
           wl ← ld left w; rbtree_black wl;;
           rbtree_red w;;
           rbtree_right_rotate sentinel w;;
           tp ← ld parent temp; ld right tp
         else mret w);
    tp ← ld parent temp; rbtree_copy_color w tp;;
    tp ← ld parent temp; rbtree_black tp;;
    wr ← ld right w; rbtree_black wr;;
    tp ← ld parent temp; rbtree_left_rotate sentinel tp;;
    root.

Definition delete_right (sentinel temp w : Z) : RB Z :=
  wl ← ld left w; bl ← rbtree_is_black wl;
  both ← (if bl : bool then wr ← ld right w; rbtree_is_black wr else mret false);
  if both : bool then
    rbtree_red w;; ld parent temp
  else
    wl ← ld left w; bl ← rbtree_is_black wl;
    w ← (if bl : bool then
           wr ← ld right w; rbtree_black wr;;
           rbtree_red w;;
           rbtree_left_rotate sentinel w;;
           tp ← ld parent temp; ld left tp
         else mret w);
    tp ← ld parent temp; rbtree_copy_color w tp;;
    tp ← ld parent temp; rbtree_black tp;;
    wl ← ld left w; rbtree_black wl;;
    tp ← ld parent temp; rbtree_right_rotate sentinel tp;;
    root.

(** The result is the last [temp]. *)
Fixpoint delete_loop (fuel : nat) (sentinel temp : Z) : RB Z :=
  match fuel with
  | O => ub
  | S fuel' =>
      r ← root;
      if temp =? r then mret temp else
      black ← rbtree_is_black temp;
      if negb black then mret temp else
      tp ← ld parent temp; tpl ← ld left tp;
      temp ← (if temp =? tpl then
        tp ← ld parent temp; w ← ld right tp;
        red ← rbtree_is_red w;
        w ← (if red : bool then
               rbtree_black w;;
               tp ← ld parent temp; rbtree_red tp;;
               tp ← ld parent temp; rbtree_left_rotate sentinel tp;;
               tp ← ld parent temp; ld right tp
             else mret w);
        delete_left sentinel temp w
      else
        tp ← ld parent temp; w ← ld left tp;
        red ← rbtree_is_red w;
        w ← (if red : bool then
               rbtree_black w;;
               tp ← ld parent temp; rbtree_red tp;;
               tp ← ld parent temp; rbtree_right_rotate sentinel tp;;
               tp ← ld parent temp; ld left tp
             else mret w);
        delete_right sentinel temp w);
      delete_loop fuel' sentinel temp
  end.

(** [node->left = NULL; ...; node->key = 0] *)
Definition clear_node (node : Z) : RB unit :=
  set_left node NULL;; set_right node NULL;; set_parent node NULL;; set_key node 0.

(** The node to splice out and its child, [subst] and [temp]. *)
Definition delete_subst (fuel : nat) (sentinel node : Z) : RB (Z * Z) :=
  l ← ld left node;
  if l =? sentinel then temp ← ld right node; mret (node, temp) else
  r ← ld right node;
  if r =? sentinel then temp ← ld left node; mret (node, temp) else
  r ← ld right node; subst ← rbtree_min fuel sentinel r;
  sl ← ld left subst;
  if negb (sl =? sentinel) then temp ← ld left subst; mret (subst, temp)
  else temp ← ld right subst; mret (subst, temp).

(** [subst] takes the place of [node]. *)
Definition delete_move (sentinel node subst temp : Z) : RB unit :=
  sp ← ld parent subst;
  (if sp =? node then set_parent temp subst
   else sp ← ld parent subst; set_parent temp sp);;
  nl ← ld left node; set_left subst nl;;
  nr ← ld right node; set_right subst nr;;
  np ← ld parent node; set_parent subst np;;
  rbtree_copy_color subst node;;
  r ← root;
  (if node =? r then set_root subst
   else np ← ld parent node; npl ← ld left np;
        if node =? npl then np ← ld parent node; set_left np subst
        else np ← ld parent node; set_right np subst);;
  sl ← ld left subst;
  (if negb (sl =? sentinel) then sl ← ld left subst; set_parent sl subst else mret tt);;
  sr ← ld right subst;
  (if negb (sr =? sentinel) then sr ← ld right subst; set_parent sr subst else mret tt).

Definition rbtree_delete (fuel : nat) (sentinel node : Z) : RB unit :=
  '(subst, temp) ← delete_subst fuel sentinel node;
  r ← root;
  if subst =? r then
    set_root temp;; rbtree_black temp;; clear_node node
  else
    red ← rbtree_is_red subst;
    sp ← ld parent subst; spl ← ld left sp;
    (if subst =? spl then sp ← ld parent subst; set_left sp temp
     else sp ← ld parent subst; set_right sp temp);;
    (if subst =? node then sp ← ld parent subst; set_parent temp sp
     else delete_move sentinel node subst temp);;
    clear_node node;;
    if red : bool then mret tt
    else temp ← delete_loop fuel sentinel temp; rbtree_black temp.

End Rbtree.
