(* ===== verification/RbSpec.v ===== *)
(** * Red-black trees as data

    The specification of src/core/dfs_rbtree.c: trees of (address, key) with
    colours, a path in a tree as a list of frames, and insertion and deletion
    by walking up such a path.  It is proved here that they keep the colour
    rules and the order of the elements, and that the height is logarithmic;
    RbRefine.v proves that the C code computes these functions. *)

From Stdlib Require Import ZArith Lia.
From stdpp Require Import base numbers list sorting.
From S2P Require Import Prelude.

Module RbSpec.

(** ** Trees and paths *)

Inductive colour := Red | Black.
Inductive tree := E | T (c : colour) (l : tree) (a k : Z) (r : tree).
Inductive side := L | R.

#[global] Instance colour_eq_dec : EqDecision colour.
Proof. solve_decision. Defined.
#[global] Instance tree_eq_dec : EqDecision tree.
Proof. solve_decision. Defined.
#[global] Instance side_eq_dec : EqDecision side.
Proof. solve_decision. Defined.

(** A node on the path: the side the path goes to, and the other subtree. *)
Record frame := Fr { f_side : side; f_colour : colour; f_addr : Z; f_key : Z; f_other : tree }.
Abbreviation ctx := (list frame).

(** The node with [x] on side [d] and [y] on the other one. *)
Definition nd (d : side) (c : colour) (x : tree) (a k : Z) (y : tree) : tree :=
  match d with L => T c x a k y | R => T c y a k x end.

#[global] Arguments nd : simpl never.

Fixpoint plug (C : ctx) (t : tree) : tree :=
  match C with [] => t | Fr d c a k s :: C' => plug C' (nd d c t a k s) end.

(** The elements in order: of a tree, and before and after the hole of a path. *)
Fixpoint elts (t : tree) : list (Z * Z) :=
  match t with E => [] | T _ l a k r => elts l ++ (a, k) :: elts r end.
Fixpoint before (C : ctx) : list (Z * Z) :=
  match C with
  | [] => []
  | Fr L _ _ _ _ :: C' => before C'
  | Fr R _ a k s :: C' => before C' ++ elts s ++ [(a, k)]
  end.
Fixpoint after (C : ctx) : list (Z * Z) :=
  match C with
  | [] => []
  | Fr L _ a k s :: C' => (a, k) :: elts s ++ after C'
  | Fr R _ _ _ _ :: C' => after C'
  end.

Definition is_red (t : tree) : bool := match t with T Red _ _ _ _ => true | _ => false end.
Definition black (t : tree) : tree := match t with T _ l a k r => T Black l a k r | E => E end.

(** ** Insertion *)

Fixpoint ins_ctx (k : Z) (t : tree) (C : ctx) : ctx :=
  match t with
  | E => C
  | T c l a' k' r => if k <? k' then ins_ctx k l (Fr L c a' k' r :: C) else ins_ctx k r (Fr R c a' k' l :: C)
  end.

(** The grandparent [g] on whose side [d2] is the red parent [p] of the red
    focus, which is on side [d1] of [p]; [s] and [u] are sibling and uncle. *)
Definition rotate_in (d1 d2 : side) (t : tree) (p kp : Z) (s : tree) (g kg : Z) (u : tree) : tree :=
  if decide (d1 = d2) then nd d2 Black t p kp (nd d2 Red s g kg u)
  else match t, d2 with
       | T _ tl x kx tr, L => nd L Black (nd L Red s p kp tl) x kx (nd L Red tr g kg u)
       | T _ tl x kx tr, R => nd R Black (nd R Red s p kp tr) x kx (nd R Red tl g kg u)
       | E, _ => E
       end.

Fixpoint ins_fix (C : ctx) (t : tree) : tree :=
  match C with
  | Fr d1 Red p kp s :: Fr d2 cg g kg u :: C' =>
      if is_red u then ins_fix C' (nd d2 Red (nd d1 Black t p kp s) g kg (black u))
      else plug C' (rotate_in d1 d2 t p kp s g kg u)
  | _ => plug C t
  end.

Definition insert (t : tree) (a k : Z) : tree :=
  match t with
  | E => T Black E a k E
  | _ => black (ins_fix (ins_ctx k t []) (T Red E a k E))
  end.

(** ** Deletion *)

(** The sibling [w] is black: recolour and go on above ([inl]), or rotate. *)
Definition side_fix (d : side) (cp : colour) (t : tree) (a k : Z) (w : tree) : option (tree + tree) :=
  match w with
  | E => None
  | T _ wl wa wk wr =>
      let '(near, far) := match d with L => (wl, wr) | R => (wr, wl) end in
      if is_red far then Some (inr (nd d cp (nd d Black t a k near) wa wk (black far)))
      else match near with
           | T Red nl na nk nr =>
               let '(ni, no) := match d with L => (nl, nr) | R => (nr, nl) end in
               Some (inr (nd d cp (nd d Black t a k ni) na nk (nd d Black no wa wk far)))
           | _ => Some (inl (nd d cp t a k (T Red wl wa wk wr)))
           end
  end.

Fixpoint del_fix (C : ctx) (t : tree) : option tree :=
  match C with
  | [] => Some (black t)
  | Fr d cp a k w :: C' =>
      if is_red t then Some (plug C (black t)) else
      match w with
      | T Red wl wa wk wr =>
          let '(near, far) := match d with L => (wl, wr) | R => (wr, wl) end in
          match side_fix d Red t a k near with
          | None => None
          | Some (inl t') => Some (plug (Fr d Black wa wk far :: C') (black t'))
          | Some (inr t') => Some (black (plug (Fr d Black wa wk far :: C') t'))
          end
      | _ =>
          match side_fix d cp t a k w with
          | None => None
          | Some (inl t') => del_fix C' t'
          | Some (inr t') => Some (black (plug C' t'))
          end
      end
  end.

(** A node of colour [c] has been taken out; [t] is its only child. *)
Definition del_finish (C : ctx) (c : colour) (t : tree) : option tree :=
  match C, c with
  | [], _ => Some (black t)
  | _, Red => Some (plug C t)
  | _, Black => del_fix C t
  end.

Fixpoint min_split (t : tree) (D : ctx) : option (ctx * (colour * Z * Z * tree)) :=
  match t with
  | E => None
  | T c E a k r => Some (D, (c, a, k, r))
  | T c l a k r => min_split l (Fr L c a k r :: D)
  end.

(** Delete the node below the path [C]. *)
Definition del_node (C : ctx) (c : colour) (l r : tree) : option tree :=
  match l, r with
  | E, _ => del_finish C c r
  | _, E => del_finish C c l
  | _, _ =>
      match min_split r [] with
      | None => None
      | Some (D, (cy, ya, yk, yr)) => del_finish (D ++ Fr R c ya yk l :: C) cy yr
      end
  end.

(** ** The colour rules *)

(** [is_rb t c n]: below a node of colour [c], [t] has no two red nodes in a
    row and [n] black nodes on every path. *)
Inductive is_rb : tree -> colour -> nat -> Prop :=
  | rb_E c : is_rb E c 0
  | rb_red l a k r n : is_rb l Red n -> is_rb r Red n -> is_rb (T Red l a k r) Black n
  | rb_black l a k r c n : is_rb l Black n -> is_rb r Black n -> is_rb (T Black l a k r) c (S n).

(** The same for a path, around a hole for a tree with [n] black nodes below a
    node of colour [c]; the root is black. *)
Inductive ctx_rb : ctx -> colour -> nat -> Prop :=
  | cr_nil n : ctx_rb [] Red n
  | cr_red d a k s C n : ctx_rb C Black n -> is_rb s Red n -> ctx_rb (Fr d Red a k s :: C) Red n
  | cr_black d a k s C c n : ctx_rb C c (S n) -> is_rb s Black n -> ctx_rb (Fr d Black a k s :: C) Black n.

Definition rb (t : tree) : Prop := exists n, is_rb t Red n.

Create HintDb rb.
#[export] Hint Constructors is_rb ctx_rb : rb.

Lemma is_rb_weaken t n : is_rb t Red n -> is_rb t Black n.
Proof. inversion 1; subst; auto with rb. Qed.
#[export] Hint Resolve is_rb_weaken : rb.

Lemma is_rb_strengthen t c n : is_rb t c n -> is_red t = false -> is_rb t Red n.
Proof. inversion 1; subst; simpl; auto with rb; discriminate. Qed.

Lemma nd_red d l a k r n : is_rb l Red n -> is_rb r Red n -> is_rb (nd d Red l a k r) Black n.
Proof. destruct d; unfold nd; auto with rb. Qed.
Lemma nd_black d l a k r c n : is_rb l Black n -> is_rb r Black n -> is_rb (nd d Black l a k r) c (S n).
Proof. destruct d; unfold nd; auto with rb. Qed.
#[export] Hint Resolve nd_red nd_black : rb.

Lemma plug_rb C c n t : ctx_rb C c n -> is_rb t c n -> rb (plug C t).
Proof.
  intros HC. revert t. induction HC; intros t Ht; simpl; [by exists n|..]; apply IHHC; eauto with rb.
Qed.

Lemma nd_rb_inv d c0 x a k y c n : is_rb (nd d c0 x a k y) c n ->
  match c0 with
  | Red => c = Black /\ is_rb x Red n /\ is_rb y Red n
  | Black => exists m, n = S m /\ is_rb x Black m /\ is_rb y Black m
  end.
Proof. destruct d; unfold nd; inversion 1; subst; eauto. Qed.

Lemma plug_rb_inv C t : forall c0 m, is_rb (plug C t) c0 m -> c0 = Red -> exists c n, ctx_rb C c n /\ is_rb t c n.
Proof.
  revert t. induction C as [|[d c a k s] C IH]; intros t c0 m H ->; simpl in H; [eauto with rb|].
  destruct (IH _ _ _ H eq_refl) as (c1 & n & HC & HN). apply nd_rb_inv in HN. destruct c.
  - destruct HN as (-> & ? & ?). eauto with rb.
  - destruct HN as (m' & -> & ? & ?). eauto with rb.
Qed.

Lemma black_rb t c n : is_rb t c n -> exists m, is_rb (black t) Red m /\ (m = n \/ m = S n).
Proof.
  inversion 1; subst; simpl; eexists; (split; [eauto with rb|auto]).
Qed.

Lemma rb_black_root t : rb t -> rb (black t).
Proof. intros [n H]. destruct (black_rb _ _ _ H) as (m & ? & _). by exists m. Qed.

(** Going two levels up from a red node. *)
Lemma ctx_ind2 (P : ctx -> Prop) :
  P [] -> (forall f, P [f]) -> (forall f g C, P C -> P (f :: g :: C)) -> forall C, P C.
Proof. apply list_ind2. Qed.

Lemma rotate_in_rb d1 d2 t p kp s g kg u n c : is_red t = true ->
  is_rb t Black n -> is_rb s Red n -> is_rb u Red n -> is_rb (rotate_in d1 d2 t p kp s g kg u) c (S n).
Proof.
  intros Hr Ht Hs Hu. unfold rotate_in. case_decide as Hd; [eauto with rb|].
  destruct t as [|[] tl x kx tr]; try discriminate. inversion Ht; subst.
  destruct d2; eauto with rb.
Qed.

Lemma ins_fix_rb C : forall c n t, ctx_rb C c n -> is_rb t Black n -> is_red t = true -> rb (black (ins_fix C t)).
Proof.
  induction C as [|f|f g C IH] using ctx_ind2; intros c n t HC Ht Hr.
  - simpl. destruct (black_rb _ _ _ Ht) as (m & ? & _). by exists m.
  - inversion HC as [|? ? ? ? ? ? H|]; subst; [inversion H|]. simpl. apply rb_black_root. exists (S n). eauto with rb.
  - destruct f as [d1 [] p kp s]; inversion HC as [|? ? ? ? ? ? HC1 Hs|? ? ? ? ? ? ? HC1 Hs]; subst.
    + destruct g as [d2 cg g kg u]. inversion HC1 as [| |? ? ? ? ? ? ? HC2 Hu]; subst. simpl.
      destruct (is_red u) eqn:Eu.
      * apply (IH c (S n)); [done| |by destruct d2].
        destruct u as [|[] ul ua uk ur]; try discriminate. inversion Hu; subst. cbn [black]. apply nd_red; eauto with rb.
      * apply rb_black_root. eapply plug_rb; [exact HC2|]. apply rotate_in_rb; auto. by eapply is_rb_strengthen.
    + apply rb_black_root. eapply plug_rb; [exact HC|done].
Qed.

Lemma ins_ctx_plug k t : forall C, plug (ins_ctx k t C) E = plug C t.
Proof.
  induction t as [|c l IHl a' k' r IHr]; intros C; [done|]. cbn [ins_ctx].
  destruct (k <? k'); [rewrite IHl|rewrite IHr]; done.
Qed.

Lemma insert_rb t a k : rb t -> rb (insert t a k).
Proof.
  intros [m H]. destruct t as [|c l a' k' r] eqn:Et; [exists 1%nat; simpl; auto with rb|].
  rewrite <- Et in *. replace (insert t a k) with (black (ins_fix (ins_ctx k t []) (T Red E a k E))) by (by rewrite Et).
  pose proof (ins_ctx_plug k t []) as HP. simpl in HP. rewrite <- HP in H.
  destruct (plug_rb_inv _ _ _ _ H eq_refl) as (c1 & n & HC & HN). inversion HN; subst n.
  eapply ins_fix_rb; [exact HC| |done]. auto with rb.
Qed.

(** ** Deletion keeps the rules *)

(** A tree that lacks one black node, or has a red root that can be made black. *)
Definition deficient (t : tree) (n : nat) : Prop :=
  is_rb t Red n \/ (is_red t = true /\ forall c, is_rb (black t) c (S n)).

Lemma deficient_weak t n : is_rb t Black n -> deficient t n.
Proof.
  intros H. destruct (is_red t) eqn:Er; [|left; by eapply is_rb_strengthen].
  right. split; [done|]. destruct t as [|[]]; try discriminate. inversion H; subst. simpl. eauto with rb.
Qed.

Lemma side_fix_rb d cp t a k w n : is_rb t Red n -> is_rb w Red (S n) ->
  exists o, side_fix d cp t a k w = Some o /\
    match o, cp with
    | inl t', _ => deficient t' (match cp with Red => n | Black => S n end) /\ is_red t' = is_red (T cp E 0 0 E)
    | inr t', Red => is_rb t' Black (S n)
    | inr t', Black => forall c, is_rb t' c (S (S n))
    end.
Proof.
  intros Ht Hw. inversion Hw as [| |wl wa wk wr ? ? Hl Hr]; subst. unfold side_fix.
  set (near := match d with L => wl | R => wr end). set (far := match d with L => wr | R => wl end).
  replace (match d with L => (wl, wr) | R => (wr, wl) end) with (near, far) by (by destruct d).
  assert (Hn : is_rb near Black n) by (by destruct d). assert (Hf : is_rb far Black n) by (by destruct d).
  destruct (is_red far) eqn:Ef.
  { assert (is_rb (black far) Red (S n)).
    { destruct far as [|[]]; try discriminate. inversion Hf; subst. simpl. eauto with rb. }
    eexists. split; [reflexivity|]. destruct cp; intros; [apply nd_red|apply nd_black]; eauto with rb. }
  assert (Hf' : is_rb far Red n) by (by eapply is_rb_strengthen).
  destruct (is_red near) eqn:En.
  - destruct near as [|[] nl na nk nr]; try discriminate. inversion Hn; subst.
    set (ni := match d with L => nl | R => nr end). set (no := match d with L => nr | R => nl end).
    replace (match d with L => (nl, nr) | R => (nr, nl) end) with (ni, no) by (by destruct d).
    assert (is_rb ni Red n) by (by destruct d). assert (is_rb no Red n) by (by destruct d).
    eexists. split; [reflexivity|]. destruct cp; intros; [apply nd_red|apply nd_black]; eauto with rb.
  - assert (is_rb near Red n) by (by eapply is_rb_strengthen).
    assert (HW : is_rb (T Red wl wa wk wr) Black n) by (destruct d; subst near far; eauto with rb).
    exists (inl (nd d cp t a k (T Red wl wa wk wr))). split; [by destruct near as [|[]]|].
    split; [|by destruct d, cp]. destruct cp.
    + right. split; [by destruct d|]. intros c. destruct d; simpl; eauto with rb.
    + left. apply nd_black; eauto with rb.
Qed.

Lemma del_fix_rb C : forall c n t, ctx_rb C c (S n) -> deficient t n ->
  exists t', del_fix C t = Some t' /\ rb t'.
Proof.
  induction C as [|[d cp a k w] C IH]; intros c n t HC Ht; cbn [del_fix].
  { eexists. split; [done|]. destruct Ht as [Ht|[_ Ht]]; [|by exists (S n)]. apply rb_black_root. by exists n. }
  destruct (is_red t) eqn:Er.
  { eexists. split; [done|]. eapply plug_rb; [exact HC|]. destruct Ht as [Ht|[_ Ht]]; [|done].
    destruct t as [|[]]; inversion Ht; discriminate. }
  destruct Ht as [Ht|[? _]]; [|congruence].
  inversion HC as [|? ? ? ? ? ? HC' Hw|? ? ? ? ? c' ? HC' Hw]; subst.
  - destruct (side_fix_rb d Red t a k w n Ht Hw) as (o & Eo & Ho).
    assert (Hw' : is_red w = false) by (inversion Hw; subst; done).
    replace (match w with T Red _ _ _ _ => _ | _ => _ end) with
      (match side_fix d Red t a k w with None => None | Some (inl t') => del_fix C t' | Some (inr t') => Some (black (plug C t')) end)
      by (by destruct w as [|[]]).
    rewrite Eo. destruct o as [t'|t']; [apply (IH Black n); tauto|].
    eexists. split; [done|]. apply rb_black_root. by eapply plug_rb.
  - destruct (is_red w) eqn:Ew.
    + destruct w as [|[] wl wa wk wr]; try discriminate. inversion Hw; subst.
      set (near := match d with L => wl | R => wr end). set (far := match d with L => wr | R => wl end).
      replace (match d with L => (wl, wr) | R => (wr, wl) end) with (near, far) by (by destruct d).
      destruct (side_fix_rb d Red t a k near n Ht) as (o & Eo & Ho); [by destruct d|]. rewrite Eo.
      assert (is_rb far Black (S n)) by (destruct d; subst far; eauto with rb).
      destruct o as [t'|t']; (eexists; split; [done|]); [|apply rb_black_root].
      * destruct Ho as [[Ho|[_ Ho]] Hr]; [destruct t' as [|[]]; inversion Ho; discriminate|].
        eapply plug_rb; [|apply Ho]. eauto with rb.
      * eapply plug_rb; [|exact Ho]. eauto with rb.
    + destruct (side_fix_rb d Black t a k w n Ht) as (o & Eo & Ho); [by eapply is_rb_strengthen|].
      replace (match w with T Red _ _ _ _ => _ | _ => _ end) with
        (match side_fix d Black t a k w with None => None | Some (inl t') => del_fix C t' | Some (inr t') => Some (black (plug C t')) end)
        by (by destruct w as [|[]]).
      rewrite Eo. destruct o as [t'|t']; [apply (IH c' (S n)); tauto|].
      eexists. split; [done|]. apply rb_black_root. by eapply plug_rb.
Qed.

Lemma plug_app D C t : plug (D ++ C) t = plug C (plug D t).
Proof. revert t. induction D as [|[] D IH]; intros t; simpl; auto. Qed.

Lemma ctx_rb_rename D C d c a k s a' k' : forall c1 n,
  ctx_rb (D ++ Fr d c a k s :: C) c1 n -> ctx_rb (D ++ Fr d c a' k' s :: C) c1 n.
Proof.
  induction D as [|f D IH]; intros c1 n H; simpl in *; inversion H; subst; eauto with rb.
Qed.

(** The minimum of [t], below a path of left turns. *)
Lemma min_split_spec t D : t <> E ->
  exists D' c a k r, min_split t D = Some (D' ++ D, (c, a, k, r)) /\ t = plug D' (T c E a k r) /\ before D' = [].
Proof.
  revert D. induction t as [|c l IH a k r _]; intros D Hne; [done|].
  destruct l as [|cl ll la lk lr] eqn:El.
  - by exists [], c, a, k, r.
  - rewrite <- El in *. destruct (IH (Fr L c a k r :: D)) as (D' & c' & a' & k' & r' & E1 & E2 & E3); [by rewrite El|].
    exists (D' ++ [Fr L c a k r]), c', a', k', r'.
    replace (min_split (T c l a k r) D) with (min_split l (Fr L c a k r :: D)) by (by rewrite El).
    rewrite E1, <- app_assoc. split; [done|]. rewrite plug_app, <- E2. split; [done|].
    clear -E3. induction D' as [|[[] ? ? ? ?] D' IHD]; simpl in *; auto. by apply app_nil in E3 as [_ [_ ?]%app_nil].
Qed.

Lemma del_finish_rb C c x a k y t c1 n :
  ctx_rb C c1 n -> is_rb (T c x a k y) c1 n -> (x = E /\ t = y \/ y = E /\ t = x) ->
  exists t', del_finish C c t = Some t' /\ rb t'.
Proof.
  intros HC HT Hxy. assert (Ht : match c with Red => is_rb t c1 n | Black => exists m, n = S m /\ is_rb t Black m end).
  { inversion HT; subst; destruct Hxy as [[-> ->]|[-> ->]]; eauto with rb. }
  destruct C as [|f C]; [|destruct c]; cbn [del_finish].
  - eexists. split; [done|]. inversion HC; subst. destruct c; [inversion HT|].
    destruct Ht as (m & -> & Ht). destruct (black_rb _ _ _ Ht) as (m' & ? & _). by exists m'.
  - eexists. split; [done|]. by eapply plug_rb.
  - destruct Ht as (m & -> & Ht). eapply del_fix_rb; [exact HC|by apply deficient_weak].
Qed.

Lemma del_node_rb C c l a k r :
  rb (plug C (T c l a k r)) -> exists t', del_node C c l r = Some t' /\ rb t'.
Proof.
  intros [m H]. destruct (plug_rb_inv _ _ _ _ H eq_refl) as (c1 & n & HC & HN).
  destruct (decide (l = E \/ r = E)) as [Hlr|Hlr].
  - assert (Hd : exists t, del_node C c l r = del_finish C c t /\ (l = E /\ t = r \/ r = E /\ t = l)).
    { destruct l; [by eauto|]. destruct r; [|destruct Hlr; done]. eauto. }
    destruct Hd as (t & -> & Ht). by eapply del_finish_rb.
  - destruct (min_split_spec r []) as (D & cy & ya & yk & yr & E1 & E2 & _); [tauto|]. rewrite app_nil_r in E1.
    assert (Hd : del_node C c l r = del_finish (D ++ Fr R c ya yk l :: C) cy yr).
    { unfold del_node. rewrite E1. destruct l; [tauto|]. destruct r; [tauto|done]. }
    rewrite Hd. rewrite E2 in H. change (T c l a k (plug D _)) with (nd R c (plug D (T cy E ya yk yr)) a k l) in H.
    change (plug C (nd R c ?t a k l)) with (plug (Fr R c a k l :: C) t) in H. rewrite <- plug_app in H.
    destruct (plug_rb_inv _ _ _ _ H eq_refl) as (c2 & n2 & HC2 & HN2).
    eapply del_finish_rb; [by eapply ctx_rb_rename|exact HN2|by left].
Qed.

(** ** The order of the elements *)

Lemma nd_elts d c x a k y : elts (nd d c x a k y) =
  match d with L => elts x ++ (a, k) :: elts y | R => elts y ++ (a, k) :: elts x end.
Proof. by destruct d. Qed.

Lemma black_elts t : elts (black t) = elts t.
Proof. by destruct t. Qed.

Lemma plug_elts C t : elts (plug C t) = before C ++ elts t ++ after C.
Proof.
  revert t. induction C as [|[[] c a k s] C IH]; intros t; simpl; [by rewrite app_nil_r|..];
    rewrite IH, nd_elts, <- ?app_assoc; simpl; by rewrite <- ?app_assoc.
Qed.

Ltac list_norm := simpl; rewrite ?plug_elts, ?black_elts, ?nd_elts; simpl; rewrite <- ?app_assoc; simpl;
  rewrite <- ?app_assoc; simpl; rewrite <- ?app_assoc; try done.

Lemma rotate_in_elts d1 d2 t p kp s g kg u : is_red t = true ->
  elts (rotate_in d1 d2 t p kp s g kg u) = elts (nd d2 Black (nd d1 Red t p kp s) g kg u).
Proof.
  intros Hr. unfold rotate_in. destruct t as [|c tl x kx tr]; [done|].
  destruct d1, d2; simpl; unfold nd; simpl; rewrite <- ?app_assoc; simpl; rewrite <- ?app_assoc; done.
Qed.

Lemma ins_fix_elts C : forall t, is_red t = true -> elts (ins_fix C t) = before C ++ elts t ++ after C.
Proof.
  induction C as [|f|f g C IH] using ctx_ind2; intros t Hr.
  - simpl. by rewrite app_nil_r.
  - destruct f as [d [] a k s]; cbn [ins_fix]; apply plug_elts.
  - destruct f as [d1 [] p kp s], g as [d2 cg g kg u]; cbn [ins_fix]; [|apply plug_elts].
    destruct (is_red u).
    + rewrite IH by (by destruct d2). destruct d1, d2; list_norm.
    + rewrite plug_elts, rotate_in_elts by done. destruct d1, d2; list_norm.
Qed.

Lemma side_fix_elts d cp t a k w o : side_fix d cp t a k w = Some o ->
  elts (match o with inl t' | inr t' => t' end) = elts (nd d cp t a k w).
Proof.
  destruct w as [|cw wl wa wk wr]; [done|]. unfold side_fix.
  destruct d; [destruct (is_red wr), wl as [|[] ? ? ? ?]|destruct (is_red wl), wr as [|[] ? ? ? ?]];
    intros [= <-]; list_norm.
Qed.

Lemma del_fix_elts C : forall t t', del_fix C t = Some t' -> elts t' = before C ++ elts t ++ after C.
Proof.
  induction C as [|[d cp a k w] C IH]; intros t t' H; cbn [del_fix] in H.
  { injection H as <-. list_norm. by rewrite app_nil_r. }
  destruct (is_red t); [injection H as <-; rewrite plug_elts, nd_elts, black_elts; destruct d; list_norm|].
  assert (HB : forall o, side_fix d cp t a k w = Some o ->
    match o with inl t1 => del_fix C t1 | inr t1 => Some (black (plug C t1)) end = Some t' ->
    elts t' = before (Fr d cp a k w :: C) ++ elts t ++ after (Fr d cp a k w :: C)).
  { intros o Eo%side_fix_elts Ho. destruct o as [t1|t1]; [apply IH in Ho; rewrite Ho, Eo|injection Ho as <-];
      [|rewrite black_elts, plug_elts, Eo]; destruct d; list_norm. }
  destruct w as [|[] wl wa wk wr]; [done| |].
  - destruct d; cbn [fst snd] in H.
    + destruct (side_fix L Red t a k wl) as [[t1|t1]|] eqn:Eo; [..|done]; injection H as <-; apply side_fix_elts in Eo;
        rewrite ?black_elts, ?plug_elts, ?nd_elts, ?black_elts, Eo; list_norm.
    + destruct (side_fix R Red t a k wr) as [[t1|t1]|] eqn:Eo; [..|done]; injection H as <-; apply side_fix_elts in Eo;
        rewrite ?black_elts, ?plug_elts, ?nd_elts, ?black_elts, Eo; list_norm.
  - destruct (side_fix d cp t a k (T Black wl wa wk wr)) as [o|] eqn:Eo; [|done]. apply (HB o eq_refl). by destruct o.
Qed.

Lemma del_finish_elts C c t t' : del_finish C c t = Some t' -> elts t' = before C ++ elts t ++ after C.
Proof.
  unfold del_finish. destruct C as [|f C]; [intros [= <-]; list_norm; by rewrite app_nil_r|].
  destruct c; [intros [= <-]; apply (plug_elts (f :: C))|apply del_fix_elts].
Qed.

Lemma before_app D C : before (D ++ C) = before C ++ before D.
Proof. induction D as [|[[] ? ? ? ?] D IH]; simpl; rewrite ?IH, ?app_nil_r, <- ?app_assoc; done. Qed.
Lemma after_app D C : after (D ++ C) = after D ++ after C.
Proof. induction D as [|[[] ? ? ? ?] D IH]; simpl; rewrite ?IH, <- ?app_assoc; done. Qed.

Lemma del_node_elts C c l r t' : del_node C c l r = Some t' -> elts t' = before C ++ (elts l ++ elts r) ++ after C.
Proof.
  unfold del_node. destruct l as [|cl ll la lk lr] eqn:El; [apply del_finish_elts|].
  destruct r as [|cr rl ra rk rr] eqn:Er; [intros H%del_finish_elts; by rewrite H, app_nil_r|]. rewrite <- El, <- Er.
  destruct (min_split_spec r []) as (D & cy & ya & yk & yr & E1 & E2 & E3); [by rewrite Er|].
  rewrite E1, app_nil_r. intros H%del_finish_elts. rewrite H, before_app, after_app, E2, plug_elts, E3. simpl.
  rewrite app_nil_r, <- !app_assoc. simpl. by rewrite <- !app_assoc.
Qed.

(** ** Ordered insertion *)

Definition sorted (xs : list (Z * Z)) : Prop := StronglySorted (fun x y => snd x <= snd y) xs.

(** After the elements with the same key. *)
Fixpoint ins_list (a k : Z) (xs : list (Z * Z)) : list (Z * Z) :=
  match xs with
  | [] => [(a, k)]
  | x :: xs' => if k <? snd x then (a, k) :: xs else x :: ins_list a k xs'
  end.

Lemma ins_list_split a k xs ys :
  Forall (fun x => snd x <= k) xs -> Forall (fun x => k < snd x) ys -> ins_list a k (xs ++ ys) = xs ++ (a, k) :: ys.
Proof.
  intros Hx Hy. induction Hx as [|x xs Hx _ IH]; simpl.
  - destruct Hy as [|y ys Hy _]; simpl; [done|]. by rewrite (proj2 (Z.ltb_lt _ _) Hy).
  - rewrite (proj2 (Z.ltb_ge _ _)) by done. by rewrite IH.
Qed.

Lemma ins_list_perm a k xs : ins_list a k xs ≡ₚ (a, k) :: xs.
Proof.
  induction xs as [|x xs IH]; simpl; [done|]. destruct (k <? snd x); [done|]. rewrite IH. apply Permutation_swap.
Qed.

Lemma ins_list_sorted a k xs : sorted xs -> sorted (ins_list a k xs).
Proof.
  unfold sorted. induction 1 as [|x xs Hs IH Hx]; simpl; [repeat constructor|].
  destruct (Z.ltb_spec k (snd x)) as [Hk|Hk]; constructor; auto.
  - by constructor.
  - constructor; simpl; [lia|]. eapply Forall_impl; [exact Hx|]. simpl. lia.
  - rewrite ins_list_perm. by constructor.
Qed.

Lemma sorted_mid xs x ys : sorted (xs ++ x :: ys) ->
  Forall (fun y => snd y <= snd x) xs /\ Forall (fun y => snd x <= snd y) ys.
Proof.
  unfold sorted. induction xs as [|y xs IH]; simpl; inversion 1 as [|? ? Hs Hx]; subst; [by auto|].
  destruct (IH Hs) as [H1 H2]. split; [|done]. constructor; [|done]. rewrite Forall_forall in Hx. apply Hx. rewrite elem_of_app, elem_of_cons; auto.
Qed.

Lemma ins_ctx_bounds k t : forall C, sorted (before C ++ elts t ++ after C) ->
  Forall (fun x => snd x <= k) (before C) -> Forall (fun x => k < snd x) (after C) ->
  Forall (fun x => snd x <= k) (before (ins_ctx k t C)) /\ Forall (fun x => k < snd x) (after (ins_ctx k t C)).
Proof.
  induction t as [|c l IHl a' k' r IHr]; intros C HS HB HA; [done|]. cbn [ins_ctx elts] in *.
  rewrite <- app_assoc in HS. rewrite app_assoc in HS. destruct (sorted_mid _ _ _ HS) as [H1 H2].
  rewrite Forall_app in H1. destruct H1 as [_ H1]. rewrite Forall_app in H2. destruct H2 as [H2 _]. simpl in H1, H2.
  destruct (Z.ltb_spec k k') as [Hk|Hk]; [apply IHl|apply IHr]; simpl; try done.
  - by rewrite app_assoc.
  - constructor; [done|]. rewrite Forall_app. split; [|done]. eapply Forall_impl; [exact H2|]. simpl. lia.
  - by rewrite <- !app_assoc in *.
  - rewrite !Forall_app. split_and!; [done| |by repeat constructor]. eapply Forall_impl; [exact H1|]. simpl. lia.
Qed.

Lemma insert_elts t a k : sorted (elts t) -> elts (insert t a k) = ins_list a k (elts t).
Proof.
  intros HS. destruct t as [|c l a' k' r] eqn:Et; [done|]. rewrite <- Et in *.
  replace (insert t a k) with (black (ins_fix (ins_ctx k t []) (T Red E a k E))) by (by rewrite Et).
  rewrite black_elts, ins_fix_elts by done.
  pose proof (ins_ctx_plug k t []) as HP. simpl in HP.
  apply (f_equal elts) in HP. rewrite plug_elts in HP. simpl in HP |- *. rewrite <- HP.
  destruct (ins_ctx_bounds k t []) as [H1 H2]; [by simpl; rewrite app_nil_r|done|done|].
  by rewrite ins_list_split.
Qed.

(** ** Height *)

Fixpoint height (t : tree) : nat := match t with E => 0 | T _ l _ _ r => S (Nat.max (height l) (height r)) end.

Lemma is_rb_bounds t c n : is_rb t c n ->
  (height t <= 2 * n + (if is_red t then 1 else 0) /\ 2 ^ n <= S (length (elts t)))%nat.
Proof.
  induction 1 as [c|l a k r n Hl [IHl1 IHl2] Hr [IHr1 IHr2]|l a k r c n Hl [IHl1 IHl2] Hr [IHr1 IHr2]];
    simpl; rewrite ?length_app; simpl.
  - lia.
  - assert (is_red l = false) as El by (by inversion Hl). assert (is_red r = false) as Er by (by inversion Hr).
    rewrite El in IHl1. rewrite Er in IHr1. lia.
  - destruct (is_red l), (is_red r); lia.
Qed.

(** A valid tree of [n] elements is at most [2 log2 (n + 1)] high. *)
Lemma rb_height t : rb t -> (height t <= 2 * Nat.log2 (S (length (elts t))))%nat.
Proof.
  intros [n H]. assert (Hr : is_red t = false) by (by inversion H).
  destruct (is_rb_bounds _ _ _ H) as [H1 H2]. rewrite Hr in H1.
  apply Nat.log2_le_mono in H2. rewrite Nat.log2_pow2 in H2 by lia. lia.
Qed.

End RbSpec.
