(* ===== verification/RbLogic.v ===== *)
(** * Red-black trees in memory, and rotations

    [tree_at t p]: the nodes of [t] are in the store, with the parent pointer
    [p] at its root; [ctx_at C x p]: the nodes of a path whose hole holds the
    node [x].  Both are assertions of HeapLogic.v; the parent pointer of the
    root of the whole tree is arbitrary, as in the code. *)

From Stdlib Require Import ZArith Lia.
From stdpp Require Import base numbers gmap option list sorting.
From iris.proofmode Require Import proofmode environments.
From iris.base_logic.lib Require Import own ghost_map.
From S2P Require Import Prelude HeapLogic Rbtree RbSpec.

Module RbLogic.
Import Rbtree RbSpec.

Definition col (c : colour) : Z := match c with Red => RBTREE_COLOR_RED | Black => RBTREE_COLOR_BLACK end.

(** The node with [x] on side [d]. *)
Definition mk (d : side) (k x y p c dd : Z) : rbtree_node_t :=
  match d with L => Node k x y p c dd | R => Node k y x p c dd end.

Fixpoint top (C : ctx) (x : Z) : Z := match C with [] => x | Fr _ _ a _ _ :: C' => top C' a end.

Definition colour_of (t : tree) : colour := match t with E => Black | T c _ _ _ _ => c end.

Ltac wp_eval t ::=
  let t' := eval cbn [key left right parent color data mk col colour_of] in t in
  let t'' := eval cbv delta [RBTREE_COLOR_RED RBTREE_COLOR_BLACK] in t' in
  constr:(t'').

Ltac wp_eval_node n ::=
  let n' := eval cbv beta delta [with_key with_left with_right with_parent with_color] in n in wp_eval n'.

Ltac unfold_ops :=
  unfold set_key, set_left, set_right, set_parent, root, set_root, rbtree_red, rbtree_black,
    rbtree_is_red, rbtree_is_black, rbtree_copy_color.

Section refine.

Context `{!ghost_mapG Σ Z rbtree_node_t} (γ : gname) (sent : Z).

Definition ad (t : tree) : Z := match t with E => sent | T _ _ a _ _ => a end.

Fixpoint tree_at (t : tree) (p : Z) : iProp Σ :=
  match t with
  | E => True
  | T c l a k r => ⌜a <> sent⌝ ∗ ∃ dd, a ↪[γ] Node k (ad l) (ad r) p (col c) dd ∗ tree_at l a ∗ tree_at r a
  end.

Fixpoint ctx_at (C : ctx) (x p : Z) : iProp Σ :=
  match C with
  | [] => True
  | Fr d c a k s :: C' =>
      ⌜p = a /\ a <> sent⌝ ∗ ∃ pp dd, a ↪[γ] mk d k x (ad s) pp (col c) dd ∗ tree_at s a ∗ ctx_at C' a pp
  end.

Definition sentinel_at (p : Z) : iProp Σ := ∃ k l r dd, sent ↪[γ] Node k l r p RBTREE_COLOR_BLACK dd.

Lemma tree_at_E p : tree_at E p ⊣⊢ True.
Proof. done. Qed.
Lemma tree_at_T c l a k r p : tree_at (T c l a k r) p ⊣⊢
  ⌜a <> sent⌝ ∗ ∃ dd, a ↪[γ] Node k (ad l) (ad r) p (col c) dd ∗ tree_at l a ∗ tree_at r a.
Proof. done. Qed.
Lemma ctx_at_cons d c a k s C x p : ctx_at (Fr d c a k s :: C) x p ⊣⊢
  ⌜p = a /\ a <> sent⌝ ∗ ∃ pp dd, a ↪[γ] mk d k x (ad s) pp (col c) dd ∗ tree_at s a ∗ ctx_at C a pp.
Proof. done. Qed.

(** ** Paths *)

Lemma nd_ad d c x a k y : ad (nd d c x a k y) = a.
Proof. by destruct d. Qed.

Lemma nd_at d c x a k y p : tree_at (nd d c x a k y) p ⊣⊢
  ⌜a <> sent⌝ ∗ ∃ dd, a ↪[γ] mk d k (ad x) (ad y) p (col c) dd ∗ tree_at x a ∗ tree_at y a.
Proof. destruct d; cbn; [done|]. iSplit; iIntros "($ & %dd & $ & $ & $)". Qed.

Lemma nd_intro d c x a k y p dd : a <> sent ->
  a ↪[γ] mk d k (ad x) (ad y) p (col c) dd -∗ tree_at x a -∗ tree_at y a -∗ tree_at (nd d c x a k y) p.
Proof. iIntros (Ha) "Ha Hx Hy". rewrite nd_at. by iFrame. Qed.
Lemma T_intro c l a k r p dd : a <> sent ->
  a ↪[γ] Node k (ad l) (ad r) p (col c) dd -∗ tree_at l a -∗ tree_at r a -∗ tree_at (T c l a k r) p.
Proof. iIntros (Ha) "Ha Hl Hr". rewrite tree_at_T. by iFrame. Qed.

Lemma plug_ad C t : ad (plug C t) = top C (ad t).
Proof. revert t. induction C as [|[d c a k s] C IH]; intros t; [done|]. cbn. by rewrite IH nd_ad. Qed.

Lemma focus C t p0 : tree_at (plug C t) p0 ⊢ ∃ p, tree_at t p ∗ ctx_at C (ad t) p.
Proof.
  revert t. induction C as [|[d c a k s] C IH]; intros t; cbn; [by iIntros "$"|].
  rewrite IH. iIntros "(%p & Ht & HC)". rewrite nd_at nd_ad. iDestruct "Ht" as "(%Ha & %dd & Ha & Ht & Hs)".
  iExists a. by iFrame.
Qed.

Lemma unfocus C t p : tree_at t p ∗ ctx_at C (ad t) p ⊢ ∃ p0, tree_at (plug C t) p0.
Proof.
  revert t p. induction C as [|[d c a k s] C IH]; intros t p; cbn; [by iIntros "[$ _]"|].
  iIntros "(Ht & [-> %Ha] & %pp & %dd & Ha & Hs & HC)". iApply (IH _ pp). rewrite nd_at nd_ad. by iFrame.
Qed.

Lemma tree_ne t p a n : tree_at t p -∗ a ↪[γ] n -∗ ⌜a <> sent -> ad t <> a⌝.
Proof.
  iIntros "Ht Ha". destruct t as [|c l b k r]; cbn; [by iPureIntro; intros ? ->|].
  iDestruct "Ht" as "(_ & %dd & Hb & _)". iDestruct (ghost_map_elem_ne with "Hb Ha") as %?. by iPureIntro.
Qed.

Lemma tree_not_sent t p : tree_at t p -∗ ⌜t <> E -> ad t <> sent⌝.
Proof. iIntros "Ht". destruct t as [|c l a k r]; [done|]. cbn. by iDestruct "Ht" as "[% _]". Qed.

Lemma ctx_ne C x p a n : ctx_at C x p -∗ a ↪[γ] n -∗ ⌜C <> [] -> top C x <> a⌝.
Proof.
  iIntros "HC Ha". iInduction C as [|[d c b k s] C] "IH" forall (x p); cbn; [done|].
  iDestruct "HC" as "([-> %] & %pp & %dd & Hb & _ & HC)". destruct C as [|f C].
  - iDestruct (ghost_map_elem_ne with "Hb Ha") as %?. by iPureIntro.
  - iDestruct ("IH" with "HC Ha") as %Hn. iPureIntro. intros _. by apply Hn.
Qed.

Lemma ctx_top_not_sent C x p : ctx_at C x p -∗ ⌜C <> [] -> top C x <> sent⌝.
Proof.
  iIntros "HC". iInduction C as [|[d c b k s] C] "IH" forall (x p); cbn; [done|].
  iDestruct "HC" as "([-> %] & %pp & %dd & Hb & _ & HC)". destruct C as [|f C]; [by iPureIntro|].
  iDestruct ("IH" with "HC") as %Hn. iPureIntro. intros _. by apply Hn.
Qed.

(** ** Rotations *)

Opaque tree_at ctx_at.

(** [if (tl != sentinel) tl->parent = node] *)
Lemma wp_reparent {B} b a2 a (k : unit -> RB B) rt Φ :
  tree_at b a2 -∗ (tree_at b a -∗ wp γ (k tt) rt Φ) -∗
  wp γ ((if ad b =? sent then mret tt else set_parent (ad b) a) ≫= k) rt Φ.
Proof.
  iIntros "Hb H". destruct b as [|c l b' kb r]; cbn [ad].
  - rewrite Z.eqb_refl. wp_run. by iApply "H".
  - rewrite tree_at_T. iDestruct "Hb" as "(%Hb & %dd & Hb & Hl & Hr)". rewrite (proj2 (Z.eqb_neq _ _) Hb). unfold_ops. wp_run.
    iApply "H". rewrite tree_at_T. by iFrame.
Qed.

(** [node]'s place below its parent is given to [temp]; the code asks first
    whether it is the left child, or first whether it is the right one. *)
Definition replace_child (first : side) (node temp r : Z) : RB unit :=
  if node =? r then set_root temp
  else np ← ld parent node;
       match first with
       | L => npl ← ld left np;
              if node =? npl then np ← ld parent node; set_left np temp
              else np ← ld parent node; set_right np temp
       | R => npr ← ld right np;
              if node =? npr then np ← ld parent node; set_right np temp
              else np ← ld parent node; set_left np temp
       end.

Lemma wp_replace_child {B} first a n temp C (k : unit -> RB B) rt Φ :
  a <> sent -> rt = top C a ->
  a ↪[γ] n -∗ ctx_at C a (parent n) -∗
  (a ↪[γ] n -∗ ctx_at C temp (parent n) -∗ wp γ (k tt) (top C temp) Φ) -∗
  wp γ (r ← root; replace_child first a temp r ≫= k) rt Φ.
Proof.
  iIntros (Ha ->) "Ha HC H". unfold replace_child. unfold_ops. iDestruct (ctx_ne with "HC Ha") as %Hne.
  destruct C as [|[d c b kb s] C]; cbn [top].
  { wp_run. by iApply ("H" with "[$]"). }
  rewrite !ctx_at_cons. iDestruct "HC" as "([%Hp %Hb] & %pp & %dd & Hb & Hs & HC)".
  iDestruct (tree_ne with "Hs Ha") as %Hs. specialize (Hs Ha). specialize (Hne ltac:(done)). cbn [top] in Hne.
  destruct n as [nk nl nr np nc ndata]. cbn [parent] in Hp. subst np.
  destruct first, d; wp_run; iApply ("H" with "[$]"); by iFrame.
Qed.

Lemma wp_left_rotate a k l p c da a2 k2 b r2 q c2 d2 C rt Φ :
  a <> sent -> a2 <> sent -> rt = top C a ->
  a ↪[γ] Node k l a2 p c da -∗ a2 ↪[γ] Node k2 (ad b) r2 q c2 d2 -∗ tree_at b a2 -∗ ctx_at C a p -∗
  (a ↪[γ] Node k l (ad b) a2 c da -∗ a2 ↪[γ] Node k2 a r2 p c2 d2 -∗ tree_at b a -∗ ctx_at C a2 p -∗ Φ tt (top C a2)) -∗
  wp γ (rbtree_left_rotate sent a) rt Φ.
Proof.
  iIntros (Ha Ha2 Hrt) "Ha Ha2 Hb HC H". unfold rbtree_left_rotate. unfold_ops. wp_run.
  iApply (wp_reparent with "Hb"). iIntros "Hb". wp_run.
  iApply (wp_replace_child L with "Ha HC"); [done..|]. iIntros "Ha HC". wp_run. iApply ("H" with "[$] [$] [$] [$]").
Qed.

Lemma wp_right_rotate a k r p c da a2 k2 l2 b q c2 d2 C rt Φ :
  a <> sent -> a2 <> sent -> rt = top C a ->
  a ↪[γ] Node k a2 r p c da -∗ a2 ↪[γ] Node k2 l2 (ad b) q c2 d2 -∗ tree_at b a2 -∗ ctx_at C a p -∗
  (a ↪[γ] Node k (ad b) r a2 c da -∗ a2 ↪[γ] Node k2 l2 a p c2 d2 -∗ tree_at b a -∗ ctx_at C a2 p -∗ Φ tt (top C a2)) -∗
  wp γ (rbtree_right_rotate sent a) rt Φ.
Proof.
  iIntros (Ha Ha2 Hrt) "Ha Ha2 Hb HC H". unfold rbtree_right_rotate. unfold_ops. wp_run.
  iApply (wp_reparent with "Hb"). iIntros "Hb". wp_run.
  iApply (wp_replace_child R with "Ha HC"); [done..|]. iIntros "Ha HC". wp_run. iApply ("H" with "[$] [$] [$] [$]").
Qed.

(** The same, followed by another computation. *)
Lemma wp_left_rotate_k {B} a k l p c da a2 k2 b r2 q c2 d2 C (K : unit -> RB B) rt Φ :
  a <> sent -> a2 <> sent -> rt = top C a ->
  a ↪[γ] Node k l a2 p c da -∗ a2 ↪[γ] Node k2 (ad b) r2 q c2 d2 -∗ tree_at b a2 -∗ ctx_at C a p -∗
  (a ↪[γ] Node k l (ad b) a2 c da -∗ a2 ↪[γ] Node k2 a r2 p c2 d2 -∗ tree_at b a -∗ ctx_at C a2 p -∗
     wp γ (K tt) (top C a2) Φ) -∗
  wp γ (rbtree_left_rotate sent a ≫= K) rt Φ.
Proof. iIntros (Ha Ha2 ->) "Ha Ha2 Hb HC H". iApply wp_bind. by iApply (wp_left_rotate with "Ha Ha2 Hb HC"). Qed.

Lemma wp_right_rotate_k {B} a k r p c da a2 k2 l2 b q c2 d2 C (K : unit -> RB B) rt Φ :
  a <> sent -> a2 <> sent -> rt = top C a ->
  a ↪[γ] Node k a2 r p c da -∗ a2 ↪[γ] Node k2 l2 (ad b) q c2 d2 -∗ tree_at b a2 -∗ ctx_at C a p -∗
  (a ↪[γ] Node k (ad b) r a2 c da -∗ a2 ↪[γ] Node k2 l2 a p c2 d2 -∗ tree_at b a -∗ ctx_at C a2 p -∗
     wp γ (K tt) (top C a2) Φ) -∗
  wp γ (rbtree_right_rotate sent a ≫= K) rt Φ.
Proof. iIntros (Ha Ha2 ->) "Ha Ha2 Hb HC H". iApply wp_bind. by iApply (wp_right_rotate with "Ha Ha2 Hb HC"). Qed.

(** The colour of the root of a subtree. *)
Lemma wp_ld_colour {B} t p q (k : Z -> RB B) rt Φ :
  tree_at t p -∗ sentinel_at q -∗ (tree_at t p -∗ sentinel_at q -∗ wp γ (k (col (colour_of t))) rt Φ) -∗
  wp γ (ld color (ad t) ≫= k) rt Φ.
Proof.
  iIntros "Ht (%sk & %sl & %sr & %sd & Hs) H". destruct t as [|c l a kk r]; cbn [ad].
  - wp_step. iApply ("H" with "Ht"). iExists _, _, _, _. iFrame.
  - rewrite tree_at_T. iDestruct "Ht" as "(%Ha & %dd & Ha & Hl & Hr)". wp_step.
    iApply ("H" with "[Ha Hl Hr]"); [by iFrame|]. iExists _, _, _, _. iFrame.
Qed.

Lemma wp_black {B} t p q (k : unit -> RB B) rt Φ :
  tree_at t p -∗ sentinel_at q -∗ (tree_at (black t) p -∗ sentinel_at q -∗ wp γ (k tt) rt Φ) -∗
  wp γ (rbtree_black (ad t) ≫= k) rt Φ.
Proof.
  iIntros "Ht (%sk & %sl & %sr & %sd & Hs) H". unfold_ops. destruct t as [|c l a kk r]; cbn [ad].
  - wp_step. iApply ("H" with "Ht"). iExists _, _, _, _. iFrame.
  - rewrite tree_at_T. iDestruct "Ht" as "(%Ha & %dd & Ha & Hl & Hr)". wp_step.
    iApply ("H" with "[Ha Hl Hr]"); [|iExists _, _, _, _; iFrame]. iApply (T_intro with "[Ha] Hl Hr"); [done|iExact "Ha"].
Qed.

Lemma black_ad t : ad (black t) = ad t.
Proof. by destruct t. Qed.

Lemma not_red_colour t : is_red t = false -> colour_of t = Black.
Proof. by destruct t as [|[]]. Qed.

End refine.

#[global] Opaque tree_at ctx_at.
#[global] Arguments tree_at_T {Σ _ γ sent}.
#[global] Arguments wp_left_rotate_k {Σ _ γ sent B}.
#[global] Arguments wp_right_rotate_k {Σ _ γ sent B}.

End RbLogic.
