(* ===== verification/RbInsert.v ===== *)
(** * Insertion: the code computes [RbSpec.insert] *)

From Stdlib Require Import ZArith Lia.
From stdpp Require Import base numbers gmap option list sorting.
From iris.proofmode Require Import proofmode environments.
From iris.base_logic.lib Require Import own ghost_map.
From S2P Require Import Prelude HeapLogic Rbtree RbSpec RbLogic.

Module RbInsert.
Import Rbtree RbSpec RbLogic.

Section insert.

Context `{!ghost_mapG Σ Z rbtree_node_t} (γ : gname) (sent : Z).

Local Notation ad := (RbLogic.ad sent).
Local Notation tree_at := (RbLogic.tree_at γ sent).
Local Notation ctx_at := (RbLogic.ctx_at γ sent).
Local Notation sentinel_at := (RbLogic.sentinel_at γ sent).

(** The loop ends at a node whose parent is black. *)
Lemma wp_insert_exit fuel x y n m rt Φ : parent n = y -> color m = RBTREE_COLOR_BLACK ->
  x ↪[γ] n -∗ y ↪[γ] m -∗ (x ↪[γ] n -∗ y ↪[γ] m -∗ Φ tt rt) -∗ wp γ (insert_loop (S fuel) sent x) rt Φ.
Proof.
  iIntros (Hn Hm) "Hx Hy H". destruct n, m. cbn in Hn, Hm. subst. cbn [insert_loop]. unfold_ops. wp_run.
  destruct (Z.eqb_spec x rt) as [->|Hne]; wp_run; by iApply ("H" with "[$] [$]").
Qed.

(** The root is black. *)
Fixpoint top_black (C : ctx) : bool :=
  match C with [] => true | [f] => bool_decide (f_colour f = Black) | _ :: C' => top_black C' end.

(** The focus, its parent and its grandparent, as nodes. *)
Lemma open_focus c l a k r d1 p kp s d2 cg g kg u C p1 :
  tree_at (T c l a k r) p1 -∗ ctx_at (Fr d1 Red p kp s :: Fr d2 cg g kg u :: C) a p1 -∗
  ∃ pp da dp dg, ⌜p1 = p /\ a <> sent /\ p <> sent /\ g <> sent /\ ad s <> a /\ ad u <> p /\
      top (Fr d1 Red p kp s :: Fr d2 cg g kg u :: C) a <> a⌝ ∗
    a ↪[γ] Node k (ad l) (ad r) p (col c) da ∗ tree_at l a ∗ tree_at r a ∗
    p ↪[γ] mk d1 kp a (ad s) g (col Red) dp ∗ tree_at s p ∗
    g ↪[γ] mk d2 kg p (ad u) pp (col cg) dg ∗ tree_at u g ∗ ctx_at C g pp.
Proof.
  iIntros "Ht HC". rewrite tree_at_T. iDestruct "Ht" as "(%Ha & %da & Ha & Hl & Hr)".
  iDestruct (ctx_ne with "HC Ha") as %Htop. rewrite ctx_at_cons.
  iDestruct "HC" as "([-> %Hp] & %p2 & %dp & Hp & Hs & HC)". rewrite ctx_at_cons.
  iDestruct "HC" as "([-> %Hg] & %pp & %dg & Hg & Hu & HC)".
  iDestruct (tree_ne with "Hs Ha") as %Hsa. iDestruct (tree_ne with "Hu Hp") as %Hup.
  iExists pp, da, dp, dg. iFrame. iPureIntro. split_and!; auto.
Qed.

Lemma wp_insert_recolour fuel l a k r d1 p kp s d2 cg g kg ul ua uk ur C p1 q rt Φ :
  rt = top C g ->
  tree_at (T Red l a k r) p1 -∗ ctx_at (Fr d1 Red p kp s :: Fr d2 cg g kg (T Red ul ua uk ur) :: C) a p1 -∗
  sentinel_at q -∗
  (∀ pp, tree_at (nd d2 Red (nd d1 Black (T Red l a k r) p kp s) g kg (T Black ul ua uk ur)) pp -∗
     ctx_at C g pp -∗ sentinel_at q -∗ wp γ (insert_loop fuel sent g) rt Φ) -∗
  wp γ (insert_loop (S fuel) sent a) rt Φ.
Proof.
  iIntros (Hrt) "Ht HC Hq H". iDestruct (open_focus with "Ht HC") as (pp da dp dg)
    "((-> & %Ha & %Hp & %Hg & %Hsa & %Hup & %Htop) & Ha & Hl & Hr & Hp & Hs & Hg & Hu & HC)".
  rewrite (tree_at_T Red ul). iDestruct "Hu" as "(%Hua & %du & Hu & Hul & Hur)". cbn [top RbLogic.ad] in Htop, Hup.
  cbn [insert_loop]. unfold_ops. destruct d1, d2; cbn [mk RbLogic.ad]; wp_run;
    iApply ("H" with "[-HC Hq] HC Hq").
  all: iApply (nd_intro with "[Hg] [-Hu Hul Hur] [Hu Hul Hur]"); [done|rewrite nd_ad; iExact "Hg"| |].
  all: try (iApply (T_intro with "[Hu] Hul Hur"); [done|iExact "Hu"]).
  all: iApply (nd_intro with "[Hp] [Ha Hl Hr] Hs"); [done|iExact "Hp"|].
  all: iApply (T_intro with "[Ha] Hl Hr"); [done|iExact "Ha"].
Qed.

Lemma wp_insert_rotate fuel l a k r d1 p kp s d2 cg g kg u C p1 q rt Φ :
  rt = top C g -> is_red u = false ->
  tree_at (T Red l a k r) p1 -∗ ctx_at (Fr d1 Red p kp s :: Fr d2 cg g kg u :: C) a p1 -∗ sentinel_at q -∗
  (∀ pp, let t' := rotate_in d1 d2 (T Red l a k r) p kp s g kg u in
     tree_at t' pp -∗ ctx_at C (ad t') pp -∗ sentinel_at q -∗ Φ tt (top C (ad t'))) -∗
  wp γ (insert_loop (S (S fuel)) sent a) rt Φ.
Proof.
  iIntros (Hrt Hu) "Ht HC Hq H". iDestruct (open_focus with "Ht HC") as (pp da dp dg)
    "((-> & %Ha & %Hp & %Hg & %Hsa & %Hup & %Htop) & Ha & Hl & Hr & Hp & Hs & Hg & Hu & HC)".
  cbn [top] in Htop. apply not_red_colour in Hu. remember (S fuel) as fuel1 eqn:Hf.
  cbn [insert_loop]. unfold_ops. destruct d1, d2; cbn [mk]; wp_run;
    iApply (wp_ld_colour with "Hu Hq"); rewrite Hu; iIntros "Hu Hq"; wp_run.
  - iApply (wp_right_rotate_k with "Hg Hp Hs HC"); [done..|]. iIntros "Hg Hp Hs HC". wp_run. subst fuel1.
    iApply (wp_insert_exit with "Ha Hp"); [done..|]. iIntros "Ha Hp". iApply ("H" with "[-HC Hq] HC Hq").
    iApply (nd_intro with "[Hp] [Ha Hl Hr] [Hg Hs Hu]"); [done|iExact "Hp"| |].
    + iApply (T_intro with "[Ha] Hl Hr"); [done|iExact "Ha"].
    + iApply (nd_intro with "[Hg] Hs Hu"); [done|iExact "Hg"].
  - iApply (wp_right_rotate_k _ _ _ _ _ _ _ _ _ _ _ _ _ (Fr R cg g kg u :: C) with "Hp Ha Hr [Hg Hu HC]"); [done..| |].
    { rewrite ctx_at_cons. by iFrame. }
    rewrite ctx_at_cons. iIntros "Hp Ha Hr (_ & %pp' & %dg' & Hg & Hu & HC)". cbn [mk top]. wp_run.
    iApply (wp_left_rotate_k with "Hg Ha Hl HC"); [done..|]. iIntros "Hg Ha Hl HC". wp_run. subst fuel1.
    iApply (wp_insert_exit with "Hp Ha"); [done..|]. iIntros "Hp Ha". iApply ("H" with "[-HC Hq] HC Hq").
    iApply (nd_intro with "[Ha] [Hp Hr Hs] [Hg Hl Hu]"); [done|iExact "Ha"| |].
    + iApply (nd_intro with "[Hp] Hs Hr"); [done|iExact "Hp"].
    + iApply (nd_intro with "[Hg] Hl Hu"); [done|iExact "Hg"].
  - iApply (wp_left_rotate_k _ _ _ _ _ _ _ _ _ _ _ _ _ (Fr L cg g kg u :: C) with "Hp Ha Hl [Hg Hu HC]"); [done..| |].
    { rewrite ctx_at_cons. by iFrame. }
    rewrite ctx_at_cons. iIntros "Hp Ha Hl (_ & %pp' & %dg' & Hg & Hu & HC)". cbn [mk top]. wp_run.
    iApply (wp_right_rotate_k with "Hg Ha Hr HC"); [done..|]. iIntros "Hg Ha Hr HC". wp_run. subst fuel1.
    iApply (wp_insert_exit with "Hp Ha"); [done..|]. iIntros "Hp Ha". iApply ("H" with "[-HC Hq] HC Hq").
    iApply (nd_intro with "[Ha] [Hp Hl Hs] [Hg Hr Hu]"); [done|iExact "Ha"| |].
    + iApply (nd_intro with "[Hp] Hs Hl"); [done|iExact "Hp"].
    + iApply (nd_intro with "[Hg] Hr Hu"); [done|iExact "Hg"].
  - iApply (wp_left_rotate_k with "Hg Hp Hs HC"); [done..|]. iIntros "Hg Hp Hs HC". wp_run. subst fuel1.
    iApply (wp_insert_exit with "Ha Hp"); [done..|]. iIntros "Ha Hp". iApply ("H" with "[-HC Hq] HC Hq").
    iApply (nd_intro with "[Hp] [Ha Hl Hr] [Hg Hs Hu]"); [done|iExact "Hp"| |].
    + iApply (T_intro with "[Ha] Hl Hr"); [done|iExact "Ha"].
    + iApply (nd_intro with "[Hg] Hs Hu"); [done|iExact "Hg"].
Qed.


Lemma wp_insert_stop fuel l a k r d b kb s C p q rt Φ :
  let C' := Fr d Black b kb s :: C in
  rt = top C' a ->
  tree_at (T Red l a k r) p -∗ ctx_at C' a p -∗ sentinel_at q -∗
  (∀ p0, let t' := plug C' (T Red l a k r) in tree_at t' p0 -∗ sentinel_at q -∗ Φ tt (ad t')) -∗
  wp γ (insert_loop (S fuel) sent a) rt Φ.
Proof.
  intros C' ->. subst C'. iIntros "Ht HC Hq H". rewrite tree_at_T ctx_at_cons.
  iDestruct "Ht" as "(%Ha & %da & Ha & Hl & Hr)". iDestruct "HC" as "([-> %Hb] & %pp & %db & Hb & Hs & HC)".
  iApply (wp_insert_exit with "Ha Hb"); [done|by destruct d|]. iIntros "Ha Hb".
  iDestruct (unfocus γ sent (Fr d Black b kb s :: C) (T Red l a k r) b with "[-Hq H]") as (p0) "Ht".
  { rewrite tree_at_T ctx_at_cons. by iFrame. }
  iSpecialize ("H" with "Ht Hq"). by rewrite plug_ad.
Qed.

(** The whole loop.  Two levels up in each round, so the length of the path
    bounds the rounds. *)
Lemma wp_insert_loop C q : forall fuel l a k r p rt Φ,
  top_black C = true -> (length C < fuel)%nat -> rt = top C a ->
  tree_at (T Red l a k r) p -∗ ctx_at C a p -∗ sentinel_at q -∗
  (∀ p0, let t' := ins_fix C (T Red l a k r) in tree_at t' p0 -∗ sentinel_at q -∗ Φ tt (ad t')) -∗
  wp γ (insert_loop fuel sent a) rt Φ.
Proof.
  induction C as [|f|f g C IH] using ctx_ind2; intros fuel l a k r p rt Φ HB HF ->;
    (destruct fuel as [|fuel]; [cbn in HF; lia|]); iIntros "Ht HC Hq H".
  - cbn [insert_loop]. unfold_ops. cbn [top]. wp_run. by iApply ("H" with "[$]").
  - destruct f as [d [] b kb s]; [done|]. by iApply (wp_insert_stop with "Ht HC Hq").
  - destruct f as [d1 [] b kb s], g as [d2 cg g kg u]; cbn [ins_fix]; [|by iApply (wp_insert_stop with "Ht HC Hq")].
    destruct (is_red u) eqn:Eu.
    + destruct u as [|[] ul ua uk ur]; try discriminate.
      iApply (wp_insert_recolour with "Ht HC Hq"); [done|]. iIntros (pp) "Ht HC Hq".
      destruct d2; iApply (IH with "Ht HC Hq"); cbn in *; try done; try lia; by destruct C.
    + destruct fuel as [|fuel]; [cbn in HF; lia|].
      iApply (wp_insert_rotate with "Ht HC Hq"); [done..|]. iIntros (pp) "Ht HC Hq".
      iDestruct (unfocus with "[$Ht $HC]") as (p0) "Ht". iSpecialize ("H" with "Ht Hq"). by rewrite plug_ad.
Qed.

End insert.

End RbInsert.
