(* ===== verification/RbDelete.v ===== *)
(** * Deletion: the re-balancing loop computes [RbSpec.del_fix]

    The node [temp] that lacks a black ancestor may be the sentinel, whose
    parent pointer is then the way up. *)

From Stdlib Require Import ZArith Lia.
From stdpp Require Import base numbers gmap option list sorting.
From iris.proofmode Require Import proofmode environments.
From iris.base_logic.lib Require Import own ghost_map.
From S2P Require Import Prelude HeapLogic Rbtree RbSpec RbLogic.

Module RbDelete.
Import Rbtree RbSpec RbLogic.

Section delete.

Context `{!ghost_mapG Σ Z rbtree_node_t} (γ : gname) (sent : Z).

Local Notation ad := (RbLogic.ad sent).
Local Notation tree_at := (RbLogic.tree_at γ sent).
Local Notation ctx_at := (RbLogic.ctx_at γ sent).
Local Notation sentinel_at := (RbLogic.sentinel_at γ sent).

Lemma wp_ld_parent {B} t p q (k : Z -> RB B) rt Φ : (t = E -> q = p) ->
  tree_at t p -∗ sentinel_at q -∗ (tree_at t p -∗ sentinel_at q -∗ wp γ (k p) rt Φ) -∗
  wp γ (ld parent (ad t) ≫= k) rt Φ.
Proof.
  iIntros (Hq) "Ht (%sk & %sl & %sr & %sd & Hs) H". destruct t as [|c l a kk r]; cbn [RbLogic.ad].
  - wp_step. rewrite Hq //. iApply ("H" with "Ht"). iExists _, _, _, _. iFrame.
  - rewrite tree_at_T. iDestruct "Ht" as "(%Ha & %dd & Ha & Hl & Hr)". wp_step.
    iApply ("H" with "[Ha Hl Hr]"); [by iFrame|]. iExists _, _, _, _. iFrame.
Qed.

(** Run, reading the parent of the node at the focus ("Ht", "Hq") as needed. *)
Ltac wp_par :=
  lazymatch goal with
  | |- envs_entails _ (wp _ (mbind _ (ld parent _)) _ _) =>
      iApply (wp_ld_parent with "Ht Hq"); [done|]; iIntros "Ht Hq"; wp_simpl
  end.
Ltac wp_go := repeat (progress first [wp_step | wp_eq | wp_par]).

(** The side [d] of the focus: what both halves of the loop body do. *)
Definition delete_side (d : side) : Z -> Z -> Z -> RB Z :=
  match d with L => delete_left | R => delete_right end.

(** The focus on the left: a red far nephew. *)
Lemma wp_left_far t p kp pp cp dp c0 wa wk near fl fa fk fr C q rt Φ :
  let t' := nd L cp (nd L Black t p kp near) wa wk (T Black fl fa fk fr) in
  rt = top C p -> (t = E -> q = p) -> p <> sent ->
  tree_at t p -∗ p ↪[γ] Node kp (ad t) wa pp (col cp) dp -∗ tree_at (T c0 near wa wk (T Red fl fa fk fr)) p -∗ ctx_at C p pp -∗ sentinel_at q -∗
  (∀ pp, tree_at t' pp -∗ ctx_at C (ad t') pp -∗ sentinel_at q -∗ Φ (top C (ad t')) (top C (ad t'))) -∗
  wp γ (delete_left sent (ad t) wa) rt Φ.
Proof.
  intros t' -> Hq Hp. iIntros "Ht Hp Hw HC Hq H". rewrite (tree_at_T c0).
  iDestruct "Hw" as "(%Hwa & %dw & Hw & Hwl & Hwr)".
  rewrite (tree_at_T Red fl). iDestruct "Hwr" as "(%Hfa & %df & Hf & Hfl & Hfr)".
  unfold delete_left. unfold_ops. cbn [RbLogic.ad]. wp_go.
  iApply (wp_ld_colour with "Hwl Hq"). iIntros "Hwl Hq".
  destruct (colour_of near); wp_go;
    (iApply (wp_left_rotate_k with "Hp Hw Hwl HC"); [done..|]; iIntros "Hp Hw Hwl HC"; wp_go;
     iApply ("H" with "[-HC Hq] HC Hq"); iApply (nd_intro with "[Hw] [Hp Ht Hwl] [Hf Hfl Hfr]");
       [done|iExact "Hw"|iApply (nd_intro with "[Hp] Ht Hwl"); [done|iExact "Hp"]
       |iApply (T_intro with "[Hf] Hfl Hfr"); [done|iExact "Hf"]]).
Qed.

(** The far nephew is black, the near one red. *)
Lemma wp_left_near t p kp pp cp dp c0 wa wk nl na nk nr far C q rt Φ :
  let t' := nd L cp (nd L Black t p kp nl) na nk (nd L Black nr wa wk far) in
  colour_of far = Black ->
  rt = top C p -> (t = E -> q = p) -> p <> sent ->
  tree_at t p -∗ p ↪[γ] Node kp (ad t) wa pp (col cp) dp -∗ tree_at (T c0 (T Red nl na nk nr) wa wk far) p -∗ ctx_at C p pp -∗ sentinel_at q -∗
  (∀ pp, tree_at t' pp -∗ ctx_at C (ad t') pp -∗ sentinel_at q -∗ Φ (top C (ad t')) (top C (ad t'))) -∗
  wp γ (delete_left sent (ad t) wa) rt Φ.
Proof.
  intros t' Hf -> Hq Hp. iIntros "Ht Hp Hw HC Hq H". rewrite (tree_at_T c0).
  iDestruct "Hw" as "(%Hwa & %dw & Hw & Hwl & Hwr)".
  rewrite (tree_at_T Red nl). iDestruct "Hwl" as "(%Hna & %dn & Hn & Hnl & Hnr)".
  unfold delete_left. unfold_ops. cbn [RbLogic.ad]. wp_go.
  iApply (wp_ld_colour with "Hwr Hq"). rewrite Hf. iIntros "Hwr Hq". wp_go.
  iApply (wp_right_rotate_k _ _ _ _ _ _ _ _ _ _ _ _ _ (Fr R cp p kp t :: C) with "Hw Hn Hnr [Hp Ht HC]"); [done..| |].
  { rewrite ctx_at_cons. by iFrame. }
  rewrite ctx_at_cons. iIntros "Hw Hn Hnr (_ & %pp' & %dp' & Hp & Ht & HC)". cbn [mk top]. wp_go.
  iApply (wp_left_rotate_k with "Hp Hn Hnl HC"); [done..|]. iIntros "Hp Hn Hnl HC". wp_go.
  iApply ("H" with "[-HC Hq] HC Hq"). iApply (nd_intro with "[Hn] [Hp Ht Hnl] [Hw Hnr Hwr]"); [done|iExact "Hn"| |].
  - iApply (nd_intro with "[Hp] Ht Hnl"); [done|iExact "Hp"].
  - iApply (nd_intro with "[Hw] Hnr Hwr"); [done|iExact "Hw"].
Qed.

(** Both nephews are black. *)
Lemma wp_left_both t p kp pp cp dp c0 wl wa wk wr C q rt Φ :
  let t' := nd L cp t p kp (T Red wl wa wk wr) in
  colour_of wl = Black -> colour_of wr = Black ->
  rt = top C p -> (t = E -> q = p) -> p <> sent ->
  tree_at t p -∗ p ↪[γ] Node kp (ad t) wa pp (col cp) dp -∗ tree_at (T c0 wl wa wk wr) p -∗ ctx_at C p pp -∗ sentinel_at q -∗
  (∀ pp, tree_at t' pp -∗ ctx_at C p pp -∗ sentinel_at q -∗ Φ p rt) -∗
  wp γ (delete_left sent (ad t) wa) rt Φ.
Proof.
  intros t' Hl Hr -> Hq Hp. iIntros "Ht Hp Hw HC Hq H". rewrite (tree_at_T c0).
  iDestruct "Hw" as "(%Hwa & %dw & Hw & Hwl & Hwr)".
  unfold delete_left. unfold_ops. wp_go.
  iApply (wp_ld_colour with "Hwl Hq"). rewrite Hl. iIntros "Hwl Hq". wp_go.
  iApply (wp_ld_colour with "Hwr Hq"). rewrite Hr. iIntros "Hwr Hq". wp_go.
  iApply ("H" with "[-HC Hq] HC Hq"). iApply (nd_intro with "[Hp] Ht [Hw Hwl Hwr]"); [done|iExact "Hp"|].
  iApply (T_intro with "[Hw] Hwl Hwr"); [done|iExact "Hw"].
Qed.

(** The focus on the right: a red far nephew. *)
Lemma wp_right_far t p kp pp cp dp c0 wa wk near fl fa fk fr C q rt Φ :
  let t' := nd R cp (nd R Black t p kp near) wa wk (T Black fl fa fk fr) in
  rt = top C p -> (t = E -> q = p) -> p <> sent ->
  tree_at t p -∗ p ↪[γ] Node kp wa (ad t) pp (col cp) dp -∗ tree_at (T c0 (T Red fl fa fk fr) wa wk near) p -∗ ctx_at C p pp -∗ sentinel_at q -∗
  (∀ pp, tree_at t' pp -∗ ctx_at C (ad t') pp -∗ sentinel_at q -∗ Φ (top C (ad t')) (top C (ad t'))) -∗
  wp γ (delete_right sent (ad t) wa) rt Φ.
Proof.
  intros t' -> Hq Hp. iIntros "Ht Hp Hw HC Hq H". rewrite (tree_at_T c0).
  iDestruct "Hw" as "(%Hwa & %dw & Hw & Hwl & Hwr)".
  rewrite (tree_at_T Red fl). iDestruct "Hwl" as "(%Hfa & %df & Hf & Hfl & Hfr)".
  unfold delete_right. unfold_ops. cbn [RbLogic.ad]. wp_go.
  iApply (wp_right_rotate_k with "Hp Hw Hwr HC"); [done..|]. iIntros "Hp Hw Hwr HC". wp_go.
  iApply ("H" with "[-HC Hq] HC Hq"). iApply (nd_intro with "[Hw] [Hp Ht Hwr] [Hf Hfl Hfr]"); [done|iExact "Hw"| |].
  - iApply (nd_intro with "[Hp] Ht Hwr"); [done|iExact "Hp"].
  - iApply (T_intro with "[Hf] Hfl Hfr"); [done|iExact "Hf"].
Qed.

(** The far nephew is black, the near one red. *)
Lemma wp_right_near t p kp pp cp dp c0 wa wk nl na nk nr far C q rt Φ :
  let t' := nd R cp (nd R Black t p kp nr) na nk (nd R Black nl wa wk far) in
  colour_of far = Black ->
  rt = top C p -> (t = E -> q = p) -> p <> sent ->
  tree_at t p -∗ p ↪[γ] Node kp wa (ad t) pp (col cp) dp -∗ tree_at (T c0 far wa wk (T Red nl na nk nr)) p -∗ ctx_at C p pp -∗ sentinel_at q -∗
  (∀ pp, tree_at t' pp -∗ ctx_at C (ad t') pp -∗ sentinel_at q -∗ Φ (top C (ad t')) (top C (ad t'))) -∗
  wp γ (delete_right sent (ad t) wa) rt Φ.
Proof.
  intros t' Hf -> Hq Hp. iIntros "Ht Hp Hw HC Hq H". rewrite (tree_at_T c0).
  iDestruct "Hw" as "(%Hwa & %dw & Hw & Hwl & Hwr)".
  rewrite (tree_at_T Red nl). iDestruct "Hwr" as "(%Hna & %dn & Hn & Hnl & Hnr)".
  unfold delete_right. unfold_ops. cbn [RbLogic.ad]. wp_go.
  iApply (wp_ld_colour with "Hwl Hq"). rewrite Hf. iIntros "Hwl Hq". wp_go.
  iApply (wp_ld_colour with "Hwl Hq"). rewrite Hf. iIntros "Hwl Hq". wp_go.
  iApply (wp_left_rotate_k _ _ _ _ _ _ _ _ _ _ _ _ _ (Fr L cp p kp t :: C) with "Hw Hn Hnl [Hp Ht HC]"); [done..| |].
  { rewrite ctx_at_cons. by iFrame. }
  rewrite ctx_at_cons. iIntros "Hw Hn Hnl (_ & %pp' & %dp' & Hp & Ht & HC)". cbn [mk top]. wp_go.
  iApply (wp_right_rotate_k with "Hp Hn Hnr HC"); [done..|]. iIntros "Hp Hn Hnr HC". wp_go.
  iApply ("H" with "[-HC Hq] HC Hq"). iApply (nd_intro with "[Hn] [Hp Ht Hnr] [Hw Hnl Hwl]"); [done|iExact "Hn"| |].
  - iApply (nd_intro with "[Hp] Ht Hnr"); [done|iExact "Hp"].
  - iApply (nd_intro with "[Hw] Hnl Hwl"); [done|iExact "Hw"].
Qed.

(** Both nephews are black. *)
Lemma wp_right_both t p kp pp cp dp c0 wl wa wk wr C q rt Φ :
  let t' := nd R cp t p kp (T Red wl wa wk wr) in
  colour_of wl = Black -> colour_of wr = Black ->
  rt = top C p -> (t = E -> q = p) -> p <> sent ->
  tree_at t p -∗ p ↪[γ] Node kp wa (ad t) pp (col cp) dp -∗ tree_at (T c0 wl wa wk wr) p -∗ ctx_at C p pp -∗ sentinel_at q -∗
  (∀ pp, tree_at t' pp -∗ ctx_at C p pp -∗ sentinel_at q -∗ Φ p rt) -∗
  wp γ (delete_right sent (ad t) wa) rt Φ.
Proof.
  intros t' Hl Hr -> Hq Hp. iIntros "Ht Hp Hw HC Hq H". rewrite (tree_at_T c0).
  iDestruct "Hw" as "(%Hwa & %dw & Hw & Hwl & Hwr)".
  unfold delete_right. unfold_ops. wp_go.
  iApply (wp_ld_colour with "Hwl Hq"). rewrite Hl. iIntros "Hwl Hq". wp_go.
  iApply (wp_ld_colour with "Hwr Hq"). rewrite Hr. iIntros "Hwr Hq". wp_go.
  iApply ("H" with "[-HC Hq] HC Hq"). iApply (nd_intro with "[Hp] Ht [Hw Hwl Hwr]"); [done|iExact "Hp"|].
  iApply (T_intro with "[Hw] Hwl Hwr"); [done|iExact "Hw"].
Qed.

Lemma wp_delete_side d t p kp pp cp dp w C q rt o Φ :
  side_fix d cp t p kp w = Some o -> rt = top C p -> (t = E -> q = p) -> p <> sent ->
  tree_at t p -∗ p ↪[γ] mk d kp (ad t) (ad w) pp (col cp) dp -∗ tree_at w p -∗ ctx_at C p pp -∗ sentinel_at q -∗
  match o with
  | inl t' => ∀ pp, tree_at t' pp -∗ ctx_at C p pp -∗ sentinel_at q -∗ Φ p rt
  | inr t' => ∀ pp, tree_at t' pp -∗ ctx_at C (ad t') pp -∗ sentinel_at q -∗ Φ (top C (ad t')) (top C (ad t'))
  end -∗
  wp γ (delete_side d sent (ad t) (ad w)) rt Φ.
Proof.
  intros Ho Hrt Hq Hp. destruct w as [|c0 wl wa wk wr]; [done|]. iIntros "Ht Hp Hw HC Hq H". cbn [RbLogic.ad].
  destruct d; cbn [delete_side mk]; cbn in Ho.
  - destruct (is_red wr) eqn:Er.
    { destruct wr as [|[] fl fa fk fr]; try discriminate. injection Ho as <-. by iApply (wp_left_far with "Ht Hp Hw HC Hq"). }
    apply not_red_colour in Er.
    destruct wl as [|[] nl na nk nr]; injection Ho as <-; [|by iApply (wp_left_near with "Ht Hp Hw HC Hq")|];
      by iApply (wp_left_both with "Ht Hp Hw HC Hq").
  - destruct (is_red wl) eqn:El.
    { destruct wl as [|[] fl fa fk fr]; try discriminate. injection Ho as <-. by iApply (wp_right_far with "Ht Hp Hw HC Hq"). }
    apply not_red_colour in El.
    destruct wr as [|[] nl na nk nr]; injection Ho as <-; [|by iApply (wp_right_near with "Ht Hp Hw HC Hq")|];
      by iApply (wp_right_both with "Ht Hp Hw HC Hq").
Qed.

(** ** The loop *)

Lemma focus_not_root C t p : tree_at t p -∗ ctx_at C (ad t) p -∗ ⌜C <> [] -> ad t <> top C (ad t)⌝.
Proof.
  iIntros "Ht HC". destruct t as [|c l a k r]; cbn [RbLogic.ad].
  - iDestruct (ctx_top_not_sent with "HC") as %Hn. iPureIntro. intros HC ?. by apply (Hn HC).
  - rewrite tree_at_T. iDestruct "Ht" as "(%Ha & %da & Ha & _)". iDestruct (ctx_ne with "HC Ha") as %Hn.
    iPureIntro. intros HC ?. by apply (Hn HC).
Qed.

Lemma tree_ne_tree w t p1 p2 : tree_at w p1 -∗ tree_at t p2 -∗ ⌜w <> E -> ad w <> ad t⌝.
Proof.
  iIntros "Hw Ht". destruct t as [|c l a k r]; cbn [RbLogic.ad]; [by iApply tree_not_sent|].
  rewrite tree_at_T. iDestruct "Ht" as "(%Ha & %da & Ha & _)". iDestruct (tree_ne with "Hw Ha") as %Hn.
  iPureIntro. auto.
Qed.

Lemma wp_black_plug C t p q rt Φ :
  rt = top C (ad t) ->
  tree_at t p -∗ ctx_at C (ad t) p -∗ sentinel_at q -∗
  (∀ p0, tree_at (plug C (black t)) p0 -∗ sentinel_at q -∗ Φ tt (ad (plug C (black t)))) -∗
  wp γ (rbtree_black (ad t)) rt Φ.
Proof.
  iIntros (->) "Ht HC Hq H". iApply wp_last. iApply (wp_black with "Ht Hq"). iIntros "Ht Hq". wp_step.
  iDestruct (unfocus with "[$Ht HC]") as (p0) "Ht"; [by rewrite black_ad|].
  iSpecialize ("H" with "Ht Hq"). by rewrite plug_ad black_ad.
Qed.

(** The loop ends at the root, and at a red node. *)
Lemma wp_delete_exit C fuel t p q rt Φ :
  rt = top C (ad t) -> C = [] \/ is_red t = true ->
  tree_at t p -∗ ctx_at C (ad t) p -∗ sentinel_at q -∗
  (∀ p0, tree_at (plug C (black t)) p0 -∗ sentinel_at q -∗ Φ tt (ad (plug C (black t)))) -∗
  wp γ (delete_loop (S fuel) sent (ad t) ≫= rbtree_black) rt Φ.
Proof.
  iIntros (Hrt Hex) "Ht HC Hq H". iApply wp_bind. cbn [delete_loop]. unfold root, rbtree_is_black. wp_step.
  destruct (Z.eqb_spec (ad t) rt) as [He|Hne]; [wp_step; by iApply (wp_black_plug with "Ht HC Hq")|].
  destruct Hex as [->|Hr]; [done|]. wp_run. iApply (wp_ld_colour with "Ht Hq"). iIntros "Ht Hq".
  assert (colour_of t = Red) as -> by (by destruct t as [|[]]). wp_run. by iApply (wp_black_plug with "Ht HC Hq").
Qed.

Lemma wp_delete_root fuel t p q Φ :
  tree_at t p -∗ sentinel_at q -∗ (∀ p0, tree_at (black t) p0 -∗ sentinel_at q -∗ Φ tt (ad (black t))) -∗
  wp γ (delete_loop (S fuel) sent (ad t) ≫= rbtree_black) (ad t) Φ.
Proof. iIntros "Ht Hq H". iApply (wp_delete_exit [] with "Ht [] Hq H"); auto. Qed.

(** A red sibling: one rotation brings a black one to the focus. *)
Lemma wp_delete_red_sibling d fuel t a k cp pp da wl wa wk wr C q rt o Φ :
  let near := match d with L => wl | R => wr end in
  let far := match d with L => wr | R => wl end in
  let C' := Fr d Black wa wk far :: C in
  side_fix d Red t a k near = Some o -> rt = top C a -> (t = E -> q = a) -> is_red t = false -> a <> sent -> ad t <> rt ->
  tree_at t a -∗ a ↪[γ] mk d k (ad t) wa pp (col cp) da -∗ tree_at (T Red wl wa wk wr) a -∗ ctx_at C a pp -∗
  sentinel_at q -∗
  match o with
  | inl t' => ∀ pp, tree_at t' pp -∗ ctx_at C' a pp -∗ sentinel_at q -∗
      wp γ (delete_loop fuel sent a ≫= rbtree_black) (top C' a) Φ
  | inr t' => ∀ pp, tree_at t' pp -∗ ctx_at C' (ad t') pp -∗ sentinel_at q -∗
      wp γ (delete_loop fuel sent (top C' (ad t')) ≫= rbtree_black) (top C' (ad t')) Φ
  end -∗
  wp γ (delete_loop (S fuel) sent (ad t) ≫= rbtree_black) rt Φ.
Proof.
  intros near far C' Ho Hrt Hq Hr Ha Hne. iIntros "Ht Ha Hw HC Hq H".
  iDestruct (tree_ne_tree with "Hw Ht") as %Hwt. specialize (Hwt ltac:(done)). cbn [RbLogic.ad] in Hwt.
  rewrite (tree_at_T Red). iDestruct "Hw" as "(%Hwa & %dw & Hw & Hwl & Hwr)".
  apply not_red_colour in Hr. cbn [delete_loop]. unfold_ops. wp_go.
  iApply (wp_ld_colour with "Ht Hq"). rewrite Hr. iIntros "Ht Hq". destruct d; cbn [mk]; wp_go.
  - iApply (wp_left_rotate_k with "Ha Hw Hwl HC"); [done..|]. iIntros "Ha Hw Hwl HC". wp_go. iApply wp_bind.
    iApply (wp_delete_side L t a k wa Red da wl C' with "Ht [Ha] Hwl [Hw Hwr HC] Hq"); [done..|iExact "Ha"| |].
    { rewrite ctx_at_cons. iSplitR; [done|]. iExists pp, dw. iFrame "Hwr HC". iExact "Hw". }
    by destruct o.
  - iApply (wp_right_rotate_k with "Ha Hw Hwr HC"); [done..|]. iIntros "Ha Hw Hwr HC". wp_go. iApply wp_bind.
    iApply (wp_delete_side R t a k wa Red da wr C' with "Ht [Ha] Hwr [Hw Hwl HC] Hq"); [done..|iExact "Ha"| |].
    { rewrite ctx_at_cons. iSplitR; [done|]. iExists pp, dw. iFrame "Hwl HC". iExact "Hw". }
    by destruct o.
Qed.


(** A black sibling. *)
Lemma wp_delete_black_sibling d fuel t a k cp pp da wl wa wk wr C q rt o Φ :
  side_fix d cp t a k (T Black wl wa wk wr) = Some o -> rt = top C a -> (t = E -> q = a) -> is_red t = false ->
  a <> sent -> ad t <> rt ->
  tree_at t a -∗ a ↪[γ] mk d k (ad t) wa pp (col cp) da -∗ tree_at (T Black wl wa wk wr) a -∗ ctx_at C a pp -∗
  sentinel_at q -∗
  match o with
  | inl t' => ∀ pp, tree_at t' pp -∗ ctx_at C a pp -∗ sentinel_at q -∗
      wp γ (delete_loop fuel sent a ≫= rbtree_black) (top C a) Φ
  | inr t' => ∀ pp, tree_at t' pp -∗ ctx_at C (ad t') pp -∗ sentinel_at q -∗
      wp γ (delete_loop fuel sent (top C (ad t')) ≫= rbtree_black) (top C (ad t')) Φ
  end -∗
  wp γ (delete_loop (S fuel) sent (ad t) ≫= rbtree_black) rt Φ.
Proof.
  intros Ho Hrt Hq Hr Ha Hne. iIntros "Ht Ha Hw HC Hq H".
  iDestruct (tree_ne_tree with "Hw Ht") as %Hwt. specialize (Hwt ltac:(done)). cbn [RbLogic.ad] in Hwt.
  rewrite (tree_at_T Black). iDestruct "Hw" as "(%Hwa & %dw & Hw & Hwl & Hwr)".
  apply not_red_colour in Hr. cbn [delete_loop]. unfold_ops. wp_go.
  iApply (wp_ld_colour with "Ht Hq"). rewrite Hr. iIntros "Ht Hq".
  destruct d; cbn [mk]; wp_go; iApply wp_bind;
    [iApply (wp_delete_side L t a k pp cp da (T Black wl wa wk wr) C with "Ht [Ha] [Hw Hwl Hwr] HC Hq")
    |iApply (wp_delete_side R t a k pp cp da (T Black wl wa wk wr) C with "Ht [Ha] [Hw Hwl Hwr] HC Hq")];
    try done; try iExact "Ha"; try (iApply (T_intro with "[Hw] Hwl Hwr"); [done|iExact "Hw"]); subst rt; by destruct o.
Qed.

Lemma side_fix_up d cp t a k w t' : side_fix d cp t a k w = Some (inl t') ->
  ad t' = a /\ t' <> E /\ is_red t' = is_red (T cp E 0 0 E).
Proof.
  unfold side_fix. intros H. destruct w as [|c wl wa wk wr]; [done|]. destruct d; repeat case_match; by simplify_eq.
Qed.

(** After a restructuring the loop is told to go on from the root, where it stops. *)
Lemma wp_delete_done C fuel t p q t' Φ :
  t' = black (plug C t) ->
  tree_at t p -∗ ctx_at C (ad t) p -∗ sentinel_at q -∗ (∀ p0, tree_at t' p0 -∗ sentinel_at q -∗ Φ tt (ad t')) -∗
  wp γ (delete_loop (S fuel) sent (top C (ad t)) ≫= rbtree_black) (top C (ad t)) Φ.
Proof.
  iIntros (->) "Ht HC Hq H". iDestruct (unfocus with "[$Ht HC]") as (p0) "Ht"; [done|].
  rewrite -plug_ad. iApply (wp_delete_root with "Ht Hq H").
Qed.

Lemma wp_delete_loop C : forall t p q fuel rt t' Φ,
  del_fix C t = Some t' -> rt = top C (ad t) -> (t = E -> q = p) -> (S (length C) < fuel)%nat ->
  tree_at t p -∗ ctx_at C (ad t) p -∗ sentinel_at q -∗
  (∀ p0, tree_at t' p0 -∗ sentinel_at q -∗ Φ tt (ad t')) -∗
  wp γ (delete_loop fuel sent (ad t) ≫= rbtree_black) rt Φ.
Proof.
  induction C as [|[d cp a k w] C IH]; intros t p q fuel rt t' Φ Hd Hrt Hq HF; iIntros "Ht HC Hq H";
    (destruct fuel as [|fuel]; [cbn in HF; lia|]).
  { injection Hd as <-. iApply (wp_delete_exit [] with "Ht HC Hq"); auto. }
  destruct (is_red t) eqn:Er.
  { cbn [del_fix] in Hd. rewrite Er in Hd. injection Hd as <-. iApply (wp_delete_exit with "Ht HC Hq"); auto. }
  iDestruct (focus_not_root with "Ht HC") as %Hne. specialize (Hne ltac:(done)). rewrite -Hrt in Hne.
  rewrite ctx_at_cons. iDestruct "HC" as "([-> %Ha] & %pp & %da & Ha & Hw & HC)". cbn [del_fix] in Hd. rewrite Er in Hd.
  cbn [top] in Hrt. destruct w as [|[] wl wa wk wr]; [done| |].
  - set (near := match d with L => wl | R => wr end). set (far := match d with L => wr | R => wl end).
    replace (match d with L => (wl, wr) | R => (wr, wl) end) with (near, far) in Hd by (by destruct d).
    destruct (side_fix d Red t a k near) as [o|] eqn:Eo; [|done].
    iApply (wp_delete_red_sibling with "Ht Ha Hw HC Hq"); [done..|].
    destruct fuel as [|fuel]; [cbn in HF; lia|]. destruct o as [t1|t1]; injection Hd as Hd; iIntros (pp') "Ht HC Hq".
    + destruct (side_fix_up _ _ _ _ _ _ _ Eo) as (<- & _ & Hr1). rewrite -Hd.
      iApply (wp_delete_exit with "Ht HC Hq H"); auto.
    + by iApply (wp_delete_done with "Ht HC Hq H").
  - destruct (side_fix d cp t a k (T Black wl wa wk wr)) as [o|] eqn:Eo; [|done].
    iApply (wp_delete_black_sibling with "Ht Ha Hw HC Hq"); [done..|]. destruct o as [t1|t1]; iIntros (pp') "Ht HC Hq".
    + destruct (side_fix_up _ _ _ _ _ _ _ Eo) as (<- & Hne1 & _).
      iApply (IH with "Ht HC Hq H"); [done|done|done|cbn in HF; lia].
    + injection Hd as Hd. destruct fuel as [|fuel]; [cbn in HF; lia|]. by iApply (wp_delete_done with "Ht HC Hq H").
Qed.

End delete.

End RbDelete.
