(* ===== verification/RbOps.v ===== *)
(** * [rbtree_insert] and [rbtree_delete] as a whole *)

From Stdlib Require Import ZArith Lia.
From stdpp Require Import base numbers gmap option list sorting.
From iris.proofmode Require Import proofmode environments.
From iris.base_logic.lib Require Import own ghost_map.
From S2P Require Import Prelude HeapLogic Rbtree RbSpec RbLogic RbInsert.

Module RbOps.
Import Rbtree RbSpec RbLogic RbInsert.

Section ops.

Context `{!ghost_mapG Σ Z rbtree_node_t} (γ : gname) (sent : Z).

Local Notation ad := (RbLogic.ad sent).
Local Notation tree_at := (RbLogic.tree_at γ sent).
Local Notation ctx_at := (RbLogic.ctx_at γ sent).
Local Notation sentinel_at := (RbLogic.sentinel_at γ sent).

(** The descent to the place of a new node. *)
Lemma top_ins_ctx k t x C : t <> E -> top (ins_ctx k t C) x = top C (ad t).
Proof.
  revert C. induction t as [|c l IHl a' k' r IHr]; intros C Hne; [done|]. cbn [ins_ctx RbLogic.ad].
  destruct (k <? k'); [destruct l; [done|by rewrite IHl]|destruct r; [done|by rewrite IHr]].
Qed.

Lemma wp_insert_value t a n : forall fuel p C rt Φ,
  t <> E -> a <> sent -> (height t <= fuel)%nat ->
  tree_at t p -∗ ctx_at C (ad t) p -∗ a ↪[γ] n -∗
  (∀ p', tree_at (T Red E a (key n) E) p' -∗ ctx_at (ins_ctx (key n) t C) a p' -∗ Φ tt rt) -∗
  wp γ (insert_value_loop fuel (ad t) a sent) rt Φ.
Proof.
  destruct n as [nk nl nr np nc ndata]. cbn [key].
  induction t as [|c l IHl a' k' r IHr]; intros fuel p C rt Φ Hne Ha HF; [done|]. cbn [height] in HF.
  destruct fuel as [|fuel]; [lia|]. iIntros "Ht HC Hn H". rewrite tree_at_T.
  iDestruct "Ht" as "(%Ha' & %da & Ha & Hl & Hr)". cbn [insert_value_loop ins_ctx RbLogic.ad]. unfold_ops. wp_run.
  destruct (nk <? k').
  - wp_run. destruct (decide (l = E)) as [->|Hl].
    + cbn [RbLogic.ad]. rewrite Z.eqb_refl. wp_run. cbn [ins_ctx]. iApply ("H" $! a' with "[Hn]").
      * by iApply (T_intro with "[Hn]").
      * rewrite ctx_at_cons. by iFrame.
    + iDestruct (tree_not_sent with "Hl") as %Hs. specialize (Hs Hl). wp_run.
      iApply (IHl with "Hl [Ha Hr HC] Hn H"); [done|done|lia|]. rewrite ctx_at_cons. by iFrame.
  - wp_run. destruct (decide (r = E)) as [->|Hr].
    + cbn [RbLogic.ad]. rewrite Z.eqb_refl. wp_run. cbn [ins_ctx]. iApply ("H" $! a' with "[Hn]").
      * by iApply (T_intro with "[Hn]").
      * rewrite ctx_at_cons. by iFrame.
    + iDestruct (tree_not_sent with "Hr") as %Hs. specialize (Hs Hr). wp_run.
      iApply (IHr with "Hr [Ha Hl HC] Hn H"); [done|done|lia|]. rewrite ctx_at_cons. by iFrame.
Qed.

(** What is expected of [tree->insert]. *)
Definition inserts (insert : Z -> Z -> Z -> RB unit) (t : tree) : Prop := forall a n p rt Φ,
  t <> E -> a <> sent -> a <> NULL -> ad t <> NULL ->
  tree_at t p -∗ a ↪[γ] n -∗
  (∀ p', tree_at (T Red E a (key n) E) p' -∗ ctx_at (ins_ctx (key n) t []) a p' -∗ Φ tt rt) -∗
  wp γ (insert (ad t) a sent) rt Φ.

Lemma insert_value_inserts fuel t : (height t <= fuel)%nat -> inserts (rbtree_insert_value fuel) t.
Proof.
  iIntros (HF a n p rt Φ Hne Ha _ _) "Ht Ha H". by iApply (wp_insert_value with "Ht [] Ha H").
Qed.

Lemma insert_timer_inserts fuel t : (height t <= fuel)%nat -> inserts (rbtree_insert_timer_value fuel) t.
Proof.
  iIntros (HF a n p rt Φ Hne Ha Ha0 Ht0) "Ht Ha H". unfold rbtree_insert_timer_value. unfold NULL in *.
  rewrite (proj2 (Z.eqb_neq _ _) Ha0) (proj2 (Z.eqb_neq _ _) Ht0). by iApply (wp_insert_value with "Ht [] Ha H").
Qed.

Lemma ins_ctx_top_black k t C : t <> E ->
  top_black (ins_ctx k t C) = match C with [] => negb (is_red t) | _ => top_black C end.
Proof.
  revert C. induction t as [|c l IHl a' k' r IHr]; intros C Hne; [done|]. cbn [ins_ctx].
  assert (HC : forall f, f_colour f = c ->
    top_black (f :: C) = match C with [] => negb (is_red (T c l a' k' r)) | _ => top_black C end).
  { intros f <-. destruct C; [|done]. cbn. by destruct (f_colour f). }
  destruct (k <? k').
  - destruct (decide (l = E)) as [->|Hl]; [by apply HC|]. rewrite (IHl _ Hl). by apply HC.
  - destruct (decide (r = E)) as [->|Hr]; [by apply HC|]. rewrite (IHr _ Hr). by apply HC.
Qed.

Lemma ins_ctx_length k t C : (length (ins_ctx k t C) <= height t + length C)%nat.
Proof.
  revert C. induction t as [|c l IHl a' k' r IHr]; intros C; cbn [ins_ctx height]; [lia|].
  destruct (k <? k'); etransitivity; [apply IHl| |apply IHr|]; cbn [length]; lia.
Qed.

Lemma wp_insert insert fuel t a n p q rt Φ :
  inserts insert t -> is_red t = false -> (height t < fuel)%nat -> rt = ad t -> a <> sent -> a <> NULL -> (t <> E -> ad t <> NULL) ->
  tree_at t p -∗ sentinel_at q -∗ a ↪[γ] n -∗
  (∀ p0, let t' := RbSpec.insert t a (key n) in tree_at t' p0 -∗ sentinel_at q -∗ Φ tt (ad t')) -∗
  wp γ (rbtree_insert insert fuel sent a) rt Φ.
Proof.
  iIntros (HI HB HF -> Ha Ha0 Ht0) "Ht Hq Ha H". unfold rbtree_insert. unfold_ops. wp_run.
  destruct (decide (t = E)) as [->|Hne].
  - cbn [RbLogic.ad]. rewrite Z.eqb_refl. destruct n. wp_run. iApply ("H" $! NULL with "[Ha] Hq").
    cbn [RbSpec.insert key]. iApply (T_intro with "[Ha] [] []"); [done|iExact "Ha"|by rewrite tree_at_E..].
  - iDestruct (tree_not_sent with "Ht") as %Hs. specialize (Hs Hne). wp_run. iApply wp_bind.
    iApply (HI with "Ht Ha"); auto. iIntros (p') "Ht HC". iApply wp_bind.
    iApply (wp_insert_loop with "Ht HC Hq").
    + by rewrite ins_ctx_top_black // HB.
    + pose proof (ins_ctx_length (key n) t []). cbn in *. lia.
    + by rewrite top_ins_ctx.
    + assert (Hi : RbSpec.insert t a (key n) = black (ins_fix (ins_ctx (key n) t []) (T Red E a (key n) E)))
        by (by destruct t). rewrite Hi. generalize (ins_fix (ins_ctx (key n) t []) (T Red E a (key n) E)). intros t'.
      iIntros (p0) "Ht Hq". wp_run. iApply (wp_black with "Ht Hq"). iIntros "Ht Hq". wp_run.
      iSpecialize ("H" with "Ht Hq"). by rewrite black_ad.
Qed.

End ops.

End RbOps.
