(* ===== verification/RbRemove.v ===== *)
(** * [rbtree_delete] computes [RbSpec.del_node] *)

From Stdlib Require Import ZArith Lia.
From stdpp Require Import base numbers gmap option list sorting.
From iris.proofmode Require Import proofmode environments.
From iris.base_logic.lib Require Import own ghost_map.
From S2P Require Import Prelude HeapLogic Rbtree RbSpec RbLogic RbDelete.

Module RbRemove.
Import Rbtree RbSpec RbLogic RbDelete.

Section remove.

Context `{!ghost_mapG Σ Z rbtree_node_t} (γ : gname) (sent : Z).

Local Notation ad := (RbLogic.ad sent).
Local Notation tree_at := (RbLogic.tree_at γ sent).
Local Notation ctx_at := (RbLogic.ctx_at γ sent).
Local Notation sentinel_at := (RbLogic.sentinel_at γ sent).

(** ** Pieces of paths

    [path_at D x p q]: the nodes of a path within a tree, from a hole that
    holds [x] below [p] up to a node whose parent is [q]. *)
Fixpoint path_at (D : ctx) (x p q : Z) : iProp Σ :=
  match D with
  | [] => ⌜p = q⌝
  | Fr d c a k s :: D' =>
      ⌜p = a /\ a <> sent⌝ ∗ ∃ pp dd, a ↪[γ] mk d k x (ad s) pp (col c) dd ∗ tree_at s a ∗ path_at D' a pp q
  end.

Lemma path_focus D t q : tree_at (plug D t) q ⊣⊢ ∃ p, tree_at t p ∗ path_at D (ad t) p q.
Proof.
  revert t. induction D as [|[d c a k s] D IH]; intros t; cbn.
  - iSplit; [iIntros "$"; eauto|]. by iIntros "(% & H & ->)".
  - rewrite IH nd_ad. setoid_rewrite nd_at. iSplit.
    + iIntros "(%p & (%Ha & %dd & Ha & Ht & Hs) & HC)". iExists a. by iFrame.
    + iIntros "(%p & Ht & [-> %Ha] & %pp & %dd & Ha & Hs & HD)". iExists pp. by iFrame.
Qed.

Lemma ctx_at_app D C x p : ctx_at (D ++ C) x p ⊣⊢ ∃ q, path_at D x p q ∗ ctx_at C (top D x) q.
Proof.
  revert x p. induction D as [|[d c a k s] D IH]; intros x p; cbn.
  - iSplit; [iIntros "H"; iExists p; by iFrame|]. by iIntros "(%q & -> & $)".
  - rewrite ctx_at_cons. setoid_rewrite IH. iSplit.
    + iIntros "(% & %pp & %dd & Ha & Hs & %q & HD & HC)". iExists q. by iFrame.
    + iIntros "(%q & (% & %pp & %dd & Ha & Hs & HD) & HC)". by iFrame.
Qed.

Lemma top_any C x y : C <> [] -> top C x = top C y.
Proof. by destruct C as [|[]]. Qed.

Lemma wp_path_reparent {B} D x p q q' (k : unit -> RB B) rt Φ : D <> [] ->
  path_at D x p q -∗ (path_at D x p q' -∗ wp γ (k tt) rt Φ) -∗ wp γ (set_parent (top D x) q' ≫= k) rt Φ.
Proof.
  iIntros (HD) "HD H". iInduction D as [|[d c a kk s] D] "IH" forall (x p HD); [done|].
  cbn [path_at top]. iDestruct "HD" as "(%Hp & %pp & %dd & Ha & Hs & HD)". destruct (decide (D = [])) as [->|HD'].
  - cbn [path_at top]. iDestruct "HD" as %->. unfold_ops. wp_access a ltac:(fun i => iApply (wp_st with i)).
    iApply "H". iSplitR; [done|]. iExists q', dd. iFrame "Hs". iSplitL; [|done]. by destruct d.
  - iApply ("IH" with "[//] HD"). iIntros "HD". iApply "H". iSplitR; [done|]. iExists pp, dd. iFrame.
Qed.

Lemma path_top_not_sent D x p q : D <> [] -> path_at D x p q -∗ ⌜top D x <> sent⌝.
Proof.
  iIntros (HD) "HD". iInduction D as [|[d c b k s] D] "IH" forall (x p HD); [done|]. cbn.
  iDestruct "HD" as "([-> %] & %pp & %dd & Hb & _ & HD)". destruct D as [|f D]; [by iPureIntro|].
  by iApply ("IH" with "[//] HD").
Qed.

Lemma path_bottom_ne D x p q a n : D <> [] -> path_at D x p q -∗ a ↪[γ] n -∗ ⌜p <> a⌝.
Proof.
  iIntros (HD) "HD Ha". destruct D as [|[d c b k s] D]; [done|]. cbn.
  iDestruct "HD" as "([-> %] & %pp & %dd & Hb & _)". by iApply (ghost_map_elem_ne with "Hb Ha").
Qed.

(** ** Taking a node out *)

Lemma wp_set_parent {B} t p q v (k : unit -> RB B) rt Φ :
  tree_at t p -∗ sentinel_at q -∗
  (∀ q', ⌜t = E -> q' = v⌝ -∗ tree_at t v -∗ sentinel_at q' -∗ wp γ (k tt) rt Φ) -∗
  wp γ (set_parent (ad t) v ≫= k) rt Φ.
Proof.
  iIntros "Ht (%sk & %sl & %sr & %sd & Hs) H". unfold_ops. destruct t as [|c l a kk r]; cbn [RbLogic.ad].
  - wp_step. iApply ("H" $! v with "[//] [//]"). iExists _, _, _, _. iFrame.
  - rewrite tree_at_T. iDestruct "Ht" as "(%Ha & %dd & Ha & Hl & Hr)". wp_step.
    iApply ("H" $! q with "[//] [Ha Hl Hr]"); [|iExists _, _, _, _; iFrame]. iApply (T_intro with "[Ha] Hl Hr"); [done|iExact "Ha"].
Qed.

(** [if (subst == subst->parent->left) subst->parent->left = temp; else ...] *)
Lemma wp_unlink {B} C a n temp (k : unit -> RB B) rt Φ : C <> [] -> a <> sent ->
  a ↪[γ] n -∗ ctx_at C a (parent n) -∗
  (a ↪[γ] n -∗ ctx_at C temp (parent n) -∗ wp γ (k tt) rt Φ) -∗
  wp γ (sp ← ld parent a; spl ← ld left sp;
        (if a =? spl then sp ← ld parent a; set_left sp temp else sp ← ld parent a; set_right sp temp) ≫= k) rt Φ.
Proof.
  iIntros (HC Ha) "Ha HC H". destruct C as [|[d c b kb s] C]; [done|]. destruct n as [nk nl nr np nc dn]. cbn [parent].
  rewrite !ctx_at_cons. iDestruct "HC" as "([-> %Hb] & %pp & %dd & Hb & Hs & HC)".
  iDestruct (tree_ne with "Hs Ha") as %Hs. specialize (Hs Ha). unfold_ops.
  destruct d; wp_run; iApply ("H" with "Ha"); by iFrame.
Qed.

Lemma wp_min r : forall D D' c a k x fuel p rt Φ,
  min_split r D = Some (D', (c, a, k, x)) -> (height r <= fuel)%nat ->
  tree_at r p -∗ (tree_at r p -∗ Φ a rt) -∗ wp γ (rbtree_min fuel sent (ad r)) rt Φ.
Proof.
  induction r as [|cr l IH b kb r _]; intros D D' c a k x fuel p rt Φ HS HF; [done|]. iIntros "Ht H".
  cbn [height] in HF. destruct fuel as [|fuel]; [lia|]. cbn [rbtree_min RbLogic.ad]. rewrite tree_at_T.
  iDestruct "Ht" as "(%Hb & %dd & Hb & Hl & Hr)". wp_run. destruct (decide (l = E)) as [->|Hl].
  - cbn [RbLogic.ad]. rewrite Z.eqb_refl. injection HS as <- <- <- <- <-. wp_run. iApply "H". by iFrame.
  - iDestruct (tree_not_sent with "Hl") as %Hs. specialize (Hs Hl). wp_run.
    iApply (IH with "Hl"); [|lia|iIntros "Hl"; iApply "H"; by iFrame]. by destruct l.
Qed.

(** The end of a deletion, once the node is out. *)
Lemma wp_delete_tail C c t t' p q fuel Φ :
  del_finish C c t = Some t' -> C <> [] -> (t = E -> q = p) -> (S (length C) < fuel)%nat ->
  tree_at t p -∗ ctx_at C (ad t) p -∗ sentinel_at q -∗
  (∀ p0, tree_at t' p0 -∗ sentinel_at q -∗ Φ tt (ad t')) -∗
  wp γ (if col c =? RBTREE_COLOR_RED then mret tt else temp ← delete_loop fuel sent (ad t); rbtree_black temp)
    (top C (ad t)) Φ.
Proof.
  iIntros (Hf HC Hq HF) "Ht HC Hq H". destruct c.
  - change (col Red =? RBTREE_COLOR_RED) with true. wp_run. assert (t' = plug C t) as -> by (destruct C; [done|]; cbn in Hf; by injection Hf as <-).
    rewrite -plug_ad. iDestruct (unfocus with "[$Ht $HC]") as (p0) "Ht". by iApply ("H" with "Ht Hq").
  - change (col Black =? RBTREE_COLOR_RED) with false. wp_eq. iApply (wp_delete_loop with "Ht HC Hq H"); [by destruct C|done..].
Qed.

Definition cleared (n : rbtree_node_t) : rbtree_node_t := Node 0 NULL NULL NULL (color n) (data n).

Lemma wp_clear_node {B} a n (k : unit -> RB B) rt Φ :
  a ↪[γ] n -∗ (a ↪[γ] cleared n -∗ wp γ (k tt) rt Φ) -∗ wp γ (clear_node a ≫= k) rt Φ.
Proof. iIntros "Ha H". unfold clear_node. unfold_ops. destruct n. wp_run. by iApply "H". Qed.

(** [rbtree_delete] after the choice of [subst] and [temp]. *)
Definition delete_rest (fuel : nat) (node subst temp : Z) : RB unit :=
  r ← root;
  if subst =? r then
    set_root temp;; rbtree_black temp;; clear_node node
  else
    red ← rbtree_is_red subst;
    sp ← ld parent subst; spl ← ld left sp;
    (if subst =? spl then sp ← ld parent subst; set_left sp temp
     else sp ← ld parent subst; set_right sp temp);;
    (if subst =? node then sp ← ld parent subst; set_parent temp sp
     else delete_move sent node subst temp);;
    clear_node node;;
    if red : bool then mret tt
    else temp ← delete_loop fuel sent temp; rbtree_black temp.

(** A node with one child at most. *)
Lemma wp_delete_one C c a n x t' q fuel rt Φ :
  del_finish C c x = Some t' -> color n = col c -> rt = top C a -> a <> sent -> (S (length C) < fuel)%nat ->
  a ↪[γ] n -∗ tree_at x a -∗ ctx_at C a (parent n) -∗ sentinel_at q -∗
  (∀ p0 q', tree_at t' p0 -∗ sentinel_at q' -∗ a ↪[γ] cleared n -∗ Φ tt (ad t')) -∗
  wp γ (delete_rest fuel a a (ad x)) rt Φ.
Proof.
  iIntros (Hf Hc Hrt Ha HF) "Ha Hx HC Hq H". unfold delete_rest, root, set_root. wp_step.
  iDestruct (ctx_ne with "HC Ha") as %Hne. destruct (decide (C = [])) as [->|HC].
  - cbn [top] in Hrt. subst rt. rewrite Z.eqb_refl. wp_run. iApply (wp_black with "Hx Hq"). iIntros "Hx Hq".
    injection Hf as <-. iApply wp_last. iApply (wp_clear_node with "Ha"). iIntros "Ha". wp_run.
    iSpecialize ("H" with "Hx Hq Ha"). by rewrite black_ad.
  - specialize (Hne HC). rewrite -Hrt in Hne. wp_eq. unfold rbtree_is_red. do 3 wp_step.
    iApply (wp_unlink with "Ha HC"); [done..|]. iIntros "Ha HC". wp_run.
    iApply (wp_set_parent with "Hx Hq"). iIntros (q' Hq') "Hx Hq".
    iApply (wp_clear_node with "Ha"). iIntros "Ha". rewrite Hc.
    rewrite Hrt (top_any C a (ad x) HC). iApply (wp_delete_tail with "Hx HC Hq"); [done..|].
    iIntros (p0) "Ht Hq". iApply ("H" with "Ht Hq Ha").
Qed.

(** [if (subst->left != sentinel) subst->left->parent = subst] *)
Lemma wp_move_child {B} (f : rbtree_node_t -> Z) b n y p (k : unit -> RB B) rt Φ : f n = ad b ->
  y ↪[γ] n -∗ tree_at b p -∗ (y ↪[γ] n -∗ tree_at b y -∗ wp γ (k tt) rt Φ) -∗
  wp γ ((if negb (ad b =? sent) then x ← ld f y; set_parent x y else mret tt) ≫= k) rt Φ.
Proof.
  iIntros (Hf) "Hy Hb H". destruct (decide (b = E)) as [->|Hb].
  - cbn [RbLogic.ad]. rewrite Z.eqb_refl. wp_run. by iApply ("H" with "Hy").
  - iDestruct (tree_not_sent with "Hb") as %Hs. specialize (Hs Hb). wp_eq. wp_step. wp_step. rewrite Hf.
    destruct b as [|c l a kk r]; [done|]. rewrite tree_at_T. iDestruct "Hb" as "(%Ha & %dd & Ha & Hl & Hr)".
    cbn [RbLogic.ad]. unfold_ops. wp_run. iApply ("H" with "Hy"). by iApply (T_intro with "[Ha] Hl Hr").
Qed.

(** The successor takes the place of the node, from the end of the path [D]. *)
Lemma wp_delete_move D C a k l pp (c : colour) da ya yk yr p (cy : colour) dy q rt Φ :
  rt = top C a -> a <> sent -> ya <> sent ->
  a ↪[γ] Node k (ad l) (top D (ad yr)) pp (col c) da -∗ ya ↪[γ] Node yk sent (ad yr) p (col cy) dy -∗
  path_at D (ad yr) p a -∗ tree_at l a -∗ tree_at yr ya -∗ ctx_at C a pp -∗ sentinel_at q -∗
  (∀ p' q', ⌜yr = E -> q' = p'⌝ -∗
     a ↪[γ] Node k (ad l) (top D (ad yr)) pp (col c) da -∗ ya ↪[γ] Node yk (ad l) (top D (ad yr)) pp (col c) dy -∗
     path_at D (ad yr) p' ya -∗ tree_at l ya -∗ tree_at yr p' -∗ ctx_at C ya pp -∗ sentinel_at q' -∗
     Φ tt (top C ya)) -∗
  wp γ (delete_move sent a ya (ad yr)) rt Φ.
Proof.
  iIntros (Hrt Ha Hya) "Ha Hy HD Hl Hyr HC Hq H". unfold delete_move, set_left, set_right, rbtree_copy_color.
  destruct (decide (D = [])) as [->|HD].
  - cbn [path_at top]. iDestruct "HD" as %->. wp_step. wp_eq. iApply (wp_set_parent with "Hyr Hq").
    iIntros (q' Hq') "Hyr Hq". wp_run. change (set_parent ya pp) with (st (R := Z) (with_parent pp) ya). wp_run.
    iApply (wp_replace_child γ sent L with "Ha HC"); [done..|]. iIntros "Ha HC". wp_step.
    iApply (wp_move_child with "Hy Hl"); [done|]. iIntros "Hy Hl". wp_step.
    iApply wp_last. iApply (wp_move_child with "Hy Hyr"); [done|]. iIntros "Hy Hyr". wp_step.
    iApply ("H" $! ya q' with "[//] Ha Hy [//] Hl Hyr HC Hq").
  - iDestruct (path_bottom_ne with "HD Ha") as %Hp; [done|]. wp_step. wp_eq. do 2 wp_step.
    iApply (wp_set_parent with "Hyr Hq"). iIntros (q' Hq') "Hyr Hq". wp_run. change (set_parent ya pp) with (st (R := Z) (with_parent pp) ya). wp_run.
    iApply (wp_replace_child γ sent L with "Ha HC"); [done..|]. iIntros "Ha HC". wp_step.
    iApply (wp_move_child with "Hy Hl"); [done|]. iIntros "Hy Hl". wp_step.
    iDestruct (path_top_not_sent with "HD") as %Hs; [done|]. wp_eq. wp_step.
    iApply wp_last. iApply (wp_path_reparent with "HD"); [done|]. iIntros "HD". wp_step.
    iApply ("H" $! p q' with "[//] Ha Hy HD Hl Hyr HC Hq").
Qed.

Lemma top_app D C x : top (D ++ C) x = top C (top D x).
Proof. revert x. by induction D as [|[] D IH]; intros x; cbn. Qed.

(** A node with two children: its successor is taken out and put in its place. *)
Lemma wp_delete_two C c a k l pp da D cy ya yk yr t' q fuel rt Φ :
  let n := Node k (ad l) (ad (plug D (T cy E ya yk yr))) pp (col c) da in
  del_finish (D ++ Fr R c ya yk l :: C) cy yr = Some t' -> rt = top C a -> a <> sent ->
  (S (S (length D + length C)) < fuel)%nat ->
  a ↪[γ] n -∗ tree_at l a -∗ tree_at (plug D (T cy E ya yk yr)) a -∗ ctx_at C a pp -∗ sentinel_at q -∗
  (∀ p0 q' n', tree_at t' p0 -∗ sentinel_at q' -∗ a ↪[γ] cleared n' -∗ Φ tt (ad t')) -∗
  wp γ (delete_rest fuel a ya (ad yr)) rt Φ.
Proof.
  intros n. subst n. rewrite plug_ad. iIntros (Hf Hrt Ha HF) "Ha Hl Hr HC Hq H". rewrite path_focus.
  iDestruct "Hr" as (p) "[Hy HD]". rewrite tree_at_T. iDestruct "Hy" as "(%Hya & %dy & Hy & _ & Hyr)". cbn [RbLogic.ad].
  iDestruct (ghost_map_elem_ne with "Hy Ha") as %Hne.
  iAssert (ctx_at (D ++ Fr R c a k l :: C) ya p) with "[Ha Hl HC HD]" as "HG".
  { rewrite ctx_at_app. iExists a. iFrame "HD". rewrite ctx_at_cons. by iFrame. }
  iDestruct (ctx_ne with "HG Hy") as %Hrt'. rewrite top_app in Hrt'. cbn [top] in Hrt'. rewrite -Hrt in Hrt'. specialize (Hrt' ltac:(by destruct D)).
  unfold delete_rest, rbtree_is_red, root. wp_step. wp_eq. do 3 wp_step.
  iApply (wp_unlink with "Hy HG"); [by destruct D|done|]. iIntros "Hy HG". wp_eq. rewrite ctx_at_app.
  iDestruct "HG" as (a') "[HD HG]". rewrite ctx_at_cons. iDestruct "HG" as "([-> _] & %pp' & %da' & Ha & Hl & HC)".
  iApply wp_bind. iApply (wp_delete_move with "Ha Hy HD Hl Hyr HC Hq"); [done..|].
  iIntros (p' q') "%Hq' Ha Hy HD Hl Hyr HC Hq". iApply (wp_clear_node with "Ha"). iIntros "Ha".
  replace (top C ya) with (top (D ++ Fr R c ya yk l :: C) (ad yr)) by (by rewrite top_app).
  iApply (wp_delete_tail with "Hyr [Hy HD Hl HC] Hq"); [done|by destruct D|done|rewrite length_app; cbn; lia| |].
  - rewrite ctx_at_app. iExists ya. iFrame "HD". rewrite ctx_at_cons. by iFrame.
  - iIntros (p0) "Ht Hq". iApply ("H" with "Ht Hq Ha").
Qed.

Lemma plug_height C t : (length C + height t <= height (plug C t))%nat.
Proof.
  revert t. induction C as [|[d c a k s] C IH]; intros t; cbn [plug length]; [lia|].
  specialize (IH (nd d c t a k s)). unfold nd in *. destruct d; cbn [height] in IH; lia.
Qed.

Lemma wp_delete C c l a k r p0 q t' fuel rt Φ :
  let t := plug C (T c l a k r) in
  del_node C c l r = Some t' -> rt = ad t -> (height t < fuel)%nat ->
  tree_at t p0 -∗ sentinel_at q -∗
  (∀ p0 q' n', tree_at t' p0 -∗ sentinel_at q' -∗ a ↪[γ] cleared n' -∗ Φ tt (ad t')) -∗
  wp γ (rbtree_delete fuel sent a) rt Φ.
Proof.
  intros t Hd Hrt HF. iIntros "Ht Hq H". subst t. rewrite plug_ad in Hrt. cbn [RbLogic.ad] in Hrt.
  pose proof (plug_height C (T c l a k r)) as HH. cbn [height] in HH. rewrite focus. iDestruct "Ht" as (pp) "[Ht HC]".
  rewrite tree_at_T. iDestruct "Ht" as "(%Ha & %da & Ha & Hl & Hr)". cbn [RbLogic.ad].
  change (rbtree_delete fuel sent a) with ('(s, t) ← delete_subst fuel sent a; delete_rest fuel a s t).
  unfold delete_subst. wp_step. wp_step. destruct (decide (l = E)) as [->|Hl].
  { cbn [RbLogic.ad]. rewrite Z.eqb_refl. wp_run.
    iApply (wp_delete_one with "Ha Hr HC Hq"); [done..|lia|]. iIntros (p1 q') "Ht Hq Ha". iApply ("H" with "Ht Hq Ha"). }
  iDestruct (tree_not_sent with "Hl") as %Hsl. specialize (Hsl Hl). wp_eq. do 2 wp_step. destruct (decide (r = E)) as [->|Hr].
  { cbn [RbLogic.ad]. rewrite Z.eqb_refl. wp_run. assert (del_finish C c l = Some t') by (by destruct l).
    iApply (wp_delete_one with "Ha Hl HC Hq"); [done..|lia|]. iIntros (p1 q') "Ht Hq Ha". iApply ("H" with "Ht Hq Ha"). }
  iDestruct (tree_not_sent with "Hr") as %Hsr. specialize (Hsr Hr). wp_eq. do 3 wp_step.
  destruct (min_split_spec r [] Hr) as (D & cy & ya & yk & yr & Hm & Er & _). rewrite app_nil_r in Hm.
  iApply wp_bind. iApply (wp_min with "Hr"); [done|lia|]. iIntros "Hr".
  iApply wp_bind. iApply (wp_wand _ _ rt (fun st r0 => ⌜st = (ya, ad yr) /\ r0 = rt⌝ ∗ tree_at r a)%I with "[Hr]").
  - rewrite {1}Er path_focus. iDestruct "Hr" as (p) "[Hy HD]". rewrite tree_at_T.
    iDestruct "Hy" as "(%Hya & %dy & Hy & Hn & Hyr)". cbn [RbLogic.ad]. wp_run. iSplitR; [done|].
    rewrite Er path_focus. iExists p. iFrame "HD". by iApply (T_intro with "[Hy] Hn Hyr").
  - iIntros (st r0) "[[-> ->] Hr]". rewrite Er in HF HH |- *. pose proof (plug_height D (T cy E ya yk yr)) as HD.
    iApply (wp_delete_two with "Ha Hl Hr HC Hq H"); [|done|done|cbn [height] in HD; lia].
    rewrite -Hd. unfold del_node. rewrite Hm. by destruct l, r.
Qed.

End remove.

End RbRemove.
