(* ===== verification/RbCorrect.v ===== *)
(** * The red-black tree operations as operations on a sorted list

    [tree_rep] and [rep] are statements about a store: the nodes reachable
    from the root are a red-black tree whose elements, in order, are a given
    list.  The specifications proved with the program logic are turned into
    theorems about running the operations. *)

From Stdlib Require Import ZArith Lia.
From stdpp Require Import base numbers gmap option list sorting.
From iris.proofmode Require Import proofmode environments.
From iris.base_logic.lib Require Import own ghost_map.
From S2P Require Import Prelude HeapLogic Rbtree RbSpec RbLogic RbInsert RbDelete RbOps RbRemove.

Module RbCorrect.
Import Rbtree RbSpec RbLogic.

Notation store := (gmap Z rbtree_node_t * Z)%type.

Definition addrs (t : tree) : list Z := map fst (elts t).

(** The nodes of [t] are in [h], with the parent pointer [p] at its root. *)
Fixpoint holds (h : gmap Z rbtree_node_t) (sent : Z) (t : tree) (p : Z) : Prop :=
  match t with
  | E => True
  | T c l a k r =>
      (exists dd, h !! a = Some (Node k (ad sent l) (ad sent r) p (col c) dd)) /\ holds h sent l a /\ holds h sent r a
  end.

Record tree_rep (sent : Z) (s : store) (t : tree) : Prop := {
  tr_nodes : exists p, holds s.1 sent t p;
  tr_distinct : NoDup (sent :: addrs t);
  tr_sentinel : exists n, s.1 !! sent = Some n /\ color n = RBTREE_COLOR_BLACK;
  tr_null : NULL ∉ sent :: addrs t;
  tr_root : s.2 = ad sent t;
}.

(** A tree of the elements [xs] (an address and a key each), in the order of the keys. *)
Definition rep (sent : Z) (s : store) (xs : list (Z * Z)) : Prop :=
  exists t, tree_rep sent s t /\ rb t /\ elts t = xs /\ sorted xs.

Lemma holds_some h sent t p : holds h sent t p -> Forall (fun a => is_Some (h !! a)) (addrs t).
Proof.
  unfold addrs. revert p. induction t as [|c l IHl a k r IHr]; intros p; simpl; [by constructor|].
  intros ([dd Ha] & Hl & Hr). rewrite map_app Forall_app. split; [by eapply IHl|]. simpl. constructor; eauto.
Qed.

(** ** From assertions to the store and back *)

Section transfer.

Context `{!ghost_mapG Σ Z rbtree_node_t} (γ : gname) (sent : Z).

Local Notation tree_at := (RbLogic.tree_at γ sent).
Local Notation sentinel_at := (RbLogic.sentinel_at γ sent).

Lemma own_tree h t p : holds h sent t p -> sent ∉ addrs t ->
  ([∗ list] a ∈ addrs t, ∃ n, ⌜h !! a = Some n⌝ ∗ a ↪[γ] n) ⊢ tree_at t p.
Proof.
  revert p. unfold addrs. induction t as [|c l IHl a k r IHr]; intros p; cbn [holds elts]; [by rewrite tree_at_E; auto|].
  rewrite map_app not_elem_of_app not_elem_of_cons. intros ([dd Ha] & Hl & Hr) (Nl & Na & Nr). rewrite big_sepL_app. simpl.
  rewrite IHl // IHr // tree_at_T. iIntros "($ & (%n & %Hn & Ha) & $)".
  rewrite Ha in Hn. injection Hn as <-. iSplitR; [done|]. by iExists dd.
Qed.

Lemma tree_own h t p : ghost_map_auth γ 1 h -∗ tree_at t p -∗
  ⌜holds h sent t p⌝ ∗ ghost_map_auth γ 1 h ∗ [∗ list] a ∈ addrs t, ∃ n, a ↪[γ] n.
Proof.
  unfold addrs. iIntros "Hh Ht". iInduction t as [|c l a k r] "IH" forall (p); simpl; [by auto with iFrame|].
  rewrite tree_at_T. iDestruct "Ht" as "(_ & %dd & Ha & Hl & Hr)". iDestruct (ghost_map_lookup with "Hh Ha") as %Ha.
  iDestruct ("IH" with "Hh Hl") as "(%Hl & Hh & Hl)". iDestruct ("IH1" with "Hh Hr") as "(%Hr & Hh & Hr)".
  iFrame "Hh". iSplitR; [by eauto|]. rewrite map_app big_sepL_app. simpl. iFrame.
Qed.

Lemma own_NoDup (xs : list Z) : ([∗ list] a ∈ xs, ∃ n, a ↪[γ] n) ⊢ ⌜NoDup xs⌝.
Proof.
  induction xs as [|x xs IH]; cbn; [iIntros "_"; iPureIntro; constructor|].
  iIntros "[(%n & Hx) Hxs]". iAssert ⌜x ∉ xs⌝%I as %Hx.
  { iIntros (Hin). apply list_elem_of_lookup in Hin as [i Hi]. iDestruct (big_sepL_lookup with "Hxs") as (m) "Hm"; [done|].
    iDestruct (ghost_map_elem_ne with "Hx Hm") as %Hne. done. }
  rewrite IH. iDestruct "Hxs" as %Hnd. iPureIntro. by constructor.
Qed.

(** A sentinel and a tree owned together, seen in the store. *)
Lemma own_tree_rep h t p q : NULL ∉ sent :: addrs t ->
  ghost_map_auth γ 1 h -∗ tree_at t p -∗ sentinel_at q -∗ ⌜tree_rep sent (h, ad sent t) t⌝.
Proof.
  iIntros (Hnull) "Hh Ht (%k & %l & %r & %dd & Hs)". iDestruct (ghost_map_lookup with "Hh Hs") as %Hs.
  iDestruct (tree_own with "Hh Ht") as "(%Ht & Hh & Ht)".
  iDestruct (own_NoDup (sent :: addrs t) with "[Hs $Ht]") as %Hnd; [by eauto|].
  iPureIntro. split; eauto.
Qed.

End transfer.

(** A specification about a tree is a statement about a store; [extra] are
    nodes outside the tree before, [extra'] after. *)
Lemma rep_adequate {A} sent (m : RB A) s t t' extra extra' (P : Z -> rbtree_node_t -> Prop) (Q : A -> Prop) :
  tree_rep sent s t -> NoDup (sent :: addrs t ++ extra) -> Forall (fun a => is_Some (s.1 !! a)) extra ->
  NULL ∉ sent :: addrs t' ->
  (forall Σ (H : ghost_mapG Σ Z rbtree_node_t) γ p q,
     tree_at γ sent t p -∗ sentinel_at γ sent q -∗ ([∗ list] a ∈ extra, ∃ n, ⌜s.1 !! a = Some n⌝ ∗ a ↪[γ] n) -∗
     wp γ m (ad sent t) (fun v rt => ⌜Q v /\ rt = ad sent t'⌝ ∗ (∃ p, tree_at γ sent t' p) ∗ (∃ q, sentinel_at γ sent q) ∗
       [∗ list] a ∈ extra', ∃ n, ⌜P a n⌝ ∗ a ↪[γ] n)) ->
  exists v s', m s = Some (v, s') /\ Q v /\ tree_rep sent s' t' /\ dom s'.1 = dom s.1 /\
    Forall (fun a => exists n, s'.1 !! a = Some n /\ P a n) extra' /\
    forall b, b ∉ sent :: addrs t ++ extra -> s'.1 !! b = s.1 !! b.
Proof.
  intros [[p Hh] Hnd (sn & Hsn & Hcol) Hnull Hrt] Hnd' Hex Hnull' Hwp. destruct s as [h rt]. cbn [fst snd] in *.
  destruct (wp_adequate m h rt (fun v rt' h' =>
    Q v /\ tree_rep sent (h', rt') t' /\
    Forall (fun a => exists n, h' !! a = Some n /\ P a n) extra' /\
    filter (fun x => fst x ∉ sent :: addrs t ++ extra) h ⊆ h')) as (v & h' & rt' & Hm & Hdom & HQ & Hrep & Hex' & Hsub).
  { intros Σ HG γ. rewrite (own_some γ h (sent :: addrs t ++ extra)) //.
    2: { constructor; [by eauto|]. apply Forall_app. eauto using holds_some. }
    rewrite big_sepL_cons big_sepL_app own_tree //; [|by apply NoDup_cons in Hnd as [? _]].
    iIntros "((Hs & Ht & Hex) & Hrest)". iDestruct "Hs" as (n Hn) "Hs". assert (n = sn) as -> by congruence.
    rewrite Hrt. iApply (wp_wand with "[Hs Ht Hex]").
    { iApply (Hwp _ _ _ p (parent sn) with "Ht [Hs] Hex"). destruct sn. cbn in Hcol. subst. iExists _, _, _, _. iFrame. }
    iIntros (v rt') "((%HQ & %Hrt') & [%p' Ht] & [%q Hs] & Hex)". iIntros (h') "Hh".
    iDestruct (ghost_map_lookup_big with "Hh Hrest") as %Hsub.
    iAssert (⌜Forall (fun a => exists n, h' !! a = Some n /\ P a n) extra'⌝)%I as %HE.
    { rewrite Forall_lookup. iIntros (i a Hi). iDestruct (big_sepL_lookup with "Hex") as (n HP) "Ha"; [done|].
      iDestruct (ghost_map_lookup with "Hh Ha") as %?. iPureIntro. eauto. }
    iDestruct (own_tree_rep with "Hh Ht Hs") as %Hrep; [done|]. subst rt'. by iPureIntro. }
  exists v, (h', rt'). do 5 (split; [done|]). intros b Hb. cbn. destruct (h !! b) as [n|] eqn:Eb.
  - eapply lookup_weaken; [|exact Hsub]. by apply map_lookup_filter_Some.
  - apply not_elem_of_dom. rewrite Hdom. by apply not_elem_of_dom.
Qed.

(** ** Operations *)

(** Enough iterations for a descent of a tree of [n] nodes. *)
Definition depth (n : nat) : nat := S (2 * Nat.log2 (S n)).

Lemma depth_mono m n : (m <= n)%nat -> (depth m <= depth n)%nat.
Proof. intros H. unfold depth. assert (Nat.log2 (S m) <= Nat.log2 (S n))%nat by (apply Nat.log2_le_mono; lia). lia. Qed.

Lemma rb_depth t : rb t -> (height t < depth (length (elts t)))%nat.
Proof. intros H. unfold depth. pose proof (rb_height t H). lia. Qed.

Lemma rb_not_red t : rb t -> is_red t = false.
Proof. intros [n H]. by inversion H. Qed.

Lemma tree_rep_rest sent s t a k : tree_rep sent s t -> sorted (elts t) -> a ∉ sent :: NULL :: addrs t ->
  NoDup (sent :: addrs t ++ [a]) /\ NULL ∉ sent :: addrs (RbSpec.insert t a k) /\ (t <> E -> ad sent t <> NULL).
Proof.
  intros [_ Hnd _ Hnull _] Hs Ha. split; [|split].
  - rewrite (app_comm_cons (addrs t) [a] sent). apply NoDup_app. split; [done|]. split; [set_solver|apply NoDup_singleton].
  - unfold addrs. rewrite insert_elts // ins_list_perm. simpl. fold (addrs t). set_solver.
  - intros Hne. destruct t as [|c l b kb r]; [done|]. cbn [ad]. intros ->. apply Hnull. unfold addrs. simpl.
    rewrite map_app. simpl. set_solver.
Qed.

Lemma insert_run sent s xs a n fuel :
  rep sent s xs -> s.1 !! a = Some n -> a ∉ sent :: NULL :: map fst xs -> (depth (length xs) <= fuel)%nat ->
  exists s', rbtree_insert (rbtree_insert_timer_value fuel) fuel sent a s = Some (tt, s') /\
    rep sent s' (ins_list a (key n) xs) /\ dom s'.1 = dom s.1 /\
    forall b, b ∉ sent :: a :: map fst xs -> s'.1 !! b = s.1 !! b.
Proof.
  intros (t & Hrep & Hrb & <- & Hs) Ha Hnin HF. pose proof (rb_depth t Hrb) as Hd.
  destruct (tree_rep_rest sent s t a (key n) Hrep Hs Hnin) as (Hnd & Hnull & Hnull0).
  destruct (rep_adequate sent (rbtree_insert (rbtree_insert_timer_value fuel) fuel sent a) s t
    (RbSpec.insert t a (key n)) [a] [] (fun _ _ => True) (fun _ => True)) as ([] & s' & Hm & _ & Hrep' & Hdom & _ & Hfr); auto.
  - intros Σ HG γ p q. iIntros "Ht Hs [(%n' & %Hn & Ha) _]". assert (n' = n) as -> by congruence.
    iApply (RbOps.wp_insert with "Ht Hs Ha"); [by apply RbOps.insert_timer_inserts; lia|by apply rb_not_red|lia|done|set_solver..|done|].
    iIntros (p0) "Ht Hs". iSplitR; [done|]. by iFrame.
  - exists s'. split; [done|]. split; [|split; [done|]].
    + exists (RbSpec.insert t a (key n)). split; [done|]. split; [by apply insert_rb|]. split; [by apply insert_elts|].
      by apply ins_list_sorted.
    + intros b Hb. apply Hfr. unfold addrs. set_solver.
Qed.

(** The place of an element in a tree. *)
Lemma elts_plug t xs a k ys : elts t = xs ++ (a, k) :: ys ->
  exists C c l r, t = plug C (T c l a k r) /\ xs = before C ++ elts l /\ ys = elts r ++ after C.
Proof.
  revert xs ys. induction t as [|c l IHl b kb r IHr]; intros xs ys He; simpl in He; [by destruct xs|].
  apply app_eq_inv in He as [(zs & Hl & Hr)|(zs & Hl & Hr)].
  - destruct zs as [|z zs]; simpl in Hr; injection Hr as ? ?; subst.
    + exists [], c, l, r. rewrite app_nil_r in Hl. simpl. by rewrite app_nil_r Hl.
    + destruct (IHl _ _ Hl) as (C & c' & l' & r' & -> & -> & ->). exists (C ++ [Fr L c b kb r]), c', l', r'.
      rewrite plug_app before_app after_app. simpl. by rewrite -app_assoc app_nil_r.
  - subst xs. destruct zs as [|z zs]; simpl in Hr; [injection Hr as -> -> <-|injection Hr as <- Hr].
    + exists [], c, l, r. simpl. by rewrite !app_nil_r.
    + destruct (IHr _ _ Hr) as (C & c' & l' & r' & -> & -> & ->). exists (C ++ [Fr R c b kb l]), c', l', r'.
      rewrite plug_app before_app after_app. simpl. by rewrite -!app_assoc app_nil_r.
Qed.

Lemma sorted_remove xs x ys : sorted (xs ++ x :: ys) -> sorted (xs ++ ys).
Proof.
  unfold sorted. induction xs as [|y xs IH]; simpl; inversion_clear 1 as [|? ? Hs Hf]; [done|]. constructor; [by apply IH|].
  rewrite Forall_app Forall_cons in Hf. apply Forall_app. tauto.
Qed.

Lemma delete_run sent s xs a k ys fuel :
  rep sent s (xs ++ (a, k) :: ys) -> (depth (length (xs ++ (a, k) :: ys)) <= fuel)%nat ->
  exists s', rbtree_delete fuel sent a s = Some (tt, s') /\ rep sent s' (xs ++ ys) /\ dom s'.1 = dom s.1 /\
    (exists n, s'.1 !! a = Some n /\ n = RbRemove.cleared n) /\
    forall b, b ∉ sent :: map fst (xs ++ (a, k) :: ys) -> s'.1 !! b = s.1 !! b.
Proof.
  intros (t & Hrep & Hrb & Ht & Hs) HF. rewrite -Ht in HF. pose proof (rb_depth t Hrb) as Hd.
  destruct (elts_plug t xs a k ys Ht) as (C & c & l & r & -> & Hxs & Hys).
  destruct (del_node_rb C c l a k r Hrb) as (t' & Hdel & Hrb'). pose proof (del_node_elts _ _ _ _ _ Hdel) as He.
  assert (He' : elts t' = xs ++ ys) by (rewrite He Hxs Hys -!app_assoc; done).
  destruct (rep_adequate sent (rbtree_delete fuel sent a) s (plug C (T c l a k r)) t' [] [a]
    (fun _ n => n = RbRemove.cleared n) (fun _ => True)) as ([] & s' & Hm & _ & Hrep' & Hdom & Hcl & Hfr).
  - done.
  - rewrite app_nil_r. by apply tr_distinct in Hrep.
  - constructor.
  - apply tr_null in Hrep. unfold addrs in *. rewrite He' Ht in Hrep |- *. rewrite !map_app in Hrep |- *. set_solver.
  - intros Σ HG γ p q. iIntros "Ht Hs _". iApply (RbRemove.wp_delete with "Ht Hs"); [done..|lia|].
    iIntros (p0 q' n') "Ht Hs Ha". iSplitR; [done|]. iFrame "Ht Hs". iSplitL; [|done]. iExists _. iFrame "Ha". by iPureIntro.
  - exists s'. split; [done|]. split; [|split; [done|split]].
    + exists t'. do 3 (split; [done|]). by eapply sorted_remove.
    + by inversion Hcl.
    + intros b Hb. apply Hfr. by rewrite app_nil_r /addrs Ht.
Qed.

Lemma min_pure fuel sent a s b s' : rbtree_min fuel sent a s = Some (b, s') -> s' = s.
Proof.
  revert a. induction fuel as [|fuel IH]; intros a; [done|]. cbn [rbtree_min]. unfold mbind, ST_bind, ld, gets.
  destruct (left <$> s.1 !! a) as [l|]; [|done]. destruct (l =? sent); [by intros [= <- <-]|apply IH].
Qed.

Lemma min_run sent s a k xs fuel : rep sent s ((a, k) :: xs) -> (depth (S (length xs)) <= fuel)%nat ->
  rbtree_min fuel sent s.2 s = Some (a, s).
Proof.
  intros (t & Hrep & Hrb & Ht & Hs) HF. pose proof (rb_depth t Hrb) as Hd. rewrite Ht in Hd. cbn [length] in Hd.
  destruct (min_split_spec t []) as (D & c & b & kb & r & Hm & Et & Hb); [by intros ->|].
  destruct (rep_adequate sent (rbtree_min fuel sent s.2) s t t [] [] (fun _ _ => True) (fun v => v = b))
    as (v & s' & Hrun & -> & _); [done|rewrite app_nil_r; by apply tr_distinct in Hrep|constructor|by apply tr_null in Hrep| |].
  - intros Σ HG γ p q. iIntros "Ht Hs _". rewrite (tr_root _ _ _ Hrep).
    iApply (RbRemove.wp_min with "Ht"); [done|lia|]. iIntros "Ht". iSplitR; [done|]. by iFrame.
  - assert (b = a) as <-; [|by rewrite Hrun (min_pure _ _ _ _ _ _ Hrun)].
    rewrite Et plug_elts Hb in Ht. simpl in Ht. by injection Ht.
Qed.

(** The root is the sentinel when there is no element, and only then. *)
Lemma root_empty sent s xs : rep sent s xs -> s.2 = sent <-> xs = [].
Proof.
  intros (t & [_ Hnd _ _ ->] & _ & <- & _). destruct t as [|c l a k r]; [done|]. cbn [ad elts]. split; [|by destruct (elts l)].
  intros ->. apply NoDup_cons in Hnd as [Hn _]. exfalso. apply Hn. unfold addrs. simpl. rewrite map_app. set_solver.
Qed.

(** The node of an element holds its key. *)
Lemma rep_key sent s xs a k : rep sent s xs -> (a, k) ∈ xs -> exists n, s.1 !! a = Some n /\ key n = k.
Proof.
  intros (t & [[p Hh] _ _ _ _] & _ & <- & _). revert p Hh. induction t as [|c l IHl b kb r IHr]; intros p; simpl; [by intros ? ?%elem_of_nil|].
  intros ([dd Hb] & Hl & Hr). rewrite elem_of_app elem_of_cons. intros [?|[[= -> ->]|?]]; eauto.
Qed.

Lemma rep_distinct sent s xs : rep sent s xs -> NoDup (sent :: map fst xs).
Proof. by intros (t & [_ Hnd _ _ _] & _ & <- & _). Qed.

(** A node outside the tree may change. *)
Lemma holds_update h sent t p a n : a ∉ addrs t -> holds h sent t p -> holds (<[a := n]> h) sent t p.
Proof.
  unfold addrs. revert p. induction t as [|c l IHl b k r IHr]; intros p; simpl; [done|].
  rewrite map_app not_elem_of_app. simpl. rewrite not_elem_of_cons.
  intros (Hal & Hab & Har) ([dd Hb] & Hl & Hr). split; [|by auto]. exists dd. by rewrite lookup_insert_ne.
Qed.

Lemma tree_rep_update sent h rt xs a n : a ∉ sent :: map fst xs -> rep sent (h, rt) xs -> rep sent (<[a := n]> h, rt) xs.
Proof.
  intros Ha (t & [[p Hh] Hnd (sn & Hs & Hc) Hnull Hrt] & Hrb & <- & Hso). apply not_elem_of_cons in Ha as [Ha1 Ha2].
  exists t. split; [|done]. split; try done; cbn in *.
  - exists p. by apply holds_update.
  - exists sn. by rewrite lookup_insert_ne.
Qed.

Lemma rep_empty sent h n : h !! sent = Some n -> color n = RBTREE_COLOR_BLACK -> sent <> NULL -> rep sent (h, sent) [].
Proof.
  intros Hn Hc Hs. exists E. split; [|split; [by exists 0%nat; constructor|split; [done|constructor]]].
  split; cbn; eauto; [apply NoDup_singleton|set_solver].
Qed.

(** ** Claims *)

(** C21. [rbtree_insert] with [rbtree_insert_timer_value], run on any store that
    holds a red-black tree of the elements [xs] in the order of their keys and
    a node [a] outside the tree, does not run into undefined behaviour, ends
    within [2 log2 (n + 1) + 1] turns of each loop, and leaves a red-black tree
    of [xs] with [a] put after the elements whose key is not greater; nodes
    that are neither the sentinel, [a] nor of the tree are untouched. *)
Theorem rbtree_insert_refines sent s xs a n :
  rep sent s xs -> s.1 !! a = Some n -> a ∉ sent :: NULL :: map fst xs ->
  let fuel := depth (length xs) in
  exists s', rbtree_insert (rbtree_insert_timer_value fuel) fuel sent a s = Some (tt, s') /\
    rep sent s' (ins_list a (key n) xs) /\
    forall b, b ∉ sent :: a :: map fst xs -> s'.1 !! b = s.1 !! b.
Proof. intros Hr Hn Ha fuel. destruct (insert_run sent s xs a n fuel Hr Hn Ha) as (s' & ? & ? & _ & ?); eauto. Qed.

(** C20. [rbtree_delete] of a node of the tree does not run into undefined
    behaviour, ends within [2 log2 (n + 1) + 1] turns of each loop, leaves a
    red-black tree of the other elements in the same order, and clears the key
    and the links of the deleted node; nodes outside the tree are untouched. *)
Theorem rbtree_delete_refines sent s xs a k ys :
  rep sent s (xs ++ (a, k) :: ys) ->
  exists s', rbtree_delete (depth (length (xs ++ (a, k) :: ys))) sent a s = Some (tt, s') /\ rep sent s' (xs ++ ys) /\
    (exists n, s'.1 !! a = Some n /\ (key n, left n, right n, parent n) = (0, NULL, NULL, NULL)) /\
    forall b, b ∉ sent :: map fst (xs ++ (a, k) :: ys) -> s'.1 !! b = s.1 !! b.
Proof.
  intros Hr. destruct (delete_run sent s xs a k ys _ Hr (le_n _)) as (s' & ? & ? & _ & (n & Hn & Hc) & ?).
  exists s'. do 2 (split; [done|]). split; [|done]. exists n. split; [done|]. by rewrite Hc.
Qed.

(** In a tree of [n] elements the descent of [rbtree_min] reaches the
    first element, and every root-to-leaf path ends, within
    [2 log2 (n + 1) + 1] steps; the search changes nothing. *)
Theorem rbtree_depth_bound sent s a k xs t :
  tree_rep sent s t -> RbSpec.rb t -> sorted (elts t) -> elts t = (a, k) :: xs ->
  rbtree_min (depth (S (length xs))) sent s.2 s = Some (a, s) /\
  (height t <= 2 * Nat.log2 (S (S (length xs))))%nat.
Proof.
  intros Hr Hrb Hs He. rewrite He in Hs. split; [eapply min_run; [by exists t|done]|]. pose proof (rb_height t Hrb) as H. by rewrite He in H.
Qed.

(** A tree of two nodes, 100 and 200, over the sentinel 1; node 300 is outside. *)
Definition ex_tree : tree := T Black E 100 5 (T Red E 200 9 E).
Definition ex_store : store :=
  (<[1 := Node 0 0 0 0 RBTREE_COLOR_BLACK 0]> (<[100 := Node 5 1 200 0 RBTREE_COLOR_BLACK 0]>
    (<[200 := Node 9 1 1 100 RBTREE_COLOR_RED 0]> {[300 := Node 12 0 0 0 RBTREE_COLOR_BLACK 0]})), 100).

Lemma ex_rep : tree_rep 1 ex_store ex_tree /\ RbSpec.rb ex_tree.
Proof.
  split; [split|].
  - exists 0. vm_compute. repeat split; by exists 0.
  - by_decide.
  - exists (Node 0 0 0 0 RBTREE_COLOR_BLACK 0). by vm_compute.
  - by_decide.
  - done.
  - exists 1%nat. repeat constructor.
Qed.

Lemma ex_rep_list : rep 1 ex_store [(100, 5); (200, 9)].
Proof.
  exists ex_tree. destruct ex_rep as [H1 H2]. split; [done|]. split; [done|]. split; [done|]. repeat constructor; cbn; lia.
Qed.

Lemma rbtree_insert_refines_witness :
  exists s', rbtree_insert (rbtree_insert_timer_value 3) 3 1 300 ex_store = Some (tt, s') /\
    rep 1 s' [(100, 5); (200, 9); (300, 12)].
Proof.
  destruct (rbtree_insert_refines 1 ex_store [(100, 5); (200, 9)] 300 (Node 12 0 0 0 RBTREE_COLOR_BLACK 0) ex_rep_list)
    as (s' & H1 & H2 & _); [reflexivity|by_decide|]. exists s'. split; [exact H1|exact H2].
Defined.

Lemma rbtree_delete_refines_witness :
  exists s', rbtree_delete 3 1 100 ex_store = Some (tt, s') /\ rep 1 s' [(200, 9)].
Proof.
  destruct (rbtree_delete_refines 1 ex_store [] 100 5 [(200, 9)] ex_rep_list) as (s' & H1 & H2 & _).
  exists s'. split; [exact H1|exact H2].
Defined.

Lemma rbtree_depth_bound_witness : rbtree_min 3 1 100 ex_store = Some (100, ex_store) /\ (height ex_tree <= 2)%nat.
Proof.
  destruct ex_rep as [H1 H2].
  refine (rbtree_depth_bound 1 ex_store 100 5 [(200, 9)] ex_tree H1 H2 _ eq_refl). repeat constructor; cbn; lia.
Defined.

End RbCorrect.
