(* ===== verification/EventTimer.v ===== *)
(** * Event timers: src/core/dfs_event_timer.c

    The timers of a thread are a red-black tree of the [timer] nodes embedded
    in events, in the order of their expiry.  An event is found from its node
    by subtracting the offset of the field.  The clock is an oracle: the n-th
    call of [time_handler] returns [clock n].  Handlers are a parameter; they
    may do anything to the store, adding and deleting timers included. *)

From Stdlib Require Import ZArith Lia.
From stdpp Require Import base numbers gmap option list sorting sets.
From S2P Require Import Prelude HeapLogic Rbtree RbSpec RbCorrect.

Module EventTimer.
Import Rbtree RbSpec RbCorrect.

Definition EVENT_TIMER_INFINITE : Z := -1.
Definition EVENT_TIMER_LAZY_DELAY : Z := 300.

(** The fields of [event_t] that timers use; [timer] is the node at
    [ev + TIMER_OFFSET] of the node store. *)
Record event_t := Event { timedout : bool; timer_set : bool; handler : Z }.
Definition TIMER_OFFSET : Z := 24.

Definition with_timer_set (b : bool) (e : event_t) : event_t := Event (timedout e) b (handler e).
Definition with_timedout (b : bool) (e : event_t) : event_t := Event b (timer_set e) (handler e).

(** The list of timers without one of them. *)
Definition without (a : Z) (xs : list (Z * Z)) : list (Z * Z) := filter (fun x => fst x <> a) xs.

Lemma without_split xs a k ys : NoDup (map fst (xs ++ (a, k) :: ys)) -> without a (xs ++ (a, k) :: ys) = xs ++ ys.
Proof.
  unfold without. intros Hnd. rewrite map_app in Hnd. apply NoDup_app in Hnd as (_ & Hx & Hy). simpl in Hx, Hy.
  apply NoDup_cons in Hy as [Hy _]. rewrite filter_app, filter_cons_False by (simpl; tauto).
  f_equal; apply list_filter_all; apply Forall_forall; intros [b kb] Hb; simpl; intros ->.
  - apply (Hx a); [apply list_elem_of_fmap; by exists (a, kb)|by left].
  - apply Hy, list_elem_of_fmap. by exists (a, kb).
Qed.

Lemma without_length a xs : (length (without a xs) <= length xs)%nat.
Proof. apply length_filter. Qed.

Lemma elem_of_without b a xs : b ∈ map fst (without a xs) <-> b <> a /\ b ∈ map fst xs.
Proof.
  unfold without. rewrite !list_elem_of_fmap. setoid_rewrite list_elem_of_filter. split.
  - intros (x & -> & Hn & Hin). eauto.
  - intros (Hn & x & -> & Hin). eauto.
Qed.

Lemma without_none a xs : a ∉ map fst xs -> without a xs = xs.
Proof.
  intros Ha. apply list_filter_all, Forall_forall. intros x Hx <-. apply Ha, list_elem_of_fmap. eauto.
Qed.

Section timer.

Context {W : Type}.

(** [tree]: nodes and root of [timer_rbtree]; [calls]: how often the clock was read. *)
Record tstate := TS { tree : store; events : gmap Z event_t; calls : nat; world : W }.

Notation TM := (ST tstate).

Variable sentinel : Z.
Variable clock : nat -> Z.
Variable call : Z -> Z -> TM unit.

Definition rb {A} (m : RB A) : TM A :=
  fun s => match m (tree s) with
           | Some (a, t) => Some (a, TS t (events s) (calls s) (world s))
           | None => None
           end.

Definition time_handler : TM Z :=
  fun s => Some (clock (calls s), TS (tree s) (events s) (S (calls s)) (world s)).

Definition ev_get {A} (f : event_t -> A) (ev : Z) : TM A := gets (fun s => f <$> events s !! ev).
Definition ev_set (f : event_t -> event_t) (ev : Z) : TM unit :=
  puts (fun s => e ← events s !! ev; Some (TS (tree s) (<[ev := f e]> (events s)) (calls s) (world s))).

(** Signed 64-bit arithmetic: overflow is undefined. *)
Definition int64 (z : Z) : TM Z := if bool_decide (in_s 64 z) then mret z else ub.

(** [abs(diff)]: the argument is converted to [int]. *)
Definition abs (diff : Z) : TM Z :=
  let d := s32 diff in if d =? - 2 ^ 31 then ub else mret (Z.abs d).

(** ** Operations *)

Definition event_timer_init : TM unit := rb (rbtree_init sentinel).

(** [fuel] bounds the number of timers that fire, [d] the descents in the tree. *)
Fixpoint event_timers_expire (fuel d : nat) : TM unit :=
  match fuel with
  | O => ub
  | S fuel' =>
      r ← rb root;
      if r =? sentinel then mret tt else
      node ← rb (rbtree_min d sentinel r);
      k ← rb (ld key node); now ← time_handler;
      if k <=? now then
        let ev := node - TIMER_OFFSET in
        rb (rbtree_delete d sentinel (ev + TIMER_OFFSET));;
        ev_set (with_timer_set false) ev;;
        ev_set (with_timedout true) ev;;
        h ← ev_get handler ev; call h ev;;
        event_timers_expire fuel' d
      else mret tt
  end.

Definition event_find_timer (d : nat) : TM Z :=
  r ← rb root;
  if r =? sentinel then mret EVENT_TIMER_INFINITE else
  node ← rb (rbtree_min d sentinel r);
  k ← rb (ld key node); now ← time_handler;
  timer ← int64 (k - now);
  mret (if 0 <? timer then timer else 0).

Definition event_timer_del (d : nat) (ev : Z) : TM unit :=
  set ← ev_get timer_set ev;
  if negb set then mret tt else
  rb (rbtree_delete d sentinel (ev + TIMER_OFFSET));;
  ev_set (with_timer_set false) ev.

Definition event_timer_add (d : nat) (ev timer : Z) : TM unit :=
  now ← time_handler; k ← int64 (now + timer);
  set ← ev_get timer_set ev;
  lazy ← (if set : bool then
            ek ← rb (ld key (ev + TIMER_OFFSET));
            diff ← int64 (k - ek); a ← abs diff;
            if a <? EVENT_TIMER_LAZY_DELAY then mret true
            else event_timer_del d ev;; mret false
          else mret false);
  if lazy : bool then mret tt else
  rb (set_key (ev + TIMER_OFFSET) k);;
  rb (rbtree_insert (rbtree_insert_timer_value d) d sentinel (ev + TIMER_OFFSET));;
  ev_set (with_timer_set true) ev.

(** ** Correctness *)

Definition node_of (ev : Z) : Z := ev + TIMER_OFFSET.

(** The timers [xs] (node and key) are set: they are in the tree in order, and
    they are those of the events with [timer_set]. *)
Record timers (s : tstate) (xs : list (Z * Z)) : Prop := {
  tm_tree : rep sentinel (tree s) xs;
  tm_events : forall a, a ∈ map fst xs <-> exists e, events s !! (a - TIMER_OFFSET) = Some e /\ timer_set e = true;
  tm_nodes : forall ev, is_Some (events s !! ev) ->
    is_Some ((tree s).1 !! node_of ev) /\ node_of ev ∉ [sentinel; NULL];
}.

(** A tree operation that leaves the events alone. *)
Lemma rb_eq {A} (m : RB A) s v t : m (tree s) = Some (v, t) -> rb m s = Some (v, TS t (events s) (calls s) (world s)).
Proof. intros H. unfold rb. by rewrite H. Qed.

Lemma timers_find s xs ev e : timers s xs -> events s !! ev = Some e -> timer_set e = true ->
  exists k xs1 xs2, xs = xs1 ++ (node_of ev, k) :: xs2.
Proof.
  intros [_ He _] Hev Hs. assert (Hin : node_of ev ∈ map fst xs).
  { apply He. exists e. unfold node_of. by rewrite Z.add_simpl_r. }
  apply list_elem_of_fmap in Hin as ([a k] & Ha & Hin). simpl in Ha. subst a.
  apply list_elem_of_split in Hin as (xs1 & xs2 & ->). eauto.
Qed.

(** The tree after a deletion, with the flag reset and the node's fields changed later on. *)
Lemma del_run d s xs ev e :
  timers s xs -> events s !! ev = Some e -> timer_set e = true -> (depth (length xs) <= d)%nat ->
  exists t, rbtree_delete d sentinel (node_of ev) (tree s) = Some (tt, t) /\
    forall e' n w, timer_set e' = false ->
      timers (TS t (<[ev := e']> (events s)) n w) (without (node_of ev) xs).
Proof.
  clear clock call. intros HT Hev Hs HF. destruct (timers_find _ _ _ _ HT Hev Hs) as (k & xs1 & xs2 & ->).
  destruct HT as [Hrep He Hn]. destruct (delete_run _ _ _ _ _ _ _ Hrep HF) as (t & Hrun & Hrep' & Hdom & _ & _).
  pose proof (rep_distinct _ _ _ Hrep) as Hnd. apply NoDup_cons in Hnd as [_ Hnd].
  exists t. split; [done|]. intros e' n w He'. rewrite <-(without_split _ _ _ _ Hnd) in Hrep'. split; cbn [tree events].
  - done.
  - intros b. rewrite elem_of_without, He. unfold node_of.
    destruct (decide (b - TIMER_OFFSET = ev)) as [<-|Hne].
    + rewrite lookup_insert_eq. split; [intros [? _]; lia|]. intros (? & [= <-] & ?). congruence.
    + rewrite lookup_insert_ne by done. split; [tauto|]. intros H. split; [lia|done].
  - intros ev' Hs'. assert (is_Some (events s !! ev')) as (H1 & H2)%Hn.
    { destruct (decide (ev' = ev)) as [->|Hne]; [by eauto|]. by rewrite lookup_insert_ne in Hs' by done. }
    split; [|done]. apply elem_of_dom. rewrite Hdom. by apply elem_of_dom.
Qed.

(** [ev->timer.key = key; rbtree_insert(...)] for a timer that is not set. *)
Lemma add_run d s xs ev e k :
  timers s xs -> events s !! ev = Some e -> timer_set e = false -> (depth (length xs) <= d)%nat ->
  exists t0 t1, set_key (node_of ev) k (tree s) = Some (tt, t0) /\
    rbtree_insert (rbtree_insert_timer_value d) d sentinel (node_of ev) t0 = Some (tt, t1) /\
    forall e' n w, timer_set e' = true -> timers (TS t1 (<[ev := e']> (events s)) n w) (ins_list (node_of ev) k xs).
Proof.
  clear clock call. intros [Hrep He Hn] Hev Hs HF. destruct (Hn ev) as ([n0 Hn0] & Hne); [by eauto|].
  assert (Hout : node_of ev ∉ map fst xs).
  { rewrite He. unfold node_of. rewrite Z.add_simpl_r. intros (? & ? & ?). congruence. }
  set (h0 := <[node_of ev := with_key k n0]> (tree s).1).
  assert (Hrep0 : rep sentinel (h0, (tree s).2) xs).
  { apply tree_rep_update; [set_solver|]. by destruct (tree s). }
  destruct (insert_run sentinel (h0, (tree s).2) xs (node_of ev) (with_key k n0) d) as (t1 & Hrun & Hrep1 & Hdom & _);
    [done|by apply lookup_insert_eq|set_solver|done|].
  exists (h0, (tree s).2), t1. split; [unfold set_key, st, puts; by rewrite Hn0|]. split; [done|].
  intros e' n w He'. split; cbn [tree events].
  - done.
  - intros b. rewrite ins_list_perm. simpl. rewrite elem_of_cons, He. unfold node_of.
    destruct (decide (b - TIMER_OFFSET = ev)) as [<-|Hb].
    + rewrite lookup_insert_eq. split; [eauto|]. intros _. left. lia.
    + rewrite lookup_insert_ne by done. split; [|tauto]. intros [->|?]; [lia|done].
  - intros ev' Hs'. assert (is_Some (events s !! ev')) as (H1 & H2)%Hn.
    { destruct (decide (ev' = ev)) as [->|Hb]; [by eauto|]. by rewrite lookup_insert_ne in Hs' by done. }
    split; [|done]. apply elem_of_dom. rewrite Hdom. cbn. unfold h0. rewrite dom_insert_lookup_L by eauto. by apply elem_of_dom.
Qed.

Lemma ev_get_eq {A} (f : event_t -> A) ev s e : events s !! ev = Some e -> ev_get f ev s = Some (f e, s).
Proof. intros H. unfold ev_get, gets. by rewrite H. Qed.

Lemma ev_set_eq f ev s e : events s !! ev = Some e ->
  ev_set f ev s = Some (tt, TS (tree s) (<[ev := f e]> (events s)) (calls s) (world s)).
Proof. intros H. unfold ev_set, puts. by rewrite H. Qed.

Lemma int64_eq z s : in_s 64 z -> int64 z s = Some (z, s).
Proof. intros H. unfold int64. by rewrite bool_decide_eq_true_2. Qed.

Lemma without_unset s xs ev e : timers s xs -> events s !! ev = Some e -> timer_set e = false ->
  without (node_of ev) xs = xs.
Proof.
  intros HT Hev Hs. apply without_none. rewrite (tm_events _ _ HT). unfold node_of. rewrite Z.add_simpl_r.
  intros (? & ? & ?). congruence.
Qed.

Lemma timer_del_ok d s xs ev e :
  timers s xs -> events s !! ev = Some e -> (depth (length xs) <= d)%nat ->
  exists s', event_timer_del d ev s = Some (tt, s') /\ timers s' (without (node_of ev) xs) /\
    events s' = <[ev := with_timer_set false e]> (events s) /\ calls s' = calls s /\ world s' = world s.
Proof.
  intros HT Hev HF. unfold event_timer_del. rewrite (ST_bind_eq _ _ _ _ _ (ev_get_eq timer_set _ _ _ Hev)).
  destruct (timer_set e) eqn:Es; cbn [negb].
  - destruct (del_run _ _ _ _ _ HT Hev Es HF) as (t & Hrun & Ht).
    rewrite (ST_bind_eq _ _ _ _ _ (rb_eq _ _ _ _ Hrun)). rewrite (ev_set_eq _ _ _ e) by done.
    eexists. split; [done|]. cbn. split; [|done]. by apply Ht.
  - exists s. split; [done|]. split; [|split; [|done]].
    + by rewrite (without_unset _ _ _ _ HT Hev Es).
    + symmetry. apply insert_id. rewrite Hev. destruct e. cbn in *. by subst.
Qed.

(** What [event_timer_add] does to the timers: [ek] is the pending expiry of a timer that is set. *)
Definition added (set : bool) (ek a k : Z) (xs : list (Z * Z)) : list (Z * Z) :=
  if set && (Z.abs (k - ek) <? EVENT_TIMER_LAZY_DELAY) then xs else ins_list a k (without a xs).

Lemma timers_frame s s' xs : timers s xs -> tree s' = tree s -> events s' = events s -> timers s' xs.
Proof. intros [H1 H2 H3] Ht He. split; by rewrite ?Ht, ?He. Qed.

Lemma add_tail d s xs ev e k :
  timers s xs -> events s !! ev = Some e -> timer_set e = false -> (depth (length xs) <= d)%nat ->
  exists s', (rb (set_key (node_of ev) k);;
              rb (rbtree_insert (rbtree_insert_timer_value d) d sentinel (node_of ev));;
              ev_set (with_timer_set true) ev) s = Some (tt, s') /\
    timers s' (ins_list (node_of ev) k xs) /\
    events s' = <[ev := with_timer_set true e]> (events s) /\ calls s' = calls s /\ world s' = world s.
Proof.
  intros HT Hev Hs HF. destruct (add_run _ _ _ _ _ k HT Hev Hs HF) as (t0 & t1 & H0 & H1 & Ht).
  rewrite (ST_bind_eq _ _ _ _ _ (rb_eq _ _ _ _ H0)).
  rewrite (ST_bind_eq _ _ _ _ _ (rb_eq _ (TS t0 _ _ _) _ _ H1)). cbn [events calls world].
  rewrite (ev_set_eq _ _ _ e) by done. eexists. split; [done|]. cbn. split; [|done]. by apply Ht.
Qed.

Lemma abs_eq z s : Z.abs z < 2 ^ 31 -> abs z s = Some (Z.abs z, s).
Proof.
  intros H. unfold abs, s32. rewrite swrap_small by (unfold in_s; lia). by rewrite (proj2 (Z.eqb_neq _ _)) by lia.
Qed.

Lemma timer_add_ok d s xs ev e timer ek :
  let k := clock (calls s) + timer in
  timers s xs -> events s !! ev = Some e -> (depth (length xs) <= d)%nat -> in_s 64 k ->
  (timer_set e = true -> (node_of ev, ek) ∈ xs /\ Z.abs (k - ek) < 2 ^ 31) ->
  exists s', event_timer_add d ev timer s = Some (tt, s') /\ timers s' (added (timer_set e) ek (node_of ev) k xs) /\
    events s' = <[ev := with_timer_set true e]> (events s) /\ calls s' = S (calls s) /\ world s' = world s.
Proof.
  intros k HT Hev HF Hk Hold. set (s1 := TS (tree s) (events s) (S (calls s)) (world s)).
  assert (HT1 : timers s1 xs) by (by eapply timers_frame).
  unfold event_timer_add. rewrite (ST_bind_eq _ time_handler s (clock (calls s)) s1) by done. fold k.
  rewrite (ST_bind_eq _ _ _ _ _ (int64_eq k s1 Hk)), (ST_bind_eq _ _ _ _ _ (ev_get_eq timer_set ev s1 e Hev)).
  unfold added. destruct (timer_set e) eqn:Es; cbn [andb].
  - destruct (Hold eq_refl) as [Hin Hd]. destruct (rep_key _ _ _ _ _ (tm_tree _ _ HT) Hin) as (n & Hn & Hkn).
    assert (Hld : rb (ld key (ev + TIMER_OFFSET)) s1 = Some (ek, s1)).
    { unfold rb, ld, gets, s1. cbn [tree]. fold (node_of ev). rewrite Hn. cbn. by rewrite Hkn. }
    assert (Hdiff : in_s 64 (k - ek)) by (unfold in_s; lia).
    destruct (Z.ltb_spec (Z.abs (k - ek)) EVENT_TIMER_LAZY_DELAY) as [Hlt|Hge].
    + rewrite (ST_bind_eq _ _ s1 true s1).
      2: { rewrite (ST_bind_eq _ _ _ _ _ Hld), (ST_bind_eq _ _ _ _ _ (int64_eq _ s1 Hdiff)), (ST_bind_eq _ _ _ _ _ (abs_eq _ s1 Hd)).
           by rewrite (proj2 (Z.ltb_lt _ _) Hlt). }
      exists s1. split; [done|]. split; [done|]. split; [|done]. symmetry. apply insert_id. cbn. rewrite Hev. destruct e. cbn in *. by subst.
    + destruct (timer_del_ok d s1 xs ev e HT1 Hev HF) as (s2 & Hrun & HT2 & He2 & Hc2 & Hw2).
      rewrite (ST_bind_eq _ _ s1 false s2).
      2: { rewrite (ST_bind_eq _ _ _ _ _ Hld), (ST_bind_eq _ _ _ _ _ (int64_eq _ s1 Hdiff)), (ST_bind_eq _ _ _ _ _ (abs_eq _ s1 Hd)).
           rewrite (proj2 (Z.ltb_ge _ _) Hge). by rewrite (ST_bind_eq _ _ _ _ _ Hrun). }
      destruct (add_tail d s2 _ ev (with_timer_set false e) k HT2) as (s3 & Hr3 & HT3 & He3 & Hc3 & Hw3).
      { rewrite He2. apply lookup_insert_eq. } { done. } { etransitivity; [apply depth_mono, without_length|done]. }
      exists s3. split; [exact Hr3|]. split; [done|]. rewrite He3, He2, insert_insert_eq, Hc3, Hc2, Hw3, Hw2. by destruct e.
  - rewrite (ST_bind_eq _ _ s1 false s1) by done.
    destruct (add_tail d s1 xs ev e k HT1 Hev Es HF) as (s3 & Hr3 & HT3 & He3 & Hc3 & Hw3).
    exists s3. split; [exact Hr3|]. rewrite (without_unset _ _ _ _ HT Hev Es). by rewrite He3, Hc3, Hw3.
Qed.

(** The reads that find the first timer. *)
Lemma root_ok s : rb root s = Some ((tree s).2, s).
Proof. unfold rb, root, get_reg. cbn. by destruct s as [[]]. Qed.

Lemma first_ok d s a k xs : timers s ((a, k) :: xs) -> (depth (S (length xs)) <= d)%nat ->
  ((tree s).2 =? sentinel) = false /\ rb (rbtree_min d sentinel (tree s).2) s = Some (a, s) /\ rb (ld key a) s = Some (k, s).
Proof.
  intros HT HF. pose proof (tm_tree _ _ HT) as Hrep. split; [|split].
  - apply Z.eqb_neq. intros H. by apply (root_empty _ _ _ Hrep) in H.
  - unfold rb. rewrite (min_run _ _ _ _ _ _ Hrep HF). by destruct s.
  - destruct (rep_key _ _ _ a k Hrep) as (n & Hn & <-); [by left|]. unfold rb, ld, gets. rewrite Hn. by destruct s.
Qed.

Lemma none_ok s : timers s [] -> ((tree s).2 =? sentinel) = true.
Proof. intros HT. apply Z.eqb_eq. by apply (root_empty _ _ _ (tm_tree _ _ HT)). Qed.

Definition tick (s : tstate) : tstate := TS (tree s) (events s) (S (calls s)) (world s).

Lemma find_ok d s xs : timers s xs -> (depth (length xs) <= d)%nat ->
  match xs with
  | [] => event_find_timer d s = Some (EVENT_TIMER_INFINITE, s)
  | (_, k) :: _ => in_s 64 (k - clock (calls s)) ->
      event_find_timer d s = Some (Z.max 0 (k - clock (calls s)), tick s)
  end.
Proof.
  intros HT HF. unfold event_find_timer. rewrite (ST_bind_eq _ _ _ _ _ (root_ok s)).
  destruct xs as [|[a k] xs]; [by rewrite (none_ok s HT)|]. intros Hk.
  destruct (first_ok d s a k xs HT HF) as (-> & Hmin & Hkey).
  rewrite (ST_bind_eq _ _ _ _ _ Hmin), (ST_bind_eq _ _ _ _ _ Hkey), (ST_bind_eq _ time_handler s (clock (calls s)) (tick s)) by done.
  rewrite (ST_bind_eq _ _ _ _ _ (int64_eq _ (tick s) Hk)).
  destruct (Z.ltb_spec 0 (k - clock (calls s))); cbv [mret ST_ret]; repeat f_equal; lia.
Qed.

(** One turn of [event_timers_expire]. *)
Lemma expire_stop fuel d s a k xs : timers s ((a, k) :: xs) -> (depth (S (length xs)) <= d)%nat ->
  clock (calls s) < k -> event_timers_expire (S fuel) d s = Some (tt, tick s).
Proof.
  intros HT HF Hk. cbn [event_timers_expire]. rewrite (ST_bind_eq _ _ _ _ _ (root_ok s)).
  destruct (first_ok d s a k xs HT HF) as (-> & Hmin & Hkey).
  rewrite (ST_bind_eq _ _ _ _ _ Hmin), (ST_bind_eq _ _ _ _ _ Hkey), (ST_bind_eq _ time_handler s (clock (calls s)) (tick s)) by done.
  by rewrite (proj2 (Z.leb_gt _ _) Hk).
Qed.

Lemma expire_turn fuel d s a k xs : timers s ((a, k) :: xs) -> (depth (S (length xs)) <= d)%nat ->
  k <= clock (calls s) -> let ev := a - TIMER_OFFSET in
  exists e s1, events s !! ev = Some e /\
    event_timers_expire (S fuel) d s = (call (handler e) ev;; event_timers_expire fuel d) s1 /\
    timers s1 xs /\ events s1 = <[ev := Event true false (handler e)]> (events s) /\
    calls s1 = S (calls s) /\ world s1 = world s.
Proof.
  intros HT HF Hk ev. destruct (proj1 (tm_events _ _ HT a)) as (e & He & Hset); [by left|].
  assert (HT1 : timers (tick s) ((a, k) :: xs)) by (by eapply timers_frame).
  destruct (del_run d (tick s) _ ev e HT1 He Hset) as (t & Hrun & Ht); [done|].
  pose proof (rep_distinct _ _ _ (tm_tree _ _ HT)) as Hnd. apply NoDup_cons in Hnd as [_ Hnd].
  assert (Hna : node_of ev = a) by (unfold node_of, ev; lia). pose proof (without_split [] a k xs Hnd) as Hw.
  cbn [app] in Hw. rewrite Hna, Hw in Ht.
  exists e. eexists. split; [done|]. split; [|split; [by apply (Ht (Event true false (handler e)) (S (calls s)) (world s))|done]].
  cbn [event_timers_expire]. rewrite (ST_bind_eq _ _ _ _ _ (root_ok s)).
  destruct (first_ok d s a k xs HT HF) as (-> & Hmin & Hkey).
  rewrite (ST_bind_eq _ _ _ _ _ Hmin), (ST_bind_eq _ _ _ _ _ Hkey), (ST_bind_eq _ time_handler s (clock (calls s)) (tick s)) by done.
  rewrite (proj2 (Z.leb_le _ _) Hk). cbv zeta. fold ev. rewrite (ST_bind_eq _ _ _ _ _ (rb_eq _ _ _ _ Hrun)).
  erewrite ST_bind_eq; [|by apply ev_set_eq].
  erewrite ST_bind_eq; [|by apply ev_set_eq, lookup_insert_eq]. erewrite ST_bind_eq; [|by apply ev_get_eq, lookup_insert_eq].
  cbn. by rewrite insert_insert_eq.
Qed.


(** The timers that may fire in a pass during which the clock stays below [T]. *)
Definition due (T : Z) (xs : list (Z * Z)) : list (Z * Z) := filter (fun x => snd x <= T) xs.

Section pass.

Variable T : Z.
Variable N : nat.
Variable log : W -> list Z.

(** The clock during a pass. *)
Hypothesis clock_mono : forall i j, (i <= j)%nat -> clock i <= clock j.
Hypothesis clock_bound : forall i, clock i <= T.

(** Handlers return, leave consistent timers behind (at most [N]) and neither
    add nor remove a timer that is due by [T]; [log] observes their calls. *)
Hypothesis call_quiet : forall h ev s xs, timers s xs -> (length xs <= N)%nat ->
  exists s' xs', call h ev s = Some (tt, s') /\ timers s' xs' /\ (length xs' <= N)%nat /\ due T xs' = due T xs /\
    (calls s <= calls s')%nat /\ log (world s') = log (world s) ++ [ev].

Lemma expire_ok d : (depth N <= d)%nat -> forall fuel s xs,
  timers s xs -> (length xs <= N)%nat -> (length (due T xs) < fuel)%nat ->
  exists s' xs' fired, event_timers_expire fuel d s = Some (tt, s') /\ timers s' xs' /\
    due T xs = fired ++ due T xs' /\
    log (world s') = log (world s) ++ map (fun x => fst x - TIMER_OFFSET) fired /\
    Forall (fun x => clock (calls s) < snd x) (due T xs').
Proof.
  intros Hd fuel. induction fuel as [|fuel IH]; intros s xs HT HN HF; [lia|].
  assert (Hs : sorted xs) by (by destruct (tm_tree _ _ HT) as (? & _ & _ & _ & ?)).
  destruct xs as [|[a k] xs].
  { exists s, [], []. cbn [event_timers_expire]. rewrite (ST_bind_eq _ _ _ _ _ (root_ok s)), (none_ok s HT).
    do 3 (split; [done|]). cbn [map]. rewrite app_nil_r. split; [done|constructor]. }
  assert (Hdep : (depth (S (length xs)) <= d)%nat) by (etransitivity; [by apply depth_mono|done]).
  destruct (Z.le_gt_cases k (clock (calls s))) as [Hk|Hk].
  - destruct (expire_turn fuel d s a k xs HT Hdep Hk) as (e & s1 & He & Hrun & HT1 & _ & Hc1 & Hw1).
    destruct (call_quiet (handler e) (a - TIMER_OFFSET) s1 xs HT1) as (s2 & xs2 & Hcall & HT2 & HN2 & Hdue & Hc2 & Hlog);
      [cbn in HN; lia|].
    assert (Hda : due T ((a, k) :: xs) = (a, k) :: due T xs).
    { unfold due. rewrite filter_cons_True; [done|]. cbn. specialize (clock_bound (calls s)). lia. }
    rewrite Hda in HF |- *. cbn [length] in HF. rewrite <-Hdue in HF |- *.
    destruct (IH s2 xs2 HT2 HN2) as (s3 & xs3 & fired & Hrun3 & HT3 & Hf3 & Hlog3 & Hl3); [lia|].
    exists s3, xs3, ((a, k) :: fired). rewrite Hrun, (ST_bind_eq _ _ _ _ _ Hcall). split; [done|]. split; [done|].
    split; [by rewrite Hf3|]. split; [by rewrite Hlog3, Hlog, Hw1, <-app_assoc|].
    eapply Forall_impl; [exact Hl3|]. intros x Hx. cbn in Hx |- *. assert (clock (calls s) <= clock (calls s2)) by (apply clock_mono; lia). lia.
  - exists (tick s), ((a, k) :: xs), []. rewrite (expire_stop fuel d s a k xs HT Hdep) by lia.
    split; [done|]. split; [by eapply timers_frame|]. split; [done|]. cbn [map]. rewrite app_nil_r. split; [done|].
    apply Forall_forall. intros x [_ Hx]%list_elem_of_filter. apply elem_of_cons in Hx as [->|Hx]; [cbn; lia|].
    inversion_clear Hs as [|? ? _ Hf]. rewrite Forall_forall in Hf. specialize (Hf x Hx). cbn in Hf. lia.
Qed.

End pass.

(** ** Claims *)

(** C22. Every timer that is due when a pass of [event_timers_expire] starts
    fires in that pass.  Given a clock that does not go back and reads at most
    [T] during the pass, and handlers that return and neither add nor remove
    timers due by [T], the loop ends; the handlers are called for a prefix of
    the timers due by [T], in the order of expiry and of insertion, each timer
    having been taken out of the tree before; the timers due by [T] that are
    left expire after the time at which the pass started. *)
Theorem event_timers_expire_fires (T : Z) (N : nat) (log : W -> list Z) fuel s xs :
  (forall i j, (i <= j)%nat -> clock i <= clock j) -> (forall i, clock i <= T) ->
  (forall h ev s xs, timers s xs -> (length xs <= N)%nat ->
     exists s' xs', call h ev s = Some (tt, s') /\ timers s' xs' /\ (length xs' <= N)%nat /\ due T xs' = due T xs /\
       (calls s <= calls s')%nat /\ log (world s') = log (world s) ++ [ev]) ->
  timers s xs -> (length xs <= N)%nat -> (length (due T xs) < fuel)%nat ->
  exists s' xs' fired, event_timers_expire fuel (depth N) s = Some (tt, s') /\ timers s' xs' /\
    due T xs = fired ++ due T xs' /\
    log (world s') = log (world s) ++ map (fun x => fst x - TIMER_OFFSET) fired /\
    Forall (fun x => clock (calls s) < snd x) (due T xs').
Proof. intros. by eapply expire_ok. Qed.

(** [event_timer_add] on an event whose timer is not set adds it with the
    expiry [now + timer], after the timers that expire earlier or at the same
    time; a timer that is set is left alone when its expiry differs by less
    than 300 ms and is moved to the new expiry otherwise (differences of
    [2^31] ms and more apart, where [abs] sees a truncated value).  The event
    ends up with [timer_set]; other events are untouched. *)
Theorem event_timer_add_moves d s xs ev e timer ek :
  let k := clock (calls s) + timer in
  timers s xs -> events s !! ev = Some e -> (depth (length xs) <= d)%nat -> in_s 64 k ->
  (timer_set e = true -> (node_of ev, ek) ∈ xs /\ Z.abs (k - ek) < 2 ^ 31) ->
  exists s', event_timer_add d ev timer s = Some (tt, s') /\ timers s' (added (timer_set e) ek (node_of ev) k xs) /\
    events s' = <[ev := with_timer_set true e]> (events s).
Proof.
  intros k HT He Hd Hk Ho. destruct (timer_add_ok d s xs ev e timer ek HT He Hd Hk Ho) as (s' & ? & ? & ? & _). eauto.
Qed.

(** [event_find_timer] returns -1 when no timer is set and otherwise the
    time until the first one expires, zero if it is past; it changes nothing
    but the reading of the clock. *)
Theorem event_find_timer_first d s xs : timers s xs -> (depth (length xs) <= d)%nat ->
  match xs with
  | [] => event_find_timer d s = Some (EVENT_TIMER_INFINITE, s)
  | (_, k) :: _ => in_s 64 (k - clock (calls s)) ->
      event_find_timer d s = Some (Z.max 0 (k - clock (calls s)), tick s)
  end.
Proof. apply find_ok. Qed.

(** [event_timer_del] takes the timer of an event out of the tree, whatever
    its place, keeps the others in order, and resets the flag; on an event
    whose timer is not set it does nothing. *)
Theorem event_timer_del_removes d s xs ev e :
  timers s xs -> events s !! ev = Some e -> (depth (length xs) <= d)%nat ->
  exists s', event_timer_del d ev s = Some (tt, s') /\ timers s' (without (node_of ev) xs) /\
    events s' = <[ev := with_timer_set false e]> (events s) /\ (timer_set e = false -> tree s' = tree s).
Proof.
  intros HT He Hd. destruct (timer_del_ok d s xs ev e HT He Hd) as (s' & Hr & HT' & He' & _).
  exists s'. do 3 (split; [done|]). intros Hs. revert Hr. unfold event_timer_del.
  rewrite (ST_bind_eq _ _ _ _ _ (ev_get_eq timer_set _ _ _ He)), Hs. by intros [= <-].
Qed.

End timer.

(** Two events, at 100 and 200, whose timers are set, and one at 300 whose is
    not; the handler records its call in the world. *)
Definition ex_events : gmap Z event_t :=
  <[100 := Event false true 7]> (<[200 := Event false true 7]> {[300 := Event false false 7]}).
Definition ex_nodes : store :=
  (<[1 := Node 0 0 0 0 RBTREE_COLOR_BLACK 0]> (<[124 := Node 50 1 224 0 RBTREE_COLOR_BLACK 0]>
    (<[224 := Node 150 1 1 124 RBTREE_COLOR_RED 0]> {[324 := Node 0 0 0 0 RBTREE_COLOR_BLACK 0]})), 124).
Definition ex_state : tstate := TS ex_nodes ex_events 0 ([] : list Z).
Definition ex_call (h ev : Z) : ST (tstate (W := list Z)) unit :=
  fun s => Some (tt, TS (tree s) (events s) (calls s) (world s ++ [ev])).

Lemma ex_timers : timers 1 ex_state [(124, 50); (224, 150)].
Proof.
  split.
  - exists (T Black E 124 50 (T Red E 224 150 E)). split; [split|].
    + exists 0. vm_compute. repeat split; by exists 0.
    + by_decide.
    + exists (Node 0 0 0 0 RBTREE_COLOR_BLACK 0). by vm_compute.
    + by_decide.
    + done.
    + split; [exists 1%nat; repeat constructor|]. split; [done|]. repeat constructor; cbn; lia.
  - intros a. cbn [map fst]. unfold ex_state, ex_events, TIMER_OFFSET. cbn [events]. split.
    + intros [->|[->|[]%elem_of_nil]%elem_of_cons]%elem_of_cons; by eexists.
    + intros (e & He & Hs). rewrite !lookup_insert_Some, lookup_singleton_Some in He.
      destruct He as [[Ha _]|(_ & [[Ha _]|(_ & Ha & <-)])]; [..|done]; rewrite !elem_of_cons; lia.
  - intros ev. unfold ex_state, ex_events, node_of, TIMER_OFFSET. cbn [events tree]. intros [e He].
    rewrite !lookup_insert_Some, lookup_singleton_Some in He.
    destruct He as [[<- _]|(_ & [[<- _]|(_ & <- & _)])]; (split; [by eexists|by_decide]).
Qed.

Lemma event_timers_expire_fires_witness :
  exists s' xs' fired, event_timers_expire 1 (fun _ => 100) ex_call 2 (depth 2) ex_state = Some (tt, s') /\
    timers 1 s' xs' /\ [(124, 50)] = fired ++ due 100 xs' /\
    world s' = [] ++ map (fun x => fst x - TIMER_OFFSET) fired /\ Forall (fun x => 100 < snd x) (due 100 xs').
Proof.
  refine (event_timers_expire_fires 1 (fun _ => 100) ex_call 100 2 id 2 ex_state [(124, 50); (224, 150)] _ _ _ ex_timers _ _).
  - reflexivity.
  - reflexivity.
  - intros h ev s xs HT HN. eexists _, xs. split; [reflexivity|]. cbn.
    split; [by eapply timers_frame|]. by repeat split.
  - cbn. lia.
  - by_decide.
Defined.

Lemma event_timer_add_moves_witness :
  exists s', event_timer_add 1 (fun _ => 100) 9 300 20 ex_state = Some (tt, s') /\
    timers 1 s' [(124, 50); (324, 120); (224, 150)].
Proof.
  destruct (event_timer_add_moves 1 (fun _ => 100) 9 ex_state [(124, 50); (224, 150)] 300 (Event false false 7) 20 0 ex_timers)
    as (s' & H1 & H2 & _); [reflexivity|by_decide|by_decide|done|]. exists s'. split; [exact H1|exact H2].
Defined.

Lemma event_find_timer_first_witness :
  event_find_timer 1 (fun _ => 100) 9 ex_state = Some (0, tick ex_state).
Proof.
  refine (event_find_timer_first 1 (fun _ => 100) 9 ex_state [(124, 50); (224, 150)] ex_timers _ _); [by_decide|by_decide].
Defined.

Lemma event_timer_del_removes_witness :
  exists s', event_timer_del 1 9 100 ex_state = Some (tt, s') /\ timers 1 s' [(224, 150)].
Proof.
  destruct (event_timer_del_removes 1 9 ex_state [(124, 50); (224, 150)] 100 (Event false true 7) ex_timers)
    as (s' & H1 & H2 & _); [reflexivity|by_decide|]. exists s'. split; [exact H1|exact H2].
Defined.

End EventTimer.
