(* ===== verification/NnConn.v ===== *)
(** * Connections of the namenode: src/namenode/nn_request.c

    A connection owns a receive and a send buffer and [max_task] task nodes.
    Frames received are decoded into nodes, which workers process and hand
    back as answers; answers are encoded and sent in order.  The connection
    object, its buffers and its nodes live in one pool, [mc->mempool]: any
    access after [pool_destroy] is undefined.  Sockets are oracles that say
    what each system call returns; queues are the lists that Queue.v shows
    them to be; [heap] are the addresses that malloc returned and that were
    not freed. *)

From Stdlib Require Import ZArith Lia.
From stdpp Require Import base numbers list gmap option sets.
From S2P Require Import Prelude Mem Buffer Task.

Module NnConn.
Import Mem Buffer Task.

Definition ST_CONNCECTED : Z := 0.
Definition ST_DISCONNCECTED : Z := 1.
Definition DFS_ERROR : Z := -1.
Definition DFS_BUSY : Z := -3.
Definition DFS_BUFFER_FULL : Z := -9.
Definition DFS_CONN_CLOSED : Z := -10.
Definition NULL : Z := 0.

(** ** State *)

(** The flags of [c->read] and [c->write] that are used here. *)
Record conn_t := C { r_active : bool; r_ready : bool; w_active : bool; w_ready : bool; w_timedout : bool; w_timer_set : bool }.

Record nn_conn_t := Mc {
  connection : option conn_t; in_ : buffer_t; out : buffer_t; out_task : list Z; free_task : list Z;
  write_event_handler : bool; count : Z; slow : bool; ev_timer : bool; max_task : Z; state : Z
}.

(** What recv(2) and send(2) do, one element per call; when there is none left: EAGAIN. *)
Inductive rx_t := Rx (bs : list Z) | RxEof | RxIntr | RxAgain | RxErr.
Inductive tx_t := Tx (n : Z) | TxIntr | TxAgain | TxErr.

(** [mc] is [None] once the pool is gone; [tk]: the tasks of the nodes;
    [dispatched]: the nodes that are with the workers. *)
Record world := Wd {
  mc : option nn_conn_t; memory_ : mem; tk : gmap Z task_t; heap : list Z;
  rx : list rx_t; tx : list tx_t; sent : list Z; dispatched : list Z
}.

Definition set_connection (v : option conn_t) (c : nn_conn_t) : nn_conn_t :=
  Mc v (in_ c) (out c) (out_task c) (free_task c) (write_event_handler c) (count c) (slow c) (ev_timer c) (max_task c) (state c).
Definition set_in (v : buffer_t) (c : nn_conn_t) : nn_conn_t :=
  Mc (connection c) v (out c) (out_task c) (free_task c) (write_event_handler c) (count c) (slow c) (ev_timer c) (max_task c) (state c).
Definition set_out (v : buffer_t) (c : nn_conn_t) : nn_conn_t :=
  Mc (connection c) (in_ c) v (out_task c) (free_task c) (write_event_handler c) (count c) (slow c) (ev_timer c) (max_task c) (state c).
Definition set_out_task (v : list Z) (c : nn_conn_t) : nn_conn_t :=
  Mc (connection c) (in_ c) (out c) v (free_task c) (write_event_handler c) (count c) (slow c) (ev_timer c) (max_task c) (state c).
Definition set_free_task (v : list Z) (c : nn_conn_t) : nn_conn_t :=
  Mc (connection c) (in_ c) (out c) (out_task c) v (write_event_handler c) (count c) (slow c) (ev_timer c) (max_task c) (state c).
Definition set_write_event_handler (c : nn_conn_t) : nn_conn_t :=
  Mc (connection c) (in_ c) (out c) (out_task c) (free_task c) true (count c) (slow c) (ev_timer c) (max_task c) (state c).
Definition set_count (v : Z) (c : nn_conn_t) : nn_conn_t :=
  Mc (connection c) (in_ c) (out c) (out_task c) (free_task c) (write_event_handler c) v (slow c) (ev_timer c) (max_task c) (state c).
Definition set_slow (v : bool) (c : nn_conn_t) : nn_conn_t :=
  Mc (connection c) (in_ c) (out c) (out_task c) (free_task c) (write_event_handler c) (count c) v (ev_timer c) (max_task c) (state c).
Definition set_ev_timer (v : bool) (c : nn_conn_t) : nn_conn_t :=
  Mc (connection c) (in_ c) (out c) (out_task c) (free_task c) (write_event_handler c) (count c) (slow c) v (max_task c) (state c).
Definition set_state (v : Z) (c : nn_conn_t) : nn_conn_t :=
  Mc (connection c) (in_ c) (out c) (out_task c) (free_task c) (write_event_handler c) (count c) (slow c) (ev_timer c) (max_task c) v.

Definition set_r_ready (b : bool) (c : conn_t) : conn_t := C (r_active c) b (w_active c) (w_ready c) (w_timedout c) (w_timer_set c).
Definition set_r_active (b : bool) (c : conn_t) : conn_t := C b (r_ready c) (w_active c) (w_ready c) (w_timedout c) (w_timer_set c).
Definition set_w_active (b : bool) (c : conn_t) : conn_t := C (r_active c) (r_ready c) b (w_ready c) (w_timedout c) (w_timer_set c).
Definition set_w_ready (b : bool) (c : conn_t) : conn_t := C (r_active c) (r_ready c) (w_active c) b (w_timedout c) (w_timer_set c).
Definition set_w_timer_set (b : bool) (c : conn_t) : conn_t := C (r_active c) (r_ready c) (w_active c) (w_ready c) (w_timedout c) b.

Notation NC := (ST world).

(** Access to [mc->...], undefined when the pool is gone. *)
Definition get {A} (f : nn_conn_t -> A) : NC A := gets (fun w => f <$> mc w).
Definition upd (f : nn_conn_t -> nn_conn_t) : NC unit :=
  puts (fun w => c ← mc w; Some (Wd (Some (f c)) (memory_ w) (tk w) (heap w) (rx w) (tx w) (sent w) (dispatched w))).
(** Access to [mc->connection->...]. *)
Definition getc {A} (f : conn_t -> A) : NC A := gets (fun w => c ← mc w; f <$> connection c).
Definition updc (f : conn_t -> conn_t) : NC unit :=
  c ← gets (fun w => c ← mc w; connection c); upd (set_connection (Some (f c))).

Definition get_mem : NC mem := fun w => Some (memory_ w, w).
Definition set_mem (m : mem) : NC unit :=
  fun w => Some (tt, Wd (mc w) m (tk w) (heap w) (rx w) (tx w) (sent w) (dispatched w)).
Definition get_tk (q : Z) : NC task_t := gets (fun w => tk w !! q).
Definition set_tk (q : Z) (t : task_t) : NC unit :=
  fun w => Some (tt, Wd (mc w) (memory_ w) (<[q := t]> (tk w)) (heap w) (rx w) (tx w) (sent w) (dispatched w)).
Definition set_rx (r : list rx_t) : NC unit :=
  fun w => Some (tt, Wd (mc w) (memory_ w) (tk w) (heap w) r (tx w) (sent w) (dispatched w)).
Definition set_tx (r : list tx_t) : NC unit :=
  fun w => Some (tt, Wd (mc w) (memory_ w) (tk w) (heap w) (rx w) r (sent w) (dispatched w)).
Definition emit (bs : list Z) : NC unit :=
  fun w => Some (tt, Wd (mc w) (memory_ w) (tk w) (heap w) (rx w) (tx w) (sent w ++ bs) (dispatched w)).

(** [free(3)]: undefined unless malloc returned the address. *)
Definition free (a : Z) : NC unit :=
  puts (fun w => if decide (a ∈ heap w)
    then Some (Wd (mc w) (memory_ w) (tk w) (filter (fun x => x <> a) (heap w)) (rx w) (tx w) (sent w) (dispatched w))
    else None).

(** [push_task(&last_task->tq, node)] of [dispatch_task]. *)
Definition dispatch_task (q : Z) : NC unit :=
  fun w => Some (tt, Wd (mc w) (memory_ w) (tk w) (heap w) (rx w) (tx w) (sent w) (dispatched w ++ [q])).

Definition pool_destroy : NC unit :=
  puts (fun w => _ ← mc w; Some (Wd None (memory_ w) (tk w) (heap w) (rx w) (tx w) (sent w) (dispatched w))).

(** ** Sockets: src/core/dfs_sysio.c *)

Fixpoint recv_loop (rx : list rx_t) (buf size : Z) : NC Z :=
  match rx with
  | [] => set_rx [];; mret DFS_AGAIN
  | r :: rx' =>
      match r with
      | Rx bs =>
          let n := Z.min (Z.of_nat (length bs)) size in
          m ← get_mem; m ← gets (fun _ => wr m buf (take (Z.to_nat n) bs)); set_mem m;;
          set_rx (if n <? Z.of_nat (length bs) then Rx (drop (Z.to_nat n) bs) :: rx' else rx');; mret n
      | RxEof => set_rx rx';; mret 0
      | RxIntr => recv_loop rx' buf size
      | RxAgain => set_rx rx';; mret DFS_AGAIN
      | RxErr => set_rx rx';; mret DFS_ERROR
      end
  end.

Definition sysio_unix_recv (buf size : Z) : NC Z :=
  r ← (fun w => Some (rx w, w)); recv_loop r buf size.

Fixpoint send_loop (tx : list tx_t) (buf size : Z) : NC Z :=
  match tx with
  | [] => set_tx [];; updc (set_w_ready false);; mret DFS_AGAIN
  | t :: tx' =>
      match t with
      | Tx n =>
          let n := Z.min n size in
          m ← get_mem; bs ← gets (fun _ => rd m buf (Z.to_nat n)); emit bs;; set_tx tx';;
          (if n <? size then updc (set_w_ready false) else mret tt);; mret n
      | TxIntr => send_loop tx' buf size
      | TxAgain => set_tx tx';; updc (set_w_ready false);; mret DFS_AGAIN
      | TxErr => set_tx tx';; mret DFS_ERROR
      end
  end.

Definition sysio_unix_send (buf size : Z) : NC Z :=
  t ← (fun w => Some (tx w, w)); send_loop t buf size.

Section handlers.

(** Whether epoll_ctl(2) succeeds. *)
Variable epoll_ok : bool.

Definition event_handle_read : NC Z :=
  a ← getc r_active; r ← getc r_ready;
  if negb a && negb r then
    if epoll_ok then updc (set_r_active true);; mret DFS_OK else updc (set_r_active false);; mret DFS_ERROR
  else mret DFS_OK.

Definition event_del_read : NC Z :=
  updc (set_r_ready false);;
  if epoll_ok then updc (set_r_active false);; mret DFS_OK else mret DFS_ERROR.

Definition event_handle_write : NC Z :=
  a ← getc w_active; r ← getc w_ready;
  if negb a && negb r then
    if epoll_ok then updc (set_w_active true);; mret DFS_OK else updc (set_w_active false);; mret DFS_ERROR
  else mret DFS_OK.

(** ** Nodes *)

Definition nn_conn_get_task : NC (option Z) :=
  c ← get count; mx ← get max_task;
  if mx <=? c then mret None else
  f ← get free_task;
  match f with
  | [] => ub
  | q :: f' => upd (set_free_task f');; upd (set_count (c + 1));; mret (Some q)
  end.

(** [nn_conn_free_task] and [nn_conn_finalize] call each other: [finalize] is
    the call in the former, the depth of the calls is at most two. *)
Definition free_task_with (finalize : NC unit) (q : Z) : NC unit :=
  c ← get count; upd (set_count (c - 1));;
  t ← get_tk q;
  (if negb (data t =? NULL) && (0 <? data_len t)
   then free (data t);; set_tk q (set_data t NULL) else mret tt);;
  f ← get free_task; upd (set_free_task (f ++ [q]));;
  s ← get state; c ← get count;
  if (s =? ST_DISCONNCECTED) && (c =? 0) then finalize else mret tt.

Fixpoint free_queue_with (finalize : NC unit) (fuel : nat) : NC unit :=
  match fuel with
  | O => ub
  | S fuel' =>
      o ← get out_task;
      match o with
      | [] => mret tt
      | q :: o' => upd (set_out_task o');; free_task_with finalize q;; free_queue_with finalize fuel'
      end
  end.

Definition nn_conn_close : NC unit :=
  c ← get connection;
  match c with
  | Some _ => upd (set_connection None)
  | None => mret tt
  end.

Definition nn_conn_update_state (s : Z) : NC unit := upd (set_state s).

Fixpoint finalize_depth (depth : nat) : NC unit :=
  match depth with
  | O => ub
  | S depth' =>
      s ← get state;
      (if s =? ST_CONNCECTED then
         t ← get ev_timer;
         (if t : bool then upd (set_ev_timer false) else mret tt);;
         nn_conn_close;;
         o ← get out_task; free_queue_with (finalize_depth depth') (S (length o));;
         nn_conn_update_state ST_DISCONNCECTED
       else mret tt);;
      c ← get count;
      if 0 <? c then mret tt else pool_destroy
  end.

Definition nn_conn_finalize : NC unit := finalize_depth 2.
Definition nn_conn_free_task (q : Z) : NC unit := free_task_with nn_conn_finalize q.

(** ** Reading *)

Fixpoint nn_conn_recv (fuel : nat) : NC Z :=
  match fuel with
  | O => ub
  | S fuel' =>
      b ← get in_; m ← get_mem; '(m, b) ← gets (fun _ => buffer_shrink m b); set_mem m;; upd (set_in b);;
      let blen := buffer_free_size b in
      if blen =? 0 then mret DFS_BUFFER_FULL else
      n ← sysio_unix_recv (last b) blen;
      if 0 <? n then upd (set_in (buffer_used b n));; nn_conn_recv fuel'
      else if n =? 0 then mret DFS_CONN_CLOSED
      else if n =? DFS_ERROR then mret DFS_ERROR
      else if n =? DFS_AGAIN then mret DFS_AGAIN
      else nn_conn_recv fuel'
  end.

Fixpoint nn_conn_decode (fuel : nat) : NC Z :=
  match fuel with
  | O => ub
  | S fuel' =>
      node ← nn_conn_get_task;
      match node with
      | None => upd (set_slow true);; event_del_read;; upd (set_ev_timer true);; mret DFS_BUSY
      | Some q =>
          b ← get in_; m ← get_mem; t ← get_tk q;
          '(rc, b, t) ← gets (fun _ => task_decode m b t); upd (set_in b);; set_tk q t;;
          if rc =? DFS_OK then dispatch_task q;; nn_conn_decode fuel' else
          if rc =? DFS_ERROR then nn_conn_free_task q;; upd (set_in (buffer_reset b));; mret DFS_ERROR else
          if rc =? DFS_AGAIN then
            nn_conn_free_task q;;
            m ← get_mem; '(m, b) ← gets (fun _ => buffer_shrink m b); set_mem m;; upd (set_in b);;
            mret DFS_AGAIN
          else nn_conn_decode fuel'
      end
  end.

(** [r], [d]: fuel of the two loops. *)
Definition nn_conn_read_handler (r d : nat) : NC unit :=
  s ← get state;
  if s =? ST_DISCONNCECTED then mret tt else
  rc ← nn_conn_recv r;
  if (rc =? DFS_CONN_CLOSED) || (rc =? DFS_ERROR) then nn_conn_finalize else
  rc ← nn_conn_decode d;
  if rc =? DFS_ERROR then nn_conn_finalize else mret tt.

(** ** Writing *)

Fixpoint out_loop (fuel : nat) (b : buffer_t) (size : Z) : NC (Z * buffer_t) :=
  match fuel with
  | O => ub
  | S fuel' =>
      if size =? 0 then upd (set_out (buffer_reset b));; mret (DFS_OK, buffer_reset b) else
      rc ← sysio_unix_send (pos b) size;
      if rc <? 0 then mret (rc, b) else
      let b := buffer_pull b rc in
      upd (set_out b);; out_loop fuel' b (size - rc)
  end.

Definition nn_conn_out_buffer (fuel : nat) : NC Z :=
  r ← getc w_ready;
  if negb r then mret DFS_AGAIN else
  b ← get out; '(rc, _) ← out_loop fuel b (buffer_size b); mret rc.

(** The loop that encodes the answers at the head of [out_task]. *)
Fixpoint pack_loop (fuel : nat) : NC unit :=
  match fuel with
  | O => ub
  | S fuel' =>
      o ← get out_task;
      match o with
      | [] => mret tt
      | q :: o' =>
          t ← get_tk q; b ← get out; m ← get_mem;
          '(rc, m, b) ← gets (fun _ => task_encode m t b); set_mem m;; upd (set_out b);;
          if rc =? DFS_OK then upd (set_out_task o');; nn_conn_free_task q;; pack_loop fuel' else
          if rc =? DFS_AGAIN then mret tt else
          if rc =? DFS_ERROR then upd (set_out_task o');; nn_conn_free_task q;; pack_loop fuel'
          else pack_loop fuel'
      end
  end.

(** From the label [repack]; [s]: fuel of the loop that sends. *)
Fixpoint repack (fuel s : nat) : NC Z :=
  match fuel with
  | O => ub
  | S fuel' =>
      b ← get out; m ← get_mem; '(m, b) ← gets (fun _ => buffer_shrink m b); set_mem m;; upd (set_out b);;
      o ← get out_task; pack_loop (S (length o));;
      b ← get out;
      if buffer_size b =? 0 then mret DFS_OK else
      rc ← nn_conn_out_buffer s;
      if rc =? DFS_ERROR then nn_conn_finalize;; mret DFS_ERROR else
      if rc =? DFS_AGAIN then
        e ← event_handle_write;
        if e =? DFS_ERROR then mret DFS_ERROR else
        updc (set_w_timer_set true);; mret DFS_AGAIN
      else repack fuel' s
  end.

Definition nn_conn_output (fuel s : nat) : NC Z :=
  r ← getc w_ready; b ← get out;
  if negb r && (0 <? buffer_size b) then mret DFS_AGAIN else
  upd set_write_event_handler;;
  repack fuel s.

Definition nn_conn_outtask (fuel s : nat) (q : Z) : NC Z :=
  st ← get state;
  if negb (st =? ST_CONNCECTED) then nn_conn_free_task q;; mret DFS_OK else
  o ← get out_task; upd (set_out_task (o ++ [q]));;
  nn_conn_output fuel s.

Definition nn_conn_write_handler (fuel s : nat) : NC unit :=
  st ← get state;
  if st =? ST_DISCONNCECTED then mret tt else
  to ← getc w_timedout;
  if to : bool then nn_conn_finalize else
  ts ← getc w_timer_set;
  (if ts : bool then updc (set_w_timer_set false) else mret tt);;
  nn_conn_output fuel s;; mret tt.

Definition nn_conn_timer_handler (r d fuel s : nat) : NC unit :=
  upd (set_ev_timer false);;
  e ← event_handle_read;
  if negb (e =? DFS_OK) then nn_conn_finalize else
  nn_conn_write_handler fuel s;;
  nn_conn_read_handler r d.

(** [nn_event_process_handler], for a write ([true]) or a read event. *)
Definition nn_event_process_handler (write : bool) (r d fuel s : nat) : NC unit :=
  if write then
    h ← get write_event_handler; if h : bool then nn_conn_write_handler fuel s else mret tt
  else nn_conn_read_handler r d.

(** A worker hands back a node: [write_back_pack_task]. *)
Definition write_back_pack_task (fuel s : nat) (q : Z) : NC unit :=
  (fun w => Some (tt, Wd (mc w) (memory_ w) (tk w) (heap w) (rx w) (tx w) (sent w)
     (filter (fun x => x <> q) (dispatched w))));;
  nn_conn_outtask fuel s q;; mret tt.

(** [write_back_pack_queue], for the nodes of the queue. *)
Fixpoint write_back_pack_queue (fuel s : nat) (qs : list Z) : NC unit :=
  match qs with
  | [] => mret tt
  | q :: qs' => write_back_pack_task fuel s q;; write_back_pack_queue fuel s qs'
  end.

End handlers.

(** ** Running the primitives *)

Definition put_mc (c : option nn_conn_t) (w : world) : world :=
  Wd c (memory_ w) (tk w) (heap w) (rx w) (tx w) (sent w) (dispatched w).
Definition put_mem (m : mem) (w : world) : world :=
  Wd (mc w) m (tk w) (heap w) (rx w) (tx w) (sent w) (dispatched w).
Definition put_tk (k : gmap Z task_t) (w : world) : world :=
  Wd (mc w) (memory_ w) k (heap w) (rx w) (tx w) (sent w) (dispatched w).
Definition put_heap (h : list Z) (w : world) : world :=
  Wd (mc w) (memory_ w) (tk w) h (rx w) (tx w) (sent w) (dispatched w).
Definition put_rx (r : list rx_t) (w : world) : world :=
  Wd (mc w) (memory_ w) (tk w) (heap w) r (tx w) (sent w) (dispatched w).
Definition put_tx (r : list tx_t) (w : world) : world :=
  Wd (mc w) (memory_ w) (tk w) (heap w) (rx w) r (sent w) (dispatched w).
Definition put_sent (bs : list Z) (w : world) : world :=
  Wd (mc w) (memory_ w) (tk w) (heap w) (rx w) (tx w) bs (dispatched w).
Definition put_dispatched (qs : list Z) (w : world) : world :=
  Wd (mc w) (memory_ w) (tk w) (heap w) (rx w) (tx w) (sent w) qs.

Section rules.

Context {A B : Type}.
Implicit Types (w : world) (c : nn_conn_t) (k : A -> NC B) (u : unit -> NC B).

Lemma get_eq (f : nn_conn_t -> A) k w c : mc w = Some c -> (get f ≫= k) w = k (f c) w.
Proof. intros H. unfold mbind, ST_bind, get, gets. by rewrite H. Qed.
Lemma upd_eq f u w c : mc w = Some c -> (upd f ≫= u) w = u tt (put_mc (Some (f c)) w).
Proof. intros H. unfold mbind, ST_bind, upd, puts. by rewrite H. Qed.
Lemma getc_eq (f : conn_t -> A) k w c d : mc w = Some c -> connection c = Some d -> (getc f ≫= k) w = k (f d) w.
Proof. intros H1 H2. unfold mbind, ST_bind, getc, gets. rewrite H1. cbn. by rewrite H2. Qed.
Lemma updc_eq f u w c d : mc w = Some c -> connection c = Some d ->
  (updc f ≫= u) w = u tt (put_mc (Some (set_connection (Some (f d)) c)) w).
Proof.
  intros H1 H2. unfold updc, mbind, ST_bind, gets, upd, puts. rewrite H1. cbn. rewrite H2. cbn. by rewrite H1.
Qed.
Lemma get_tk_eq (k : task_t -> NC B) w q t : tk w !! q = Some t -> (get_tk q ≫= k) w = k t w.
Proof. intros H. unfold mbind, ST_bind, get_tk, gets. by rewrite H. Qed.
Lemma gets_eq (f : world -> option A) k w a : f w = Some a -> (gets f ≫= k) w = k a w.
Proof. intros H. unfold mbind, ST_bind, gets. by rewrite H. Qed.
Lemma free_eq a u w : a ∈ heap w -> (free a ≫= u) w = u tt (put_heap (filter (fun x => x <> a) (heap w)) w).
Proof. intros H. unfold mbind, ST_bind, free, puts. by rewrite decide_True. Qed.
Lemma bind_assoc {X} (m : NC X) (f : X -> NC A) k w : ((m ≫= f) ≫= k) w = (m ≫= fun x => f x ≫= k) w.
Proof. unfold mbind, ST_bind. by destruct (m w) as [[]|]. Qed.
Lemma bind_ret (a : A) k w : (mret a ≫= k) w = k a w.
Proof. done. Qed.
Lemma get_mem_eq (k : mem -> NC B) w : (get_mem ≫= k) w = k (memory_ w) w.
Proof. done. Qed.
Lemma set_mem_eq m u w : (set_mem m ≫= u) w = u tt (put_mem m w).
Proof. done. Qed.
Lemma set_tk_eq q t u w : (set_tk q t ≫= u) w = u tt (put_tk (<[q := t]> (tk w)) w).
Proof. done. Qed.
Lemma set_rx_eq r u w : (set_rx r ≫= u) w = u tt (put_rx r w).
Proof. done. Qed.
Lemma set_tx_eq r u w : (set_tx r ≫= u) w = u tt (put_tx r w).
Proof. done. Qed.
Lemma emit_eq bs u w : (emit bs ≫= u) w = u tt (put_sent (sent w ++ bs) w).
Proof. done. Qed.
Lemma dispatch_task_eq q u w : (dispatch_task q ≫= u) w = u tt (put_dispatched (dispatched w ++ [q]) w).
Proof. done. Qed.

End rules.

(** Evaluate the setters and the fields. *)
Ltac wd :=
  cbv [put_mc put_mem put_tk put_heap put_rx put_tx put_sent put_dispatched
    set_connection set_in set_out set_out_task set_free_task set_write_event_handler set_count set_slow set_ev_timer set_state
    mc memory_ tk heap rx tx sent dispatched
    connection in_ out out_task free_task write_event_handler count slow ev_timer max_task state].

(** One primitive at the head of the computation. *)
Ltac nc :=
  first
    [ rewrite bind_ret | rewrite bind_assoc | rewrite get_mem_eq | rewrite set_mem_eq | rewrite set_tk_eq
    | rewrite set_rx_eq | rewrite set_tx_eq | rewrite emit_eq | rewrite dispatch_task_eq
    | erewrite get_eq by (reflexivity || eassumption)
    | erewrite upd_eq by (reflexivity || eassumption)
    | erewrite getc_eq by (reflexivity || eassumption)
    | erewrite updc_eq by (reflexivity || eassumption)
    | erewrite get_tk_eq by (reflexivity || eassumption) ].

End NnConn.
