(* ===== verification/NnConnOk.v ===== *)
(** * Connections of the namenode: correctness

    Framing of the received bytes whatever the chunks they arrive in, order of
    the answers on the wire, the accounting of task nodes, and the life of the
    pool that holds the connection. *)

From Stdlib Require Import ZArith Lia.
From stdpp Require Import base numbers list gmap option sets.
From S2P Require Import Prelude Mem Buffer Task NnConn.

Module NnConnOk.
Import Mem Buffer Task NnConn.

(** ** Buffers in memory *)

Definition buf (m : mem) (b : buffer_t) : Prop :=
  buffer_ok b /\ memory b = true /\ mapped m (start b) (end_ b - start b).

(** The pending bytes. *)
Definition pend (m : mem) (b : buffer_t) (bs : list Z) : Prop :=
  rd m (pos b) (Z.to_nat (buffer_size b)) = Some bs.

Definition cap (b : buffer_t) : Z := end_ b - start b.

Lemma buf_size m b : buf m b -> buffer_size b = last b - pos b.
Proof. intros (_ & H & _). unfold buffer_size, buffer_in_memory. by rewrite H. Qed.

Lemma pend_length m b bs : buf m b -> pend m b bs -> Z.of_nat (length bs) = buffer_size b.
Proof.
  intros HB HP. rewrite (rd_length _ _ _ _ HP). pose proof (buf_size _ _ HB) as Hs. destruct HB as ((H1 & H2 & _) & _). lia.
Qed.

Lemma rd_pend m a n bs : rd m a n = Some bs -> rd m a (length bs) = Some bs.
Proof. intros H. by rewrite (rd_length _ _ _ _ H). Qed.

(** A buffer whose window starts at its start. *)
Definition compact (b : buffer_t) : Prop := pos b = start b.

Lemma shrink_pend m b bs : buf m b -> pend m b bs ->
  exists m' b', buffer_shrink m b = Some (m', b') /\ buf m' b' /\ pend m' b' bs /\ compact b' /\
    start b' = start b /\ end_ b' = end_ b /\ (compact b -> m' = m /\ b' = b) /\
    (forall i, i < start b \/ end_ b <= i -> m' !! i = m !! i) /\ (forall i, is_Some (m !! i) <-> is_Some (m' !! i)).
Proof.
  intros HB HP. pose proof (buf_size _ _ HB) as Hs. pose proof HB as (OK & HM & HMap). pose proof OK as (H1 & H2 & H3 & H4).
  destruct (shrink_ok m b OK HM HMap) as (m' & E & R & O & D).
  assert (Hs' : buffer_size (set_window b (start b) (start b + buffer_size b)) = buffer_size b).
  { unfold buffer_size at 1, buffer_in_memory. cbn. rewrite HM. lia. }
  assert (HB' : buf m' (set_window b (start b) (start b + buffer_size b))).
  { split; [unfold buffer_ok; cbn; lia|]. split; [done|]. intros i Hi. cbn in Hi. apply D. by apply HMap. }
  eexists m', _. split; [exact E|]. split; [done|]. split_and!; try done.
  - unfold pend. cbn [pos set_window]. rewrite Hs', R. exact HP.
  - intros Hc. unfold compact in Hc. assert (Hb : buffer_shrink m b = Some (m, b)).
    { unfold buffer_shrink. by rewrite Hc, Z.eqb_refl. }
    rewrite Hb in E. by injection E as -> <-.
Qed.

(** Bytes appended by the socket. *)
Lemma append_pend m b bs ns : buf m b -> pend m b bs -> Z.of_nat (length ns) <= buffer_free_size b ->
  exists m', wr m (last b) ns = Some m' /\ buf m' (buffer_used b (Z.of_nat (length ns))) /\
    pend m' (buffer_used b (Z.of_nat (length ns))) (bs ++ ns) /\
    (forall i, i < start b \/ end_ b <= i -> m' !! i = m !! i) /\ (forall i, is_Some (m !! i) <-> is_Some (m' !! i)).
Proof.
  intros HB HP HF. pose proof (buf_size _ _ HB) as Hs. pose proof (pend_length _ _ _ HB HP) as HL.
  destruct HB as (OK & HM & HMap). pose proof OK as (H1 & H2 & H3 & H4). unfold buffer_free_size in HF.
  destruct (wr_mapped m (last b) ns) as [m' W]; [intros i Hi; apply HMap; lia|].
  exists m'. split; [done|]. split; [|split; [|split]].
  - split; [unfold buffer_ok; cbn; lia|]. split; [done|]. intros i Hi. apply (wr_dom _ _ _ _ _ W). by apply HMap.
  - unfold pend, buffer_size, buffer_in_memory. cbn. rewrite HM.
    replace (Z.to_nat (last b + Z.of_nat (length ns) - pos b)) with (Z.to_nat (buffer_size b) + length ns)%nat by lia.
    rewrite rd_app, (rd_wr_disjoint _ _ _ _ (pos b) (Z.to_nat (buffer_size b)) W) by lia. unfold pend in HP. rewrite HP. cbn [mbind option_bind].
    replace (pos b + Z.of_nat (Z.to_nat (buffer_size b))) with (last b) by lia. by rewrite (wr_rd _ _ _ _ W).
  - intros i Hi. apply (wr_lookup_ne _ _ _ _ _ W). lia.
  - intros i. by apply (wr_dom _ _ _ _ _ W).
Qed.

(** ** Receiving *)

(** The world after the receive loop. *)
Definition received_w (r : list rx_t) (m : mem) (b : buffer_t) (c : nn_conn_t) (w : world) : world :=
  put_rx r (put_mem m (put_mc (Some (set_in b c)) w)).

(** What stays the same: the ends of a buffer, the memory outside it and the
    addresses that are mapped. *)
Definition same_place (m m' : mem) (b b' : buffer_t) : Prop :=
  start b' = start b /\ end_ b' = end_ b /\ (forall i, i < start b \/ end_ b <= i -> m' !! i = m !! i) /\
  (forall i, is_Some (m !! i) <-> is_Some (m' !! i)).

Lemma same_place_trans m1 m2 m3 b1 b2 b3 : same_place m1 m2 b1 b2 -> same_place m2 m3 b2 b3 -> same_place m1 m3 b1 b3.
Proof.
  intros (S1 & E1 & F1 & D1) (S2 & E2 & F2 & D2). split_and!; [congruence..| |].
  - intros i Hi. rewrite F2 by (rewrite S1, E1; done). by apply F1.
  - intros i. by rewrite D1, D2.
Qed.

(** The body of the loop after [buffer_shrink]. *)
Definition recv_body (fuel : nat) (b : buffer_t) : NC Z :=
  n ← sysio_unix_recv (last b) (buffer_free_size b);
  if 0 <? n then upd (set_in (buffer_used b n));; nn_conn_recv fuel
  else if n =? 0 then mret DFS_CONN_CLOSED
  else if n =? DFS_ERROR then mret DFS_ERROR
  else if n =? DFS_AGAIN then mret DFS_AGAIN
  else nn_conn_recv fuel.

Lemma recv_turn w c bs fuel :
  mc w = Some c -> buf (memory_ w) (in_ c) -> pend (memory_ w) (in_ c) bs ->
  exists m b, buf m b /\ pend m b bs /\ compact b /\ same_place (memory_ w) m (in_ c) b /\
    buffer_free_size b = cap (in_ c) - Z.of_nat (length bs) /\
    nn_conn_recv (S fuel) w =
      if buffer_free_size b =? 0 then Some (DFS_BUFFER_FULL, received_w (rx w) m b c w)
      else recv_body fuel b (received_w (rx w) m b c w).
Proof.
  intros Hc HB HP. destruct (shrink_pend _ _ _ HB HP) as (m & b & E & HB1 & HP1 & HK1 & S1 & N1 & _ & F1 & D1).
  exists m, b. do 4 (split; [done|]). split.
  - pose proof (pend_length _ _ _ HB1 HP1). pose proof (buf_size _ _ HB1). unfold buffer_free_size, cap, compact in *. lia.
  - cbn [nn_conn_recv]. nc. nc. rewrite (gets_eq _ _ _ (m, b)) by done. nc. nc.
    destruct (buffer_free_size b =? 0); [|done]. by destruct w.
Qed.

Lemma recv_full m b c w fuel : mc w = Some (set_in b c) -> memory_ w = m -> compact b -> buffer_free_size b = 0 ->
  nn_conn_recv (S fuel) w = Some (DFS_BUFFER_FULL, w).
Proof.
  intros Hc Hm Hk Hf. cbn [nn_conn_recv]. nc. nc. rewrite (gets_eq _ _ _ (m, b)).
  2: { rewrite Hm. cbn. unfold buffer_shrink. unfold compact in Hk. by rewrite Hk, Z.eqb_refl. }
  nc. nc. rewrite Hf. cbn. f_equal. f_equal. destruct w. cbn in *. subst. done.
Qed.

Lemma sysio_recv_chunk w x rest buf size m' :
  let n := Z.min (Z.of_nat (length x)) size in
  rx w = Rx x :: rest -> wr (memory_ w) buf (take (Z.to_nat n) x) = Some m' ->
  sysio_unix_recv buf size w =
    Some (n, put_rx (if n <? Z.of_nat (length x) then Rx (drop (Z.to_nat n) x) :: rest else rest) (put_mem m' w)).
Proof.
  intros n Hrx Hw. unfold sysio_unix_recv. rewrite (ST_bind_eq _ _ w (rx w) w) by done. rewrite Hrx. cbn [recv_loop].
  fold n. nc. rewrite (gets_eq _ _ _ m') by done. by do 2 nc.
Qed.

Lemma conn_recv_ok chunks : forall w c bs fuel,
  mc w = Some c -> buf (memory_ w) (in_ c) -> pend (memory_ w) (in_ c) bs -> rx w = map Rx chunks ->
  Forall (fun x => x <> []) chunks -> (length chunks < fuel)%nat ->
  exists rc m' b' taken chunks', nn_conn_recv fuel w = Some (rc, received_w (map Rx chunks') m' b' c w) /\
    (rc = DFS_AGAIN \/ rc = DFS_BUFFER_FULL) /\ buf m' b' /\ pend m' b' (bs ++ taken) /\ compact b' /\
    concat chunks = taken ++ concat chunks' /\ (chunks' = [] \/ Z.of_nat (length (bs ++ taken)) = cap (in_ c)) /\
    same_place (memory_ w) m' (in_ c) b'.
Proof.
  induction chunks as [|x chunks IH]; intros w c bs fuel Hc HB HP Hrx Hne HF; (destruct fuel as [|fuel]; [cbn in HF; lia|]).
  - destruct (recv_turn w c bs fuel Hc HB HP) as (m & b & HB1 & HP1 & HK1 & HS1 & Hf & ->). rewrite Hrx. cbn [map].
    assert (H : exists rc, (rc = DFS_AGAIN \/ rc = DFS_BUFFER_FULL) /\
      (if buffer_free_size b =? 0 then Some (DFS_BUFFER_FULL, received_w [] m b c w) else recv_body fuel b (received_w [] m b c w))
      = Some (rc, received_w [] m b c w)).
    { destruct (buffer_free_size b =? 0); [by eauto|]. exists DFS_AGAIN. split; [by left|]. done. }
    destruct H as (rc & Hrc & ->). exists rc, m, b, [], []. rewrite app_nil_r. split_and!; auto.
  - apply Forall_cons in Hne as [Hx Hne]. destruct (recv_turn w c bs fuel Hc HB HP) as (m & b & HB1 & HP1 & HK1 & HS1 & Hf & ->).
    rewrite Hrx. destruct (Z.eqb_spec (buffer_free_size b) 0) as [H0|H0].
    { eexists _, m, b, [], (x :: chunks). rewrite app_nil_r. split_and!; eauto. right. lia. }
    assert (Hlen : (0 < length x)%nat) by (destruct x; [done|cbn; lia]).
    assert (H1 : 0 <= buffer_free_size b) by (destruct HB1 as ((? & ? & _) & _); unfold buffer_free_size; lia).
    set (n := Z.min (Z.of_nat (length x)) (buffer_free_size b)). set (ns := take (Z.to_nat n) x).
    assert (Hns : Z.of_nat (length ns) = n) by (unfold ns; rewrite length_take; lia).
    destruct (append_pend m b bs ns HB1 HP1) as (m2 & W2 & HB2 & HP2 & F2 & D2); [lia|]. rewrite Hns in *.
    set (b2 := buffer_used b n) in *. assert (HS2 : same_place m m2 b b2) by (by split_and!).
    set (rest := if n <? Z.of_nat (length x) then Rx (drop (Z.to_nat n) x) :: map Rx chunks else map Rx chunks).
    assert (Hrun : recv_body fuel b (received_w (map Rx (x :: chunks)) m b c w) = nn_conn_recv fuel (received_w rest m2 b2 c w)).
    { unfold recv_body. rewrite (ST_bind_eq _ _ _ _ _ (sysio_recv_chunk (received_w (map Rx (x :: chunks)) m b c w) x
        (map Rx chunks) (last b) (buffer_free_size b) m2 eq_refl W2)). fold n. rewrite (proj2 (Z.ltb_lt 0 n)) by lia. by nc. }
    rewrite Hrun. assert (Hfuel : (length chunks < fuel)%nat) by (cbn in HF; lia).
    unfold rest. destruct (Z.ltb_spec n (Z.of_nat (length x))) as [Hlt|Hge].
    + assert (Hn : n = buffer_free_size b) by lia. destruct fuel as [|fuel]; [lia|].
      rewrite (recv_full m2 b2 c); [|done|done|done|].
      2: { unfold b2, buffer_free_size in *. cbn. lia. }
      eexists _, m2, b2, ns, (drop (Z.to_nat n) x :: chunks). split; [reflexivity|]. split_and!; eauto using same_place_trans.
      * cbn [concat]. unfold ns. by rewrite app_assoc, take_drop.
      * right. rewrite length_app. lia.
    + assert (ns = x) as Ex by (unfold ns; apply take_ge; lia).
      destruct (IH (received_w (map Rx chunks) m2 b2 c w) (set_in b2 c) (bs ++ ns) fuel)
        as (rc & m3 & b3 & taken & ch & -> & Hrc & HB3 & HP3 & HK3 & Hcat & Hend & HS3); try done.
      eexists rc, m3, b3, (ns ++ taken), ch. split; [reflexivity|]. rewrite app_assoc. split_and!; eauto using same_place_trans.
      * cbn [concat]. by rewrite Hcat, Ex, app_assoc.
      * destruct Hend as [?|Hend]; [by left|right]. rewrite Hend. unfold cap. cbn. destruct HS1 as (-> & -> & _). done.
Qed.

(** ** Frames *)

Definition frame_bytes (tp : task_t * list Z) : list Z :=
  le_enc 4 (344 + data_len tp.1) ++ task_bytes tp.1 ++ le_enc 4 (data_len tp.1) ++ tp.2.

Definition wf_frame (tp : task_t * list Z) : Prop :=
  task_ok tp.1 /\ data_len tp.1 = Z.of_nat (length tp.2) /\ frame_len tp.2 < 2 ^ 31.

#[global] Instance wf_frame_dec tp : Decision (wf_frame tp).
Proof. unfold wf_frame. apply _. Defined.

Definition stream (ps : list (task_t * list Z)) : list Z := concat (map frame_bytes ps).

(** Nothing, or a frame whose length has arrived and whose end has not. *)
Definition incomplete (bs : list Z) : Prop :=
  bs = [] \/ exists need, in_s 32 need /\ take 4 bs = le_enc 4 need /\ (4 <= length bs)%nat /\ Z.of_nat (length bs) < need.

Lemma frame_bytes_length tp : wf_frame tp -> Z.of_nat (length (frame_bytes tp)) = frame_len tp.2.
Proof.
  intros (OK & _ & _). unfold frame_bytes, frame_len. autorewrite with enc_len. rewrite task_bytes_length by done.
  unfold sizeof_task_t. lia.
Qed.

Lemma stream_length ps : Forall wf_frame ps -> Z.of_nat (length (stream ps)) = total ps.
Proof.
  unfold stream. induction 1 as [|tp ps Hw _ IH]; [done|]. cbn [map concat total foldr]. fold (total ps).
  rewrite length_app, Nat2Z.inj_add, IH. by rewrite frame_bytes_length.
Qed.

Lemma stream_app ps qs : stream (ps ++ qs) = stream ps ++ stream qs.
Proof. unfold stream. by rewrite map_app, concat_app. Qed.

Lemma stream_nil ps : stream ps = [] -> ps = [].
Proof. destruct ps as [|[t p] ps]; [done|]. unfold stream. cbn [map concat]. unfold frame_bytes. by intros [[? ?]%app_eq_nil ?]%app_eq_nil. Qed.

Lemma pend_pull m b l1 l2 : buf m b -> pend m b (l1 ++ l2) ->
  buf m (buffer_pull b (Z.of_nat (length l1))) /\ pend m (buffer_pull b (Z.of_nat (length l1))) l2 /\
  rd m (pos b) (length l1) = Some l1.
Proof.
  intros HB HP. pose proof (buf_size _ _ HB) as Hs. pose proof (pend_length _ _ _ HB HP) as HL. rewrite length_app in HL.
  destruct HB as (OK & HM & HMap). pose proof OK as (H1 & H2 & H3 & H4). unfold pend in HP.
  replace (Z.to_nat (buffer_size b)) with (length l1 + length l2)%nat in HP by lia.
  apply rd_split in HP as [R1 R2]; [|done]. split; [|split; [|done]].
  - split; [unfold buffer_ok; cbn; lia|]. split; [done|]. intros i Hi. cbn in Hi. apply HMap. lia.
  - unfold pend, buffer_size, buffer_in_memory. cbn. rewrite HM.
    by replace (Z.to_nat (last b - (pos b + Z.of_nat (length l1)))) with (length l2) by lia.
Qed.

Lemma decode_whole m b t p rest t0 : wf_frame (t, p) -> buf m b -> pend m b (frame_bytes (t, p) ++ rest) ->
  task_decode m b t0 = Some (DFS_OK, buffer_pull b (frame_len p), received t (pos b) (opq t0)) /\
  buf m (buffer_pull b (frame_len p)) /\ pend m (buffer_pull b (frame_len p)) rest /\
  rd m (pos b + 344) (length p) = Some p.
Proof.
  intros Hw HB HP. pose proof (frame_bytes_length _ Hw) as HL. destruct (pend_pull _ _ _ _ HB HP) as (HB' & HP' & R).
  pose proof (pend_length _ _ _ HB HP) as HL'. rewrite length_app in HL'. cbn [snd] in HL. rewrite HL in HB', HP'.
  destruct Hw as (OK & L & B). cbn [fst snd] in *. pose proof HB as (HO & HM & _). pose proof HO as (? & ? & ? & _).
  assert (HF : frame_at m (pos b) t p).
  { unfold frame_at. replace (4 + (sizeof_task_t + (4 + length p)))%nat with (length (frame_bytes (t, p)))
      by (unfold frame_len, sizeof_task_t in *; lia). exact R. }
  pose proof (buf_size _ _ HB). split; [|split; [done|split; [done|]]].
  - apply task_decode_ok; try done; lia.
  - by destruct (decode_frame m (pos b) t p (frame_len p) t0 OK L B HF) as [_ ?].
Qed.

Lemma decode_rest m b bs t0 : incomplete bs -> buf m b -> pend m b bs -> task_decode m b t0 = Some (DFS_AGAIN, b, t0).
Proof.
  intros Hi HB HP. pose proof (pend_length _ _ _ HB HP) as HL. pose proof HB as ((? & ? & ? & _) & _). pose proof (buf_size _ _ HB).
  destruct Hi as [->|(need & Hn & Ht & H4 & Hlt)].
  - unfold task_decode. cbn in HL. by rewrite <-HL.
  - unfold pend in HP. replace (Z.to_nat (buffer_size b)) with (4 + (length bs - 4))%nat in HP by lia.
    rewrite <-(take_drop 4 bs) in HP at 2. apply rd_split in HP as [R _]; [|rewrite length_take; lia]. rewrite Ht in R.
    unfold task_decode. rewrite (proj2 (Z.leb_gt _ _)) by lia. unfold s32. rewrite swrap_small by (unfold in_s; lia).
    unfold task_decodefstr, rd_int. rewrite R. cbn [mbind option_bind].
    rewrite s32_le_enc by done. by rewrite (proj2 (Z.ltb_lt _ _)) by lia.
Qed.

(** ** Decoding *)

(** The tasks of the nodes [qs] once the frames [ps], stored from [a] on, are decoded into them. *)
Fixpoint deliver (k : gmap Z task_t) (qs : list Z) (a : Z) (ps : list (task_t * list Z)) : gmap Z task_t :=
  match qs, ps with
  | q :: qs', (t, p) :: ps' =>
      deliver (<[q := received t a (opq (default task_clear (k !! q)))]> k) qs' (a + frame_len p) ps'
  | _, _ => k
  end.

Lemma deliver_ne k qs a ps q : q ∉ qs -> deliver k qs a ps !! q = k !! q.
Proof.
  revert k a ps. induction qs as [|q' qs IH]; intros k a ps Hq; [done|]. destruct ps as [|[t p] ps]; [done|]. cbn [deliver].
  apply not_elem_of_cons in Hq as [Hne Hq]. rewrite IH by done. by rewrite lookup_insert_ne.
Qed.

(** The world after the frames [ps] were dispatched in the nodes [qs]. *)
Definition dispatched_w (qs qs' : list Z) (ps : list (task_t * list Z)) (c : nn_conn_t) (w : world) : world :=
  put_dispatched (dispatched w ++ qs) (put_tk (deliver (tk w) qs (pos (in_ c)) ps)
    (put_mc (Some (set_in (buffer_pull (in_ c) (total ps)) (set_free_task qs' (set_count (count c + Z.of_nat (length ps)) c)))) w)).

Lemma get_task_ok w c q qs : mc w = Some c -> free_task c = q :: qs -> count c < max_task c ->
  nn_conn_get_task w = Some (Some q, put_mc (Some (set_count (count c + 1) (set_free_task qs c))) w).
Proof.
  intros Hc Hf Hlt. unfold nn_conn_get_task. do 2 nc. rewrite (proj2 (Z.leb_gt _ _)) by done. nc. rewrite Hf. by do 2 nc.
Qed.

Lemma decode_steps epoll_ok ps : forall w c rest qs qs' fuel,
  mc w = Some c -> buf (memory_ w) (in_ c) -> pend (memory_ w) (in_ c) (stream ps ++ rest) -> Forall wf_frame ps ->
  free_task c = qs ++ qs' -> length qs = length ps -> count c + Z.of_nat (length ps) <= max_task c ->
  NoDup qs -> Forall (fun q => is_Some (tk w !! q)) qs ->
  nn_conn_decode epoll_ok (length ps + fuel) w = nn_conn_decode epoll_ok fuel (dispatched_w qs qs' ps c w) /\
  buf (memory_ w) (buffer_pull (in_ c) (total ps)) /\ pend (memory_ w) (buffer_pull (in_ c) (total ps)) rest.
Proof.
  induction ps as [|[t p] ps IH]; intros w c rest qs qs' fuel Hc HB HP Hwf Hq Hlen Hmax Hnd Htk.
  - destruct qs; [|done]. cbn [length Nat.add total foldr]. assert (Hb : buffer_pull (in_ c) 0 = in_ c).
    { unfold buffer_pull, set_window. destruct (in_ c). cbn. f_equal. lia. }
    rewrite Hb. split; [|done]. f_equal. unfold dispatched_w. cbn [deliver length total foldr]. rewrite Hb, app_nil_r, Z.add_0_r.
    destruct w as [? ? ? ? ? ? ? ?]. cbn in *. subst. unfold put_dispatched, put_tk, put_mc. cbn. destruct c. cbn in *. by subst.
  - destruct qs as [|q qs]; [done|]. apply Forall_cons in Hwf as [Hw Hwf]. apply NoDup_cons in Hnd as [Hqn Hnd].
    apply Forall_cons in Htk as [[t0 Ht0] Htk]. unfold stream in HP. cbn [map concat] in HP. rewrite <-app_assoc in HP.
    destruct (decode_whole _ _ _ _ _ t0 Hw HB HP) as (Hdec & HB1 & HP1 & _). cbn [length Nat.add nn_conn_decode].
    cbn [length] in Hmax, Hlen. rewrite (ST_bind_eq _ _ _ _ _ (get_task_ok w c q (qs ++ qs') Hc Hq ltac:(lia))).
    nc. nc. erewrite get_tk_eq by (cbn; exact Ht0). cbn [memory_ put_mc]. rewrite (gets_eq _ _ _ _ Hdec). nc. nc.
    change (DFS_OK =? DFS_OK) with true. cbn match. nc. cbn [in_ set_in set_free_task set_count].
    set (c1 := set_in (buffer_pull (in_ c) (frame_len p)) (set_count (count c + 1) (set_free_task (qs ++ qs') c))).
    set (w1 := put_dispatched _ _).
    destruct (IH w1 c1 rest qs qs' fuel) as (Hrun & HB2 & HP2); try done; [cbn; lia..| |].
    { apply Forall_forall. intros x Hx. cbn. rewrite lookup_insert_ne by (intros ->; done). by eapply Forall_forall in Htk. }
    cbn [fold_right total foldr snd] in *. fold (total ps) in *. assert (Hpull : buffer_pull (in_ c1) (total ps) = buffer_pull (in_ c) (frame_len p + total ps)).
    { unfold buffer_pull, set_window. cbn. f_equal. lia. }
    rewrite Hpull in HB2, HP2. split; [|done]. rewrite Hrun. f_equal. unfold dispatched_w. rewrite Hpull.
    cbn [total foldr snd]. fold (total ps). cbn [deliver]. rewrite Ht0. unfold put_dispatched, put_tk, put_mc. cbn.
    f_equal; [|by rewrite <-app_assoc]. f_equal. unfold set_in, set_free_task, set_count. cbn. f_equal. lia.
Qed.

(** A node with no data of its own goes back to the free nodes. *)
Definition owned (t : task_t) : bool := negb (data t =? NULL) && (0 <? data_len t).

(** The release of the data of the task of a node. *)
Definition release (q : Z) (t : task_t) (w : world) : world :=
  if owned t then put_tk (<[q := set_data t NULL]> (tk w)) (put_heap (filter (fun x => x <> data t) (heap w)) w) else w.

Definition freed (q : Z) (c : nn_conn_t) : nn_conn_t := set_free_task (free_task c ++ [q]) (set_count (count c - 1) c).

Lemma free_task_eq fin q t w c : mc w = Some c -> tk w !! q = Some t -> (owned t = true -> data t ∈ heap w) ->
  free_task_with fin q w =
    (if (state c =? ST_DISCONNCECTED) && (count c - 1 =? 0) then fin else mret tt) (put_mc (Some (freed q c)) (release q t w)).
Proof.
  intros Hc Ht Hh. unfold free_task_with, release. do 3 nc. fold (owned t). destruct (owned t).
  - rewrite bind_assoc. rewrite free_eq by (by apply Hh). do 5 nc. done.
  - do 5 nc. done.
Qed.

Lemma free_task_connected q t w c : mc w = Some c -> tk w !! q = Some t -> (owned t = true -> data t ∈ heap w) ->
  state c <> ST_DISCONNCECTED ->
  nn_conn_free_task q w = Some (tt, put_mc (Some (freed q c)) (release q t w)).
Proof.
  intros Hc Ht Hh Hs. unfold nn_conn_free_task. rewrite (free_task_eq _ q t w c Hc Ht Hh).
  by rewrite (proj2 (Z.eqb_neq _ _) Hs).
Qed.

(** The frame at the head has not arrived: the node goes back, what is there
    of the frame moves to the start of the buffer. *)
Lemma decode_again epoll_ok w c bs q qs t fuel :
  mc w = Some c -> buf (memory_ w) (in_ c) -> pend (memory_ w) (in_ c) bs -> incomplete bs ->
  free_task c = q :: qs -> count c < max_task c -> tk w !! q = Some t -> owned t = false -> state c <> ST_DISCONNCECTED ->
  exists m b, nn_conn_decode epoll_ok (S fuel) w =
      Some (DFS_AGAIN, put_mem m (put_mc (Some (set_in b (set_free_task (qs ++ [q]) c))) w)) /\
    buf m b /\ pend m b bs /\ compact b /\ same_place (memory_ w) m (in_ c) b /\ (bs = [] -> m = memory_ w).
Proof.
  intros Hc HB HP Hi Hq Hlt Ht Ho Hs. pose proof (decode_rest _ _ _ t Hi HB HP) as Hdec.
  destruct (shrink_pend _ _ _ HB HP) as (m & b & E & HB1 & HP1 & HK1 & S1 & N1 & _ & F1 & D1).
  exists m, b. split; [|split_and!; try done].
  - cbn [nn_conn_decode]. rewrite (ST_bind_eq _ _ _ _ _ (get_task_ok w c q qs Hc Hq Hlt)). nc. nc.
    erewrite get_tk_eq by (cbn; exact Ht). cbn [memory_ put_mc]. rewrite (gets_eq _ _ _ _ Hdec). nc. nc.
    change (DFS_AGAIN =? DFS_OK) with false. change (DFS_AGAIN =? DFS_ERROR) with false. change (DFS_AGAIN =? DFS_AGAIN) with true.
    cbn match. erewrite ST_bind_eq.
    2: { eapply (free_task_connected q t); [reflexivity|cbn; apply lookup_insert_eq|by rewrite Ho|done]. }
    unfold release. rewrite Ho. nc. rewrite (gets_eq _ _ _ (m, b)) by done. nc. nc.
    cbv [mret ST_ret]. f_equal. f_equal. unfold freed. destruct w, c. cbn in Hc, Ht, Hq. subst.
    wd. rewrite insert_id by done. repeat f_equal. lia.
  - intros ->. pose proof (pend_length _ _ _ HB HP) as HL. cbn in HL. unfold buffer_shrink in E.
    destruct (start (in_ c) =? pos (in_ c)); [congruence|]. cbv zeta in E.
    rewrite <-HL in E. change (s32 0 =? 0) with true in E. by injection E.
Qed.

(** No node is left: the connection is taken off epoll until its timer fires. *)
Lemma decode_busy epoll_ok w c d fuel :
  mc w = Some c -> max_task c <= count c -> connection c = Some d ->
  nn_conn_decode epoll_ok (S fuel) w = Some (DFS_BUSY,
    put_mc (Some (set_ev_timer true (set_connection (Some (let d := set_r_ready false d in if epoll_ok then set_r_active false d else d))
      (set_slow true c)))) w).
Proof.
  intros Hc Hle Hd. cbn [nn_conn_decode]. rewrite (ST_bind_eq _ _ w None w).
  2: { unfold nn_conn_get_task. do 2 nc. by rewrite (proj2 (Z.leb_le _ _) Hle). }
  nc. unfold event_del_read. rewrite bind_assoc.
  erewrite updc_eq by (reflexivity || (cbn; exact Hd)). destruct epoll_ok.
  - rewrite bind_assoc. erewrite updc_eq by reflexivity. nc. nc. done.
  - nc. nc. done.
Qed.

(** ** Returning nodes *)

(** The heap blocks that the tasks of the nodes own. *)
Definition blocks (w : world) (qs : list Z) : list Z :=
  omap (fun q => t ← tk w !! q; if owned t then Some (data t) else None) qs.

(** The nodes hold tasks whose data, if any, are distinct blocks of the heap. *)
Definition returnable (w : world) (qs : list Z) : Prop :=
  NoDup qs /\ NoDup (blocks w qs) /\
  Forall (fun q => exists t, tk w !! q = Some t /\ (owned t = true -> data t ∈ heap w)) qs.

Lemma blocks_cons w q qs t : tk w !! q = Some t -> blocks w (q :: qs) = (if owned t then [data t] else []) ++ blocks w qs.
Proof. intros H. unfold blocks. cbn. rewrite H. cbn. by destruct (owned t). Qed.

Lemma elem_of_blocks w qs q t : q ∈ qs -> tk w !! q = Some t -> owned t = true -> data t ∈ blocks w qs.
Proof. intros Hq Ht Ho. apply list_elem_of_omap. exists q. split; [done|]. rewrite Ht. cbn. by rewrite Ho. Qed.

Lemma release_tk_ne q t w q' : q' <> q -> tk (release q t w) !! q' = tk w !! q'.
Proof. intros H. unfold release. destruct (owned t); [|done]. cbn. by rewrite lookup_insert_ne. Qed.

Lemma release_blocks q t w qs : q ∉ qs -> blocks (release q t w) qs = blocks w qs.
Proof.
  intros H. unfold blocks. apply list_omap_ext, Forall2_same_length_lookup_2; [done|].
  intros i x y Hx Hy. rewrite Hx in Hy. injection Hy as <-. rewrite release_tk_ne; [done|]. intros ->. apply H. by eapply list_elem_of_lookup_2.
Qed.

Lemma returnable_release q t w qs : returnable w (q :: qs) -> tk w !! q = Some t -> returnable (release q t w) qs.
Proof.
  intros (Hnd & Hb & HF) Ht. apply NoDup_cons in Hnd as [Hq Hnd]. apply Forall_cons in HF as [_ HF].
  rewrite (blocks_cons _ _ _ _ Ht) in Hb. apply NoDup_app in Hb as (_ & Hdis & Hb).
  split; [done|]. rewrite release_blocks by done. split; [done|]. rewrite Forall_forall in HF |- *. intros x Hx.
  destruct (HF x Hx) as (tx & Htx & Hown). exists tx. rewrite release_tk_ne by (intros ->; done). split; [done|].
  intros Ho. unfold release. destruct (owned t) eqn:Et; [|by apply Hown]. cbn. apply list_elem_of_filter. split; [|by apply Hown].
  intros Heq. apply (Hdis (data t)); [by left|]. rewrite <-Heq. by eapply elem_of_blocks.
Qed.

(** The tasks and the heap after the nodes gave back their data. *)
Fixpoint release_all (qs : list Z) (w : world) : world :=
  match qs with
  | [] => w
  | q :: qs' => release_all qs' (release q (default task_clear (tk w !! q)) w)
  end.

Lemma release_all_mc qs w c : release_all qs (put_mc c w) = put_mc c (release_all qs w).
Proof.
  revert w. induction qs as [|q qs IH]; intros w; [done|]. cbn [release_all tk put_mc]. rewrite <-IH. f_equal.
  unfold release. by destruct (owned _).
Qed.

Lemma free_queue_ok fin qs : forall w c,
  mc w = Some c -> out_task c = qs -> returnable w qs -> state c <> ST_DISCONNCECTED ->
  free_queue_with fin (S (length qs)) w =
    Some (tt, put_mc (Some (set_out_task [] (set_free_task (free_task c ++ qs) (set_count (count c - Z.of_nat (length qs)) c))))
      (release_all qs w)).
Proof.
  induction qs as [|q qs IH]; intros w c Hc Ho HR Hs.
  - cbn [free_queue_with length]. nc. rewrite Ho. cbv [mret ST_ret]. f_equal. f_equal. destruct w, c. cbn in Hc, Ho. subst. cbn [release_all].
    wd. rewrite app_nil_r. repeat f_equal. lia.
  - change (S (length (q :: qs))) with (S (S (length qs))). remember (S (length qs)) as n eqn:En.
    cbn [free_queue_with]. subst n. nc. rewrite Ho. nc.
    pose proof HR as (_ & _ & HF). apply Forall_cons in HF as [(t & Ht & Hown) _].
    rewrite (ST_bind_eq _ _ _ tt (put_mc (Some (freed q (set_out_task qs c))) (release q t w))).
    2: { erewrite free_task_eq; [|reflexivity|exact Ht|exact Hown]. cbn [state set_out_task].
         rewrite (proj2 (Z.eqb_neq _ _) Hs). cbn [andb]. cbv [mret ST_ret]. f_equal. f_equal.
         unfold release. by destruct (owned t). }
    rewrite (IH _ (freed q (set_out_task qs c))); [|done|done|by apply returnable_release|done].
    f_equal. f_equal. cbn [release_all]. rewrite Ht. cbn [default from_option id]. rewrite release_all_mc.
    destruct (release_all qs (release q t w)), c. unfold freed. wd. cbn [length]. rewrite <-app_assoc.
    match goal with |- context [?a - 1 - Z.of_nat ?n] => replace (a - 1 - Z.of_nat n) with (a - Z.of_nat (S n)) by lia end. done.
Qed.

(** ** The end of a connection *)

(** The connection object after it was closed. *)
Definition closed (c : nn_conn_t) : nn_conn_t :=
  set_state ST_DISCONNCECTED (set_out_task [] (set_free_task (free_task c ++ out_task c)
    (set_count (count c - Z.of_nat (length (out_task c))) (set_connection None (set_ev_timer false c))))).

Lemma finalize_connected w c :
  mc w = Some c -> state c = ST_CONNCECTED -> returnable w (out_task c) ->
  nn_conn_finalize w = Some (tt, put_mc (if 0 <? count (closed c) then Some (closed c) else None) (release_all (out_task c) w)).
Proof.
  intros Hc Hs HR. unfold nn_conn_finalize. cbn [finalize_depth]. fold (finalize_depth 1). nc. rewrite Hs.
  change (ST_CONNCECTED =? ST_CONNCECTED) with true. cbn match.
  set (c1 := set_connection None (set_ev_timer false c)).
  rewrite (ST_bind_eq _ _ w tt (put_mc (Some (closed c)) (release_all (out_task c) w))).
  2: { nc. rewrite (ST_bind_eq _ _ w tt (put_mc (Some (set_ev_timer false c)) w)).
       2: { destruct (ev_timer c) eqn:Et; [unfold upd, puts; by rewrite Hc|]. cbv [mret ST_ret]. f_equal. f_equal.
            destruct w, c. cbn in Hc, Et. subst. done. }
       unfold nn_conn_close. rewrite (ST_bind_eq _ _ _ tt (put_mc (Some c1) w)).
       2: { nc. destruct (connection c) as [d|] eqn:Ec; cbn [connection set_ev_timer]; rewrite Ec; [done|].
            cbv [mret ST_ret]. f_equal. f_equal. unfold c1. destruct w, c. cbn in Hc, Ec. subst. done. }
       nc. rewrite (ST_bind_eq _ _ _ _ _ (free_queue_ok (finalize_depth 1) (out_task c) (put_mc (Some c1) w) c1 eq_refl eq_refl HR ltac:(cbn; by rewrite Hs))).
       unfold nn_conn_update_state. unfold upd, puts. cbn. f_equal. f_equal. by rewrite release_all_mc. }
  nc. destruct (0 <? count (closed c)); [done|]. by unfold pool_destroy, puts.
Qed.

(** A node that comes back to a closed connection. *)
Lemma write_back_closed epoll_ok fuel s w c q t :
  mc w = Some c -> state c = ST_DISCONNCECTED -> tk w !! q = Some t -> (owned t = true -> data t ∈ heap w) ->
  write_back_pack_task epoll_ok fuel s q w = Some (tt,
    put_mc (if count c =? 1 then None else Some (freed q c))
      (put_dispatched (filter (fun x => x <> q) (dispatched w)) (release q t w))).
Proof.
  intros Hc Hs Ht Hown. unfold write_back_pack_task. set (w1 := put_dispatched (filter (fun x => x <> q) (dispatched w)) w).
  rewrite (ST_bind_eq _ _ w tt w1) by done. unfold nn_conn_outtask. rewrite bind_assoc.
  erewrite get_eq by (cbn; exact Hc). rewrite Hs. change (ST_DISCONNCECTED =? ST_CONNCECTED) with false. cbn [negb].
  unfold nn_conn_free_task. rewrite bind_assoc. erewrite ST_bind_eq; [by nc|]. erewrite free_task_eq; [|exact Hc|exact Ht|exact Hown].
  rewrite Hs. change (ST_DISCONNCECTED =? ST_DISCONNCECTED) with true. cbn [andb].
  assert (Hr : release q t w1 = put_dispatched (filter (fun x => x <> q) (dispatched w)) (release q t w)).
  { unfold release, w1. by destruct (owned t). }
  rewrite Hr. destruct (Z.eqb_spec (count c) 1) as [H1|H1].
  - rewrite H1. change (1 - 1 =? 0) with true. cbn match. unfold nn_conn_finalize. cbn [finalize_depth]. nc.
    cbn [state freed set_free_task set_count]. rewrite Hs. change (ST_DISCONNCECTED =? ST_CONNCECTED) with false. cbn match.
    nc. nc. cbn [count freed set_free_task set_count]. rewrite H1. by unfold pool_destroy, puts.
  - rewrite (proj2 (Z.eqb_neq _ _)) by lia. done.
Qed.

(** The pool lives until the last node is back. *)
Lemma drain_ok epoll_ok fuel s qs : forall w c,
  mc w = Some c -> state c = ST_DISCONNCECTED -> Z.of_nat (length qs) <= count c -> 0 < count c -> returnable w qs ->
  exists w', write_back_pack_queue epoll_ok fuel s qs w = Some (tt, w') /\
    (mc w' = None <-> count c = Z.of_nat (length qs)) /\
    (forall q, q ∉ qs -> tk w' !! q = tk w !! q).
Proof.
  induction qs as [|q qs IH]; intros w c Hc Hs Hle Hpos HR.
  { exists w. split; [done|]. split; [|done]. rewrite Hc. split; [done|cbn; lia]. }
  pose proof HR as (_ & _ & HF). apply Forall_cons in HF as [(t & Ht & Hown) _]. cbn [write_back_pack_queue].
  rewrite (ST_bind_eq _ _ _ _ _ (write_back_closed epoll_ok fuel s w c q t Hc Hs Ht Hown)).
  set (o := if count c =? 1 then None else Some (freed q c)). set (w1 := put_mc o _).
  assert (HR1 : returnable w1 qs) by (by apply (returnable_release q t w qs)).
  assert (Htk1 : forall x, x <> q -> tk w1 !! x = tk w !! x) by (intros x Hx; by apply release_tk_ne).
  assert (Ho : mc w1 = o) by done. unfold o in Ho. destruct (Z.eqb_spec (count c) 1) as [H1|H1].
  - destruct qs as [|q' qs]; [|cbn in Hle; lia]. exists w1. split; [done|]. split; [by rewrite Ho, H1|].
    intros x [Hx _]%not_elem_of_cons. by apply Htk1.
  - destruct (IH w1 (freed q c)) as (w' & Hrun & Hmc & Htk'); try done; [cbn in *; lia..|].
    exists w'. split; [done|]. split; [rewrite Hmc; cbn [length count freed set_free_task set_count]; lia|].
    intros x [Hx Hx']%not_elem_of_cons. rewrite Htk' by done. by apply Htk1.
Qed.

(** ** Encoding answers *)

(** The node [q] holds the answer [tp], whose payload is in memory outside the buffer [b]. *)
Definition answer (k : gmap Z task_t) (m : mem) (b : buffer_t) (q : Z) (tp : task_t * list Z) : Prop :=
  k !! q = Some tp.1 /\ wf_frame tp /\ rd m (data tp.1) (length tp.2) = Some tp.2 /\
  apart (start b) (end_ b - start b) (data tp.1) (Z.of_nat (length tp.2)).

Lemma encode_again m t p b : wf_frame (t, p) -> buf m b -> buffer_free_size b < frame_len p ->
  task_encode m t b = Some (DFS_AGAIN, m, b).
Proof.
  intros (OK & L & B) HB HF. cbn [fst snd] in *. unfold task_encode. destruct (Z.leb_spec (buffer_free_size b) 0); [done|].
  destruct HB as ((? & ? & ? & _) & _). unfold s32. rewrite swrap_small by (unfold in_s, buffer_free_size in *; lia).
  unfold task_encode2str, frame_size, sizeof_int, sizeof_task_t. unfold frame_len in *.
  rewrite decide_True by (unfold in_s; lia). cbn [mbind option_bind]. by rewrite (proj2 (Z.ltb_lt _ _)) by lia.
Qed.

Lemma encode_pend k m b bs q tp : buf m b -> pend m b bs -> answer k m b q tp -> frame_len tp.2 <= buffer_free_size b ->
  let b' := buffer_used b (frame_len tp.2) in
  exists m', task_encode m tp.1 b = Some (DFS_OK, m', b') /\ buf m' b' /\ pend m' b' (bs ++ frame_bytes tp) /\
    (forall i, i < start b \/ end_ b <= i -> m' !! i = m !! i).
Proof.
  intros HB HP (_ & Hw & HR & HA) HF b'. pose proof (frame_bytes_length _ Hw) as HL. pose proof (buf_size _ _ HB) as Hs.
  pose proof (pend_length _ _ _ HB HP) as HLb. destruct tp as [t p]. cbn [fst snd] in *. destruct Hw as (OK & L & B). cbn [fst snd] in *.
  destruct HB as (HO & HM & HMap). pose proof HO as (H1 & H2 & H3 & H4).
  destruct (task_encode_ok m t p b) as (m' & E & F & O); try done.
  unfold frame_at in F. assert (HFl : 0 < frame_len p) by (unfold frame_len; lia). unfold buffer_free_size in HF.
  replace (4 + (sizeof_task_t + (4 + length p)))%nat with (length (frame_bytes (t, p))) in F
    by (unfold frame_len, sizeof_task_t in *; lia).
  exists m'. split; [done|]. split; [|split].
  - split; [unfold buffer_ok, b'; cbn; lia|]. split; [done|]. intros i Hi. cbn in Hi.
    destruct (decide (last b <= i < last b + frame_len p)) as [Hin|Hout].
    + assert (HMf : mapped m' (last b) (Z.of_nat (length (frame_bytes (t, p))))) by (apply rd_mapped; eauto). apply HMf. lia.
    + rewrite O by lia. by apply HMap.
  - unfold pend, buffer_size, buffer_in_memory, b'. cbn. rewrite HM.
    replace (Z.to_nat (last b + frame_len p - pos b)) with (Z.to_nat (buffer_size b) + length (frame_bytes (t, p)))%nat by lia.
    rewrite rd_app. unfold pend in HP. rewrite (rd_frame m m' (pos b) (Z.to_nat (buffer_size b))) by (intros i Hi; apply O; lia). rewrite HP. cbn [mbind option_bind].
    replace (pos b + Z.of_nat (Z.to_nat (buffer_size b))) with (last b) by lia. by rewrite F.
  - intros i Hi. apply O. lia.
Qed.

Lemma release_all_mem qs w m : release_all qs (put_mem m w) = put_mem m (release_all qs w).
Proof.
  revert w. induction qs as [|q qs IH]; intros w; [done|]. cbn [release_all tk put_mem]. rewrite <-IH. f_equal.
  unfold release. by destruct (owned _).
Qed.

Lemma release_all_rest qs w : dispatched (release_all qs w) = dispatched w /\ tx (release_all qs w) = tx w /\
  sent (release_all qs w) = sent w /\ mc (release_all qs w) = mc w /\ memory_ (release_all qs w) = memory_ w.
Proof.
  revert w. induction qs as [|q qs IH]; intros w; [done|]. cbn [release_all].
  destruct (IH (release q (default task_clear (tk w !! q)) w)) as (-> & -> & -> & -> & ->).
  unfold release. by destruct (owned _).
Qed.

(** The world after the answers [ps] were encoded from the nodes [qs]. *)
Definition packed_w (qs qs' : list Z) (ps : list (task_t * list Z)) (m : mem) (c : nn_conn_t) (w : world) : world :=
  put_mem m (put_mc (Some (set_out (buffer_used (out c) (total ps)) (set_out_task qs'
    (set_free_task (free_task c ++ qs) (set_count (count c - Z.of_nat (length qs)) c))))) (release_all qs w)).

Lemma answer_frame k k' m m' b b' q tp :
  (k' !! q = k !! q) -> (forall i, i < start b \/ end_ b <= i -> m' !! i = m !! i) -> start b' = start b -> end_ b' = end_ b ->
  answer k m b q tp -> answer k' m' b' q tp.
Proof.
  intros Hk Hm Hs He (H1 & H2 & H3 & H4). unfold answer. rewrite Hk, Hs, He. split_and!; try done.
  rewrite <-H3. apply rd_frame. intros i Hi. apply Hm. unfold apart in H4. lia.
Qed.

Lemma answers_frame k k' m m' b b' qs ps :
  (forall q, q ∈ qs -> k' !! q = k !! q) -> (forall i, i < start b \/ end_ b <= i -> m' !! i = m !! i) ->
  start b' = start b -> end_ b' = end_ b -> Forall2 (answer k m b) qs ps -> Forall2 (answer k' m' b') qs ps.
Proof.
  intros Hk Hm Hs He HA. induction HA as [|q tp qs ps Ha HA IH]; constructor.
  - eapply (answer_frame k k' m m' b b'); try done. apply Hk. by left.
  - apply IH. intros q' Hq'. apply Hk. by right.
Qed.

Lemma packed_none w c : mc w = Some c -> packed_w [] (out_task c) [] (memory_ w) c w = w.
Proof.
  intros Hc. unfold packed_w. cbn [total foldr release_all length]. change (Z.of_nat 0) with 0.
  rewrite Z.sub_0_r, app_nil_r. assert (Hb : buffer_used (out c) 0 = out c).
  { unfold buffer_used, set_window. destruct (out c). cbn. f_equal. lia. }
  rewrite Hb. destruct w, c. cbn in Hc. by subst.
Qed.

Lemma buffer_used_0 b : buffer_used b (total []) = b.
Proof. unfold buffer_used, set_window. destruct b. cbn. f_equal. lia. Qed.

Lemma pack_ok qs : forall ps w c bs,
  mc w = Some c -> out_task c = qs -> Forall2 (answer (tk w) (memory_ w) (out c)) qs ps ->
  buf (memory_ w) (out c) -> pend (memory_ w) (out c) bs -> returnable w qs -> state c <> ST_DISCONNCECTED ->
  exists qs1 qs2 ps1 ps2 m', qs = qs1 ++ qs2 /\ ps = ps1 ++ ps2 /\ length qs1 = length ps1 /\
    pack_loop (S (length qs)) w = Some (tt, packed_w qs1 qs2 ps1 m' c w) /\
    buf m' (buffer_used (out c) (total ps1)) /\ pend m' (buffer_used (out c) (total ps1)) (bs ++ stream ps1) /\
    Forall2 (answer (tk (release_all qs1 w)) m' (out c)) qs2 ps2 /\ returnable (release_all qs1 w) qs2 /\
    (forall tp, head ps2 = Some tp -> buffer_free_size (out c) - total ps1 < frame_len tp.2) /\
    (forall i, i < start (out c) \/ end_ (out c) <= i -> m' !! i = memory_ w !! i).
Proof.
  induction qs as [|q qs IH]; intros ps w c bs Hc Ho HA HB HP HR Hs.
  - apply Forall2_nil_inv_l in HA as ->. exists [], [], [], [], (memory_ w).
    rewrite buffer_used_0, !app_nil_r. do 3 (split; [done|]). pose proof (packed_none w c Hc) as Hp. rewrite Ho in Hp. rewrite Hp.
    split; [cbn [pack_loop length]; nc; by rewrite Ho|]. do 2 (split; [done|]). split; [constructor|]. by repeat (split; [done|]).
  - apply Forall2_cons_inv_l in HA as (tp & ps' & Ha & HA & ->). change (S (length (q :: qs))) with (S (S (length qs))).
    remember (S (length qs)) as n eqn:En. cbn [pack_loop]. subst n. nc. rewrite Ho.
    assert (Ht : tk w !! q = Some tp.1) by apply Ha. erewrite get_tk_eq by exact Ht. nc. nc.
    destruct (Z.le_gt_cases (frame_len tp.2) (buffer_free_size (out c))) as [Hle|Hgt].
    + destruct (encode_pend _ _ _ _ _ _ HB HP Ha Hle) as (m1 & E1 & HB1 & HP1 & F1). rewrite (gets_eq _ _ _ _ E1). nc. nc.
      change (DFS_OK =? DFS_OK) with true. cbn match. nc.
      set (c1 := set_out_task qs (set_out (buffer_used (out c) (frame_len tp.2)) c)).
      pose proof HR as (_ & _ & HF). apply Forall_cons in HF as [(t' & Ht' & Hown) _]. rewrite Ht in Ht'. injection Ht' as <-.
      set (w1 := put_mc (Some (freed q c1)) (release q tp.1 (put_mem m1 w))).
      rewrite (ST_bind_eq _ _ _ tt w1).
      2: { erewrite free_task_connected; [|reflexivity|exact Ht|exact Hown|done]. unfold w1, release. by destruct (owned tp.1). }
      assert (Htk1 : forall x, x <> q -> tk w1 !! x = tk w !! x).
      { intros x Hx. unfold w1. cbn [tk put_mc]. by rewrite release_tk_ne. }
      assert (Hm1 : memory_ w1 = m1) by (unfold w1, release; by destruct (owned tp.1)).
      assert (HR1 : returnable w1 qs).
      { pose proof (returnable_release q tp.1 (put_mem m1 w) qs HR Ht) as H. exact H. }
      assert (HA1 : Forall2 (answer (tk w1) (memory_ w1) (out (freed q c1))) qs ps').
      { pose proof HR as (Hnd & _). apply NoDup_cons in Hnd as [Hq _]. rewrite Hm1.
        eapply answers_frame; [|exact F1|..|exact HA]; try done. intros x Hx. apply Htk1. by intros ->. }
      destruct (IH ps' w1 (freed q c1) (bs ++ frame_bytes tp)) as
        (qs1 & qs2 & ps1 & ps2 & m' & -> & -> & Hlen & Hrun & HB2 & HP2 & HA2 & HR2 & Hfit & F2); try done; try (rewrite Hm1; done).
      exists (q :: qs1), qs2, (tp :: ps1), ps2, m'.
      assert (Hbuf : buffer_used (out (freed q c1)) (total ps1) = buffer_used (out c) (total (tp :: ps1))).
      { unfold buffer_used, set_window. cbn. fold (total ps1). f_equal. lia. }
      assert (Hall : release_all qs1 w1 = put_mc (Some (freed q c1)) (put_mem m1 (release_all (q :: qs1) w))).
      { unfold w1. rewrite release_all_mc. f_equal. cbn [release_all]. rewrite Ht, <-release_all_mem. f_equal.
        unfold release. by destruct (owned _). }
      rewrite Hall in HA2, HR2. rewrite Hbuf in HB2, HP2. rewrite <-app_assoc in HP2.
      split; [done|]. split; [done|]. split; [cbn; congruence|]. split; [|split; [done|split; [done|split; [|split; [done|split]]]]].
      * rewrite Hrun. f_equal. f_equal. unfold packed_w. rewrite Hall, Hbuf. generalize (release_all (q :: qs1) w). intros w2.
        destruct w2, c. unfold freed. wd. cbn [length]. rewrite <-app_assoc.
        match goal with |- context [?a - 1 - Z.of_nat ?n] => replace (a - 1 - Z.of_nat n) with (a - Z.of_nat (S n)) by lia end. done.
      * eapply answers_frame; [..|exact HA2]; done.
      * intros tp' Htp. specialize (Hfit tp' Htp). unfold buffer_free_size in *. cbn in *. fold (total ps1). lia.
      * intros i Hi. rewrite F2 by done. rewrite Hm1. by apply F1.
    + destruct tp as [t p]. cbn [fst snd] in *. rewrite (gets_eq _ _ _ (DFS_AGAIN, memory_ w, out c)).
      2: { apply (encode_again _ _ p); [apply Ha|done|done]. }
      nc. nc. change (DFS_AGAIN =? DFS_OK) with false. change (DFS_AGAIN =? DFS_AGAIN) with true. cbn match.
      exists [], (q :: qs), [], ((t, p) :: ps'), (memory_ w).
      rewrite buffer_used_0, app_nil_r. do 3 (split; [done|]). split; [|do 2 (split; [done|]); split; [by constructor|split; [done|split; [|done]]]].
      * rewrite <-Ho, packed_none by done. cbv [mret ST_ret]. f_equal. f_equal. destruct w, c. cbn in Hc. by subst.
      * intros tp [= <-]. cbn in *. lia.
Qed.

(** ** Sending *)

(** send(2) never accepts a negative number of bytes. *)
Definition tx_ok (t : tx_t) : Prop := match t with Tx n => 0 <= n | _ => True end.

(** The socket takes something at the first call. *)
Definition accepts (r : list tx_t) : Prop := match r with Tx n :: _ => 0 < n | _ => False end.

Definition sent_w (r : list tx_t) (bs : list Z) (d : conn_t) (c : nn_conn_t) (w : world) : world :=
  put_tx r (put_sent (sent w ++ bs) (put_mc (Some (set_connection (Some d) c)) w)).

(** The write event may have become not ready. *)
Definition less_ready (d d' : conn_t) : Prop := d' = d \/ d' = set_w_ready false d.

Lemma less_ready_trans d1 d2 d3 : less_ready d1 d2 -> less_ready d2 d3 -> less_ready d1 d3.
Proof. intros [H1|H1] [H2|H2]; subst; [by left|by right..]. Qed.

Lemma set_connection_id c d : connection c = Some d -> set_connection (Some d) c = c.
Proof. intros <-. by destruct c. Qed.

Lemma sent_w_id w c d : mc w = Some c -> connection c = Some d -> sent_w (tx w) [] d c w = w.
Proof.
  intros Hc Hd. unfold sent_w. rewrite (set_connection_id c d Hd), app_nil_r. destruct w. cbn in Hc. by subst.
Qed.

Lemma sent_w_nil r n bs d c w : n <= 0 ->
  sent_w r (take (Z.to_nat n) bs) d c w = put_tx r (put_mc (Some (set_connection (Some d) c)) w).
Proof. intros H. replace (Z.to_nat n) with 0%nat by lia. unfold sent_w. by rewrite take_0, app_nil_r. Qed.

Lemma send_loop_ok r : forall w c d a size bs,
  mc w = Some c -> connection c = Some d -> Forall tx_ok r -> 0 < size ->
  rd (memory_ w) a (Z.to_nat size) = Some bs ->
  exists rc r' d', send_loop r a size w = Some (rc, sent_w r' (take (Z.to_nat rc) bs) d' c w) /\
    less_ready d d' /\ Forall tx_ok r' /\ rc <= size /\ (length r' <= length r)%nat /\ (0 <= rc -> (length r' < length r)%nat) /\
    (0 <= rc \/ rc = DFS_AGAIN /\ d' = set_w_ready false d \/ rc = DFS_ERROR) /\
    (TxErr ∈ r' \/ rc = DFS_ERROR -> TxErr ∈ r) /\ (accepts r -> 0 < rc).
Proof.
  induction r as [|x r IH]; intros w c d a size bs Hc Hd HR Hsz Hrd.
  - exists DFS_AGAIN, [], (set_w_ready false d). split; [|split; [by right|unfold DFS_AGAIN; split_and!; [constructor|lia|cbn; lia|lia|by auto|by intros [?|?]|done]]].
    cbn [send_loop]. do 2 nc. rewrite sent_w_nil by done. by destruct w.
  - apply Forall_cons in HR as [Hx HR]. cbn [send_loop]. destruct x as [n| | |].
    + set (k := Z.min n size). cbn in Hx. assert (Hk : rd (memory_ w) a (Z.to_nat k) = Some (take (Z.to_nat k) bs)).
      { replace (Z.to_nat size) with (Z.to_nat k + Z.to_nat (size - k))%nat in Hrd by lia.
        rewrite <-(take_drop (Z.to_nat k) bs) in Hrd. apply rd_split in Hrd as [? _]; [done|].
        rewrite length_take. apply rd_length in Hrd. rewrite take_drop in Hrd. lia. }
      exists k, r, (if k <? size then set_w_ready false d else d).
      split; [|split_and!; try done; [destruct (k <? size); [by right|by left]|lia|cbn; lia|cbn; lia|left; lia| |cbn; lia]].
      2: { intros [?|?]; [by right|unfold DFS_ERROR in *; lia]. }
      fold k. nc. rewrite (gets_eq _ _ _ _ Hk). do 2 nc. destruct (k <? size).
      * erewrite updc_eq by (cbn; eassumption). done.
      * nc. cbv [mret ST_ret]. f_equal. f_equal. unfold sent_w. rewrite (set_connection_id c d Hd). destruct w. cbn in Hc. by subst.
    + destruct (IH w c d a size bs Hc Hd HR Hsz Hrd) as (rc & r' & d' & Hrun & H1 & H2 & H3 & H4 & H5 & H6 & H7 & _).
      exists rc, r', d'. split_and!; try done; [cbn; lia..|]. intros H. right. by apply H7.
    + exists DFS_AGAIN, r, (set_w_ready false d). split; [|split; [by right|unfold DFS_AGAIN; split_and!; [done|lia|cbn; lia|lia|by auto|by intros [?|?]; [right|]|done]]].
      do 2 nc. rewrite sent_w_nil by done. by destruct w.
    + exists DFS_ERROR, r, d. split; [|split; [by left|unfold DFS_ERROR; split_and!; [done|lia|cbn; lia|lia|by auto|by left|done]]].
      nc. rewrite sent_w_nil, (set_connection_id c d Hd) by done. destruct w. cbn in Hc. by subst.
Qed.

Lemma send_ok w c d b bs :
  mc w = Some c -> connection c = Some d -> Forall tx_ok (tx w) -> buf (memory_ w) b -> pend (memory_ w) b bs -> bs <> [] ->
  exists rc r' d', sysio_unix_send (pos b) (buffer_size b) w = Some (rc, sent_w r' (take (Z.to_nat rc) bs) d' c w) /\
    less_ready d d' /\ Forall tx_ok r' /\ rc <= buffer_size b /\ (length r' <= length (tx w))%nat /\ (0 <= rc -> (length r' < length (tx w))%nat) /\
    (0 <= rc \/ rc = DFS_AGAIN /\ d' = set_w_ready false d \/ rc = DFS_ERROR) /\
    (TxErr ∈ r' \/ rc = DFS_ERROR -> TxErr ∈ tx w) /\ (accepts (tx w) -> 0 < rc).
Proof.
  intros Hc Hd HR HB HP Hne. pose proof (pend_length _ _ _ HB HP) as HL.
  apply (send_loop_ok (tx w)); try done. destruct bs; [done|]. cbn in HL. lia.
Qed.

(** The world after the send buffer was written to the socket. *)
Definition flushed_w (r : list tx_t) (bs : list Z) (d : conn_t) (b : buffer_t) (c : nn_conn_t) (w : world) : world :=
  put_mc (Some (set_out b (set_connection (Some d) c))) (put_tx r (put_sent (sent w ++ bs) w)).

Definition sent_result (rc : Z) (d' : conn_t) (b' : buffer_t) (rest : list Z) : Prop :=
  rc = DFS_OK /\ rest = [] /\ compact b' \/ rc = DFS_AGAIN /\ w_ready d' = false \/ rc = DFS_ERROR.

Lemma out_loop_ok fuel : forall w c d bs,
  mc w = Some c -> connection c = Some d -> Forall tx_ok (tx w) -> (length (tx w) < fuel)%nat ->
  buf (memory_ w) (out c) -> pend (memory_ w) (out c) bs ->
  exists rc b' s1 s2 d' r', out_loop fuel (out c) (buffer_size (out c)) w = Some ((rc, b'), flushed_w r' s1 d' b' c w) /\
    bs = s1 ++ s2 /\ buf (memory_ w) b' /\ pend (memory_ w) b' s2 /\ start b' = start (out c) /\ end_ b' = end_ (out c) /\
    less_ready d d' /\ Forall tx_ok r' /\ (length r' <= length (tx w))%nat /\ sent_result rc d' b' s2 /\
    (TxErr ∈ r' \/ rc = DFS_ERROR -> TxErr ∈ tx w) /\ (accepts (tx w) -> bs <> [] -> s1 <> []).
Proof.
  induction fuel as [|fuel IH]; intros w c d bs Hc Hd HR HF HB HP; [lia|]. cbn [out_loop].
  pose proof (pend_length _ _ _ HB HP) as HL. destruct bs as [|x bs].
  - cbn in HL. rewrite <-HL. change (Z.of_nat 0 =? 0) with true. cbn match.
    exists DFS_OK, (buffer_reset (out c)), [], [], d, (tx w). split.
    { nc. unfold flushed_w. rewrite app_nil_r, (set_connection_id c d Hd). by destruct w. }
    pose proof HB as ((? & ? & ? & ?) & ? & HMap). split; [done|]. split.
    { split; [unfold buffer_ok; cbn; lia|]. split; [done|]. intros i Hi. cbn in Hi. apply HMap. lia. }
    split. { unfold pend, buffer_size, buffer_in_memory. cbn. rewrite (proj1 (proj2 HB)). by rewrite Z.sub_diag. }
    do 2 (split; [done|]). split; [by left|]. do 2 (split; [done|]). split; [by left|]. split; [by intros [?|?]|done].
  - destruct (send_ok w c d (out c) (x :: bs) Hc Hd HR HB HP) as (rc & r' & d' & Hrun & Hd' & HR' & Hle & Hle' & Hlt & Hres & Herr & Hacc); [done|].
    cbn [length] in HL. rewrite (proj2 (Z.eqb_neq _ _)) by lia. rewrite (ST_bind_eq _ _ _ _ _ Hrun).
    destruct (Z.ltb_spec rc 0) as [Hneg|Hpos].
    + exists rc, (out c), [], (x :: bs), d', r'. split.
      { cbv [mret ST_ret]. f_equal. f_equal. rewrite sent_w_nil by lia. unfold flushed_w. rewrite app_nil_r. by destruct w, c. }
      do 8 (split; [done|]). split; [destruct Hres as [?|[[-> ->]| ->]]; [lia|right; by left|by right; right]|].
      split; [done|]. intros Ha. specialize (Hacc Ha). lia.
    + set (l1 := take (Z.to_nat rc) (x :: bs)). set (l2 := drop (Z.to_nat rc) (x :: bs)).
      assert (Hl1 : Z.of_nat (length l1) = rc) by (unfold l1; rewrite length_take; cbn [length]; lia).
      assert (Hbs : x :: bs = l1 ++ l2) by (symmetry; apply take_drop). rewrite Hbs in HP.
      destruct (pend_pull _ _ _ _ HB HP) as (HB1 & HP1 & _). rewrite Hl1 in HB1, HP1. nc.
      set (c1 := set_out (buffer_pull (out c) rc) (set_connection (Some d') c)). set (w1 := put_mc _ _).
      destruct (IH w1 c1 d' l2) as (rc2 & b2 & s1 & s2 & d2 & r2 & Hrun2 & Hl2 & HB2 & HP2 & S2 & E2 & Hd2 & HR2 & Hle2 & Hres2 & Herr2 & _);
        try done; [cbn; lia|].
      exists rc2, b2, (l1 ++ s1), s2, d2, r2. split.
      { replace (buffer_size (out c) - rc) with (buffer_size (out c1)); [etransitivity; [exact Hrun2|]|].
        - f_equal. f_equal. unfold flushed_w, w1, sent_w, c1. destruct w, c. wd. by rewrite <-app_assoc.
        - pose proof (buf_size _ _ HB). pose proof (buf_size _ _ HB1). cbn in *. lia. }
      split; [by rewrite Hbs, Hl2, app_assoc|]. do 4 (split; [done|]). split; [by eapply less_ready_trans|].
      split; [done|]. split; [cbn in Hle2; lia|]. split; [done|]. split; [intros H; apply Herr; left; by apply Herr2|].
      intros Ha _. specialize (Hacc Ha). destruct l1; [cbn in Hl1; lia|done].
Qed.

(** ** The answers of a connection

    [wire w c d bs ps]: the connection [c] is open, the bytes [bs] are in its
    send buffer and the answers [ps] wait in [out_task]. *)
Record wire (w : world) (c : nn_conn_t) (d : conn_t) (bs : list Z) (ps : list (task_t * list Z)) : Prop := {
  wi_mc : mc w = Some c;
  wi_conn : connection c = Some d;
  wi_state : state c = ST_CONNCECTED;
  wi_answers : Forall2 (answer (tk w) (memory_ w) (out c)) (out_task c) ps;
  wi_buf : buf (memory_ w) (out c);
  wi_pend : pend (memory_ w) (out c) bs;
  wi_returnable : returnable w (out_task c);
  wi_tx : Forall tx_ok (tx w);
}.

(** What sending answers leaves alone: nodes only move from the head of
    [out_task] to the end of [free_task]. *)
Record kept (w w' : world) (c c' : nn_conn_t) : Prop := {
  kp_nodes : free_task c' ++ out_task c' = free_task c ++ out_task c;
  kp_count : count c' - Z.of_nat (length (out_task c')) = count c - Z.of_nat (length (out_task c));
  kp_in : in_ c' = in_ c;
  kp_max : max_task c' = max_task c;
  kp_handler : write_event_handler c = true -> write_event_handler c' = true;
  kp_cap : start (out c') = start (out c) /\ end_ (out c') = end_ (out c);
  kp_dispatched : dispatched w' = dispatched w;
  kp_mem : forall i, i < start (out c) \/ end_ (out c) <= i -> memory_ w' !! i = memory_ w !! i;
}.

Lemma kept_refl w c : kept w w c c.
Proof. by split. Qed.

Lemma kept_trans w1 w2 w3 c1 c2 c3 : kept w1 w2 c1 c2 -> kept w2 w3 c2 c3 -> kept w1 w3 c1 c3.
Proof.
  intros [N1 C1 I1 M1 H1 [S1 E1] D1 F1] [N2 C2 I2 M2 H2 [S2 E2] D2 F2]. split; try congruence; [by auto| |].
  - by split; congruence.
  - intros i Hi. rewrite F2 by (by rewrite S1, E1). by apply F1.
Qed.

(** [repack], after the answers that fit were encoded. *)
Definition repack_send (epoll_ok : bool) (fuel s : nat) : NC Z :=
  b ← get out;
  if buffer_size b =? 0 then mret DFS_OK else
  rc ← nn_conn_out_buffer s;
  if rc =? DFS_ERROR then nn_conn_finalize;; mret DFS_ERROR else
  if rc =? DFS_AGAIN then
    e ← event_handle_write epoll_ok;
    if e =? DFS_ERROR then mret DFS_ERROR else
    updc (set_w_timer_set true);; mret DFS_AGAIN
  else repack epoll_ok fuel s.

Lemma repack_turn epoll_ok fuel s w c d bs ps : wire w c d bs ps ->
  exists w1 c1 ps1 ps2, repack epoll_ok (S fuel) s w = repack_send epoll_ok fuel s w1 /\
    ps = ps1 ++ ps2 /\ wire w1 c1 d (bs ++ stream ps1) ps2 /\ kept w w1 c c1 /\ sent w1 = sent w /\ tx w1 = tx w /\
    (forall tp, head ps2 = Some tp -> cap (out c) - Z.of_nat (length (bs ++ stream ps1)) < frame_len tp.2).
Proof.
  intros [Hc Hd Hs HA HB HP HR HT]. destruct (shrink_pend _ _ _ HB HP) as (m & b & E & HB1 & HP1 & HK1 & S1 & N1 & _ & F1 & D1).
  set (c0 := set_out b c). set (w0 := put_mc (Some c0) (put_mem m w)).
  assert (HA0 : Forall2 (answer (tk w0) (memory_ w0) (out c0)) (out_task c) ps) by (eapply answers_frame; [..|exact HA]; done).
  destruct (pack_ok (out_task c) ps w0 c0 bs) as
    (qs1 & qs2 & ps1 & ps2 & m' & Hqs & -> & Hlen & Hrun & HB2 & HP2 & HA2 & HR2 & Hfit & F2); try done; [cbn; by rewrite Hs|].
  set (w1 := packed_w qs1 qs2 ps1 m' c0 w0) in *.
  set (c1 := set_out (buffer_used b (total ps1)) (set_out_task qs2 (set_free_task (free_task c ++ qs1)
    (set_count (count c - Z.of_nat (length qs1)) c0)))).
  exists w1, c1, ps1, ps2. split.
  { cbn [repack]. nc. nc. rewrite (gets_eq _ _ _ (m, b)) by done. nc. nc. nc. cbn [out_task set_out].
    change (put_mc _ _) with w0. by rewrite (ST_bind_eq _ _ _ _ _ Hrun). }
  split; [done|]. destruct (release_all_rest qs1 w0) as (Hdis & Htx & Hsent & _ & Hmem). split; [|split; [|split_and!]].
  - assert (HT1 : Forall tx_ok (tx w1)) by (cbn; by rewrite Htx). by split.
  - split; try done.
    + cbn. by rewrite Hqs, app_assoc.
    + cbn. rewrite Hqs, length_app. lia.
    + intros i Hi. cbn. rewrite F2 by (cbn; by rewrite S1, N1). cbn. by apply F1.
  - cbn. by rewrite Hsent.
  - cbn. by rewrite Htx.
  - intros tp Htp. specialize (Hfit tp Htp). pose proof (pend_length _ _ _ HB2 HP2) as HL. pose proof (buf_size _ _ HB2).
    pose proof (pend_length _ _ _ HB1 HP1). pose proof (buf_size _ _ HB1).
    unfold cap, buffer_free_size, compact in *. cbn in *. lia.
Qed.

(** The event flags of the connection may change. *)
Lemma wire_flags w c d d' bs ps : wire w c d bs ps ->
  let c' := set_connection (Some d') c in let w' := put_mc (Some c') w in wire w' c' d' bs ps /\ kept w w' c c'.
Proof. intros [Hc Hd Hs HA HB HP HR HT] c' w'. split; by split. Qed.

Lemma out_buffer_ok s w c d bs ps : wire w c d bs ps -> (length (tx w) < s)%nat ->
  exists rc w' c' d' s1 s2, nn_conn_out_buffer s w = Some (rc, w') /\ wire w' c' d' s2 ps /\ kept w w' c c' /\
    bs = s1 ++ s2 /\ sent w' = sent w ++ s1 /\ (length (tx w') <= length (tx w))%nat /\ w_timedout d' = w_timedout d /\
    (rc = DFS_OK /\ s2 = [] \/ rc = DFS_AGAIN /\ w_ready d' = false \/ rc = DFS_ERROR) /\
    (TxErr ∈ tx w' \/ rc = DFS_ERROR -> TxErr ∈ tx w) /\ (w_ready d = true -> accepts (tx w) -> bs <> [] -> s1 <> []).
Proof.
  intros HW HF. pose proof HW as [Hc Hd Hs HA HB HP HR HT]. unfold nn_conn_out_buffer. erewrite getc_eq by eassumption.
  destruct (w_ready d) eqn:Er; cbn [negb].
  - nc. destruct (out_loop_ok s w c d bs Hc Hd HT HF HB HP) as
      (rc & b' & s1 & s2 & d' & r' & Hrun & -> & HB1 & HP1 & S1 & E1 & Hd1 & HR1 & Hle & Hres & Herr & Hacc).
    rewrite (ST_bind_eq _ _ _ _ _ Hrun). eexists rc, _, (set_out b' (set_connection (Some d') c)), d', s1, s2.
    split; [reflexivity|]. split; [|split; [by split|]].
    + split; try done. cbn. eapply answers_frame; [..|exact HA]; done.
    + do 3 (split; [done|]). split; [by destruct Hd1 as [->| ->]|]. split; [destruct Hres as [(-> & -> & _)|[?|?]]; auto|]. split; [done|auto].
  - exists DFS_AGAIN, w, c, d, [], bs. split; [done|]. split; [done|]. split; [apply kept_refl|]. rewrite app_nil_r.
    do 4 (split; [done|]). split; [auto|]. split; [by intros [?|?]|done].
Qed.

Lemma finalize_some w c : mc w = Some c -> state c = ST_CONNCECTED -> returnable w (out_task c) ->
  exists w', nn_conn_finalize w = Some (tt, w').
Proof. intros Hc Hs HR. eexists. by apply finalize_connected. Qed.

(** The first answer fits in a send buffer of [n] bytes. *)
Definition fits (n : Z) (ps : list (task_t * list Z)) : Prop :=
  match ps with [] => False | tp :: _ => frame_len tp.2 <= n end.

(** How [repack] ends: it has sent [sb], and the rest still waits in order;
    or the socket failed and the connection was closed. *)
Definition repacked (epoll_ok : bool) (w : world) (c : nn_conn_t) (d : conn_t) (bs : list Z) (ps : list (task_t * list Z))
    (rc : Z) (w' : world) : Prop :=
  exists sb w1 c1 d1 bs1 ps1, wire w1 c1 d1 bs1 ps1 /\ kept w w1 c c1 /\ sent w1 = sent w ++ sb /\
    bs ++ stream ps = sb ++ bs1 ++ stream ps1 /\ ps1 `suffix_of` ps /\ w_timedout d1 = w_timedout d /\
    (w_ready d = true -> accepts (tx w) -> (bs = [] -> fits (cap (out c)) ps) -> bs ++ stream ps <> [] -> sb <> []) /\
    (w' = w1 /\ rc = DFS_OK /\ bs1 = [] /\ (ps1 = [] \/ ~ fits (cap (out c)) ps1) \/
     w' = w1 /\ rc = DFS_AGAIN /\ w_timer_set d1 = true /\ w_ready d1 = false \/
     w' = w1 /\ rc = DFS_ERROR /\ epoll_ok = false \/
     nn_conn_finalize w1 = Some (tt, w') /\ rc = DFS_ERROR /\ TxErr ∈ tx w).

Lemma event_handle_write_ok epoll_ok w c d bs ps : wire w c d bs ps -> w_ready d = false ->
  exists e w' c' d', event_handle_write epoll_ok w = Some (e, w') /\ wire w' c' d' bs ps /\ kept w w' c c' /\
    sent w' = sent w /\ w_ready d' = false /\ w_timedout d' = w_timedout d /\ (e = DFS_OK \/ e = DFS_ERROR /\ epoll_ok = false).
Proof.
  intros HW Hr. pose proof (wi_mc _ _ _ _ _ HW) as Hc. pose proof (wi_conn _ _ _ _ _ HW) as Hd. unfold event_handle_write.
  do 2 nc. rewrite Hr. cbn [negb]. rewrite andb_true_r. destruct (w_active d); cbn [negb].
  - exists DFS_OK, w, c, d. split; [done|]. split; [done|]. split; [apply kept_refl|auto 10].
  - destruct epoll_ok; erewrite updc_eq by eassumption; eexists _, _, _, _; (split; [reflexivity|]);
      (split; [eapply wire_flags; exact HW|]); (split; [eapply wire_flags; exact HW|]); auto 10.
Qed.

Lemma repack_ok epoll_ok s fuel : forall w c d bs ps,
  wire w c d bs ps -> (length (tx w) < s)%nat -> (length ps + (if decide (bs = []) then 1 else 2) <= fuel)%nat ->
  exists rc w', repack epoll_ok fuel s w = Some (rc, w') /\ repacked epoll_ok w c d bs ps rc w'.
Proof.
  induction fuel as [|fuel IH]; intros w c d bs ps HW HS HF; [destruct (decide _); lia|].
  destruct (repack_turn epoll_ok fuel s w c d bs ps HW) as (w1 & c1 & ps1 & ps2 & -> & -> & HW1 & HK1 & Hs1 & Ht1 & Hfit).
  unfold repack_send. pose proof (wi_mc _ _ _ _ _ HW1) as Hc1. nc. pose proof (pend_length _ _ _ (wi_buf _ _ _ _ _ HW1) (wi_pend _ _ _ _ _ HW1)) as HL.
  unfold repacked. rewrite stream_app. destruct (Z.eqb_spec (buffer_size (out c1)) 0) as [H0|H0].
  { exists DFS_OK, w1. split; [done|]. destruct (bs ++ stream ps1) as [|x l] eqn:El; [|cbn in HL; lia].
    apply app_eq_nil in El as [-> El]. apply stream_nil in El as ->. rewrite Z.sub_0_r in Hfit.
    exists [], w1, c1, d, [], ps2. rewrite app_nil_r. do 6 (split; [done|]).
    assert (Hnf : ps2 = [] \/ ~ fits (cap (out c)) ps2).
    { destruct ps2 as [|tp ps2]; [by left|right]. cbn. specialize (Hfit tp eq_refl). lia. }
    split; [|by left]. intros _ _ Hf Hne. destruct Hnf as [->|Hnf]; [done|]. by destruct Hnf; apply Hf. }
  assert (Hsuf : ps2 `suffix_of` ps1 ++ ps2) by (by apply suffix_app_r).
  assert (Hne : bs ++ stream ps1 <> []) by (intros El; rewrite El in HL; cbn in HL; lia).
  destruct (out_buffer_ok s w1 c1 d _ ps2 HW1) as (rc & w2 & c2 & d2 & s1 & s2 & Hrun & HW2 & HK2 & Hcut & Hs2 & Ht2 & Hto & Hres & Herr & Hacc); [by rewrite Ht1|].
  rewrite Ht1 in Ht2, Herr, Hacc.
  rewrite (ST_bind_eq _ _ _ _ _ Hrun). assert (HK12 : kept w w2 c c2) by (by eapply kept_trans).
  assert (Hs12 : sent w2 = sent w ++ s1) by (by rewrite Hs2, Hs1).
  destruct Hres as [(-> & ->)|[(-> & Hr)| ->]].
  - change (DFS_OK =? DFS_ERROR) with false. change (DFS_OK =? DFS_AGAIN) with false. cbn match. rewrite app_nil_r in Hcut.
    destruct (IH w2 c2 d2 [] ps2 HW2) as (rc & w' & -> & sb & w3 & c3 & d3 & bs3 & ps3 & HW3 & HK3 & Hs3 & Htodo & Hsuf3 & Hto3 & _ & Hend).
    { lia. }
    { rewrite decide_True by done. rewrite length_app in HF. destruct (decide (bs = [])) as [->|]; [|lia].
      destruct ps1; [cbn in HL; lia|cbn [length] in HF; lia]. }
    exists rc, w'. split; [done|]. exists (s1 ++ sb), w3, c3, d3, bs3, ps3. split; [done|]. split; [by eapply kept_trans|].
    split; [by rewrite Hs3, Hs12, app_assoc|]. cbn in Htodo. split; [by rewrite app_assoc, Hcut, Htodo, app_assoc|].
    split; [by etransitivity|]. split; [congruence|].
    split; [intros ? ? _ _ [? _]%app_eq_nil; by apply Hacc|].
    destruct HK12 as [_ _ _ _ _ [S12 E12] _ _]. unfold cap in *. rewrite S12, E12 in Hend.
    destruct Hend as [?|[?|[?|(? & ? & ?)]]]; auto 10.
  - change (DFS_AGAIN =? DFS_ERROR) with false. change (DFS_AGAIN =? DFS_AGAIN) with true. cbn match.
    assert (Htodo : bs ++ stream ps1 ++ stream ps2 = s1 ++ s2 ++ stream ps2) by (by rewrite app_assoc, Hcut, app_assoc).
    destruct (event_handle_write_ok epoll_ok w2 c2 d2 s2 ps2 HW2 Hr) as (e & w3 & c3 & d3 & Hrun3 & HW3 & HK3 & Hs3 & Hr3 & Hto3 & He).
    rewrite (ST_bind_eq _ _ _ _ _ Hrun3). destruct He as [-> |[-> He]].
    + change (DFS_OK =? DFS_ERROR) with false. cbn match. pose proof (wi_mc _ _ _ _ _ HW3). pose proof (wi_conn _ _ _ _ _ HW3). nc.
      eexists _, _. split; [reflexivity|]. destruct (wire_flags _ _ _ (set_w_timer_set true d3) _ _ HW3) as [HW4 HK4].
      eexists s1, _, _, _, s2, ps2. split; [exact HW4|]. split; [do 2 (eapply kept_trans; [eassumption|]); exact HK4|].
      split; [cbn; by rewrite Hs3|]. do 2 (split; [done|]). split; [cbn; congruence|]. split; [auto|]. right. left. auto.
    + change (DFS_ERROR =? DFS_ERROR) with true. cbn match. eexists _, _. split; [reflexivity|].
      exists s1, w3, c3, d3, s2, ps2. split; [done|]. split; [by eapply kept_trans|]. split; [by rewrite Hs3|]. do 2 (split; [done|]).
      split; [congruence|]. split; [auto|]. right. right. left. auto.
  - change (DFS_ERROR =? DFS_ERROR) with true. cbn match.
    destruct (finalize_some w2 c2 (wi_mc _ _ _ _ _ HW2) (wi_state _ _ _ _ _ HW2) (wi_returnable _ _ _ _ _ HW2)) as [w' Hrun'].
    rewrite (ST_bind_eq _ _ _ _ _ Hrun'). exists DFS_ERROR, w'. split; [done|]. exists s1, w2, c2, d2, s2, ps2.
    do 3 (split; [done|]). split; [by rewrite app_assoc, Hcut, app_assoc|].
    do 2 (split; [done|]). split; [auto|]. auto 10.
Qed.

End NnConnOk.
