(* ===== verification/NnConnProps.v ===== *)
(** * Connections of the namenode: what the handlers guarantee

    Answers reach the wire whole, in order and once, whatever the socket does;
    a socket that keeps accepting bytes drains the connection; received frames
    are dispatched in order whatever the chunks they arrive in; and the pool of
    a closed connection lives until its last node is back. *)

From Stdlib Require Import ZArith Lia.
From stdpp Require Import base numbers list gmap option sets.
From S2P Require Import Prelude Mem Buffer Task NnConn NnConnOk.

Module NnConnProps.
Import Mem Buffer Task NnConn NnConnOk.

(** ** Sending *)

(** How a handler that sends answers ends: it has sent [sb] and the rest still
    waits in order, or the socket failed and the connection was closed. *)
Definition wrote (w : world) (c : nn_conn_t) (d : conn_t) (bs : list Z) (ps : list (task_t * list Z)) (w' : world) : Prop :=
  exists sb w1 c1 d1 bs1 ps1, wire w1 c1 d1 bs1 ps1 /\ kept w w1 c c1 /\ sent w1 = sent w ++ sb /\
    bs ++ stream ps = sb ++ bs1 ++ stream ps1 /\ ps1 `suffix_of` ps /\ w_timedout d1 = w_timedout d /\
    (w_ready d = true -> accepts (tx w) -> (bs = [] -> fits (cap (out c)) ps) -> bs ++ stream ps <> [] -> sb <> []) /\
    (w' = w1 \/ nn_conn_finalize w1 = Some (tt, w') /\ TxErr ∈ tx w).

Lemma output_ok epoll_ok w c d bs ps fuel s : wire w c d bs ps -> (length (tx w) < s)%nat -> (length ps + 2 <= fuel)%nat ->
  exists rc w', nn_conn_output epoll_ok fuel s w = Some (rc, w') /\ wrote w c d bs ps w'.
Proof.
  intros HW HS HF. pose proof HW as [Hc Hd Hs HA HB HP HR HT]. unfold nn_conn_output. nc. nc.
  destruct (negb (w_ready d) && (0 <? buffer_size (out c))) eqn:Eg.
  - apply andb_true_iff in Eg as [Er _]. exists DFS_AGAIN, w. split; [done|]. exists [], w, c, d, bs, ps. rewrite app_nil_r.
    split; [done|]. split; [apply kept_refl|]. do 4 (split; [done|]). split; [|by left]. intros Hr. by rewrite Hr in Er.
  - nc. set (c1 := set_write_event_handler c). set (w1 := put_mc (Some c1) w).
    assert (HW1 : wire w1 c1 d bs ps) by (by split). assert (HK1 : kept w w1 c c1) by (by split).
    destruct (repack_ok epoll_ok s fuel w1 c1 d bs ps HW1) as (rc & w' & Hrun & sb & w2 & c2 & d2 & bs2 & ps2 & HW2 & HK2 & Hs2 & Ht2 & Hsuf & Hto & Hacc & Hend);
      [done|destruct (decide _); lia|].
    exists rc, w'. split; [done|]. exists sb, w2, c2, d2, bs2, ps2. split; [done|]. split; [by eapply kept_trans|].
    do 5 (split; [done|]). destruct Hend as [(? & _)|[(? & _)|[(? & _)|(? & _ & ?)]]]; auto.
Qed.

Lemma write_handler_ok epoll_ok w c d bs ps fuel s :
  wire w c d bs ps -> (length (tx w) < s)%nat -> (length ps + 2 <= fuel)%nat -> w_timedout d = false ->
  exists w', nn_conn_write_handler epoll_ok fuel s w = Some (tt, w') /\ wrote w c d bs ps w'.
Proof.
  intros HW HS HF Hto. pose proof HW as [Hc Hd Hs HA HB HP HR HT]. unfold nn_conn_write_handler. nc. rewrite Hs.
  change (ST_CONNCECTED =? ST_DISCONNCECTED) with false. cbn match. nc. rewrite Hto. nc.
  set (d1 := if w_timer_set d then set_w_timer_set false d else d). set (c1 := set_connection (Some d1) c).
  set (w1 := put_mc (Some c1) w).
  rewrite (ST_bind_eq _ _ w tt w1).
  2: { unfold w1, c1, d1. destruct (w_timer_set d).
       - unfold updc, mbind, ST_bind, gets, upd, puts. rewrite Hc. cbn. rewrite Hd. cbn. by rewrite Hc.
       - cbv [mret ST_ret]. rewrite (set_connection_id c d Hd). destruct w. cbn in Hc. by subst. }
  destruct (wire_flags _ _ _ d1 _ _ HW) as [HW1 HK1]. fold c1 w1 in HW1, HK1.
  destruct (output_ok epoll_ok w1 c1 d1 bs ps fuel s HW1) as (rc & w' & Hrun & sb & w2 & c2 & d2 & bs2 & ps2 & HW2 & HK2 & Hs2 & Ht2 & Hsuf & Hto2 & Hacc & Hend); [done..|].
  rewrite (ST_bind_eq _ _ _ _ _ Hrun). exists w'. split; [done|]. exists sb, w2, c2, d2, bs2, ps2.
  assert (Hd1 : w_timedout d1 = w_timedout d /\ w_ready d1 = w_ready d) by (unfold d1; by destruct (w_timer_set d)).
  destruct Hd1 as [Ht1 Hr1]. rewrite Hr1 in Hacc.
  split; [done|]. split; [by eapply kept_trans|]. do 3 (split; [done|]). split; [congruence|]. done.
Qed.

(** Closing sends nothing more. *)
Definition shut (w : world) : Prop := forall c, mc w = Some c -> state c = ST_DISCONNCECTED.

Lemma finalize_shut w c w' : mc w = Some c -> state c = ST_CONNCECTED -> returnable w (out_task c) ->
  nn_conn_finalize w = Some (tt, w') -> shut w' /\ sent w' = sent w.
Proof.
  intros Hc Hs HR. rewrite (finalize_connected w c Hc Hs HR). intros [= <-]. split.
  - intros c'. cbn [mc put_mc]. destruct (0 <? _); [by intros [= <-]|by intros [=]].
  - cbn [sent put_mc]. by destruct (release_all_rest (out_task c) w) as (_ & _ & -> & _).
Qed.

(** A node handed back by a worker. *)
Lemma answer_ok epoll_ok w c d bs ps q tp fuel s :
  wire w c d bs ps -> answer (tk w) (memory_ w) (out c) q tp -> returnable w (out_task c ++ [q]) ->
  (length (tx w) < s)%nat -> (length ps + 3 <= fuel)%nat ->
  exists w' c1, write_back_pack_task epoll_ok fuel s q w = Some (tt, w') /\
    wrote (put_dispatched (filter (fun x => x <> q) (dispatched w)) (put_mc (Some c1) w)) c1 d bs (ps ++ [tp]) w' /\
    out_task c1 = out_task c ++ [q].
Proof.
  intros [Hc Hd Hs HA HB HP HR HT] Ha HRq HS HF. unfold write_back_pack_task.
  set (w1 := put_dispatched (filter (fun x => x <> q) (dispatched w)) w). rewrite (ST_bind_eq _ _ w tt w1) by done.
  unfold nn_conn_outtask. do 2 nc. rewrite Hs. change (ST_CONNCECTED =? ST_CONNCECTED) with true. cbn [negb]. do 4 nc.
  set (c2 := set_out_task (out_task c ++ [q]) c). set (w2 := put_mc (Some c2) w1).
  assert (HW2 : wire w2 c2 d bs (ps ++ [tp])).
  { split; try done. apply Forall2_app; [done|]. constructor; [done|constructor]. }
  destruct (output_ok epoll_ok w2 c2 d bs (ps ++ [tp]) fuel s HW2) as (rc & w' & Hrun & Hw'); [done|rewrite length_app; cbn; lia|].
  exists w', c2. rewrite (ST_bind_eq _ _ _ _ _ Hrun). done.
Qed.

(** ** Traces

    What happens to a connection, in any order: a worker hands back an answer,
    the socket becomes writable and then behaves like [r], the write timer
    fires, or other threads work on other tasks.  The loops of the handlers get
    as much fuel as there are nodes and system calls. *)

Definition answer_event (epoll_ok : bool) (q : Z) : NC unit := fun w =>
  c ← mc w; write_back_pack_task epoll_ok (length (out_task c) + 3) (S (length (tx w))) q w.

Definition write_event (epoll_ok : bool) (r : list tx_t) : NC unit :=
  updc (set_w_ready true);; set_tx r;;
  o ← get out_task; nn_event_process_handler epoll_ok true 0 0 (length o + 2) (S (length r)).

Definition timeout_event (epoll_ok : bool) : NC unit :=
  updc (fun d => C (r_active d) (r_ready d) (w_active d) (w_ready d) true false);;
  nn_event_process_handler epoll_ok true 0 0 0 0.

(** Other threads do not touch the send buffer nor the nodes that wait in
    [out_task] and their payloads. *)
Definition elsewhere (w w' : world) : Prop :=
  mc w' = mc w /\ sent w' = sent w /\ tx w' = tx w /\
  forall c, mc w = Some c -> returnable w' (out_task c) /\
    (forall i, start (out c) <= i < end_ (out c) -> memory_ w' !! i = memory_ w !! i) /\
    (forall q, q ∈ out_task c -> tk w' !! q = tk w !! q) /\
    (forall q t i, q ∈ out_task c -> tk w !! q = Some t -> data t <= i < data t + data_len t -> memory_ w' !! i = memory_ w !! i).

(** One event; the list is the answer that was handed back. *)
Inductive net_step (epoll_ok : bool) : world -> list (task_t * list Z) -> world -> Prop :=
| net_answer w c q tp w' : mc w = Some c -> answer (tk w) (memory_ w) (out c) q tp -> returnable w (out_task c ++ [q]) ->
    answer_event epoll_ok q w = Some (tt, w') -> net_step epoll_ok w [tp] w'
| net_write w r w' : Forall tx_ok r -> write_event epoll_ok r w = Some (tt, w') -> net_step epoll_ok w [] w'
| net_timeout w w' : timeout_event epoll_ok w = Some (tt, w') -> net_step epoll_ok w [] w'
| net_elsewhere w w' : elsewhere w w' -> net_step epoll_ok w [] w'.

Inductive net_steps (epoll_ok : bool) : world -> list (task_t * list Z) -> world -> Prop :=
| net_refl w : net_steps epoll_ok w [] w
| net_snoc w1 ps w2 qs w3 : net_steps epoll_ok w1 ps w2 -> net_step epoll_ok w2 qs w3 -> net_steps epoll_ok w1 (ps ++ qs) w3.

(** All that was to be sent is [todo]: an open connection has sent a part and
    holds the rest, a closed one has sent a part. *)
Definition conserved (todo : list Z) (w : world) : Prop :=
  (exists c d bs ps, wire w c d bs ps /\ todo = sent w ++ bs ++ stream ps) \/
  (shut w /\ exists rest, todo = sent w ++ rest).

Lemma wrote_conserved w c d bs ps w' : wrote w c d bs ps w' -> conserved (sent w ++ bs ++ stream ps) w'.
Proof.
  intros (sb & w1 & c1 & d1 & bs1 & ps1 & HW & _ & Hs & -> & _ & _ & _ & Hend). rewrite app_assoc, <-Hs. destruct Hend as [->|[Hf _]].
  - left. by exists c1, d1, bs1, ps1.
  - right. destruct (finalize_shut _ _ _ (wi_mc _ _ _ _ _ HW) (wi_state _ _ _ _ _ HW) (wi_returnable _ _ _ _ _ HW) Hf) as [? ->]. eauto.
Qed.

Lemma wire_length w c d bs ps : wire w c d bs ps -> length (out_task c) = length ps.
Proof. intros HW. eapply Forall2_length, wi_answers, HW. Qed.

Lemma wire_elsewhere w c d bs ps w' : wire w c d bs ps -> elsewhere w w' -> wire w' c d bs ps.
Proof.
  intros [Hc Hd Hs HA HB HP HR HT] (Hmc & Hsent & Htx & Hrest). destruct (Hrest c Hc) as (HR' & Hbuf & Htk & Hpay). clear Hrest.
  split; try done; try congruence.
  - clear HR HR' HP. induction HA as [|q tp qs ps Ha HA IH]; constructor.
    + destruct Ha as (Ht & Hw & Hrd & Hap). split; [rewrite Htk by (by left); done|]. split; [done|]. split; [|done].
      rewrite <-Hrd. apply rd_frame. intros i Hi. eapply Hpay; [by left|exact Ht|]. destruct Hw as (_ & -> & _). lia.
    + apply IH; intros; [apply Htk|eapply Hpay]; try done; by right.
  - destruct HB as (OK & HM & HMap). split; [done|]. split; [done|]. intros i Hi. rewrite Hbuf by lia. by apply HMap.
  - unfold pend in *. rewrite <-HP. apply rd_frame. intros i Hi. apply Hbuf. pose proof (buf_size _ _ HB).
    destruct HB as ((? & ? & ? & ?) & _). lia.
Qed.

(** The handlers on an open connection. *)
Lemma answer_event_ok epoll_ok w c d bs ps q tp :
  wire w c d bs ps -> answer (tk w) (memory_ w) (out c) q tp -> returnable w (out_task c ++ [q]) ->
  exists w', answer_event epoll_ok q w = Some (tt, w') /\ conserved (sent w ++ bs ++ stream (ps ++ [tp])) w'.
Proof.
  intros HW Ha HR. unfold answer_event. rewrite (wi_mc _ _ _ _ _ HW). cbn [mbind option_bind].
  destruct (answer_ok epoll_ok w c d bs ps q tp (length (out_task c) + 3) (S (length (tx w))) HW Ha HR) as (w' & c1 & Hrun & Hw & _);
    [lia|rewrite (wire_length _ _ _ _ _ HW); lia|].
  exists w'. split; [done|]. exact (wrote_conserved _ _ _ _ _ _ Hw).
Qed.

Lemma write_event_ok epoll_ok w c d bs ps r :
  wire w c d bs ps -> Forall tx_ok r -> w_timedout d = false ->
  let d1 := set_w_ready true d in let c1 := set_connection (Some d1) c in let w1 := put_tx r (put_mc (Some c1) w) in
  exists w', write_event epoll_ok r w = Some (tt, w') /\
    (if write_event_handler c then wrote w1 c1 d1 bs ps w' else w' = w1) /\ wire w1 c1 d1 bs ps.
Proof.
  intros HW Hr Hto d1 c1 w1. pose proof (wi_mc _ _ _ _ _ HW) as Hc. pose proof (wi_conn _ _ _ _ _ HW) as Hd.
  assert (HW1 : wire w1 c1 d1 bs ps) by (destruct (wire_flags _ _ _ d1 _ _ HW) as [[] _]; by split).
  unfold write_event. nc. nc. change (put_tx _ _) with w1. nc. cbn [nn_event_process_handler]. nc. change (write_event_handler c1) with (write_event_handler c).
  destruct (write_event_handler c); [|by exists w1].
  destruct (write_handler_ok epoll_ok w1 c1 d1 bs ps (length (out_task c1) + 2) (S (length r)) HW1) as (w' & Hrun & Hw); try done;
    [cbn; lia|rewrite (wire_length _ _ _ _ _ HW1); lia|].
  by exists w'.
Qed.

(** A write event after the time-out closes the connection. *)
Lemma write_timedout epoll_ok fuel s w c d bs ps : wire w c d bs ps -> w_timedout d = true ->
  exists w', nn_event_process_handler epoll_ok true 0 0 fuel s w = Some (tt, w') /\ conserved (sent w ++ bs ++ stream ps) w'.
Proof.
  intros HW Hto. pose proof HW as [Hc Hd Hs HA HB HP HR HT]. cbn [nn_event_process_handler]. nc. destruct (write_event_handler c).
  - unfold nn_conn_write_handler. nc. rewrite Hs. change (ST_CONNCECTED =? ST_DISCONNCECTED) with false. cbn match. nc. rewrite Hto.
    destruct (finalize_some w c Hc Hs HR) as [w' Hrun]. exists w'. split; [done|]. right.
    destruct (finalize_shut w c w' Hc Hs HR Hrun) as [? ->]. eauto.
  - exists w. split; [done|]. left. by exists c, d, bs, ps.
Qed.

Lemma write_event_conserved epoll_ok w c d bs ps r : wire w c d bs ps -> Forall tx_ok r ->
  exists w', write_event epoll_ok r w = Some (tt, w') /\ conserved (sent w ++ bs ++ stream ps) w'.
Proof.
  intros HW Hr. destruct (w_timedout d) eqn:Hto.
  - set (d1 := set_w_ready true d). set (c1 := set_connection (Some d1) c). set (w1 := put_tx r (put_mc (Some c1) w)).
    pose proof (wi_mc _ _ _ _ _ HW) as Hc. pose proof (wi_conn _ _ _ _ _ HW) as Hd.
    assert (HW1 : wire w1 c1 d1 bs ps) by (destruct (wire_flags _ _ _ d1 _ _ HW) as [[] _]; by split).
    unfold write_event. do 3 nc. exact (write_timedout epoll_ok _ _ w1 c1 d1 bs ps HW1 Hto).
  - destruct (write_event_ok epoll_ok w c d bs ps r HW Hr Hto) as (w' & Hrun & Hw & HW1). exists w'. split; [done|].
    destruct (write_event_handler c); [exact (wrote_conserved _ _ _ _ _ _ Hw)|]. subst w'. left. by eexists _, _, bs, ps.
Qed.

Lemma timeout_event_conserved epoll_ok w c d bs ps : wire w c d bs ps ->
  exists w', timeout_event epoll_ok w = Some (tt, w') /\ conserved (sent w ++ bs ++ stream ps) w'.
Proof.
  intros HW. pose proof (wi_mc _ _ _ _ _ HW) as Hc. pose proof (wi_conn _ _ _ _ _ HW) as Hd. unfold timeout_event. nc.
  set (d1 := C _ _ _ _ _ _). destruct (wire_flags _ _ _ d1 _ _ HW) as [HW1 _]. exact (write_timedout epoll_ok 0 0 _ _ d1 bs ps HW1 eq_refl).
Qed.

(** The handlers on a closed connection. *)
Lemma write_shut epoll_ok fuel s w w' : shut w -> nn_event_process_handler epoll_ok true 0 0 fuel s w = Some (tt, w') -> w' = w.
Proof.
  intros Hw. cbn [nn_event_process_handler]. destruct (mc w) as [c|] eqn:Hc.
  - nc. destruct (write_event_handler c); [|cbv [mret ST_ret]; congruence].
    unfold nn_conn_write_handler. nc. rewrite (Hw c Hc), Z.eqb_refl. cbv [mret ST_ret]. congruence.
  - unfold mbind, ST_bind, get, gets. by rewrite Hc.
Qed.

Lemma updc_shut f w w' : shut w -> updc f w = Some (tt, w') -> shut w' /\ sent w' = sent w.
Proof.
  intros Hw. unfold updc, mbind, ST_bind, gets, upd, puts, shut in *. destruct (mc w) as [c|] eqn:Hc; [|done]. cbn.
  destruct (connection c); [|done]. cbn. rewrite Hc. cbn. intros [= <-]. split; [|done]. intros c' [= <-]. exact (Hw c eq_refl).
Qed.

Lemma shut_step epoll_ok w ps w' : shut w -> net_step epoll_ok w ps w' -> shut w' /\ sent w' = sent w.
Proof.
  intros Hw Hstep. destruct Hstep as [w c q tp w' Hc Ha HR Hrun|w r w' Hr Hrun|w w' Hrun|w w' (Hmc & Hsent & _)].
  - unfold answer_event in Hrun. rewrite Hc in Hrun. cbn [mbind option_bind] in Hrun.
    destruct HR as (_ & _ & HF). apply Forall_app in HF as [_ HF]. apply Forall_cons in HF as [(t & Ht & Hown) _].
    rewrite (write_back_closed epoll_ok _ _ w c q t Hc (Hw c Hc) Ht Hown) in Hrun. injection Hrun as <-. split.
    + intros c'. cbn [mc put_mc]. destruct (count c =? 1); [by intros [=]|]. intros [= <-]. exact (Hw c Hc).
    + cbn. unfold release. by destruct (owned t).
  - unfold write_event in Hrun. apply ST_bind_inv in Hrun as ([] & w1 & Hu & Hrun). destruct (updc_shut _ _ _ Hw Hu) as [Hw1 Hs1].
    rewrite set_tx_eq in Hrun. apply ST_bind_inv in Hrun as (o & w2 & Hg & Hrun). unfold get, gets in Hg.
    destruct (_ <$> _); [|done]. injection Hg as -> <-. by apply write_shut in Hrun as ->.
  - unfold timeout_event in Hrun. apply ST_bind_inv in Hrun as ([] & w1 & Hu & Hrun). destruct (updc_shut _ _ _ Hw Hu) as [Hw1 Hs1].
    by apply write_shut in Hrun as ->.
  - split; [|done]. intros c. rewrite Hmc. apply Hw.
Qed.

Lemma conserved_step epoll_ok todo w ps w' : conserved todo w -> net_step epoll_ok w ps w' -> conserved (todo ++ stream ps) w'.
Proof.
  intros [(c & d & bs & ps0 & HW & ->)|(Hw & rest & ->)] Hstep.
  - destruct Hstep as [w c' q tp w' Hc Ha HR Hrun|w r w' Hr Hrun|w w' Hrun|w w' He].
    + rewrite (wi_mc _ _ _ _ _ HW) in Hc. injection Hc as <-.
      destruct (answer_event_ok epoll_ok w c d bs ps0 q tp HW Ha HR) as (w2 & Hrun2 & Hcons).
      rewrite Hrun in Hrun2. injection Hrun2 as <-. rewrite stream_app in Hcons. by rewrite <-!app_assoc.
    + destruct (write_event_conserved epoll_ok w c d bs ps0 r HW Hr) as (w2 & Hrun2 & Hcons).
      rewrite Hrun in Hrun2. injection Hrun2 as <-. by rewrite app_nil_r.
    + destruct (timeout_event_conserved epoll_ok w c d bs ps0 HW) as (w2 & Hrun2 & Hcons).
      rewrite Hrun in Hrun2. injection Hrun2 as <-. by rewrite app_nil_r.
    + rewrite app_nil_r. left. exists c, d, bs, ps0. split; [by eapply wire_elsewhere|]. by destruct He as (_ & -> & _).
  - right. destruct (shut_step epoll_ok w ps w' Hw Hstep) as [? ->]. split; [done|]. eexists. by rewrite <-app_assoc.
Qed.

(** The events of a connection run without undefined behaviour. *)
Definition events_run (epoll_ok : bool) (w : world) : Prop :=
  forall c, mc w = Some c ->
  (forall q tp, answer (tk w) (memory_ w) (out c) q tp -> returnable w (out_task c ++ [q]) -> is_Some (answer_event epoll_ok q w)) /\
  (forall r, state c = ST_CONNCECTED -> Forall tx_ok r -> is_Some (write_event epoll_ok r w)) /\
  (state c = ST_CONNCECTED -> is_Some (timeout_event epoll_ok w)).

Lemma conserved_run epoll_ok todo w : conserved todo w -> events_run epoll_ok w.
Proof.
  intros [(c & d & bs & ps & HW & _)|(Hw & _)] c' Hc.
  - pose proof (wi_mc _ _ _ _ _ HW) as Hc0. rewrite Hc0 in Hc. injection Hc as <-. split; [|split].
    + intros q tp Ha HR. destruct (answer_event_ok epoll_ok w c d bs ps q tp HW Ha HR) as (w' & -> & _). eauto.
    + intros r _ Hr. destruct (write_event_conserved epoll_ok w c d bs ps r HW Hr) as (w' & -> & _). eauto.
    + intros _. destruct (timeout_event_conserved epoll_ok w c d bs ps HW) as (w' & -> & _). eauto.
  - specialize (Hw c' Hc). split; [|split; intros; by rewrite Hw in *].
    intros q tp _ (_ & _ & HF). apply Forall_app in HF as [_ HF]. apply Forall_cons in HF as [(t & Ht & Hown) _].
    unfold answer_event. rewrite Hc. cbn [mbind option_bind]. rewrite (write_back_closed epoll_ok _ _ w c' q t Hc Hw Ht Hown). eauto.
Qed.

(** C23. Answers reach the wire whole, in order and once: after any sequence of
    hand-backs by workers, writable events with any behaviour of the socket
    (partial sends, EINTR, EAGAIN, errors), write time-outs and activity of
    other threads, what was sent is a prefix of the encodings of the answers in
    the order of the hand-backs; while the connection is open the rest is in
    the send buffer and the queue of answers; and every next event runs to its
    end without undefined behaviour. *)
Theorem answers_in_order epoll_ok w c d bs ps tps w' :
  wire w c d bs ps -> net_steps epoll_ok w tps w' ->
  conserved (sent w ++ bs ++ stream (ps ++ tps)) w' /\ events_run epoll_ok w'.
Proof.
  intros HW Hsteps. cut (conserved (sent w ++ bs ++ stream (ps ++ tps)) w'); [intros H; eauto using conserved_run|].
  induction Hsteps as [w|w1 ps1 w2 qs w3 _ IH Hstep].
  - rewrite app_nil_r. left. by exists c, d, bs, ps.
  - specialize (IH HW). apply (conserved_step _ _ _ _ _ IH) in Hstep. rewrite !stream_app in *. by rewrite <-!app_assoc in Hstep.
Qed.

(** ** A socket that keeps accepting bytes *)

Fixpoint write_events (epoll_ok : bool) (rs : list (list tx_t)) : NC unit :=
  match rs with
  | [] => mret tt
  | r :: rs' => write_event epoll_ok r;; write_events epoll_ok rs'
  end.

(** A socket that takes at least one byte and does not fail. *)
Definition willing (r : list tx_t) : Prop := Forall tx_ok r /\ accepts r /\ TxErr ∉ r.

Lemma drain_step epoll_ok w c d bs ps r :
  wire w c d bs ps -> w_timedout d = false -> write_event_handler c = true -> willing r ->
  Forall (fun tp => frame_len tp.2 <= cap (out c)) ps ->
  exists w' c' d' sb bs' ps', write_event epoll_ok r w = Some (tt, w') /\ wire w' c' d' bs' ps' /\ w_timedout d' = false /\
    write_event_handler c' = true /\ Forall (fun tp => frame_len tp.2 <= cap (out c')) ps' /\
    sent w' = sent w ++ sb /\ bs ++ stream ps = sb ++ bs' ++ stream ps' /\ (bs ++ stream ps <> [] -> sb <> []).
Proof.
  intros HW Hto Hh (Hr & Hacc & Herr) Hfit. destruct (write_event_ok epoll_ok w c d bs ps r HW Hr Hto) as (w' & Hrun & Hw & _).
  rewrite Hh in Hw. destruct Hw as (sb & w1 & c1 & d1 & bs1 & ps1 & HW1 & HK & Hs & Htodo & [ps0 ->] & Hto1 & Hprog & Hend).
  destruct Hend as [->|[_ ?]]; [|done]. exists w1, c1, d1, sb, bs1, ps1. split; [done|]. split; [done|]. split; [by rewrite Hto1|].
  destruct HK as [_ _ _ _ Hh1 [S1 E1] _ _]. split; [by apply Hh1|]. unfold cap in *. rewrite S1, E1. apply Forall_app in Hfit as [Hf0 Hf1].
  split; [done|]. split; [done|]. split; [done|]. intros Hne. apply Hprog; try done. intros ->.
  destruct (ps0 ++ ps1) as [|tp l] eqn:El; [done|]. cbn. assert (Hin : tp ∈ ps0 ++ ps1) by (rewrite El; by left).
  apply elem_of_app in Hin as [Hin|Hin]; [by eapply Forall_forall in Hf0|by eapply Forall_forall in Hf1].
Qed.

(** C24. Liveness of the send side: when every answer fits in the send buffer
    and the write timer does not fire, as many writable events as there are
    bytes to send, in each of which the socket takes at least one byte and does
    not fail, put every byte of every answer on the wire, in order. *)
Theorem answers_drain epoll_ok w c d bs ps rs :
  wire w c d bs ps -> w_timedout d = false -> write_event_handler c = true ->
  Forall (fun tp => frame_len tp.2 <= cap (out c)) ps -> Forall willing rs -> (length (bs ++ stream ps) <= length rs)%nat ->
  exists w' c' d', write_events epoll_ok rs w = Some (tt, w') /\ wire w' c' d' [] [] /\ sent w' = sent w ++ bs ++ stream ps.
Proof.
  revert w c d bs ps. induction rs as [|r rs IH]; intros w c d bs ps HW Hto Hh Hfit Hrs Hlen.
  - destruct (bs ++ stream ps) eqn:El; [|cbn in Hlen; lia]. apply app_eq_nil in El as [-> El]. apply stream_nil in El as ->.
    exists w, c, d. split; [done|]. split; [done|]. by rewrite app_nil_r.
  - apply Forall_cons in Hrs as [Hr Hrs].
    destruct (drain_step epoll_ok w c d bs ps r HW Hto Hh Hr Hfit) as (w1 & c1 & d1 & sb & bs1 & ps1 & Hrun & HW1 & Hto1 & Hh1 & Hf1 & Hs1 & Htodo & Hne).
    destruct (IH w1 c1 d1 bs1 ps1 HW1 Hto1 Hh1 Hf1 Hrs) as (w' & c' & d' & Hrun' & HW' & Hs').
    { rewrite Htodo in Hlen, Hne. rewrite length_app in Hlen. cbn [length] in Hlen. destruct sb; [|cbn in Hlen; lia].
      destruct (bs1 ++ stream ps1); [cbn; lia|]. by destruct Hne. }
    exists w', c', d'. cbn [write_events]. rewrite (ST_bind_eq _ _ _ _ _ Hrun). split; [done|]. split; [done|].
    by rewrite Hs', Hs1, Htodo, <-app_assoc.
Qed.

(** ** Receiving *)

(** The node [q] holds the task of the frame [tp], whose payload is at [a]. *)
Definition holds_task (k : gmap Z task_t) (a : Z) (q : Z) (tp : task_t * list Z) : Prop :=
  exists o, k !! q = Some (received tp.1 (a - 344) o).

(** The places of the payloads of frames stored from [a] on. *)
Fixpoint payloads (a : Z) (ps : list (task_t * list Z)) : list Z :=
  match ps with [] => [] | tp :: ps' => a + 344 :: payloads (a + frame_len tp.2) ps' end.

Lemma deliver_holds qs : forall k a ps, NoDup qs -> length qs = length ps ->
  Forall3 (fun x q tp => holds_task (deliver k qs a ps) x q tp) (payloads a ps) qs ps.
Proof.
  induction qs as [|q qs IH]; intros k a ps Hnd Hlen; (destruct ps as [|[t p] ps]; [try done; constructor|try done]).
  apply NoDup_cons in Hnd as [Hq Hnd]. cbn [payloads deliver]. constructor; [|apply IH; [done|by injection Hlen]].
  eexists. rewrite deliver_ne by done. rewrite lookup_insert_eq. cbn [fst]. by replace (a + 344 - 344) with a by lia.
Qed.

Lemma payloads_rd m b : forall ps rest, buf m b -> pend m b (stream ps ++ rest) -> Forall wf_frame ps ->
  Forall2 (fun x tp => rd m x (length tp.2) = Some tp.2) (payloads (pos b) ps) ps.
Proof.
  intros ps. revert b. induction ps as [|[t p] ps IH]; intros b rest HB HP Hwf; [constructor|].
  apply Forall_cons in Hwf as [Hw Hwf]. unfold stream in HP. cbn [map concat] in HP. rewrite <-app_assoc in HP.
  destruct (decode_whole _ _ _ _ _ task_clear Hw HB HP) as (_ & HB1 & HP1 & R). cbn [payloads]. constructor; [done|].
  by apply (IH (buffer_pull b (frame_len p)) rest).
Qed.

(** What a read event finds: [ps] are the frames that are complete in what
    fits in the buffer, the nodes [qs] are the first free ones. *)
Record readable (w : world) (c : nn_conn_t) (bs : list Z) (chunks : list (list Z)) (ps : list (task_t * list Z)) (rest : list Z)
    (qs qs' : list Z) : Prop := {
  rb_mc : mc w = Some c;
  rb_state : state c = ST_CONNCECTED;
  rb_buf : buf (memory_ w) (in_ c);
  rb_pend : pend (memory_ w) (in_ c) bs;
  rb_rx : rx w = map Rx chunks;
  rb_chunks : Forall (fun x => x <> []) chunks;
  rb_frames : take (Z.to_nat (cap (in_ c))) (bs ++ concat chunks) = stream ps ++ rest;
  rb_wf : Forall wf_frame ps;
  rb_free : free_task c = qs ++ qs';
  rb_len : length qs = length ps;
  rb_max : count c + Z.of_nat (length ps) <= max_task c;
  rb_nodup : NoDup qs;
  rb_tk : Forall (fun q => is_Some (tk w !! q)) qs;
}.

(** Up to the last complete frame. *)
Lemma read_frames epoll_ok w c bs chunks ps rest qs qs' fuel :
  readable w c bs chunks ps rest qs qs' ->
  exists w1 c1 chunks',
    nn_conn_read_handler epoll_ok (S (length chunks)) (length ps + fuel) w =
      (rc ← nn_conn_decode epoll_ok fuel; if rc =? DFS_ERROR then nn_conn_finalize else mret tt) w1 /\
    mc w1 = Some c1 /\ c1 = set_in (in_ c1) (set_free_task qs' (set_count (count c + Z.of_nat (length ps)) c)) /\
    buf (memory_ w1) (in_ c1) /\ pend (memory_ w1) (in_ c1) rest /\ same_place (memory_ w) (memory_ w1) (in_ c) (in_ c1) /\
    dispatched w1 = dispatched w ++ qs /\ rx w1 = map Rx chunks' /\
    bs ++ concat chunks = stream ps ++ rest ++ concat chunks' /\ (forall q, q ∉ qs -> tk w1 !! q = tk w !! q) /\
    Forall3 (fun x q tp => holds_task (tk w1) x q tp) (payloads (start (in_ c)) ps) qs ps /\
    Forall2 (fun x tp => rd (memory_ w1) x (length tp.2) = Some tp.2) (payloads (start (in_ c)) ps) ps.
Proof.
  intros [Hc Hs HB HP Hrx Hne Hfr Hwf Hfree Hlen Hmax Hnd Htk].
  destruct (conn_recv_ok chunks w c bs (S (length chunks)) Hc HB HP Hrx Hne ltac:(lia)) as
    (rc & m & b & taken & chunks' & Hrun & Hrc & HB1 & HP1 & HK1 & Hcat & Hend & HS1).
  assert (Htaken : bs ++ taken = stream ps ++ rest).
  { rewrite <-Hfr, Hcat, app_assoc. pose proof (pend_length _ _ _ HB1 HP1) as HL. pose proof (buf_size _ _ HB1) as Hsz.
    pose proof HS1 as (S1 & E1 & _). destruct HB1 as ((? & ? & ? & ?) & _). unfold cap in *. destruct Hend as [->|Hend].
    - rewrite app_nil_r. symmetry. apply take_ge. lia.
    - symmetry. rewrite <-Hend, Nat2Z.id. by rewrite take_app_length. }
  set (w0 := received_w (map Rx chunks') m b c w) in *. set (c0 := set_in b c). rewrite Htaken in HP1.
  destruct (decode_steps epoll_ok ps w0 c0 rest qs qs' fuel) as (Hdec & HB2 & HP2); try done.
  exists (dispatched_w qs qs' ps c0 w0), (set_in (buffer_pull b (total ps)) (set_free_task qs' (set_count (count c + Z.of_nat (length ps)) c0))), chunks'.
  split.
  { unfold nn_conn_read_handler. nc. rewrite Hs. change (ST_CONNCECTED =? ST_DISCONNCECTED) with false. cbn match.
    rewrite (ST_bind_eq _ _ _ _ _ Hrun). destruct Hrc as [-> | ->]; cbn [orb Z.eqb Pos.eqb DFS_AGAIN DFS_BUFFER_FULL DFS_CONN_CLOSED DFS_ERROR];
      unfold mbind, ST_bind; by rewrite Hdec. }
  pose proof HS1 as (S1 & _). do 2 (split; [done|]). split; [done|]. split; [done|]. split; [done|]. split; [done|]. split; [done|].
  split; [by rewrite Hcat, app_assoc, Htaken, <-app_assoc|]. split; [intros q Hq; cbn; by rewrite deliver_ne|].
  rewrite <-S1. unfold compact in HK1. rewrite <-HK1. split; [by apply deliver_holds|].
  by apply (payloads_rd m b ps rest).
Qed.

(** A read event that ends with an incomplete frame. *)
Lemma read_again epoll_ok w c bs chunks ps rest qs q qs' t fuel :
  readable w c bs chunks ps rest qs (q :: qs') -> incomplete rest -> count c + Z.of_nat (length ps) < max_task c ->
  q ∉ qs -> tk w !! q = Some t -> owned t = false ->
  exists w' c' chunks', nn_conn_read_handler epoll_ok (S (length chunks)) (length ps + S fuel) w = Some (tt, w') /\
    mc w' = Some c' /\ c' = set_in (in_ c') (set_free_task (qs' ++ [q]) (set_count (count c + Z.of_nat (length ps)) c)) /\
    buf (memory_ w') (in_ c') /\ pend (memory_ w') (in_ c') rest /\ compact (in_ c') /\
    same_place (memory_ w) (memory_ w') (in_ c) (in_ c') /\
    dispatched w' = dispatched w ++ qs /\ rx w' = map Rx chunks' /\
    bs ++ concat chunks = stream ps ++ rest ++ concat chunks' /\
    Forall3 (fun x q tp => holds_task (tk w') x q tp) (payloads (start (in_ c)) ps) qs ps /\
    (rest = [] -> Forall2 (fun x tp => rd (memory_ w') x (length tp.2) = Some tp.2) (payloads (start (in_ c)) ps) ps).
Proof.
  intros HR Hi Hlt Hq Ht Ho. pose proof (rb_state _ _ _ _ _ _ _ _ HR) as Hs.
  destruct (read_frames epoll_ok w c bs chunks ps rest qs (q :: qs') (S fuel) HR) as
    (w1 & c1 & chunks' & -> & Hc1 & E1 & HB1 & HP1 & HS1 & Hdis & Hrx & Hcat & Htk & Hh & Hrd).
  destruct (decode_again epoll_ok w1 c1 rest q qs' t fuel Hc1 HB1 HP1 Hi) as (m & b & Hrun & HB2 & HP2 & HK2 & HS2 & Hm);
    [by rewrite E1|by rewrite E1|by rewrite Htk|done|rewrite E1; cbn; by rewrite Hs|].
  rewrite (ST_bind_eq _ _ _ _ _ Hrun). change (DFS_AGAIN =? DFS_ERROR) with false. cbn match.
  eexists _, _, chunks'. split; [reflexivity|]. split; [reflexivity|]. split; [rewrite E1; reflexivity|].
  do 3 (split; [done|]). split; [by eapply same_place_trans|]. do 4 (split; [done|]). intros Hnil. cbn. by rewrite (Hm Hnil).
Qed.

(** C25. Framing is independent of how the bytes arrive: whatever the chunks in
    which recv returns them, a read event dispatches exactly the tasks of the
    frames that are complete in what was pending and fits in the receive
    buffer, in order, one free node each; the bytes after them stay pending or
    on the socket, none is lost; and when nothing stays pending the payload of
    every dispatched task is in memory where the task says.  What stays pending is
    nothing or at least the four bytes of a length that has not been reached: of one
    to three bytes the decoder would read the length beyond what has arrived.
    There are free nodes for the tasks and one more, and the tasks of the
    connection stay below its limit. *)
Theorem read_dispatches_frames epoll_ok w c bs chunks ps rest qs q qs' t fuel :
  readable w c bs chunks ps rest qs (q :: qs') -> incomplete rest -> count c + Z.of_nat (length ps) < max_task c ->
  q ∉ qs -> tk w !! q = Some t -> owned t = false ->
  exists w' c' chunks', nn_conn_read_handler epoll_ok (S (length chunks)) (length ps + S fuel) w = Some (tt, w') /\
    mc w' = Some c' /\ dispatched w' = dispatched w ++ qs /\
    Forall3 (fun x q tp => holds_task (tk w') x q tp) (payloads (start (in_ c)) ps) qs ps /\
    buf (memory_ w') (in_ c') /\ pend (memory_ w') (in_ c') rest /\ rx w' = map Rx chunks' /\
    bs ++ concat chunks = stream ps ++ rest ++ concat chunks' /\
    free_task c' = qs' ++ [q] /\ count c' = count c + Z.of_nat (length ps) /\
    (rest = [] -> Forall2 (fun x tp => rd (memory_ w') x (length tp.2) = Some tp.2) (payloads (start (in_ c)) ps) ps).
Proof.
  intros HR Hi Hlt Hq Ht Ho.
  destruct (read_again epoll_ok w c bs chunks ps rest qs q qs' t fuel HR Hi Hlt Hq Ht Ho) as
    (w' & c' & ch & Hrun & Hc' & E' & HB & HP & _ & _ & Hdis & Hrx & Hcat & Hh & Hrd).
  exists w', c', ch. do 8 (split; [done|]). split; [by rewrite E'|]. split; [by rewrite E'|done].
Qed.

(** C37. A task that was dispatched loses its payload: [task_decode] leaves
    [data] pointing into the receive buffer, and the read event that
    dispatched the task then moves the incomplete frame that follows to the
    start of the buffer, over the payload that the worker is about to read. *)
Theorem read_overwrites_payload epoll_ok w c bs chunks t p rest q0 q qs' t0 fuel :
  readable w c bs chunks [(t, p)] rest [q0] (q :: qs') -> incomplete rest -> count c + 1 < max_task c ->
  q0 <> q -> tk w !! q = Some t0 -> owned t0 = false -> p <> [] -> (344 + length p <= length rest)%nat ->
  exists w' t', nn_conn_read_handler epoll_ok (S (length chunks)) (1 + S fuel) w = Some (tt, w') /\
    dispatched w' = dispatched w ++ [q0] /\ tk w' !! q0 = Some t' /\ data_len t' = Z.of_nat (length p) /\
    rd (memory_ w') (data t') (length p) = Some (take (length p) (drop 344 rest)).
Proof.
  intros HR Hi Hlt Hq Ht Ho Hp Hlen.
  destruct (read_again epoll_ok w c bs chunks [(t, p)] rest [q0] q qs' t0 fuel HR Hi Hlt) as
    (w' & c' & ch & Hrun & Hc' & E' & HB & HP & HK & (S1 & _) & Hdis & Hrx & Hcat & Hh & _); [set_solver|done..|].
  inversion Hh as [|x y z ? ? ? [o Hho] _ E1 E2 E3]; subst. pose proof (rb_wf _ _ _ _ _ _ _ _ HR) as Hwf.
  apply Forall_cons in Hwf as [(_ & Hdl & _) _]. cbn [fst snd] in *.
  eexists w', _. split; [exact Hrun|]. split; [done|]. split; [exact Hho|].
  assert (Hpos : 0 < data_len t) by (destruct p; [done|cbn in Hdl; lia]).
  unfold received. rewrite (proj2 (Z.ltb_lt _ _) Hpos). split; [done|].
  pose proof (pend_length _ _ _ HB HP) as HL. unfold pend in HP. unfold compact in HK. rewrite HK, S1 in HP.
  replace (Z.to_nat (buffer_size (in_ c'))) with (344 + (length p + (length rest - 344 - length p)))%nat in HP by lia.
  rewrite <-(take_drop 344 rest) in HP. apply rd_split in HP as [_ HP]; [|rewrite length_take; lia].
  rewrite <-(take_drop (length p) (drop 344 rest)) in HP. apply rd_split in HP as [HP _]; [|rewrite length_take, length_drop; lia].
  cbn [data set_opq set_data]. rewrite <-HP. f_equal. lia.
Qed.

(** Back pressure: a read event that runs out of task nodes has dispatched
    one task per free node, in order; every byte after them is still pending
    or on the socket; and the connection is off epoll with its timer armed, so
    that it is read again when the timer fires. *)
Theorem read_backpressure epoll_ok w c d bs chunks ps rest qs qs' fuel :
  readable w c bs chunks ps rest qs qs' -> connection c = Some d -> count c + Z.of_nat (length ps) = max_task c ->
  exists w' c' chunks', nn_conn_read_handler epoll_ok (S (length chunks)) (length ps + S fuel) w = Some (tt, w') /\
    mc w' = Some c' /\ dispatched w' = dispatched w ++ qs /\
    Forall3 (fun x q tp => holds_task (tk w') x q tp) (payloads (start (in_ c)) ps) qs ps /\
    Forall2 (fun x tp => rd (memory_ w') x (length tp.2) = Some tp.2) (payloads (start (in_ c)) ps) ps /\
    pend (memory_ w') (in_ c') rest /\ bs ++ concat chunks = stream ps ++ rest ++ concat chunks' /\ rx w' = map Rx chunks' /\
    ev_timer c' = true /\ count c' = max_task c' /\ (epoll_ok = true -> r_active <$> connection c' = Some false).
Proof.
  intros HR Hd Hmax.
  destruct (read_frames epoll_ok w c bs chunks ps rest qs qs' (S fuel) HR) as
    (w1 & c1 & chunks' & -> & Hc1 & E1 & HB1 & HP1 & HS1 & Hdis & Hrx & Hcat & Htk & Hh & Hrd).
  assert (Hd1 : connection c1 = Some d) by (by rewrite E1). assert (Hmx : count c1 = max_task c1) by (by rewrite E1).
  rewrite (ST_bind_eq _ _ _ _ _ (decode_busy epoll_ok w1 c1 d fuel Hc1 ltac:(lia) Hd1)).
  change (DFS_BUSY =? DFS_ERROR) with false. cbn match. eexists _, _, chunks'. split; [reflexivity|]. split; [reflexivity|].
  do 6 (split; [done|]). split; [done|]. split; [done|]. by intros ->.
Qed.

(** ** The end of a connection *)

(** The connection is closed, then the nodes [qs] come back. *)
Definition close_then_return (epoll_ok : bool) (fuel s : nat) (qs : list Z) : NC unit :=
  nn_conn_finalize;; write_back_pack_queue epoll_ok fuel s qs.

Lemma returnable_app w qs1 qs2 : returnable w (qs1 ++ qs2) -> returnable (release_all qs1 w) qs2.
Proof.
  revert w. induction qs1 as [|q qs1 IH]; intros w HR; [done|]. cbn [release_all]. apply IH.
  pose proof HR as (_ & _ & HF). cbn in HF. apply Forall_cons in HF as [(t & Ht & _) _]. rewrite Ht. by apply returnable_release.
Qed.

Lemma returnable_take w qs k : returnable w qs -> returnable w (take k qs).
Proof.
  rewrite <-(take_drop k qs) at 1. intros (H1 & H2 & H3). apply NoDup_app in H1 as (H1 & _).
  unfold blocks in H2. rewrite omap_app in H2. apply NoDup_app in H2 as (H2 & _). apply Forall_app in H3 as [H3 _]. done.
Qed.

(** C26. The pool of a connection outlives every task of it that a worker still
    has: when the connection is closed with the nodes [qs] at the workers, in
    whatever order these come back, every hand-back is defined, the pool is
    there until the last one, and it is destroyed with the last one. *)
Theorem pool_outlives_tasks epoll_ok fuel s w c qs k :
  mc w = Some c -> state c = ST_CONNCECTED -> returnable w (out_task c ++ qs) ->
  count c = Z.of_nat (length (out_task c) + length qs) -> (k <= length qs)%nat ->
  exists w', close_then_return epoll_ok fuel s (take k qs) w = Some (tt, w') /\
    (mc w' = None <-> k = length qs).
Proof.
  intros Hc Hs HR Hcount Hk. assert (HR0 : returnable w (out_task c)).
  { rewrite <-(take_app_length (out_task c) qs). by apply returnable_take. }
  unfold close_then_return. rewrite (ST_bind_eq _ _ _ _ _ (finalize_connected w c Hc Hs HR0)).
  assert (Hcl : count (closed c) = Z.of_nat (length qs)) by (cbn; lia). rewrite Hcl. destruct (Z.ltb_spec 0 (Z.of_nat (length qs))) as [H0|H0].
  - destruct (drain_ok epoll_ok fuel s (take k qs) (put_mc (Some (closed c)) (release_all (out_task c) w)) (closed c)) as (w' & Hrun & Hnone & _);
      try done; [rewrite Hcl, length_take; lia|lia| |].
    { apply returnable_take. by apply (returnable_app w). }
    exists w'. split; [done|]. rewrite Hnone, Hcl, length_take. lia.
  - assert (qs = []) as -> by (destruct qs; [done|cbn in H0; lia]). rewrite take_nil. eexists. split; [done|]. cbn in *. split; [lia|done].
Qed.

(** ** A connection to run the theorems on: three nodes; one answer in node 7. *)

Definition ex_answer : task_t * list Z := (set_data (sample_task 2) 2000, [0; 0]).
Definition ex_conn (in_bytes : Z) (o : list Z) (n : Z) : nn_conn_t :=
  Mc (Some (C true true false true false false)) (Buf 0 in_bytes 0 0 0 800 true true false)
    (Buf 1000 1000 0 0 1000 1800 true true false) o [1; 2] true n false false 3 ST_CONNCECTED.
Definition ex_world (c : nn_conn_t) (r : list (list Z)) : world :=
  Wd (Some c) (zero_mem 2100) {[1 := task_clear; 2 := task_clear; 7 := ex_answer.1]} [2000] (map Rx r) [] [] [].

Lemma ex_wire : wire (ex_world (ex_conn 0 [7] 1) []) (ex_conn 0 [7] 1) (C true true false true false false) [] [ex_answer].
Proof.
  split; try done.
  - constructor; [|constructor]. split; [done|]. split; [by_decide|]. split; [vm_compute; reflexivity|]. left. vm_compute. congruence.
  - split; [by_decide|]. split; [done|]. by_decide.
  - split; [by_decide|]. split; [by_decide|]. constructor; [|constructor]. eexists. split; [done|]. intros _. by left.
Qed.

Lemma answers_in_order_witness :
  let w := ex_world (ex_conn 0 [7] 1) [] in
  exists w', conserved (sent w ++ [] ++ stream ([ex_answer] ++ [] ++ [])) w' /\ events_run true w'.
Proof.
  intros w. destruct (write_event_conserved true w _ _ _ _ [Tx 100; TxAgain] ex_wire) as (w' & E & _).
  { constructor; [vm_compute; congruence|]. by constructor. }
  exists w'. apply (answers_in_order true w (ex_conn 0 [7] 1) (C true true false true false false) [] [ex_answer]); [apply ex_wire|].
  eapply net_snoc; [apply net_refl|]. eapply (net_write true w [Tx 100; TxAgain]); [|exact E].
  constructor; [vm_compute; congruence|]. by constructor.
Defined.

Lemma answers_drain_witness :
  let w := ex_world (ex_conn 0 [7] 1) [] in
  exists w' c' d', write_events true (replicate 346 [Tx 1]) w = Some (tt, w') /\ wire w' c' d' [] [] /\
    sent w' = [] ++ [] ++ stream [ex_answer].
Proof.
  intros w. apply (answers_drain true w (ex_conn 0 [7] 1) (C true true false true false false) [] [ex_answer]); try done; [apply ex_wire|..].
  - constructor; [vm_compute; congruence|constructor].
  - apply Forall_forall. intros r Hr. apply elem_of_replicate in Hr as [-> _].
    split; [constructor; [vm_compute; congruence|constructor]|]. split; [done|].
    apply not_elem_of_cons. split; [done|apply not_elem_of_nil].
Defined.

Lemma ex_readable r rest :
  take 800 (concat r) = stream [(sample_task 2, [0; 0])] ++ rest -> Forall (fun x => x <> []) r ->
  readable (ex_world (ex_conn 0 [] 0) r) (ex_conn 0 [] 0) [] r [(sample_task 2, [0; 0])] rest [1] [2].
Proof.
  intros Hr Hne. split; try done; [|by_decide..]. split; [by_decide|]. split; [done|]. by_decide.
Qed.

Lemma read_dispatches_frames_witness :
  let bs := stream [(sample_task 2, [0; 0])] in
  let w := ex_world (ex_conn 0 [] 0) [take 3 bs; drop 3 bs] in
  exists w' c' chunks', nn_conn_read_handler true 3 2 w = Some (tt, w') /\
    mc w' = Some c' /\ dispatched w' = [] ++ [1] /\
    Forall3 (fun x q tp => holds_task (tk w') x q tp) (payloads 0 [(sample_task 2, [0; 0])]) [1] [(sample_task 2, [0; 0])] /\
    buf (memory_ w') (in_ c') /\ pend (memory_ w') (in_ c') [] /\ rx w' = map Rx chunks' /\
    [] ++ concat [take 3 bs; drop 3 bs] = stream [(sample_task 2, [0; 0])] ++ [] ++ concat chunks' /\
    free_task c' = [] ++ [2] /\ count c' = 0 + 1 /\
    ([] = ([] : list Z) -> Forall2 (fun x tp => rd (memory_ w') x (length tp.2) = Some tp.2)
      (payloads 0 [(sample_task 2, [0; 0])]) [(sample_task 2, [0; 0])]).
Proof.
  intros bs w. apply (read_dispatches_frames true w (ex_conn 0 [] 0) [] [take 3 bs; drop 3 bs] [(sample_task 2, [0; 0])] [] [1] 2 [] task_clear 0);
    try done; [|by left|by_decide].
  apply ex_readable; by_decide.
Defined.

Lemma read_overwrites_payload_witness :
  let bs := stream [(sample_task 2, [0; 0])] in
  let rest := le_enc 4 500 ++ replicate 345 9 in
  let w := ex_world (ex_conn 0 [] 0) [bs ++ rest] in
  exists w' t', nn_conn_read_handler true 2 2 w = Some (tt, w') /\
    dispatched w' = [] ++ [1] /\ tk w' !! 1 = Some t' /\ data_len t' = 2 /\ rd (memory_ w') (data t') 2 = Some [9; 9].
Proof.
  intros bs rest w. apply (read_overwrites_payload true w (ex_conn 0 [] 0) [] [bs ++ rest] (sample_task 2) [0; 0] rest 1 2 [] task_clear 0);
    try done; [| |by_decide].
  - apply ex_readable; by_decide.
  - right. exists 500. by_decide.
Defined.

Lemma read_backpressure_witness :
  let bs := stream [(sample_task 2, [0; 0])] in
  let c := ex_conn 0 [] 2 in
  let w := ex_world c [bs ++ bs] in
  exists w' c' chunks', nn_conn_read_handler true 2 2 w = Some (tt, w') /\
    mc w' = Some c' /\ dispatched w' = [] ++ [1] /\
    Forall3 (fun x q tp => holds_task (tk w') x q tp) (payloads 0 [(sample_task 2, [0; 0])]) [1] [(sample_task 2, [0; 0])] /\
    Forall2 (fun x tp => rd (memory_ w') x (length tp.2) = Some tp.2) (payloads 0 [(sample_task 2, [0; 0])]) [(sample_task 2, [0; 0])] /\
    pend (memory_ w') (in_ c') bs /\ [] ++ concat [bs ++ bs] = bs ++ bs ++ concat chunks' /\ rx w' = map Rx chunks' /\
    ev_timer c' = true /\ count c' = max_task c' /\ (true = true -> r_active <$> connection c' = Some false).
Proof.
  intros bs c w. apply (read_backpressure true w c (C true true false true false false) [] [bs ++ bs] [(sample_task 2, [0; 0])] bs [1] [2] 0); try done.
  split; try done; [|by_decide..].
  split; [by_decide|]. split; [done|]. by_decide.
Defined.

Lemma pool_outlives_tasks_witness :
  exists w', close_then_return true 0 0 (take 1 [5])
      (put_tk {[5 := task_clear; 7 := ex_answer.1]} (ex_world (ex_conn 0 [7] 2) [])) = Some (tt, w') /\
    (mc w' = None <-> 1%nat = length [5]).
Proof.
  apply (pool_outlives_tasks true 0 0 _ (ex_conn 0 [7] 2) [5] 1); try done.
  split; [by_decide|]. split; [by_decide|]. constructor; [|constructor; [|constructor]]; (eexists; split; [done|]); [intros _; by left|by intros ?].
Defined.

End NnConnProps.
