(* ===== verification/Stdio.v ===== *)
(** * Decimal numbers of the C library: [sprintf] with [%ld] and [%d], [atol]

    Numbers are printed in decimal without leading zeros, with a minus sign
    when negative; [atol] reads an optional sign and digits up to the first
    byte that is not a digit, and saturates at the width of [long]. *)

From Stdlib Require Import ZArith Lia Bool.
From stdpp Require Import base numbers list option.
From S2P Require Import Prelude Libc.

Module Stdio.

(** The decimal digits of [n], at most [fuel] of them. *)
Fixpoint digits (fuel : nat) (n : Z) : list Z :=
  match fuel with
  | O => []
  | S fuel' => if n <? 10 then [48 + n] else digits fuel' (n / 10) ++ [48 + n mod 10]
  end.

(** A [long] has 19 digits at most. *)
Definition fmt_ld (z : Z) : list Z := if z <? 0 then 45 :: digits 19 (- z) else digits 19 z.

Definition isdigit (c : Z) : bool := (48 <=? c) && (c <=? 57).

(** The value of the digits at the head. *)
Fixpoint scan_digits (s : list Z) (v : Z) : Z :=
  match s with
  | c :: s' => if isdigit c then scan_digits s' (10 * v + (c - 48)) else v
  | [] => v
  end.

Definition isspace (c : Z) : bool := (c =? 32) || (9 <=? c) && (c <=? 13).

Fixpoint skip_space (s : list Z) : list Z :=
  match s with
  | c :: s' => if isspace c then skip_space s' else s
  | [] => []
  end.

Definition LONG_MAX : Z := 2 ^ 63 - 1.
Definition LONG_MIN : Z := - 2 ^ 63.

Definition atol (s : list Z) : Z :=
  match skip_space s with
  | 45 :: s' => Z.max LONG_MIN (- scan_digits s' 0)
  | 43 :: s' => Z.min LONG_MAX (scan_digits s' 0)
  | s' => Z.min LONG_MAX (scan_digits s' 0)
  end.

(** ** Reading back what was printed *)

Definition no_digit (s : list Z) : Prop := match s with c :: _ => isdigit c = false | [] => True end.

Lemma scan_no_digit s v : no_digit s -> scan_digits s v = v.
Proof. destruct s as [|c s]; [done|]. cbn. by intros ->. Qed.

Lemma digit_step n rest v : 0 <= n < 10 -> scan_digits (48 + n :: rest) v = scan_digits rest (10 * v + n).
Proof.
  intros Hn. cbn [scan_digits]. unfold isdigit. rewrite (proj2 (Z.leb_le 48 _)), (proj2 (Z.leb_le _ 57)) by lia. cbn. f_equal. lia.
Qed.

Lemma scan_digits_digits fuel : forall n rest, 0 <= n < 10 ^ Z.of_nat fuel ->
  scan_digits (digits fuel n ++ rest) 0 = scan_digits rest n.
Proof.
  induction fuel as [|fuel IH]; intros n rest Hn.
  - cbn [digits app]. change (10 ^ Z.of_nat 0) with 1 in Hn. by replace n with 0 by lia.
  - rewrite Nat2Z.inj_succ, Z.pow_succ_r in Hn by lia. cbn [digits]. destruct (Z.ltb_spec n 10) as [H|H].
    + cbn [app]. rewrite digit_step by lia. f_equal.
    + rewrite <-app_assoc, IH by (split; [apply Z.div_pos; lia|apply Z.div_lt_upper_bound; lia]). cbn [app].
      pose proof (Z.mod_pos_bound n 10). rewrite digit_step by lia. f_equal. pose proof (Z.div_mod n 10). lia.
Qed.

Lemma digits_isdigit fuel : forall n, 0 <= n -> Forall (fun c => isdigit c = true) (digits fuel n).
Proof.
  induction fuel as [|fuel IH]; intros n Hn; [constructor|]. cbn [digits].
  assert (Hd : forall d, 0 <= d < 10 -> isdigit (48 + d) = true) by (intros d Hd; unfold isdigit; apply andb_true_iff; split; apply Z.leb_le; lia).
  destruct (Z.ltb_spec n 10).
  - constructor; [apply Hd; lia|constructor].
  - apply Forall_app. split; [apply IH, Z.div_pos; lia|]. constructor; [apply Hd, Z.mod_pos_bound; lia|constructor].
Qed.

Lemma digits_length fuel : forall n k, 0 <= n < 10 ^ Z.of_nat fuel -> (0 < k <= fuel)%nat ->
  (length (digits fuel n) <= k)%nat <-> n < 10 ^ Z.of_nat k.
Proof.
  induction fuel as [|fuel IH]; intros n k Hn Hk; [lia|].
  rewrite Nat2Z.inj_succ, Z.pow_succ_r in Hn by lia. destruct k as [|k]; [lia|]. rewrite Nat2Z.inj_succ, Z.pow_succ_r by lia.
  assert (0 < 10 ^ Z.of_nat k) by (apply Z.pow_pos_nonneg; lia).
  cbn [digits]. destruct (Z.ltb_spec n 10) as [H1|H1]; [cbn; lia|]. rewrite length_app. cbn [length]. destruct k as [|k].
  - change (10 ^ Z.of_nat 0) with 1 in *. split; [|lia]. intros Hl. destruct fuel as [|fuel]; [change (10 ^ Z.of_nat 0) with 1 in Hn; lia|].
    cbn [digits] in Hl. destruct (n / 10 <? 10); [cbn in Hl; lia|]. rewrite length_app in Hl. cbn in Hl. lia.
  - specialize (IH (n / 10) (S k) ltac:(split; [apply Z.div_pos; lia|apply Z.div_lt_upper_bound; lia]) ltac:(lia)).
    assert (E : (length (digits fuel (n / 10)) + 1 <= S (S k))%nat <-> (length (digits fuel (n / 10)) <= S k)%nat) by lia.
    rewrite E, IH. split; intros Hlt; [|apply Z.div_lt_upper_bound; lia].
    assert (n < 10 * (n / 10 + 1)) by (pose proof (Z.mod_pos_bound n 10); pose proof (Z.div_mod n 10); lia). lia.
Qed.

Lemma digits_cons fuel n : (0 < fuel)%nat -> 0 <= n -> exists d l, digits fuel n = d :: l /\ isdigit d = true.
Proof.
  intros Hf Hn. pose proof (digits_isdigit fuel n Hn) as HF. destruct (digits fuel n) as [|d l] eqn:E.
  - destruct fuel; [lia|]. cbn [digits] in E. destruct (n <? 10); [done|]. by destruct (digits fuel (n / 10)).
  - exists d, l. split; [done|]. by inversion HF.
Qed.

Lemma fmt_ld_nonneg z : 0 <= z -> fmt_ld z = digits 19 z.
Proof. intros H. unfold fmt_ld. by rewrite (proj2 (Z.ltb_ge _ _)). Qed.

(** Printing then reading a number. *)
Lemma atol_fmt_ld z rest : 0 <= z < 2 ^ 63 -> no_digit rest -> atol (fmt_ld z ++ rest) = z.
Proof.
  intros Hz Hr. rewrite fmt_ld_nonneg by lia. destruct (digits_cons 19 z) as (d & l & E & Hd); [lia..|].
  unfold atol. rewrite E. cbn [app skip_space].
  assert (Hs : isspace d = false /\ d <> 45 /\ d <> 43) by (unfold isspace, isdigit in *; lia). destruct Hs as (-> & N1 & N2).
  transitivity (Z.min LONG_MAX (scan_digits (d :: l ++ rest) 0)).
  - destruct d as [|p|p]; [done| |done]. by do 7 (try destruct p as [p|p|]).
  - change (d :: l ++ rest) with ((d :: l) ++ rest). rewrite <-E, scan_digits_digits by (change (10 ^ Z.of_nat 19) with (10 ^ 19); lia).
    rewrite scan_no_digit by done. unfold LONG_MAX. lia.
Qed.

Lemma fmt_ld_inj z1 z2 : 0 <= z1 < 2 ^ 63 -> 0 <= z2 < 2 ^ 63 -> fmt_ld z1 = fmt_ld z2 -> z1 = z2.
Proof.
  intros H1 H2 E. rewrite <-(atol_fmt_ld z1 [] H1 I), <-(atol_fmt_ld z2 [] H2 I). by rewrite E.
Qed.

Lemma fmt_ld_digits z : 0 <= z -> Forall (fun c => isdigit c = true) (fmt_ld z).
Proof. intros H. rewrite fmt_ld_nonneg by done. by apply digits_isdigit. Qed.

Lemma fmt_ld_length z k : 0 <= z < 2 ^ 63 -> (0 < k <= 19)%nat -> (length (fmt_ld z) <= k)%nat <-> z < 10 ^ Z.of_nat k.
Proof. intros Hz Hk. rewrite fmt_ld_nonneg by lia. apply digits_length; [change (10 ^ Z.of_nat 19) with (10 ^ 19); lia|done]. Qed.

End Stdio.
