(* ===== verification/Posix.v ===== *)
(** * Files and directories

    What the datanode uses of the file system: a finite map from resolved
    paths to directories and regular files, with the calls [access], [mkdir],
    [open] with [O_CREAT | O_TRUNC], [write] and [read] of a small file,
    [rename], [unlink] and [stat].  A path is resolved to its components; the
    components of a relative path come after ["."], the working directory.
    Calls fail when the file system says so: a missing parent, a directory in
    place of a file, an entry that exists.  Which entries a directory has, in
    which order, is a parameter of the code that lists them. *)

From Stdlib Require Import ZArith Lia Bool.
From stdpp Require Import base numbers gmap option list.
From S2P Require Import Prelude Libc.

Module Posix.

Definition SLASH : Z := 47.
Notation name := (list Z).

Inductive inode := Dir | File (content : list Z).

#[global] Instance inode_eq_dec : EqDecision inode.
Proof. solve_decision. Defined.

Notation fs := (gmap (list name) inode).

Definition resolve (s : list Z) : list name :=
  (match s with 47 :: _ => [] | _ => [[46]] end) ++ Libc.strtok_tokens SLASH s.

Definition is_dir (f : fs) (p : list name) : bool :=
  match p with
  | [] => true
  | [n] => bool_decide (n = [46]) || bool_decide (f !! p = Some Dir)
  | _ => bool_decide (f !! p = Some Dir)
  end.

Definition parent (p : list name) : list name := removelast p.

(** [access(path, F_OK)] succeeds. *)
Definition access (f : fs) (s : list Z) : bool := bool_decide (is_Some (f !! resolve s)).

Definition mkdir (f : fs) (s : list Z) : option fs :=
  let p := resolve s in
  if negb (bool_decide (is_Some (f !! p))) && is_dir f (parent p) then Some (<[p := Dir]> f) else None.

(** [open] with [O_CREAT | O_TRUNC]. *)
Definition creat (f : fs) (s : list Z) : option fs :=
  let p := resolve s in
  if negb (bool_decide (f !! p = Some Dir)) && is_dir f (parent p) then Some (<[p := File []]> f) else None.

(** [write] to a file just created. *)
Definition write (f : fs) (s content : list Z) : fs := <[resolve s := File content]> f.

(** [open] with [O_RDONLY] and [read] of at most [n] bytes. *)
Definition get_file (f : fs) (s : list Z) (n : nat) : option (list Z) :=
  match f !! resolve s with Some (File c) => Some (take n c) | _ => None end.

(** [rename] of a regular file. *)
Definition rename (f : fs) (old new : list Z) : option fs :=
  match f !! resolve old with
  | Some (File c) =>
      let p := resolve new in
      if negb (bool_decide (f !! p = Some Dir)) && is_dir f (parent p)
      then Some (<[p := File c]> (delete (resolve old) f)) else None
  | _ => None
  end.

Definition unlink (f : fs) (s : list Z) : option fs :=
  match f !! resolve s with Some (File _) => Some (delete (resolve s) f) | _ => None end.

Definition stat_size (f : fs) (s : list Z) : option Z :=
  match f !! resolve s with Some (File c) => Some (Z.of_nat (length c)) | _ => None end.

(** ** Lemmas *)

(** A component: not empty and without a slash. *)
Definition comp (n : name) : Prop := n <> [] /\ Forall (fun c => c <> SLASH) n.

Lemma tokens_app s w cur : Libc.tokens_from SLASH (s ++ SLASH :: w) cur = Libc.tokens_from SLASH s cur ++ Libc.tokens_from SLASH w [].
Proof.
  revert cur. induction s as [|c s IH]; intros cur.
  - cbn [app Libc.tokens_from]. rewrite Z.eqb_refl. by destruct cur.
  - cbn [app Libc.tokens_from]. destruct (c =? SLASH); [destruct cur; by rewrite IH|]. apply IH.
Qed.

Lemma tokens_comp n cur : Forall (fun c => c <> SLASH) n -> n ++ cur <> [] -> Libc.tokens_from SLASH n cur = [cur ++ n].
Proof.
  revert cur. induction n as [|c n IH]; intros cur Hn Hne; cbn [Libc.tokens_from].
  - rewrite app_nil_r. by destruct cur.
  - apply list.Forall_cons in Hn as [Hc Hn]. rewrite (proj2 (Z.eqb_neq _ _) Hc). rewrite IH; [by rewrite <-app_assoc|done|].
    by destruct n; destruct cur.
Qed.

Lemma resolve_app s n : s <> [] -> comp n -> resolve (s ++ SLASH :: n) = resolve s ++ [n].
Proof.
  intros Hs [Hn Hf]. unfold resolve, Libc.strtok_tokens. rewrite tokens_app, (tokens_comp n []) by (rewrite ?app_nil_r; done).
  rewrite app_assoc. f_equal. f_equal. by destruct s.
Qed.

Lemma parent_app p n : parent (p ++ [n]) = p.
Proof. unfold parent. by rewrite removelast_last. Qed.

End Posix.
