(* ===== verification/DnStorage.v ===== *)
(** * Block storage of the datanode: src/datanode/dn_data_storage.c

    A datanode keeps each block in a file below one of its storage
    directories: [current/NS-<namespace>/blocksBeingWritten/blk_<id>] while it
    is written, [current/NS-<namespace>/current/subdir<i>/subdir<j>/blk_<id>]
    afterwards.  A cache maps block identifiers to the paths and sizes; it is
    filled when a block is complete and, after a start, by a scan of the
    directories.  Blocks are queued for the reports to the namenode
    (dn_ns_service.c), linked through the cache objects themselves. *)

From Stdlib Require Import ZArith Lia Bool String.
From stdpp Require Import base numbers gmap option list.
From S2P Require Import Prelude Libc CString Mem Hashtable Cache Stdio Posix NnTypes.

Module DnStorage.
Import NnTypes Cache Stdio Posix.

Definition PATH_LEN : nat := 256.
Definition SUBDIR_LEN : Z := 64.
Definition DFS_FALSE : Z := 0.
Definition DFS_TRUE : Z := 1.

(** ** Data *)

Record storage_dir_t := Sd { sd_id : Z; current : list Z }.

Record block_info_t := Bi { b_id : Z; b_size : Z; b_path : list Z }.

Definition uint64_cmp (s1 s2 : list Z) (_ : nat) : Z :=
  if Mem.le_dec (take 8 s1) =? Mem.le_dec (take 8 s2) then DFS_FALSE else DFS_TRUE.

Definition req_hash (data : list Z) (_ : nat) (hashtable_size : Z) : option Z :=
  Some (Mem.le_dec (take 8 data) mod hashtable_size).

#[export] Instance block_keyed : Keyed block_info_t := {|
  c_key k := Mem.le_enc 8 (b_id k); c_len _ := 8%nat; c_cmp := uint64_cmp; c_hash := req_hash |}.

(** A queue of blocks to report, and its length as the code counts it. *)
Record blk_report_t := Rep { que : list Z; num : Z }.

Record dn := Dn {
  g_storage_dir_q : list storage_dir_t; g_storage_dir_n : Z; g_last_version : list Z;
  g_dn_bcm : cache block_info_t; files : fs;
  g_recv_blk_report : blk_report_t; g_blk_report : blk_report_t
}.

Definition set_storage (s : dn) (q : list storage_dir_t) (n : Z) : dn :=
  Dn q n (g_last_version s) (g_dn_bcm s) (files s) (g_recv_blk_report s) (g_blk_report s).
Definition set_version (s : dn) (v : list Z) : dn :=
  Dn (g_storage_dir_q s) (g_storage_dir_n s) v (g_dn_bcm s) (files s) (g_recv_blk_report s) (g_blk_report s).
Definition set_bcm (s : dn) (c : cache block_info_t) : dn :=
  Dn (g_storage_dir_q s) (g_storage_dir_n s) (g_last_version s) c (files s) (g_recv_blk_report s) (g_blk_report s).
Definition set_files (s : dn) (f : fs) : dn :=
  Dn (g_storage_dir_q s) (g_storage_dir_n s) (g_last_version s) (g_dn_bcm s) f (g_recv_blk_report s) (g_blk_report s).
Definition set_recv (s : dn) (r : blk_report_t) : dn :=
  Dn (g_storage_dir_q s) (g_storage_dir_n s) (g_last_version s) (g_dn_bcm s) (files s) r (g_blk_report s).
Definition set_report (s : dn) (r : blk_report_t) : dn :=
  Dn (g_storage_dir_q s) (g_storage_dir_n s) (g_last_version s) (g_dn_bcm s) (files s) (g_recv_blk_report s) r.

(** The fields of a request that matter here; [r_cap] is the size of the block
    of memory that [path] points to. *)
Record dn_request_t := Req { block_id : Z; namespace_id : Z; r_len : Z; r_path : list Z; r_cap : nat }.

(** [sprintf] or [strcpy] of [s] to an array of [cap] bytes. *)
Definition sprintf (cap : nat) (s : list Z) : option (list Z) := if (length s <? cap)%nat then Some s else None.

(** ** Start *)

(** [string_xxsprintf] does not write the final NUL: what the array held past
    the end of the new string stays. *)
Definition xxsprintf (cap : nat) (old s : list Z) : option (list Z) :=
  if (length s <=? cap)%nat then sprintf cap (s ++ drop (length s) old) else None.

Fixpoint storage_dirs_loop (tokens : list (list Z)) (i : Z) (dir : list Z) (s : dn) : option dn :=
  match tokens with
  | [] => Some s
  | token :: tokens' =>
      dir ← xxsprintf PATH_LEN dir (token ++ lit "/current");
      storage_dirs_loop tokens' (i + 1) dir (set_storage s (g_storage_dir_q s ++ [Sd i dir]) (g_storage_dir_n s + 1))
  end.

Definition init_storage_dirs (data_dir : list Z) (s : dn) : option dn :=
  storage_dirs_loop (Libc.strtok_tokens 44 data_dir) 0 [] s.

Fixpoint create_dirs_loop (q : list storage_dir_t) (s : dn) : Z * dn :=
  match q with
  | [] => (DFS_OK, s)
  | sd :: q' =>
      if access (files s) (current sd) then create_dirs_loop q' s else
      match mkdir (files s) (current sd) with
      | Some f => create_dirs_loop q' (set_files s f)
      | None => (DFS_ERROR, s)
      end
  end.

Definition create_storage_dirs (s : dn) : Z * dn := create_dirs_loop (g_storage_dir_q s) s.

(** [for (j = 0; ...; j++)] of the subdirectories of [subDir], from [j]. *)
Fixpoint subsubdirs_loop (fuel : nat) (j : Z) (subDir : list Z) (f : fs) : option (Z * fs) :=
  match fuel with
  | O => Some (DFS_OK, f)
  | S fuel' =>
      ssubDir ← sprintf PATH_LEN (subDir ++ lit "/subdir" ++ fmt_ld j);
      match mkdir f ssubDir with
      | Some f => subsubdirs_loop fuel' (j + 1) subDir f
      | None => Some (DFS_ERROR, f)
      end
  end.

Fixpoint subdirs_loop (fuel : nat) (i : Z) (path : list Z) (f : fs) : option (Z * fs) :=
  match fuel with
  | O => Some (DFS_OK, f)
  | S fuel' =>
      subDir ← sprintf PATH_LEN (path ++ lit "/subdir" ++ fmt_ld i);
      if access f subDir then subdirs_loop fuel' (i + 1) path f else
      match mkdir f subDir with
      | None => Some (DFS_ERROR, f)
      | Some f =>
          '(rc, f) ← subsubdirs_loop (Z.to_nat SUBDIR_LEN) 0 subDir f;
          if rc =? DFS_OK then subdirs_loop fuel' (i + 1) path f else Some (DFS_ERROR, f)
      end
  end.

Definition create_storage_subdirs (path : list Z) (f : fs) : option (Z * fs) :=
  subdirs_loop (Z.to_nat SUBDIR_LEN) 0 path f.

(** What [sscanf] with [%*[^=]=] skips: everything up to the first equals
    sign, which must come after at least one byte. *)
Fixpoint after_equals (s : list Z) : option (list Z) :=
  match s with
  | [] => None
  | c :: s' => if c =? 61 then Some s' else after_equals s'
  end.

Definition scan_equals (s : list Z) : option (list Z) :=
  match s with [] => None | c :: _ => if c =? 61 then None else after_equals s end.

(** [%s]: the bytes up to white space. *)
Fixpoint scan_word (s : list Z) : list Z :=
  match s with c :: s' => if isspace c then [] else c :: scan_word s' | [] => [] end.

(** The array that [read] filled is a string only if a NUL is left in it. *)
Definition terminated (cap : nat) (s : list Z) : option (list Z) :=
  if (length s <? cap)%nat then Some s else None.

Definition check_version (listening_ip : list Z) (dfs_current_msec : Z) (path : list Z) (s : dn) : option (Z * dn) :=
  if negb (access (files s) path) then
    match creat (files s) path with
    | None => Some (DFS_ERROR, s)
    | Some f =>
        v ← (if bool_decide (g_last_version s = []) then sprintf 56 (lit "DS-" ++ listening_ip ++ lit "-" ++ fmt_ld dfs_current_msec)
             else Some (g_last_version s));
        version ← sprintf 128 (lit "storageID=" ++ v ++ [10]);
        Some (DFS_OK, set_version (set_files s (write f path version)) v)
    end
  else
    match get_file (files s) path 128 with
    | None => Some (DFS_ERROR, s)
    | Some rBuf =>
        rBuf ← terminated 128 rBuf;
        let version := match scan_equals rBuf with Some r => scan_word (skip_space r) | None => [] end in
        if bool_decide (g_last_version s = []) then v ← sprintf 56 version; Some (DFS_OK, set_version s v)
        else if bool_decide (g_last_version s = version) then Some (DFS_OK, s) else Some (DFS_ERROR, s)
    end.

Definition check_namespace (path : list Z) (namespaceID : Z) (s : dn) : option (Z * dn) :=
  if negb (access (files s) path) then
    match mkdir (files s) path with
    | None => Some (DFS_ERROR, s)
    | Some f =>
        bbwDir ← sprintf PATH_LEN (path ++ lit "/blocksBeingWritten");
        match mkdir f bbwDir with
        | None => Some (DFS_ERROR, set_files s f)
        | Some f =>
            curDir ← sprintf PATH_LEN (path ++ lit "/current");
            match mkdir f curDir with
            | None => Some (DFS_ERROR, set_files s f)
            | Some f =>
                verDir ← sprintf PATH_LEN (curDir ++ lit "/VERSION");
                match creat f verDir with
                | None => Some (DFS_ERROR, set_files s f)
                | Some f =>
                    version ← sprintf 128 (lit "namespaceID=" ++ fmt_ld namespaceID ++ [10]);
                    '(_, f) ← create_storage_subdirs curDir (write f verDir version);
                    Some (DFS_OK, set_files s f)
                end
            end
        end
    end
  else
    verDir ← sprintf PATH_LEN (path ++ lit "/current/VERSION");
    match get_file (files s) verDir 128 with
    | None => Some (DFS_ERROR, s)
    | Some rBuf =>
        rBuf ← terminated 128 rBuf;
        let dn_ns_id := match scan_equals rBuf with Some r => atol r | None => 0 end in
        if dn_ns_id =? namespaceID then Some (DFS_OK, s) else Some (DFS_ERROR, s)
    end.

(** [Some None]: the process exits. *)
Fixpoint setup_loop (listening_ip : list Z) (dfs_current_msec namespaceID : Z) (q : list storage_dir_t) (s : dn) : option (option dn) :=
  match q with
  | [] => Some (Some s)
  | sd :: q' =>
      path ← sprintf PATH_LEN (current sd ++ lit "/VERSION");
      '(rc, s) ← check_version listening_ip dfs_current_msec path s;
      if negb (rc =? DFS_OK) then Some None else
      path ← sprintf PATH_LEN (current sd ++ lit "/NS-" ++ fmt_ld namespaceID);
      '(rc, s) ← check_namespace path namespaceID s;
      if negb (rc =? DFS_OK) then Some None else
      setup_loop listening_ip dfs_current_msec namespaceID q' s
  end.

Definition setup_ns_storage (listening_ip : list Z) (dfs_current_msec namespaceID : Z) (s : dn) : option (option dn) :=
  setup_loop listening_ip dfs_current_msec namespaceID (g_storage_dir_q s) s.

(** ** Blocks *)

Definition block_object_get (s : dn) (id : Z) : option (option Z) := get (g_dn_bcm s) (Mem.le_enc 8 id) 8.

(** [queue_insert_tail(&..., &blk->me); num++]. *)
Definition report_add (r : blk_report_t) (x : Z) : blk_report_t := Rep (que r ++ [x]) (num r + 1).

Definition notify_nn_receivedblock (s : dn) (x : Z) : dn := set_recv s (report_add (g_recv_blk_report s) x).
Definition notify_blk_report (s : dn) (x : Z) : dn := set_report s (report_add (g_blk_report s) x).

(** A new object with its fields and its link in the table.  [queue_init] of
    an object that still is in a queue breaks that queue. *)
Definition new_block (s : dn) (blk_id blk_sz : Z) (path : list Z) : option (Z * dn) :=
  path ← sprintf PATH_LEN path;
  '(x, c) ← add (g_dn_bcm s) (Bi blk_id blk_sz path);
  if bool_decide (x ∈ que (g_recv_blk_report s)) || bool_decide (x ∈ que (g_blk_report s)) then None
  else Some (x, set_bcm s c).

(** [garbage]: what the uninitialised [sb.st_size] holds when [stat] fails. *)
Definition block_object_add (garbage : Z) (s : dn) (path : list Z) (ns_id blk_id : Z) : option (Z * dn) :=
  blk ← block_object_get s blk_id;
  match blk with
  | Some _ => Some (DFS_OK, s)
  | None =>
      let blk_sz := default garbage (stat_size (files s) path) in
      '(x, s) ← new_block s blk_id blk_sz path;
      Some (DFS_OK, notify_blk_report s x)
  end.

Definition block_object_del (s : dn) (blk_id : Z) : option (Z * dn) :=
  blk ← block_object_get s blk_id;
  match blk with
  | None => Some (DFS_ERROR, s)
  | Some x =>
      k ← objs (g_dn_bcm s) !! x;
      let f := default (files s) (unlink (files s) (b_path k)) in
      c ← del (g_dn_bcm s) x;
      Some (DFS_OK, set_bcm (set_files s f) c)
  end.

(** [block_id % g_storage_dir_n]; the array stays empty when no directory has that number. *)
Definition get_disk_id (s : dn) (block_id : Z) : option (list Z) :=
  if g_storage_dir_n s =? 0 then None else
  let disk_id := Z.rem block_id (g_storage_dir_n s) in
  Some (match List.find (fun sd => sd_id sd =? disk_id) (g_storage_dir_q s) with Some sd => current sd | None => [] end).

(** [alloc_ok]: whether the pool of the request has memory. *)
Definition get_block_temp_path (alloc_ok : bool) (s : dn) (r : dn_request_t) : option (Z * dn_request_t) :=
  curDir ← get_disk_id s (block_id r);
  tmpDir ← sprintf PATH_LEN (curDir ++ lit "/NS-" ++ fmt_ld (namespace_id r) ++ lit "/blocksBeingWritten/blk_" ++ fmt_ld (block_id r));
  if alloc_ok then Some (DFS_OK, Req (block_id r) (namespace_id r) (r_len r) tmpDir (S (length tmpDir)))
  else Some (DFS_ERROR, r).

Definition recv_blk_report (s : dn) (r : dn_request_t) : option (Z * dn) :=
  '(x, s) ← new_block s (block_id r) (r_len r) (r_path r);
  Some (DFS_OK, notify_nn_receivedblock s x).

Definition blk_dir (curDir : list Z) (ns id : Z) : list Z :=
  let suddir_id := Z.rem id SUBDIR_LEN in
  let suddir_id2 := Z.rem (Z.rem id 1000) SUBDIR_LEN in
  curDir ++ lit "/NS-" ++ fmt_ld ns ++ lit "/current/subdir" ++ fmt_ld suddir_id ++ lit "/subdir" ++ fmt_ld suddir_id2 ++
  lit "/blk_" ++ fmt_ld id.

Definition write_block_done (s : dn) (r : dn_request_t) : option (Z * dn) :=
  curDir ← get_disk_id s (block_id r);
  blkDir ← sprintf PATH_LEN (blk_dir curDir (namespace_id r) (block_id r));
  match rename (files s) (r_path r) blkDir with
  | None => Some (DFS_ERROR, s)
  | Some f =>
      path ← sprintf (r_cap r) blkDir;
      recv_blk_report (set_files s f) (Req (block_id r) (namespace_id r) (r_len r) path (r_cap r))
  end.

(** ** The scan of the storage directories *)

(** The rest of a name copied to a zeroed array of 16 bytes, and [atol] of it. *)
Definition get_id (src : list Z) : option (list Z) :=
  if (length src <=? 16)%nat then Some (src ++ replicate (16 - length src) 0) else None.
Definition get_blk_id (src : list Z) : option (list Z) := get_id (drop 4 src).
Definition get_namespace_id (src : list Z) : option (list Z) := get_id (drop 3 src).
Definition atol16 (id : list Z) : option Z := if bool_decide (0 ∈ id) then Some (atol id) else None.

Section scan.

(** The names [readdir] returns for a directory, in some order. *)
Variable readdir : fs -> list name -> list name.
Variable garbage : Z.

Definition is_file (s : dn) (dir : list Z) (n : name) : bool :=
  match files s !! (resolve dir ++ [n]) with Some (File _) => true | _ => false end.

Definition opendir (s : dn) (dir : list Z) : bool := is_dir (files s) (resolve dir).

Fixpoint blks_loop (names : list name) (dir : list Z) (namespace_id : Z) (s : dn) : option dn :=
  match names with
  | [] => Some s
  | n :: names' =>
      if is_file s dir n && (Libc.strncmp n (lit "blk_") 4 =? 0) then
        id ← get_blk_id n;
        path ← sprintf PATH_LEN (dir ++ lit "/" ++ n);
        id ← atol16 id;
        '(_, s) ← block_object_add garbage s path namespace_id id;
        blks_loop names' dir namespace_id s
      else blks_loop names' dir namespace_id s
  end.

Definition scan_subdir_subdir (dir : list Z) (namespace_id : Z) (s : dn) : option (Z * dn) :=
  if opendir s dir then s ← blks_loop (readdir (files s) (resolve dir)) dir namespace_id s; Some (DFS_OK, s)
  else Some (DFS_ERROR, s).

(** The entries that are directories called [subdir...], each given to [scan]. *)
Fixpoint subdirs_scan (scan : list Z -> Z -> dn -> option (Z * dn)) (names : list name) (dir : list Z) (namespace_id : Z) (s : dn) : option dn :=
  match names with
  | [] => Some s
  | n :: names' =>
      if negb (is_file s dir n) && (Libc.strncmp n (lit "subdir") 6 =? 0) then
        root ← sprintf PATH_LEN (dir ++ lit "/" ++ n);
        '(_, s) ← scan root namespace_id s;
        subdirs_scan scan names' dir namespace_id s
      else subdirs_scan scan names' dir namespace_id s
  end.

Definition scan_subdir (dir : list Z) (namespace_id : Z) (s : dn) : option (Z * dn) :=
  if opendir s dir then
    s ← subdirs_scan scan_subdir_subdir (readdir (files s) (resolve dir)) dir namespace_id s; Some (DFS_OK, s)
  else Some (DFS_ERROR, s).

Definition scan_namespace_dir (dir : list Z) (namespace_id : Z) (s : dn) : option (Z * dn) :=
  if opendir s dir then
    s ← subdirs_scan scan_subdir (readdir (files s) (resolve dir)) dir namespace_id s; Some (DFS_OK, s)
  else Some (DFS_ERROR, s).

Fixpoint namespaces_loop (names : list name) (dir : list Z) (s : dn) : option dn :=
  match names with
  | [] => Some s
  | n :: names' =>
      if negb (is_file s dir n) && (Libc.strncmp n (lit "NS-") 3 =? 0) then
        id ← get_namespace_id n;
        root ← sprintf PATH_LEN (dir ++ lit "/" ++ n ++ lit "/current");
        id ← atol16 id;
        '(_, s) ← scan_namespace_dir root id s;
        namespaces_loop names' dir s
      else namespaces_loop names' dir s
  end.

Definition scan_current_dir (dir : list Z) (s : dn) : option (Z * dn) :=
  if opendir s dir then s ← namespaces_loop (readdir (files s) (resolve dir)) dir s; Some (DFS_OK, s)
  else Some (DFS_ERROR, s).

(** One round of the loop of [blk_scanner_start]. *)
Fixpoint scan_dirs (q : list storage_dir_t) (s : dn) : option dn :=
  match q with
  | [] => Some s
  | sd :: q' => '(_, s) ← scan_current_dir (current sd) s; scan_dirs q' s
  end.

Definition blk_scanner_round (s : dn) : option dn := scan_dirs (g_storage_dir_q s) s.

End scan.

End DnStorage.
