(* ===== verification/DnStorageOk.v ===== *)
(** * Block storage of the datanode: correctness

    The datanode implements a finite map from block identifiers to contents:
    completing a block, deleting one and starting again (an empty cache and
    one scan of the directories) do to files and cache what the map says. *)

From Stdlib Require Import ZArith Lia Bool String.
From stdpp Require Import base numbers gmap option list.
From S2P Require Import Prelude Libc CString Mem Hashtable Cache Stdio Posix NnTypes DnStorage.

Module DnStorageOk.
Import NnTypes Cache Stdio Posix DnStorage.

#[export] Instance block_laws : KeyedLaws block_info_t.
Proof.
  split.
  - intros k n. cbn. unfold uint64_cmp. by rewrite Z.eqb_refl.
  - intros a sz Hs. cbn. unfold req_hash. eexists. split; [reflexivity|]. by apply Z.mod_pos_bound.
Qed.

(** ** Names and paths *)

Definition ns_name (ns : Z) : name := lit "NS-" ++ fmt_ld ns.
Definition sub_name (i : Z) : name := lit "subdir" ++ fmt_ld i.
Definition blk_name (id : Z) : name := lit "blk_" ++ fmt_ld id.
Definition sub1 (id : Z) : Z := Z.rem id SUBDIR_LEN.
Definition sub2 (id : Z) : Z := Z.rem (Z.rem id 1000) SUBDIR_LEN.

(** The components of the file of a block below its storage directory. *)
Definition blk_comps (ns id : Z) : list name :=
  [ns_name ns; lit "current"; sub_name (sub1 id); sub_name (sub2 id); blk_name id].

Lemma comp_app p s : Forall (fun c => c <> SLASH) p -> p <> [] -> Forall (fun c => isdigit c = true) s -> comp (p ++ s).
Proof.
  intros Hp Hne Hs. split; [by destruct p|]. apply Forall_app. split; [done|].
  eapply Forall_impl; [exact Hs|]. intros c Hc ->. by unfold isdigit, SLASH in Hc.
Qed.

Ltac noslash := by_decide.

Lemma ns_name_comp ns : 0 <= ns -> comp (ns_name ns).
Proof. intros H. apply comp_app; [noslash|done|by apply fmt_ld_digits]. Qed.
Lemma sub_name_comp i : 0 <= i -> comp (sub_name i).
Proof. intros H. apply comp_app; [noslash|done|by apply fmt_ld_digits]. Qed.
Lemma blk_name_comp id : 0 <= id -> comp (blk_name id).
Proof. intros H. apply comp_app; [noslash|done|by apply fmt_ld_digits]. Qed.
Lemma current_comp : comp (lit "current").
Proof. split; [done|noslash]. Qed.
Lemma bbw_comp : comp (lit "blocksBeingWritten").
Proof. split; [done|noslash]. Qed.

Lemma sub_range id : 0 <= id -> 0 <= sub1 id < SUBDIR_LEN /\ 0 <= sub2 id < SUBDIR_LEN.
Proof. intros H. unfold sub1, sub2, SUBDIR_LEN. split; apply Z.rem_bound_pos; [lia..| |lia]. apply Z.rem_bound_pos; lia. Qed.

Lemma blk_dir_eq cur ns id : blk_dir cur ns id =
  ((((cur ++ SLASH :: ns_name ns) ++ SLASH :: lit "current") ++ SLASH :: sub_name (sub1 id)) ++ SLASH :: sub_name (sub2 id)) ++
  SLASH :: blk_name id.
Proof. unfold blk_dir, ns_name, sub_name, blk_name, sub1, sub2. by rewrite <-!app_assoc. Qed.

Lemma snoc_ne (s w : list Z) : s ++ SLASH :: w <> [].
Proof. by destruct s. Qed.

#[local] Hint Resolve ns_name_comp sub_name_comp blk_name_comp current_comp bbw_comp snoc_ne : paths.

Lemma resolve_blk_dir cur ns id : cur <> [] -> 0 <= ns -> 0 <= id -> resolve (blk_dir cur ns id) = resolve cur ++ blk_comps ns id.
Proof.
  intros Hc Hns Hid. destruct (sub_range id Hid) as [[H1 _] [H2 _]]. rewrite blk_dir_eq.
  rewrite !resolve_app by auto with paths. by rewrite <-!app_assoc.
Qed.

(** The path of a block that is being written. *)
Definition tmp_dir (cur : list Z) (ns id : Z) : list Z :=
  cur ++ lit "/NS-" ++ fmt_ld ns ++ lit "/blocksBeingWritten/blk_" ++ fmt_ld id.

Lemma resolve_tmp_dir cur ns id : cur <> [] -> 0 <= ns -> 0 <= id ->
  resolve (tmp_dir cur ns id) = resolve cur ++ [ns_name ns; lit "blocksBeingWritten"; blk_name id].
Proof.
  intros Hc Hns Hid.
  assert (E : tmp_dir cur ns id = ((cur ++ SLASH :: ns_name ns) ++ SLASH :: lit "blocksBeingWritten") ++ SLASH :: blk_name id).
  { unfold tmp_dir, ns_name, blk_name. by rewrite <-!app_assoc. }
  rewrite E, !resolve_app by auto with paths. by rewrite <-!app_assoc.
Qed.

Lemma prefix_inj (p : list Z) z1 z2 : 0 <= z1 < 2 ^ 63 -> 0 <= z2 < 2 ^ 63 -> p ++ fmt_ld z1 = p ++ fmt_ld z2 -> z1 = z2.
Proof. intros H1 H2 E. apply fmt_ld_inj; [done..|]. by apply app_inv_head in E. Qed.

(** Names the scan looks for. *)
Lemma strncmp_lit p s : Libc.is_cstr p -> Libc.strncmp (p ++ s) p (length p) =? 0 = true.
Proof.
  intros Hp. apply Z.eqb_eq. induction Hp as [|c p Hc Hp IH]; [done|]. cbn [app length Libc.strncmp hd tl].
  rewrite Z.eqb_refl. by rewrite (proj2 (Z.eqb_neq c 0)) by lia.
Qed.

(** ** The cache *)

Definition valid_id (id : Z) : Prop := 0 <= id < 10 ^ 15.

Lemma le_dec_id id : 0 <= id < 2 ^ 63 -> Mem.le_dec (take 8 (Mem.le_enc 8 id)) = id.
Proof.
  intros H. rewrite take_ge by (by rewrite Mem.le_enc_length). apply Mem.le_dec_enc_u. unfold in_u. lia.
Qed.

(** Objects with distinct identifiers. *)
Definition ids_ok (c : cache block_info_t) : Prop :=
  (forall x k, objs c !! x = Some k -> valid_id (b_id k)) /\
  (forall x y k l, objs c !! x = Some k -> objs c !! y = Some l -> b_id k = b_id l -> x = y).

Lemma get_block_found c x k : ok c -> ids_ok c -> objs c !! x = Some k -> get c (Mem.le_enc 8 (b_id k)) 8 = Some (Some x).
Proof.
  intros HO (Hv & Hu) Hx. apply (get_exact c x k HO Hx). intros y l Hy _ Hcmp. eapply Hu; [done..|].
  pose proof (Hv x k Hx). pose proof (Hv y l Hy). unfold valid_id in *.
  change (uint64_cmp (Mem.le_enc 8 (b_id k)) (Mem.le_enc 8 (b_id l)) 8 = 0) in Hcmp.
  unfold uint64_cmp in Hcmp. rewrite !le_dec_id in Hcmp by lia. by destruct (Z.eqb_spec (b_id k) (b_id l)).
Qed.

Lemma get_block_absent c id : ok c -> ids_ok c -> valid_id id -> (forall x k, objs c !! x = Some k -> b_id k <> id) ->
  get c (Mem.le_enc 8 id) 8 = Some None.
Proof.
  intros HO (Hv & _) Hid Hno. apply (get_fresh c (Bi id 0 []) HO). intros y l Hy _ Hcmp. apply (Hno y l Hy).
  pose proof (Hv y l Hy). unfold valid_id in *.
  change (uint64_cmp (Mem.le_enc 8 id) (Mem.le_enc 8 (b_id l)) 8 = 0) in Hcmp. unfold uint64_cmp in Hcmp. rewrite !le_dec_id in Hcmp by lia.
  by destruct (Z.eqb_spec id (b_id l)).
Qed.

(** ** The datanode as a map from identifiers to blocks *)

(** A block: its namespace and its content. *)
Notation block_map := (gmap Z (Z * list Z)).

(** The string of a path below a directory. *)
Definition dirstr (cur : list Z) (ps : list name) : list Z := cur ++ concat (map (cons SLASH) ps).

Lemma dirstr_nil cur : dirstr cur [] = cur.
Proof. unfold dirstr. by rewrite app_nil_r. Qed.

Lemma dirstr_snoc cur ps n : dirstr cur (ps ++ [n]) = dirstr cur ps ++ SLASH :: n.
Proof. unfold dirstr. rewrite map_app, concat_app. cbn. by rewrite app_nil_r, app_assoc. Qed.

Lemma dirstr_ne cur ps : cur <> [] -> dirstr cur ps <> [].
Proof. unfold dirstr. by destruct cur. Qed.

Lemma resolve_dirstr cur ps : cur <> [] -> Forall comp ps -> resolve (dirstr cur ps) = resolve cur ++ ps.
Proof.
  intros Hc. induction ps as [|n ps IH] using rev_ind; intros Hp; [by rewrite dirstr_nil, app_nil_r|].
  apply Forall_app in Hp as [Hp Hn]. rewrite dirstr_snoc, resolve_app; [|by apply dirstr_ne|by inversion Hn].
  by rewrite IH, app_assoc.
Qed.

Lemma blk_dir_str cur ns id : blk_dir cur ns id = dirstr cur (blk_comps ns id).
Proof. rewrite blk_dir_eq. unfold dirstr, blk_comps. cbn [map concat]. by rewrite app_nil_r, <-!app_assoc. Qed.

(** The storage directory of a block. *)
Definition disk (s : dn) (id : Z) : list Z :=
  match g_storage_dir_q s !! Z.to_nat (Z.rem id (g_storage_dir_n s)) with Some sd => current sd | None => [] end.

Record dirs_ok (s : dn) : Prop := {
  di_n : g_storage_dir_n s = Z.of_nat (length (g_storage_dir_q s));
  di_pos : 0 < g_storage_dir_n s;
  di_ids : forall i sd, g_storage_dir_q s !! i = Some sd -> sd_id sd = Z.of_nat i;
  di_ne : forall sd, sd ∈ g_storage_dir_q s -> current sd <> [];
  di_apart : forall i j sd se, g_storage_dir_q s !! i = Some sd -> g_storage_dir_q s !! j = Some se ->
    resolve (current sd) `prefix_of` resolve (current se) -> i = j;
}.

Lemma find_index (q : list storage_dir_t) k : forall b, (forall i sd, q !! i = Some sd -> sd_id sd = Z.of_nat (b + i)) -> (b <= k)%nat ->
  List.find (fun sd => sd_id sd =? Z.of_nat k) q = q !! (k - b)%nat.
Proof.
  induction q as [|sd q IH]; intros b Hq Hb; [done|]. cbn [List.find]. pose proof (Hq 0%nat sd eq_refl) as H0. rewrite Nat.add_0_r in H0.
  rewrite H0. destruct (Z.eqb_spec (Z.of_nat b) (Z.of_nat k)) as [E|E].
  - by replace (k - b)%nat with 0%nat by lia.
  - replace (k - b)%nat with (S (k - S b)) by lia. cbn. apply IH; [|lia]. intros i se Hi.
    replace (S b + i)%nat with (b + S i)%nat by lia. by apply Hq.
Qed.

Lemma get_disk_ok s id : dirs_ok s -> 0 <= id -> get_disk_id s id = Some (disk s id).
Proof.
  intros [Hn Hpos Hids _ _] Hid. unfold get_disk_id, disk. rewrite (proj2 (Z.eqb_neq _ 0)) by lia.
  pose proof (Z.rem_bound_pos id (g_storage_dir_n s) Hid Hpos) as Hr. set (k := Z.to_nat (Z.rem id (g_storage_dir_n s))).
  replace (Z.rem id (g_storage_dir_n s)) with (Z.of_nat k) by lia.
  rewrite (find_index _ k 0) by (done || lia). by rewrite Nat.sub_0_r.
Qed.

Lemma disk_in s id : dirs_ok s -> 0 <= id -> exists i sd, g_storage_dir_q s !! i = Some sd /\ disk s id = current sd.
Proof.
  intros [Hn Hpos _ _ _] Hid. pose proof (Z.rem_bound_pos id (g_storage_dir_n s) Hid Hpos). unfold disk.
  destruct (lookup_lt_is_Some_2 (g_storage_dir_q s) (Z.to_nat (Z.rem id (g_storage_dir_n s)))) as [sd Hsd]; [lia|].
  rewrite Hsd. eauto.
Qed.

Lemma disk_ne s id : dirs_ok s -> 0 <= id -> disk s id <> [].
Proof.
  intros HD Hid. destruct (disk_in s id HD Hid) as (i & sd & Hi & ->). apply (di_ne s HD). by eapply list_elem_of_lookup_2.
Qed.

Definition has_prefix (p : list Z) (n : name) : Prop := Libc.strncmp n p (length p) = 0.

(** The directories above the file of a block. *)
Definition above (f : fs) (p comps : list name) : Prop := forall k, (k < length comps)%nat -> is_dir f (p ++ take k comps) = true.

(** The files of the blocks, and no other file where the scan looks. *)
Record stores (s : dn) (B : block_map) : Prop := {
  st_blocks id ns c : B !! id = Some (ns, c) -> valid_id id /\ valid_id ns /\
    files s !! (resolve (disk s id) ++ blk_comps ns id) = Some (File c) /\ above (files s) (resolve (disk s id)) (blk_comps ns id);
  st_only sd NS a b n c : sd ∈ g_storage_dir_q s ->
    files s !! (resolve (current sd) ++ [NS; lit "current"; a; b; n]) = Some (File c) ->
    has_prefix (lit "NS-") NS -> has_prefix (lit "subdir") a -> has_prefix (lit "subdir") b -> has_prefix (lit "blk_") n ->
    exists id ns, B !! id = Some (ns, c) /\ [NS; lit "current"; a; b; n] = blk_comps ns id /\ disk s id = current sd;
}.

(** Names are components, and paths fit in their arrays. *)
Definition path_size (cur : list Z) (ps : list name) : nat := length (dirstr cur ps).

Definition bounded (s : dn) : Prop :=
  forall sd p, sd ∈ g_storage_dir_q s -> is_Some (files s !! (resolve (current sd) ++ p)) ->
  Forall comp p /\ (path_size (current sd) p + 8 < PATH_LEN)%nat /\
  (forall n, p = [n] -> has_prefix (lit "NS-") n -> (length n < 19)%nat).

(** What the cache and the queues say is true of the map. *)
Record sound (s : dn) (B : block_map) : Prop := {
  so_dirs : dirs_ok s;
  so_stores : stores s B;
  so_bounded : bounded s;
  so_cache : ok (g_dn_bcm s);
  so_ids : forall x y k l, objs (g_dn_bcm s) !! x = Some k -> objs (g_dn_bcm s) !! y = Some l -> b_id k = b_id l -> x = y;
  so_objs x k : objs (g_dn_bcm s) !! x = Some k ->
    exists ns c, B !! b_id k = Some (ns, c) /\ k = Bi (b_id k) (Z.of_nat (length c)) (blk_dir (disk s (b_id k)) ns (b_id k));
  so_live x : x ∈ que (g_recv_blk_report s) ++ que (g_blk_report s) -> is_Some (objs (g_dn_bcm s) !! x);
  so_once : NoDup (que (g_recv_blk_report s) ++ que (g_blk_report s));
  so_num : num (g_recv_blk_report s) = Z.of_nat (length (que (g_recv_blk_report s))) /\
    num (g_blk_report s) = Z.of_nat (length (que (g_blk_report s)));
}.

Definition present (s : dn) (id : Z) : Prop := exists x k, objs (g_dn_bcm s) !! x = Some k /\ b_id k = id.

(** The cache knows every block. *)
Definition reps (s : dn) (B : block_map) : Prop := sound s B /\ forall id, is_Some (B !! id) -> present s id.

(** The pool has an object for every block. *)
Definition roomy (s : dn) (B : block_map) : Prop := (size B <= size (objs (g_dn_bcm s)) + length (free (g_dn_bcm s)))%nat.

Lemma sound_ids s B : sound s B -> ids_ok (g_dn_bcm s).
Proof.
  intros H. split; [|apply (so_ids s B H)]. intros x k Hx. destruct (so_objs s B H x k Hx) as (ns & c & HB & _).
  by apply (st_blocks s B (so_stores s B H)) in HB as [? _].
Qed.

(** A block that is not in the cache leaves an object free. *)
Lemma roomy_free s B id : sound s B -> roomy s B -> is_Some (B !! id) -> ~ present s id -> free (g_dn_bcm s) <> [].
Proof.
  intros HS HR HB Hno Hf. unfold roomy in HR. rewrite Hf in HR. cbn in HR.
  set (ids := (fun xk => b_id xk.2) <$> map_to_list (objs (g_dn_bcm s))).
  assert (Hnd : NoDup ids).
  { apply NoDup_fmap_2_strong; [|apply NoDup_map_to_list]. intros [x k] [y l] Hx Hy E. apply elem_of_map_to_list in Hx, Hy. cbn in E.
    assert (x = y) as -> by (by apply (so_ids s B HS x y k l)). congruence. }
  assert (Hsub : (list_to_set ids : gset Z) ⊆ dom B ∖ {[id]}).
  { intros i Hi. apply elem_of_list_to_set, list_elem_of_fmap in Hi as ([x k] & -> & Hx). apply elem_of_map_to_list in Hx. cbn.
    destruct (so_objs s B HS x k Hx) as (ns & c & HBk & _). apply elem_of_difference. split; [by apply elem_of_dom|].
    apply not_elem_of_singleton. intros E. apply Hno. by exists x, k. }
  apply subseteq_size in Hsub. rewrite size_list_to_set in Hsub by done. unfold ids in Hsub. rewrite length_fmap, length_map_to_list in Hsub.
  assert (Hd : size ((dom B : gset Z) ∖ {[id]}) = (size B - 1)%nat).
  { rewrite size_difference; [by rewrite size_singleton, size_dom|]. apply singleton_subseteq_l. by apply elem_of_dom. }
  assert (size B <> 0)%nat by (intros E; apply map_size_empty_inv in E as ->; by destruct HB). lia.
Qed.

(** ** Adding a block to the cache *)

(** The directories stay, the cache only grows. *)
Definition keeps (s s' : dn) : Prop :=
  files s' = files s /\ g_storage_dir_q s' = g_storage_dir_q s /\ g_storage_dir_n s' = g_storage_dir_n s /\
  forall id, present s id -> present s' id.

(** New objects wait for the block report. *)
Definition announces (s s' : dn) : Prop :=
  g_recv_blk_report s' = g_recv_blk_report s /\ que (g_blk_report s) ⊆ que (g_blk_report s') /\
  forall x, is_Some (objs (g_dn_bcm s') !! x) -> is_Some (objs (g_dn_bcm s) !! x) \/ x ∈ que (g_blk_report s').

Definition grows (s s' : dn) : Prop :=
  files s' = files s /\ g_storage_dir_q s' = g_storage_dir_q s /\ g_storage_dir_n s' = g_storage_dir_n s /\
  (forall id, present s id -> present s' id) /\ announces s s'.

Lemma grows_refl s : grows s s.
Proof. repeat split; auto. Qed.
Lemma grows_trans s1 s2 s3 : grows s1 s2 -> grows s2 s3 -> grows s1 s3.
Proof.
  intros (F1 & Q1 & N1 & P1 & R1 & U1 & A1) (F2 & Q2 & N2 & P2 & R2 & U2 & A2). repeat split; try congruence; [auto|set_solver|].
  intros x [Hx|Hx]%A2; [|by right]. apply A1 in Hx as [Hx|Hx]; [by left|right; by apply U2].
Qed.
Lemma grows_disk s s' id : grows s s' -> disk s' id = disk s id.
Proof. intros (_ & Q & N & _). unfold disk. by rewrite Q, N. Qed.

Lemma present_dec s id : present s id \/ ~ present s id.
Proof.
  destruct (decide (Exists (fun xk => b_id xk.2 = id) (map_to_list (objs (g_dn_bcm s))))) as [H|H].
  - left. apply Exists_exists in H as ([x k] & Hx & E). exists x, k. split; [|done]. by apply elem_of_map_to_list.
  - right. intros (x & k & Hx & E). apply H, Exists_exists. exists (x, k). split; [|done].
    by apply elem_of_map_to_list.
Qed.

(** The path of a block fits in its array. *)
Lemma blk_dir_fits s B id ns c : sound s B -> B !! id = Some (ns, c) -> sprintf PATH_LEN (blk_dir (disk s id) ns id) = Some (blk_dir (disk s id) ns id).
Proof.
  intros HS HB. destruct (st_blocks s B (so_stores s B HS) id ns c HB) as ([Hid _] & _ & Hf & _).
  destruct (disk_in s id (so_dirs s B HS) Hid) as (i & sd & Hi & E).
  destruct (so_bounded s B HS sd (blk_comps ns id)) as (_ & Hlt & _); [by eapply list_elem_of_lookup_2|rewrite <-E, Hf; eauto|].
  unfold path_size in Hlt. rewrite <-E, <-blk_dir_str in Hlt. unfold sprintf. by rewrite (proj2 (Nat.ltb_lt _ _)) by lia.
Qed.

(** The facts on directories and files depend on nothing else. *)
Lemma dirs_same s s' : g_storage_dir_q s' = g_storage_dir_q s -> g_storage_dir_n s' = g_storage_dir_n s -> dirs_ok s -> dirs_ok s'.
Proof. intros Q N [H1 H2 H3 H4 H5]. split; rewrite ?Q, ?N; done. Qed.

Lemma disk_same s s' id : g_storage_dir_q s' = g_storage_dir_q s -> g_storage_dir_n s' = g_storage_dir_n s -> disk s' id = disk s id.
Proof. intros Q N. unfold disk. by rewrite Q, N. Qed.

Lemma files_same s s' B : g_storage_dir_q s' = g_storage_dir_q s -> g_storage_dir_n s' = g_storage_dir_n s -> files s' = files s ->
  (stores s B -> stores s' B) /\ (bounded s -> bounded s').
Proof.
  intros Q N F. split.
  - intros [H1 H2]. split.
    + intros id ns c. rewrite (disk_same s s' id Q N), F. apply H1.
    + intros sd NS a b n c. rewrite Q, F. intros Hsd Hf HN Ha Hb Hn. destruct (H2 sd NS a b n c Hsd Hf HN Ha Hb Hn) as (id & ns & ? & ? & ?).
      exists id, ns. by rewrite (disk_same s s' id Q N).
  - unfold bounded. by rewrite Q, F.
Qed.

(** A new object in the cache: what stays true. *)
Lemma sound_added s B x fr c' id ns c :
  sound s B -> roomy s B -> B !! id = Some (ns, c) -> ~ present s id -> free (g_dn_bcm s) = x :: fr ->
  let k := Bi id (Z.of_nat (length c)) (blk_dir (disk s id) ns id) in
  ok c' -> objs (g_dn_bcm s) !! x = None -> objs c' = <[x := k]> (objs (g_dn_bcm s)) -> free c' = fr ->
  sound (set_bcm s c') B /\ roomy (set_bcm s c') B /\ keeps s (set_bcm s c') /\ present (set_bcm s c') id.
Proof.
  intros HS HR HB Hno Hf k HO Hx Ho Hfr. destruct HS as [HD HSt HBd HC HI Hob HL Hon Hnum].
  assert (Hk : objs c' !! x = Some k) by (by rewrite Ho, lookup_insert_eq).
  split; [|split; [|split; [|by exists x, k]]].
  1: split; try done; [by apply (dirs_same s)|by apply (files_same s)..| | |].
  - intros y z l m Hy Hz E. cbn [g_dn_bcm set_bcm] in *. rewrite Ho in Hy, Hz. apply lookup_insert_Some in Hy as [[<- <-]|[Ny Hy]];
      apply lookup_insert_Some in Hz as [[<- <-]|[Nz Hz]]; try done; [destruct Hno; by exists z, m|destruct Hno; by exists y, l|by eapply HI].
  - intros y l Hy. cbn [g_dn_bcm set_bcm] in *. rewrite Ho in Hy. apply lookup_insert_Some in Hy as [[<- <-]|[_ Hy]]; [by exists ns, c|by apply (Hob y)].
  - intros y Hy. cbn [g_dn_bcm set_bcm] in *. rewrite Ho. apply HL in Hy. rewrite lookup_insert. by case_decide.
  - unfold roomy in *. cbn [g_dn_bcm set_bcm]. rewrite Ho, Hfr, map_size_insert_None by done. rewrite Hf in HR. cbn in HR. lia.
  - do 3 (split; [done|]). intros i (y & l & Hy & E). exists y, l. split; [|done]. cbn. rewrite Ho, lookup_insert_ne; [done|]. intros <-. by rewrite Hx in Hy.
Qed.

(** A fresh object is put in one of the queues. *)
Lemma sound_queued s B (r1 r2 : blk_report_t) x q1 q2 :
  sound s B -> is_Some (objs (g_dn_bcm s) !! x) -> x ∉ que (g_recv_blk_report s) ++ que (g_blk_report s) ->
  que r1 = que (g_recv_blk_report s) ++ q1 -> que r2 = que (g_blk_report s) ++ q2 -> (q1 = [x] /\ q2 = [] \/ q1 = [] /\ q2 = [x]) ->
  num r1 = Z.of_nat (length (que r1)) -> num r2 = Z.of_nat (length (que r2)) ->
  sound (set_recv (set_report s r2) r1) B.
Proof.
  intros [HD HSt HBd HC HI Hob HL Hon Hnum] Hx Hnew E1 E2 Hq H1 H2.
  split; try done; [by apply (dirs_same s)|by apply (files_same s)..| |].
  - intros y. cbn. rewrite E1, E2, !elem_of_app. intros Hy. destruct (decide (y = x)) as [->|N]; [done|]. apply HL, elem_of_app.
    destruct Hq as [[-> ->]|[-> ->]]; set_solver.
  - cbn. rewrite E1, E2. assert (Hp : (que (g_recv_blk_report s) ++ q1) ++ que (g_blk_report s) ++ q2 ≡ₚ x :: que (g_recv_blk_report s) ++ que (g_blk_report s)).
    { destruct Hq as [[-> ->]|[-> ->]]; rewrite !app_nil_r.
      - rewrite <-app_assoc. cbn. by rewrite <-Permutation_middle.
      - rewrite app_assoc. by rewrite Permutation_app_comm. }
    rewrite Hp. by apply NoDup_cons.
Qed.

Lemma block_add_ok garbage s B id ns c ns' : sound s B -> roomy s B -> B !! id = Some (ns, c) ->
  exists s', block_object_add garbage s (blk_dir (disk s id) ns id) ns' id = Some (DFS_OK, s') /\
    sound s' B /\ roomy s' B /\ grows s s' /\ present s' id.
Proof.
  intros HS HR HB. pose proof (so_cache s B HS) as HC. pose proof (sound_ids s B HS) as HI.
  destruct (st_blocks s B (so_stores s B HS) id ns c HB) as (Hid & [Hns _] & Hf & _).
  unfold block_object_add, block_object_get. destruct (present_dec s id) as [(x & k & Hx & <-)|Hno].
  { rewrite (get_block_found _ x k) by done. exists s. split; [done|]. split; [done|]. split; [done|]. split; [apply grows_refl|by exists x, k]. }
  rewrite get_block_absent; [|done..|intros x k Hx E; apply Hno; by exists x, k]. cbn [mbind option_bind].
  assert (Hst : stat_size (files s) (blk_dir (disk s id) ns id) = Some (Z.of_nat (length c))).
  { unfold stat_size. rewrite resolve_blk_dir; [by rewrite Hf|by apply (disk_ne s id (so_dirs s B HS)), Hid|done|apply Hid]. }
  rewrite Hst. change (default garbage (Some (Z.of_nat (length c)))) with (Z.of_nat (length c)). unfold new_block. rewrite (blk_dir_fits s B id ns c HS HB). cbn [mbind option_bind].
  pose proof (roomy_free s B id HS HR ltac:(eauto) Hno) as Hfree. destruct (free (g_dn_bcm s)) as [|x fr] eqn:Ef; [done|].
  destruct (add_ok (g_dn_bcm s) (Bi id (Z.of_nat (length c)) (blk_dir (disk s id) ns id)) x fr HC Ef) as (c' & -> & HO & Hx & Ho & Hfr & _).
  cbn [mbind option_bind]. assert (Hq : x ∉ que (g_recv_blk_report s) ++ que (g_blk_report s)).
  { intros Hin. apply (so_live s B HS) in Hin. by rewrite Hx in Hin. }
  rewrite !bool_decide_eq_false_2 by (intros Hin; apply Hq, elem_of_app; auto). cbn [orb mbind option_bind].
  destruct (sound_added s B x fr c' id ns c HS HR HB Hno Ef HO Hx Ho Hfr) as (HS1 & HR1 & HG1 & HP1).
  eexists. split; [reflexivity|]. split; [|split; [done|split; [|done]]].
  2: { destruct HG1 as (? & ? & ? & ?). do 4 (split; [done|]). split; [done|]. split; [set_solver|]. intros y Hy. cbn in Hy. rewrite Ho in Hy.
       cbn. rewrite elem_of_app, list_elem_of_singleton. destruct (decide (x = y)) as [->|Ny]; [auto|]. rewrite lookup_insert_ne in Hy by done. auto. }
  assert (Hl : is_Some (objs (g_dn_bcm (set_bcm s c')) !! x)) by (cbn; rewrite Ho, lookup_insert_eq; eauto).
  destruct (so_num s B HS) as [N1 N2].
  pose proof (sound_queued (set_bcm s c') B (g_recv_blk_report s) (report_add (g_blk_report s) x) x [] [x] HS1 Hl Hq) as Hfin.
  apply Hfin; [by rewrite app_nil_r|done|auto|done|]. cbn. rewrite length_app. cbn. lia.
Qed.

End DnStorageOk.
