(* ===== verification/DnScan.v ===== *)
(** * The scan of the storage directories finds every block

    One round of the scanner, from any cache that is sound, ends with a cache
    that knows exactly the blocks that are in the directories. *)

From Stdlib Require Import ZArith Lia Bool String.
From stdpp Require Import base numbers gmap option list.
From S2P Require Import Prelude Libc CString Mem Hashtable Cache Stdio Posix NnTypes DnStorage DnStorageOk.

Module DnScan.
Import NnTypes Cache Stdio Posix DnStorage DnStorageOk.

(** The identifier in a name is read back. *)
Lemma id_name_ok id : valid_id id -> get_id (fmt_ld id) = Some (fmt_ld id ++ replicate (16 - length (fmt_ld id)) 0) /\
  atol16 (fmt_ld id ++ replicate (16 - length (fmt_ld id)) 0) = Some id.
Proof.
  intros [H0 H1]. assert (Hl : (length (fmt_ld id) <= 15)%nat) by (apply (fmt_ld_length id 15); [lia..|exact H1]).
  split; [unfold get_id; by rewrite (proj2 (Nat.leb_le _ _)) by lia|]. unfold atol16.
  destruct (16 - length (fmt_ld id))%nat as [|k] eqn:Ek; [lia|]. rewrite bool_decide_eq_true_2.
  - f_equal. apply atol_fmt_ld; [lia|done].
  - apply elem_of_app. right. cbn. by left.
Qed.

Lemma get_blk_id_ok id : valid_id id -> get_blk_id (blk_name id) = Some (fmt_ld id ++ replicate (16 - length (fmt_ld id)) 0).
Proof. intros H. unfold get_blk_id, blk_name. cbn [lit app drop]. by apply id_name_ok. Qed.

Section scan.

Variable readdir : fs -> list name -> list name.
Variable garbage : Z.
Variable B : block_map.

(** A directory lists its entries and, perhaps, ["."] and [".."]. *)
Hypothesis readdir_spec : forall f p n, n <> lit "." -> n <> lit ".." -> n ∈ readdir f p <-> is_Some (f !! (p ++ [n])).

(** A scan goes from a sound state to a sound state and forgets nothing. *)
Definition step (s s' : dn) : Prop := sound s' B /\ roomy s' B /\ grows s s'.

Lemma step_refl s : sound s B -> roomy s B -> step s s.
Proof. intros. split; [done|]. split; [done|apply grows_refl]. Qed.
Lemma step_trans s1 s2 s3 : step s1 s2 -> step s2 s3 -> step s1 s3.
Proof. intros (_ & _ & G1) (S2 & R2 & G2). split; [done|]. split; [done|]. by eapply grows_trans. Qed.

(** The blocks below the components [ps] of a storage directory are in the cache. *)
Definition covers (cur : list Z) (ps : list name) (s : dn) : Prop :=
  forall id ns c, B !! id = Some (ns, c) -> disk s id = cur -> ps `prefix_of` blk_comps ns id -> present s id.

Lemma covers_grows cur ps s s' : grows s s' -> covers cur ps s -> covers cur ps s'.
Proof.
  intros HG HC id ns c HB Hd Hp. rewrite (grows_disk s s' id HG) in Hd. destruct HG as (_ & _ & _ & HP & _). apply HP. exact (HC id ns c HB Hd Hp).
Qed.

Lemma entry_comps s sd ps n : sound s B -> sd ∈ g_storage_dir_q s -> is_Some (files s !! (resolve (current sd) ++ ps ++ [n])) ->
  Forall comp ps /\ comp n /\ resolve (dirstr (current sd) ps) = resolve (current sd) ++ ps /\
  (path_size (current sd) (ps ++ [n]) + 8 < PATH_LEN)%nat.
Proof.
  intros HS Hsd Hn. destruct (so_bounded s B HS sd (ps ++ [n]) Hsd Hn) as (HF & Hlt & _). apply Forall_app in HF as [HF Hc].
  assert (Hcn : comp n) by (by inversion Hc). split; [done|]. split; [exact Hcn|]. split; [|done].
  apply resolve_dirstr; [|done]. by apply (di_ne s (so_dirs s B HS)).
Qed.

Lemma is_file_eq s sd (ps : list name) (n : name) : resolve (dirstr (current sd) ps) = resolve (current sd) ++ ps ->
  is_file s (dirstr (current sd) ps) n = match files s !! (resolve (current sd) ++ ps ++ [n]) with Some (File _) => true | _ => false end.
Proof. intros Hres. unfold is_file. by rewrite Hres, <-app_assoc. Qed.

(** One name of a directory of blocks. *)
Lemma blks_name_ok NS a b nsid n names s sd :
  let ps := [NS; lit "current"; a; b] in
  sound s B -> roomy s B -> sd ∈ g_storage_dir_q s ->
  has_prefix (lit "NS-") NS -> has_prefix (lit "subdir") a -> has_prefix (lit "subdir") b ->
  (has_prefix (lit "blk_") n -> is_Some (files s !! (resolve (current sd) ++ ps ++ [n]))) ->
  exists s1, step s s1 /\ covers (current sd) (ps ++ [n]) s1 /\
    blks_loop garbage (n :: names) (dirstr (current sd) ps) nsid s = blks_loop garbage names (dirstr (current sd) ps) nsid s1.
Proof.
  intros ps HS HR Hsd HN Ha Hb Hex. cbn [blks_loop].
  destruct (Z.eqb_spec (Libc.strncmp n (lit "blk_") 4) 0) as [Hpre|Hpre]; [specialize (Hex Hpre)|].
  2: { rewrite andb_false_r. exists s. split; [by apply step_refl|]. split; [|done]. intros id ns c' HB Hd Hp. apply prefix_length_eq in Hp; [|done].
       destruct Hpre. injection Hp as _ _ _ ->. apply Z.eqb_eq. by apply (strncmp_lit (lit "blk_")); by_decide. }
  destruct (entry_comps s sd ps n HS Hsd Hex) as (_ & _ & Hres & _). rewrite (is_file_eq s sd ps n Hres).
  destruct (files s !! (resolve (current sd) ++ ps ++ [n])) as [[|c]|] eqn:Hf; cbn [andb]; [| |by destruct Hex].
  { exists s. split; [by apply step_refl|]. split; [|done]. intros id ns c HB Hd Hp.
    destruct (st_blocks s B (so_stores s B HS) id ns c HB) as (_ & _ & Hfile & _).
    apply prefix_length_eq in Hp; [|done]. rewrite Hd, <-Hp in Hfile. congruence. }
  destruct (st_only s B (so_stores s B HS) sd NS a b n c Hsd Hf HN Ha Hb Hpre) as (id & ns & HB & Hc & Hd).
  destruct (st_blocks s B (so_stores s B HS) id ns c HB) as (Hid & _). pose proof Hc as Hc'. injection Hc' as _ _ _ Hname.
  rewrite Hname, get_blk_id_ok by done. cbn [mbind option_bind].
  assert (Hpath : dirstr (current sd) ps ++ lit "/" ++ blk_name id = blk_dir (disk s id) ns id).
  { rewrite Hd, blk_dir_str, <-Hc, Hname. change [NS; lit "current"; a; b; blk_name id] with (ps ++ [blk_name id]). by rewrite dirstr_snoc. }
  rewrite Hpath, (blk_dir_fits s B id ns c HS HB). cbn [mbind option_bind]. rewrite (proj2 (id_name_ok id Hid)). cbn [mbind option_bind].
  destruct (block_add_ok garbage s B id ns c nsid HS HR HB) as (s1 & -> & HS1 & HR1 & HG1 & HP1). cbn [mbind option_bind].
  exists s1. split; [done|]. split; [|done]. intros id' ns' c' HB' Hd' Hp'. rewrite (grows_disk s s1 id' HG1) in Hd'.
  apply prefix_length_eq in Hp'; [|done]. assert (id' = id) as ->; [|done].
  destruct (st_blocks s B (so_stores s B HS) id' ns' c' HB') as (Hid' & _). unfold valid_id in *.
  apply (prefix_inj (lit "blk_")); [lia..|]. exact (eq_sym (f_equal (fun l => nth 4 l []) Hp')).
Qed.

(** Going through the names of a directory, each with a step that covers it. *)
Lemma blks_loop_ok NS a b nsid names : forall s sd,
  let ps := [NS; lit "current"; a; b] in
  sound s B -> roomy s B -> sd ∈ g_storage_dir_q s ->
  has_prefix (lit "NS-") NS -> has_prefix (lit "subdir") a -> has_prefix (lit "subdir") b ->
  (forall n, n ∈ names -> has_prefix (lit "blk_") n -> is_Some (files s !! (resolve (current sd) ++ ps ++ [n]))) ->
  exists s', blks_loop garbage names (dirstr (current sd) ps) nsid s = Some s' /\ step s s' /\
    forall n, n ∈ names -> covers (current sd) (ps ++ [n]) s'.
Proof.
  induction names as [|n names IH]; intros s sd ps HS HR Hsd HN Ha Hb Hnames.
  { exists s. split; [done|]. split; [by apply step_refl|]. by intros n ?%elem_of_nil. }
  destruct (blks_name_ok NS a b nsid n names s sd HS HR Hsd HN Ha Hb) as (s1 & Hst & Hcov & Hrun1); [apply Hnames; by left|].
  fold ps in Hrun1, Hcov. rewrite Hrun1.
  pose proof Hst as (HS1 & HR1 & HG1). pose proof HG1 as (F1 & Q1 & _).
  destruct (IH s1 sd HS1 HR1) as (s' & Hrun & Hst' & Hcov'); [by rewrite Q1|done..| |].
  { intros m Hm. rewrite F1. apply Hnames. by right. }
  exists s'. split; [done|]. split; [by eapply step_trans|]. intros m Hm. apply elem_of_cons in Hm as [->|Hm]; [|by apply Hcov'].
  destruct Hst' as (_ & _ & HG'). by eapply covers_grows.
Qed.

Lemma is_dir_some f p n : is_dir f (p ++ [n]) = true -> n <> [46] -> f !! (p ++ [n]) = Some Dir.
Proof.
  unfold is_dir. destruct p as [|a [|b p]]; cbn [app].
  - intros [H|H]%orb_true_iff Hn; by apply bool_decide_eq_true in H.
  - intros H _. by apply bool_decide_eq_true in H.
  - intros H _. by apply bool_decide_eq_true in H.
Qed.

Lemma comps_not_dot ns id n : n ∈ blk_comps ns id -> n <> lit "." /\ n <> lit "..".
Proof. unfold blk_comps. rewrite !elem_of_cons, elem_of_nil. by intros [->|[->|[->|[->|[->|[]]]]]]. Qed.

(** The next component of a block below [ps] is an entry of that directory. *)
Lemma next_entry s id ns c (ps : list name) : sound s B -> B !! id = Some (ns, c) -> ps `prefix_of` blk_comps ns id -> (length ps < 5)%nat ->
  exists n, ps ++ [n] `prefix_of` blk_comps ns id /\
    files s !! (resolve (disk s id) ++ ps ++ [n]) = Some (if (length ps =? 4)%nat then File c else Dir).
Proof.
  intros HS HB [qs Hq] Hl. destruct (st_blocks s B (so_stores s B HS) id ns c HB) as (_ & _ & Hf & Hab).
  assert (Hlen : (length ps + length qs = 5)%nat) by (rewrite <-length_app, <-Hq; done).
  destruct qs as [|n qs]; [cbn in Hlen; lia|]. exists n. split; [exists qs; by rewrite Hq, <-app_assoc|].
  destruct (Nat.eqb_spec (length ps) 4) as [H4|H4].
  - destruct qs; [|cbn in Hlen; lia]. by rewrite <-Hq.
  - specialize (Hab (length ps + 1)%nat). rewrite Hq in Hab. rewrite take_app_add, length_app in Hab. cbn [length take] in Hab, Hlen.
    specialize (Hab ltac:(lia)). rewrite app_assoc in Hab |- *. apply is_dir_some in Hab; [done|].
    assert (Hn : n ∈ blk_comps ns id) by (rewrite Hq; set_solver). by apply comps_not_dot in Hn as [? _].
Qed.

(** [n] is the name of a component of some block below [ps]. *)
Definition on_path (ps : list name) (n : name) : Prop := exists ns id, ps ++ [n] `prefix_of` blk_comps ns id.

Lemma covers_children s cur ps : sound s B -> (length ps < 5)%nat ->
  (forall n, n ∈ readdir (files s) (resolve cur ++ ps) -> on_path ps n -> covers cur (ps ++ [n]) s) -> covers cur ps s.
Proof.
  intros HS Hl Hch id ns c HB Hd Hp. destruct (next_entry s id ns c ps HS HB Hp Hl) as (n & Hn & Hf).
  apply (Hch n) with ns c; try done; [|by exists ns, id]. apply readdir_spec; [..|rewrite <-app_assoc, <-Hd, Hf; eauto];
    apply (comps_not_dot ns id); destruct Hn as [k ->]; set_solver.
Qed.

Lemma on_path_sub ps n : length ps = 2%nat \/ length ps = 3%nat -> on_path ps n -> has_prefix (lit "subdir") n.
Proof.
  assert (H : forall i, has_prefix (lit "subdir") (sub_name i)).
  { intros i. apply Z.eqb_eq. by apply (strncmp_lit (lit "subdir")); by_decide. }
  intros Hl (ns & id & [qs Hq]). destruct ps as [|p1 [|p2 [|p3 [|p4 ps]]]]; cbn [length] in Hl; try (exfalso; lia).
  - pose proof (f_equal (fun l => nth 2 l []) Hq) as E. cbn in E. rewrite <-E. apply H.
  - pose proof (f_equal (fun l => nth 3 l []) Hq) as E. cbn in E. rewrite <-E. apply H.
Qed.

(** A directory that is on the way to a block is no file. *)
Lemma on_path_dir s cur ps n c : sound s B -> (length ps < 4)%nat -> files s !! (resolve cur ++ ps ++ [n]) = Some (File c) -> covers cur (ps ++ [n]) s.
Proof.
  intros HS Hl Hf id ns c' HB Hd Hp. destruct (next_entry s id ns c' ps HS HB) as (m & Hm & Hf'); [|lia|].
  { destruct Hp as [k Hk]. exists ([n] ++ k). by rewrite Hk, <-app_assoc. }
  assert (n = m) as ->. { destruct Hp as [k1 H1], Hm as [k2 H2]. rewrite H1, <-!app_assoc in H2. apply app_inv_head in H2. by injection H2. }
  rewrite Hd in Hf'. rewrite Hf in Hf'. rewrite (proj2 (Nat.eqb_neq _ _)) in Hf' by lia. done.
Qed.

(** What a scan of a directory does. *)
Definition scans (scan : list Z -> Z -> dn -> option (Z * dn)) (sd : storage_dir_t) (ps : list name) : Prop :=
  forall nsid s, sound s B -> roomy s B -> sd ∈ g_storage_dir_q s -> is_dir (files s) (resolve (current sd) ++ ps) = true -> Forall comp ps ->
  exists rc s', scan (dirstr (current sd) ps) nsid s = Some (rc, s') /\ step s s' /\ covers (current sd) ps s'.

Lemma subdirs_scan_ok scan sd ps nsid names : (length ps < 4)%nat -> ps <> [] ->
  (forall n, has_prefix (lit "subdir") n -> scans scan sd (ps ++ [n])) ->
  forall s, sound s B -> roomy s B -> sd ∈ g_storage_dir_q s ->
  (forall n, n ∈ names -> has_prefix (lit "subdir") n -> is_Some (files s !! (resolve (current sd) ++ ps ++ [n]))) ->
  exists s', subdirs_scan scan names (dirstr (current sd) ps) nsid s = Some s' /\ step s s' /\
    forall n, n ∈ names -> has_prefix (lit "subdir") n -> covers (current sd) (ps ++ [n]) s'.
Proof.
  intros Hl Hps Hscan. induction names as [|n names IH]; intros s HS HR Hsd Hnames.
  { exists s. split; [done|]. split; [by apply step_refl|]. by intros n ?%elem_of_nil. }
  assert (H1 : exists s1, step s s1 /\ (has_prefix (lit "subdir") n -> covers (current sd) (ps ++ [n]) s1) /\
    subdirs_scan scan (n :: names) (dirstr (current sd) ps) nsid s = subdirs_scan scan names (dirstr (current sd) ps) nsid s1).
  { cbn [subdirs_scan]. destruct (Z.eqb_spec (Libc.strncmp n (lit "subdir") 6) 0) as [Hpre|Hpre].
    2: { rewrite andb_false_r. by exists s; split; [apply step_refl|]. }
    destruct (entry_comps s sd ps n HS Hsd) as (Hcs & Hcn & Hres & Hlt); [apply Hnames; [by left|done]|]. rewrite (is_file_eq s sd ps n Hres).
    destruct (files s !! (resolve (current sd) ++ ps ++ [n])) as [[|c]|] eqn:Hf; cbn [andb negb].
    - replace (dirstr (current sd) ps ++ lit "/" ++ n) with (dirstr (current sd) (ps ++ [n])) by (by rewrite dirstr_snoc).
      unfold sprintf. unfold path_size in Hlt. rewrite (proj2 (Nat.ltb_lt _ _)) by lia. cbn [mbind option_bind].
      destruct (Hscan n Hpre nsid s HS HR Hsd) as (rc & s1 & -> & Hst & Hcov).
      { destruct ps as [|a ps]; [done|]. unfold is_dir. destruct (resolve (current sd)) as [|r [|r2 rs]]; cbn [app];
          destruct ps; cbn [app]; by apply bool_decide_eq_true. }
      { apply Forall_app. by split; [|constructor]. }
      cbn [mbind option_bind]. by exists s1.
    - exists s. split; [by apply step_refl|]. split; [|done]. intros _. by eapply on_path_dir.
    - destruct (Hnames n) as [? H]; [by left|done|]. by rewrite H in Hf. }
  destruct H1 as (s1 & Hst & Hcov & ->). pose proof Hst as (HS1 & HR1 & HG1). pose proof HG1 as (F1 & Q1 & _).
  destruct (IH s1 HS1 HR1) as (s' & Hrun & Hst' & Hcov'); [by rewrite Q1| |].
  { intros m Hm. rewrite F1. apply Hnames. by right. }
  exists s'. split; [done|]. split; [by eapply step_trans|]. intros m Hm Hp. apply elem_of_cons in Hm as [->|Hm]; [|by apply Hcov'].
  destruct Hst' as (_ & _ & HG'). eapply covers_grows; [done|by apply Hcov].
Qed.

Lemma readdir_entries s sd ps n : n ∈ readdir (files s) (resolve (current sd) ++ ps) -> n <> lit "." -> n <> lit ".." ->
  is_Some (files s !! (resolve (current sd) ++ ps ++ [n])).
Proof. intros H H1 H2. apply readdir_spec in H; [|done..]. by rewrite <-app_assoc in H. Qed.

Lemma subsub_scans sd NS a b : has_prefix (lit "NS-") NS -> has_prefix (lit "subdir") a -> has_prefix (lit "subdir") b ->
  scans (scan_subdir_subdir readdir garbage) sd [NS; lit "current"; a; b].
Proof.
  intros HN Ha Hb nsid s HS HR Hsd Hdir Hcs. set (ps := [NS; lit "current"; a; b]) in *.
  unfold scan_subdir_subdir, opendir. rewrite resolve_dirstr by (done || by apply (di_ne s (so_dirs s B HS))). rewrite Hdir.
  destruct (blks_loop_ok NS a b nsid (readdir (files s) (resolve (current sd) ++ ps)) s sd HS HR Hsd HN Ha Hb) as (s' & Hrun & Hst & Hcov).
  { intros n Hn Hp. by apply readdir_entries; [|intros ->..]. }
  fold ps in Hrun, Hcov. rewrite Hrun. cbn [mbind option_bind]. exists DFS_OK, s'. split; [done|]. split; [done|].
  destruct Hst as (HS' & _ & F & _). apply covers_children; [done|cbn; lia|]. intros n Hn _. apply Hcov. by rewrite <-F.
Qed.

(** A directory of directories. *)
Lemma dir_scans scan sd ps : length ps = 2%nat \/ length ps = 3%nat -> (forall n, has_prefix (lit "subdir") n -> scans scan sd (ps ++ [n])) ->
  scans (fun dir nsid s => if opendir s dir then
    s ← subdirs_scan scan (readdir (files s) (resolve dir)) dir nsid s; Some (DFS_OK, s) else Some (DFS_ERROR, s)) sd ps.
Proof.
  intros Hl Hscan nsid s HS HR Hsd Hdir Hcs. unfold opendir.
  rewrite resolve_dirstr by (done || by apply (di_ne s (so_dirs s B HS))). rewrite Hdir.
  destruct (subdirs_scan_ok scan sd ps nsid (readdir (files s) (resolve (current sd) ++ ps)) ltac:(lia) ltac:(by destruct ps; cbn in Hl; destruct Hl) Hscan s HS HR Hsd)
    as (s' & Hrun & Hst & Hcov).
  { intros n Hn Hp. by apply readdir_entries; [|intros ->..]. }
  rewrite Hrun. cbn [mbind option_bind]. exists DFS_OK, s'. split; [done|]. split; [done|].
  destruct Hst as (HS' & _ & F & _). apply covers_children; [done|lia|]. intros n Hn Hon. apply Hcov; [by rewrite <-F|]. by eapply on_path_sub.
Qed.

Lemma ns_scans sd NS : has_prefix (lit "NS-") NS -> scans (scan_namespace_dir readdir garbage) sd [NS; lit "current"].
Proof.
  intros HN. apply (dir_scans (scan_subdir readdir garbage)); [by left|]. intros a Ha.
  apply (dir_scans (scan_subdir_subdir readdir garbage)); [by right|]. intros b Hb. by apply subsub_scans.
Qed.

(** The namespaces of a storage directory. *)
Lemma namespace_ok n names s sd :
  sound s B -> roomy s B -> sd ∈ g_storage_dir_q s -> (has_prefix (lit "NS-") n -> is_Some (files s !! (resolve (current sd) ++ [n]))) ->
  exists s1, step s s1 /\ (has_prefix (lit "NS-") n -> covers (current sd) [n] s1) /\
    namespaces_loop readdir garbage (n :: names) (current sd) s = namespaces_loop readdir garbage names (current sd) s1.
Proof.
  intros HS HR Hsd Hex. pose proof (di_ne s (so_dirs s B HS) sd Hsd) as Hne.
  cbn [namespaces_loop]. destruct (Z.eqb_spec (Libc.strncmp n (lit "NS-") 3) 0) as [Hpre|Hpre]; [specialize (Hex Hpre)|].
  2: { rewrite andb_false_r. by exists s; split; [apply step_refl|]. }
  destruct (so_bounded s B HS sd [n] Hsd Hex) as (Hcn & Hlt & H19).
  assert (Hcs : Forall comp [n; lit "current"]) by (constructor; [by inversion Hcn|constructor; [apply current_comp|constructor]]).
  unfold is_file.
  destruct (files s !! (resolve (current sd) ++ [n])) as [[|c]|] eqn:Hf; cbn [negb andb]; [| |by destruct Hex].
  2: { exists s. split; [by apply step_refl|]. split; [|done]. intros _. eapply (on_path_dir s _ []); [done|cbn; lia|exact Hf]. }
  specialize (H19 n eq_refl Hpre). unfold get_namespace_id, get_id. rewrite (proj2 (Nat.leb_le _ _)) by (rewrite length_drop; lia). cbn [mbind option_bind].
  assert (Hroot : current sd ++ lit "/" ++ n ++ lit "/current" = dirstr (current sd) [n; lit "current"]).
  { unfold dirstr. cbn [map concat]. by rewrite app_nil_r. }
  rewrite Hroot. unfold sprintf. assert (Hl : (length (dirstr (current sd) [n; lit "current"]) < PATH_LEN)%nat).
  { change [n; lit "current"] with ([n] ++ [lit "current"]). rewrite dirstr_snoc, length_app. unfold path_size in Hlt.
    change (length (SLASH :: lit "current")) with 8%nat. lia. }
  rewrite (proj2 (Nat.ltb_lt _ _) Hl). cbn [mbind option_bind]. unfold atol16. rewrite bool_decide_eq_true_2.
  2: { apply elem_of_app. right. apply elem_of_replicate. split; [done|]. rewrite length_drop. lia. }
  cbn [mbind option_bind]. set (nsid := atol _).
  destruct (is_dir (files s) (resolve (current sd) ++ [n; lit "current"])) eqn:Hdir.
  - destruct (ns_scans sd n Hpre nsid s HS HR Hsd Hdir) as (rc & s1 & -> & Hst & Hcov); [done|].
    cbn [mbind option_bind]. exists s1. split; [done|]. split; [|done]. intros _ id ns c HB Hd Hp. apply (Hcov id ns c HB Hd).
    destruct Hp as [k Hk]. injection Hk as Hn _. rewrite <-Hn. by eexists.
  - unfold scan_namespace_dir, opendir. rewrite resolve_dirstr, Hdir by done. cbn [mbind option_bind].
    exists s. split; [by apply step_refl|]. split; [|done]. intros _ id ns c HB Hd Hp.
    destruct (st_blocks s B (so_stores s B HS) id ns c HB) as (_ & _ & _ & Hab). specialize (Hab 2%nat ltac:(cbn; lia)).
    destruct Hp as [k Hk]. injection Hk as Hn _. rewrite Hd in Hab. cbn [take blk_comps] in Hab. by rewrite Hn, Hdir in Hab.
Qed.

Lemma namespaces_loop_ok names : forall s sd, sound s B -> roomy s B -> sd ∈ g_storage_dir_q s ->
  (forall n, n ∈ names -> has_prefix (lit "NS-") n -> is_Some (files s !! (resolve (current sd) ++ [n]))) ->
  exists s', namespaces_loop readdir garbage names (current sd) s = Some s' /\ step s s' /\
    forall n, n ∈ names -> has_prefix (lit "NS-") n -> covers (current sd) [n] s'.
Proof.
  induction names as [|n names IH]; intros s sd HS HR Hsd Hnames.
  { exists s. split; [done|]. split; [by apply step_refl|]. by intros n ?%elem_of_nil. }
  destruct (namespace_ok n names s sd HS HR Hsd) as (s1 & Hst & Hcov & ->); [apply Hnames; by left|].
  pose proof Hst as (HS1 & HR1 & HG1). pose proof HG1 as (F1 & Q1 & _).
  destruct (IH s1 sd HS1 HR1) as (s' & Hrun & Hst' & Hcov'); [by rewrite Q1| |].
  { intros m Hm. rewrite F1. apply Hnames. by right. }
  exists s'. split; [done|]. split; [by eapply step_trans|]. intros m Hm Hp. apply elem_of_cons in Hm as [->|Hm]; [|by apply Hcov'].
  destruct Hst' as (_ & _ & HG'). eapply covers_grows; [done|by apply Hcov].
Qed.

(** A storage directory. *)
Lemma scan_current_ok s sd : sound s B -> roomy s B -> sd ∈ g_storage_dir_q s ->
  exists rc s', scan_current_dir readdir garbage (current sd) s = Some (rc, s') /\ step s s' /\ covers (current sd) [] s'.
Proof.
  intros HS HR Hsd. unfold scan_current_dir, opendir. destruct (is_dir (files s) (resolve (current sd))) eqn:Hdir.
  - destruct (namespaces_loop_ok (readdir (files s) (resolve (current sd))) s sd HS HR Hsd) as (s' & -> & Hst & Hcov).
    { intros n Hn Hp. apply (readdir_entries s sd [] n); [by rewrite app_nil_r|intros ->; done..]. }
    cbn [mbind option_bind]. exists DFS_OK, s'. split; [done|]. split; [done|].
    destruct Hst as (HS' & _ & F & _). apply covers_children; [done|cbn; lia|]. rewrite app_nil_r. intros n Hn (ns & id & [k Hk]).
    apply Hcov; [by rewrite <-F|]. injection Hk as Hn' _. rewrite <-Hn'. apply Z.eqb_eq. by apply (strncmp_lit (lit "NS-")); by_decide.
  - exists DFS_ERROR, s. split; [done|]. split; [by apply step_refl|]. intros id ns c HB Hd _.
    destruct (st_blocks s B (so_stores s B HS) id ns c HB) as (_ & _ & _ & Hab). specialize (Hab 0%nat ltac:(cbn; lia)).
    cbn [take] in Hab. by rewrite app_nil_r, Hd, Hdir in Hab.
Qed.

Lemma scan_dirs_ok q : forall s, sound s B -> roomy s B -> q ⊆ g_storage_dir_q s ->
  exists s', scan_dirs readdir garbage q s = Some s' /\ step s s' /\ forall sd, sd ∈ q -> covers (current sd) [] s'.
Proof.
  induction q as [|sd q IH]; intros s HS HR Hq; cbn [scan_dirs].
  { exists s. split; [done|]. split; [by apply step_refl|]. by intros n ?%elem_of_nil. }
  destruct (scan_current_ok s sd HS HR) as (rc & s1 & -> & Hst & Hcov); [apply Hq; by left|]. cbn [mbind option_bind].
  pose proof Hst as (HS1 & HR1 & HG1). pose proof HG1 as (F1 & Q1 & _).
  destruct (IH s1 HS1 HR1) as (s' & -> & Hst' & Hcov'). { rewrite Q1. intros e He. apply Hq. by right. }
  exists s'. split; [done|]. split; [by eapply step_trans|]. intros e He. apply elem_of_cons in He as [->|He]; [|by apply Hcov'].
  destruct Hst' as (_ & _ & HG'). by eapply covers_grows.
Qed.

(** One round of the scanner. *)
Lemma scanner_round_ok s : sound s B -> roomy s B ->
  exists s', blk_scanner_round readdir garbage s = Some s' /\ reps s' B /\ roomy s' B /\ grows s s'.
Proof.
  intros HS HR. destruct (scan_dirs_ok (g_storage_dir_q s) s HS HR) as (s' & Hrun & (HS' & HR' & HG) & Hcov); [done|].
  exists s'. split; [done|]. split; [|done]. split; [done|]. intros id [[ns c] HB].
  destruct (st_blocks s B (so_stores s B HS) id ns c HB) as ([Hid _] & _).
  destruct (disk_in s id (so_dirs s B HS) Hid) as (i & sd & Hi & E).
  apply (Hcov sd) with ns c; [by eapply list_elem_of_lookup_2|done| |by exists (blk_comps ns id)].
  by rewrite (grows_disk s s' id HG).
Qed.

End scan.

End DnScan.
