(* ===== verification/DnWrite.v ===== *)
(** * Completing and deleting blocks

    The datanode refines a finite map from identifiers to blocks: a completed
    block is an insertion, a deleted block a deletion.  The files move and go
    with the cache. *)

From Stdlib Require Import ZArith Lia Bool String.
From stdpp Require Import base numbers gmap option list.
From S2P Require Import Prelude Libc CString Mem Hashtable Cache Stdio Posix NnTypes DnStorage DnStorageOk DnScan.

Module DnWrite.
Import NnTypes Cache Stdio Posix DnStorage DnStorageOk DnScan.

(** ** Paths of different directories *)

Lemma dirs_apart s sd se (p q : list name) : dirs_ok s -> sd ∈ g_storage_dir_q s -> se ∈ g_storage_dir_q s ->
  resolve (current sd) ++ p = resolve (current se) ++ q -> sd = se /\ p = q.
Proof.
  intros HD Hd He E. apply list_elem_of_lookup in Hd as [i Hi], He as [j Hj].
  assert (i = j) as ->.
  { destruct (prefix_weak_total (resolve (current sd)) (resolve (current se)) (resolve (current sd) ++ p)) as [H|H];
      [by exists p|by exists q|by apply (di_apart s HD i j sd se)|symmetry; by apply (di_apart s HD j i se sd)]. }
  rewrite Hi in Hj. injection Hj as ->. split; [done|]. by apply app_inv_head in E.
Qed.

Lemma disk_elem s id : dirs_ok s -> 0 <= id -> exists sd, sd ∈ g_storage_dir_q s /\ disk s id = current sd.
Proof. intros HD Hid. destruct (disk_in s id HD Hid) as (i & sd & Hi & E). exists sd. split; [by eapply list_elem_of_lookup_2|done]. Qed.

Lemma blk_comps_inj ns id ns' id' : valid_id ns -> valid_id id -> valid_id ns' -> valid_id id' ->
  blk_comps ns id = blk_comps ns' id' -> ns = ns' /\ id = id'.
Proof.
  unfold valid_id. intros H1 H2 H3 H4 E. split.
  - apply (prefix_inj (lit "NS-")); [lia..|]. exact (f_equal (fun l => nth 0 l []) E).
  - apply (prefix_inj (lit "blk_")); [lia..|]. exact (f_equal (fun l => nth 4 l []) E).
Qed.

(** Two blocks have different files. *)
Lemma blk_path_inj s B id ns c id' ns' c' : sound s B -> B !! id = Some (ns, c) -> B !! id' = Some (ns', c') ->
  resolve (disk s id) ++ blk_comps ns id = resolve (disk s id') ++ blk_comps ns' id' -> id = id'.
Proof.
  intros HS HB HB' E. destruct (st_blocks s B (so_stores s B HS) id ns c HB) as (V1 & V2 & _).
  destruct (st_blocks s B (so_stores s B HS) id' ns' c' HB') as (V3 & V4 & _). pose proof (so_dirs s B HS) as HD.
  destruct (disk_elem s id HD ltac:(apply V1)) as (sd & Hd & Ed), (disk_elem s id' HD ltac:(apply V3)) as (se & He & Ee).
  rewrite Ed, Ee in E. apply (dirs_apart s sd se) in E as [_ E]; [|done..]. by apply blk_comps_inj in E as [_ E].
Qed.

(** Directories stay when files come and go. *)
Definition dirs_kept (f f' : fs) : Prop := forall p, f !! p = Some Dir -> f' !! p = Some Dir.

Lemma above_kept f f' p ps : dirs_kept f f' -> above f p ps -> above f' p ps.
Proof.
  intros HK HA k Hk. specialize (HA k Hk). revert HA. unfold is_dir. generalize (p ++ take k ps). intros [|a [|b l]]; [done|..].
  - intros [H|H]%orb_true_iff; apply orb_true_iff; [by left|right]. apply bool_decide_eq_true in H. by apply bool_decide_eq_true, HK.
  - intros H%bool_decide_eq_true. by apply bool_decide_eq_true, HK.
Qed.

(** ** A completed block *)

Section completed.

Context (s : dn) (B : block_map) (id ns : Z) (c : list Z).
Hypothesis HS : sound s B.
Hypothesis Hid : valid_id id.
Hypothesis Hns : valid_id ns.
Hypothesis Hnew : B !! id = None.

Let final := resolve (disk s id) ++ blk_comps ns id.
Let tmp := resolve (disk s id) ++ [ns_name ns; lit "blocksBeingWritten"; blk_name id].
Let f' : fs := <[final := File c]> (delete tmp (files s)).

Hypothesis Htmp : files s !! tmp = Some (File c).
Hypothesis Hfree : files s !! final = None.
Hypothesis Habove : above (files s) (resolve (disk s id)) (blk_comps ns id).
Hypothesis Hfits : (path_size (disk s id) (blk_comps ns id) + 8 < PATH_LEN)%nat.

Lemma moved_kept : dirs_kept (files s) f'.
Proof.
  intros p Hp. unfold f'. rewrite lookup_insert_ne by (intros <-; congruence). rewrite lookup_delete_ne by (intros <-; congruence). done.
Qed.

Lemma moved_lookup p n : f' !! p = Some n -> p = final /\ n = File c \/ p <> final /\ p <> tmp /\ files s !! p = Some n.
Proof.
  unfold f'. intros [[<- <-]|[N H]]%lookup_insert_Some; [by left|]. apply lookup_delete_Some in H as [N' H]. right. done.
Qed.

Lemma moved_stores : stores (set_files s f') (<[id := (ns, c)]> B).
Proof.
  pose proof (so_dirs s B HS) as HD. destruct (disk_elem s id HD ltac:(apply Hid)) as (sd & Hsd & Ed). split.
  - intros id' ns' c' [[<- E]|[Ni HB]]%lookup_insert_Some.
    + injection E as <- <-. do 2 (split; [done|]). split; [apply lookup_insert_eq|]. eapply above_kept; [exact moved_kept|done].
    + destruct (st_blocks s B (so_stores s B HS) id' ns' c' HB) as (V1 & V2 & Hf & Ha). do 2 (split; [done|]).
      split; [|eapply above_kept; [exact moved_kept|done]]. cbn [files set_files]. change (disk (set_files s f') id') with (disk s id').
      unfold f'. rewrite lookup_insert_ne; [rewrite lookup_delete_ne; [done|]|].
      * intros E. destruct (disk_elem s id' HD ltac:(apply V1)) as (se & Hse & Ee). unfold tmp in E. rewrite Ed, Ee in E.
        apply (dirs_apart s sd se) in E as [_ E]; [|done..]. discriminate (f_equal length E).
      * intros E. rewrite <-E in Hf. congruence.
  - intros se NS a b n c' Hse Hf HN Ha Hb Hn. cbn [files set_files g_storage_dir_q] in *.
    apply moved_lookup in Hf as [[E Ec]|(_ & _ & Hf)].
    + exists id, ns. injection Ec as ->. split; [apply lookup_insert_eq|]. unfold final in E. rewrite Ed in E.
      apply (dirs_apart s se sd) in E as [-> E]; done.
    + destruct (st_only s B (so_stores s B HS) se NS a b n c' Hse Hf HN Ha Hb Hn) as (id' & ns' & HB & E & Hd). exists id', ns'.
      split; [|done]. rewrite lookup_insert_ne; [done|]. intros <-. congruence.
Qed.

Lemma moved_bounded : bounded (set_files s f').
Proof.
  pose proof (so_dirs s B HS) as HD. destruct (disk_elem s id HD ltac:(apply Hid)) as (sd & Hsd & Ed).
  intros se p Hse [n Hp]. cbn [files set_files g_storage_dir_q] in *. apply moved_lookup in Hp as [[E _]|(_ & _ & Hp)].
  - unfold final in E. rewrite Ed in E. apply (dirs_apart s se sd) in E as [-> ->]; [|done..].
    split; [|split; [by rewrite <-Ed|done]]. destruct (sub_range id ltac:(apply Hid)) as [[? _] [? _]]. unfold blk_comps.
    do 5 (apply Forall_cons; split; [first [apply ns_name_comp, Hns|by apply sub_name_comp|apply blk_name_comp, Hid|apply current_comp]|]). done.
  - apply (so_bounded s B HS se p Hse). eauto.
Qed.

(** What the cache says of the old blocks stays true. *)
Lemma moved_sound : sound (set_files s f') (<[id := (ns, c)]> B).
Proof.
  pose proof moved_stores. pose proof moved_bounded. destruct HS as [HD HSt HBd HC HI Hob HL Hon Hnum].
  split; try done; [by apply (dirs_same s)|]. intros x k Hx. destruct (Hob x k Hx) as (ns' & c' & HB & E).
  exists ns', c'. split; [|exact E]. rewrite lookup_insert_ne; [done|]. intros E'. rewrite <-E' in HB. congruence.
Qed.

End completed.

Lemma roomy_disk s B f : roomy s B -> roomy (set_files s f) B.
Proof. done. Qed.

(** A new object with its place in the queue of received blocks. *)
Lemma recv_report_ok s B id ns c : sound s B -> roomy s B -> B !! id = Some (ns, c) -> ~ present s id ->
  forall r, block_id r = id -> r_len r = Z.of_nat (length c) -> r_path r = blk_dir (disk s id) ns id ->
  exists x s', recv_blk_report s r = Some (DFS_OK, s') /\ sound s' B /\ roomy s' B /\ keeps s s' /\
    objs (g_dn_bcm s') !! x = Some (Bi id (Z.of_nat (length c)) (blk_dir (disk s id) ns id)) /\
    que (g_recv_blk_report s') = que (g_recv_blk_report s) ++ [x] /\ g_blk_report s' = g_blk_report s.
Proof.
  intros HS HR HB Hno r Ei El Ep. unfold recv_blk_report, new_block. rewrite Ei, El, Ep, (blk_dir_fits s B id ns c HS HB). cbn [mbind option_bind].
  pose proof (roomy_free s B id HS HR ltac:(eauto) Hno) as Hfree. destruct (free (g_dn_bcm s)) as [|x fr] eqn:Ef; [done|].
  destruct (add_ok (g_dn_bcm s) (Bi id (Z.of_nat (length c)) (blk_dir (disk s id) ns id)) x fr (so_cache s B HS) Ef) as (c' & -> & HO & Hx & Ho & Hfr & _).
  cbn [mbind option_bind]. assert (Hq : x ∉ que (g_recv_blk_report s) ++ que (g_blk_report s)).
  { intros Hin. apply (so_live s B HS) in Hin. by rewrite Hx in Hin. }
  rewrite !bool_decide_eq_false_2 by (intros Hin; apply Hq, elem_of_app; auto). cbn [orb mbind option_bind].
  destruct (sound_added s B x fr c' id ns c HS HR HB Hno Ef HO Hx Ho Hfr) as (HS1 & HR1 & HG1 & HP1).
  exists x. eexists. split; [reflexivity|].
  assert (Hl : objs (g_dn_bcm (set_bcm s c')) !! x = Some (Bi id (Z.of_nat (length c)) (blk_dir (disk s id) ns id))) by (cbn; by rewrite Ho, lookup_insert_eq).
  destruct (so_num s B HS) as [N1 N2]. split; [|done].
  pose proof (sound_queued (set_bcm s c') B (report_add (g_recv_blk_report s) x) (g_blk_report s) x [x] [] HS1 ltac:(eauto) Hq) as Hfin.
  apply Hfin; [done|by rewrite app_nil_r|auto| |done]. cbn. rewrite length_app. cbn. lia.
Qed.

Lemma absent_not_present s B id : sound s B -> B !! id = None -> ~ present s id.
Proof. intros HS HB (x & k & Hx & <-). destruct (so_objs s B HS x k Hx) as (ns & c & HB' & _). congruence. Qed.

Lemma parent_blk p ns id : parent (p ++ blk_comps ns id) = p ++ take 4 (blk_comps ns id).
Proof.
  change (blk_comps ns id) with (take 4 (blk_comps ns id) ++ [blk_name id]) at 1. rewrite app_assoc. apply parent_app.
Qed.

(** What [write_block_done] needs: the file in its place for blocks that are
    being written, the directories of the namespace, room for the new path. *)
Record ready (s : dn) (r : dn_request_t) (c : list Z) : Prop := {
  rd_id : valid_id (block_id r);
  rd_ns : valid_id (namespace_id r);
  rd_len : r_len r = Z.of_nat (length c);
  rd_path : r_path r = tmp_dir (disk s (block_id r)) (namespace_id r) (block_id r);
  rd_file : files s !! resolve (r_path r) = Some (File c);
  rd_above : above (files s) (resolve (disk s (block_id r))) (blk_comps (namespace_id r) (block_id r));
  rd_free : files s !! (resolve (disk s (block_id r)) ++ blk_comps (namespace_id r) (block_id r)) = None;
  rd_fits : (path_size (disk s (block_id r)) (blk_comps (namespace_id r) (block_id r)) + 8 < PATH_LEN)%nat
}.

(** The rename succeeds; the rest depends on the memory of the path. *)
Lemma write_done_eq s B r c : sound s B -> ready s r c ->
  write_block_done s r = (path ← sprintf (r_cap r) (blk_dir (disk s (block_id r)) (namespace_id r) (block_id r));
    recv_blk_report (set_files s (<[resolve (disk s (block_id r)) ++ blk_comps (namespace_id r) (block_id r) := File c]> (delete (resolve (r_path r)) (files s))))
      (Req (block_id r) (namespace_id r) (r_len r) path (r_cap r))).
Proof.
  intros HS [Hid Hns Hl Hp Hf Ha Hfr Hfit]. set (id := block_id r) in *. set (ns := namespace_id r) in *.
  pose proof (so_dirs s B HS) as HD. assert (Hne : disk s id <> []) by (apply disk_ne; [done|apply Hid]).
  assert (Hblk : resolve (blk_dir (disk s id) ns id) = resolve (disk s id) ++ blk_comps ns id) by (apply resolve_blk_dir; [done|apply Hns|apply Hid]).
  assert (Hlen : (length (blk_dir (disk s id) ns id) < PATH_LEN)%nat) by (rewrite blk_dir_str; unfold path_size in Hfit; lia).
  unfold write_block_done. fold id ns. rewrite get_disk_ok by (done || apply Hid). cbn [mbind option_bind].
  assert (sprintf PATH_LEN (blk_dir (disk s id) ns id) = Some (blk_dir (disk s id) ns id)) as -> by (unfold sprintf; by rewrite (proj2 (Nat.ltb_lt _ _) Hlen)). cbn [mbind option_bind].
  unfold rename. rewrite Hf, Hblk, Hfr. cbn [negb bool_decide]. rewrite bool_decide_eq_false_2 by done. cbn [negb andb].
  rewrite parent_blk. by rewrite (Ha 4%nat) by (cbn; lia).
Qed.

Lemma write_done_short s B r c : sound s B -> ready s r c ->
  (r_cap r <= length (blk_dir (disk s (block_id r)) (namespace_id r) (block_id r)))%nat -> write_block_done s r = None.
Proof. intros HS HY Hcap. rewrite (write_done_eq s B r c HS HY). unfold sprintf. by rewrite (proj2 (Nat.ltb_ge _ _) Hcap). Qed.

Lemma write_done_ok s B r c :
  reps s B -> ready s r c -> B !! block_id r = None -> (length (blk_dir (disk s (block_id r)) (namespace_id r) (block_id r)) < r_cap r)%nat ->
  roomy s (<[block_id r := (namespace_id r, c)]> B) ->
  exists x s', write_block_done s r = Some (DFS_OK, s') /\ reps s' (<[block_id r := (namespace_id r, c)]> B) /\ roomy s' (<[block_id r := (namespace_id r, c)]> B) /\
    que (g_recv_blk_report s') = que (g_recv_blk_report s) ++ [x] /\ g_blk_report s' = g_blk_report s /\
    objs (g_dn_bcm s') !! x = Some (Bi (block_id r) (r_len r) (blk_dir (disk s (block_id r)) (namespace_id r) (block_id r))) /\
    files s' = <[resolve (disk s (block_id r)) ++ blk_comps (namespace_id r) (block_id r) := File c]> (delete (resolve (r_path r)) (files s)).
Proof.
  intros [HS HP] HY Hnew Hcap HR. rewrite (write_done_eq s B r c HS HY). destruct HY as [Hid Hns Hl Hp Hf Ha Hfr Hfit].
  set (id := block_id r) in *. set (ns := namespace_id r) in *.
  assert (Htmp : resolve (r_path r) = resolve (disk s id) ++ [ns_name ns; lit "blocksBeingWritten"; blk_name id]).
  { rewrite Hp. apply resolve_tmp_dir; [apply disk_ne; [apply (so_dirs s B HS)|apply Hid]|apply Hns|apply Hid]. }
  unfold sprintf. rewrite (proj2 (Nat.ltb_lt _ _) Hcap). cbn [mbind option_bind].
  rewrite Htmp in Hf |- *. pose proof (moved_sound s B id ns c HS Hid Hns Hnew Hf Hfr Ha Hfit) as HS1.
  set (s1 := set_files s _) in *. set (B1 := <[id := (ns, c)]> B) in *.
  destruct (recv_report_ok s1 B1 id ns c HS1 HR ltac:(apply lookup_insert_eq) (absent_not_present s B id HS Hnew)
    (Req id ns (r_len r) (blk_dir (disk s id) ns id) (r_cap r)) eq_refl Hl eq_refl) as (x & s' & -> & HS' & HR' & HG & Hx & Hq1 & Hq2).
  exists x, s'. split; [done|]. rewrite Hl. split; [|split; [done|split; [done|split; [done|split; [done|apply HG]]]]]. split; [done|].
  intros id' [[ns' c'] HB']. apply lookup_insert_Some in HB' as [[<- _]|[_ HB']]; [by exists x; eexists|].
  destruct HG as (_ & _ & _ & HG). apply HG. apply HP. eauto.
Qed.

(** ** A deleted block *)

Lemma removed_kept (f : fs) p c : f !! p = Some (File c) -> dirs_kept f (delete p f).
Proof. intros Hf q Hq. rewrite lookup_delete_ne; [done|]. intros <-. congruence. Qed.

Lemma removed_stores s B id ns c : sound s B -> B !! id = Some (ns, c) ->
  let f := delete (resolve (disk s id) ++ blk_comps ns id) (files s) in
  stores (set_files s f) (delete id B) /\ bounded (set_files s f).
Proof.
  intros HS HB f. destruct (st_blocks s B (so_stores s B HS) id ns c HB) as (V1 & V2 & Hf & _).
  pose proof (removed_kept _ _ c Hf) as HK. fold f in HK. split; [split|].
  - intros id' ns' c' [Ni HB']%lookup_delete_Some. destruct (st_blocks s B (so_stores s B HS) id' ns' c' HB') as (V3 & V4 & Hf' & Ha).
    do 2 (split; [done|]). split; [|by eapply above_kept]. cbn [files set_files]. change (disk (set_files s f) id') with (disk s id').
    unfold f. rewrite lookup_delete_ne; [done|]. intros E. apply Ni. by eapply blk_path_inj.
  - intros sd NS a b n c' Hsd Hf' HN Ha Hb Hn. cbn [g_storage_dir_q files set_files] in Hsd, Hf'. apply lookup_delete_Some in Hf' as [N Hf'].
    destruct (st_only s B (so_stores s B HS) sd NS a b n c' Hsd Hf' HN Ha Hb Hn) as (id' & ns' & HB' & E & Hd). exists id', ns'.
    split; [|done]. rewrite lookup_delete_ne; [done|]. intros <-. apply N. rewrite HB in HB'. injection HB' as <- <-. by rewrite E, Hd.
  - intros sd p Hsd [n Hp]. cbn [files set_files] in Hp. apply lookup_delete_Some in Hp as [_ Hp]. apply (so_bounded s B HS sd p Hsd). eauto.
Qed.

Lemma block_del_ok s B id ns c : reps s B -> B !! id = Some (ns, c) ->
  (forall x k, objs (g_dn_bcm s) !! x = Some k -> b_id k = id -> x ∉ que (g_recv_blk_report s) ++ que (g_blk_report s)) ->
  exists s', block_object_del s id = Some (DFS_OK, s') /\ reps s' (delete id B) /\
    files s' = delete (resolve (disk s id) ++ blk_comps ns id) (files s) /\
    g_recv_blk_report s' = g_recv_blk_report s /\ g_blk_report s' = g_blk_report s /\ objs (g_dn_bcm s') ⊆ objs (g_dn_bcm s).
Proof.
  intros [HS HP] HB Hq. destruct (HP id ltac:(eauto)) as (x & k & Hx & Hk).
  destruct (so_objs s B HS x k Hx) as (ns' & c' & HB' & Ek). rewrite Hk in HB', Ek. rewrite HB in HB'. injection HB' as <- <-.
  destruct (st_blocks s B (so_stores s B HS) id ns c HB) as (V1 & V2 & Hf & _).
  pose proof (get_block_found _ x k (so_cache s B HS) (sound_ids s B HS) Hx) as Hg. rewrite Hk in Hg.
  unfold block_object_del, block_object_get. rewrite Hg.
  cbn [mbind option_bind]. rewrite Hx. cbn [mbind option_bind].
  destruct (del_ok (g_dn_bcm s) x k (so_cache s B HS) Hx) as (c' & -> & HO & Ho & Hfr & _). cbn [mbind option_bind].
  rewrite Ek. cbn [b_path]. unfold unlink. rewrite resolve_blk_dir, Hf; [|by apply disk_ne; [apply (so_dirs s B HS)|apply V1]|apply V2|apply V1].
  cbn [default]. destruct (removed_stores s B id ns c HS HB) as [HSt HBd]. set (f := delete _ (files s)) in *.
  eexists. split; [reflexivity|]. split; [|do 3 (split; [done|]); cbn; rewrite Ho; apply delete_subseteq]. specialize (Hq x k Hx Hk). destruct HS as [HD _ _ HC HI Hob HL Hon Hnum]. split.
  - split; try done; [by apply (dirs_same s)|by apply (files_same (set_files s f))..| | |]; cbn [g_dn_bcm set_bcm set_files].
    + intros y z l m. rewrite Ho, !lookup_delete_Some. intros [_ Hy] [_ Hz]. by apply HI.
    + intros y l. rewrite Ho, lookup_delete_Some. intros [N Hy]. destruct (Hob y l Hy) as (ns' & c'' & HB' & E). exists ns', c''.
      split; [|exact E]. rewrite lookup_delete_ne; [done|]. intros E'. apply N. apply (HI x y k l Hx Hy). congruence.
    + intros y Hy. rewrite Ho, lookup_delete_ne; [by apply HL|]. intros <-. by apply Hq.
  - intros id' [[ns' c''] [N HB']%lookup_delete_Some]. destruct (HP id' ltac:(eauto)) as (y & l & Hy & <-). exists y, l. split; [|done].
    cbn. rewrite Ho, lookup_delete_ne; [done|]. intros <-. congruence.
Qed.

(** A block the datanode does not have. *)
Lemma block_del_absent s B id : reps s B -> valid_id id -> B !! id = None -> block_object_del s id = Some (DFS_ERROR, s).
Proof.
  intros [HS HP] Hid HB. unfold block_object_del, block_object_get. rewrite get_block_absent; [done|apply (so_cache s B HS)|by eapply sound_ids|done|].
  intros x k Hx E. apply (absent_not_present s B id HS HB). by exists x, k.
Qed.

End DnWrite.
