(* ===== verification/DnService.v ===== *)
(** * The datanode's service of a namenode: src/datanode/dn_ns_service.c

    A datanode registers with the namenode, sends heartbeats, whose answers
    list blocks to delete, and reports the blocks of its two queues.  Each is
    an exchange of frames over a socket.  The other side is a parameter: a
    state and what it answers to a frame. *)

From Stdlib Require Import ZArith Lia Bool String.
From stdpp Require Import base numbers gmap option list.
From S2P Require Import Prelude Libc CString Mem Buffer Task Hashtable Cache Stdio Posix NnTypes DnStorage.

Module DnService.
Import NnTypes Cache Stdio Posix DnStorage Mem Task.

Definition BUF_SZ : nat := 4096.

(** ** Frames *)

(** Bytes that are somewhere in memory. *)
Definition bytes_at (a : Z) (bs : list Z) : mem := list_to_map (imap (fun i b => (a + Z.of_nat i, b)) bs).

(** Addresses of the arrays on the stack and of the answer on the heap. *)
Definition RBI : Z := 2048.
Definition SBUF : Z := 4096.
Definition RBUF : Z := 16384.
Definition PNEXT : Z := 32768.

(** A zeroed task with its command and the address of the datanode. *)
Definition out_task (cmd : Z) (listening_ip : list Z) (len data : Z) : option task_t :=
  key ← sprintf KEY_LEN listening_ip;
  Some (Tsk cmd 0 0 0 0 0 (key ++ replicate (KEY_LEN - length key) 0) (replicate OWNER_LEN 0) (replicate GROUP_LEN 0) 0 0 len 0 data).

(** [task_encode2str] to [sBuf]; [payload] is what [data] points to. *)
Definition encode_out (t : task_t) (payload : list Z) : option (list Z) :=
  '(sLen, m) ← task_encode2str (bytes_at SBUF (replicate BUF_SZ 0) ∪ bytes_at (data t) payload) t SBUF (Z.of_nat BUF_SZ);
  rd m SBUF (Z.to_nat sLen).

(** What a write of a frame and the read of its answer give: the write is
    short or fails, the read fails, or the bytes that can be read. *)
Inductive exchange := WriteErr | ReadErr | Answer (bs : list Z).

Section service.

Context {P : Type}.
Variable net : P -> list Z -> P * exchange.
Variable listening_ip : list Z.

(** The answer in the zeroed array [rBuf], decoded to a zeroed task. *)
Definition answer_task (bs : list Z) : option task_t :=
  let got := take BUF_SZ bs in
  '(_, in_t) ← task_decodefstr (bytes_at RBUF (got ++ replicate (BUF_SZ - length got) 0)) RBUF (Z.of_nat (length got)) task_clear;
  Some in_t.

(** ** Registration and heartbeat *)

(** The answer on the heap: its first four bytes say how many to read. *)
Definition heap_answer (bs : list Z) : option (option (mem * task_t)) :=
  let pLen := s32 (le_dec (take 4 bs)) in
  if pLen <? 0 then Some None else
  let got := take (Z.to_nat pLen) bs in
  let m := bytes_at PNEXT got in
  '(_, in_t) ← task_decodefstr m PNEXT (Z.of_nat (length got)) task_clear;
  Some (Some (m, in_t)).

(** [Some None]: the registration failed; the namespace stays what it was when
    the answer has no data. *)
Definition dn_register (namespaceID : Z) (p : P) : option (option Z * P) :=
  t ← out_task DN_REGISTER listening_ip 0 0;
  frame ← encode_out t [];
  let '(p, e) := net p frame in
  match e with
  | WriteErr | ReadErr => Some (None, p)
  | Answer bs =>
      a ← heap_answer bs;
      match a with
      | None => Some (None, p)
      | Some (m, in_t) =>
          if negb (ret in_t =? DFS_OK) then Some (None, p)
          else if negb (data in_t =? 0) && (0 <? data_len in_t)
          then bs ← rd m (data in_t) 8; Some (Some (swrap 64 (le_dec bs)), p)
          else Some (Some namespaceID, p)
      end
  end.

(** [len] is signed: the last identifier is read in full even when fewer than
    8 bytes are left. *)
Fixpoint delete_blks (fuel : nat) (m : mem) (p len : Z) (s : dn) : option (Z * dn) :=
  match fuel with
  | O => None
  | S fuel' =>
      if len <=? 0 then Some (DFS_OK, s) else
      blk_id ← rd m p 8;
      '(_, s) ← block_object_del s (s64 (le_dec blk_id));
      delete_blks fuel' m (p + 8) (len - 8) s
  end.

Definition send_heartbeat (p : P) (s : dn) : option (Z * P * dn) :=
  t ← out_task DN_HEARTBEAT listening_ip 0 0;
  frame ← encode_out t [];
  let '(p, e) := net p frame in
  match e with
  | WriteErr | ReadErr => Some (DFS_ERROR, p, s)
  | Answer bs =>
      a ← heap_answer bs;
      match a with
      | None => Some (DFS_ERROR, p, s)
      | Some (m, in_t) =>
          if negb (ret in_t =? DFS_OK) then Some (DFS_ERROR, p, s)
          else if negb (data in_t =? 0) && (0 <? data_len in_t)
          then '(_, s) ← delete_blks (S (Z.to_nat (data_len in_t))) m (data in_t) (data_len in_t) s; Some (DFS_OK, p, s)
          else Some (DFS_OK, p, s)
      end
  end.

(** ** Reports *)

(** The head of a queue: the block whose report is sent next. *)
Definition report_pop (s : dn) (r : blk_report_t) : option (Z * Z * blk_report_t) :=
  match que r with
  | [] => None
  | x :: q => k ← objs (g_dn_bcm s) !! x; Some (b_id k, b_size k, Rep q (num r - 1))
  end.

(** The [report_blk_info_t] of a report. *)
Definition report_bytes (blk_id blk_sz : Z) : option (list Z) :=
  ip ← sprintf 32 listening_ip;
  Some (le_enc 8 blk_id ++ le_enc 8 blk_sz ++ ip ++ replicate (32 - length ip) 0).

(** The result of an exchange of a report. *)
Definition outcome (e : exchange) : option Z :=
  match e with
  | WriteErr | ReadErr => Some DFS_ERROR
  | Answer bs => in_t ← answer_task bs; Some (if ret in_t =? DFS_OK then DFS_OK else DFS_ERROR)
  end.

(** The report is sent and answered. *)
Definition send_report (cmd blk_id blk_sz : Z) (p : P) : option (Z * P) :=
  t ← out_task cmd listening_ip 48 RBI;
  rbi ← report_bytes blk_id blk_sz;
  frame ← encode_out t rbi;
  let r := net p frame in
  rc ← outcome r.2; Some (rc, r.1).

Definition receivedblock_report (p : P) (s : dn) : option (Z * P * dn) :=
  '(i, z, r) ← report_pop s (g_recv_blk_report s);
  let s := set_recv s r in
  '(rc, p) ← send_report DN_RECV_BLK_REPORT i z p; Some (rc, p, s).

Definition block_report (p : P) (s : dn) : option (Z * P * dn) :=
  '(i, z, r) ← report_pop s (g_blk_report s);
  let s := set_report s r in
  '(rc, p) ← send_report DN_BLK_REPORT i z p; Some (rc, p, s).

(** One turn of the loop of [offer_service]; [due]: the heartbeat interval is
    over.  [DFS_ERROR] ends the loop and closes the connection. *)
Definition service_turn (due : bool) (p : P) (s : dn) : option (Z * P * dn) :=
  '(rc, p, s) ← (if due then send_heartbeat p s else Some (DFS_OK, p, s));
  if negb (rc =? DFS_OK) then Some (DFS_ERROR, p, s) else
  '(rc, p, s) ← (if 0 <? num (g_recv_blk_report s) then receivedblock_report p s else Some (DFS_OK, p, s));
  if negb (rc =? DFS_OK) then Some (DFS_ERROR, p, s) else
  '(rc, p, s) ← (if 0 <? num (g_blk_report s) then block_report p s else Some (DFS_OK, p, s));
  if negb (rc =? DFS_OK) then Some (DFS_ERROR, p, s) else Some (DFS_OK, p, s).

(** [offer_service] for as many turns as [dues] has entries. *)
Fixpoint offer_service (dues : list bool) (p : P) (s : dn) : option (Z * P * dn) :=
  match dues with
  | [] => Some (DFS_OK, p, s)
  | due :: dues' =>
      '(rc, p, s) ← service_turn due p s;
      if negb (rc =? DFS_OK) then Some (DFS_ERROR, p, s) else offer_service dues' p s
  end.

End service.
End DnService.
