(* ===== verification/DnServiceOk.v ===== *)
(** * The datanode's service of a namenode: correctness

    The frames a datanode sends decode to what it means; the queues of blocks
    to report are drained; after a restart and one scan the namenode is told
    of every block. *)

From Stdlib Require Import ZArith Lia Bool String.
From stdpp Require Import base numbers gmap option list.
From S2P Require Import Prelude Libc CString Mem Buffer Task Hashtable Cache Stdio Posix NnTypes DnStorage DnStorageOk DnScan DnWrite DnService.

Module DnServiceOk.
Import NnTypes Cache Stdio Posix DnStorage DnStorageOk DnScan DnWrite DnService Mem Task.

(** ** Bytes in memory *)

Lemma bytes_at_lookup a bs i : bytes_at a bs !! i = if decide (a <= i) then bs !! Z.to_nat (i - a) else None.
Proof.
  assert (Hnd : NoDup ((imap (fun i b => (a + Z.of_nat i, b)) bs).*1)).
  { rewrite fmap_imap. rewrite (imap_ext _ (fun i _ => a + Z.of_nat i)) by done.
    apply NoDup_alt. intros j k x. rewrite !list_lookup_imap, !fmap_Some. intros (? & _ & ->) (? & _ & E). lia. }
  apply option_eq. intros b. unfold bytes_at. rewrite <-elem_of_list_to_map by done. rewrite list_elem_of_lookup. split.
  - intros [j Hj]. rewrite list_lookup_imap in Hj. apply fmap_Some in Hj as (b' & Hb & E). injection E as -> ->.
    rewrite decide_True by lia. by replace (Z.to_nat (a + Z.of_nat j - a)) with j by lia.
  - case_decide; [|done]. intros Hb. exists (Z.to_nat (i - a)). rewrite list_lookup_imap, Hb. cbn. do 2 f_equal. lia.
Qed.

Lemma rd_lookups (m : mem) bs : forall a, (forall j b, bs !! j = Some b -> m !! (a + Z.of_nat j) = Some b) -> rd m a (length bs) = Some bs.
Proof.
  induction bs as [|b bs IH]; intros a H; [done|]. cbn [length rd].
  pose proof (H 0%nat b eq_refl) as H0. rewrite Z.add_0_r in H0. rewrite H0. cbn [mbind option_bind]. rewrite IH; [done|].
  intros j b' Hj. replace (a + 1 + Z.of_nat j) with (a + Z.of_nat (S j)) by lia. by apply H.
Qed.

Lemma rd_bytes_at m a bs : rd (bytes_at a bs ∪ m) a (length bs) = Some bs.
Proof.
  apply rd_lookups. intros j b Hj. apply lookup_union_Some_l. rewrite bytes_at_lookup, decide_True by lia.
  by replace (Z.to_nat (a + Z.of_nat j - a)) with j by lia.
Qed.

(** ** Frames *)

Definition frame_bytes (t : task_t) (payload : list Z) : list Z :=
  le_enc 4 (344 + data_len t) ++ task_bytes t ++ le_enc 4 (data_len t) ++ payload.

Lemma frame_len_bytes t p : task_ok t -> length (frame_bytes t p) = (4 + (sizeof_task_t + (4 + length p)))%nat.
Proof. intros OK. unfold frame_bytes. autorewrite with enc_len. by rewrite task_bytes_length. Qed.

Lemma encode_out_ok t p : task_ok t -> data_len t = Z.of_nat (length p) -> (length p <= 64)%nat -> data t = RBI \/ data t = 0 /\ p = [] ->
  encode_out t p = Some (frame_bytes t p).
Proof.
  intros OK L Hp Hd. unfold encode_out. set (m := bytes_at SBUF _ ∪ _).
  assert (Hs : sendable m t p).
  { split; [done|]. split; [done|]. split; [unfold frame_len; lia|]. destruct Hd as [Hd|[_ ->]]; [|done]. apply rd_lookups. intros j b Hj.
    pose proof (lookup_lt_Some _ _ _ Hj). unfold m. rewrite lookup_union_r.
    - rewrite bytes_at_lookup, decide_True by lia. by replace (Z.to_nat (data t + Z.of_nat j - data t)) with j by lia.
    - rewrite bytes_at_lookup, decide_False; [done|]. rewrite Hd. unfold RBI, SBUF. lia. }
  destruct (encode_frame m t p SBUF (Z.of_nat BUF_SZ) Hs) as (m' & -> & HF & _).
  - unfold frame_len. change (Z.of_nat BUF_SZ) with 4096. lia.
  - intros i Hi. unfold m. apply lookup_union_is_Some. left. rewrite bytes_at_lookup, decide_True by lia. apply lookup_lt_is_Some.
    rewrite length_replicate. lia.
  - unfold apart. destruct Hd as [-> |[-> ->]]; unfold RBI, SBUF; [right|right]; cbn [length]; lia.
  - cbn [mbind option_bind]. unfold frame_at in HF. fold (frame_bytes t p) in HF. rewrite <-HF. f_equal. unfold frame_len, sizeof_task_t. lia.
Qed.

(** The namenode's view of a frame: the command and the data. *)
Definition open_frame (f : list Z) : option (Z * list Z) :=
  '(_, t) ← task_decodefstr (bytes_at SBUF f) SBUF (Z.of_nat (length f)) task_clear;
  d ← (if 0 <? data_len t then rd (bytes_at SBUF f) (data t) (Z.to_nat (data_len t)) else Some []);
  Some (cmd t, d).

Lemma open_frame_bytes t p : task_ok t -> data_len t = Z.of_nat (length p) -> (length p <= 64)%nat -> open_frame (frame_bytes t p) = Some (cmd t, p).
Proof.
  intros OK L Hp. unfold open_frame. pose proof (frame_len_bytes t p OK) as HL.
  assert (HF : frame_at (bytes_at SBUF (frame_bytes t p)) SBUF t p).
  { unfold frame_at. rewrite <-HL. fold (frame_bytes t p). rewrite <-(map_union_empty (bytes_at _ _)). apply rd_bytes_at. }
  destruct (decode_frame _ SBUF t p (Z.of_nat (length (frame_bytes t p))) task_clear OK L ltac:(unfold frame_len; lia) HF) as [-> HR].
  { rewrite HL. unfold frame_len, sizeof_task_t. lia. }
  cbn [mbind option_bind]. unfold received. rewrite L. destruct (Z.ltb_spec 0 (Z.of_nat (length p))) as [H|H].
  - cbn [data_len set_opq set_data data cmd]. rewrite L, (proj2 (Z.ltb_lt _ _) H), Nat2Z.id, HR. done.
  - cbn [data_len set_opq cmd]. rewrite L, (proj2 (Z.ltb_ge _ _)) by done. destruct p; [done|cbn in H; lia].
Qed.

(** A report as the namenode reads it: command, identifier, size, address. *)
Definition report_of (f : list Z) : option (Z * Z * Z * list Z) :=
  '(c, d) ← open_frame f;
  Some (c, le_dec (take 8 d), le_dec (take 8 (drop 8 d)), Libc.cstr (drop 16 d)).

Lemma cstr_padded s n : Libc.is_cstr s -> (0 < n)%nat -> Libc.cstr (s ++ replicate n 0) = s.
Proof.
  intros Hs Hn. destruct n as [|n]; [lia|]. unfold Libc.cstr. induction Hs as [|c s Hc Hs IH]; [done|].
  cbn [app Libc.strlen]. rewrite (proj2 (Z.eqb_neq c 0)) by lia. cbn [take]. by rewrite IH.
Qed.

(** ** Draining the queues *)

Section drain.

Variable listening_ip : list Z.
Variable ack : list Z.
Hypothesis ip_cstr : Libc.is_cstr listening_ip.
Hypothesis ip_short : (length listening_ip < 32)%nat.
Hypothesis ack_ok : exists t, answer_task ack = Some t /\ ret t = DFS_OK.

(** A namenode that keeps the frames it gets and accepts them. *)
Definition accepting (log : list (list Z)) (f : list Z) : list (list Z) * exchange := (log ++ [f], Answer ack).

Lemma report_task_ok c : in_u 32 c -> exists t, out_task c listening_ip 48 RBI = Some t /\ task_ok t /\ cmd t = c /\ data_len t = 48 /\ data t = RBI.
Proof.
  intros Hc. unfold out_task, sprintf. change KEY_LEN with 256%nat. rewrite (proj2 (Nat.ltb_lt _ _)) by lia. cbn [mbind option_bind].
  eexists. split; [reflexivity|]. split; [|done]. unfold task_ok. cbn [cmd ret seq pad0 opq master_nodeid key user group permission pad1 data_len pad2 data].
  change RBI with 2048. rewrite length_app, !length_replicate. change KEY_LEN with 256%nat. unfold in_u, in_s in *. repeat split; try lia.
Qed.

Definition report_payload (i z : Z) : list Z := le_enc 8 i ++ le_enc 8 z ++ listening_ip ++ replicate (32 - length listening_ip) 0.

Lemma report_payload_length i z : length (report_payload i z) = 48%nat.
Proof. unfold report_payload. rewrite !length_app, !le_enc_length, length_replicate. lia. Qed.

Lemma report_of_frame t i z : task_ok t -> data_len t = 48 -> 0 <= i < 2 ^ 63 ->
  report_of (frame_bytes t (report_payload i z)) = Some (cmd t, i, z mod 2 ^ 64, listening_ip).
Proof.
  intros OK El Hi. unfold report_of. rewrite (open_frame_bytes t _ OK) by (rewrite ?report_payload_length, ?El; lia). cbn [mbind option_bind].
  unfold report_payload. rewrite take_app_length' by (by rewrite le_enc_length). rewrite drop_app_length' by (by rewrite le_enc_length).
  rewrite take_app_length' by (by rewrite le_enc_length). rewrite le_dec_enc_u by (unfold in_u; lia). rewrite le_dec_enc.
  replace (drop 16 _) with (listening_ip ++ replicate (32 - length listening_ip) 0).
  - rewrite cstr_padded by (done || lia). done.
  - change 16%nat with (8 + 8)%nat. rewrite <-drop_drop. by rewrite !drop_app_length' by (by rewrite le_enc_length).
Qed.

Lemma outcome_ack : outcome (Answer ack) = Some DFS_OK.
Proof. destruct ack_ok as (a & Ha & Hr). unfold outcome. rewrite Ha. cbn [mbind option_bind]. by rewrite Hr. Qed.

Lemma send_report_ok c i z log : in_u 32 c -> 0 <= i < 2 ^ 63 ->
  exists f, send_report accepting listening_ip c i z log = Some (DFS_OK, log ++ [f]) /\ report_of f = Some (c, i, z mod 2 ^ 64, listening_ip).
Proof.
  intros Hc Hi. destruct (report_task_ok c Hc) as (t & Ht & OK & Ec & El & Ed). exists (frame_bytes t (report_payload i z)).
  split; [|by rewrite report_of_frame, Ec]. unfold send_report, report_bytes. rewrite Ht. cbn [mbind option_bind].
  unfold sprintf. rewrite (proj2 (Nat.ltb_lt _ _)) by done. cbn [mbind option_bind]. fold (report_payload i z).
  rewrite (option_bind_eq _ _ _ (encode_out_ok t _ OK ltac:(by rewrite report_payload_length) ltac:(rewrite report_payload_length; lia) ltac:(by left))).
  cbv zeta. unfold accepting, snd, fst. by rewrite outcome_ack.
Qed.

(** The report of an object. *)
Definition announcement (s : dn) (c x : Z) : option (Z * Z * Z * list Z) :=
  k ← objs (g_dn_bcm s) !! x; Some (c, b_id k, b_size k mod 2 ^ 64, listening_ip).

(** The head of a queue leaves it. *)
Lemma sound_popped s B r1 r2 : sound s B ->
  que r1 ++ que r2 `sublist_of` que (g_recv_blk_report s) ++ que (g_blk_report s) ->
  num r1 = Z.of_nat (length (que r1)) -> num r2 = Z.of_nat (length (que r2)) -> sound (set_report (set_recv s r1) r2) B.
Proof.
  intros [HD HSt HBd HC HI Hob HL Hon Hnum] Hsub H1 H2. split; try done; [by apply (dirs_same s)|by apply (files_same s)..| |].
  - intros x Hx. apply HL. by eapply elem_of_sublist.
  - by eapply sublist_NoDup.
Qed.

Lemma object_id s B x k : sound s B -> objs (g_dn_bcm s) !! x = Some k -> 0 <= b_id k < 2 ^ 63.
Proof.
  intros HS Hx. destruct (so_objs s B HS x k Hx) as (ns & c & HB & _).
  destruct (st_blocks s B (so_stores s B HS) _ ns c HB) as ([? ?] & _). lia.
Qed.

Lemma report_head s B r x q c log : sound s B -> in_u 32 c -> que r = x :: q -> x ∈ que (g_recv_blk_report s) ++ que (g_blk_report s) ->
  exists k f, objs (g_dn_bcm s) !! x = Some k /\ report_pop s r = Some (b_id k, b_size k, Rep q (num r - 1)) /\
    send_report accepting listening_ip c (b_id k) (b_size k) log = Some (DFS_OK, log ++ [f]) /\ report_of f = announcement s c x.
Proof.
  intros HS Hc Hq Hx. destruct (so_live s B HS x Hx) as [k Hk]. destruct (send_report_ok c (b_id k) (b_size k) log Hc (object_id s B x k HS Hk)) as (f & Hf & Hr).
  exists k, f. unfold report_pop, announcement. rewrite Hq, Hk. done.
Qed.

Lemma recv_report_turn s B log : sound s B -> exists fs s',
  (if 0 <? num (g_recv_blk_report s) then receivedblock_report accepting listening_ip log s else Some (DFS_OK, log, s)) = Some (DFS_OK, log ++ fs, s') /\
  sound s' B /\ g_dn_bcm s' = g_dn_bcm s /\ files s' = files s /\ que (g_recv_blk_report s') = drop 1 (que (g_recv_blk_report s)) /\ g_blk_report s' = g_blk_report s /\
  report_of <$> fs = announcement s DN_RECV_BLK_REPORT <$> take 1 (que (g_recv_blk_report s)).
Proof.
  intros HS. destruct (so_num s B HS) as [Hn Hn2]. rewrite Hn. destruct (que (g_recv_blk_report s)) as [|x q] eqn:Eq.
  { exists [], s. rewrite app_nil_r, Eq. done. }
  destruct (report_head s B (g_recv_blk_report s) x q DN_RECV_BLK_REPORT log HS ltac:(done) Eq) as (k & f & Hk & Hp & Hs & Hr); [rewrite Eq; set_solver|].
  unfold receivedblock_report. rewrite Hp. cbn [mbind option_bind]. rewrite Hs. cbn [mbind option_bind].
  exists [f]. eexists. split; [reflexivity|]. split; [|split_and!; [reflexivity..|cbn [fmap list_fmap take]; by rewrite Hr]].
  apply (sound_popped s B (Rep q (num (g_recv_blk_report s) - 1)) (g_blk_report s) HS); [|rewrite Hn; cbn; lia|done].
  rewrite Eq. cbn. by apply sublist_cons.
Qed.

Lemma block_turn s B log : sound s B -> exists fs s',
  (if 0 <? num (g_blk_report s) then block_report accepting listening_ip log s else Some (DFS_OK, log, s)) = Some (DFS_OK, log ++ fs, s') /\
  sound s' B /\ g_dn_bcm s' = g_dn_bcm s /\ files s' = files s /\ g_recv_blk_report s' = g_recv_blk_report s /\ que (g_blk_report s') = drop 1 (que (g_blk_report s)) /\
  report_of <$> fs = announcement s DN_BLK_REPORT <$> take 1 (que (g_blk_report s)).
Proof.
  intros HS. destruct (so_num s B HS) as [Hn2 Hn]. rewrite Hn. destruct (que (g_blk_report s)) as [|x q] eqn:Eq.
  { exists [], s. rewrite app_nil_r, Eq. done. }
  destruct (report_head s B (g_blk_report s) x q DN_BLK_REPORT log HS ltac:(done) Eq) as (k & f & Hk & Hp & Hs & Hr); [rewrite Eq; set_solver|].
  unfold block_report. rewrite Hp. cbn [mbind option_bind]. rewrite Hs. cbn [mbind option_bind].
  exists [f]. eexists. split; [reflexivity|]. split; [|split_and!; [reflexivity..|cbn [fmap list_fmap take]; by rewrite Hr]].
  apply (sound_popped s B (g_recv_blk_report s) (Rep q (num (g_blk_report s) - 1)) HS); [|done|rewrite Hn; cbn; lia].
  rewrite Eq. cbn. apply sublist_app; [done|by apply sublist_cons].
Qed.

Lemma announcement_same s s' c : g_dn_bcm s' = g_dn_bcm s -> announcement s' c = announcement s c.
Proof. intros E. unfold announcement. by rewrite E. Qed.

(** A turn without a heartbeat takes the head of either queue. *)
Lemma turn_ok s B log : sound s B -> exists fs s', service_turn accepting listening_ip false log s = Some (DFS_OK, log ++ fs, s') /\
  sound s' B /\ g_dn_bcm s' = g_dn_bcm s /\ files s' = files s /\ que (g_recv_blk_report s') = drop 1 (que (g_recv_blk_report s)) /\
  que (g_blk_report s') = drop 1 (que (g_blk_report s)) /\
  report_of <$> fs = (announcement s DN_RECV_BLK_REPORT <$> take 1 (que (g_recv_blk_report s))) ++ (announcement s DN_BLK_REPORT <$> take 1 (que (g_blk_report s))).
Proof.
  intros HS. unfold service_turn. cbn [mbind option_bind]. change (DFS_OK =? DFS_OK) with true. cbn [negb].
  destruct (recv_report_turn s B log HS) as (f1 & s1 & -> & HS1 & C1 & F1 & Q1 & R1 & A1). cbn [mbind option_bind]. change (DFS_OK =? DFS_OK) with true. cbn [negb].
  destruct (block_turn s1 B (log ++ f1) HS1) as (f2 & s2 & -> & HS2 & C2 & F2 & Q2 & R2 & A2). cbn [mbind option_bind]. change (DFS_OK =? DFS_OK) with true. cbn [negb].
  exists (f1 ++ f2), s2. rewrite <-app_assoc. split; [done|]. split; [done|]. split; [congruence|]. split; [congruence|]. rewrite Q2, R2, R1. split; [done|]. split; [done|].
  by rewrite fmap_app, A1, A2, R1, (announcement_same s s1).
Qed.

Lemma offer_drains n : forall s B log, sound s B -> (length (que (g_recv_blk_report s)) <= n)%nat -> (length (que (g_blk_report s)) <= n)%nat ->
  exists fs s', offer_service accepting listening_ip (replicate n false) log s = Some (DFS_OK, log ++ fs, s') /\
    sound s' B /\ g_dn_bcm s' = g_dn_bcm s /\ files s' = files s /\ que (g_recv_blk_report s') = [] /\ que (g_blk_report s') = [] /\
    report_of <$> fs ≡ₚ (announcement s DN_RECV_BLK_REPORT <$> que (g_recv_blk_report s)) ++ (announcement s DN_BLK_REPORT <$> que (g_blk_report s)).
Proof.
  induction n as [|n IH]; intros s B log HS H1 H2; cbn [replicate offer_service].
  { exists [], s. rewrite app_nil_r. apply Nat.le_0_r, length_zero_iff_nil in H1, H2. by rewrite H1, H2. }
  destruct (turn_ok s B log HS) as (f1 & s1 & -> & HS1 & C1 & F1 & Q1 & R1 & A1). cbn [mbind option_bind]. change (DFS_OK =? DFS_OK) with true. cbn [negb].
  destruct (IH s1 B (log ++ f1) HS1) as (f2 & s2 & -> & HS2 & C2 & F2 & Q2 & R2 & A2); [rewrite Q1, length_drop; lia|rewrite R1, length_drop; lia|].
  exists (f1 ++ f2), s2. rewrite <-app_assoc. split; [done|]. split; [done|]. split; [congruence|]. split; [congruence|]. split; [done|]. split; [done|].
  rewrite fmap_app, A1, A2, Q1, R1, !(announcement_same s s1) by done.
  rewrite <-(take_drop 1 (que (g_recv_blk_report s))) at 3. rewrite <-(take_drop 1 (que (g_blk_report s))) at 3. rewrite !fmap_app. solve_Permutation.
Qed.

End drain.

(** ** Restart *)

(** The files stay; the cache is the empty one of [blk_cache_mgmt_new_init],
    with the objects [xs] and [n] buckets, and the queues are empty. *)
Definition restarted (s : dn) (xs : list Z) (n : nat) : dn :=
  Dn (g_storage_dir_q s) (g_storage_dir_n s) (g_last_version s) (empty_cache xs n) (files s) (Rep [] 0) (Rep [] 0).

Lemma restarted_sound s B xs n : sound s B -> NoDup xs -> (0 < n)%nat -> sound (restarted s xs n) B.
Proof.
  intros HS Hx Hn. split; try done; [by apply (dirs_same s), (so_dirs s B HS)|apply (files_same s); [done..|apply (so_stores s B HS)]|
    apply (files_same s (restarted s xs n) B); [done..|apply (so_bounded s B HS)]|by apply empty_ok|by intros x ?%elem_of_nil|apply NoDup_nil_2].
Qed.

Lemma announcements_perm ip s B : reps s B -> (forall x, is_Some (objs (g_dn_bcm s) !! x) -> x ∈ que (g_blk_report s)) ->
  announcement ip s DN_BLK_REPORT <$> que (g_blk_report s) ≡ₚ
  (fun b => Some (DN_BLK_REPORT, b.1, Z.of_nat (length b.2.2) mod 2 ^ 64, ip)) <$> map_to_list B.
Proof.
  intros [HS HP] Hall. pose proof (so_once s B HS) as Hnd. apply NoDup_app in Hnd as (_ & _ & Hnd).
  assert (Hin : forall x, x ∈ que (g_blk_report s) -> is_Some (objs (g_dn_bcm s) !! x)) by (intros x Hx; apply (so_live s B HS), elem_of_app; by right).
  apply NoDup_Permutation.
  - apply NoDup_fmap_2_strong; [|done]. intros x y Hx Hy E. destruct (Hin x Hx) as [k Hk], (Hin y Hy) as [l Hl].
    unfold announcement in E. rewrite Hk, Hl in E. injection E as E _. by apply (so_ids s B HS x y k l).
  - apply NoDup_fmap_2_strong; [|apply NoDup_map_to_list]. intros [i [n1 c1]] [j [n2 c2]] Hi Hj E. apply elem_of_map_to_list in Hi, Hj.
    injection E as -> _. congruence.
  - intros r. rewrite !list_elem_of_fmap. split.
    + intros (x & -> & Hx). destruct (Hin x Hx) as [k Hk]. destruct (so_objs s B HS x k Hk) as (ns & c & HB & Ek).
      exists (b_id k, (ns, c)). split; [|by apply elem_of_map_to_list]. unfold announcement. rewrite Hk. cbn [mbind option_bind fst snd]. by rewrite Ek.
    + intros ([i [ns c]] & -> & Hi). apply elem_of_map_to_list in Hi. destruct (HP i ltac:(eauto)) as (x & k & Hk & <-).
      exists x. split; [|eauto]. destruct (so_objs s B HS x k Hk) as (ns' & c' & HB & Ek). rewrite Hi in HB. injection HB as <- <-.
      unfold announcement. rewrite Hk. cbn [mbind option_bind fst snd]. by rewrite Ek.
Qed.

Lemma restart_scan readdir garbage s B xs n :
  (forall f p m, m <> lit "." -> m <> lit ".." -> m ∈ readdir f p <-> is_Some (f !! (p ++ [m]))) ->
  sound s B -> NoDup xs -> (0 < n)%nat -> (size B <= length xs)%nat ->
  exists s1, blk_scanner_round readdir garbage (restarted s xs n) = Some s1 /\ reps s1 B /\ files s1 = files s /\
    que (g_recv_blk_report s1) = [] /\ forall x, is_Some (objs (g_dn_bcm s1) !! x) -> x ∈ que (g_blk_report s1).
Proof.
  intros Hr HS Hx Hn Hsz. destruct (scanner_round_ok readdir garbage B Hr (restarted s xs n)) as (s1 & Hrun & HR & _ & HG).
  - by apply restarted_sound.
  - unfold roomy. cbn. lia.
  - exists s1. split; [done|]. split; [done|]. destruct HG as (F & _ & _ & _ & R & _ & A). split; [done|]. split; [by rewrite R|].
    intros x Hx'. apply A in Hx' as [[? Hx']|Hx']; [|done]. cbn in Hx'. by rewrite lookup_empty in Hx'.
Qed.

(** ** The deletions of a heartbeat *)

Definition ids_bytes (ids : list Z) : list Z := concat (le_enc 8 <$> ids).

Lemma ids_bytes_length ids : length (ids_bytes ids) = (8 * length ids)%nat.
Proof. induction ids as [|i ids IH]; [done|]. unfold ids_bytes in *. cbn [fmap list_fmap concat]. rewrite length_app, le_enc_length. cbn [length]. lia. Qed.

(** No block of [ids] waits for a report. *)
Definition unreported (s : dn) (ids : list Z) : Prop :=
  forall x k, objs (g_dn_bcm s) !! x = Some k -> b_id k ∈ ids -> x ∉ que (g_recv_blk_report s) ++ que (g_blk_report s).

Lemma delete_blks_ok m ids : forall fuel p s B, (length ids < fuel)%nat -> rd m p (8 * length ids) = Some (ids_bytes ids) ->
  Forall valid_id ids -> reps s B -> unreported s ids ->
  exists s', delete_blks fuel m p (8 * Z.of_nat (length ids)) s = Some (DFS_OK, s') /\ reps s' (foldl (fun B i => delete i B) B ids) /\
    g_recv_blk_report s' = g_recv_blk_report s /\ g_blk_report s' = g_blk_report s.
Proof.
  induction ids as [|i ids IH]; intros fuel p s B Hf Hm Hv HR Hu; (destruct fuel as [|fuel]; [lia|]).
  { exists s. cbn [delete_blks]. rewrite (proj2 (Z.leb_le _ _)) by (cbn; lia). done. }
  cbn [delete_blks length] in *. rewrite (proj2 (Z.leb_gt _ _)) by lia. apply Forall_cons in Hv as [Hi Hv].
  replace (8 * S (length ids))%nat with (8 + 8 * length ids)%nat in Hm by lia. change (ids_bytes (i :: ids)) with (le_enc 8 i ++ ids_bytes ids) in Hm.
  apply rd_split in Hm as [Hm1 Hm2]; [|apply le_enc_length]. rewrite Hm1. cbn [mbind option_bind].
  assert (Ei : s64 (le_dec (le_enc 8 i)) = i) by (destruct Hi; rewrite le_dec_enc_u by (unfold in_u; lia); apply swrap_small; [lia|unfold in_s; lia]).
  rewrite Ei. assert (H1 : exists rc s1, block_object_del s i = Some (rc, s1) /\ reps s1 (delete i B) /\
    g_recv_blk_report s1 = g_recv_blk_report s /\ g_blk_report s1 = g_blk_report s /\ objs (g_dn_bcm s1) ⊆ objs (g_dn_bcm s)).
  { destruct (B !! i) as [[ns c]|] eqn:HB.
    - destruct (block_del_ok s B i ns c HR HB) as (s1 & Hd & HR1 & _ & Q1 & Q2 & Hsub).
      + intros x k Hx <-. apply (Hu x k Hx). by left.
      + by exists DFS_OK, s1.
    - exists DFS_ERROR, s. split; [by apply (block_del_absent s B)|]. by rewrite delete_id. }
  destruct H1 as (rc & s1 & -> & HR1 & Q1 & Q2 & Hsub). cbn [mbind option_bind].
  replace (8 * Z.of_nat (S (length ids)) - 8) with (8 * Z.of_nat (length ids)) by lia.
  destruct (IH fuel (p + 8) s1 (delete i B)) as (s' & Hrun & HR' & Q1' & Q2'); [lia|done|done|done| |].
  { intros x k Hx Hin. rewrite Q1, Q2. apply (Hu x k); [by eapply lookup_weaken|by right]. }
  exists s'. rewrite Hrun. split; [done|]. cbn [foldl]. split; [done|]. split; congruence.
Qed.

Lemma heap_answer_ok t p : task_ok t -> data_len t = Z.of_nat (length p) -> frame_len p < 2 ^ 31 ->
  heap_answer (frame_bytes t p) = Some (Some (bytes_at PNEXT (frame_bytes t p), received t PNEXT 0)) /\
  rd (bytes_at PNEXT (frame_bytes t p)) (PNEXT + 344) (length p) = Some p.
Proof.
  intros OK L HL. pose proof (frame_len_bytes t p OK) as Hlen. unfold heap_answer.
  assert (Hp : s32 (le_dec (take 4 (frame_bytes t p))) = frame_len p).
  { unfold frame_bytes. rewrite take_app_length' by (by rewrite le_enc_length). rewrite L. apply s32_le_enc. unfold in_s, frame_len in *. lia. }
  rewrite Hp. rewrite (proj2 (Z.ltb_ge _ _)) by (unfold frame_len; lia).
  rewrite take_ge by (rewrite Hlen; unfold frame_len, sizeof_task_t; lia).
  assert (HF : frame_at (bytes_at PNEXT (frame_bytes t p)) PNEXT t p).
  { unfold frame_at. rewrite <-Hlen. fold (frame_bytes t p). rewrite <-(map_union_empty (bytes_at _ _)). apply rd_bytes_at. }
  destruct (decode_frame _ PNEXT t p (Z.of_nat (length (frame_bytes t p))) task_clear OK L HL HF) as [Hd HR].
  { rewrite Hlen. unfold frame_len, sizeof_task_t. lia. }
  split; [|done]. by rewrite (option_bind_eq _ _ _ Hd).
Qed.

End DnServiceOk.
