(* ===== verification/DnSetup.v ===== *)
(** * Setting up a namespace on the storage directories

    [setup_ns_storage] on directories that are empty makes the tree of
    directories that the blocks of the namespace go to.  What a sequence of
    [mkdir] and file creations adds to a file system is a list of entries. *)

From Stdlib Require Import ZArith Lia Bool String.
From stdpp Require Import base numbers gmap option list.
From S2P Require Import Prelude Libc CString Mem Hashtable Cache Stdio Posix NnTypes DnStorage DnStorageOk DnScan DnWrite.

Module DnSetup.
Import NnTypes Cache Stdio Posix DnStorage DnStorageOk DnScan DnWrite.

(** ** Entries added to a file system *)

Definition adds (f f' : fs) (es : list (list name * inode)) : Prop :=
  forall p n, f' !! p = Some n <-> f !! p = Some n \/ (p, n) ∈ es.

Lemma adds_nil f : adds f f [].
Proof. intros p n. set_solver. Qed.

Lemma adds_app f f1 f2 es1 es2 : adds f f1 es1 -> adds f1 f2 es2 -> adds f f2 (es1 ++ es2).
Proof. intros H1 H2 p n. rewrite (H2 p n), (H1 p n), elem_of_app. tauto. Qed.

Lemma adds_insert f p n : f !! p = None -> adds f (<[p := n]> f) [(p, n)].
Proof.
  intros Hp q m. rewrite lookup_insert_Some, list_elem_of_singleton. split.
  - intros [[<- <-]|[_ H]]; auto.
  - intros [H|[= -> ->]]; [right; split; [|done]; congruence|auto].
Qed.

Lemma adds_None f f' es p : adds f f' es -> f !! p = None -> (forall n, (p, n) ∉ es) -> f' !! p = None.
Proof. intros H Hp Hn. apply eq_None_not_Some. intros [n Hf]. apply H in Hf as [Hf|Hf]; [congruence|by apply (Hn n)]. Qed.

Lemma adds_dir f f' es p : adds f f' es -> (p, Dir) ∈ es -> p <> [] -> is_dir f' p = true.
Proof.
  intros H Hp Hne. assert (Hd : f' !! p = Some Dir) by (apply H; by right). unfold is_dir. destruct p as [|a [|b p]]; [done|..].
  - apply orb_true_iff. right. by apply bool_decide_eq_true.
  - by apply bool_decide_eq_true.
Qed.

Lemma adds_keep f f' es p : adds f f' es -> is_dir f p = true -> is_dir f' p = true.
Proof.
  intros H. unfold is_dir. destruct p as [|a [|b p]]; [done|..].
  - intros [Ha|Ha]%orb_true_iff; apply orb_true_iff; [by left|right]. apply bool_decide_eq_true in Ha. apply bool_decide_eq_true, H. by left.
  - intros Ha%bool_decide_eq_true. apply bool_decide_eq_true, H. by left.
Qed.

(** [mkdir] of a new name in a directory. *)
Lemma mkdir_new f s n : s <> [] -> comp n -> is_dir f (resolve s) = true -> f !! (resolve s ++ [n]) = None ->
  exists f', mkdir f (s ++ SLASH :: n) = Some f' /\ adds f f' [(resolve s ++ [n], Dir)].
Proof.
  intros Hs Hn Hd Hnew. unfold mkdir. rewrite resolve_app, parent_app, Hd, Hnew by done. eexists. split; [reflexivity|]. by apply adds_insert.
Qed.

(** A new file with its content. *)
Lemma creat_new f s n c : s <> [] -> comp n -> is_dir f (resolve s) = true -> f !! (resolve s ++ [n]) = None ->
  exists f', creat f (s ++ SLASH :: n) = Some f' /\ adds f (write f' (s ++ SLASH :: n) c) [(resolve s ++ [n], File c)].
Proof.
  intros Hs Hn Hd Hnew. unfold creat, write. rewrite resolve_app, parent_app, Hd, Hnew by done. eexists. split; [reflexivity|].
  rewrite insert_insert_eq. by apply adds_insert.
Qed.

(** ** The subdirectories *)

Lemma sub_name_inj i j : 0 <= i < 2 ^ 63 -> 0 <= j < 2 ^ 63 -> sub_name i = sub_name j -> i = j.
Proof. apply prefix_inj. Qed.

Definition subsub_entries (p : list name) (j n : Z) : list (list name * inode) := (fun k => (p ++ [sub_name k], Dir)) <$> seqZ j n.

Lemma elem_subsub p j n q m : (q, m) ∈ subsub_entries p j n <-> exists k, j <= k < j + n /\ q = p ++ [sub_name k] /\ m = Dir.
Proof.
  unfold subsub_entries. rewrite list_elem_of_fmap. split.
  - intros (k & [= -> ->] & Hk%elem_of_seqZ). exists k. split; [lia|done].
  - intros (k & Hk & -> & ->). exists k. split; [done|]. apply elem_of_seqZ. lia.
Qed.

Lemma subdir_fits s i : 0 <= i < 64 -> (length s + 9 < PATH_LEN)%nat ->
  sprintf PATH_LEN (s ++ lit "/subdir" ++ fmt_ld i) = Some (s ++ SLASH :: sub_name i).
Proof.
  intros Hi Hl. unfold sprintf. rewrite (proj2 (Nat.ltb_lt _ _)); [done|]. rewrite !length_app.
  assert ((length (fmt_ld i) <= 2)%nat) by (apply fmt_ld_length; lia). change (length (lit "/subdir")) with 7%nat. lia.
Qed.

Lemma subsubdirs_ok fuel : forall j s f, s <> [] -> 0 <= j -> j + Z.of_nat fuel <= 64 -> (length s + 9 < PATH_LEN)%nat ->
  is_dir f (resolve s) = true -> (forall k, j <= k < j + Z.of_nat fuel -> f !! (resolve s ++ [sub_name k]) = None) ->
  exists f', subsubdirs_loop fuel j s f = Some (DFS_OK, f') /\ adds f f' (subsub_entries (resolve s) j (Z.of_nat fuel)).
Proof.
  induction fuel as [|fuel IH]; intros j s f Hs Hj Hjf Hl Hd Hnew; [exists f; split; [done|apply adds_nil]|].
  cbn [subsubdirs_loop]. rewrite subdir_fits by lia. cbn [mbind option_bind].
  destruct (mkdir_new f s (sub_name j) Hs ltac:(by apply sub_name_comp) Hd ltac:(apply Hnew; lia)) as (f1 & -> & H1).
  destruct (IH (j + 1) s f1 Hs) as (f' & -> & H'); [lia|lia|done|by eapply adds_keep| |].
  { intros k Hk. eapply adds_None; [done|apply Hnew; lia|]. intros n Hin%list_elem_of_singleton. injection Hin as E _.
    apply app_inv_head in E. assert (sub_name k = sub_name j) as E' by congruence. apply sub_name_inj in E'; lia. }
  exists f'. split; [done|]. pose proof (adds_app _ _ _ _ _ H1 H') as HA. intros p n. rewrite (HA p n), elem_of_app, list_elem_of_singleton, !elem_subsub.
  split; (intros [H|H]; [by left|right]).
  - destruct H as [[= -> ->]|(k & Hk & -> & ->)]; [exists j; split; [lia|done]|exists k; split; [lia|done]].
  - destruct H as (k & Hk & -> & ->). destruct (decide (k = j)) as [->|N]; [by left|right]. exists k. split; [lia|done].
Qed.

Definition sub_entries (p : list name) (i n : Z) : list (list name * inode) :=
  seqZ i n ≫= fun k => (p ++ [sub_name k], Dir) :: subsub_entries (p ++ [sub_name k]) 0 64.

Lemma elem_sub p i n q m : (q, m) ∈ sub_entries p i n <->
  m = Dir /\ exists k, i <= k < i + n /\ (q = p ++ [sub_name k] \/ exists l, 0 <= l < 64 /\ q = p ++ [sub_name k; sub_name l]).
Proof.
  unfold sub_entries. rewrite list_elem_of_bind. setoid_rewrite elem_of_cons. setoid_rewrite elem_subsub. setoid_rewrite elem_of_seqZ. split.
  - intros (k & [[= -> ->]|(l & Hl & -> & ->)] & Hk); (split; [done|]); exists k; (split; [lia|]); [by left|right].
    exists l. rewrite <-app_assoc. done.
  - intros (-> & k & Hk & [->|(l & Hl & ->)]); exists k; (split; [|lia]); [by left|right]. exists l. rewrite <-app_assoc. done.
Qed.

Lemma subdirs_ok fuel : forall i s f, s <> [] -> 0 <= i -> i + Z.of_nat fuel <= 64 -> (length s + 18 < PATH_LEN)%nat ->
  is_dir f (resolve s) = true -> (forall k q, i <= k < i + Z.of_nat fuel -> f !! (resolve s ++ sub_name k :: q) = None) ->
  exists f', subdirs_loop fuel i s f = Some (DFS_OK, f') /\ adds f f' (sub_entries (resolve s) i (Z.of_nat fuel)).
Proof.
  induction fuel as [|fuel IH]; intros i s f Hs Hi Hif Hl Hd Hnew; [exists f; split; [done|apply adds_nil]|].
  cbn [subdirs_loop]. rewrite subdir_fits by lia. cbn [mbind option_bind].
  pose proof (sub_name_comp i Hi) as Hc. pose proof (resolve_app s (sub_name i) Hs Hc) as Hres.
  assert (Hacc : access f (s ++ SLASH :: sub_name i) = false).
  { unfold access. rewrite Hres, Hnew by lia. by apply bool_decide_eq_false_2, is_Some_None. }
  rewrite Hacc. destruct (mkdir_new f s (sub_name i) Hs Hc Hd ltac:(apply Hnew; lia)) as (f1 & -> & H1).
  assert (Hlen : (length (s ++ SLASH :: sub_name i) + 9 < PATH_LEN)%nat).
  { rewrite length_app. cbn [length]. unfold sub_name. rewrite length_app. assert ((length (fmt_ld i) <= 2)%nat) by (apply fmt_ld_length; lia).
    change (length (lit "subdir")) with 6%nat. lia. }
  destruct (subsubdirs_ok (Z.to_nat SUBDIR_LEN) 0 (s ++ SLASH :: sub_name i) f1) as (f2 & -> & H2).
  { by destruct s. } { lia. } { done. } { done. }
  { rewrite Hres. eapply adds_dir; [done|by apply list_elem_of_singleton|by destruct (resolve s)]. }
  { intros k Hk. rewrite Hres, <-app_assoc. eapply adds_None; [done|apply Hnew; lia|]. intros n Hin%list_elem_of_singleton. injection Hin as E _.
    apply app_inv_head in E. discriminate. }
  cbn [mbind option_bind]. change (DFS_OK =? DFS_OK) with true. cbn match. rewrite Hres in H2.
  change (Z.of_nat (Z.to_nat SUBDIR_LEN)) with 64 in H2. pose proof (adds_app _ _ _ _ _ H1 H2) as H12.
  destruct (IH (i + 1) s f2 Hs) as (f' & -> & H'); [lia|lia|done|by apply (adds_keep f f2 _ _ H12)| |].
  { intros k q Hk. apply (adds_None f f2 _ _ H12); [apply Hnew; lia|]. intros n. rewrite elem_of_app, list_elem_of_singleton, elem_subsub.
    intros [E|(l & _ & E & _)]; [injection E as E _|rewrite <-app_assoc in E]; apply app_inv_head in E;
      apply (f_equal (fun l => nth 0 l [])) in E; apply sub_name_inj in E; lia. }
  exists f'. split; [done|]. pose proof (adds_app _ _ _ _ _ H12 H') as HA. unfold sub_entries in HA |- *.
  rewrite Nat2Z.inj_succ, seqZ_cons by lia. replace (Z.pred (Z.succ (Z.of_nat fuel))) with (Z.of_nat fuel) by lia. exact HA.
Qed.

(** ** A namespace *)

Definition ns_line (ns : Z) : list Z := lit "namespaceID=" ++ fmt_ld ns ++ [10].
Definition version_line (v : list Z) : list Z := lit "storageID=" ++ v ++ [10].

Definition ns_entries (p : list name) (ns : Z) : list (list name * inode) :=
  [(p ++ [ns_name ns], Dir)] ++ [((p ++ [ns_name ns]) ++ [lit "blocksBeingWritten"], Dir)] ++ [((p ++ [ns_name ns]) ++ [lit "current"], Dir)] ++
  [(((p ++ [ns_name ns]) ++ [lit "current"]) ++ [lit "VERSION"], File (ns_line ns))] ++ sub_entries ((p ++ [ns_name ns]) ++ [lit "current"]) 0 64.

Lemma version_comp : comp (lit "VERSION").
Proof. split; [done|noslash]. Qed.

Lemma sprintf_fits cap s : (length s < cap)%nat -> sprintf cap s = Some s.
Proof. intros H. unfold sprintf. by rewrite (proj2 (Nat.ltb_lt _ _)). Qed.

Lemma sprintf_bind {A} cap s (k : list Z -> option A) : (length s < cap)%nat -> sprintf cap s ≫= k = k s.
Proof. intros H. by rewrite sprintf_fits. Qed.

Lemma fmt_id_length z : valid_id z -> (length (fmt_ld z) <= 15)%nat.
Proof. intros [H1 H2]. apply (fmt_ld_length z 15); [lia..|exact H2]. Qed.

(** Nothing is below a name of a directory. *)
Definition vacant (f : fs) (p : list name) : Prop := forall q, f !! (p ++ q) = None.

Lemma vacant_adds f f' es p : adds f f' es -> vacant f p -> (forall q n, (p ++ q, n) ∉ es) -> vacant f' p.
Proof. intros HA HV Hn q. by apply (adds_None f f' es). Qed.

(** A new name beside the entries that were added. *)
Lemma vacant_next f f' (p : list name) n m i : adds f f' [(p ++ [n], i)] -> n <> m -> vacant f (p ++ [m]) -> vacant f' (p ++ [m]).
Proof.
  intros HA Hnm HV. apply (vacant_adds _ _ _ _ HA HV). intros q k [= E _]%list_elem_of_singleton. rewrite <-app_assoc in E.
  apply app_inv_head in E. injection E as E _. congruence.
Qed.

Lemma vacant_below f f' (p : list name) i n : adds f f' [(p, i)] -> vacant f p -> vacant f' (p ++ [n]).
Proof.
  intros HA HV q. rewrite <-app_assoc. apply (adds_None _ _ _ _ HA (HV _)). intros k [= E _]%list_elem_of_singleton.
  apply (f_equal length) in E. rewrite !length_app in E. cbn in E. lia.
Qed.

Lemma vacant_sub f p n : vacant f p -> vacant f (p ++ [n]).
Proof. intros HV q. rewrite <-app_assoc. apply HV. Qed.

Lemma vacant_name f p n : vacant f (p ++ [n]) -> f !! (p ++ [n]) = None.
Proof. intros HV. specialize (HV []). by rewrite app_nil_r in HV. Qed.

Lemma dir_added f f' p : adds f f' [(p, Dir)] -> p <> [] -> is_dir f' p = true.
Proof. intros HA Hp. eapply adds_dir; [done|by apply list_elem_of_singleton|done]. Qed.

Lemma check_namespace_new cur ns s : cur <> [] -> valid_id ns -> (length cur + 90 < PATH_LEN)%nat ->
  is_dir (files s) (resolve cur) = true -> vacant (files s) (resolve cur ++ [ns_name ns]) ->
  exists f', check_namespace (cur ++ SLASH :: ns_name ns) ns s = Some (DFS_OK, set_files s f') /\ adds (files s) f' (ns_entries (resolve cur) ns).
Proof.
  intros Hc Hns Hl Hd HV. pose proof (fmt_id_length ns Hns) as Hf. pose proof (ns_name_comp ns (proj1 Hns)) as Hnc.
  assert (Hln : (length (cur ++ SLASH :: ns_name ns) + 70 < PATH_LEN)%nat).
  { rewrite length_app. unfold ns_name. cbn [length]. rewrite length_app. change (length (lit "NS-")) with 3%nat. lia. }
  pose proof (resolve_app cur (ns_name ns) Hc Hnc) as Hres. set (path := cur ++ SLASH :: ns_name ns) in *.
  assert (Hpn : path <> []) by (unfold path; by destruct cur).
  unfold check_namespace. assert (access (files s) path = false) as -> by (unfold access; rewrite Hres, vacant_name by done; by apply bool_decide_eq_false_2, is_Some_None).
  cbn [negb]. destruct (mkdir_new (files s) cur (ns_name ns) Hc Hnc Hd (vacant_name _ _ _ HV)) as (f1 & E1 & A1). fold path in E1. rewrite E1.
  rewrite <-Hres in A1, HV. assert (D1 : is_dir f1 (resolve path) = true) by (apply (dir_added _ _ _ A1); rewrite Hres; by destruct (resolve cur)).
  rewrite sprintf_bind by (rewrite length_app; change (length (lit "/blocksBeingWritten")) with 19%nat; lia).
  destruct (mkdir_new f1 path (lit "blocksBeingWritten") Hpn bbw_comp D1) as (f2 & E2 & A2).
  { apply vacant_name. by apply (vacant_below _ _ _ _ _ A1). }
  change (path ++ lit "/blocksBeingWritten") with (path ++ SLASH :: lit "blocksBeingWritten"). rewrite E2.
  rewrite sprintf_bind by (rewrite length_app; change (length (lit "/current")) with 8%nat; lia).
  assert (V2 : vacant f2 (resolve path ++ [lit "current"])) by (apply (vacant_next _ _ _ _ _ _ A2); [done|]; by apply (vacant_below _ _ _ _ _ A1)).
  destruct (mkdir_new f2 path (lit "current") Hpn current_comp (adds_keep _ _ _ _ A2 D1) (vacant_name _ _ _ V2)) as (f3 & E3 & A3).
  change (path ++ lit "/current") with (path ++ SLASH :: lit "current"). rewrite E3.
  pose proof (resolve_app path (lit "current") Hpn current_comp) as Hrc. set (cd := path ++ SLASH :: lit "current") in *. rewrite <-Hrc in A3, V2.
  assert (Hcn : cd <> []) by (unfold cd; by destruct path). assert (D3 : is_dir f3 (resolve cd) = true) by (apply (dir_added _ _ _ A3); rewrite Hrc; by destruct (resolve path)).
  assert (Lc : (length cd + 60 < PATH_LEN)%nat) by (unfold cd; rewrite length_app; change (length (SLASH :: lit "current")) with 8%nat; lia).
  rewrite sprintf_bind by (rewrite length_app; change (length (lit "/VERSION")) with 8%nat; lia).
  destruct (creat_new f3 cd (lit "VERSION") (ns_line ns) Hcn version_comp D3) as (f4 & E4 & A4).
  { apply vacant_name. by apply (vacant_below _ _ _ _ _ A3). }
  change (cd ++ lit "/VERSION") with (cd ++ SLASH :: lit "VERSION"). rewrite E4.
  rewrite sprintf_bind by (rewrite !length_app; change (length (lit "namespaceID=")) with 12%nat; cbn [length]; lia).
  fold (ns_line ns). set (f5 := write f4 _ _) in *. destruct (subdirs_ok (Z.to_nat SUBDIR_LEN) 0 cd f5 Hcn) as (f6 & E6 & A6); [lia|done|lia|by apply (adds_keep _ _ _ _ A4)| |].
  { intros k q Hk. replace (resolve cd ++ sub_name k :: q) with ((resolve cd ++ [sub_name k]) ++ q) by (by rewrite <-app_assoc).
    apply (vacant_next _ _ _ _ _ _ A4); [done|]. by apply (vacant_below _ _ _ _ _ A3). }
  rewrite (option_bind_eq _ _ _ (E6 : create_storage_subdirs cd f5 = _)). exists f6. split; [done|].
  unfold ns_entries. rewrite <-Hres, <-Hrc. exact (adds_app _ _ _ _ _ A1 (adds_app _ _ _ _ _ A2 (adds_app _ _ _ _ _ A3 (adds_app _ _ _ _ _ A4 A6)))).
Qed.

(** ** All storage directories *)

(** The identifier of the storage that a first start makes. *)
Definition new_version (ip : list Z) (msec : Z) : list Z := lit "DS-" ++ ip ++ lit "-" ++ fmt_ld msec.

(** The identifier in use after the first directory. *)
Definition version_of (ip : list Z) (msec : Z) (last : list Z) : list Z := if bool_decide (last = []) then new_version ip msec else last.

Lemma check_version_new ip msec cur s : cur <> [] -> is_dir (files s) (resolve cur) = true -> vacant (files s) (resolve cur ++ [lit "VERSION"]) ->
  let v := version_of ip msec (g_last_version s) in (length v < 56)%nat ->
  exists f', check_version ip msec (cur ++ SLASH :: lit "VERSION") s = Some (DFS_OK, set_version (set_files s f') v) /\
    adds (files s) f' [(resolve cur ++ [lit "VERSION"], File (version_line v))].
Proof.
  intros Hc Hd HV v Hv. unfold check_version.
  assert (access (files s) (cur ++ SLASH :: lit "VERSION") = false) as ->.
  { unfold access. rewrite resolve_app, vacant_name by (done || apply version_comp). by apply bool_decide_eq_false_2, is_Some_None. }
  cbn [negb]. destruct (creat_new (files s) cur (lit "VERSION") (version_line v) Hc version_comp Hd (vacant_name _ _ _ HV)) as (f1 & -> & A1).
  eexists. split; [|exact A1]. rewrite (option_bind_eq _ v).
  - rewrite sprintf_bind; [done|]. rewrite !length_app. change (length (lit "storageID=")) with 10%nat. cbn [length]. lia.
  - unfold v, version_of in *. destruct (bool_decide (g_last_version s = [])); [|done]. by apply sprintf_fits.
Qed.

Definition dir_entries (p : list name) (v : list Z) (ns : Z) : list (list name * inode) :=
  [(p ++ [lit "VERSION"], File (version_line v))] ++ ns_entries p ns.

Lemma dir_entries_below p v ns q n : (q, n) ∈ dir_entries p v ns -> exists m r, q = p ++ m :: r.
Proof.
  unfold dir_entries, ns_entries. rewrite !elem_of_app, !list_elem_of_singleton, elem_sub.
  intros [[= -> _]|[[= -> _]|[[= -> _]|[[= -> _]|[[= -> _]|(_ & k & _ & [->|(l & _ & ->)])]]]]]; rewrite <-?app_assoc; cbn [app]; eauto.
Qed.

(** Empty directories of the right length. *)
Definition empty_dir (f : fs) (cur : list Z) : Prop :=
  is_dir f (resolve cur) = true /\ (forall n, vacant f (resolve cur ++ [n])) /\ (length cur + 90 < PATH_LEN)%nat.

Lemma setup_dir ip msec ns cur s : cur <> [] -> valid_id ns -> empty_dir (files s) cur ->
  let v := version_of ip msec (g_last_version s) in (length v < 56)%nat -> v <> [] ->
  exists f', adds (files s) f' (dir_entries (resolve cur) v ns) /\
    forall q, setup_loop ip msec ns (Sd q cur :: []) s = Some (Some (set_version (set_files s f') v)).
Proof.
  intros Hc Hns (Hd & HV & Hl) v Hv Hne. destruct (check_version_new ip msec cur s Hc Hd (HV _) Hv) as (f1 & E1 & A1).
  destruct (check_namespace_new cur ns (set_version (set_files s f1) v) Hc Hns Hl) as (f2 & E2 & A2).
  { by apply (adds_keep _ _ _ _ A1). } { by apply (vacant_next _ _ _ _ _ _ A1). }
  exists f2. split; [exact (adds_app _ _ _ _ _ A1 A2)|]. intros q. cbn [setup_loop current].
  rewrite sprintf_bind by (rewrite length_app; change (length (lit "/VERSION")) with 8%nat; lia).
  change (cur ++ lit "/VERSION") with (cur ++ SLASH :: lit "VERSION"). rewrite (option_bind_eq _ _ _ E1). change (DFS_OK =? DFS_OK) with true. cbn [negb].
  pose proof (fmt_id_length ns Hns). rewrite sprintf_bind by (rewrite !length_app; change (length (lit "/NS-")) with 4%nat; lia).
  change (cur ++ lit "/NS-" ++ fmt_ld ns) with (cur ++ SLASH :: ns_name ns). by rewrite (option_bind_eq _ _ _ E2).
Qed.

Lemma setup_loop_app ip msec ns sd q s s' : setup_loop ip msec ns [sd] s = Some (Some s') ->
  setup_loop ip msec ns (sd :: q) s = setup_loop ip msec ns q s'.
Proof.
  cbn [setup_loop]. destruct (sprintf PATH_LEN (current sd ++ lit "/VERSION")) as [p1|]; [|done]. cbn [mbind option_bind].
  destruct (check_version ip msec p1 s) as [[r1 s1]|]; [|done]. cbn [mbind option_bind]. destruct (negb _); [done|].
  destruct (sprintf PATH_LEN _) as [p2|]; [|done]. cbn [mbind option_bind].
  destruct (check_namespace p2 ns s1) as [[r2 s2]|]; [|done]. cbn [mbind option_bind]. destruct (negb _); [done|]. congruence.
Qed.

(** No directory is inside another one. *)
Definition dirs_distinct (q : list storage_dir_t) : Prop :=
  forall i j sd se, q !! i = Some sd -> q !! j = Some se -> resolve (current sd) `prefix_of` resolve (current se) -> i = j.

Lemma dirs_distinct_tail sd q : dirs_distinct (sd :: q) -> dirs_distinct q.
Proof. intros H i j a b Hi Hj Hp. pose proof (H (S i) (S j) a b Hi Hj Hp). lia. Qed.

Lemma dirs_distinct_path q i j sd se (p r : list name) : dirs_distinct q -> q !! i = Some sd -> q !! j = Some se ->
  resolve (current sd) ++ p = resolve (current se) ++ r -> i = j.
Proof.
  intros HD Hi Hj E.
  destruct (prefix_weak_total (resolve (current sd)) (resolve (current se)) (resolve (current sd) ++ p)) as [H|H];
    [by exists p|by exists r|by apply (HD i j sd se)|symmetry; by apply (HD j i se sd)].
Qed.

Lemma empty_dir_keeps q j sd se f f' v ns : dirs_distinct (sd :: q) -> q !! j = Some se ->
  empty_dir f (current se) -> adds f f' (dir_entries (resolve (current sd)) v ns) -> empty_dir f' (current se).
Proof.
  intros HD Hj (Hd & HV & Hl) HA. split; [by apply (adds_keep _ _ _ _ HA)|]. split; [|done]. intros n.
  apply (vacant_adds _ _ _ _ HA (HV n)). intros r m Hin. apply dir_entries_below in Hin as (x & y & E). rewrite <-app_assoc in E.
  by apply (dirs_distinct_path (sd :: q) (S j) 0 se sd) in E.
Qed.

Definition all_entries (q : list storage_dir_t) (v : list Z) (ns : Z) : list (list name * inode) :=
  q ≫= fun sd => dir_entries (resolve (current sd)) v ns.

Lemma setup_all ip msec ns v q : valid_id ns -> (length v < 56)%nat -> v <> [] -> dirs_distinct q ->
  forall s, version_of ip msec (g_last_version s) = v -> Forall (fun sd => current sd <> [] /\ empty_dir (files s) (current sd)) q ->
  exists s', setup_loop ip msec ns q s = Some (Some s') /\ adds (files s) (files s') (all_entries q v ns) /\
    s' = set_version (set_files s (files s')) (g_last_version s') /\ (q <> [] -> g_last_version s' = v).
Proof.
  intros Hns Hv Hne. induction q as [|sd q IH]; intros HD s Hs HF.
  { exists s. split; [done|]. split; [apply adds_nil|]. split; [by destruct s|done]. }
  apply Forall_cons in HF as [[Hc He] HF].
  destruct (setup_dir ip msec ns (current sd) s Hc Hns He) as (f1 & A1 & E1); [by rewrite Hs..|]. rewrite Hs in A1, E1.
  specialize (E1 (sd_id sd)).
  replace (Sd (sd_id sd) (current sd)) with sd in E1 by (by destruct sd). rewrite (setup_loop_app _ _ _ _ _ _ _ E1).
  destruct (IH (dirs_distinct_tail _ _ HD) (set_version (set_files s f1) v)) as (s' & E2 & A2 & Es & El).
  - unfold version_of. cbn. by rewrite bool_decide_eq_false_2.
  - apply Forall_lookup. intros j se Hj. rewrite Forall_lookup in HF. destruct (HF j se Hj) as [H1 H2]. split; [done|].
    by apply (empty_dir_keeps q j sd se (files s) _ v ns).
  - exists s'. split; [done|]. split; [exact (adds_app _ _ _ _ _ A1 A2)|]. split; [by rewrite Es at 1|]. intros _. destruct q; [|by apply El].
    cbn in E2. by injection E2 as <-.
Qed.

(** ** The state after the set-up *)

Lemma elem_all q v ns p n : (p, n) ∈ all_entries q v ns <-> exists sd, sd ∈ q /\ (p, n) ∈ dir_entries (resolve (current sd)) v ns.
Proof. unfold all_entries. rewrite list_elem_of_bind. naive_solver. Qed.

(** The paths below a directory that is set up. *)
Definition tree_path (ns : Z) (p : list name) : Prop :=
  p = [lit "VERSION"] \/ p = [ns_name ns] \/ p = [ns_name ns; lit "blocksBeingWritten"] \/ p = [ns_name ns; lit "current"] \/
  p = [ns_name ns; lit "current"; lit "VERSION"] \/
  exists k, 0 <= k < 64 /\ (p = [ns_name ns; lit "current"; sub_name k] \/ exists l, 0 <= l < 64 /\ p = [ns_name ns; lit "current"; sub_name k; sub_name l]).

Lemma dir_entries_tree p v ns q n : (q, n) ∈ dir_entries p v ns -> exists r, q = p ++ r /\ tree_path ns r.
Proof.
  unfold dir_entries, ns_entries, tree_path. rewrite !elem_of_app, !list_elem_of_singleton, elem_sub.
  intros [[= -> _]|[[= -> _]|[[= -> _]|[[= -> _]|[[= -> _]|(_ & k & Hk & [->|(l & Hl & ->)])]]]]]; rewrite <-?app_assoc; cbn [app];
    eexists; (split; [reflexivity|]); eauto 9; do 5 right; exists k; (split; [lia|]); eauto.
Qed.

Lemma path_size_sum cur ps : path_size cur ps = (length cur + sum_list_with (fun n => S (length n)) ps)%nat.
Proof.
  unfold path_size, dirstr. rewrite length_app. f_equal. induction ps as [|n ps IH]; [done|]. cbn [map concat sum_list_with].
  rewrite length_app. cbn [length]. by rewrite IH.
Qed.

Lemma tree_path_ok cur ns p : valid_id ns -> tree_path ns p -> (length cur + 90 < PATH_LEN)%nat ->
  Forall comp p /\ (path_size cur p + 8 < PATH_LEN)%nat /\ (length p <= 4)%nat /\ (forall n, p = [n] -> has_prefix (lit "NS-") n -> (length n < 19)%nat).
Proof.
  intros Hns Hp Hl. pose proof (ns_name_comp ns (proj1 Hns)) as Hnc.
  assert (Ln : (length (ns_name ns) <= 18)%nat) by (unfold ns_name; rewrite length_app; pose proof (fmt_id_length ns Hns); change (length (lit "NS-")) with 3%nat; lia).
  assert (Ls : forall k, 0 <= k < 64 -> (length (sub_name k) <= 8)%nat).
  { intros k Hk. unfold sub_name. rewrite length_app. assert ((length (fmt_ld k) <= 2)%nat) by (apply fmt_ld_length; lia). change (length (lit "subdir")) with 6%nat. lia. }
  pose proof version_comp. pose proof current_comp. pose proof bbw_comp. pose proof sub_name_comp. rewrite path_size_sum.
  assert (length (lit "VERSION") = 7%nat /\ length (lit "current") = 7%nat /\ length (lit "blocksBeingWritten") = 18%nat) as (L1 & L2 & L3) by done.
  destruct Hp as [->|[->|[->|[->|[->|(k & Hk & [->|(j & Hj & ->)])]]]]]; (split; [repeat (apply Forall_cons; split; [auto with lia|]); done|]);
    try pose proof (Ls k Hk); try pose proof (Ls j Hj); (split; [cbn [sum_list_with]; lia|]); (split; [cbn; lia|]); intros n E Hn; try discriminate E.
  - injection E as <-. done.
  - injection E as <-. lia.
Qed.

(** A datanode before its first registration. *)
Record fresh (s : dn) : Prop := {
  fr_dirs : dirs_ok s;
  fr_empty sd : sd ∈ g_storage_dir_q s -> empty_dir (files s) (current sd);
  fr_cache : ok (g_dn_bcm s);
  fr_objs : objs (g_dn_bcm s) = ∅;
  fr_queues : g_recv_blk_report s = Rep [] 0 /\ g_blk_report s = Rep [] 0
}.

(** Where a block of the namespace goes. *)
Definition has_place (s : dn) (ns id : Z) : Prop :=
  above (files s) (resolve (disk s id)) (blk_comps ns id) /\
  is_dir (files s) (resolve (disk s id) ++ [ns_name ns; lit "blocksBeingWritten"]) = true /\
  (path_size (disk s id) (blk_comps ns id) + 8 < PATH_LEN)%nat.

(** The files that the set-up reads back. *)
Definition set_up (f : fs) (v : list Z) (ns : Z) (cur : list Z) : Prop :=
  f !! (resolve cur ++ [lit "VERSION"]) = Some (File (version_line v)) /\ f !! (resolve cur ++ [ns_name ns]) = Some Dir /\
  f !! (resolve cur ++ [ns_name ns; lit "current"; lit "VERSION"]) = Some (File (ns_line ns)) /\ (length cur + 90 < PATH_LEN)%nat.

Section after.

Context (s s' : dn) (v : list Z) (ns : Z).
Hypothesis HF : fresh s.
Hypothesis Hns : valid_id ns.
Hypothesis HA : adds (files s) (files s') (all_entries (g_storage_dir_q s) v ns).
Hypothesis Hs' : s' = set_version (set_files s (files s')) (g_last_version s').

Lemma after_dirs : g_storage_dir_q s' = g_storage_dir_q s /\ g_storage_dir_n s' = g_storage_dir_n s /\ g_dn_bcm s' = g_dn_bcm s /\
  g_recv_blk_report s' = g_recv_blk_report s /\ g_blk_report s' = g_blk_report s.
Proof. by rewrite Hs'. Qed.

Lemma after_below sd p n : sd ∈ g_storage_dir_q s -> files s' !! (resolve (current sd) ++ p) = Some n -> p = [] \/ tree_path ns p.
Proof.
  intros Hsd Hp. apply HA in Hp as [Hp|Hp].
  - destruct p as [|m p]; [by left|]. destruct (fr_empty s HF sd Hsd) as (_ & HV & _). specialize (HV m p).
    rewrite <-app_assoc in HV. cbn [app] in HV. congruence.
  - right. apply elem_all in Hp as (se & Hse & Hp). apply dir_entries_tree in Hp as (r & E & Hr).
    apply (dirs_apart s sd se) in E as [_ ->]; [done|apply (fr_dirs s HF)|done..].
Qed.

Lemma after_sound : sound s' ∅.
Proof.
  destruct after_dirs as (Q & N & C & R1 & R2). destruct (fr_queues s HF) as [E1 E2]. rewrite E1 in R1. rewrite E2 in R2. split.
  - apply (dirs_same s); [done..|apply (fr_dirs s HF)].
  - split; [by intros ? ? ? ?%lookup_empty_Some|]. intros sd NS a b n c Hsd Hf. rewrite Q in Hsd. exfalso.
    destruct (after_below sd _ _ Hsd Hf) as [E|E]; [done|]. destruct (fr_empty s HF sd Hsd) as (_ & _ & Hl).
    destruct (tree_path_ok (current sd) ns _ Hns E Hl) as (_ & _ & H4 & _). cbn in H4. lia.
  - intros sd p Hsd [n Hp]. rewrite Q in Hsd. destruct (fr_empty s HF sd Hsd) as (_ & _ & Hl).
    destruct (after_below sd p n Hsd Hp) as [->|E].
    + split; [done|]. split; [rewrite path_size_sum; cbn [sum_list_with]; lia|done].
    + destruct (tree_path_ok (current sd) ns p Hns E Hl) as (H1 & H2 & _ & H4). done.
  - rewrite C. apply (fr_cache s HF).
  - rewrite C, (fr_objs s HF). by intros x y k l ?%lookup_empty_Some.
  - rewrite C, (fr_objs s HF). by intros x k ?%lookup_empty_Some.
  - rewrite R1, R2. by intros x ?%elem_of_nil.
  - rewrite R1, R2. apply NoDup_nil_2.
  - by rewrite R1, R2.
Qed.

Lemma after_place id : valid_id id -> has_place s' ns id.
Proof.
  intros Hid. destruct after_dirs as (Q & N & _). unfold has_place. rewrite (disk_same s s' id Q N).
  destruct (disk_elem s id (fr_dirs s HF) (proj1 Hid)) as (sd & Hsd & ->). destruct (fr_empty s HF sd Hsd) as (Hd & _ & Hl).
  destruct (sub_range id (proj1 Hid)) as [R1 R2]. unfold SUBDIR_LEN in R1, R2.
  assert (HE : forall p, (p, Dir) ∈ dir_entries (resolve (current sd)) v ns -> p <> [] -> is_dir (files s') p = true).
  { intros p Hp Hne. apply (adds_dir _ _ _ _ HA); [|done]. apply elem_all. eauto. }
  assert (Hne : forall n q, resolve (current sd) ++ n :: q <> []) by (intros n q; by destruct (resolve (current sd))).
  assert (Hin : forall q, q ∈ [[ns_name ns]; [ns_name ns; lit "blocksBeingWritten"]; [ns_name ns; lit "current"];
    [ns_name ns; lit "current"; sub_name (sub1 id)]; [ns_name ns; lit "current"; sub_name (sub1 id); sub_name (sub2 id)]] ->
    (resolve (current sd) ++ q, Dir) ∈ dir_entries (resolve (current sd)) v ns).
  { intros q Hq. unfold dir_entries, ns_entries. rewrite !elem_of_app, !list_elem_of_singleton, elem_sub, <-!app_assoc. cbn [app].
    rewrite !elem_of_cons, elem_of_nil in Hq. destruct Hq as [->|[->|[->|[->|[->|[]]]]]]; auto 6; do 5 right; (split; [done|]); exists (sub1 id); (split; [lia|]); rewrite <-!app_assoc; [by left|right].
    exists (sub2 id). by rewrite <-!app_assoc. }
  split; [|split; [apply HE; [apply Hin; set_solver|apply Hne]|]].
  - intros k Hk. cbn [length blk_comps] in Hk. destruct k as [|[|[|[|[|k]]]]]; [rewrite app_nil_r; by apply (adds_keep _ _ _ _ HA)|..|lia];
      (apply HE; [apply Hin; set_solver|apply Hne]).
  - rewrite path_size_sum. unfold blk_comps. cbn [sum_list_with]. unfold ns_name, sub_name, blk_name. rewrite !length_app.
    pose proof (fmt_id_length ns Hns). pose proof (fmt_id_length id Hid).
    assert ((length (fmt_ld (sub1 id)) <= 2)%nat /\ (length (fmt_ld (sub2 id)) <= 2)%nat) by (split; apply fmt_ld_length; lia).
    change (length (lit "NS-")) with 3%nat. change (length (lit "current")) with 7%nat. change (length (lit "subdir")) with 6%nat. change (length (lit "blk_")) with 4%nat. lia.
Qed.

Lemma after_set_up sd : sd ∈ g_storage_dir_q s -> set_up (files s') v ns (current sd).
Proof.
  intros Hsd. destruct (fr_empty s HF sd Hsd) as (_ & _ & Hl).
  assert (HE : forall p n, (p, n) ∈ dir_entries (resolve (current sd)) v ns -> files s' !! p = Some n).
  { intros p n Hp. apply HA. right. apply elem_all. eauto. }
  unfold dir_entries, ns_entries in HE. split; [|split; [|split; [|done]]]; apply HE; rewrite !elem_of_app, !list_elem_of_singleton, <-?app_assoc; auto 6.
Qed.

End after.

Lemma setup_fresh ip msec ns s : fresh s -> valid_id ns -> g_last_version s = [] -> (length (new_version ip msec) < 56)%nat ->
  exists s', setup_ns_storage ip msec ns s = Some (Some s') /\ sound s' ∅ /\ (forall id, valid_id id -> has_place s' ns id) /\
    g_last_version s' = new_version ip msec /\ g_storage_dir_q s' = g_storage_dir_q s /\ g_dn_bcm s' = g_dn_bcm s /\
    (forall sd, sd ∈ g_storage_dir_q s -> set_up (files s') (new_version ip msec) ns (current sd)) /\
    (forall sd p n, sd ∈ g_storage_dir_q s -> files s' !! (resolve (current sd) ++ p) = Some n -> p = [] \/ tree_path ns p).
Proof.
  intros HF Hns Hv Hl. destruct (setup_all ip msec ns (new_version ip msec) (g_storage_dir_q s) Hns Hl) with s as (s' & E & A & Es & El); [done|..].
  - exact (di_apart s (fr_dirs s HF)).
  - unfold version_of. by rewrite Hv, bool_decide_eq_true_2.
  - apply Forall_forall. intros sd Hsd. split; [by apply (di_ne s (fr_dirs s HF))|by apply (fr_empty s HF)].
  - exists s'. split; [done|]. split; [by eapply after_sound|]. split; [intros id Hid; by eapply after_place|].
    destruct (after_dirs s s' Es) as (Q & N & C & _). split.
    { apply El. pose proof (di_n s (fr_dirs s HF)). pose proof (di_pos s (fr_dirs s HF)). intros E0. rewrite E0 in *. cbn in *. lia. }
    split; [done|]. split; [done|]. split; [intros sd Hsd; by eapply after_set_up|intros sd p n; by eapply after_below].
Qed.

(** ** Later starts *)

Lemma scan_word_line v : Forall (fun c => isspace c = false) v -> scan_word (v ++ [10]) = v.
Proof. induction 1 as [|c v Hc _ IH]; [done|]. cbn [app scan_word]. by rewrite Hc, IH. Qed.

Lemma check_version_again ip msec v cur s : cur <> [] -> v <> [] -> Forall (fun c => isspace c = false) v -> (length v < 56)%nat ->
  files s !! (resolve cur ++ [lit "VERSION"]) = Some (File (version_line v)) -> g_last_version s = [] \/ g_last_version s = v ->
  check_version ip msec (cur ++ SLASH :: lit "VERSION") s = Some (DFS_OK, set_version s v).
Proof.
  intros Hc Hne Hsp Hl Hf Hlast. unfold check_version, access, get_file. rewrite resolve_app, Hf by (done || apply version_comp).
  rewrite bool_decide_eq_true_2 by eauto. cbn [negb].
  assert (Lv : (length (version_line v) < 128)%nat) by (unfold version_line; rewrite !length_app; change (length (lit "storageID=")) with 10%nat; cbn [length]; lia).
  rewrite take_ge by lia. unfold terminated. rewrite (proj2 (Nat.ltb_lt _ _)) by done. cbn [mbind option_bind].
  assert (Es : scan_equals (version_line v) = Some (v ++ [10])) by done. rewrite Es.
  assert (Ek : skip_space (v ++ [10]) = v ++ [10]). { destruct v as [|c v]; [done|]. apply Forall_cons in Hsp as [Hsp _]. cbn [app skip_space]. by rewrite Hsp. }
  rewrite Ek, scan_word_line by done. destruct Hlast as [E|E]; rewrite E.
  - rewrite bool_decide_eq_true_2 by done. by rewrite sprintf_bind.
  - rewrite bool_decide_eq_false_2, bool_decide_eq_true_2 by done. rewrite <-E. by destruct s.
Qed.

Lemma check_namespace_again cur ns s : cur <> [] -> valid_id ns -> (length cur + 90 < PATH_LEN)%nat ->
  files s !! (resolve cur ++ [ns_name ns]) = Some Dir -> files s !! (resolve cur ++ [ns_name ns; lit "current"; lit "VERSION"]) = Some (File (ns_line ns)) ->
  check_namespace (cur ++ SLASH :: ns_name ns) ns s = Some (DFS_OK, s).
Proof.
  intros Hc Hns Hl Hd Hf. pose proof (fmt_id_length ns Hns) as Lf. pose proof (ns_name_comp ns (proj1 Hns)) as Hnc.
  unfold check_namespace, access. rewrite resolve_app, Hd by done. rewrite bool_decide_eq_true_2 by eauto. cbn [negb].
  rewrite sprintf_bind.
  2: { rewrite !length_app. cbn [length]. unfold ns_name. rewrite length_app. change (length (lit "NS-")) with 3%nat. change (length (lit "/current/VERSION")) with 16%nat. lia. }
  change ((cur ++ SLASH :: ns_name ns) ++ lit "/current/VERSION") with ((cur ++ SLASH :: ns_name ns) ++ (SLASH :: lit "current") ++ SLASH :: lit "VERSION").
  unfold get_file. rewrite app_assoc, !resolve_app by (done || apply current_comp || apply version_comp || apply snoc_ne). rewrite <-!app_assoc. cbn [app]. rewrite Hf.
  assert (Ln : (length (ns_line ns) < 128)%nat) by (unfold ns_line; rewrite !length_app; change (length (lit "namespaceID=")) with 12%nat; cbn [length]; lia).
  rewrite take_ge by lia. unfold terminated. rewrite (proj2 (Nat.ltb_lt _ _)) by done. cbn [mbind option_bind].
  assert (Es : scan_equals (ns_line ns) = Some (fmt_ld ns ++ [10])) by done. rewrite Es.
  destruct Hns as [N1 N2]. rewrite atol_fmt_ld by (done || lia). by rewrite Z.eqb_refl.
Qed.

Lemma setup_again ip msec ns v q : valid_id ns -> v <> [] -> Forall (fun c => isspace c = false) v -> (length v < 56)%nat ->
  forall s, g_last_version s = [] \/ g_last_version s = v -> Forall (fun sd => current sd <> [] /\ set_up (files s) v ns (current sd)) q -> q <> [] ->
  setup_loop ip msec ns q s = Some (Some (set_version s v)).
Proof.
  intros Hns Hne Hsp Hl. induction q as [|sd q IH]; intros s Hlast HF Hq; [done|]. apply Forall_cons in HF as [[Hc (F1 & F2 & F3 & Lc)] HF].
  assert (E1 : setup_loop ip msec ns [sd] s = Some (Some (set_version s v))).
  { cbn [setup_loop]. rewrite sprintf_bind by (rewrite length_app; change (length (lit "/VERSION")) with 8%nat; lia).
    change (current sd ++ lit "/VERSION") with (current sd ++ SLASH :: lit "VERSION"). rewrite (check_version_again ip msec v) by done.
    cbn [mbind option_bind]. change (DFS_OK =? DFS_OK) with true. cbn [negb].
    pose proof (fmt_id_length ns Hns). rewrite sprintf_bind by (rewrite !length_app; change (length (lit "/NS-")) with 4%nat; lia).
    change (current sd ++ lit "/NS-" ++ fmt_ld ns) with (current sd ++ SLASH :: ns_name ns). by rewrite check_namespace_again. }
  rewrite (setup_loop_app _ _ _ _ _ _ _ E1). destruct q as [|se q]; [done|]. rewrite IH; [by destruct s|by right|done|done].
Qed.

End DnSetup.
