(* ===== verification/DnProps.v ===== *)
(** * The datanode: what its storage promises

    The properties of the block storage of a datanode and of its reports, as
    the rest of the system sees them: a map from identifiers to blocks that
    survives restarts, whose blocks the namenode is told of and can delete. *)

From Stdlib Require Import ZArith Lia Bool String.
From stdpp Require Import base numbers gmap option list.
From S2P Require Import Prelude Libc CString Mem Buffer Task Hashtable Cache Stdio Posix NnTypes NnBlocks DnStorage DnStorageOk DnScan DnWrite DnService DnServiceOk DnSetup.

Module DnProps.
Import NnTypes Cache Stdio Posix DnStorage DnStorageOk DnScan DnWrite DnService DnServiceOk DnSetup.

(** ** A block that is being written *)

Section temp.

Context (s : dn) (B : block_map) (id ns : Z) (c : list Z).
Hypothesis HS : sound s B.
Hypothesis Hid : valid_id id.
Hypothesis Hns : valid_id ns.
Hypothesis Hplace : has_place s ns id.

Let tmp := resolve (disk s id) ++ [ns_name ns; lit "blocksBeingWritten"; blk_name id].
Hypothesis Hdir : files s !! tmp <> Some Dir.
Let f' : fs := <[tmp := File c]> (files s).

Lemma temp_kept : dirs_kept (files s) f'.
Proof. intros p Hp. unfold f'. rewrite lookup_insert_ne; [done|]. intros <-. done. Qed.

Lemma temp_size : (path_size (disk s id) [ns_name ns; lit "blocksBeingWritten"; blk_name id] + 8 < PATH_LEN)%nat.
Proof.
  destruct Hplace as (_ & _ & Hl). rewrite path_size_sum in Hl |- *. unfold blk_comps in Hl. cbn [sum_list_with] in Hl |- *.
  unfold sub_name in Hl. rewrite !length_app in Hl. change (length (lit "current")) with 7%nat in Hl. change (length (lit "subdir")) with 6%nat in Hl.
  change (length (lit "blocksBeingWritten")) with 18%nat. lia.
Qed.

Lemma temp_sound : sound (set_files s f') B.
Proof.
  pose proof (so_dirs s B HS) as HD. destruct (disk_elem s id HD (proj1 Hid)) as (sd & Hsd & Ed). pose proof temp_size as Hsz.
  destruct HS as [_ HSt HBd HC HI Hob HL Hon Hnum]. split; try done; [by apply (dirs_same s)|split|].
  - intros id' ns' c' HB. destruct (st_blocks s B HSt id' ns' c' HB) as (V1 & V2 & Hf & Ha). do 2 (split; [done|]).
    split; [|eapply above_kept; [exact temp_kept|done]]. cbn [files set_files]. change (disk (set_files s f') id') with (disk s id').
    unfold f'. rewrite lookup_insert_ne; [done|]. intros E. destruct (disk_elem s id' HD (proj1 V1)) as (se & Hse & Ee). unfold tmp in E. rewrite Ed, Ee in E.
    apply (dirs_apart s sd se) in E as [_ E]; [|done..]. discriminate (f_equal length E).
  - intros se NS a b n c' Hse Hf. cbn [files set_files g_storage_dir_q] in *. unfold f' in Hf. apply lookup_insert_Some in Hf as [[E _]|[_ Hf]].
    + unfold tmp in E. rewrite Ed in E. apply (dirs_apart s sd se) in E as [_ E]; [|done..]. discriminate (f_equal length E).
    + by apply (st_only s B HSt se NS a b n c' Hse Hf).
  - intros se p Hse [n Hp]. cbn [files set_files g_storage_dir_q] in *. unfold f' in Hp. apply lookup_insert_Some in Hp as [[E _]|[_ Hp]]; [|by apply (HBd se p Hse)].
    unfold tmp in E. rewrite Ed in E, Hsz. apply (dirs_apart s sd se) in E as [<- <-]; [|done..]. split; [|done].
    repeat (apply Forall_cons; split; [first [apply ns_name_comp, Hns|apply bbw_comp|apply blk_name_comp, Hid]|]). done.
Qed.

End temp.

(** ** The operations on the storage, and what they do to the map *)

Section ops.

Variable readdir : fs -> list name -> list name.
Variable garbage : Z.

(** How many bytes after the path of a request are unused in its memory.
    [get_block_temp_path] asks for none: with 0 a write beyond the end of the path is
    undefined, with more it is harmless as far as they reach. *)
Variable spare : nat.
Hypothesis readdir_spec : forall f p n, n <> lit "." -> n <> lit ".." -> n ∈ readdir f p <-> is_Some (f !! (p ++ [n])).

(** Data of a new block arrives, the block is complete, it is deleted, the
    scanner makes a round. *)
Inductive op := Data (ns id : Z) (c : list Z) | Done (ns id : Z) (c : list Z) | Delete (id : Z) | Scan.

(** A request with its path, whose pool has memory. *)
Definition request (s : dn) (ns id len : Z) : option dn_request_t :=
  '(_, r) ← get_block_temp_path true s (Req id ns len [] 0);
  Some (Req (block_id r) (namespace_id r) (r_len r) (r_path r) (r_cap r + spare)).

Definition run_op (o : op) (s : dn) : option dn :=
  match o with
  | Data ns id c =>
      r ← request s ns id (Z.of_nat (length c));
      f ← creat (files s) (r_path r); Some (set_files s (write f (r_path r) c))
  | Done ns id c =>
      r ← request s ns id (Z.of_nat (length c));
      '(rc, s) ← write_block_done s r; if rc =? DFS_OK then Some s else None
  | Delete id => '(_, s) ← block_object_del s id; Some s
  | Scan => blk_scanner_round readdir garbage s
  end.

Definition spec_op (o : op) (B : block_map) : block_map :=
  match o with
  | Data _ _ _ | Scan => B
  | Done ns id c => <[id := (ns, c)]> B
  | Delete id => delete id B
  end.

(** When an operation makes sense: the namespace is set up, a block is new and
    its data is there, a block to delete has been reported, and the pool has
    an object for every block. *)
Definition tmp_path (s : dn) (ns id : Z) : list name := resolve (disk s id) ++ [ns_name ns; lit "blocksBeingWritten"; blk_name id].

Definition allowed (o : op) (s : dn) (B : block_map) : Prop :=
  match o with
  | Data ns id c => valid_id ns /\ valid_id id /\ has_place s ns id /\ files s !! tmp_path s ns id <> Some Dir
  | Done ns id c => valid_id ns /\ valid_id id /\ has_place s ns id /\ files s !! tmp_path s ns id = Some (File c) /\
      files s !! (resolve (disk s id) ++ blk_comps ns id) = None /\ B !! id = None /\ roomy s (<[id := (ns, c)]> B)
  | Delete id => valid_id id /\ unreported s [id]
  | Scan => roomy s B
  end.

Fixpoint run_ops (os : list op) (s : dn) : option dn :=
  match os with [] => Some s | o :: os' => s ← run_op o s; run_ops os' s end.

Fixpoint allowed_all (os : list op) (s : dn) (B : block_map) : Prop :=
  match os with
  | [] => True
  | o :: os' => allowed o s B /\ forall s', run_op o s = Some s' -> allowed_all os' s' (spec_op o B)
  end.

Lemma request_ok s ns id len : dirs_ok s -> valid_id ns -> valid_id id -> has_place s ns id ->
  request s ns id len = Some (Req id ns len (tmp_dir (disk s id) ns id) (S (length (tmp_dir (disk s id) ns id)) + spare)) /\ resolve (tmp_dir (disk s id) ns id) = tmp_path s ns id.
Proof.
  intros HD Hns Hid HP. split; [|apply resolve_tmp_dir; [by apply disk_ne; [|apply Hid]|apply Hns|apply Hid]].
  pose proof (temp_size s id ns HP) as Hsz. unfold request, get_block_temp_path. cbn [block_id namespace_id r_len].
  rewrite get_disk_ok by (done || apply Hid). cbn [mbind option_bind]. rewrite sprintf_bind; [done|].
  enough (Hl : length (disk s id ++ lit "/NS-" ++ fmt_ld ns ++ lit "/blocksBeingWritten/blk_" ++ fmt_ld id) =
    path_size (disk s id) [ns_name ns; lit "blocksBeingWritten"; blk_name id]) by lia.
  rewrite path_size_sum. cbn [sum_list_with]. unfold ns_name, blk_name. rewrite !length_app.
  change (length (lit "/NS-")) with 4%nat. change (length (lit "NS-")) with 3%nat. change (length (lit "blocksBeingWritten")) with 18%nat.
  change (length (lit "/blocksBeingWritten/blk_")) with 24%nat. change (length (lit "blk_")) with 4%nat. lia.
Qed.

Lemma parent_tmp s ns id : parent (tmp_path s ns id) = resolve (disk s id) ++ [ns_name ns; lit "blocksBeingWritten"].
Proof.
  unfold tmp_path. change [ns_name ns; lit "blocksBeingWritten"; blk_name id] with ([ns_name ns; lit "blocksBeingWritten"] ++ [blk_name id]).
  rewrite app_assoc. apply parent_app.
Qed.

Lemma data_step s B ns id c : reps s B -> allowed (Data ns id c) s B ->
  run_op (Data ns id c) s = Some (set_files s (<[tmp_path s ns id := File c]> (files s))).
Proof.
  intros HR (Hns & Hid & HP & Ht). pose proof (so_dirs s B (proj1 HR)) as HD. cbn [run_op].
  destruct (request_ok s ns id (Z.of_nat (length c)) HD Hns Hid HP) as [-> Hres]. cbn [mbind option_bind r_path].
  unfold creat, write. rewrite Hres, parent_tmp, bool_decide_eq_false_2 by done. destruct HP as (Hab & Hbbw & Hl). rewrite Hbbw.
  cbn [negb andb mbind option_bind]. by rewrite insert_insert_eq.
Qed.

(** The path of a complete block is 3 to 7 bytes longer than that of its temporary file. *)
Lemma longer cur ns id : 0 <= id ->
  (length (tmp_dir cur ns id) + 3 <= length (blk_dir cur ns id) <= length (tmp_dir cur ns id) + 7)%nat.
Proof.
  intros Hid. unfold tmp_dir, blk_dir. rewrite !length_app.
  assert (HL : forall z, 0 <= z -> (length (fmt_ld (Z.rem z SUBDIR_LEN)) <= 2)%nat).
  { intros z Hz. pose proof (Z.rem_bound_pos z SUBDIR_LEN Hz ltac:(unfold SUBDIR_LEN; lia)) as Hb. unfold SUBDIR_LEN in *. apply fmt_ld_length; lia. }
  pose proof (HL id Hid). pose proof (HL (Z.rem id 1000) ltac:(apply Z.rem_nonneg; lia)).
  change (length (lit "/blocksBeingWritten/blk_")) with 24%nat. change (length (lit "/current/subdir")) with 15%nat. change (length (lit "/subdir")) with 7%nat.
  change (length (lit "/blk_")) with 5%nat. lia.
Qed.

Definition fits_spare (s : dn) (ns id : Z) : bool := (length (blk_dir (disk s id) ns id) <? S (length (tmp_dir (disk s id) ns id)) + spare)%nat.

Lemma done_step s B ns id c : reps s B -> allowed (Done ns id c) s B ->
  if fits_spare s ns id then exists s' x, run_op (Done ns id c) s = Some s' /\ reps s' (<[id := (ns, c)]> B) /\ roomy s' (<[id := (ns, c)]> B) /\
    que (g_recv_blk_report s') = que (g_recv_blk_report s) ++ [x] /\ g_blk_report s' = g_blk_report s
  else run_op (Done ns id c) s = None.
Proof.
  intros HR (Hns & Hid & HP & Ht & Hf & HB & HR'). pose proof (so_dirs s B (proj1 HR)) as HD. cbn [run_op].
  destruct (request_ok s ns id (Z.of_nat (length c)) HD Hns Hid HP) as [-> Hres]. cbn [mbind option_bind]. destruct HP as (Hab & Hbbw & Hl). rewrite <-Hres in Ht.
  set (r := Req _ _ _ _ _). assert (HY : ready s r c) by done. unfold fits_spare. destruct (Nat.ltb_spec (length (blk_dir (disk s id) ns id)) (S (length (tmp_dir (disk s id) ns id)) + spare)).
  - destruct (write_done_ok s B r c HR) as (x & s' & -> & HR1 & HR2 & Q1 & Q2 & _); try done. by exists s', x.
  - by rewrite (write_done_short s B r c (proj1 HR) HY).
Qed.

Definition completes (o : op) : bool := match o with Done _ _ _ => true | _ => false end.

(** One operation. *)
Lemma op_ok o s B : reps s B -> allowed o s B -> completes o = false \/ (7 <= spare)%nat -> exists s', run_op o s = Some s' /\ reps s' (spec_op o B).
Proof.
  intros HR HA HC. pose proof (so_dirs s B (proj1 HR)) as HD. destruct o as [ns id c|ns id c|id|].
  - pose proof (data_step s B ns id c HR HA) as E. rewrite E. eexists. split; [reflexivity|]. destruct HA as (Hns & Hid & HP & Ht).
    destruct HR as [HS HPr]. split; [|exact HPr]. by apply temp_sound.
  - pose proof (done_step s B ns id c HR HA) as H. destruct HC as [|HC]; [done|]. destruct HA as (_ & Hid & _).
    pose proof (longer (disk s id) ns id (proj1 Hid)). unfold fits_spare in H. rewrite (proj2 (Nat.ltb_lt _ _)) in H by lia.
    destruct H as (s' & x & E & HR' & _). by exists s'.
  - cbn [run_op spec_op allowed] in *. destruct HA as (Hid & Hu). destruct (B !! id) as [[ns c]|] eqn:HB.
    + destruct (block_del_ok s B id ns c HR HB) as (s' & -> & HR1 & _); [|by exists s']. intros x k Hx E. apply (Hu x k Hx). rewrite E. by left.
    + rewrite (block_del_absent s B id HR Hid HB). exists s. split; [done|]. by rewrite delete_id.
  - destruct (scanner_round_ok readdir garbage B readdir_spec s (proj1 HR) HA) as (s' & Hrun & HR' & _). by exists s'.
Qed.

Lemma ops_ok os : forall s B, reps s B -> allowed_all os s B -> existsb completes os = false \/ (7 <= spare)%nat ->
  exists s', run_ops os s = Some s' /\ reps s' (foldl (fun B o => spec_op o B) B os).
Proof.
  induction os as [|o os IH]; intros s B HR HA HC; [by exists s|]. destruct HA as [HA HA']. cbn [existsb] in HC. rewrite orb_false_iff in HC.
  destruct (op_ok o s B HR HA ltac:(tauto)) as (s1 & H1 & HR1).
  destruct (IH s1 _ HR1 (HA' s1 H1) ltac:(tauto)) as (s' & H' & HR'). exists s'. cbn [run_ops foldl]. by rewrite H1.
Qed.

Lemma ops_overrun os : forall s B, reps s B -> allowed_all os s B -> existsb completes os = true -> spare = 0%nat -> run_ops os s = None.
Proof.
  induction os as [|o os IH]; intros s B HR HA HC H0; [done|]. destruct HA as [HA HA']. cbn [existsb run_ops] in *.
  destruct (completes o) eqn:EC.
  - destruct o as [|ns id c| |]; try done. pose proof (done_step s B ns id c HR HA) as H. destruct HA as (_ & Hid & _).
    pose proof (longer (disk s id) ns id (proj1 Hid)). unfold fits_spare in H. rewrite (proj2 (Nat.ltb_ge _ _)) in H by lia. by rewrite H.
  - destruct (op_ok o s B HR HA ltac:(by left)) as (s1 & H1 & HR1). rewrite H1. cbn [mbind option_bind]. by apply (IH s1 (spec_op o B) HR1 (HA' s1 H1)).
Qed.

(** C9. The storage of a datanode implements a finite map from block
    identifiers to contents, up to one overrun.  Data of new blocks, deletions and
    rounds of the scanner, in any order that makes sense, run without undefined
    behaviour and leave files and cache that represent the map after the
    operations: every block in its file under its name and in the cache with
    its size and path, and nothing else.  Completed blocks do the same, as
    insertions, when at least 7 bytes after the path of a request are unused; with
    exactly the memory that [get_block_temp_path] asks for, the first completed block
    writes past its end, and a sequence that has one is undefined.  Identifiers of
    blocks and namespaces are below 10^15, the namespace is set up, a block
    to complete is new and its data is there, a block to delete has been reported,
    and the pool has an object for every block. *)
Theorem datanode_refines_map os s B :
  reps s B -> allowed_all os s B ->
  (existsb completes os = false \/ (7 <= spare)%nat -> exists s', run_ops os s = Some s' /\ reps s' (foldl (fun B o => spec_op o B) B os)) /\
  (existsb completes os = true -> spare = 0%nat -> run_ops os s = None).
Proof. intros HR HA. split; [by apply ops_ok|by apply (ops_overrun os s B)]. Qed.

End ops.

(** ** A sample datanode *)

Definition sample : dn :=
  Dn [Sd 0 (lit "d/current")] 1 [] (empty_cache [100; 200; 300] 7) {[ [lit "."; lit "d"; lit "current"] := Dir ]} (Rep [] 0) (Rep [] 0).

(** The names in a directory. *)
Definition list_dir (f : fs) (p : list name) : list name :=
  omap (fun kv => match last kv.1 with Some n => if decide (kv.1 = p ++ [n]) then Some n else None | None => None end) (map_to_list f).

Lemma list_dir_spec f p n : n <> lit "." -> n <> lit ".." -> n ∈ list_dir f p <-> is_Some (f !! (p ++ [n])).
Proof.
  intros _ _. unfold list_dir. rewrite list_elem_of_omap. split.
  - intros ([k i] & Hk & E). apply elem_of_map_to_list in Hk. cbn in E. destruct (last k) as [m|] eqn:El; [|done]. case_decide as Ed; [|done].
    injection E as ->. rewrite <-Ed. eauto.
  - intros [i Hi]. exists (p ++ [n], i). split; [by apply elem_of_map_to_list|]. cbn. by rewrite last_snoc, decide_True.
Qed.

Lemma sample_dir : resolve (lit "d/current") = [lit "."; lit "d"; lit "current"].
Proof. vm_compute. reflexivity. Qed.

Lemma sample_dirs : dirs_ok sample.
Proof.
  split; try done.
  - intros i sd Hi. destruct i; [injection Hi as <-; done|done].
  - intros sd Hsd%list_elem_of_singleton. by subst.
  - intros i j sd se Hi Hj _. apply lookup_lt_Some in Hi, Hj. cbn in Hi, Hj. lia.
Qed.

Lemma sample_fresh : fresh sample.
Proof.
  split; try done; [apply sample_dirs|..].
  - intros sd Hsd%list_elem_of_singleton. subst sd. split; [done|]. split; [|by_decide]. intros n q. apply lookup_singleton_None.
    intros E. apply (f_equal length) in E. cbn [current] in E. rewrite sample_dir, !length_app in E. cbn [length] in E. lia.
  - apply empty_ok; [lia|]. by_decide.
Qed.

(** The sample after its set-up, with one complete block. *)
Lemma sample_set_up : exists s, sound s ∅ /\ (forall id, valid_id id -> has_place s 1 id) /\ disk s 7 = lit "d/current" /\
  objs (g_dn_bcm s) = ∅ /\ length (free (g_dn_bcm s)) = 3%nat /\
  files s !! tmp_path s 1 7 = None /\ files s !! (resolve (disk s 7) ++ blk_comps 1 7) = None.
Proof.
  destruct (setup_fresh (lit "10.0.0.1") 5 1 sample sample_fresh ltac:(unfold valid_id; lia) eq_refl ltac:(cbn; lia)) as (s & _ & HS & HP & _ & Q & C & _ & HT).
  exists s. split; [done|]. split; [done|]. assert (Hd : disk s 7 = lit "d/current").
  { unfold disk. rewrite (di_n s (so_dirs s ∅ HS)), Q. done. }
  split; [done|]. rewrite C. split; [done|]. split; [done|]. unfold tmp_path. rewrite Hd.
  split; apply eq_None_not_Some; intros [n Hn]; apply (HT (Sd 0 (lit "d/current"))) in Hn; try (by left); unfold tree_path, blk_comps in Hn;
    destruct Hn as [E|[E|[E|[E|[E|[E|(k & _ & [E|(l & _ & E)])]]]]]]; try discriminate E; injection E; intros; try done.
Qed.

Lemma place_kept s f' ns id : dirs_kept (files s) f' -> has_place s ns id -> has_place (set_files s f') ns id.
Proof.
  intros HK (Ha & Hb & Hl). split; [by eapply above_kept|]. split; [|done]. cbn [files set_files].
  change (disk (set_files s f') id) with (disk s id). revert Hb. unfold is_dir. destruct (resolve (disk s id)) as [|a [|b p]]; cbn [app]; intros H%bool_decide_eq_true; by apply bool_decide_eq_true, HK.
Qed.

Lemma sample_allowed spare : exists s, reps s ∅ /\ allowed_all list_dir 0 spare [Data 1 7 [1; 2; 3]; Done 1 7 [1; 2; 3]; Scan] s ∅.
Proof.
  destruct sample_set_up as (s & HS & HP & Hd & Ho & Hf & Ht & Hb). exists s. assert (HR : reps s ∅) by (split; [done|]; by intros id [? ?%lookup_empty_Some]).
  assert (V1 : valid_id 1) by (unfold valid_id; lia). assert (V7 : valid_id 7) by (unfold valid_id; lia).
  assert (A1 : allowed (Data 1 7 [1; 2; 3]) s ∅) by (split; [done|]; split; [done|]; split; [by apply HP|by rewrite Ht]).
  split; [done|]. split; [exact A1|]. intros s1 E1. rewrite (data_step list_dir 0 spare s ∅) in E1 by done. injection E1 as <-.
  set (s1 := set_files s _). assert (HR1 : reps s1 ∅) by (split; [apply temp_sound; [done..|by apply HP|change (files s !! tmp_path s 1 7 <> Some Dir); by rewrite Ht]|]; by intros id [? ?%lookup_empty_Some]).
  assert (A2 : allowed (Done 1 7 [1; 2; 3]) s1 ∅).
  { split; [done|]. split; [done|]. split.
    - apply place_kept; [|by apply HP]. intros p Hp. rewrite lookup_insert_ne; [done|]. intros <-. congruence.
    - split; [apply lookup_insert_eq|]. split; [|split; [done|]].
      + cbn [files s1 set_files]. change (disk s1 7) with (disk s 7). rewrite lookup_insert_ne; [done|]. unfold tmp_path. intros E. apply app_inv_head in E. discriminate (f_equal length E).
      + unfold roomy. cbn [spec_op g_dn_bcm s1 set_files]. rewrite Ho, Hf, map_size_insert_None by done. rewrite !map_size_empty. lia. }
  split; [exact A2|]. intros s2 E2. pose proof (done_step list_dir 0 spare s1 ∅ 1 7 [1; 2; 3] HR1 A2) as HD. destruct (fits_spare spare s1 1 7); [|congruence].
  destruct HD as (s' & x & E & _ & HR2 & _). rewrite E in E2. injection E2 as <-. done.
Qed.

Lemma datanode_refines_map_witness : let os := [Data 1 7 [1; 2; 3]; Done 1 7 [1; 2; 3]; Scan] in
  (exists s s', reps s ∅ /\ run_ops list_dir 0 7 os s = Some s' /\ reps s' {[7 := (1, [1; 2; 3])]}) /\
  (exists s, reps s ∅ /\ run_ops list_dir 0 0 os s = None).
Proof.
  intros os. split.
  - destruct (sample_allowed 7) as (s & HR & HA).
    destruct (proj1 (datanode_refines_map list_dir 0 7 list_dir_spec os s ∅ HR HA) ltac:(by right)) as (s' & H1 & H2). by exists s, s'.
  - destruct (sample_allowed 0) as (s & HR & HA). exists s. split; [exact HR|].
    exact (proj2 (datanode_refines_map list_dir 0 0 list_dir_spec os s ∅ HR HA) eq_refl eq_refl).
Defined.

Lemma sample_block : exists s, reps s {[7 := (1, [1; 2; 3])]}.
Proof. destruct (sample_allowed 7) as (s & HR & HA). destruct (ops_ok list_dir 0 7 list_dir_spec _ s ∅ HR HA ltac:(by right)) as (s' & _ & H). by exists s'. Qed.

(** ** The set-up of a namespace *)

(** A datanode without blocks in which every block of a namespace has a place. *)
Definition set_up_for (s : dn) (ns : Z) : Prop := sound s ∅ /\ forall id, valid_id id -> has_place s ns id.

(** An answer to a heartbeat that lists blocks to delete. *)
Definition deletes (t : Task.task_t) (ids : list Z) : Prop :=
  Task.task_ok t /\ Task.ret t = DFS_OK /\ Task.data_len t = Z.of_nat (length (ids_bytes ids)) /\ Z.of_nat (length ids) < 2 ^ 20.

(** The file of a request can be renamed to its final name. *)
Definition can_complete (s : dn) (r : dn_request_t) : Prop := forall curDir, get_disk_id s (block_id r) = Some curDir ->
  is_Some (rename (files s) (r_path r) (blk_dir curDir (namespace_id r) (block_id r))).

(** The identifier the namenode gives to the next block. *)
Definition next_id (b : NnBlocks.blocks) (now : Z) : Z := (NnBlocks.generate_uid b now).1.

(** An object of the cache with an identifier. *)
Definition cached_as (s : dn) (x id : Z) : Prop := exists k, objs (g_dn_bcm s) !! x = Some k /\ b_id k = id.

(** C15. Setting up a namespace on empty storage directories gives a datanode
    with no blocks in which every block of the namespace has a place: the
    directories of its path exist and the path fits in its array.  Starting
    again, without the identifier in memory, the set-up accepts the
    directories, changes no file and reads the same identifier back. *)
Theorem setup_establishes ip msec msec' ns s :
  fresh s -> valid_id ns -> g_last_version s = [] -> Forall (fun c => isspace c = false) ip -> 0 <= msec -> (length (new_version ip msec) < 56)%nat ->
  exists s', setup_ns_storage ip msec ns s = Some (Some s') /\ set_up_for s' ns /\
    setup_ns_storage ip msec' ns (set_version s' []) = Some (Some s').
Proof.
  intros HF Hns Hv Hip Hm Hl. destruct (setup_fresh ip msec ns s HF Hns Hv Hl) as (s' & E & HS & HP & Hv' & Q & _ & HU & _).
  exists s'. split; [done|]. split; [done|]. unfold setup_ns_storage. cbn [g_storage_dir_q set_version]. rewrite Q.
  rewrite (setup_again ip msec' ns (new_version ip msec)); [rewrite <-Hv'; by destruct s'|done|done| |done|by left|..].
  - unfold new_version. repeat (apply Forall_app; split; [by_decide || done|]). eapply Forall_impl; [by apply fmt_ld_digits|].
    intros c Hc. unfold isdigit in Hc. unfold isspace. lia.
  - apply Forall_forall. intros sd Hsd. split; [by apply (di_ne s (fr_dirs s HF))|by apply HU].
  - pose proof (di_n s (fr_dirs s HF)). pose proof (di_pos s (fr_dirs s HF)). intros E0. rewrite E0 in *. cbn in *. lia.
Qed.

Lemma setup_establishes_witness : exists s',
  setup_ns_storage (lit "10.0.0.1") 5 1 sample = Some (Some s') /\ set_up_for s' 1 /\
  setup_ns_storage (lit "10.0.0.1") 9 1 (set_version s' []) = Some (Some s').
Proof.
  apply (setup_establishes (lit "10.0.0.1") 5 9 1 sample sample_fresh); [unfold valid_id; lia|reflexivity|by_decide|lia|by_decide].
Defined.

(** ** Heartbeats *)

(** The frame of a task without data. *)
Lemma plain_task c ip : in_u 32 c -> (length ip < 256)%nat -> exists t f,
  out_task c ip 0 0 = Some t /\ encode_out t [] = Some f /\ open_frame f = Some (c, []).
Proof.
  intros Hc Hip. set (t := Task.Tsk c 0 0 0 0 0 (ip ++ replicate (Task.KEY_LEN - length ip) 0) (replicate Task.OWNER_LEN 0) (replicate Task.GROUP_LEN 0) 0 0 0 0 0).
  assert (OK : Task.task_ok t).
  { unfold t, Task.task_ok. cbn [Task.cmd Task.ret Task.seq Task.pad0 Task.opq Task.master_nodeid Task.key Task.user Task.group Task.permission Task.pad1 Task.data_len Task.pad2 Task.data].
    rewrite length_app, !length_replicate. change Task.KEY_LEN with 256%nat. unfold in_u, in_s in *. repeat split; lia. }
  exists t, (frame_bytes t []). split; [|split].
  - unfold out_task. by rewrite sprintf_bind.
  - apply encode_out_ok; [done|done|cbn; lia|by right].
  - apply (open_frame_bytes t []); [done|done|cbn; lia].
Qed.

(** A heartbeat deletes exactly the blocks that the answer of the namenode
    lists: their files are removed and they leave the cache, identifiers the
    datanode does not have are skipped, and all other blocks stay.  The blocks
    must not be waiting for a report. *)
Theorem heartbeat_deletes {P} (net : P -> list Z -> P * exchange) ip p p' t ids s B :
  reps s B -> Forall valid_id ids -> unreported s ids -> (length ip < 256)%nat ->
  deletes t ids ->
  (forall f, open_frame f = Some (DN_HEARTBEAT, []) -> net p f = (p', Answer (frame_bytes t (ids_bytes ids)))) ->
  exists s', send_heartbeat net ip p s = Some (DFS_OK, p', s') /\ reps s' (foldl (fun B i => delete i B) B ids).
Proof.
  intros HR Hv Hu Hip (OK & Hret & L & Hn) Hnet. destruct (plain_task DN_HEARTBEAT ip ltac:(done) Hip) as (t0 & f & E0 & E1 & E2).
  unfold send_heartbeat. rewrite (option_bind_eq _ _ _ E0), (option_bind_eq _ _ _ E1), (Hnet f E2).
  pose proof (ids_bytes_length ids) as Li.
  destruct (heap_answer_ok t (ids_bytes ids) OK L) as [HA HM]. { unfold Task.frame_len. lia. }
  rewrite (option_bind_eq _ _ _ HA). unfold Task.received. rewrite L. destruct (Z.ltb_spec 0 (Z.of_nat (length (ids_bytes ids)))) as [Hp|Hp].
  - cbn [Task.ret Task.set_opq Task.set_data Task.data Task.data_len]. rewrite Hret, L. change (DFS_OK =? DFS_OK) with true.
    rewrite (proj2 (Z.ltb_lt _ _) Hp). change (PNEXT + 344 =? 0) with false. cbn [negb andb].
    replace (Z.of_nat (length (ids_bytes ids))) with (8 * Z.of_nat (length ids)) by lia. rewrite Li in HM.
    destruct (delete_blks_ok (bytes_at PNEXT (frame_bytes t (ids_bytes ids))) ids (S (Z.to_nat (8 * Z.of_nat (length ids)))) (PNEXT + 344) s B) as (s' & E & HR' & _); [lia|done..|].
    rewrite (option_bind_eq _ _ _ E). by exists s'.
  - cbn [Task.ret Task.set_opq Task.data Task.data_len]. rewrite Hret, L. change (DFS_OK =? DFS_OK) with true.
    rewrite (proj2 (Z.ltb_ge _ _) Hp), andb_false_r. cbn [negb]. exists s. split; [done|]. destruct ids; [done|]. cbn [length] in Li. lia.
Qed.

(** An answer without data. *)
Definition ack : list Z := frame_bytes Task.task_clear [].

Lemma ack_accepted : exists t, answer_task ack = Some t /\ Task.ret t = DFS_OK.
Proof. eexists. split; [vm_compute; reflexivity|reflexivity]. Qed.

Lemma sample_ip : Libc.is_cstr (lit "10.0.0.1") /\ (length (lit "10.0.0.1") < 32)%nat.
Proof. split; by_decide. Qed.

(** The sample with its block, reported. *)
Lemma sample_reported : exists s, reps s {[7 := (1, [1; 2; 3])]} /\ que (g_recv_blk_report s) = [] /\ que (g_blk_report s) = [].
Proof.
  destruct sample_block as (s & HS & HP). destruct sample_ip as [I1 I2].
  destruct (offer_drains (lit "10.0.0.1") ack I1 I2 ack_accepted (length (que (g_recv_blk_report s)) + length (que (g_blk_report s))) s _ [] HS) as (fs & s' & _ & HS' & C & _ & Q1 & Q2 & _); [lia..|].
  exists s'. split; [|done]. split; [done|]. intros id Hid. destruct (HP id Hid) as (x & k & Hx & Hk). exists x, k. by rewrite C.
Qed.

Definition sample_answer : Task.task_t := Task.Tsk 0 0 0 0 0 0 (replicate 256 0) (replicate 16 0) (replicate 16 0) 0 0 16 0 0.

Lemma heartbeat_deletes_witness : exists s s', reps s {[7 := (1, [1; 2; 3])]} /\
  send_heartbeat (fun (p : unit) _ => (p, Answer (frame_bytes sample_answer (ids_bytes [5; 7]))))
    (lit "10.0.0.1") tt s = Some (DFS_OK, tt, s') /\ reps s' ∅.
Proof.
  destruct sample_reported as (s & HR & Q1 & Q2).
  destruct (heartbeat_deletes (fun (p : unit) _ => (p, Answer (frame_bytes sample_answer (ids_bytes [5; 7]))))
    (lit "10.0.0.1") tt tt sample_answer [5; 7] s _ HR) as (s' & H1 & H2).
  - repeat constructor; unfold valid_id; lia.
  - intros x k _ _. rewrite Q1, Q2. apply not_elem_of_nil.
  - by_decide.
  - unfold deletes. split; [by_decide|]. split; [reflexivity|]. split; [reflexivity|]. cbn. lia.
  - reflexivity.
  - exists s, s'. split; [done|]. split; [exact H1|]. exact H2.
Defined.

(** ** Restart *)

(** C14. No block is lost by a restart, and the namenode is told of all of
    them.  With an empty cache and empty queues, over the files of a datanode
    with the blocks [B], one round of the scanner fills the cache with exactly
    the blocks of [B]; the service then sends one block report for each of
    them, with its identifier and size, to a namenode that accepts them, in as
    many turns as there are blocks, and the queues are empty.  The identifiers of
    the blocks are below 10^15 ([sound]); those that the namenode gives out are larger
    from its 232831st block on, and the scanner then overruns its array. *)
Theorem restart_reports_blocks readdir garbage ip ack s B xs n :
  (forall f p m, m <> lit "." -> m <> lit ".." -> m ∈ readdir f p <-> is_Some (f !! (p ++ [m]))) ->
  (exists t, answer_task ack = Some t /\ Task.ret t = DFS_OK) -> Libc.is_cstr ip -> (length ip < 32)%nat ->
  sound s B -> NoDup xs -> (0 < n)%nat -> (size B <= length xs)%nat ->
  exists s1 s2 log, blk_scanner_round readdir garbage (restarted s xs n) = Some s1 /\
    offer_service (accepting ack) ip (replicate (size B) false) [] s1 = Some (DFS_OK, log, s2) /\
    reps s2 B /\ files s2 = files s /\ que (g_recv_blk_report s2) = [] /\ que (g_blk_report s2) = [] /\
    report_of <$> log ≡ₚ (fun b => Some (DN_BLK_REPORT, b.1, Z.of_nat (length b.2.2) mod 2 ^ 64, ip)) <$> map_to_list B.
Proof.
  intros Hr Ha I1 I2 HS Hx Hn Hsz. destruct (restart_scan readdir garbage s B xs n Hr HS Hx Hn Hsz) as (s1 & E1 & HR1 & F1 & Q1 & Hall).
  pose proof (announcements_perm ip s1 B HR1 Hall) as HP. assert (Hlen : length (que (g_blk_report s1)) = size B).
  { apply Permutation_length in HP. by rewrite !length_fmap, length_map_to_list in HP. }
  destruct (offer_drains ip ack I1 I2 Ha (size B) s1 B [] (proj1 HR1)) as (log & s2 & E2 & HS2 & C & F2 & R1 & R2 & HL); [rewrite Q1; cbn; lia|lia|].
  exists s1, s2, log. split; [done|]. split; [done|]. split.
  - split; [done|]. intros id Hid. destruct (proj2 HR1 id Hid) as (x & k & Hk & <-). exists x, k. by rewrite C.
  - split; [by rewrite F2|]. split; [done|]. split; [done|]. rewrite HL, Q1. exact HP.
Qed.

Lemma restart_reports_blocks_witness : exists s s1 s2 log, sound s {[7 := (1, [1; 2; 3])]} /\
  blk_scanner_round list_dir 0 (restarted s [10; 20] 5) = Some s1 /\
  offer_service (accepting ack) (lit "10.0.0.1") (replicate 1 false) [] s1 = Some (DFS_OK, log, s2) /\
  report_of <$> log ≡ₚ [Some (DN_BLK_REPORT, 7, 3, lit "10.0.0.1")].
Proof.
  destruct sample_block as (s & HS & _). destruct sample_ip as [I1 I2].
  destruct (restart_reports_blocks list_dir 0 (lit "10.0.0.1") ack s {[7 := (1, [1; 2; 3])]} [10; 20] 5 list_dir_spec ack_accepted I1 I2 HS) as (s1 & s2 & log & E1 & E2 & _ & _ & _ & _ & HL).
  - by_decide.
  - lia.
  - rewrite map_size_singleton. cbn. lia.
  - exists s, s1, s2, log. split; [done|]. split; [exact E1|]. split; [exact E2|]. exact HL.
Defined.

(** ** Where the code goes wrong *)

Lemma sprintf_inv cap s b : sprintf cap s = Some b -> b = s /\ (length s < cap)%nat.
Proof. unfold sprintf. destruct (Nat.ltb_spec (length s) cap); [|done]. by intros [= <-]. Qed.

(** The path of a complete block does not fit the memory of the path of its temporary file. *)
Lemma complete_overruns s s2 r r' : get_block_temp_path true s r = Some (DFS_OK, r') -> get_disk_id s2 (block_id r') = get_disk_id s (block_id r') -> can_complete s2 r' -> write_block_done s2 r' = None.
Proof.
  unfold can_complete, get_block_temp_path, write_block_done. destruct (get_disk_id s (block_id r)) as [cur|] eqn:Ed; [|done]. cbn [mbind option_bind].
  destruct (sprintf PATH_LEN (cur ++ _)) as [tmp|] eqn:Et; [|done]. cbn [mbind option_bind]. intros [= <-] Ed2 Hr. cbn [block_id namespace_id r_path r_cap r_len] in *.
  rewrite Ed2, Ed in *. cbn [mbind option_bind]. destruct (sprintf PATH_LEN (blk_dir cur (namespace_id r) (block_id r))) as [b|] eqn:Eb; [|done]. cbn [mbind option_bind].
  apply sprintf_inv in Et as [-> _], Eb as [-> _]. destruct (Hr cur eq_refl) as [f Ef]. rewrite Ef. unfold sprintf.
  rewrite (proj2 (Nat.ltb_ge _ _)); [done|]. unfold blk_dir. rewrite !length_app.
  change (length (lit "/blocksBeingWritten/blk_")) with 24%nat. change (length (lit "/current/subdir")) with 15%nat. change (length (lit "/subdir")) with 7%nat.
  change (length (lit "/blk_")) with 5%nat. lia.
Qed.

(** [write_block_done] always writes past the end of the memory of the
    path.  [get_block_temp_path] allocates the path of the temporary file, and
    after the rename the path of the complete block, which is longer, is
    copied there. *)
Theorem write_block_done_overruns s r r' :
  get_block_temp_path true s r = Some (DFS_OK, r') -> can_complete s r' -> write_block_done s r' = None.
Proof. intros Hr Hc. by apply (complete_overruns s s r r'). Qed.

(** The sample with a block that is being written. *)
Definition sample_writing : dn :=
  let p := [lit "."; lit "d"; lit "current"; lit "NS-1"] in
  set_files sample (list_to_map [(p, Dir); (p ++ [lit "blocksBeingWritten"], Dir); (p ++ [lit "blocksBeingWritten"; lit "blk_7"], File [1; 2; 3]);
    (p ++ [lit "current"; lit "subdir7"; lit "subdir7"], Dir)]).

Lemma write_block_done_overruns_witness :
  write_block_done sample_writing (Req 7 1 3 (lit "d/current/NS-1/blocksBeingWritten/blk_7") 40) = None.
Proof.
  apply (write_block_done_overruns sample_writing (Req 7 1 3 [] 0)); [vm_compute; reflexivity|]. intros cur Hc. vm_compute in Hc. injection Hc as <-. by_decide.
Defined.

Lemma get_blk_id_long id : 10 ^ 15 <= id < 2 ^ 63 -> (i ← get_blk_id (blk_name id); atol16 i) = None.
Proof.
  intros Hid. assert (Hl : (16 <= length (fmt_ld id))%nat).
  { destruct (Nat.le_gt_cases 16 (length (fmt_ld id))) as [H|H]; [done|]. assert (H' : (length (fmt_ld id) <= 15)%nat) by lia.
    apply fmt_ld_length in H'; [|lia..]. change (10 ^ Z.of_nat 15) with (10 ^ 15) in H'. lia. }
  change (get_blk_id (blk_name id)) with (get_id (fmt_ld id)). unfold get_id. destruct (Nat.leb_spec (length (fmt_ld id)) 16) as [H|H]; [|done]. cbn [mbind option_bind].
  unfold atol16. rewrite bool_decide_eq_false_2; [done|]. replace (16 - length (fmt_ld id))%nat with 0%nat by lia. cbn [replicate]. rewrite app_nil_r.
  intros H0. pose proof (fmt_ld_digits id ltac:(lia)) as Hd. rewrite Forall_forall in Hd. by specialize (Hd 0 H0).
Qed.

(** The scanner cannot read the identifiers that the namenode gives out:
    it copies the digits of a name to an array of 16 bytes, which has no room
    for the final NUL of identifiers of 16 digits, and the identifier is
    2^32 times a sequence number plus the time.  From the 232831st block on, a
    scan of a directory with the file of such a block leaves the array. *)
Theorem scan_overruns_namenode_ids readdir garbage b now names dir nsid s :
  232831 <= NnBlocks.sequence b < 2 ^ 31 ->
  let id := next_id b now in
  is_file s dir (blk_name id) = true -> opendir s dir = true -> readdir (files s) (resolve dir) = blk_name id :: names ->
  scan_subdir_subdir readdir garbage dir nsid s = None.
Proof.
  intros Hs id Hf Ho Hr. assert (Hid : 10 ^ 15 <= id < 2 ^ 63).
  { unfold id, next_id, NnBlocks.generate_uid. cbn [fst]. pose proof (uwrap_range 32 (now / 1000) ltac:(lia)) as Hu. unfold in_u in Hu. change (u32 (now / 1000)) with (uwrap 32 (now / 1000)). lia. }
  unfold scan_subdir_subdir. rewrite Ho, Hr. cbn [blks_loop]. rewrite Hf.
  change (Libc.strncmp (blk_name id) (lit "blk_") 4) with (Libc.strncmp (lit "blk_" ++ fmt_ld id) (lit "blk_") (length (lit "blk_"))).
  rewrite strncmp_lit by by_decide. cbn [andb]. pose proof (get_blk_id_long id Hid) as E.
  destruct (get_blk_id (blk_name id)) as [i|]; [|done]. cbn [mbind option_bind] in E |- *. rewrite E. by destruct (sprintf _ _).
Qed.

Lemma scan_overruns_namenode_ids_witness :
  scan_subdir_subdir (fun _ _ => [lit "blk_1000001530494976"]) 0 (lit "d") 1
    (set_files sample (list_to_map [([lit "."; lit "d"], Dir); ([lit "."; lit "d"; lit "blk_1000001530494976"], File [])])) = None.
Proof.
  apply (scan_overruns_namenode_ids _ 0 (NnBlocks.Blocks (empty_cache [] 1) (empty_cache [] 1) ∅ [] 0 (empty_cache [] 1) 0 232831) 0 []).
  - cbn [NnBlocks.sequence]. lia.
  - vm_compute. reflexivity.
  - vm_compute. reflexivity.
  - vm_compute. reflexivity.
Defined.

(** The scanner and the completion of a block race.  When the scanner finds
    the file of a block between the rename and the entry into the cache, the
    completion enters the block a second time: two objects of the cache have
    its identifier. *)
Theorem scan_race_duplicates garbage s B id ns ns' c r :
  sound s B -> roomy s B -> B !! id = Some (ns, c) -> ~ present s id -> (2 <= length (free (g_dn_bcm s)))%nat ->
  block_id r = id -> r_path r = blk_dir (disk s id) ns id ->
  exists s1 s2 x y, block_object_add garbage s (blk_dir (disk s id) ns id) ns' id = Some (DFS_OK, s1) /\
    recv_blk_report s1 r = Some (DFS_OK, s2) /\ x <> y /\
    cached_as s2 x id /\ cached_as s2 y id.
Proof.
  intros HS HR HB Hno Hfr Er Ep. destruct (block_add_ok garbage s B id ns c ns' HS HR HB) as (s1 & E1 & HS1 & _ & HG & (x & k & Hx & Hk)).
  assert (Hf1 : exists y fr, free (g_dn_bcm s1) = y :: fr).
  { unfold block_object_add in E1. destruct (block_object_get s id) as [[?|]|] eqn:Eg; [| |done]; cbn [mbind option_bind] in E1.
    - injection E1 as <-. by destruct Hno; exists x, k.
    - unfold new_block in E1. destruct (sprintf _ _) as [p|]; [|done]. cbn [mbind option_bind] in E1. unfold add in E1.
      destruct (free (g_dn_bcm s)) as [|a [|b fr]]; [done|cbn in Hfr; lia|]. destruct (c_hash _ _ _); [|done]. cbn [mbind option_bind] in E1.
      destruct (_ || _); [done|]. cbn [mbind option_bind] in E1. injection E1 as <-. cbn. eauto. }
  destruct Hf1 as (y & fr & Hf1). destruct (add_ok (g_dn_bcm s1) (Bi id (r_len r) (blk_dir (disk s id) ns id)) y fr (so_cache s1 B HS1) Hf1) as (c' & E2 & _ & Hy & Ho & _).
  assert (Hq : y ∉ que (g_recv_blk_report s1) ++ que (g_blk_report s1)) by (intros Hin; apply (so_live s1 B HS1) in Hin; by rewrite Hy in Hin).
  exists s1. eexists. exists x, y. split; [done|]. split.
  - unfold recv_blk_report, new_block. rewrite Er, Ep, (blk_dir_fits s B id ns c HS HB). cbn [mbind option_bind]. rewrite E2. cbn [mbind option_bind].
    rewrite !bool_decide_eq_false_2 by (intros Hin; apply Hq, elem_of_app; auto). reflexivity.
  - assert (Nxy : x <> y) by (intros ->; congruence). split; [done|]. unfold cached_as. cbn. rewrite Ho, lookup_insert_eq, lookup_insert_ne by done. split; [by exists k|by eexists].
Qed.

Lemma scan_race_duplicates_witness : exists s r s1 s2 x y, block_id r = 7 /\
  block_object_add 0 s (blk_dir (disk s 7) 1 7) 1 7 = Some (DFS_OK, s1) /\ recv_blk_report s1 r = Some (DFS_OK, s2) /\ x <> y /\
  cached_as s2 x 7 /\ cached_as s2 y 7.
Proof.
  destruct sample_block as (s & HS & _). pose proof (restarted_sound s _ [10; 20] 5 HS ltac:(by_decide) ltac:(lia)) as HS1.
  exists (restarted s [10; 20] 5), (Req 7 1 3 (blk_dir (disk (restarted s [10; 20] 5) 7) 1 7) 256).
  destruct (scan_race_duplicates 0 (restarted s [10; 20] 5) {[7 := (1, [1; 2; 3])]} 7 1 1 [1; 2; 3] (Req 7 1 3 (blk_dir (disk (restarted s [10; 20] 5) 7) 1 7) 256) HS1)
    as (s1 & s2 & x & y & H).
  - unfold roomy. rewrite map_size_singleton. cbn. lia.
  - reflexivity.
  - intros (x & k & Hx & _). cbn in Hx. by rewrite lookup_empty in Hx.
  - cbn. lia.
  - reflexivity.
  - reflexivity.
  - exists s1, s2, x, y. split; [reflexivity|exact H].
Defined.

(** Deleting a block that still waits for its block report leaves the freed
    object in the queue: the deletion succeeds, and the report that comes next
    reads the freed object. *)
Theorem delete_queued_dangles {P} (net : P -> list Z -> P * exchange) ip p s B id x q :
  sound s B -> cached_as s x id -> que (g_blk_report s) = x :: q ->
  exists s', block_object_del s id = Some (DFS_OK, s') /\ block_report net ip p s' = None.
Proof.
  intros HS (k & Hx & Hk) Hq. pose proof (get_block_found _ x k (so_cache s B HS) (sound_ids s B HS) Hx) as Hg. rewrite Hk in Hg.
  destruct (del_ok (g_dn_bcm s) x k (so_cache s B HS) Hx) as (c' & Hd & _ & Ho & _).
  eexists. split.
  - unfold block_object_del, block_object_get. rewrite Hg. cbn [mbind option_bind]. rewrite Hx. cbn [mbind option_bind]. rewrite Hd. reflexivity.
  - unfold block_report, report_pop. cbn [g_blk_report set_bcm set_files g_dn_bcm]. rewrite Hq, Ho, lookup_delete_eq. done.
Qed.

Lemma delete_queued_dangles_witness : exists s s', block_object_del s 7 = Some (DFS_OK, s') /\
  block_report (fun (p : unit) _ => (p, Answer ack)) (lit "10.0.0.1") tt s' = None.
Proof.
  destruct sample_block as (s0 & HS0 & _).
  destruct (restart_scan list_dir 0 s0 _ [10; 20] 5 list_dir_spec HS0 ltac:(by_decide) ltac:(lia)) as (s & _ & [HS HP] & _ & _ & Hall); [rewrite map_size_singleton; cbn; lia|].
  destruct (HP 7) as (x & k & Hx & Hk); [by eexists|].
  assert (Hq : que (g_blk_report s) = [x]).
  { pose proof (announcements_perm [] s _ (conj HS HP) Hall) as Hp. apply Permutation_length in Hp. rewrite !length_fmap, length_map_to_list, map_size_singleton in Hp.
    pose proof (Hall x ltac:(eauto)) as Hin. destruct (que (g_blk_report s)) as [|y [|z q]]; cbn in Hp; try lia. apply list_elem_of_singleton in Hin. by subst. }
  destruct (delete_queued_dangles (fun (p : unit) _ => (p, Answer ack)) (lit "10.0.0.1") tt s _ 7 x [] HS (ex_intro _ k (conj Hx Hk)) Hq) as (s' & H). by exists s, s'.
Defined.

End DnProps.
