(* ===== verification/Shmem.v ===== *)
(** * The allocator on shared memory

    core/dfs_shmem.c, .h.  One mapping holds the manager, an array of free
    lists and the storages, which tile the rest: each has a header of 64 bytes
    and its memory.  [order] is the ring of all storages in the order of their
    addresses, a free list holds the free storages of one class of sizes, and
    [available] the classes whose list is not empty, in increasing order.

    Rings are lists here, of storages for [order], of addresses for the free
    lists and of indexes for [available]; core/dfs_queue.h is proved to
    implement lists in Queue.  The manager is not null, there are less than
    2^32 classes (the index of a free list is an [unsigned int]), and the machine
    allows headers at any address, since sizes are not aligned.  A result [None] is an
    access to memory that holds no storage, or a division by zero.  Proofs are
    in ShmemOk. *)

From Stdlib Require Import ZArith Lia Bool.
From stdpp Require Import base numbers gmap option list.
From S2P Require Import Prelude DfsMath.

Module Shmem.

Definition DFS_SHMEM_STORAGE_SIZE : Z := 64.
Definition sizeof_free_node : Z := 40.
Definition sizeof_shmem_t : Z := 168.
Definition DFS_SHMEM_LEVEL_TYPE_LINEAR : Z := 0.
Definition DFS_SHMEM_LEVEL_TYPE_EXP : Z := 1.
Definition DFS_SHMEM_EXP_FACTOR : Z := 2.
Definition DFS_MATH_ALIGN_SIZE : Z := 8.

Inductive shmem_err :=
  | ERR_NONE | CREATE_SIZE | CREATE_MINSIZE | CREATE_LEVELTYPE | CREATE_FREELEN | CREATE_TOTALSIZE
  | CREATE_TOTALSIZE_NOT_ENOUGH | CREATE_MMAP | CREATE_STORAGESIZE | ALLOC_PARAM | ALLOC_EXHAUSTED
  | ALLOC_MAX_AVAILABLE_EMPTY | ALLOC_NO_AVAILABLE_FREE_LIST | ALLOC_NO_FIXED_FREE_SPACE | ALLOC_FOUND_NO_FIXED
  | ALLOC_REMOVE_FREE | GET_MAX_EXHAUSTED | GET_MAX_CRITICAL | SPLIT_ALLOC_NO_FIXED_REQ_MINSIZE
  | SPLIT_ALLOC_REMOVE_FREE | FREE_PARAM | FREE_NONALLOCED | FREE_REMOVE_NEXT | FREE_REMOVE_PREV.

#[global] Instance shmem_err_eq_dec : EqDecision shmem_err.
Proof. solve_decision. Defined.

Record storage := Storage { addr : Z; alloc : bool; size : Z; act_size : Z; free_list_head : option nat }.

Record dfs_shmem_stat_t := Stat { used_size : Z; reqs_size : Z; st_count : Z; total_size : Z; system_size : Z; failed : Z; split_failed : Z; split : Z }.

Record dfs_shmem_t := Shm {
  shm_addr : Z; order : list storage; free : list (list Z); free_len : nat; available : list nat; max_available_index : nat;
  min_size : Z; max_size : Z; factor : Z; split_threshold : Z; level_type : Z; shmem_stat : dfs_shmem_stat_t }.

Definition set_order s x := Shm (shm_addr s) x (free s) (free_len s) (available s) (max_available_index s)
  (min_size s) (max_size s) (factor s) (split_threshold s) (level_type s) (shmem_stat s).
Definition set_lists s f a m := Shm (shm_addr s) (order s) f (free_len s) a m
  (min_size s) (max_size s) (factor s) (split_threshold s) (level_type s) (shmem_stat s).
Definition set_stat s x := Shm (shm_addr s) (order s) (free s) (free_len s) (available s) (max_available_index s)
  (min_size s) (max_size s) (factor s) (split_threshold s) (level_type s) x.

(** Statistics: each counter is a [size_t]. *)
Definition stat_failed (t : dfs_shmem_stat_t) := Stat (used_size t) (reqs_size t) (st_count t) (total_size t) (system_size t) (u64 (failed t + 1)) (split_failed t) (split t).
Definition stat_split (t : dfs_shmem_stat_t) := Stat (used_size t) (reqs_size t) (st_count t) (total_size t) (system_size t) (failed t) (split_failed t) (u64 (split t + 1)).
Definition stat_split_failed (t : dfs_shmem_stat_t) := Stat (used_size t) (reqs_size t) (st_count t) (total_size t) (system_size t) (failed t) (u64 (split_failed t + 1)) (split t).
Definition stat_use (u r c : Z) (t : dfs_shmem_stat_t) := Stat (u64 (used_size t + u)) (u64 (reqs_size t + r)) (u64 (st_count t + c)) (total_size t) (system_size t) (failed t) (split_failed t) (split t).

(** ** The ring of storages *)

Definition get (l : list storage) (a : Z) : option storage := List.find (fun st => addr st =? a) l.
Definition put (l : list storage) (st' : storage) : list storage := map (fun st => if addr st =? addr st' then st' else st) l.
Fixpoint queue_next (l : list storage) (a : Z) : option storage :=
  match l with [] => None | st :: l' => if addr st =? a then head l' else queue_next l' a end.
Fixpoint queue_prev (p : option storage) (l : list storage) (a : Z) : option storage :=
  match l with [] => None | st :: l' => if addr st =? a then p else queue_prev (Some st) l' a end.
Fixpoint insert_after (l : list storage) (a : Z) (x : storage) : list storage :=
  match l with [] => [] | st :: l' => if addr st =? a then st :: x :: l' else st :: insert_after l' a x end.
Definition remove (l : list storage) (a : Z) : list storage := List.filter (fun st => negb (addr st =? a)) l.

Definition set_alloc st b := Storage (addr st) b (size st) (act_size st) (free_list_head st).
Definition set_size st x := Storage (addr st) (alloc st) x (act_size st) (free_list_head st).
Definition set_act st x := Storage (addr st) (alloc st) (size st) x (free_list_head st).
Definition set_head st x := Storage (addr st) (alloc st) (size st) (act_size st) x.

(** ** Classes of sizes *)

Definition dfs_shmem_get_alloc_index (s : dfs_shmem_t) (sz : Z) : option nat :=
  if sz <=? min_size s then Some 0%nat
  else if level_type s =? DFS_SHMEM_LEVEL_TYPE_LINEAR then
    if factor s =? 0 then None
    else let id := (sz - min_size s) / factor s in
         Some (Z.to_nat (if (sz - min_size s) mod factor s =? 0 then id else id + 1))
  else
    let power := sz / min_size s in
    let power := if sz mod min_size s =? 0 then power else power + 1 in
    Z.to_nat <$> DfsMath.dfs_math_dfslog2 power true.

Definition dfs_shmem_get_insert_index (s : dfs_shmem_t) (sz : Z) : option nat :=
  if sz <=? min_size s then Some 0%nat
  else if level_type s =? DFS_SHMEM_LEVEL_TYPE_LINEAR then
    if factor s =? 0 then None else Some (Z.to_nat ((sz - min_size s) / factor s))
  else Z.to_nat <$> DfsMath.dfs_math_dfslog2 (sz / min_size s) false.

(** ** Creation *)

Definition DFS_MATH_ALIGNMENT (x align : Z) : Z := if x mod align =? 0 then x else u64 (x + (align - x mod align)).
Definition DFS_MATH_ROUND_UP (x align : Z) : Z := Z.land (u64 (x + align - 1)) (u64 (Z.lnot (align - 1))).

(** The length of the array of free lists, before the last [free_len++]. *)
Definition level_count (level min max factor : Z) : option Z :=
  if level =? DFS_SHMEM_LEVEL_TYPE_LINEAR then
    if factor =? 0 then None
    else let n := (max - min) / factor in Some (if (max - min) mod factor =? 0 then n else n + 1)
  else let power := max / min in DfsMath.dfs_math_dfslog2 (if max mod min =? 0 then power else power + 1) true.

(** [mmap] gives the address of a new mapping, zeroed, or fails; [page] is the
    size of a page.  When the size of the array has wrapped around, its
    initialisation leaves the mapping. *)
Definition dfs_shmem_create (mmap : Z -> option Z) (page : Z) (sz min max level fac : Z) : option (shmem_err * option dfs_shmem_t) :=
  if sz =? 0 then Some (CREATE_SIZE, None)
  else
  let min := DFS_MATH_ALIGNMENT min DFS_MATH_ALIGN_SIZE in
  let max := DFS_MATH_ALIGNMENT max DFS_MATH_ALIGN_SIZE in
  if (min =? 0) || (max <=? min) then Some (CREATE_MINSIZE, None)
  else if negb (level =? DFS_SHMEM_LEVEL_TYPE_LINEAR) && negb (level =? DFS_SHMEM_LEVEL_TYPE_EXP) then Some (CREATE_LEVELTYPE, None)
  else
  let fac := if level =? DFS_SHMEM_LEVEL_TYPE_LINEAR then DFS_MATH_ALIGNMENT fac DFS_MATH_ALIGN_SIZE else DFS_SHMEM_EXP_FACTOR in
  n ← level_count level min max fac;
  if n =? 0 then Some (CREATE_FREELEN, None)
  else
  let n := n + 1 in
  let total := DFS_MATH_ROUND_UP sz page in
  if total =? 0 then Some (CREATE_TOTALSIZE, None)
  else match mmap total with
  | None => Some (CREATE_MMAP, None)
  | Some a =>
      let free_size := u64 (sizeof_free_node * n) in
      if total <=? u64 (free_size + sizeof_shmem_t + DFS_SHMEM_STORAGE_SIZE) then Some (CREATE_TOTALSIZE_NOT_ENOUGH, None)
      else if total <? sizeof_shmem_t + sizeof_free_node * n then None
      else
      let sys := DFS_MATH_ALIGNMENT (u64 (sizeof_shmem_t + free_size)) DFS_MATH_ALIGN_SIZE in
      let st := Storage (a + sys) false (u64 (total - sys - DFS_SHMEM_STORAGE_SIZE)) 0 None in
      if size st <? max then Some (CREATE_STORAGESIZE, None)
      else
      let shm := Shm a [] (replicate (Z.to_nat n) []) (Z.to_nat n) [] 0 min max fac min level (Stat 0 0 1 total sys 0 0 0) in
      i ← dfs_shmem_get_insert_index shm (size st);
      let i := if (Z.to_nat n <=? i)%nat then (Z.to_nat n - 1)%nat else i in
      Some (ERR_NONE, Some (set_lists (set_order shm [set_head st (Some i)]) (<[i := [addr st]]> (free shm)) [i] i))
  end.

(** ** Free lists *)

(** The class before one in [available], if any. *)
Fixpoint avail_prev (p : option nat) (l : list nat) (i : nat) : option nat :=
  match l with [] => None | j :: l' => if (j =? i)%nat then p else avail_prev (Some j) l' i end.

Definition dfs_shmem_remove_free (s : dfs_shmem_t) (a : Z) : option (bool * dfs_shmem_t) :=
  st ← get (order s) a;
  index ← dfs_shmem_get_insert_index s (size st);
  let index := if (max_available_index s <? index)%nat then max_available_index s else index in
  if negb (bool_decide (free_list_head st = Some index)) then Some (false, s)
  else
  l ← free s !! index;
  let l := List.filter (fun b => negb (b =? a)) l in
  let s' := match l with
    | [] =>
        let m := if (index =? max_available_index s)%nat
                 then match avail_prev None (available s) index with None => free_len s | Some j => j end
                 else max_available_index s in
        set_lists s (<[index := l]> (free s)) (List.filter (fun j => negb (j =? index)%nat) (available s)) m
    | _ => set_lists s (<[index := l]> (free s)) (available s) (max_available_index s)
    end in
  Some (true, set_order s' (put (order s) (set_head st None))).

(** The loop over [available]: before the first larger class, or at the end. *)
Fixpoint insert_available (i : nat) (l : list nat) : list nat * bool :=
  match l with
  | [] => ([i], true)
  | j :: l' => if (i <? j)%nat then (i :: l, false) else let '(r, flag) := insert_available i l' in (j :: r, flag)
  end.

Definition dfs_shmem_insert_free (s : dfs_shmem_t) (a : Z) : option dfs_shmem_t :=
  st ← get (order s) a;
  if alloc st then Some s
  else
  index ← dfs_shmem_get_insert_index s (size st);
  let index := if (free_len s - 1 <? index)%nat then (free_len s - 1)%nat else index in
  l ← free s !! index;
  let '(av, m) := match l with
    | [] => let '(av, flag) := insert_available index (available s) in (av, if flag then index else max_available_index s)
    | _ => (available s, max_available_index s)
    end in
  Some (set_order (set_lists s (<[index := a :: l]> (free s)) av m) (put (order s) (set_head st (Some index)))).

(** ** Allocation *)

(** DO_COMPARE: the first storage of a list that is large enough. *)
Fixpoint find_fit (o : list storage) (sz : Z) (l : list Z) : option (option Z) :=
  match l with
  | [] => Some None
  | a :: l' => st ← get o a; if sz <=? size st then Some (Some a) else find_fit o sz l'
  end.

(** The choice of the free list: [inl] is an error. *)
Definition choose_list (s : dfs_shmem_t) (index : nat) : option (shmem_err + nat) :=
  if (index <? max_available_index s)%nat then
    l ← free s !! index;
    match l with
    | _ :: _ => Some (inr index)
    | [] =>
        match List.find (fun j => match free s !! j with Some (_ :: _) => (index <? j)%nat | _ => false end) (available s) with
        | Some j => Some (inr j)
        | None => Some (inl (match available s with [] => ALLOC_NO_AVAILABLE_FREE_LIST | _ => ALLOC_NO_FIXED_FREE_SPACE end))
        end
    end
  else
    l ← free s !! max_available_index s;
    Some (match l with [] => inl ALLOC_MAX_AVAILABLE_EMPTY | _ => inr (max_available_index s) end).

Definition alloc_failed (s : dfs_shmem_t) (e : shmem_err) : shmem_err * Z * dfs_shmem_t := (e, 0, set_stat s (stat_failed (shmem_stat s))).

(** A storage that has left its list is handed out, whole or split. *)
Definition carve (s : dfs_shmem_t) (a sz : Z) : option (shmem_err * Z * dfs_shmem_t) :=
  st ← get (order s) a;
  if size st - sz <? u64 (DFS_SHMEM_STORAGE_SIZE + split_threshold s) then
    let s := set_order s (put (order s) (set_act (set_alloc st true) sz)) in
    Some (ERR_NONE, a + DFS_SHMEM_STORAGE_SIZE, set_stat s (stat_use (size st) sz 0 (shmem_stat s)))
  else
    let b := a + DFS_SHMEM_STORAGE_SIZE + sz in
    let st_new := Storage b (alloc st) (size st - (sz + DFS_SHMEM_STORAGE_SIZE)) (act_size st) (free_list_head st) in
    let s := set_order s (insert_after (put (order s) (set_size (set_alloc st true) sz)) a st_new) in
    s ← dfs_shmem_insert_free s b;
    st ← get (order s) a;
    let s := set_order s (put (order s) (set_act st sz)) in
    Some (ERR_NONE, a + DFS_SHMEM_STORAGE_SIZE, set_stat s (stat_use sz sz 1 (shmem_stat s))).

Definition dfs_shmem_alloc (s : dfs_shmem_t) (sz : Z) : option (shmem_err * Z * dfs_shmem_t) :=
  if sz =? 0 then Some (ALLOC_PARAM, 0, s)
  else if (max_available_index s =? free_len s)%nat then Some (alloc_failed s ALLOC_EXHAUSTED)
  else
  index ← dfs_shmem_get_alloc_index s sz;
  c ← choose_list s index;
  match c with
  | inl e => Some (alloc_failed s e)
  | inr j =>
      l ← free s !! j;
      f ← find_fit (order s) sz l;
      match f with
      | None => Some (alloc_failed s ALLOC_FOUND_NO_FIXED)
      | Some a =>
          '(ok, s') ← dfs_shmem_remove_free s a;
          if (ok : bool) then carve s' a sz else Some (alloc_failed s' ALLOC_REMOVE_FREE)
      end
  end.

(** ** The largest free storage *)

Fixpoint max_loop (o : list storage) (m : storage) (l : list Z) : option storage :=
  match l with [] => Some m | a :: l' => st ← get o a; max_loop o (if size m <? size st then st else m) l' end.

Definition dfs_shmem_get_max_st (s : dfs_shmem_t) : option (shmem_err + storage) :=
  match last (available s) with
  | None => Some (inl GET_MAX_EXHAUSTED)
  | Some i =>
      if (max_available_index s =? free_len s)%nat then Some (inl GET_MAX_EXHAUSTED)
      else
      l ← free s !! i;
      match l with
      | [] => Some (inl GET_MAX_CRITICAL)
      | a :: l' => st ← get (order s) a; inr <$> max_loop (order s) st l'
      end
  end.

(** The address given out and the size written to [act_size]. *)
Definition dfs_shmem_split_alloc (s : dfs_shmem_t) (req_minsize : Z) : option (shmem_err * Z * Z * dfs_shmem_t) :=
  let s := set_stat s (stat_split (shmem_stat s)) in
  let fails (s : dfs_shmem_t) (e : shmem_err) := Some (e, 0, 0, set_stat s (stat_split_failed (shmem_stat s))) in
  m ← dfs_shmem_get_max_st s;
  match m with
  | inl e => fails s e
  | inr st =>
      if size st <? req_minsize then fails s SPLIT_ALLOC_NO_FIXED_REQ_MINSIZE
      else
      '(ok, s) ← dfs_shmem_remove_free s (addr st);
      if negb ok then fails s SPLIT_ALLOC_REMOVE_FREE
      else
      st ← get (order s) (addr st);
      let s := set_order s (put (order s) (set_act (set_alloc st true) (size st))) in
      Some (ERR_NONE, addr st + DFS_SHMEM_STORAGE_SIZE, size st, set_stat s (stat_use (size st) (size st) 0 (shmem_stat s)))
  end.

(** ** Release *)

(** The storage after a freed one joins it; [inl] is an error. *)
Definition merge_next (s : dfs_shmem_t) (a : Z) : option (bool * dfs_shmem_t) :=
  st_alloc ← get (order s) a;
  match queue_next (order s) a with
  | None => Some (true, s)
  | Some st =>
      if negb (alloc st) && (addr st =? a + DFS_SHMEM_STORAGE_SIZE + size st_alloc) then
        '(ok, s) ← dfs_shmem_remove_free s (addr st);
        if negb ok then Some (false, s)
        else
        let s := set_order s (remove (put (order s) (set_size st_alloc (u64 (size st_alloc + size st + DFS_SHMEM_STORAGE_SIZE)))) (addr st)) in
        Some (true, set_stat s (stat_use 0 0 (-1) (shmem_stat s)))
      else Some (true, s)
  end.

(** A freed storage joins the one before it; the result is the storage to enter into a list. *)
Definition merge_prev (s : dfs_shmem_t) (a : Z) : option (option Z * dfs_shmem_t) :=
  st_alloc ← get (order s) a;
  match queue_prev None (order s) a with
  | None => Some (Some a, s)
  | Some st =>
      if negb (alloc st) && (a =? addr st + size st + DFS_SHMEM_STORAGE_SIZE) then
        '(ok, s) ← dfs_shmem_remove_free s (addr st);
        if negb ok then Some (None, s)
        else
        st ← get (order s) (addr st);
        let s := set_order s (remove (put (order s) (set_size st (u64 (size st + (size st_alloc + DFS_SHMEM_STORAGE_SIZE))))) a) in
        Some (Some (addr st), set_stat s (stat_use 0 0 (-1) (shmem_stat s)))
      else Some (Some a, s)
  end.

Definition dfs_shmem_free (s : dfs_shmem_t) (ptr : Z) : option (shmem_err * dfs_shmem_t) :=
  if ptr =? 0 then Some (FREE_PARAM, s)
  else
  let a := ptr - DFS_SHMEM_STORAGE_SIZE in
  st ← get (order s) a;
  if negb (alloc st) then Some (FREE_NONALLOCED, s)
  else
  let s := set_stat s (stat_use (- size st) (- act_size st) 0 (shmem_stat s)) in
  let s := set_order s (put (order s) (set_alloc st false)) in
  '(ok, s) ← merge_next s a;
  if negb ok then Some (FREE_REMOVE_NEXT, s)
  else
  '(r, s) ← merge_prev s a;
  match r with
  | None => Some (FREE_REMOVE_PREV, s)
  | Some b => s ← dfs_shmem_insert_free s b; Some (ERR_NONE, s)
  end.

Definition dfs_shmem_set_split_threshold (s : dfs_shmem_t) (sz : Z) : dfs_shmem_t :=
  Shm (shm_addr s) (order s) (free s) (free_len s) (available s) (max_available_index s)
    (min_size s) (max_size s) (factor s) sz (level_type s) (shmem_stat s).

Definition dfs_shmem_get_used_size (s : dfs_shmem_t) : Z := used_size (shmem_stat s).
Definition dfs_shmem_get_total_size (s : dfs_shmem_t) : Z := total_size (shmem_stat s).
Definition dfs_shmem_get_system_size (s : dfs_shmem_t) : Z := system_size (shmem_stat s).
Definition dfs_shmem_get_storage_size (s : dfs_shmem_t) : Z := u64 (st_count (shmem_stat s) * DFS_SHMEM_STORAGE_SIZE).

End Shmem.
