(* ===== verification/ShmemOk.v ===== *)
(** * The allocator on shared memory: proofs of its parts

    The ring of storages around one of them, the classes of sizes, the free
    lists as an index of a set of storages, and the invariant [wf]. *)

From Stdlib Require Import ZArith Lia Bool Sorted.
From stdpp Require Import base numbers sorting gmap option list.
From S2P Require Import Prelude DfsMath Shmem.
Import Shmem.

Module ShmemOk.

Lemma app_cons_assoc {A} (l1 : list A) x l2 : l1 ++ x :: l2 = (l1 ++ [x]) ++ l2.
Proof. by rewrite <-app_assoc. Qed.

(** ** The ring *)

Notation addrs l := (addr <$> l).

Lemma get_mid pre st post : addr st ∉ addrs pre -> get (pre ++ st :: post) (addr st) = Some st.
Proof.
  induction pre as [|x pre IH]; intros H; cbn [app get List.find].
  - by rewrite Z.eqb_refl.
  - cbn in H. apply not_elem_of_cons in H as [H1 H2]. rewrite (proj2 (Z.eqb_neq _ _)) by congruence. by apply IH.
Qed.

Lemma get_inv l a st : get l a = Some st -> addr st = a /\ exists pre post, l = pre ++ st :: post /\ a ∉ addrs pre.
Proof.
  induction l as [|x l IH]; cbn [get List.find]; [done|]. destruct (Z.eqb_spec (addr x) a) as [E|E].
  - intros [= <-]. split; [done|]. exists [], l. split; [done|]. apply not_elem_of_nil.
  - intros H. destruct (IH H) as (Ha & pre & post & -> & Hn). split; [done|]. exists (x :: pre), post. split; [done|].
    cbn. apply not_elem_of_cons. split; [congruence|done].
Qed.

Lemma get_in l a st : NoDup (addrs l) -> st ∈ l -> addr st = a -> get l a = Some st.
Proof.
  intros HN Hin <-. apply list_elem_of_split in Hin as (pre & post & ->). apply get_mid. rewrite fmap_app in HN.
  apply NoDup_app in HN as (_ & HN & _). intros Hp. apply (HN _ Hp). cbn. by left.
Qed.

Lemma put_skip l st : addr st ∉ addrs l -> put l st = l.
Proof.
  induction l as [|x l IH]; intros H; cbn [put map]; [done|]. cbn in H. apply not_elem_of_cons in H as [H1 H2].
  rewrite (proj2 (Z.eqb_neq _ _)) by congruence. f_equal. by apply IH.
Qed.

Lemma put_mid pre st post st' : NoDup (addrs (pre ++ st :: post)) -> addr st' = addr st -> put (pre ++ st :: post) st' = pre ++ st' :: post.
Proof.
  intros HN E. rewrite fmap_app in HN. apply NoDup_app in HN as (_ & H1 & H2). cbn in H1, H2. apply NoDup_cons in H2 as [H2 _].
  unfold put. rewrite map_app. fold (put pre st'). cbn [map]. fold (put post st'). rewrite E, Z.eqb_refl, !put_skip; [done|..]; rewrite E; [done|].
  intros Hp. apply (H1 _ Hp). by left.
Qed.

Lemma next_mid pre st post : addr st ∉ addrs pre -> queue_next (pre ++ st :: post) (addr st) = head post.
Proof.
  induction pre as [|x pre IH]; intros H; cbn [app queue_next].
  - by rewrite Z.eqb_refl.
  - cbn in H. apply not_elem_of_cons in H as [H1 H2]. rewrite (proj2 (Z.eqb_neq _ _)) by congruence. by apply IH.
Qed.

Lemma prev_mid p pre st post : addr st ∉ addrs pre -> queue_prev p (pre ++ st :: post) (addr st) = match last pre with None => p | x => x end.
Proof.
  revert p. induction pre as [|x pre IH]; intros p H; cbn [app queue_prev].
  - by rewrite Z.eqb_refl.
  - cbn in H. apply not_elem_of_cons in H as [H1 H2]. rewrite (proj2 (Z.eqb_neq _ _)) by congruence. rewrite IH by done.
    rewrite last_cons. by destruct (last pre).
Qed.

Lemma insert_after_mid pre st post x : addr st ∉ addrs pre -> insert_after (pre ++ st :: post) (addr st) x = pre ++ st :: x :: post.
Proof.
  induction pre as [|y pre IH]; intros H; cbn [app insert_after].
  - by rewrite Z.eqb_refl.
  - cbn in H. apply not_elem_of_cons in H as [H1 H2]. rewrite (proj2 (Z.eqb_neq _ _)) by congruence. f_equal. by apply IH.
Qed.

Lemma remove_skip l a : a ∉ addrs l -> remove l a = l.
Proof.
  induction l as [|x l IH]; intros H; cbn [remove List.filter]; [done|]. cbn in H. apply not_elem_of_cons in H as [H1 H2].
  rewrite (proj2 (Z.eqb_neq _ _)) by congruence. cbn [negb]. f_equal. by apply IH.
Qed.

Lemma remove_mid pre st post : NoDup (addrs (pre ++ st :: post)) -> remove (pre ++ st :: post) (addr st) = pre ++ post.
Proof.
  intros HN. rewrite fmap_app in HN. apply NoDup_app in HN as (_ & H1 & H2). cbn in H1, H2. apply NoDup_cons in H2 as [H2 _].
  unfold remove. rewrite List.filter_app. cbn [List.filter]. rewrite Z.eqb_refl. cbn [negb]. fold (remove pre (addr st)) (remove post (addr st)).
  rewrite !remove_skip; [done|done|]. intros Hp. apply (H1 _ Hp). by left.
Qed.

(** ** Tilings *)

(** The storages [l] fill the addresses from [lo] to [hi]. *)
Fixpoint tiled (lo hi : Z) (l : list storage) : Prop :=
  match l with
  | [] => lo = hi
  | st :: l' => addr st = lo /\ 0 <= size st /\ tiled (lo + DFS_SHMEM_STORAGE_SIZE + size st) hi l'
  end.

Lemma tiled_app lo hi l1 l2 : tiled lo hi (l1 ++ l2) <-> exists m, tiled lo m l1 /\ tiled m hi l2.
Proof.
  revert lo. induction l1 as [|st l1 IH]; intros lo; cbn [app tiled].
  - split; [intros H; by exists lo|]. intros (m & -> & H). done.
  - rewrite IH. split; [intros (? & ? & m & ? & ?); by exists m|]. intros (m & (? & ? & ?) & ?). eauto.
Qed.

Lemma tiled_le lo hi l : tiled lo hi l -> lo <= hi.
Proof. revert lo. induction l as [|st l IH]; intros lo; cbn [tiled]; [lia|]. unfold DFS_SHMEM_STORAGE_SIZE. intros (? & ? & H). apply IH in H. lia. Qed.

Lemma tiled_in lo hi l st : tiled lo hi l -> st ∈ l -> lo <= addr st /\ 0 <= size st /\ addr st + DFS_SHMEM_STORAGE_SIZE + size st <= hi.
Proof.
  intros H Hin. apply list_elem_of_split in Hin as (pre & post & ->). apply tiled_app in H as (m & H1 & H2 & H3 & H4).
  apply tiled_le in H1, H4. unfold DFS_SHMEM_STORAGE_SIZE in *. lia.
Qed.

Lemma tiled_NoDup lo hi l : tiled lo hi l -> NoDup (addrs l).
Proof.
  revert lo. induction l as [|st l IH]; intros lo; cbn [tiled]; [constructor|]. intros (E & Hs & H). constructor; [|by eapply IH].
  intros Hin. apply list_elem_of_fmap in Hin as (x & Ex & Hx). eapply tiled_in in Hx as (Hx & _); [|done]. unfold DFS_SHMEM_STORAGE_SIZE in *. lia.
Qed.

(** Sums over storages. *)
Fixpoint total (f : storage -> Z) (l : list storage) : Z := match l with [] => 0 | st :: l' => f st + total f l' end.

Lemma total_app f l1 l2 : total f (l1 ++ l2) = total f l1 + total f l2.
Proof. induction l1 as [|st l1 IH]; cbn [app total]; lia. Qed.

Lemma tiled_sum lo hi l : tiled lo hi l -> total size l + DFS_SHMEM_STORAGE_SIZE * Z.of_nat (length l) = hi - lo.
Proof.
  revert lo. induction l as [|st l IH]; intros lo; cbn [tiled total length]; [lia|]. intros (_ & _ & H). apply IH in H.
  unfold DFS_SHMEM_STORAGE_SIZE in *. lia.
Qed.

(** ** Classes of sizes *)

Record cfg (s : dfs_shmem_t) : Prop := {
  c_min : 0 < min_size s < 2 ^ 64;
  c_level : level_type s = DFS_SHMEM_LEVEL_TYPE_LINEAR /\ 0 < factor s \/ level_type s = DFS_SHMEM_LEVEL_TYPE_EXP;
  c_len : (0 < free_len s)%nat;
  c_thr : 0 <= split_threshold s < 2 ^ 64 - DFS_SHMEM_STORAGE_SIZE }.

(** The smallest size of a class. *)
Definition bound (s : dfs_shmem_t) (i : nat) : Z :=
  if level_type s =? DFS_SHMEM_LEVEL_TYPE_LINEAR then min_size s + Z.of_nat i * factor s else min_size s * 2 ^ Z.of_nat i.

(** The class of a free storage. *)
Definition cls (s : dfs_shmem_t) (sz : Z) : nat := Nat.min (default 0%nat (dfs_shmem_get_insert_index s sz)) (free_len s - 1).

Section classes.

Context (s : dfs_shmem_t) (HC : cfg s).

Lemma bound_S i : bound s i < bound s (S i).
Proof using HC.
  destruct HC as [Hm Hl _ _]. unfold bound. destruct Hl as [[-> Hf]| ->]; cbn [Z.eqb DFS_SHMEM_LEVEL_TYPE_LINEAR DFS_SHMEM_LEVEL_TYPE_EXP]; [lia|].
  rewrite Nat2Z.inj_succ, Z.pow_succ_r by lia. assert (0 < 2 ^ Z.of_nat i) by lia. nia.
Qed.

Lemma bound_mono i j : (i <= j)%nat -> bound s i <= bound s j.
Proof using HC. induction 1 as [|j _ IH]; [lia|]. pose proof (bound_S j). lia. Qed.

Lemma bound_inv i j : bound s i < bound s j -> (i < j)%nat.
Proof using HC. intros H. destruct (Nat.lt_ge_cases i j) as [?|L]; [done|]. apply bound_mono in L. lia. Qed.

Lemma bound_0 : bound s 0 = min_size s.
Proof. unfold bound. destruct (_ =? _); [lia|]. rewrite Z.pow_0_r. lia. Qed.

Lemma insert_index_spec sz : 0 <= sz < 2 ^ 64 -> exists i, dfs_shmem_get_insert_index s sz = Some i /\
  (sz < min_size s -> i = 0%nat) /\ (min_size s <= sz -> bound s i <= sz < bound s (S i)).
Proof using HC.
  intros Hsz. pose proof (bound_S 0) as HB. rewrite bound_0 in HB. unfold dfs_shmem_get_insert_index.
  destruct (Z.leb_spec sz (min_size s)) as [L|L].
  { exists 0%nat. rewrite bound_0. split; [done|]. lia. }
  destruct HC as [Hm Hl _ _]. unfold bound in *. destruct Hl as [[-> Hf]| ->]; cbn [Z.eqb DFS_SHMEM_LEVEL_TYPE_LINEAR DFS_SHMEM_LEVEL_TYPE_EXP] in *.
  - rewrite (proj2 (Z.eqb_neq _ _)) by lia. eexists. split; [done|]. pose proof (Z.div_mod (sz - min_size s) (factor s) ltac:(lia)) as E.
    pose proof (Z.mod_pos_bound (sz - min_size s) (factor s) Hf). assert (0 <= (sz - min_size s) / factor s) by (apply Z.div_pos; lia).
    split; [lia|]. intros _. rewrite Nat2Z.inj_succ, Z2Nat.id by done. nia.
  - pose proof (Z.div_mod sz (min_size s) ltac:(lia)) as E. pose proof (Z.mod_pos_bound sz (min_size s) ltac:(lia)).
    assert (Hq : 0 < sz / min_size s) by (apply Z.div_str_pos; lia). assert (sz / min_size s <= sz) by (apply Z.div_le_upper_bound; nia).
    rewrite (proj1 (DfsMath.dfslog2_spec (sz / min_size s) ltac:(lia))). cbn [fmap option_fmap option_map]. eexists. split; [done|]. split; [lia|]. intros _.
    pose proof (Z.log2_nonneg (sz / min_size s)). rewrite Nat2Z.inj_succ, Z2Nat.id by done. pose proof (Z.log2_spec _ Hq) as HL.
    set (q := sz / min_size s) in *. set (e := 2 ^ Z.log2 q) in *. set (e' := 2 ^ Z.succ (Z.log2 q)) in *. nia.
Qed.

Lemma alloc_index_spec sz : 0 <= sz < 2 ^ 64 -> exists i, dfs_shmem_get_alloc_index s sz = Some i /\
  sz <= bound s i /\ (forall j, (j < i)%nat -> bound s j < sz).
Proof using HC.
  intros Hsz. unfold dfs_shmem_get_alloc_index.
  destruct (Z.leb_spec sz (min_size s)) as [L|L].
  { exists 0%nat. rewrite bound_0. split; [done|]. split; [done|]. lia. }
  pose proof bound_mono as HM. destruct HC as [Hm Hl _ _]. unfold bound in *. destruct Hl as [[-> Hf]| ->]; cbn [Z.eqb DFS_SHMEM_LEVEL_TYPE_LINEAR DFS_SHMEM_LEVEL_TYPE_EXP] in *.
  - rewrite (proj2 (Z.eqb_neq _ _)) by lia. eexists. split; [done|]. pose proof (Z.div_mod (sz - min_size s) (factor s) ltac:(lia)) as E.
    pose proof (Z.mod_pos_bound (sz - min_size s) (factor s) Hf). assert (0 <= (sz - min_size s) / factor s) by (apply Z.div_pos; lia).
    destruct (Z.eqb_spec ((sz - min_size s) mod factor s) 0) as [E0|E0]; (split; [rewrite Z2Nat.id by lia; nia|]); intros j Hj;
      [assert (Z.of_nat j + 1 <= (sz - min_size s) / factor s) by lia|assert (Z.of_nat j <= (sz - min_size s) / factor s) by lia]; nia.
  - pose proof (Z.div_mod sz (min_size s) ltac:(lia)) as E. pose proof (Z.mod_pos_bound sz (min_size s) ltac:(lia)).
    assert (Hq : 0 < sz / min_size s) by (apply Z.div_str_pos; lia). assert (sz / min_size s <= sz) by (apply Z.div_le_upper_bound; nia).
    set (p := if sz mod min_size s =? 0 then sz / min_size s else sz / min_size s + 1).
    assert (Hp : 1 < p /\ p <= sz /\ min_size s * (p - 1) < sz <= min_size s * p).
    { unfold p. destruct (Z.eqb_spec (sz mod min_size s) 0) as [E0|E0]; nia. }
    rewrite (proj2 (DfsMath.dfslog2_spec p ltac:(lia))). cbn [fmap option_fmap option_map]. eexists. split; [done|].
    pose proof (Z.log2_up_nonneg p). rewrite Z2Nat.id by done. pose proof (Z.log2_up_spec p ltac:(lia)) as HL. split; [nia|]. intros j Hj.
    assert (2 ^ Z.of_nat j <= 2 ^ Z.pred (Z.log2_up p)) by (apply Z.pow_le_mono_r; lia). nia.
Qed.

Lemma cls_lt sz : (cls s sz < free_len s)%nat.
Proof using HC. pose proof (c_len s HC). unfold cls. lia. Qed.

(** Storages of the class of a request, above the first one, and of higher classes are large enough. *)
Lemma cls_fits sz sz' i : 0 <= sz < 2 ^ 64 -> 0 <= sz' < 2 ^ 64 -> dfs_shmem_get_alloc_index s sz = Some i -> (i <= cls s sz')%nat -> (0 < cls s sz')%nat -> sz <= sz'.
Proof using HC.
  intros H H' E Hi H0. destruct (alloc_index_spec sz H) as (i' & E' & Hb & _). assert (i' = i) as -> by congruence.
  destruct (insert_index_spec sz' H') as (k & Ek & Hk1 & Hk2). unfold cls in *. rewrite Ek in Hi, H0. cbn [from_option id] in Hi, H0.
  destruct (Z.lt_ge_cases sz' (min_size s)) as [L|L]; [apply Hk1 in L; lia|]. apply Hk2 in L. pose proof (bound_mono i k ltac:(lia)). lia.
Qed.

(** A storage that is large enough is in the last class or not below the class before that of the request. *)
Lemma cls_near sz sz' i : 0 <= sz < 2 ^ 64 -> 0 <= sz' < 2 ^ 64 -> dfs_shmem_get_alloc_index s sz = Some i -> sz <= sz' ->
  (i <= S (cls s sz'))%nat \/ cls s sz' = (free_len s - 1)%nat.
Proof using HC.
  intros H H' E L. destruct (alloc_index_spec sz H) as (i' & E' & Hb & Hl). assert (i' = i) as -> by congruence.
  destruct i as [|i]; [left; lia|]. specialize (Hl i ltac:(lia)). pose proof (bound_mono 0 i ltac:(lia)) as H0. rewrite bound_0 in H0.
  destruct (insert_index_spec sz' H') as (k & Ek & _ & Hk2). unfold cls. rewrite Ek. cbn [from_option id]. destruct (Hk2 ltac:(lia)) as [_ Hk3].
  pose proof (bound_inv i (S k) ltac:(lia)). lia.
Qed.

(** Storages of a higher class are larger. *)
Lemma cls_larger x y : 0 <= x < 2 ^ 64 -> 0 <= y < 2 ^ 64 -> (cls s x < cls s y)%nat -> x < y.
Proof using HC.
  intros Hx Hy L. destruct (insert_index_spec x Hx) as (i & Ei & Hi1 & Hi2), (insert_index_spec y Hy) as (j & Ej & Hj1 & Hj2).
  unfold cls in L. rewrite Ei, Ej in L. cbn [from_option id] in L.
  destruct (Z.lt_ge_cases y (min_size s)) as [Ly|Ly]; [apply Hj1 in Ly; lia|]. apply Hj2 in Ly. pose proof (bound_mono (S i) j ltac:(lia)).
  destruct (Z.lt_ge_cases x (min_size s)) as [Lx|Lx]; [|apply Hi2 in Lx; lia]. pose proof (bound_mono 0 j ltac:(lia)) as B. rewrite bound_0 in B. lia.
Qed.

End classes.

(** ** The free lists as an index *)

(** The lists [f] with the classes [av] hold exactly the storages of [F], given by address and size, each in its class. *)
Record idx (c : Z -> nat) (n : nat) (f : list (list Z)) (av : list nat) (m : nat) (F : Z -> Z -> Prop) : Prop := {
  i_len : length f = n;
  i_nd : forall i l, f !! i = Some l -> NoDup l;
  i_in : forall i l a, f !! i = Some l -> a ∈ l <-> exists sz, F a sz /\ c sz = i;
  i_sorted : StronglySorted lt av;
  i_av : forall i, i ∈ av <-> exists a l, f !! i = Some (a :: l);
  i_max : m = default n (last av) }.

Lemma idx_ext c n f av m (F G : Z -> Z -> Prop) : (forall a sz, F a sz <-> G a sz) -> idx c n f av m F -> idx c n f av m G.
Proof.
  intros E [H1 H2 H3 H4 H5 H6]. constructor; try done. intros i l a Hl. rewrite (H3 i l a Hl). by setoid_rewrite E.
Qed.

Lemma sorted_last av m i : StronglySorted lt av -> last av = Some m -> i ∈ av -> (i <= m)%nat.
Proof.
  intros HS Hl Hi. apply last_Some in Hl as [l ->]. apply elem_of_app in Hi as [Hi|Hi]; [|apply list_elem_of_singleton in Hi; lia].
  apply StronglySorted_app in HS as (HS & _). specialize (HS i m Hi ltac:(by left)). lia.
Qed.

Lemma idx_max_in c n f av m F i : idx c n f av m F -> i ∈ av -> last av = Some m /\ (i <= m < n)%nat /\ m ∈ av.
Proof.
  intros H Hi. pose proof (i_max _ _ _ _ _ _ H) as Em. destruct (last av) as [k|] eqn:El.
  - cbn in Em. subst k. assert (Hm : m ∈ av) by (apply last_Some in El as [l ->]; apply elem_of_app; right; by left).
    split; [done|]. split; [|done]. split; [by eapply sorted_last; [apply H|..]|].
    apply (i_av _ _ _ _ _ _ H) in Hm as (a & l & Hm). apply lookup_lt_Some in Hm. rewrite (i_len _ _ _ _ _ _ H) in Hm. done.
  - apply last_None in El. subst. by apply not_elem_of_nil in Hi.
Qed.

Lemma idx_listed c n f av m F a sz l : idx c n f av m F -> F a sz -> f !! c sz = Some l -> a ∈ l /\ c sz ∈ av.
Proof.
  intros H HF Hl. assert (Ha : a ∈ l) by (apply (i_in _ _ _ _ _ _ H _ _ _ Hl); by exists sz). split; [done|].
  apply (i_av _ _ _ _ _ _ H). destruct l as [|b l]; [by apply not_elem_of_nil in Ha|]. by exists b, l.
Qed.

(** Filters of lists of numbers, as the code writes them. *)
Lemma filter_neq_nat (l : list nat) i : List.filter (fun j => negb (j =? i)%nat) l = filter (fun j => j <> i) l.
Proof.
  induction l as [|j l IH]; [done|]. cbn [List.filter]. rewrite filter_cons, IH. destruct (Nat.eqb_spec j i); cbn [negb]; by case_decide.
Qed.
Lemma filter_neq_Z (l : list Z) i : List.filter (fun j => negb (j =? i)) l = filter (fun j => j <> i) l.
Proof.
  induction l as [|j l IH]; [done|]. cbn [List.filter]. rewrite filter_cons, IH. destruct (Z.eqb_spec j i); cbn [negb]; by case_decide.
Qed.

Lemma avail_prev_last p l i : i ∉ l -> avail_prev p (l ++ [i]) i = match last l with None => p | x => x end.
Proof.
  revert p. induction l as [|j l IH]; intros p Hi; cbn [app avail_prev].
  - by rewrite Nat.eqb_refl.
  - apply not_elem_of_cons in Hi as [H1 H2]. rewrite (proj2 (Nat.eqb_neq _ _)) by done. rewrite IH, last_cons by done. by destruct (last l).
Qed.

Lemma sorted_filter (P : nat -> Prop) `{!forall x, Decision (P x)} l : StronglySorted lt l -> StronglySorted lt (filter P l).
Proof.
  induction 1 as [|x l HS IH HF]; [constructor|]. rewrite filter_cons. case_decide; [|done]. constructor; [done|].
  apply Forall_forall. intros y Hy. apply list_elem_of_filter in Hy as [_ Hy]. by eapply Forall_forall in HF.
Qed.

Definition drop_class (i : nat) (n : nat) (l' : list Z) (av : list nat) (m : nat) : list nat * nat :=
  match l' with
  | [] => (List.filter (fun j => negb (j =? i)%nat) av,
           if (i =? m)%nat then match avail_prev None av i with None => n | Some j => j end else m)
  | _ => (av, m)
  end.

Lemma drop_last n av m i : StronglySorted lt av -> last av = Some m -> i ∈ av ->
  (if (i =? m)%nat then match avail_prev None av i with None => n | Some j => j end else m) = default n (last (filter (fun j => j <> i) av)).
Proof.
  intros HS Hl Hi. apply last_Some in Hl as [l ->]. apply StronglySorted_app in HS as (HS & _).
  assert (Hm : m ∉ l) by (intros Hm; specialize (HS m m Hm ltac:(by left)); lia). rewrite filter_app. destruct (Nat.eqb_spec i m) as [->|Hn].
  - rewrite avail_prev_last by done. rewrite (list_filter_all _ l) by (apply Forall_forall; intros x Hx ->; done).
    rewrite filter_cons_False, filter_nil, app_nil_r by tauto. by destruct (last l).
  - rewrite (filter_cons_True _ m) by done. rewrite filter_nil. by rewrite last_snoc.
Qed.

Lemma remove_idx c n f av m (F : Z -> Z -> Prop) a sz l : idx c n f av m F -> F a sz -> (forall z, F a z -> z = sz) -> f !! c sz = Some l ->
  let l' := List.filter (fun b => negb (b =? a)) l in
  idx c n (<[c sz := l']> f) (drop_class (c sz) n l' av m).1 (drop_class (c sz) n l' av m).2 (fun b z => F b z /\ b <> a).
Proof.
  intros H HF Hu Hl l'. unfold l'. clear l'. rewrite filter_neq_Z. destruct (idx_listed _ _ _ _ _ _ _ _ _ H HF Hl) as [Ha Hav].
  destruct (idx_max_in _ _ _ _ _ _ _ H Hav) as (Em & Hm & _). destruct H as [H1 H2 H3 H4 H5 H6]. pose proof (lookup_lt_Some _ _ _ Hl) as Hlt.
  assert (Hin : forall i l0 b, <[c sz:=filter (fun b => b <> a) l]> f !! i = Some l0 -> b ∈ l0 <-> exists z, (F b z /\ b <> a) /\ c z = i).
  { intros i l0 b. destruct (decide (i = c sz)) as [->|Hi].
    - rewrite list_lookup_insert_eq by done. intros [= <-]. rewrite list_elem_of_filter, (H3 _ _ b Hl). firstorder.
    - rewrite list_lookup_insert_ne by done. intros H0. rewrite (H3 _ _ b H0). split.
      + intros (z & Hz & <-). exists z. split; [|done]. split; [done|]. intros ->. apply Hi. by rewrite (Hu z Hz).
      + intros (z & [Hz _] & <-). eauto. }
  assert (Hnd : forall i l0, <[c sz:=filter (fun b => b <> a) l]> f !! i = Some l0 -> NoDup l0).
  { intros i l0. destruct (decide (i = c sz)) as [->|Hi]; [|rewrite list_lookup_insert_ne by done; apply H2].
    rewrite list_lookup_insert_eq by done. intros [= <-]. apply NoDup_filter. by eapply H2. }
  assert (Hne : forall i, i <> c sz -> (exists b k, <[c sz:=filter (fun b => b <> a) l]> f !! i = Some (b :: k)) <-> i ∈ av).
  { intros i Hi. by rewrite list_lookup_insert_ne, H5 by done. }
  constructor; [by rewrite length_insert|done|done|..]; unfold drop_class; destruct (filter (fun b => b <> a) l) as [|b k] eqn:El; cbn [fst snd].
  - rewrite filter_neq_nat. by apply sorted_filter.
  - done.
  - intros i. rewrite filter_neq_nat, list_elem_of_filter. destruct (decide (i = c sz)) as [->|Hi]; [|rewrite Hne by done; tauto].
    rewrite list_lookup_insert_eq by done. split; [tauto|]. by intros (? & ? & ?).
  - intros i. destruct (decide (i = c sz)) as [->|Hi]; [|by rewrite Hne]. rewrite list_lookup_insert_eq by done. split; [eauto|done].
  - rewrite filter_neq_nat. by apply drop_last.
  - done.
Qed.

Lemma insert_available_spec i l : StronglySorted lt l -> i ∉ l ->
  let '(r, flag) := insert_available i l in
  StronglySorted lt r /\ (forall j, j ∈ r <-> j = i \/ j ∈ l) /\ last r = if flag then Some i else last l.
Proof.
  induction 1 as [|x l HS IH HF]; intros Hi; cbn [insert_available].
  - split; [repeat constructor|]. split; [|done]. intros j. rewrite list_elem_of_singleton, elem_of_nil. tauto.
  - apply not_elem_of_cons in Hi as [Hx Hi]. destruct (Nat.ltb_spec i x) as [L|L].
    + split; [constructor; [by constructor|]; constructor; [done|]; eapply Forall_impl; [exact HF|]; intros; lia|].
      split; [|done]. intros j. by rewrite elem_of_cons.
    + specialize (IH Hi). destruct (insert_available i l) as [r flag]. destruct IH as (H1 & H2 & H3). split; [|split].
      * constructor; [done|]. apply Forall_forall. intros y Hy. apply H2 in Hy as [->|Hy]; [lia|by eapply Forall_forall in HF].
      * intros j. rewrite !elem_of_cons, H2. tauto.
      * rewrite last_cons, H3. destruct flag; [done|]. rewrite last_cons. by destruct (last l).
Qed.

Definition add_class (i : nat) (l : list Z) (av : list nat) (m : nat) : list nat * nat :=
  match l with
  | [] => let '(av, flag) := insert_available i av in (av, if flag then i else m)
  | _ => (av, m)
  end.

Lemma insert_idx c n f av m (F : Z -> Z -> Prop) a sz l : idx c n f av m F -> (forall z, ~ F a z) -> f !! c sz = Some l ->
  idx c n (<[c sz := a :: l]> f) (add_class (c sz) l av m).1 (add_class (c sz) l av m).2 (fun b z => F b z \/ b = a /\ z = sz).
Proof.
  intros [H1 H2 H3 H4 H5 H6] Hno Hl. pose proof (lookup_lt_Some _ _ _ Hl) as Hlt.
  assert (Ha : a ∉ l) by (intros Ha; apply (H3 _ _ _ Hl) in Ha as (z & Hz & _); by apply (Hno z)).
  assert (Hin : forall i l0 b, <[c sz := a :: l]> f !! i = Some l0 -> b ∈ l0 <-> exists z, (F b z \/ b = a /\ z = sz) /\ c z = i).
  { intros i l0 b. destruct (decide (i = c sz)) as [->|Hi].
    - rewrite list_lookup_insert_eq by done. intros [= <-]. rewrite elem_of_cons, (H3 _ _ b Hl). split.
      + intros [->|(z & Hz & E)]; [exists sz; tauto|exists z; tauto].
      + intros (z & [Hz|[-> ->]] & E); [right; by exists z|by left].
    - rewrite list_lookup_insert_ne by done. intros H0. rewrite (H3 _ _ b H0). split; [intros (z & Hz & <-); eauto|].
      intros (z & [Hz|[-> ->]] & E); [by exists z|congruence]. }
  assert (Hnd : forall i l0, <[c sz := a :: l]> f !! i = Some l0 -> NoDup l0).
  { intros i l0. destruct (decide (i = c sz)) as [->|Hi]; [|rewrite list_lookup_insert_ne by done; apply H2].
    rewrite list_lookup_insert_eq by done. intros [= <-]. constructor; [done|by eapply H2]. }
  assert (Hav : forall i, (exists b k, <[c sz := a :: l]> f !! i = Some (b :: k)) <-> i = c sz \/ i ∈ av).
  { intros i. destruct (decide (i = c sz)) as [->|Hi]; [rewrite list_lookup_insert_eq by done; split; [by left|by eauto]|].
    rewrite list_lookup_insert_ne, H5 by done. tauto. }
  constructor; [by rewrite length_insert|done|done|..]; unfold add_class; destruct l as [|b k]; cbn [fst snd];
    try pose proof (insert_available_spec (c sz) av H4) as HI; try (destruct (insert_available (c sz) av) as [r flag]; cbn [fst snd];
    destruct HI as (I1 & I2 & I3); [intros Hc; apply H5 in Hc as (? & ? & ?); congruence|]).
  - done.
  - done.
  - intros i. by rewrite Hav, I2.
  - intros i. rewrite Hav. split; [tauto|]. intros [->|Hi]; [apply H5; eauto|done].
  - rewrite I3. by destruct flag.
  - done.
Qed.

(** ** The invariant *)

Definition frees (l : list storage) (a sz : Z) : Prop := exists st, st ∈ l /\ addr st = a /\ size st = sz /\ alloc st = false.

(** No two neighbours are free. *)
Fixpoint coalesced (l : list storage) : Prop :=
  match l with
  | st :: l' => match l' with st' :: _ => alloc st || alloc st' = true | [] => True end /\ coalesced l'
  | [] => True
  end.

Definition used (l : list storage) : Z := total (fun st => if alloc st then size st else 0) l.
Definition requested (l : list storage) : Z := total (fun st => if alloc st then act_size st else 0) l.

(** The header of a storage that is in the ring and, when free, in its list. *)
Definition header_ok (s : dfs_shmem_t) (st : storage) : Prop :=
  free_list_head st = (if alloc st then None else Some (cls s (size st))) /\ (alloc st = true -> 0 <= act_size st <= size st).

Definition low (s : dfs_shmem_t) : Z := shm_addr s + system_size (shmem_stat s).
Definition high (s : dfs_shmem_t) : Z := shm_addr s + total_size (shmem_stat s).

(** Configuration, the tiling and the statistics, which hold at every point. *)
Record base (s : dfs_shmem_t) : Prop := {
  b_cfg : cfg s;
  b_range : 0 < shm_addr s /\ 0 <= system_size (shmem_stat s) /\ high s < 2 ^ 64;
  b_tiled : tiled (low s) (high s) (order s);
  b_used : used_size (shmem_stat s) = used (order s);
  b_reqs : reqs_size (shmem_stat s) = requested (order s);
  b_count : st_count (shmem_stat s) = Z.of_nat (length (order s)) }.

Definition indexes (s : dfs_shmem_t) (l : list storage) : Prop :=
  idx (cls s) (free_len s) (free s) (available s) (max_available_index s) (frees l).

Record wf (s : dfs_shmem_t) : Prop := {
  w_base : base s;
  w_idx : indexes s (order s);
  w_head : Forall (header_ok s) (order s);
  w_coal : coalesced (order s) }.

(** A free storage is in no list, everything else is as it should be. *)
Record focused (s : dfs_shmem_t) (pre : list storage) (st : storage) (post : list storage) : Prop := {
  f_base : base s;
  f_order : order s = pre ++ st :: post;
  f_free : alloc st = false;
  f_head : free_list_head st = None;
  f_idx : indexes s (pre ++ post);
  f_heads : Forall (header_ok s) (pre ++ post);
  f_pre : coalesced pre;
  f_post : coalesced post }.

Definition busy (o : option storage) : Prop := match o with Some st => alloc st = true | None => True end.

Lemma coalesced_app l1 l2 : coalesced (l1 ++ l2) <-> coalesced l1 /\ coalesced l2 /\
  match last l1, head l2 with Some x, Some y => alloc x || alloc y = true | _, _ => True end.
Proof.
  induction l1 as [|x l1 IH]; cbn [app coalesced].
  - cbn. tauto.
  - rewrite IH, last_cons. destruct l1 as [|y l1]; [cbn [app last coalesced]; destruct l2; cbn; tauto|]. cbn [app].
    destruct (last (y :: l1)) as [z|] eqn:E; [tauto|]. by apply last_None in E.
Qed.

Lemma coalesced_mid pre st post : alloc st = false -> coalesced (pre ++ st :: post) <-> coalesced pre /\ coalesced post /\ busy (last pre) /\ busy (head post).
Proof.
  intros E. rewrite coalesced_app. cbn [coalesced head]. rewrite E. unfold busy. destruct (last pre), post as [|y post]; cbn [head orb]; rewrite ?orb_false_r; tauto.
Qed.

Lemma frees_app l1 l2 a sz : frees (l1 ++ l2) a sz <-> frees l1 a sz \/ frees l2 a sz.
Proof. unfold frees. setoid_rewrite elem_of_app. firstorder. Qed.

Lemma frees_cons st l a sz : frees (st :: l) a sz <-> (addr st = a /\ size st = sz /\ alloc st = false) \/ frees l a sz.
Proof. unfold frees. setoid_rewrite elem_of_cons. split; [intros (x & [->|?] & ?); eauto|]. intros [?|(x & ? & ?)]; eauto. Qed.

Lemma frees_addr l a sz : frees l a sz -> a ∈ addrs l.
Proof. intros (st & Hin & <- & _). by apply list_elem_of_fmap_2. Qed.

(** Another storage in place of one. *)
Lemma tiled_replace lo hi pre st post l : tiled lo hi (pre ++ st :: post) ->
  tiled (addr st) (addr st + DFS_SHMEM_STORAGE_SIZE + size st) l -> tiled lo hi (pre ++ l ++ post).
Proof. intros H Hl. apply tiled_app in H as (m & H1 & <- & H2 & H3). apply tiled_app. exists (addr st). split; [done|]. apply tiled_app. eauto. Qed.

Lemma mid_fresh lo hi pre st post : tiled lo hi (pre ++ st :: post) -> addr st ∉ addrs pre /\ addr st ∉ addrs post.
Proof.
  intros H. apply tiled_NoDup in H. rewrite fmap_app, fmap_cons in H. apply NoDup_app in H as (_ & H1 & H2). apply NoDup_cons in H2 as [H2 _].
  split; [|done]. intros Hp. apply (H1 _ Hp). by left.
Qed.

Definition acts_ok (l : list storage) : Prop := Forall (fun st => alloc st = true -> 0 <= act_size st <= size st) l.

Lemma used_bounds lo hi l : tiled lo hi l -> acts_ok l ->
  0 <= requested l <= used l /\ used l + DFS_SHMEM_STORAGE_SIZE * Z.of_nat (length l) <= hi - lo.
Proof.
  intros HB HF. pose proof (tiled_sum _ _ _ HB) as HT. assert (Hn : Forall (fun st => 0 <= size st) l).
  { apply Forall_forall. intros st Hst. by eapply tiled_in in Hst as (_ & ? & _). }
  enough (0 <= requested l <= used l /\ used l <= total size l) by lia. clear HT HB.
  induction l as [|st l IH]; [cbn; lia|]. apply Forall_cons in HF as [H1 HF], Hn as [H2 Hn]. specialize (IH HF Hn).
  unfold used, requested in *. cbn [total]. destruct (alloc st); [specialize (H1 eq_refl)|]; lia.
Qed.

Lemma size_range s st : base s -> st ∈ order s -> 0 <= size st < 2 ^ 64 /\ 0 < addr st /\ addr st + DFS_SHMEM_STORAGE_SIZE + size st < 2 ^ 64.
Proof.
  intros HB Hin. destruct (b_range s HB) as (H1 & H2 & H3). eapply tiled_in in Hin; [|apply (b_tiled s HB)]. unfold low, DFS_SHMEM_STORAGE_SIZE in *. lia.
Qed.

(** ** Leaving and entering a list *)

Lemma insert_index_cls s sz : cfg s -> 0 <= sz < 2 ^ 64 -> exists i, dfs_shmem_get_insert_index s sz = Some i /\ cls s sz = Nat.min i (free_len s - 1).
Proof. intros HC H. destruct (insert_index_spec s HC sz H) as (i & E & _). exists i. split; [done|]. unfold cls. by rewrite E. Qed.

Lemma idx_lookup c n f av m F i : idx c n f av m F -> (i < n)%nat -> exists l, f !! i = Some l.
Proof. intros H Hi. rewrite <-(i_len _ _ _ _ _ _ H) in Hi. by apply lookup_lt_is_Some_2. Qed.

Lemma remove_free_ok s l a st : cfg s -> 0 <= size st < 2 ^ 64 -> indexes s l -> get (order s) a = Some st ->
  frees l a (size st) -> (forall z, frees l a z -> z = size st) -> free_list_head st = Some (cls s (size st)) ->
  exists f av m, dfs_shmem_remove_free s a = Some (true, set_order (set_lists s f av m) (put (order s) (set_head st None))) /\
    idx (cls s) (free_len s) f av m (fun b z => frees l b z /\ b <> a).
Proof.
  intros HC Hsz HI Hg HF Hu Hh. destruct (insert_index_cls s (size st) HC Hsz) as (i & Ei & Ec).
  destruct (idx_lookup _ _ _ _ _ _ _ HI (cls_lt s HC (size st))) as [q Hq]. destruct (idx_listed _ _ _ _ _ _ _ _ _ HI HF Hq) as [_ Hav].
  destruct (idx_max_in _ _ _ _ _ _ _ HI Hav) as (_ & Hm & _).
  pose proof (remove_idx _ _ _ _ _ _ a (size st) q HI HF Hu Hq) as HR. cbv zeta in HR.
  do 3 eexists. split; [|exact HR]. unfold dfs_shmem_remove_free. rewrite Hg, (option_bind_eq _ _ _ eq_refl), (option_bind_eq _ _ _ Ei).
  assert (Ej : (if (max_available_index s <? i)%nat then max_available_index s else i) = cls s (size st)) by (destruct (Nat.ltb_spec (max_available_index s) i); lia).
  cbv zeta. rewrite Ej, bool_decide_eq_true_2 by done. cbn [negb]. rewrite (option_bind_eq _ _ _ Hq). unfold drop_class.
  by destruct (List.filter (fun b => negb (b =? a)) q).
Qed.

(** Changes of the storages that keep their tiling and statistics. *)
Lemma base_order s l t : base s -> tiled (low s) (high s) l -> total_size t = total_size (shmem_stat s) -> system_size t = system_size (shmem_stat s) ->
  used_size t = used l -> reqs_size t = requested l -> st_count t = Z.of_nat (length l) -> forall f av m, base (set_stat (set_order (set_lists s f av m) l) t).
Proof.
  intros [H1 H2 H3 H4 H5 H6] HT E1 E2 E3 E4 E5 f av m. unfold low, high in *. constructor; cbn [shmem_stat set_stat set_order order]; try done;
    unfold low, high; cbn [shmem_stat set_stat set_order set_lists order shm_addr]; rewrite ?E1, ?E2; try done. destruct H1. by constructor.
Qed.

Lemma base_order_same s l : base s -> tiled (low s) (high s) l -> used l = used (order s) -> requested l = requested (order s) -> length l = length (order s) ->
  forall f av m, base (set_order (set_lists s f av m) l).
Proof.
  intros HB HT E1 E2 E3 f av m. pose proof (base_order s l (shmem_stat s) HB HT eq_refl eq_refl) as H. destruct HB as [B1 B2 B3 B4 B5 B6].
  apply (H ltac:(congruence) ltac:(congruence) ltac:(congruence) f av m).
Qed.

(** The counters follow the storages. *)
Lemma base_stat s l u r c : base s -> tiled (low s) (high s) l -> acts_ok l ->
  used l = used (order s) + u -> requested l = requested (order s) + r -> Z.of_nat (length l) = Z.of_nat (length (order s)) + c ->
  forall f av m, base (set_stat (set_order (set_lists s f av m) l) (stat_use u r c (shmem_stat s))).
Proof.
  intros HB HT HA E1 E2 E3 f av m. destruct (used_bounds _ _ _ HT HA) as [H1 H2]. destruct (b_range s HB) as (R1 & R2 & R3).
  assert (Hr : high s - low s < 2 ^ 64) by (unfold low; lia). unfold DFS_SHMEM_STORAGE_SIZE in H2.
  apply base_order; [done|done|done|done|..]; cbn [stat_use used_size reqs_size st_count].
  - rewrite (b_used s HB), <-E1. apply uwrap_small. unfold in_u. lia.
  - rewrite (b_reqs s HB), <-E2. apply uwrap_small. unfold in_u. lia.
  - rewrite (b_count s HB), <-E3. apply uwrap_small. unfold in_u. lia.
Qed.

Lemma heads_acts s l : Forall (header_ok s) l -> acts_ok l.
Proof. intros H. eapply Forall_impl; [exact H|]. by intros x [_ ?]. Qed.

(** A free storage leaves its list. *)
Lemma remove_free_focus s pre st post : wf s -> order s = pre ++ st :: post -> alloc st = false ->
  exists s1, dfs_shmem_remove_free s (addr st) = Some (true, s1) /\ focused s1 pre (set_head st None) post /\
    busy (last pre) /\ busy (head post) /\ shmem_stat s1 = shmem_stat s /\ split_threshold s1 = split_threshold s.
Proof.
  intros [HB HI HH HC] Ho Ha. pose proof (b_tiled s HB) as HT. rewrite Ho in HT, HI, HH, HC. destruct (mid_fresh _ _ _ _ _ HT) as [N1 N2].
  pose proof (tiled_NoDup _ _ _ HT) as HN. destruct (size_range s st HB) as (Hsz & _); [rewrite Ho; apply elem_of_app; right; by left|].
  apply Forall_app in HH as [HP HQ]. apply Forall_cons in HQ as [HS HQ]. destruct HS as [HS _]. rewrite Ha in HS.
  assert (Hg : get (order s) (addr st) = Some st) by (rewrite Ho; by apply get_mid).
  assert (Hu : forall z, frees (pre ++ st :: post) (addr st) z <-> z = size st).
  { intros z. rewrite frees_app, frees_cons. split; [|intros ->; tauto]. intros [H|[(_ & <- & _)|H]]; [|done|]; apply frees_addr in H; done. }
  destruct (remove_free_ok s _ (addr st) st (b_cfg s HB) Hsz HI Hg (proj2 (Hu _) eq_refl) (fun z => proj1 (Hu z)) HS) as (f & av & m & E & HI').
  eexists. split; [exact E|]. apply coalesced_mid in HC as (C1 & C2 & C3 & C4); [|done]. rewrite Ho, put_mid by done. split; [|done]. constructor; try done.
  - apply base_order_same; [done| |rewrite Ho; unfold used, requested; rewrite !total_app; cbn [total set_head alloc size act_size]; done..|rewrite Ho, !length_app; done].
    apply (tiled_replace _ _ _ _ _ [set_head st None] HT). cbn. lia.
  - refine (idx_ext _ _ _ _ _ _ _ _ HI'). intros b z. rewrite !frees_app, frees_cons. split; [intros [[?|[(<- & _)|?]] Hb]; [tauto|done|tauto]|].
    intros H. split; [tauto|]. intros ->. destruct H as [H|H]; apply frees_addr in H; done.
  - by apply Forall_app.
Qed.

(** A storage enters its list. *)
Lemma insert_free_raw s pre st post F : cfg s -> 0 <= size st < 2 ^ 64 -> order s = pre ++ st :: post -> NoDup (addrs (order s)) -> alloc st = false ->
  idx (cls s) (free_len s) (free s) (available s) (max_available_index s) F -> (forall z, ~ F (addr st) z) ->
  exists f av m, dfs_shmem_insert_free s (addr st) = Some (set_order (set_lists s f av m) (pre ++ set_head st (Some (cls s (size st))) :: post)) /\
    idx (cls s) (free_len s) f av m (fun b z => F b z \/ b = addr st /\ z = size st).
Proof.
  intros HC Hsz Ho HN Ha HI Hno. rewrite Ho in HN. assert (N1 : addr st ∉ addrs pre).
  { rewrite fmap_app in HN. apply NoDup_app in HN as (_ & H1 & _). intros Hp. apply (H1 _ Hp). by left. }
  destruct (insert_index_cls s (size st) HC Hsz) as (i & Ei & Ec). destruct (idx_lookup _ _ _ _ _ _ _ HI (cls_lt s HC (size st))) as [q Hq].
  pose proof (insert_idx _ _ _ _ _ _ (addr st) (size st) q HI Hno Hq) as HI'.
  exists (<[cls s (size st) := addr st :: q]> (free s)), (add_class (cls s (size st)) q (available s) (max_available_index s)).1,
    (add_class (cls s (size st)) q (available s) (max_available_index s)).2. split; [|done].
  unfold dfs_shmem_insert_free. rewrite Ho, get_mid by done. rewrite (option_bind_eq _ _ _ eq_refl), Ha, (option_bind_eq _ _ _ Ei).
  assert (Ej : (if (free_len s - 1 <? i)%nat then (free_len s - 1)%nat else i) = cls s (size st)) by (destruct (Nat.ltb_spec (free_len s - 1) i); lia).
  cbv zeta. rewrite Ej, (option_bind_eq _ _ _ Hq), put_mid by done. unfold add_class.
  destruct q; [destruct (insert_available (cls s (size st)) (available s))|]; reflexivity.
Qed.

Lemma insert_free_ok s pre st post : focused s pre st post -> busy (last pre) -> busy (head post) ->
  exists f av m, let s' := set_order (set_lists s f av m) (pre ++ set_head st (Some (cls s (size st))) :: post) in
    dfs_shmem_insert_free s (addr st) = Some s' /\ wf s'.
Proof.
  intros [HB Ho Ha _ HI HH C1 C2] Hp Hn. pose proof (b_tiled s HB) as HT. rewrite Ho in HT. destruct (mid_fresh _ _ _ _ _ HT) as [N1 N2].
  destruct (size_range s st HB) as (Hsz & _); [rewrite Ho; apply elem_of_app; right; by left|].
  assert (Hno : forall z, ~ frees (pre ++ post) (addr st) z) by (intros z H; apply frees_app in H as [H|H]; apply frees_addr in H; done).
  destruct (insert_free_raw s pre st post _ (b_cfg s HB) Hsz Ho (tiled_NoDup _ _ _ (b_tiled s HB)) Ha HI Hno) as (f & av & m & E & HI').
  exists f, av, m. cbv zeta. split; [done|]. constructor.
  - apply base_order_same; [done| |rewrite Ho; unfold used, requested; rewrite !total_app; cbn [total set_head alloc size act_size]; done..|rewrite Ho, !length_app; done].
    apply (tiled_replace _ _ _ _ _ [set_head st _] HT). cbn. lia.
  - refine (idx_ext _ _ _ _ _ _ _ _ HI'). intros b z. cbn [order set_order]. rewrite !frees_app, frees_cons. cbn [set_head addr size alloc].
    split; [intros [[?|?]|[-> ->]]; tauto|]. intros [?|[(<- & <- & _)|?]]; tauto.
  - cbn [order set_order]. apply Forall_app in HH as [H1 H2]. apply Forall_app. split; [done|]. constructor; [|done]. split; cbn [set_head free_list_head alloc]; rewrite Ha; done.
  - cbn [order set_order]. by apply coalesced_mid.
Qed.

End ShmemOk.
