(* ===== verification/ShmemProps.v ===== *)
(** * The allocator on shared memory: what it does

    The blocks handed out, the functional behaviour of allocation, of the
    allocation of the largest block and of release on every branch, the
    operations together as an allocator of disjoint blocks, and when an
    allocation fails. *)

From Stdlib Require Import ZArith Lia Bool Sorted.
From stdpp Require Import base numbers sorting gmap option list.
From S2P Require Import Prelude DfsMath Shmem ShmemOk.
Import Shmem ShmemOk.

Module ShmemProps.

(** The blocks that are handed out: their addresses and sizes. *)
Definition blocks (l : list storage) : list (Z * Z) :=
  omap (fun st => if alloc st then Some (addr st + DFS_SHMEM_STORAGE_SIZE, size st) else None) l.
Definition live (s : dfs_shmem_t) : list (Z * Z) := blocks (order s).

Lemma out_blocks_app l1 l2 : blocks (l1 ++ l2) = blocks l1 ++ blocks l2.
Proof. apply omap_app. Qed.
Lemma out_blocks_cons st l : blocks (st :: l) = (if alloc st then [(addr st + DFS_SHMEM_STORAGE_SIZE, size st)] else []) ++ blocks l.
Proof. unfold blocks. cbn. by destruct (alloc st). Qed.

(** ** Release *)

Section merging.

Context (s : dfs_shmem_t) (pre post : list storage) (st : storage) (HF : focused s pre st post).

Lemma focus_get : get (order s) (addr st) = Some st.
Proof using HF. 
  pose proof (b_tiled s (f_base _ _ _ _ HF)) as HT. rewrite (f_order _ _ _ _ HF) in *. apply get_mid, (mid_fresh _ _ _ _ _ HT).
Qed.

(** A neighbour that is free leaves its list. *)
Lemma focus_remove x l1 l2 : x ∈ pre ++ post -> alloc x = false -> order s = l1 ++ x :: l2 ->
  exists f av m, dfs_shmem_remove_free s (addr x) = Some (true, set_order (set_lists s f av m) (l1 ++ set_head x None :: l2)) /\
    idx (cls s) (free_len s) f av m (fun b z => frees (pre ++ post) b z /\ b <> addr x).
Proof using HF.
  intros Hx Ha Ho. pose proof (b_tiled s (f_base _ _ _ _ HF)) as HT. rewrite Ho in HT. pose proof (tiled_NoDup _ _ _ HT) as HN.
  destruct (mid_fresh _ _ _ _ _ HT) as [N1 _].
  assert (Hin : x ∈ order s) by (rewrite Ho; apply elem_of_app; right; by left). destruct (size_range s x (f_base _ _ _ _ HF) Hin) as (Hsz & _).
  assert (Hh : free_list_head x = Some (cls s (size x))).
  { pose proof (f_heads _ _ _ _ HF) as HH. rewrite Forall_forall in HH. specialize (HH x Hx). destruct HH as [HH _]. by rewrite Ha in HH. }
  assert (Hg : get (order s) (addr x) = Some x) by (rewrite Ho; by apply get_mid).
  assert (Hu : forall z, frees (pre ++ post) (addr x) z -> z = size x).
  { intros z (y & Hy & Ey & <- & _). assert (y ∈ order s) by (rewrite (f_order _ _ _ _ HF); apply elem_of_app in Hy as [?|?]; apply elem_of_app; [by left|right; by right]).
    assert (get (order s) (addr x) = Some y) by (apply get_in; [rewrite Ho; done|done|done]). congruence. }
  destruct (remove_free_ok s (pre ++ post) (addr x) x (b_cfg s (f_base _ _ _ _ HF)) Hsz (f_idx _ _ _ _ HF) Hg) as (f & av & m & E & HI'); [by exists x|done|done|].
  exists f, av, m. split; [|done]. rewrite E, Ho, put_mid by done. done.
Qed.

Lemma sums_free l1 x l2 : alloc x = false -> used (l1 ++ x :: l2) = used (l1 ++ l2) /\ requested (l1 ++ x :: l2) = requested (l1 ++ l2).
Proof. intros E. unfold used, requested. rewrite !total_app. cbn [total]. rewrite E. lia. Qed.

(** Two free neighbours [x] and [y] become one storage. *)
Section joining.

Context (l1 l2 : list storage) (x y x' : storage) (Ho : order s = l1 ++ x :: y :: l2).
Context (Hx : alloc x = false) (Hy : alloc y = false) (Hx' : alloc x' = false) (Hh : free_list_head x' = None).
Context (Ha : addr x' = addr x) (Hs : size x' = size x + size y + DFS_SHMEM_STORAGE_SIZE).

Lemma join_tiled : tiled (low s) (high s) (l1 ++ x' :: l2) /\ addr y = addr x + DFS_SHMEM_STORAGE_SIZE + size x /\
  0 <= size x + size y + DFS_SHMEM_STORAGE_SIZE < 2 ^ 64.
Proof using HF Ho Ha Hs.
  pose proof (f_base _ _ _ _ HF) as HB. pose proof (b_tiled s HB) as HT. destruct (b_range s HB) as (R1 & R2 & R3). rewrite Ho in HT.
  apply tiled_app in HT as (m & T1 & E0 & T2 & E1 & T3 & T4). pose proof (tiled_le _ _ _ T1) as L1. pose proof (tiled_le _ _ _ T4) as L2. split; [|split].
  - apply tiled_app. exists m. split; [done|]. cbn [tiled]. rewrite Ha, Hs. split; [done|]. unfold DFS_SHMEM_STORAGE_SIZE in *. split; [lia|].
    by replace (m + 64 + (size x + size y + 64)) with (m + 64 + size x + 64 + size y) by lia.
  - lia.
  - unfold low, DFS_SHMEM_STORAGE_SIZE in *. lia.
Qed.

Lemma join_ok f av m : idx (cls s) (free_len s) f av m (frees (l1 ++ l2)) -> Forall (header_ok s) (l1 ++ l2) -> coalesced l1 -> coalesced l2 ->
  focused (set_stat (set_order (set_lists s f av m) (l1 ++ x' :: l2)) (stat_use 0 0 (-1) (shmem_stat s))) l1 x' l2.
Proof using HF Ho Hx Hy Hx' Hh Ha Hs.
  intros HI HH C1 C2. constructor; try done. destruct (sums_free l1 x (y :: l2) Hx) as [A1 A2], (sums_free l1 y l2 Hy) as [B1 B2], (sums_free l1 x' l2 Hx') as [D1 D2].
  apply base_stat; [apply HF|apply join_tiled| |rewrite Ho; lia..|rewrite Ho, !length_app; cbn; lia].
  apply heads_acts, Forall_app in HH as [H1 H2]. apply Forall_app. split; [done|]. constructor; [by rewrite Hx'|done].
Qed.

Lemma join_order x0 y0 : addr x0 = addr x -> addr y0 = addr y -> remove (put (l1 ++ x0 :: y0 :: l2) x') (addr y) = l1 ++ x' :: l2.
Proof using HF Ho Ha.
  intros E1 E2. pose proof (tiled_NoDup _ _ _ (b_tiled s (f_base _ _ _ _ HF))) as HN. rewrite Ho, fmap_app, !fmap_cons, <-E1, <-E2 in HN.
  rewrite put_mid by (rewrite ?fmap_app, ?fmap_cons; congruence). rewrite <-E2.
  rewrite (app_cons_assoc l1 x'), remove_mid; [by rewrite <-app_cons_assoc|].
  rewrite <-app_cons_assoc, fmap_app, !fmap_cons. congruence.
Qed.

(** The index without a storage that has left it. *)
Lemma join_idx z F f av m : z = x \/ z = y -> (forall b w, F b w <-> frees (l1 ++ l2) b w \/ b = addr z /\ w = size z) ->
  idx (cls s) (free_len s) f av m (fun b w => F b w /\ b <> addr z) -> idx (cls s) (free_len s) f av m (frees (l1 ++ l2)).
Proof using HF Ho.
  intros Hz HFr. apply idx_ext. intros b w. rewrite HFr. split; [intros [[?|[-> _]] ?]; done|]. intros Hb. split; [by left|]. intros ->.
  pose proof (b_tiled s (f_base _ _ _ _ HF)) as HT. rewrite Ho in HT. apply frees_addr in Hb. rewrite fmap_app in Hb.
  pose proof (mid_fresh _ _ _ _ _ HT) as [A1 A2]. rewrite (app_cons_assoc l1 x) in HT. pose proof (mid_fresh _ _ _ _ _ HT) as [B1 B2].
  rewrite fmap_app in B1. cbn in A2.
  apply elem_of_app in Hb as [Hb|Hb]; destruct Hz as [->| ->]; [done|apply B1, elem_of_app; by left|apply A2; by right|done].
Qed.

End joining.

Lemma merge_next_ok : exists s' st' post', merge_next s (addr st) = Some (true, s') /\ focused s' pre st' post' /\ busy (head post') /\
  addr st' = addr st /\ blocks (pre ++ post') = blocks (pre ++ post).
Proof using HF.
  unfold merge_next. rewrite focus_get, (option_bind_eq _ _ _ eq_refl). pose proof (f_order _ _ _ _ HF) as Ho. pose proof (f_free _ _ _ _ HF) as Hf.
  pose proof (b_tiled s (f_base _ _ _ _ HF)) as HT. rewrite Ho in HT. rewrite Ho, next_mid by apply (mid_fresh _ _ _ _ _ HT).
  assert (Hp : post = [] \/ exists nx q, post = nx :: q) by (destruct post; eauto). destruct Hp as [Ep|(nx & q & Ep)].
  { assert (Eh : head post = None) by (by rewrite Ep). rewrite Eh. exists s, st, post. by rewrite Eh. }
  assert (Eh : head post = Some nx) by (by rewrite Ep). rewrite Eh. destruct (alloc nx) eqn:Ea; cbn [negb andb].
  { exists s, st, post. by rewrite Eh. }
  set (st' := set_size st (size st + size nx + DFS_SHMEM_STORAGE_SIZE)). rewrite Ep in Ho.
  destruct (join_tiled pre q st nx st' Ho eq_refl eq_refl) as (HT' & Ey & Hr).
  destruct (focus_remove nx (pre ++ [st]) q) as (f & av & m & E & HI); [rewrite Ep; apply elem_of_app; right; by left|done|by rewrite <-app_cons_assoc|].
  rewrite (proj2 (Z.eqb_eq (addr nx) _) Ey), (option_bind_eq _ _ _ E). cbn [negb order set_order set_lists]. rewrite <-app_cons_assoc.
  replace (u64 _) with (size st + size nx + DFS_SHMEM_STORAGE_SIZE) by (symmetry; by apply uwrap_small). fold st'.
  rewrite (join_order pre q st nx st' Ho eq_refl) by done.
  pose proof (f_heads _ _ _ _ HF) as HH. pose proof (f_post _ _ _ _ HF) as HC. rewrite Ep in HH, HC, HI. destruct HC as [HC1 HC2].
  eexists _, st', q. split; [reflexivity|]. split; [|split; [|split; [done|]]].
  - apply (join_ok pre q st nx st' Ho Hf Ea Hf (f_head _ _ _ _ HF) eq_refl eq_refl); [|apply Forall_app in HH as [H1 H2]; apply Forall_app; split; [done|by apply Forall_cons in H2 as [_ ?]]|apply HF|done].
    eapply (join_idx pre q st nx Ho nx); [by right| |exact HI]. intros b w. rewrite !frees_app, frees_cons. naive_solver.
  - unfold busy. destruct q as [|y q]; [done|]. cbn [head]. by rewrite Ea in HC1.
  - rewrite Ep, !out_blocks_app, out_blocks_cons, Ea. done.
Qed.

Lemma merge_prev_ok : exists s' st' pre', merge_prev s (addr st) = Some (Some (addr st'), s') /\ focused s' pre' st' post /\ busy (last pre') /\
  blocks (pre' ++ post) = blocks (pre ++ post).
Proof using HF.
  unfold merge_prev. rewrite focus_get, (option_bind_eq _ _ _ eq_refl). pose proof (f_order _ _ _ _ HF) as Ho. pose proof (f_free _ _ _ _ HF) as Hf.
  pose proof (b_tiled s (f_base _ _ _ _ HF)) as HT. rewrite Ho in HT. rewrite Ho, prev_mid by apply (mid_fresh _ _ _ _ _ HT).
  destruct (last pre) as [pv|] eqn:El; [|exists s, st, pre; by rewrite El].
  destruct (alloc pv) eqn:Ea; cbn [negb andb]; [exists s, st, pre; rewrite El; done|].
  apply last_Some in El as [q Ep]. set (st' := set_size (set_head pv None) (size pv + size st + DFS_SHMEM_STORAGE_SIZE)).
  rewrite Ep, <-app_cons_assoc in Ho.
  destruct (join_tiled q post pv st st' Ho eq_refl eq_refl) as (HT' & Ey & Hr).
  destruct (focus_remove pv q (st :: post)) as (f & av & m & E & HI); [rewrite Ep; apply elem_of_app; left; apply elem_of_app; right; by left|done|done|].
  rewrite (proj2 (Z.eqb_eq (addr st) (addr pv + size pv + DFS_SHMEM_STORAGE_SIZE))) by lia. rewrite (option_bind_eq _ _ _ E). cbn [negb order set_order set_lists].
  rewrite Ep, <-app_cons_assoc in HT. destruct (mid_fresh _ _ _ _ _ HT) as [N1 _].
  replace (get (q ++ set_head pv None :: st :: post) (addr pv)) with (Some (set_head pv None)) by (symmetry; by apply (get_mid q (set_head pv None))).
  rewrite (option_bind_eq _ _ _ eq_refl). cbn [set_head size].
  replace (u64 _) with (size pv + size st + DFS_SHMEM_STORAGE_SIZE) by (symmetry; rewrite Z.add_assoc; by apply uwrap_small).
  change (set_size _ _) with st'. rewrite (join_order q post pv st st' Ho eq_refl) by done.
  pose proof (f_heads _ _ _ _ HF) as HH. pose proof (f_pre _ _ _ _ HF) as HC. rewrite Ep in HH, HC, HI. apply coalesced_mid in HC as (HC1 & _ & HC2 & _); [|done].
  rewrite <-app_cons_assoc in HH, HI.
  eexists _, st', q. split; [reflexivity|]. split; [|split; [done|]].
  - apply (join_ok q post pv st st' Ho Ea Hf Ea eq_refl eq_refl eq_refl); [|apply Forall_app in HH as [H1 H2]; apply Forall_app; split; [done|by apply Forall_cons in H2 as [_ ?]]|done|apply HF].
    eapply (join_idx q post pv st Ho pv); [by left| |exact HI]. intros b w. rewrite !frees_app, frees_cons. naive_solver.
  - rewrite Ep, <-app_cons_assoc, !out_blocks_app, out_blocks_cons, Ea. done.
Qed.

End merging.

Lemma live_split s p sz : (p, sz) ∈ live s <-> exists pre st post, order s = pre ++ st :: post /\ alloc st = true /\ p = addr st + DFS_SHMEM_STORAGE_SIZE /\ sz = size st.
Proof.
  unfold live, blocks. rewrite list_elem_of_omap. split.
  - intros (st & Hin & E). destruct (alloc st) eqn:Ea; [|done]. injection E as <- <-. apply list_elem_of_split in Hin as (pre & post & ->). eauto 10.
  - intros (pre & st & post & -> & Ea & -> & ->). exists st. rewrite Ea. split; [|done]. apply elem_of_app. right. by left.
Qed.

(** A block that is handed out is given back. *)
Lemma release_focus s pre st post : wf s -> order s = pre ++ st :: post -> alloc st = true ->
  let s1 := set_stat s (stat_use (- size st) (- act_size st) 0 (shmem_stat s)) in
  focused (set_order s1 (put (order s1) (set_alloc st false))) pre (set_alloc st false) post.
Proof.
  intros [HB HI HH HC] Ho Ha. cbn [order set_stat]. pose proof (b_tiled s HB) as HT. pose proof (tiled_NoDup _ _ _ HT) as HN.
  rewrite Ho in HT, HN, HI, HH, HC. rewrite Ho, put_mid by done.
  apply Forall_app in HH as [H1 H2]. apply Forall_cons in H2 as [H2 H3]. apply coalesced_app in HC as (C1 & C2 & _).
  constructor; try done.
  - apply (base_stat s (pre ++ set_alloc st false :: post) (- size st) (- act_size st) 0 HB); rewrite ?Ho.
    + apply (tiled_replace _ _ _ _ _ [set_alloc st false] HT). cbn. eapply tiled_in in HT as (_ & ? & _); [|apply elem_of_app; right; by left]. lia.
    + apply heads_acts in H1, H3. apply Forall_app. split; [done|]. by constructor.
    + unfold used. rewrite !total_app. cbn [total set_alloc alloc size]. rewrite Ha. lia.
    + unfold requested. rewrite !total_app. cbn [total set_alloc alloc act_size]. rewrite Ha. lia.
    + rewrite !length_app. cbn [length]. lia.
  - destruct H2 as [H2 _]. by rewrite Ha in H2.
  - refine (idx_ext _ _ _ _ _ _ _ _ HI). intros b z. rewrite !frees_app, frees_cons, Ha. naive_solver.
  - by apply Forall_app.
  - by destruct C2.
Qed.

Lemma free_ok s p sz : wf s -> (p, sz) ∈ live s -> exists s', dfs_shmem_free s p = Some (ERR_NONE, s') /\ wf s' /\ live s ≡ₚ (p, sz) :: live s'.
Proof.
  intros HW Hin. apply live_split in Hin as (pre & st & post & Ho & Ha & -> & ->). pose proof (w_base s HW) as HB.
  destruct (size_range s st HB) as (_ & Hp & _); [rewrite Ho; apply elem_of_app; right; by left|].
  pose proof (release_focus s pre st post HW Ho Ha) as HF. cbv zeta in HF.
  unfold dfs_shmem_free. rewrite (proj2 (Z.eqb_neq _ _)) by (unfold DFS_SHMEM_STORAGE_SIZE; lia).
  cbv zeta. replace (addr st + DFS_SHMEM_STORAGE_SIZE - DFS_SHMEM_STORAGE_SIZE) with (addr st) by lia.
  assert (Hg : get (order s) (addr st) = Some st).
  { pose proof (b_tiled s HB) as HT. rewrite Ho in *. apply get_mid. apply (mid_fresh _ _ _ _ _ HT). }
  rewrite Hg, (option_bind_eq _ _ _ eq_refl), Ha. cbn [negb].
  destruct (merge_next_ok _ _ _ _ HF) as (s1 & st1 & post1 & E1 & HF1 & B1 & A1 & L1). cbn [addr set_alloc] in E1, A1.
  rewrite (option_bind_eq _ _ _ E1). cbn [negb]. rewrite <-A1.
  destruct (merge_prev_ok _ _ _ _ HF1) as (s2 & st2 & pre2 & E2 & HF2 & B2 & L2). rewrite (option_bind_eq _ _ _ E2).
  destruct (insert_free_ok _ _ _ _ HF2 B2 B1) as (f & av & m & E3 & HW'). rewrite (option_bind_eq _ _ _ E3). eexists. split; [reflexivity|]. split; [done|].
  unfold live. cbn [order set_order]. rewrite Ho, !out_blocks_app, !out_blocks_cons, Ha. cbn [set_head alloc]. rewrite (f_free _ _ _ _ HF2). cbn [app].
  replace (blocks pre2 ++ blocks post1) with (blocks pre ++ blocks post) by (rewrite <-!out_blocks_app; congruence). rewrite A1. symmetry. apply Permutation_middle.
Qed.

(** ** Allocation *)

Lemma busy_mid pre post st' : alloc st' = true -> coalesced pre -> coalesced post -> coalesced (pre ++ st' :: post).
Proof.
  intros E C1 C2. apply coalesced_app. cbn [coalesced head]. rewrite E. cbn [orb]. split; [done|]. split; [by destruct post|]. destruct (last pre); [|done]. by rewrite orb_true_r.
Qed.

Section carving.

Context (s : dfs_shmem_t) (pre post : list storage) (st : storage) (HF : focused s pre st post) (B1 : busy (last pre)) (B2 : busy (head post)).
Context (sz : Z) (Hsz : 0 <= sz <= size st).

(** The whole storage is handed out. *)
Lemma carve_whole : let s' := set_stat (set_order s (pre ++ set_act (set_alloc st true) sz :: post)) (stat_use (size st) sz 0 (shmem_stat s)) in wf s'.
Proof using HF Hsz.
  destruct HF as [HB Ho Ha Hh HI HH C1 C2]. pose proof (b_tiled s HB) as HT. rewrite Ho in HT. apply Forall_app in HH as [H1 H2]. cbv zeta. constructor.
  - apply (base_stat s _ (size st) sz 0 HB); rewrite ?Ho.
    + apply (tiled_replace _ _ _ _ _ [set_act (set_alloc st true) sz] HT). cbn. lia.
    + apply heads_acts in H1, H2. apply Forall_app. split; [done|]. by constructor.
    + unfold used. rewrite !total_app. cbn [total set_alloc set_act alloc size]. rewrite Ha. lia.
    + unfold requested. rewrite !total_app. cbn [total set_alloc set_act alloc act_size]. rewrite Ha. lia.
    + rewrite !length_app. cbn [length]. lia.
  - refine (idx_ext _ _ _ _ _ _ _ _ HI). intros b z. cbn [order set_stat set_order]. rewrite !frees_app, frees_cons. cbn [set_act set_alloc alloc]. naive_solver.
  - cbn [order set_stat set_order]. apply Forall_app. split; [done|]. by constructor.
  - cbn [order set_stat set_order]. by eapply busy_mid.
Qed.

(** It is split, and the rest enters its list. *)
Lemma carve_split : DFS_SHMEM_STORAGE_SIZE <= size st - sz ->
  let b := addr st + DFS_SHMEM_STORAGE_SIZE + sz in
  let st_new := Storage b (alloc st) (size st - (sz + DFS_SHMEM_STORAGE_SIZE)) (act_size st) (free_list_head st) in
  let st1 := set_size (set_alloc st true) sz in
  exists f av m, dfs_shmem_insert_free (set_order s (pre ++ st1 :: st_new :: post)) b =
      Some (set_order (set_lists s f av m) (pre ++ st1 :: set_head st_new (Some (cls s (size st_new))) :: post)) /\
    wf (set_stat (set_order (set_lists s f av m) (pre ++ set_act st1 sz :: set_head st_new (Some (cls s (size st_new))) :: post)) (stat_use sz sz 1 (shmem_stat s))).
Proof using HF Hsz B2.
  intros Hsp b st_new st1. destruct HF as [HB Ho Ha Hh HI HH C1 C2]. pose proof (b_tiled s HB) as HT. rewrite Ho in HT. apply Forall_app in HH as [H1 H2].
  destruct (size_range s st HB) as (Hr & _); [rewrite Ho; apply elem_of_app; right; by left|].
  assert (HT1 : tiled (low s) (high s) (pre ++ [st1; st_new] ++ post)).
  { apply (tiled_replace _ _ _ _ _ [st1; st_new] HT). cbn. unfold b. lia. }
  cbn [app] in HT1. rewrite app_cons_assoc in HT1. destruct (mid_fresh _ _ _ _ _ HT1) as [M1 M2]. rewrite <-app_cons_assoc in HT1.
  destruct (insert_free_raw (set_order s (pre ++ st1 :: st_new :: post)) (pre ++ [st1]) st_new post (frees (pre ++ post))) as (f & av & m & E & HI').
  { destruct (b_cfg s HB). by constructor. }
  { cbn. unfold DFS_SHMEM_STORAGE_SIZE in *. lia. }
  { apply app_cons_assoc. }
  { by eapply tiled_NoDup. }
  { exact Ha. }
  { exact HI. }
  { intros z Hz. apply frees_app in Hz as [Hz|Hz]; apply frees_addr in Hz; [apply M1; rewrite fmap_app; apply elem_of_app; by left|done]. }
  exists f, av, m. rewrite <-app_cons_assoc in E. split; [exact E|]. constructor.
  - apply (base_stat s _ sz sz 1 HB); rewrite ?Ho.
    + apply (tiled_replace _ _ _ _ _ [set_act st1 sz; set_head st_new (Some (cls s (size st_new)))] HT). cbn. unfold b. lia.
    + apply heads_acts in H1, H2. apply Forall_app. split; [done|]. constructor; [cbn; lia|]. constructor; [cbn; rewrite Ha; done|done].
    + unfold used. rewrite !total_app. cbn [total set_alloc set_act set_size set_head alloc size st1 st_new]. rewrite Ha. lia.
    + unfold requested. rewrite !total_app. cbn [total set_alloc set_act set_size set_head alloc act_size st1 st_new]. rewrite Ha. lia.
    + rewrite !length_app. cbn [length]. lia.
  - refine (idx_ext _ _ _ _ _ _ _ _ HI'). intros c z. cbn [order set_stat set_order]. rewrite !frees_app, !frees_cons.
    cbn [set_act set_size set_alloc set_head alloc addr size st1 st_new]. rewrite Ha. naive_solver.
  - cbn [order set_stat set_order]. apply Forall_app. split; [done|]. constructor; [split; [exact Hh|cbn; lia]|]. constructor; [|done].
    split; cbn [set_head free_list_head alloc st_new]; rewrite Ha; done.
  - cbn [order set_stat set_order]. eapply busy_mid; [done|done|]. cbn [coalesced set_head alloc st_new]. split; [|done]. destruct post as [|y q]; [done|]. cbn [head busy] in B2.
    by rewrite B2, orb_true_r.
Qed.

Lemma carve_ok : exists s' sz', carve s (addr st) sz = Some (ERR_NONE, addr st + DFS_SHMEM_STORAGE_SIZE, s') /\ wf s' /\ sz <= sz' /\
  live s' ≡ₚ (addr st + DFS_SHMEM_STORAGE_SIZE, sz') :: blocks (pre ++ post).
Proof using HF Hsz B1 B2.
  unfold carve. rewrite (focus_get _ _ _ _ HF), (option_bind_eq _ _ _ eq_refl). pose proof (f_order _ _ _ _ HF) as Ho.
  pose proof (b_tiled s (f_base _ _ _ _ HF)) as HT. rewrite Ho in HT. pose proof (tiled_NoDup _ _ _ HT) as HN. destruct (mid_fresh _ _ _ _ _ HT) as [N1 N2].
  destruct (Z.ltb_spec (size st - sz) (u64 (DFS_SHMEM_STORAGE_SIZE + split_threshold s))) as [L|L].
  - rewrite Ho, put_mid by done. eexists _, (size st). split; [reflexivity|]. split; [apply carve_whole|]. split; [lia|].
    unfold live. cbn [order set_stat set_order]. rewrite !out_blocks_app, out_blocks_cons. cbn [set_act set_alloc alloc addr size app]. symmetry. apply Permutation_middle.
  - cbv zeta. rewrite Ho, put_mid by done.
    assert (EI : forall x, insert_after (pre ++ set_size (set_alloc st true) sz :: post) (addr st) x = pre ++ set_size (set_alloc st true) sz :: x :: post)
      by (intros x; by apply (insert_after_mid pre (set_size (set_alloc st true) sz))). rewrite EI.
    assert (EG : forall l, get (pre ++ set_size (set_alloc st true) sz :: l) (addr st) = Some (set_size (set_alloc st true) sz))
      by (intros l; by apply (get_mid pre (set_size (set_alloc st true) sz))).
    replace (u64 _) with (DFS_SHMEM_STORAGE_SIZE + split_threshold s) in L.
    2: { symmetry. apply uwrap_small. destruct (c_thr s (b_cfg s (f_base _ _ _ _ HF))). unfold in_u, DFS_SHMEM_STORAGE_SIZE in *. lia. }
    destruct carve_split as (f & av & m & E & HW). { destruct (c_thr s (b_cfg s (f_base _ _ _ _ HF))). lia. }
    cbv zeta in E, HW. rewrite (option_bind_eq _ _ _ E). cbn [order set_order].
    rewrite EG, (option_bind_eq _ _ _ eq_refl).
    assert (HN2 : NoDup (addrs (order (set_stat (set_order (set_lists s f av m) (pre ++ set_act (set_size (set_alloc st true) sz) sz
      :: set_head (Storage (addr st + DFS_SHMEM_STORAGE_SIZE + sz) (alloc st) (size st - (sz + DFS_SHMEM_STORAGE_SIZE)) (act_size st) (free_list_head st))
         (Some (cls s (size st - (sz + DFS_SHMEM_STORAGE_SIZE)))) :: post)) (stat_use sz sz 1 (shmem_stat s))))))
      by (eapply tiled_NoDup, b_tiled, w_base, HW).
    cbn [order set_stat set_order] in HN2. rewrite put_mid; [|by rewrite fmap_app in *|done]. eexists _, sz. split; [reflexivity|]. split; [exact HW|]. split; [lia|].
    unfold live. cbn [order set_stat set_order]. rewrite !out_blocks_app, !out_blocks_cons. cbn [set_act set_size set_alloc set_head alloc addr size app].
    rewrite (f_free _ _ _ _ HF). symmetry. apply Permutation_middle.
Qed.

End carving.

(** The storages of a free list. *)
Lemma listed s j l a : wf s -> free s !! j = Some l -> a ∈ l -> exists st, st ∈ order s /\ addr st = a /\ alloc st = false /\ cls s (size st) = j.
Proof.
  intros HW Hl Ha. apply (i_in _ _ _ _ _ _ (w_idx s HW) _ _ _ Hl) in Ha as (z & (st & Hin & E1 & E2 & E3) & Hc). subst. eauto.
Qed.

Lemma wf_get s st : wf s -> st ∈ order s -> get (order s) (addr st) = Some st.
Proof. intros HW Hin. apply get_in; [eapply tiled_NoDup, b_tiled, w_base, HW|done|done]. Qed.

Lemma find_fit_ok s j l sz : wf s -> free s !! j = Some l ->
  (exists st, find_fit (order s) sz l = Some (Some (addr st)) /\ st ∈ order s /\ alloc st = false /\ sz <= size st /\ cls s (size st) = j) \/
  (find_fit (order s) sz l = Some None /\ forall st, st ∈ order s -> alloc st = false -> cls s (size st) = j -> size st < sz).
Proof.
  intros HW Hl. pose proof (fun a => listed s j l a HW Hl) as HL.
  assert (Hc : forall st, st ∈ order s -> alloc st = false -> cls s (size st) = j -> addr st ∈ l).
  { intros st Hin Ea Hc. apply (i_in _ _ _ _ _ _ (w_idx s HW) _ _ _ Hl). exists (size st). split; [by exists st|done]. }
  assert (H : (exists st, find_fit (order s) sz l = Some (Some (addr st)) /\ st ∈ order s /\ alloc st = false /\ sz <= size st /\ cls s (size st) = j) \/
    (find_fit (order s) sz l = Some None /\ forall st, st ∈ order s -> addr st ∈ l -> size st < sz)).
  { clear Hl Hc. induction l as [|a l IH]; [right; split; [done|]; intros st _ Hn; by apply not_elem_of_nil in Hn|].
    destruct (HL a ltac:(by left)) as (st & Hin & <- & Ea & Hc). cbn [find_fit]. rewrite (wf_get s st HW Hin), (option_bind_eq _ _ _ eq_refl).
    destruct (Z.leb_spec sz (size st)) as [L|L]; [left; by eauto 10|]. destruct IH as [H|[H1 H2]]; [intros b Hb; apply HL; by right|by left|right].
    split; [done|]. intros y Hy Hm. apply elem_of_cons in Hm as [Hm|Hm]; [|by apply H2]. pose proof (wf_get s y HW Hy) as G. rewrite Hm, (wf_get s st HW Hin) in G. by injection G as ->. }
  destruct H as [H|[H1 H2]]; [by left|right]. split; [done|]. eauto.
Qed.

(** Which list is searched. *)
Lemma choose_ok s i : wf s -> max_available_index s <> free_len s ->
  exists j l, choose_list s i = Some (inr j) /\ free s !! j = Some l /\ l <> [] /\
    ((i < max_available_index s)%nat /\ (i <= j)%nat /\ ((i < j)%nat -> free s !! i = Some []) \/ (max_available_index s <= i)%nat /\ j = max_available_index s).
Proof.
  intros HW Hm. pose proof (w_idx s HW) as HI. pose proof (i_max _ _ _ _ _ _ HI) as Em.
  destruct (last (available s)) as [k|] eqn:El; [cbn in Em; subst k|done].
  assert (Hin : max_available_index s ∈ available s) by (apply last_Some in El as [q ->]; apply elem_of_app; right; by left).
  destruct (idx_max_in _ _ _ _ _ _ _ HI Hin) as (_ & [_ Hlt] & _). destruct (proj1 (i_av _ _ _ _ _ _ HI _) Hin) as (a & l & Hl).
  unfold choose_list. destruct (Nat.ltb_spec i (max_available_index s)) as [L|L].
  - destruct (idx_lookup _ _ _ _ _ _ i HI ltac:(lia)) as [q Hq]. rewrite Hq, (option_bind_eq _ _ _ eq_refl). destruct q as [|b q].
    + destruct (List.find _ (available s)) as [j|] eqn:Ef.
      * apply List.find_some in Ef as [_ Ef]. destruct (free s !! j) as [[|b q]|] eqn:Ej; try done. apply Nat.ltb_lt in Ef.
        exists j, (b :: q). split; [done|]. split; [done|]. split; [done|]. left. split; [done|]. split; [lia|done].
      * apply list_elem_of_In in Hin. pose proof (List.find_none _ _ Ef _ Hin) as Hn. cbv beta in Hn. rewrite Hl in Hn. apply Nat.ltb_ge in Hn. lia.
    + exists i, (b :: q). split; [done|]. split; [done|]. split; [done|]. left. split; [done|]. split; lia.
  - rewrite Hl, (option_bind_eq _ _ _ eq_refl). exists (max_available_index s), (a :: l). split; [done|]. split; [done|]. split; [done|]. by right.
Qed.

(** A failed allocation changes only a counter. *)
Lemma failed_wf s : wf s -> wf (set_stat s (stat_failed (shmem_stat s))).
Proof. intros [[B1 B2 B3 B4 B5 B6] H2 H3 H4]. constructor; [|done|done|done]. constructor; try done. by destruct B1. Qed.

Lemma hand_out s st sz : wf s -> st ∈ order s -> alloc st = false -> 0 < sz <= size st ->
  exists s1 s' sz', dfs_shmem_remove_free s (addr st) = Some (true, s1) /\ carve s1 (addr st) sz = Some (ERR_NONE, addr st + DFS_SHMEM_STORAGE_SIZE, s') /\
    wf s' /\ sz <= sz' /\ live s' ≡ₚ (addr st + DFS_SHMEM_STORAGE_SIZE, sz') :: live s.
Proof.
  intros HW Hin Ea Hsz. apply list_elem_of_split in Hin as (pre & post & Ho). destruct (remove_free_focus s pre st post HW Ho Ea) as (s1 & E1 & HF & B1 & B2 & _).
  destruct (carve_ok s1 pre post (set_head st None) HF B1 B2 sz ltac:(cbn; lia)) as (s' & sz' & E2 & HW' & Hs & HL). exists s1, s', sz'. split; [done|]. split; [done|]. split; [done|]. split; [done|].
  unfold live at 2. rewrite Ho, out_blocks_app, out_blocks_cons, Ea. cbn [app]. by rewrite <-out_blocks_app.
Qed.

(** What is searched when a request is not empty and something is free. *)
Lemma alloc_cases s sz : wf s -> 0 < sz < 2 ^ 64 -> max_available_index s <> free_len s ->
  exists i j l, dfs_shmem_get_alloc_index s sz = Some i /\ free s !! j = Some l /\ l <> [] /\
    ((i < max_available_index s)%nat /\ (i <= j)%nat /\ ((i < j)%nat -> free s !! i = Some []) \/ (max_available_index s <= i)%nat /\ j = max_available_index s) /\
    ((exists st s' sz', (st ∈ order s /\ alloc st = false /\ sz <= size st) /\
        dfs_shmem_alloc s sz = Some (ERR_NONE, addr st + DFS_SHMEM_STORAGE_SIZE, s') /\ wf s' /\ sz <= sz' /\
        live s' ≡ₚ (addr st + DFS_SHMEM_STORAGE_SIZE, sz') :: live s) \/
     (dfs_shmem_alloc s sz = Some (alloc_failed s ALLOC_FOUND_NO_FIXED) /\
        forall st, st ∈ order s -> alloc st = false -> cls s (size st) = j -> size st < sz)).
Proof.
  intros HW Hsz Hm. destruct (alloc_index_spec s (b_cfg s (w_base s HW)) sz ltac:(lia)) as (i & Ei & _).
  destruct (choose_ok s i HW Hm) as (j & l & Ec & Hl & Hne & Hj). exists i, j, l. split; [done|]. split; [done|]. split; [done|]. split; [done|].
  unfold dfs_shmem_alloc. rewrite (proj2 (Z.eqb_neq _ _)), (proj2 (Nat.eqb_neq _ _)), (option_bind_eq _ _ _ Ei), (option_bind_eq _ _ _ Ec), (option_bind_eq _ _ _ Hl) by lia.
  destruct (find_fit_ok s j l sz HW Hl) as [(st & Ef & Hin & Ea & Hs & _)|[Ef Hno]]; rewrite (option_bind_eq _ _ _ Ef); [left|by right].
  destruct (hand_out s st sz HW Hin Ea ltac:(lia)) as (s1 & s' & sz' & E1 & E2 & H). rewrite (option_bind_eq _ _ _ E1). exists st, s', sz'. rewrite E2. done.
Qed.

Lemma alloc_ok s sz : wf s -> 0 <= sz < 2 ^ 64 -> exists e p s', dfs_shmem_alloc s sz = Some (e, p, s') /\ wf s' /\
  (e = ERR_NONE /\ 0 < sz /\ (exists sz', sz <= sz' /\ live s' ≡ₚ (p, sz') :: live s) \/ e <> ERR_NONE /\ p = 0 /\ order s' = order s).
Proof.
  intros HW Hsz. destruct (Z.eq_dec sz 0) as [->|H0]; [exists ALLOC_PARAM, 0, s; split; [done|]; split; [done|]; by right|].
  destruct (decide (max_available_index s = free_len s)) as [E|Hm].
  - unfold dfs_shmem_alloc. rewrite (proj2 (Z.eqb_neq _ _) H0), (proj2 (Nat.eqb_eq _ _) E). do 3 eexists. split; [reflexivity|]. split; [by apply failed_wf|]. by right.
  - destruct (alloc_cases s sz HW ltac:(lia) Hm) as (i & j & l & _ & _ & _ & _ & [(st & s' & sz' & _ & E & HW' & Hs & HL)|[E _]]); rewrite E; do 3 eexists; (split; [reflexivity|]).
    + split; [done|]. left. split; [done|]. split; [lia|]. eauto.
    + split; [by apply failed_wf|]. by right.
Qed.

(** ** The largest storage *)

Lemma max_loop_ok s m l : wf s -> m ∈ order s -> alloc m = false -> (forall a, a ∈ l -> exists st, st ∈ order s /\ addr st = a /\ alloc st = false) ->
  exists st, max_loop (order s) m l = Some st /\ st ∈ order s /\ alloc st = false /\ size m <= size st /\
    forall x, x ∈ order s -> addr x ∈ l -> size x <= size st.
Proof.
  intros HW. revert m. induction l as [|a l IH]; intros m Hm Ea HL; cbn [max_loop].
  - exists m. split; [done|]. split; [done|]. split; [done|]. split; [lia|]. intros x _ Hx. by apply not_elem_of_nil in Hx.
  - destruct (HL a ltac:(by left)) as (st & Hin & <- & Eb). rewrite (wf_get s st HW Hin), (option_bind_eq _ _ _ eq_refl).
    destruct (IH (if size m <? size st then st else m)) as (r & E & Hr & Er & Hle & Hall); [by destruct (_ <? _)..|intros b Hb; apply HL; by right|].
    exists r. split; [done|]. split; [done|]. split; [done|]. destruct (Z.ltb_spec (size m) (size st)); (split; [lia|]); intros x Hx Hin';
    (apply elem_of_cons in Hin' as [Hxx|?]; [|by apply Hall]); pose proof (wf_get s x HW Hx) as G; rewrite Hxx, (wf_get s st HW Hin) in G; injection G as ->; lia.
Qed.

(** A free storage is in the list of its class, which is not above the last one. *)
Lemma free_class s st : wf s -> st ∈ order s -> alloc st = false ->
  exists l, free s !! cls s (size st) = Some l /\ addr st ∈ l /\ (cls s (size st) <= max_available_index s < free_len s)%nat.
Proof.
  intros HW Hin Ea. pose proof (w_idx s HW) as HI. destruct (idx_lookup _ _ _ _ _ _ _ HI (cls_lt s (b_cfg s (w_base s HW)) (size st))) as [l Hl].
  assert (HF : frees (order s) (addr st) (size st)) by (by exists st). destruct (idx_listed _ _ _ _ _ _ _ _ _ HI HF Hl) as [H1 H2].
  destruct (idx_max_in _ _ _ _ _ _ _ HI H2) as (_ & H3 & _). eauto.
Qed.

Lemma get_max_ok s : wf s ->
  (dfs_shmem_get_max_st s = Some (inl GET_MAX_EXHAUSTED) /\ forall x, x ∈ order s -> alloc x = true) \/
  (exists st, dfs_shmem_get_max_st s = Some (inr st) /\ st ∈ order s /\ alloc st = false /\ forall x, x ∈ order s -> alloc x = false -> size x <= size st).
Proof.
  intros HW. pose proof (w_idx s HW) as HI. unfold dfs_shmem_get_max_st. pose proof (i_max _ _ _ _ _ _ HI) as Em. destruct (last (available s)) as [i|] eqn:El.
  - cbn in Em. rewrite <-Em. assert (Hin : max_available_index s ∈ available s) by (rewrite Em; apply last_Some in El as [q ->]; apply elem_of_app; right; by left).
    destruct (idx_max_in _ _ _ _ _ _ _ HI Hin) as (_ & [_ Hlt] & _). destruct (proj1 (i_av _ _ _ _ _ _ HI _) Hin) as (a & l & Hl). right.
    rewrite (proj2 (Nat.eqb_neq _ _)), Hl, (option_bind_eq _ _ _ eq_refl) by lia.
    destruct (listed s _ _ a HW Hl ltac:(by left)) as (m & Hm & <- & Ea & _). rewrite (wf_get s m HW Hm), (option_bind_eq _ _ _ eq_refl).
    destruct (max_loop_ok s m l HW Hm Ea) as (st & E & Hst & Es & Hle & Hall).
    { intros b Hb. destruct (listed s _ _ b HW Hl ltac:(by right)) as (x & ? & ? & ? & _). eauto. }
    rewrite E. exists st. split; [done|]. split; [done|]. split; [done|]. intros x Hx Ex.
    destruct (free_class s x HW Hx Ex) as (l1 & Hl1 & Hin1 & [Hc _]). apply Nat.le_lteq in Hc as [Hc|Hc].
    + destruct (listed s _ _ (addr m) HW Hl ltac:(by left)) as (m' & Hm' & Eam & _ & Hcm).
      pose proof (wf_get s m' HW Hm') as G. rewrite Eam, (wf_get s m HW Hm) in G. injection G as <-.
      pose proof (cls_larger s (b_cfg s (w_base s HW)) (size x) (size m)) as HL. rewrite Hcm in HL.
      destruct (size_range s x (w_base s HW) Hx), (size_range s m (w_base s HW) Hm). specialize (HL ltac:(lia) ltac:(lia) Hc). lia.
    + rewrite Hc, Hl in Hl1. injection Hl1 as <-. apply elem_of_cons in Hin1 as [E1|H1]; [|by apply Hall].
      pose proof (wf_get s x HW Hx) as G. rewrite E1, (wf_get s m HW Hm) in G. by injection G as ->.
  - left. split; [done|]. intros x Hx. destruct (alloc x) eqn:Ex; [done|]. destruct (free_class s x HW Hx Ex) as (l1 & _ & _ & [_ Hc]). cbn in Em. lia.
Qed.

Lemma counted_wf s t : wf s -> used_size t = used_size (shmem_stat s) -> reqs_size t = reqs_size (shmem_stat s) -> st_count t = st_count (shmem_stat s) ->
  total_size t = total_size (shmem_stat s) -> system_size t = system_size (shmem_stat s) -> wf (set_stat s t).
Proof.
  intros [[B1 B2 B3 B4 B5 B6] H2 H3 H4] E1 E2 E3 E4 E5. unfold low, high in *. constructor; [|done|done|done]. constructor; unfold low, high; cbn; rewrite ?E1, ?E2, ?E3, ?E4, ?E5; try done. by destruct B1.
Qed.

Lemma split_alloc_ok s r : wf s -> exists e p a s', dfs_shmem_split_alloc s r = Some (e, p, a, s') /\ wf s' /\
  (e = ERR_NONE /\ r <= a /\ live s' ≡ₚ (p, a) :: live s /\ (forall x, x ∈ order s -> alloc x = false -> size x <= a) \/
   e <> ERR_NONE /\ p = 0 /\ order s' = order s /\ forall x, x ∈ order s -> alloc x = false -> size x < r).
Proof.
  intros HW0. unfold dfs_shmem_split_alloc. set (s1 := set_stat s _).
  assert (HW : wf s1) by (by apply counted_wf). change (order s) with (order s1). change (live s) with (live s1). clearbody s1. clear HW0 s.
  cbv zeta. destruct (get_max_ok s1 HW) as [[E Hno]|(st & E & Hin & Ea & Hmax)]; rewrite (option_bind_eq _ _ _ E).
  - do 4 eexists. split; [reflexivity|]. split; [by apply counted_wf|]. right. split; [done|]. split; [done|]. split; [done|]. intros x Hx Ex. rewrite (Hno x Hx) in Ex. done.
  - destruct (Z.ltb_spec (size st) r) as [L|L].
    + do 4 eexists. split; [reflexivity|]. split; [by apply counted_wf|]. right. split; [done|]. split; [done|]. split; [done|]. intros x Hx Ex. specialize (Hmax x Hx Ex). lia.
    + apply list_elem_of_split in Hin as (pre & post & Ho). destruct (remove_free_focus s1 pre st post HW Ho Ea) as (s2 & E1 & HF & B1 & B2 & _).
      rewrite (option_bind_eq _ _ _ E1). cbn [negb]. pose proof (focus_get _ _ _ _ HF) as G. cbn [set_head addr] in G. rewrite G, (option_bind_eq _ _ _ eq_refl).
      pose proof (b_tiled _ (f_base _ _ _ _ HF)) as HT. pose proof (tiled_NoDup _ _ _ HT) as HN. rewrite (f_order _ _ _ _ HF) in HT, HN |- *. rewrite put_mid by done.
      eapply tiled_in in HT as (_ & Hs0 & _); [|apply elem_of_app; right; by left].
      pose proof (carve_whole s2 pre post (set_head st None) HF (size st) ltac:(cbn in *; lia)) as HC. cbv zeta in HC.
      do 4 eexists. split; [reflexivity|]. split; [exact HC|]. left. split; [done|]. split; [done|]. split; [|done].
      unfold live. rewrite Ho. cbn [order set_stat set_order]. rewrite !out_blocks_app, !out_blocks_cons, Ea. cbn [set_act set_alloc set_head alloc addr size app]. symmetry. apply Permutation_middle.
Qed.

End ShmemProps.
