(* ===== verification/MemAllocator.v ===== *)
(** * The interface of memory allocators

    core/dfs_mem_allocator.h: a record of functions over private data.  The
    class [MemAllocator] has the operations that the clients call, with the
    null pointer 0 as the answer of an allocation that fails, and
    [AllocatorLaws] what they promise: the blocks handed out do not overlap, an
    allocation adds a block that is large enough, and a release takes one
    away.  ShmemLaws gives the allocator on shared memory as an instance;
    Slabs is proved against the interface. *)

From Stdlib Require Import ZArith Lia.
From stdpp Require Import base numbers option list.
From S2P Require Import Prelude.

Module MemAllocator.

Class MemAllocator (A : Type) := {
  a_alloc : A -> Z -> option (Z * A);
  a_split_alloc : A -> Z -> option (Z * Z * A);
  a_free : A -> Z -> option (bool * A) }.

(** Blocks, given by address and size, that do not overlap. *)
Definition disjoint (x y : Z * Z) : Prop := x.1 + x.2 <= y.1 \/ y.1 + y.2 <= x.1.
Definition apart (l : list (Z * Z)) : Prop := forall i j x y, l !! i = Some x -> l !! j = Some y -> i <> j -> x.1 <> y.1 /\ disjoint x y.

#[global] Instance disjoint_sym : Symmetric disjoint.
Proof. intros x y [?|?]; [by right|by left]. Qed.

Class AllocatorLaws (A : Type) `{!MemAllocator A} := {
  a_ok : A -> Prop;
  a_live : A -> list (Z * Z);
  a_apart : forall s, a_ok s -> apart (a_live s);
  a_range : forall s p sz, a_ok s -> (p, sz) ∈ a_live s -> 0 < p /\ 0 <= sz /\ p + sz < 2 ^ 64;
  a_alloc_ok : forall s sz, a_ok s -> 0 < sz < 2 ^ 64 -> exists p s', a_alloc s sz = Some (p, s') /\ a_ok s' /\
    (p = 0 /\ a_live s' = a_live s \/ exists sz', sz <= sz' /\ a_live s' ≡ₚ (p, sz') :: a_live s);
  a_split_ok : forall s r, a_ok s -> exists p n s', a_split_alloc s r = Some (p, n, s') /\ a_ok s' /\
    (p = 0 /\ a_live s' = a_live s \/ r <= n /\ a_live s' ≡ₚ (p, n) :: a_live s);
  a_free_ok : forall s p sz, a_ok s -> (p, sz) ∈ a_live s -> exists s', a_free s p = Some (true, s') /\ a_ok s' /\ a_live s ≡ₚ (p, sz) :: a_live s' }.

(** ** Lemmas *)

Lemma apart_perm l l' : l ≡ₚ l' -> apart l -> apart l'.
Proof.
  intros HP HA i j x y Hi Hj Hn. symmetry in HP. apply Permutation_inj in HP as [_ (f & Hf & HL)].
  apply (HA (f i) (f j)); [by rewrite <-HL..|]. intros E. apply Hn. by apply (inj f).
Qed.

Lemma apart_cons x l : apart (x :: l) <-> apart l /\ forall y, y ∈ l -> x.1 <> y.1 /\ disjoint x y.
Proof.
  split.
  - intros H. split; [intros i j y z Hi Hj Hn; apply (H (S i) (S j)); [done|done|lia]|].
    intros y Hy. apply list_elem_of_lookup in Hy as [j Hj]. by apply (H 0%nat (S j)).
  - intros [H1 H2] [|i] [|j] y z Hi Hj Hn; cbn in Hi, Hj; [done| | |].
    + injection Hi as <-. apply H2. by eapply list_elem_of_lookup_2.
    + injection Hj as <-. destruct (H2 y) as [Ha Hb]; [by eapply list_elem_of_lookup_2|]. split; [congruence|by symmetry].
    + apply (H1 i j); [done|done|lia].
Qed.

End MemAllocator.
