(* ===== verification/ShmemLaws.v ===== *)
(** * The allocator on shared memory: theorems

    Creation, sequences of operations, when an allocation fails, the layout as
    a function of the blocks handed out, and the functions of
    core/dfs_shmem_allocator.c as an instance of the allocator interface. *)

From Stdlib Require Import ZArith Lia Bool Sorted.
From stdpp Require Import base numbers sorting gmap option list.
From S2P Require Import Prelude DfsMath MemAllocator Shmem ShmemOk ShmemProps.
Import Shmem ShmemOk ShmemProps.

Module ShmemLaws.

(** ** When an allocation fails *)

Lemma class_member s j l : wf s -> free s !! j = Some l -> l <> [] -> exists st, st ∈ order s /\ alloc st = false /\ cls s (size st) = j.
Proof.
  intros HW Hl Hne. destruct l as [|a l]; [done|]. destruct (listed s j _ a HW Hl ltac:(by left)) as (st & H1 & _ & H2 & H3). eauto.
Qed.

Lemma alloc_complete s sz st : wf s -> min_size s < sz < 2 ^ 64 -> st ∈ order s -> alloc st = false -> sz <= size st ->
  exists p s', dfs_shmem_alloc s sz = Some (ERR_NONE, p, s').
Proof.
  intros HW Hsz Hin Ea Hs. pose proof (w_base s HW) as HB. pose proof (b_cfg s HB) as HC. pose proof (c_min s HC).
  destruct (free_class s st HW Hin Ea) as (l0 & _ & _ & Hc). destruct (size_range s st HB Hin) as [Hr _].
  destruct (alloc_cases s sz HW ltac:(lia) ltac:(lia)) as (i & j & l & Ei & Hl & Hne & Hj & [(st' & s' & sz' & _ & E & _)|[E Hno]]); [eauto|exfalso].
  destruct (alloc_index_spec s HC sz ltac:(lia)) as (i' & Ei' & Hb & _). assert (i' = i) as -> by congruence.
  assert (Hi : (0 < i)%nat) by (destruct i; [rewrite (bound_0 s) in Hb; lia|lia]).
  destruct (class_member s j l HW Hl Hne) as (x & Hx & Ex & Hcx). specialize (Hno x Hx Ex Hcx) as Hlt. destruct (size_range s x HB Hx) as [Hrx _].
  assert (Hji : ~ (i <= j)%nat). { intros L. pose proof (cls_fits s HC sz (size x) i ltac:(lia) Hrx Ei ltac:(lia) ltac:(lia)). lia. }
  destruct Hj as [(_ & L & _)|[L ->]]; [lia|].
  destruct (cls_near s HC sz (size st) i ltac:(lia) Hr Ei Hs) as [Hn|Hn]; specialize (Hno st Hin Ea ltac:(lia)); lia.
Qed.

Lemma small_request_fails s sz st : wf s -> 0 < sz <= min_size s -> (0 < max_available_index s)%nat ->
  st ∈ order s -> alloc st = false -> cls s (size st) = 0%nat -> (forall x, x ∈ order s -> alloc x = false -> cls s (size x) = 0%nat -> size x < sz) ->
  dfs_shmem_alloc s sz = Some (alloc_failed s ALLOC_FOUND_NO_FIXED).
Proof.
  intros HW Hsz Hm Hin Ea Hc Hall. pose proof (w_base s HW) as HB. pose proof (b_cfg s HB) as HC. pose proof (c_min s HC).
  destruct (free_class s st HW Hin Ea) as (l0 & Hl0 & Hin0 & Hmx). rewrite Hc in Hl0.
  destruct (alloc_index_spec s HC sz ltac:(lia)) as (i & Ei & _ & Hj). destruct i as [|i]; [|specialize (Hj 0%nat ltac:(lia)); rewrite (bound_0 s) in Hj; lia].
  unfold dfs_shmem_alloc. rewrite (proj2 (Z.eqb_neq _ _)), (proj2 (Nat.eqb_neq _ _)), (option_bind_eq _ _ _ Ei) by lia.
  unfold choose_list. rewrite (proj2 (Nat.ltb_lt _ _) Hm), Hl0, (option_bind_eq _ _ _ eq_refl). destruct l0 as [|a l0]; [by apply not_elem_of_nil in Hin0|].
  rewrite (option_bind_eq _ _ _ eq_refl), Hl0, (option_bind_eq _ _ _ eq_refl).
  destruct (find_fit_ok s 0 (a :: l0) sz HW Hl0) as [(x & Ef & Hx & Ex & Hs & Hc')|[Ef _]]; rewrite (option_bind_eq _ _ _ Ef); [|done].
  specialize (Hall x Hx Ex Hc'). lia.
Qed.

(** ** Blocks do not overlap *)

Lemma blocks_in lo hi l b : tiled lo hi l -> b ∈ blocks l -> lo + DFS_SHMEM_STORAGE_SIZE <= b.1 /\ 0 <= b.2 /\ b.1 + b.2 <= hi.
Proof.
  intros HT Hb. unfold blocks in Hb. apply list_elem_of_omap in Hb as (st & Hin & E). destruct (alloc st); [|done]. injection E as <-. cbn.
  eapply tiled_in in Hin; [|done]. lia.
Qed.

Lemma blocks_apart lo hi l : tiled lo hi l -> MemAllocator.apart (blocks l).
Proof.
  revert lo. induction l as [|st l IH]; intros lo; [intros _ ? ? ? ? H; done|]. intros (E & Hs & HT). rewrite out_blocks_cons. destruct (alloc st); [|by eapply IH].
  apply MemAllocator.apart_cons. split; [by eapply IH|]. intros y Hy. eapply blocks_in in Hy; [|done]. unfold MemAllocator.disjoint. cbn. unfold DFS_SHMEM_STORAGE_SIZE in *. lia.
Qed.

Definition sizes (l : list (Z * Z)) : Z := foldr (fun b n => b.2 + n) 0 l.

Lemma used_blocks l : used l = sizes (blocks l).
Proof. induction l as [|st l IH]; [done|]. unfold used in *. rewrite out_blocks_cons. cbn [total]. destruct (alloc st); cbn [app sizes foldr]; [by rewrite IH|done]. Qed.

(** ** The layout is determined by the blocks *)

Definition shape (st : storage) : Z * bool * Z := (addr st, alloc st, size st).

Lemma blocks_head lo hi st l : tiled lo hi (st :: l) -> alloc st = true ->
  forall b, b ∈ blocks (st :: l) -> b = (addr st + DFS_SHMEM_STORAGE_SIZE, size st) \/ b.1 <> addr st + DFS_SHMEM_STORAGE_SIZE /\ b ∈ blocks l.
Proof.
  intros (E & Hs & HT) Ea b Hb. rewrite out_blocks_cons, Ea in Hb. apply elem_of_app in Hb as [Hb|Hb]; [apply list_elem_of_singleton in Hb; by left|right].
  split; [|done]. eapply blocks_in in Hb; [|done]. unfold DFS_SHMEM_STORAGE_SIZE in *. lia.
Qed.

(** The end of a free storage is not above the first block that follows. *)
Lemma gap_le lo hi x t1 y t2 : tiled lo hi (x :: t1) -> tiled lo hi (y :: t2) -> busy (head t1) -> blocks t1 ≡ₚ blocks t2 -> size y <= size x.
Proof.
  intros (E1 & Hs1 & HT1) (E2 & Hs2 & HT2) B HP. destruct t1 as [|z t1].
  - cbn in HT1. apply tiled_le in HT2. lia.
  - cbn [head busy] in B. cbn [tiled] in HT1. destruct HT1 as (Ez & _ & _).
    assert (Hb : (addr z + DFS_SHMEM_STORAGE_SIZE, size z) ∈ blocks t2) by (rewrite <-HP, out_blocks_cons, B; by left).
    eapply blocks_in in Hb; [|done]. cbn [fst] in Hb. lia.
Qed.

Lemma layout_unique lo hi l1 l2 : tiled lo hi l1 -> tiled lo hi l2 -> coalesced l1 -> coalesced l2 -> blocks l1 ≡ₚ blocks l2 -> shape <$> l1 = shape <$> l2.
Proof.
  revert lo l2. induction l1 as [|x t1 IH]; intros lo [|y t2] HT1 HT2 HC1 HC2 HP.
  - done.
  - cbn in HT1. subst. destruct HT2 as (_ & Hs & HT2). apply tiled_le in HT2. unfold DFS_SHMEM_STORAGE_SIZE in *. lia.
  - cbn in HT2. subst. destruct HT1 as (_ & Hs & HT1). apply tiled_le in HT1. unfold DFS_SHMEM_STORAGE_SIZE in *. lia.
  - assert (Hax : addr x = addr y) by (destruct HT1 as [-> _], HT2 as [-> _]; done).
    assert (Hxy : alloc x = alloc y /\ size x = size y /\ blocks t1 ≡ₚ blocks t2).
    { destruct (alloc x) eqn:Ex, (alloc y) eqn:Ey.
      - assert (Hb : (addr x + DFS_SHMEM_STORAGE_SIZE, size x) ∈ blocks (y :: t2)) by (rewrite <-HP, out_blocks_cons, Ex; by left).
        destruct (blocks_head _ _ _ _ HT2 Ey _ Hb) as [E|[E _]]; [|cbn in E; rewrite Hax in E; done]. injection E as _ E. split; [done|]. split; [done|].
        rewrite !out_blocks_cons, Ex, Ey, Hax, E in HP. cbn [app] in HP. by apply Permutation_cons_inv in HP.
      - exfalso. destruct HT1 as (E1 & _), HT2 as (_ & Hs2 & HT2).
        assert (Hb : (addr x + DFS_SHMEM_STORAGE_SIZE, size x) ∈ blocks t2) by (rewrite !out_blocks_cons, Ey in HP; cbn [app] in HP; rewrite <-HP, Ex; by left).
        eapply blocks_in in Hb; [|done]. cbn in Hb. unfold DFS_SHMEM_STORAGE_SIZE in *. lia.
      - exfalso. destruct HT2 as (E2 & _), HT1 as (_ & Hs1 & HT1).
        assert (Hb : (addr y + DFS_SHMEM_STORAGE_SIZE, size y) ∈ blocks t1) by (rewrite !out_blocks_cons, Ex in HP; cbn [app] in HP; rewrite HP, Ey; by left).
        eapply blocks_in in Hb; [|done]. cbn in Hb. unfold DFS_SHMEM_STORAGE_SIZE in *. lia.
      - rewrite !out_blocks_cons, Ex, Ey in HP. cbn [app] in HP. split; [done|]. split; [|done].
        apply (coalesced_mid [] x t1 Ex) in HC1 as (_ & _ & _ & B1). apply (coalesced_mid [] y t2 Ey) in HC2 as (_ & _ & _ & B2).
        pose proof (gap_le _ _ _ _ _ _ HT1 HT2 B1 HP). pose proof (gap_le _ _ _ _ _ _ HT2 HT1 B2 (symmetry HP)). lia. }
    destruct Hxy as (E1 & E2 & HP'). destruct HT1 as (_ & _ & HT1), HT2 as (_ & _ & HT2), HC1 as [_ HC1], HC2 as [_ HC2]. rewrite <-E2 in HT2.
    rewrite !fmap_cons, (IH _ t2 HT1 HT2 HC1 HC2 HP'). unfold shape. congruence.
Qed.

(** ** Creation *)

Lemma align8 x : 0 <= x < 2 ^ 63 -> x <= DFS_MATH_ALIGNMENT x DFS_MATH_ALIGN_SIZE < x + 8 /\ DFS_MATH_ALIGNMENT x DFS_MATH_ALIGN_SIZE mod 8 = 0.
Proof.
  intros Hx. unfold DFS_MATH_ALIGNMENT, DFS_MATH_ALIGN_SIZE. pose proof (Z.mod_pos_bound x 8 ltac:(lia)). destruct (Z.eqb_spec (x mod 8) 0); [lia|].
  unfold u64. rewrite uwrap_small by (unfold in_u; lia). split; [lia|]. replace (x + (8 - x mod 8)) with (8 * (x / 8 + 1)) by (pose proof (Z.div_mod x 8 ltac:(lia)); lia).
  rewrite Z.mul_comm. apply Z.mod_mul. lia.
Qed.

Lemma level_count_ok level min max fac : level = DFS_SHMEM_LEVEL_TYPE_LINEAR /\ 8 <= fac \/ level = DFS_SHMEM_LEVEL_TYPE_EXP ->
  0 < min < max -> max < 2 ^ 58 -> exists n, level_count level min max fac = Some n /\ 0 <= n < 2 ^ 56.
Proof.
  intros HL Hm Hx. unfold level_count. destruct HL as [[-> Hf]| ->]; cbn [Z.eqb DFS_SHMEM_LEVEL_TYPE_LINEAR DFS_SHMEM_LEVEL_TYPE_EXP].
  - rewrite (proj2 (Z.eqb_neq _ _)) by lia. eexists. split; [reflexivity|]. assert ((max - min) / fac <= (max - min) / 8) by (apply Z.div_le_compat_l; lia).
    assert (0 <= (max - min) / fac) by (apply Z.div_pos; lia). assert ((max - min) / 8 < 2 ^ 55) by (apply Z.div_lt_upper_bound; lia). destruct (_ =? _); lia.
  - set (p := if max mod min =? 0 then max / min else max / min + 1).
    assert (Hp : 0 < p < 2 ^ 59). { assert (0 < max / min) by (apply Z.div_str_pos; lia). assert (max / min <= max) by (apply Z.div_le_upper_bound; nia). unfold p. destruct (_ =? _); lia. }
    rewrite (proj2 (DfsMath.dfslog2_spec p ltac:(lia))). eexists. split; [reflexivity|]. pose proof (Z.log2_up_nonneg p).
    assert (Z.log2_up p <= 59) by (apply Z.log2_up_le_pow2; lia). lia.
Qed.

(** A manager over one free storage. *)
Lemma single_wf a n min max fac level total sys i : let st := Storage (a + sys) false (total - sys - DFS_SHMEM_STORAGE_SIZE) 0 None in
  let shm := Shm a [] (replicate n []) n [] 0 min max fac min level (Stat 0 0 1 total sys 0 0 0) in
  0 < a -> a + total < 2 ^ 64 -> 0 <= sys -> sys + DFS_SHMEM_STORAGE_SIZE <= total -> cfg shm -> i = cls shm (size st) ->
  wf (set_lists (set_order shm [set_head st (Some i)]) (<[i := [addr st]]> (free shm)) [i] i).
Proof.
  intros st shm Ha Ht Hs Hsz HC ->. pose proof (cls_lt shm HC (size st)) as Hlt. cbn [free_len shm] in Hlt. constructor.
  - constructor; cbn; unfold low, high; cbn; try done; try lia. by destruct HC.
  - assert (Hi : idx (cls shm) n (replicate n []) [] n (frees [])).
    { constructor; [by rewrite length_replicate|..].
      - intros i l H. apply lookup_replicate in H as [-> _]. constructor.
      - intros i l b H. apply lookup_replicate in H as [-> _]. split; [intros Hb; by apply not_elem_of_nil in Hb|]. intros (z & (x & Hx & _) & _). by apply not_elem_of_nil in Hx.
      - constructor.
      - intros i. split; [intros Hx; by apply not_elem_of_nil in Hx|]. intros (b & l & H). by apply lookup_replicate in H as [? _].
      - done. }
    pose proof (insert_idx _ _ _ _ _ _ (addr st) (size st) [] Hi) as HI. refine (idx_ext _ _ _ _ _ _ _ _ (HI _ _)).
    + intros b z. cbn [order set_lists set_order]. rewrite frees_cons. cbn [set_head addr size alloc st]. naive_solver.
    + intros z (x & Hx & _). by apply not_elem_of_nil in Hx.
    + by apply lookup_replicate.
  - by repeat constructor.
  - done.
Qed.

Definition good_factor (level fac : Z) : Prop := level = DFS_SHMEM_LEVEL_TYPE_LINEAR -> 0 < fac < 2 ^ 63.

Lemma factor_ok level fac : good_factor level fac ->
  let f := if level =? DFS_SHMEM_LEVEL_TYPE_LINEAR then DFS_MATH_ALIGNMENT fac DFS_MATH_ALIGN_SIZE else DFS_SHMEM_EXP_FACTOR in
  negb (level =? DFS_SHMEM_LEVEL_TYPE_LINEAR) && negb (level =? DFS_SHMEM_LEVEL_TYPE_EXP) = false ->
  level = DFS_SHMEM_LEVEL_TYPE_LINEAR /\ 8 <= f \/ level = DFS_SHMEM_LEVEL_TYPE_EXP.
Proof.
  intros HG. cbv zeta. unfold good_factor in HG. destruct (Z.eqb_spec level DFS_SHMEM_LEVEL_TYPE_LINEAR) as [E|E]; cbn [negb andb].
  - intros _. left. split; [done|]. specialize (HG E). destruct (align8 fac ltac:(lia)) as [H1 H2]. apply Z.mod_divide in H2 as [k Hk]; lia.
  - destruct (Z.eqb_spec level DFS_SHMEM_LEVEL_TYPE_EXP); [by right|done].
Qed.

Lemma create_ok (mmap : Z -> option Z) page sz min max level fac : (forall t a, mmap t = Some a -> 0 < a /\ a + t < 2 ^ 64) ->
  0 <= min < 2 ^ 57 -> 0 <= max < 2 ^ 57 -> good_factor level fac ->
  exists e r, dfs_shmem_create mmap page sz min max level fac = Some (e, r) /\
    match r with Some s => e = ERR_NONE /\ wf s /\ live s = [] | None => e <> ERR_NONE end.
Proof.
  intros Hmm Hmin Hmax HG. unfold dfs_shmem_create. destruct (sz =? 0); [by do 2 eexists|].
  destruct (align8 min ltac:(lia)) as [Hmin1 _], (align8 max ltac:(lia)) as [Hmax1 _]. cbv zeta. set (mi := DFS_MATH_ALIGNMENT min _) in *. set (mx := DFS_MATH_ALIGNMENT max _) in *.
  destruct ((mi =? 0) || (mx <=? mi)) eqn:E0; [by do 2 eexists|]. apply orb_false_iff in E0 as [E1 E2]. apply Z.eqb_neq in E1. apply Z.leb_gt in E2.
  destruct (negb _ && negb _) eqn:EL; [by do 2 eexists|]. pose proof (factor_ok level fac HG EL) as HF. cbv zeta in HF.
  set (f := if level =? DFS_SHMEM_LEVEL_TYPE_LINEAR then _ else _) in *. destruct (level_count_ok level mi mx f HF ltac:(lia) ltac:(lia)) as (n & En & Hn).
  rewrite (option_bind_eq _ _ _ En). destruct (Z.eqb_spec n 0); [by do 2 eexists|]. set (total := DFS_MATH_ROUND_UP sz page).
  destruct (total =? 0); [by do 2 eexists|]. destruct (mmap total) as [a|] eqn:Ea; [|by do 2 eexists]. destruct (Hmm _ _ Ea) as [Ha1 Ha2].
  unfold sizeof_free_node, sizeof_shmem_t, DFS_SHMEM_STORAGE_SIZE. assert (Ew : u64 (40 * (n + 1)) = 40 * (n + 1)) by (apply uwrap_small; unfold in_u; lia). rewrite Ew.
  assert (Ew2 : u64 (40 * (n + 1) + 168 + 64) = 40 * (n + 1) + 168 + 64) by (apply uwrap_small; unfold in_u; lia). rewrite Ew2.
  destruct (Z.leb_spec total (40 * (n + 1) + 168 + 64)) as [L|L]; [by do 2 eexists|]. rewrite (proj2 (Z.ltb_ge _ _)) by lia.
  assert (Ew3 : DFS_MATH_ALIGNMENT (u64 (168 + 40 * (n + 1))) DFS_MATH_ALIGN_SIZE = 168 + 40 * (n + 1)).
  { unfold u64. rewrite uwrap_small by (unfold in_u; lia). unfold DFS_MATH_ALIGNMENT, DFS_MATH_ALIGN_SIZE.
    replace (168 + 40 * (n + 1)) with ((21 + 5 * (n + 1)) * 8) by lia. by rewrite Z.mod_mul. }
  rewrite Ew3. set (sys := 168 + 40 * (n + 1)) in *. assert (Ew4 : u64 (total - sys - 64) = total - sys - 64) by (apply uwrap_small; unfold in_u; lia). rewrite Ew4.
  cbn [size addr]. destruct (Z.ltb_spec (total - sys - 64) mx); [by do 2 eexists|].
  set (shm := Shm a [] _ _ _ _ _ _ _ _ _ _).
  assert (HC : cfg shm). { constructor; cbn; [lia|destruct HF as [[? ?]|?]; [left; split; [done|lia]|by right]|lia|unfold DFS_SHMEM_STORAGE_SIZE; lia]. }
  destruct (insert_index_cls shm (total - sys - 64) HC ltac:(lia)) as (i & Ei & Ec). rewrite (option_bind_eq _ _ _ Ei).
  do 2 eexists. split; [reflexivity|]. split; [done|]. split; [|done].
  apply (single_wf a (Z.to_nat (n + 1)) mi mx f level total sys); [lia..|unfold DFS_SHMEM_STORAGE_SIZE; lia|exact HC|].
  change DFS_SHMEM_STORAGE_SIZE with 64. cbn [size]. fold shm. rewrite Ec. cbn [free_len shm]. destruct (Nat.leb_spec (Z.to_nat (n + 1)) i); lia.
Qed.

(** ** Sequences of operations *)

Inductive op := Alloc (sz : Z) | Split (minsize : Z) | Release (ptr : Z) | Threshold (sz : Z).

Definition run_op (o : op) (s : dfs_shmem_t) : option dfs_shmem_t :=
  match o with
  | Alloc sz => '(_, _, s) ← dfs_shmem_alloc s sz; Some s
  | Split r => '(_, _, _, s) ← dfs_shmem_split_alloc s r; Some s
  | Release p => '(_, s) ← dfs_shmem_free s p; Some s
  | Threshold sz => Some (dfs_shmem_set_split_threshold s sz)
  end.

Definition allowed (o : op) (s : dfs_shmem_t) : Prop :=
  match o with
  | Alloc sz => 0 <= sz < 2 ^ 64
  | Split _ => True
  | Release p => exists sz, (p, sz) ∈ live s
  | Threshold sz => 0 <= sz < 2 ^ 64 - DFS_SHMEM_STORAGE_SIZE
  end.

Fixpoint run_ops (os : list op) (s : dfs_shmem_t) : option dfs_shmem_t := match os with [] => Some s | o :: os' => s ← run_op o s; run_ops os' s end.
Fixpoint allowed_all (os : list op) (s : dfs_shmem_t) : Prop :=
  match os with [] => True | o :: os' => allowed o s /\ forall s', run_op o s = Some s' -> allowed_all os' s' end.

Lemma threshold_wf s sz : wf s -> 0 <= sz < 2 ^ 64 - DFS_SHMEM_STORAGE_SIZE -> wf (dfs_shmem_set_split_threshold s sz).
Proof. intros [[[C1 C2 C3 C4] B2 B3 B4 B5 B6] H2 H3 H4] Hs. by constructor; [constructor; [constructor|..]|..]. Qed.

Lemma step_wf o s : wf s -> allowed o s -> exists s', run_op o s = Some s' /\ wf s'.
Proof.
  intros HW HA. destruct o as [sz|r|p|sz]; cbn [run_op allowed] in *.
  - destruct (alloc_ok s sz HW HA) as (e & p & s' & -> & HW' & _). by exists s'.
  - destruct (split_alloc_ok s r HW) as (e & p & a & s' & -> & HW' & _). by exists s'.
  - destruct HA as [sz HA]. destruct (free_ok s p sz HW HA) as (s' & -> & HW' & _). by exists s'.
  - eexists. split; [done|]. by apply threshold_wf.
Qed.

Lemma ops_wf os s : wf s -> allowed_all os s -> exists s', run_ops os s = Some s' /\ wf s'.
Proof.
  revert s. induction os as [|o os IH]; intros s HW HA; [by exists s|]. destruct HA as [HA HB]. destruct (step_wf o s HW HA) as (s1 & E & HW1).
  cbn [run_ops]. rewrite (option_bind_eq _ _ _ E). by apply IH; [|apply HB].
Qed.

(** ** The functions of core/dfs_shmem_allocator.c *)

(** The private data of the allocator: null before [init]. *)
Definition dfs_shmem_allocator_alloc (d : option dfs_shmem_t) (sz : Z) : option (Z * option dfs_shmem_t) :=
  match d with None => Some (0, d) | Some s => '(_, p, s) ← dfs_shmem_alloc s sz; Some (p, Some s) end.

Definition dfs_shmem_allocator_split_alloc (d : option dfs_shmem_t) (r : Z) : option (Z * Z * option dfs_shmem_t) :=
  match d with None => Some (0, 0, d) | Some s => '(_, p, a, s) ← dfs_shmem_split_alloc s r; Some (p, a, Some s) end.

Definition dfs_shmem_allocator_free (d : option dfs_shmem_t) (p : Z) : option (bool * option dfs_shmem_t) :=
  match d with
  | None => Some (false, d)
  | Some s => if p =? 0 then Some (false, d) else '(e, s) ← dfs_shmem_free s p; Some (bool_decide (e = ERR_NONE), Some s)
  end.

#[global] Instance shmem_allocator : MemAllocator.MemAllocator (option dfs_shmem_t) := {
  a_alloc := dfs_shmem_allocator_alloc; a_split_alloc := dfs_shmem_allocator_split_alloc; a_free := dfs_shmem_allocator_free }.

Definition managed (d : option dfs_shmem_t) : Prop := match d with Some s => wf s | None => False end.
Definition handed_out (d : option dfs_shmem_t) : list (Z * Z) := match d with Some s => live s | None => [] end.

#[global, program] Instance shmem_allocator_laws : MemAllocator.AllocatorLaws (option dfs_shmem_t) := {
  a_ok := managed; a_live := handed_out }.
Next Obligation. intros [s|] HW; [|done]. eapply blocks_apart, b_tiled, w_base, HW. Qed.
Next Obligation.
  intros [s|] p sz HW Hin; [|done]. pose proof (w_base s HW) as HB. destruct (b_range s HB) as (R1 & R2 & R3). pose proof (blocks_in _ _ _ _ (b_tiled s HB) Hin) as H.
  cbn [fst snd] in H. unfold low, DFS_SHMEM_STORAGE_SIZE in H. lia.
Qed.
Next Obligation.
  intros [s|] sz HW Hs; [|done]. destruct (alloc_ok s sz HW ltac:(lia)) as (e & p & s' & E & HW' & H). exists p, (Some s'). cbn. rewrite E. split; [done|]. split; [done|].
  destruct H as [(_ & _ & H)|(_ & -> & H)]; [by right|left]. split; [done|]. unfold live. by rewrite H.
Qed.
Next Obligation.
  intros [s|] r HW; [|done]. destruct (split_alloc_ok s r HW) as (e & p & a & s' & E & HW' & H). exists p, a, (Some s'). cbn. rewrite E. split; [done|]. split; [done|].
  destruct H as [(_ & H1 & H2 & _)|(_ & -> & H & _)]; [by right|left]. split; [done|]. unfold live. by rewrite H.
Qed.
Next Obligation.
  intros [s|] p sz HW Hin; [|done]. destruct (free_ok s p sz HW Hin) as (s' & E & HW' & HL). pose proof (w_base s HW) as HB.
  pose proof (blocks_in _ _ _ _ (b_tiled s HB) Hin) as H. destruct (b_range s HB) as (R1 & R2 & R3). unfold low, DFS_SHMEM_STORAGE_SIZE in H. cbn [fst snd] in H.
  exists (Some s'). cbn. rewrite (proj2 (Z.eqb_neq _ _)), E by lia. done.
Qed.

(** ** Theorems *)

(** A free storage that is large enough. *)
Definition room (s : dfs_shmem_t) (sz : Z) : Prop := exists st, st ∈ order s /\ alloc st = false /\ sz <= size st.

(** C16. Every sequence of allocations, allocations of the largest storage,
    changes of the threshold and releases of blocks that are handed out, on a
    new manager, runs without undefined behaviour and keeps the manager well
    formed: the storages tile the mapping, no two neighbours are free, the free
    lists hold exactly the free storages by their class.  The blocks handed
    out lie in the mapping and do not overlap, and the counter of used bytes
    is the sum of their sizes. *)
Theorem shmem_safe (mmap : Z -> option Z) page sz min max level fac os s :
  (forall t a, mmap t = Some a -> 0 < a /\ a + t < 2 ^ 64) -> 0 <= min < 2 ^ 57 -> 0 <= max < 2 ^ 57 -> good_factor level fac ->
  dfs_shmem_create mmap page sz min max level fac = Some (ERR_NONE, Some s) -> allowed_all os s ->
  exists s', run_ops os s = Some s' /\ wf s' /\ MemAllocator.apart (live s') /\
    (forall b, b ∈ live s' -> low s' <= b.1 /\ b.1 + b.2 <= high s') /\ dfs_shmem_get_used_size s' = sizes (live s').
Proof.
  intros Hmm Hmin Hmax HG E HA. destruct (create_ok mmap page sz min max level fac Hmm Hmin Hmax HG) as (e & r & E' & H). rewrite E in E'. injection E' as <- <-.
  destruct H as (_ & HW & _). destruct (ops_wf os s HW HA) as (s' & Er & HW'). exists s'. pose proof (w_base s' HW') as HB. pose proof (b_tiled s' HB) as HT.
  split; [done|]. split; [done|]. split; [by eapply blocks_apart|]. split; [|unfold dfs_shmem_get_used_size; rewrite (b_used s' HB); apply used_blocks].
  intros b Hb. pose proof (blocks_in _ _ _ _ HT Hb). unfold DFS_SHMEM_STORAGE_SIZE in *. lia.
Qed.

(** C19. A request above the size of the smallest class is served exactly when
    some free storage is large enough, although only one list is searched. *)
Theorem shmem_alloc_complete s sz : wf s -> min_size s < sz < 2 ^ 64 ->
  (exists p s', dfs_shmem_alloc s sz = Some (ERR_NONE, p, s')) <-> room s sz.
Proof.
  intros HW Hsz. pose proof (c_min s (b_cfg s (w_base s HW))). split; [|intros (st & H1 & H2 & H3); by eapply alloc_complete].
  intros (p & s' & E). destruct (decide (max_available_index s = free_len s)) as [Em|Hm].
  { unfold dfs_shmem_alloc in E. rewrite (proj2 (Z.eqb_neq _ _)), (proj2 (Nat.eqb_eq _ _) Em) in E by lia. done. }
  destruct (alloc_cases s sz HW ltac:(lia) Hm) as (i & j & l & _ & _ & _ & _ & [(st & s1 & sz' & H1 & _)|[E' _]]); [by exists st|rewrite E in E'; done].
Qed.

(** A small request fails although there is room for it when the first
    class holds only storages that are smaller still: that list is searched
    and no other. *)
Theorem shmem_small_request_fails s sz st : wf s -> 0 < sz <= min_size s -> (0 < max_available_index s < free_len s)%nat ->
  st ∈ order s -> alloc st = false -> cls s (size st) = 0%nat -> (forall x, x ∈ order s -> alloc x = false -> cls s (size x) = 0%nat -> size x < sz) ->
  room s sz /\ dfs_shmem_alloc s sz = Some (alloc_failed s ALLOC_FOUND_NO_FIXED).
Proof.
  intros HW Hsz Hm Hin Ea Hc Hall. split; [|eapply small_request_fails; try done; lia].
  pose proof (w_idx s HW) as HI. pose proof (i_max _ _ _ _ _ _ HI) as Em. destruct (last (available s)) as [k|] eqn:El; [|cbn in Em; lia]. cbn in Em. subst k.
  assert (Hmx : max_available_index s ∈ available s) by (apply last_Some in El as [q ->]; apply elem_of_app; right; by left).
  apply (i_av _ _ _ _ _ _ HI) in Hmx as (a & l & Hl). destruct (class_member s _ _ HW Hl) as (x & Hx & Ex & Hcx); [done|]. exists x. split; [done|]. split; [done|].
  pose proof (b_cfg s (w_base s HW)) as HC. pose proof (c_min s HC). destruct (size_range s x (w_base s HW) Hx) as [Hr _].
  destruct (alloc_index_spec s HC sz ltac:(lia)) as (i & Ei & _ & Hj). destruct i as [|i]; [|specialize (Hj 0%nat ltac:(lia)); rewrite (bound_0 s) in Hj; lia].
  eapply (cls_fits s HC sz (size x) 0); try done; lia.
Qed.

(** The layout depends only on the blocks that are handed out: two managers
    of the same mapping with the same blocks have the same storages, free ones
    included.  So releasing the blocks, in any order, leaves the storages there
    were before they were handed out. *)
Theorem shmem_layout_canonical s1 s2 : wf s1 -> wf s2 -> low s1 = low s2 -> high s1 = high s2 -> live s1 ≡ₚ live s2 ->
  shape <$> order s1 = shape <$> order s2.
Proof.
  intros HW1 HW2 E1 E2 HP. pose proof (b_tiled s1 (w_base s1 HW1)) as T1. pose proof (b_tiled s2 (w_base s2 HW2)) as T2. rewrite <-E1, <-E2 in T2.
  by apply (layout_unique _ _ _ _ T1 T2 (w_coal s1 HW1) (w_coal s2 HW2)).
Qed.

(** ** Examples *)

Definition created : option (shmem_err * option dfs_shmem_t) := dfs_shmem_create (fun _ => Some 65536) 4096 8192 64 1024 DFS_SHMEM_LEVEL_TYPE_LINEAR 64.
Definition sample : dfs_shmem_t := Eval vm_compute in match created with Some (_, Some s) => s | _ => Shm 0 [] [] 0 [] 0 0 0 0 0 0 (Stat 0 0 0 0 0 0 0 0) end.
Definition after (os : list op) : dfs_shmem_t := default sample (run_ops os sample).

Lemma sample_wf : wf sample.
Proof.
  destruct (create_ok (fun t => if t <=? 8192 then Some 65536 else None) 4096 8192 64 1024 DFS_SHMEM_LEVEL_TYPE_LINEAR 64) as (e & r & E & H).
  - intros t a. destruct (Z.leb_spec t 8192); [|done]. intros [= <-]. lia.
  - lia.
  - lia.
  - unfold good_factor. lia.
  - vm_compute in E. injection E as <- <-. apply H.
Qed.

Ltac next_state := let s := fresh "s" in let E := fresh "E" in intros s E; vm_compute in E; injection E as <-.

Lemma shmem_safe_witness : allowed_all [Alloc 100; Alloc 200; Split 50; Release 66408] sample /\
  exists s', run_ops [Alloc 100; Alloc 200; Split 50; Release 66408] sample = Some s' /\ wf s' /\ MemAllocator.apart (live s') /\
    (forall b, b ∈ live s' -> low s' <= b.1 /\ b.1 + b.2 <= high s') /\ dfs_shmem_get_used_size s' = sizes (live s').
Proof.
  assert (HA : allowed_all [Alloc 100; Alloc 200; Split 50; Release 66408] sample).
  { split; [cbn; lia|]. next_state. split; [cbn; lia|]. next_state. split; [done|]. next_state. split; [|by next_state]. exists 100. by_decide. }
  split; [exact HA|]. apply (shmem_safe (fun t => if t <=? 8192 then Some 65536 else None) 4096 8192 64 1024 DFS_SHMEM_LEVEL_TYPE_LINEAR 64).
  - intros t a. destruct (Z.leb_spec t 8192); [|done]. intros [= <-]. lia.
  - lia.
  - lia.
  - unfold good_factor. lia.
  - vm_compute. reflexivity.
  - exact HA.
Defined.

Lemma shmem_alloc_complete_witness : room sample 300 /\ exists p s', dfs_shmem_alloc sample 300 = Some (ERR_NONE, p, s').
Proof.
  assert (HR : room sample 300) by (eexists; split; [by left|]; split; [reflexivity|]; vm_compute; discriminate).
  split; [exact HR|]. apply (shmem_alloc_complete sample 300 sample_wf); [vm_compute; by split|exact HR].
Defined.

(** A block of one byte is handed out and given back beside one that stays. *)
Definition fragmented : dfs_shmem_t := after [Alloc 1; Alloc 100; Release 66408].

Lemma fragmented_wf : wf fragmented.
Proof.
  destruct (ops_wf [Alloc 1; Alloc 100; Release 66408] sample sample_wf) as (s' & E & HW).
  - split; [cbn; lia|]. next_state. split; [cbn; lia|]. next_state. split; [|by next_state]. exists 1. by_decide.
  - unfold fragmented, after. rewrite E. exact HW.
Qed.

Lemma shmem_small_request_fails_witness : room fragmented 8 /\ dfs_shmem_alloc fragmented 8 = Some (alloc_failed fragmented ALLOC_FOUND_NO_FIXED).
Proof.
  apply (shmem_small_request_fails fragmented 8 (Storage 66344 false 1 1 (Some 0%nat)) fragmented_wf).
  - vm_compute. by split.
  - vm_compute. lia.
  - vm_compute. left.
  - reflexivity.
  - reflexivity.
  - intros x Hx Ea Hc. vm_compute in Hx. apply elem_of_cons in Hx as [->|Hx]; [by vm_compute|].
    apply elem_of_cons in Hx as [->|Hx]; [done|]. apply elem_of_cons in Hx as [->|Hx]; [by vm_compute in Hc|]. by apply not_elem_of_nil in Hx.
Defined.

Lemma shmem_layout_canonical_witness : shape <$> order (after [Alloc 1; Alloc 100; Release 66408; Release 66473]) = shape <$> order sample.
Proof.
  destruct (ops_wf [Alloc 1; Alloc 100; Release 66408; Release 66473] sample sample_wf) as (s' & E & HW).
  - split; [cbn; lia|]. next_state. split; [cbn; lia|]. next_state. split; [exists 1; by_decide|]. next_state. split; [exists 100; by_decide|by next_state].
  - assert (Ea : after [Alloc 1; Alloc 100; Release 66408; Release 66473] = s') by (unfold after; by rewrite E). rewrite Ea.
    apply (shmem_layout_canonical s' sample HW sample_wf); vm_compute in E; injection E as <-; vm_compute; reflexivity.
Defined.

End ShmemLaws.
