(* ===== verification/Slabs.v ===== *)
(** * Slabs

    core/dfs_slabs.c, .h: classes of chunks over a memory allocator.  A chunk
    has a header of 32 bytes; free chunks are kept in the list of their class
    and given to the allocator when another class runs out.

    The manager is over any allocator of the interface; the headers are a map
    from the addresses of chunks, the links of the free lists are lists.  The
    pointers [slab_mgr], [slab_size] and, but for the release, [err_no] are not
    null, and the allocator has all its functions.  The number of a class, an
    [ssize_t] that [dfs_slabs_recover] takes as an [int], is below 2^31.  A result
    [None] is an access to memory that holds no chunk, a class out of range, or
    exhausted fuel. *)

From Stdlib Require Import ZArith Lia Bool.
From stdpp Require Import base numbers gmap option list.
From S2P Require Import Prelude DfsMath MemAllocator Shmem.
Import MemAllocator.

Module Slabs.

Definition DFS_SLAB_CHUNK_SIZE : Z := 32.
Definition sizeof_slab_manager_t : Z := 128.
Definition sizeof_slabclass_t : Z := 16.
Definition DFS_SLAB_UPTYPE_POWER : Z := 1.
Definition DFS_SLAB_UPTYPE_LINEAR : Z := 2.
Definition DFS_SLAB_POWER_FACTOR : Z := 2.
Definition DFS_SLAB_LINEAR_FACTOR : Z := 1024.
Definition DFS_SLAB_SPLIT_ID : Z := -5.
Definition DFS_SLAB_RECOVER_FACTOR : Z := 2.

Inductive slab_err := SLAB_NONE | CREATE_PARAM | CREATE_POWER_FACTOR | CREATE_LINER_FACTOR | CREATE_UPTYPE | ALLOC_PARAM | ALLOC_INVALID_ID | ALLOC_FAILED
  | SPLIT_ALLOC_PARAM | CHUNK_SIZE_TOO_LARGE | FREE_PARAM | FREE_CHUNK_ID | ALLOCATOR_ERROR.

Record chunk_link_t := Chunk { c_size : Z; req_size : Z; c_id : Z }.
Record slabclass_t := Class_ { k_size : Z; free_list : list Z }.
Record dfs_slab_stat_t := Stat { used_size : Z; reqs_size : Z; free_size : Z; chunk_count : Z; system_size : Z; failed : Z; recover : Z; recover_failed : Z; split_failed : Z }.

Definition stat_add (t : dfs_slab_stat_t) (u r f c : Z) : dfs_slab_stat_t :=
  Stat (u64 (used_size t + u)) (u64 (reqs_size t + r)) (u64 (free_size t + f)) (u64 (chunk_count t + c)) (system_size t) (failed t) (recover t) (recover_failed t) (split_failed t).
Definition stat_fail (t : dfs_slab_stat_t) (f r rf sf : Z) : dfs_slab_stat_t :=
  Stat (used_size t) (reqs_size t) (free_size t) (chunk_count t) (system_size t) (u64 (failed t + f)) (u64 (recover t + r)) (u64 (recover_failed t + rf)) (u64 (split_failed t + sf)).

Section slabs.

Context {A : Type} `{!MemAllocator A}.

Record dfs_slab_manager_t := Mgr { uptype : Z; factor : Z; min_size : Z; slab_stat : dfs_slab_stat_t; allocator : A; slabclass : list slabclass_t; chunks : gmap Z chunk_link_t }.

Definition set_stat m t := Mgr (uptype m) (factor m) (min_size m) t (allocator m) (slabclass m) (chunks m).
Definition set_alloc m a := Mgr (uptype m) (factor m) (min_size m) (slab_stat m) a (slabclass m) (chunks m).
Definition set_class m k := Mgr (uptype m) (factor m) (min_size m) (slab_stat m) (allocator m) k (chunks m).
Definition set_chunks m h := Mgr (uptype m) (factor m) (min_size m) (slab_stat m) (allocator m) (slabclass m) h.
Definition free_len (m : dfs_slab_manager_t) : Z := Z.of_nat (length (slabclass m)).

Definition all_size (sz : Z) : Z := Shmem.DFS_MATH_ALIGNMENT (u64 (sz + DFS_SLAB_CHUNK_SIZE)) Shmem.DFS_MATH_ALIGN_SIZE.
Definition class_size (m : dfs_slab_manager_t) (i : Z) : option Z := if 0 <=? i then k_size <$> slabclass m !! Z.to_nat i else None.

(** The binary search; [inl] is no class. *)
Fixpoint clsid_loop (fuel : nat) (m : dfs_slab_manager_t) (all low high : Z) : option (option Z) :=
  match fuel with
  | O => None
  | S fuel =>
      if low <=? high then
        let mid := Z.shiftr (low + high) 1 in
        sz ← class_size m mid;
        if all <=? sz then
          sp ← class_size m (mid - 1);
          if sp <? all then Some (Some mid) else if all =? sp then Some (Some (mid - 1)) else clsid_loop fuel m all low (mid - 1)
        else
          sn ← class_size m (mid + 1);
          if all <=? sn then Some (Some (mid + 1)) else clsid_loop fuel m all (mid + 1) high
      else Some None
  end.

(** [None] inside is [DFS_SLAB_ERROR_INVALID_ID]. *)
Definition dfs_slabs_clsid (m : dfs_slab_manager_t) (sz : Z) (up : bool) : option (option Z) :=
  if sz =? 0 then Some None
  else
  let max_id := free_len m - 1 in
  let all := all_size sz in
  smax ← class_size m max_id;
  s0 ← class_size m 0;
  if smax <? all then Some None
  else if all <=? s0 then Some (Some 0)
  else if all =? smax then Some (Some max_id)
  else if uptype m =? DFS_SLAB_UPTYPE_LINEAR then
    if factor m =? 0 then None
    else let d := u64 (sz - min_size m) in
         Some (Some (if up && negb (d mod factor m =? 0) then d / factor m + 1 else d / factor m))
  else clsid_loop (S (length (slabclass m))) m all 1 (max_id - 1).

(** The array of the classes. *)
Fixpoint classes (n : nat) (uptype factor sz : Z) : list slabclass_t :=
  match n with
  | O => []
  | S n => Class_ (all_size sz) [] :: classes n uptype factor (if uptype =? DFS_SLAB_UPTYPE_POWER then u64 (sz * factor) else u64 (sz + factor))
  end.

Definition class_count (uptype factor min max : Z) : slab_err + option Z :=
  if uptype =? DFS_SLAB_UPTYPE_POWER then
    if negb (factor =? DFS_SLAB_POWER_FACTOR) then inl CREATE_POWER_FACTOR
    else let power := max / min in inr (DfsMath.dfs_math_dfslog2 (if max mod min =? 0 then power else power + 1) true)
  else if uptype =? DFS_SLAB_UPTYPE_LINEAR then
    if negb (factor =? DFS_SLAB_LINEAR_FACTOR) then inl CREATE_LINER_FACTOR
    else let n := u64 (max - min) / factor in inr (Some (if u64 (max - min) mod factor =? 0 then n else n + 1))
  else inl CREATE_UPTYPE.

Definition dfs_slabs_create (al : A) (uptype factor min max : Z) : option (slab_err * A * option dfs_slab_manager_t) :=
  if (min =? 0) || (max =? 0) then Some (CREATE_PARAM, al, None)
  else if max / min <? 2 then Some (CREATE_PARAM, al, None)
  else match class_count uptype factor min max with
  | inl e => Some (e, al, None)
  | inr n =>
      n ← n;
      let n := n + 1 in
      '(p, al) ← a_alloc al sizeof_slab_manager_t;
      if p =? 0 then Some (ALLOCATOR_ERROR, al, None)
      else
      '(q, al) ← a_alloc al (u64 (sizeof_slabclass_t * n));
      if q =? 0 then Some (ALLOCATOR_ERROR, al, None)
      else Some (SLAB_NONE, al, Some (Mgr uptype factor min
             (Stat 0 0 0 0 (u64 (sizeof_slab_manager_t + sizeof_slabclass_t * n)) 0 0 0 0) al (classes (Z.to_nat n) uptype factor min) ∅))
  end.

(** The first chunk of a class goes back to the allocator. *)
Definition give_back (m : dfs_slab_manager_t) (i : nat) : option dfs_slab_manager_t :=
  k ← slabclass m !! i;
  match free_list k with
  | [] => None
  | c :: l =>
      '(_, al) ← a_free (allocator m) c;
      let m := set_class (set_alloc m al) (<[i := Class_ (k_size k) l]> (slabclass m)) in
      Some (set_chunks (set_stat m (stat_add (slab_stat m) 0 0 (- (k_size k - DFS_SLAB_CHUNK_SIZE)) (-1))) (delete c (chunks m)))
  end.

Definition has_free (m : dfs_slab_manager_t) (i : nat) : bool := match slabclass m !! i with Some (Class_ _ (_ :: _)) => true | _ => false end.

(** The classes above: one chunk is enough. *)
Fixpoint recover_up (m : dfs_slab_manager_t) (i n : nat) : option (option dfs_slab_manager_t) :=
  match n with
  | O => Some None
  | S n => if has_free m i then Some <$> give_back m i else recover_up m (S i) n
  end.

(** The chunks of a class below, until enough is free: [inr] is the new sum. *)
Fixpoint drain (fuel : nat) (m : dfs_slab_manager_t) (i : nat) (chunk_size sz : Z) : option (bool * Z * dfs_slab_manager_t) :=
  match fuel with
  | O => None
  | S fuel =>
      if has_free m i then
        k ← slabclass m !! i;
        m ← give_back m i;
        let sz := u64 (sz + k_size k) in
        if u64 (chunk_size * DFS_SLAB_RECOVER_FACTOR) <=? sz then Some (true, sz, m) else drain fuel m i chunk_size sz
      else Some (false, sz, m)
  end.

Definition free_count (m : dfs_slab_manager_t) : nat := sum_list_with (fun k => length (free_list k)) (slabclass m).

(** The classes below [i], from the top: whether enough is free, and whether there was a chunk. *)
Fixpoint recover_down (m : dfs_slab_manager_t) (i : nat) (chunk_size sz : Z) (flag : bool) : option (bool * bool * dfs_slab_manager_t) :=
  match i with
  | O => Some (false, flag, m)
  | S i =>
      let flag := flag || has_free m i in
      '(done, sz, m) ← drain (S (free_count m)) m i chunk_size sz;
      if done : bool then Some (true, flag, m) else recover_down m i chunk_size sz flag
  end.

(** The result is false when there is no space at all. *)
Definition dfs_slabs_recover (m : dfs_slab_manager_t) (chunk_size : Z) (id : nat) : option (bool * dfs_slab_manager_t) :=
  let m := set_stat m (stat_fail (slab_stat m) 0 1 0 0) in
  u ← recover_up m (S id) (length (slabclass m) - S id);
  match u with
  | Some m => Some (true, m)
  | None =>
      '(done, flag, m) ← recover_down m id chunk_size 0 false;
      if done : bool then Some (true, m) else Some (flag, set_stat m (stat_fail (slab_stat m) 0 0 1 0))
  end.

(** The loop of [dfs_slabs_alloc]: the chunk, or 0 when there is no space. *)
Fixpoint alloc_loop (fuel : nat) (m : dfs_slab_manager_t) (chunk_size : Z) (id : nat) : option (Z * dfs_slab_manager_t) :=
  match fuel with
  | O => None
  | S fuel =>
      '(ok, m) ← dfs_slabs_recover m chunk_size id;
      if negb ok then Some (0, m)
      else
      '(p, al) ← a_alloc (allocator m) chunk_size;
      let m := set_alloc m al in
      if p =? 0 then alloc_loop fuel m chunk_size id else Some (p, m)
  end.

(** A chunk of the class [id], or 0.  The error code is that of the allocator
    as soon as one of its allocations has failed, also when a later one has
    succeeded. *)
Definition take_chunk (m : dfs_slab_manager_t) (id : Z) (k : slabclass_t) : option (slab_err * Z * dfs_slab_manager_t) :=
  match free_list k with
  | c :: l =>
      h ← chunks m !! c;
      Some (SLAB_NONE, c, set_stat (set_class m (<[Z.to_nat id := Class_ (k_size k) l]> (slabclass m))) (stat_add (slab_stat m) 0 0 (- c_size h) 0))
  | [] =>
      '(p, al) ← a_alloc (allocator m) (k_size k);
      let m := set_alloc m al in
      '(e, p, m) ← (if p =? 0 then '(p, m) ← alloc_loop (S (free_count m)) m (k_size k) (Z.to_nat id); Some (ALLOCATOR_ERROR, p, m) else Some (SLAB_NONE, p, m));
      if p =? 0 then Some (e, p, m)
      else Some (e, p, set_chunks (set_stat m (stat_add (slab_stat m) 0 0 0 1)) (<[p := Chunk (u64 (k_size k - DFS_SLAB_CHUNK_SIZE)) 0 id]> (chunks m)))
  end.

(** The error, the address given out and what is written to [slab_size]. *)
Definition dfs_slabs_alloc (m : dfs_slab_manager_t) (act : bool) (rq : Z) : option (slab_err * Z * option Z * dfs_slab_manager_t) :=
  if rq =? 0 then Some (ALLOC_PARAM, 0, None, m)
  else
  i ← dfs_slabs_clsid m rq true;
  match i with
  | None => Some (ALLOC_INVALID_ID, 0, None, m)
  | Some id =>
      k ← slabclass m !! Z.to_nat id;
      '(e, c, m) ← take_chunk m id k;
      if c =? 0 then Some (ALLOC_FAILED, 0, Some 0, set_stat m (stat_fail (slab_stat m) 1 0 0 0))
      else
      h ← chunks m !! c;
      let sz := if act then c_size h else rq in
      let m := set_chunks m (<[c := Chunk (c_size h) sz id]> (chunks m)) in
      Some (e, c + DFS_SLAB_CHUNK_SIZE, Some sz, set_stat m (stat_add (slab_stat m) (c_size h) sz 0 0))
  end.

Definition dfs_slabs_split_alloc (m : dfs_slab_manager_t) (rq rmin : Z) : option (slab_err * Z * option Z * dfs_slab_manager_t) :=
  if rq =? 0 then Some (SPLIT_ALLOC_PARAM, 0, None, m)
  else
  smax ← class_size m (free_len m - 1);
  if smax <? all_size rq then Some (CHUNK_SIZE_TOO_LARGE, 0, None, m)
  else
  '(c, n, al) ← a_split_alloc (allocator m) (all_size rmin);
  let m := set_alloc m al in
  if c =? 0 then Some (ALLOCATOR_ERROR, 0, Some 0, set_stat m (stat_fail (slab_stat m) 0 0 0 1))
  else
  let sz := u64 (n - DFS_SLAB_CHUNK_SIZE) in
  let r := if sz <=? rq then sz else rq in
  let m := set_chunks m (<[c := Chunk sz r DFS_SLAB_SPLIT_ID]> (chunks m)) in
  Some (SLAB_NONE, c + DFS_SLAB_CHUNK_SIZE, Some sz, set_stat m (stat_add (slab_stat m) sz r 0 1)).

(** The error and whether the result is [DFS_SLAB_OK]. *)
Definition dfs_slabs_free (m : dfs_slab_manager_t) (ptr : Z) : option (slab_err * bool * dfs_slab_manager_t) :=
  if ptr =? 0 then Some (FREE_PARAM, false, m)
  else
  let c := ptr - DFS_SLAB_CHUNK_SIZE in
  h ← chunks m !! c;
  if c_id h =? DFS_SLAB_SPLIT_ID then
    let m := set_stat m (stat_add (slab_stat m) (- c_size h) (- req_size h) 0 (-1)) in
    '(ok, al) ← a_free (allocator m) c;
    Some (if ok : bool then SLAB_NONE else ALLOCATOR_ERROR, true, set_chunks (set_alloc m al) (delete c (chunks m)))
  else
  k ← (if 0 <=? c_id h then slabclass m !! Z.to_nat (c_id h) else None);
  let m := set_class m (<[Z.to_nat (c_id h) := Class_ (k_size k) (c :: free_list k)]> (slabclass m)) in
  if used_size (slab_stat m) <? k_size k then Some (FREE_CHUNK_ID, false, m)
  else Some (SLAB_NONE, true, set_stat m (stat_add (slab_stat m) (- c_size h) (- req_size h) (c_size h) 0)).

(** [err_no] is tested the wrong way round: with one the function returns at
    once, and without one the next statement writes through it. *)
Definition dfs_slabs_release (err_no : bool) (m : dfs_slab_manager_t) : option (bool * dfs_slab_manager_t) :=
  if err_no then Some (false, m) else None.

Definition dfs_slabs_get_chunk_size (m : dfs_slab_manager_t) : Z := u64 (chunk_count (slab_stat m) * DFS_SLAB_CHUNK_SIZE).

End slabs.

End Slabs.
