(* ===== verification/SlabsOk.v ===== *)
(** * Slabs: proofs

    The search for a class against a linear search, the invariant of a manager
    over any allocator that keeps the laws of the interface, and the
    operations. *)

From Stdlib Require Import ZArith Lia Bool.
From stdpp Require Import base numbers gmap option list.
From S2P Require Import Prelude DfsMath MemAllocator Shmem ShmemLaws Slabs.
Import MemAllocator Slabs.

Module SlabsOk.

(** ** The search for a class *)

Section search.

Context {A : Type} `{!MemAllocator A}.

Implicit Types m : dfs_slab_manager_t (A := A).

(** The first class, counted from [i], that is large enough. *)
Fixpoint first_fit (all i : Z) (l : list slabclass_t) : option Z :=
  match l with [] => None | k :: l' => if all <=? k_size k then Some i else first_fit all (i + 1) l' end.

Lemma first_fit_None all i l : Forall (fun k => k_size k < all) l -> first_fit all i l = None.
Proof. intros H. revert i. induction H as [|k l Hk _ IH]; intros i; [done|]. cbn. rewrite (proj2 (Z.leb_gt _ _)) by lia. apply IH. Qed.

Lemma first_fit_at all i l (n : nat) k : l !! n = Some k -> all <= k_size k -> (forall j x, (j < n)%nat -> l !! j = Some x -> k_size x < all) ->
  first_fit all i l = Some (i + Z.of_nat n).
Proof.
  revert i n. induction l as [|x l IH]; intros i [|n] Hn Hk Hlt; [done..| |].
  - injection Hn as ->. cbn. rewrite (proj2 (Z.leb_le _ _)) by lia. f_equal. lia.
  - cbn [first_fit]. pose proof (Hlt 0%nat x ltac:(lia) eq_refl). rewrite (proj2 (Z.leb_gt _ _)) by lia. rewrite (IH (i + 1) n); [f_equal; lia|done|done|].
    intros j y Hj Hy. by apply (Hlt (S j) y); [lia|].
Qed.

(** Sizes grow with the class; only classes as small as the first can have the same size. *)
Definition graded m : Prop := forall i j x y, (i < j)%nat -> slabclass m !! i = Some x -> slabclass m !! j = Some y ->
  k_size x < k_size y \/ k_size x = k_size y /\ forall z, slabclass m !! 0%nat = Some z -> k_size x = k_size z.

Lemma class_size_at m i : 0 <= i < free_len m -> exists k, slabclass m !! Z.to_nat i = Some k /\ class_size m i = Some (k_size k).
Proof.
  intros Hi. unfold class_size, free_len in *. rewrite (proj2 (Z.leb_le _ _)) by lia.
  destruct (lookup_lt_is_Some_2 (slabclass m) (Z.to_nat i)) as [k Hk]; [lia|]. rewrite Hk. eauto.
Qed.

Lemma class_size_inv m i z : class_size m i = Some z -> 0 <= i < free_len m /\ exists k, slabclass m !! Z.to_nat i = Some k /\ k_size k = z.
Proof.
  unfold class_size, free_len. destruct (Z.leb_spec 0 i); [|done]. destruct (slabclass m !! Z.to_nat i) as [k|] eqn:E; [|done]. intros [= <-].
  apply lookup_lt_Some in E as L. split; [lia|]. eauto.
Qed.

Lemma fit_here m all i z z' : graded m -> class_size m i = Some z -> all <= z -> class_size m (i - 1) = Some z' -> z' < all -> first_fit all 0 (slabclass m) = Some i.
Proof.
  intros HG Hz L Hz' L'. apply class_size_inv in Hz as (Hi & k & Hk & <-), Hz' as (Hi' & k' & Hk' & <-).
  rewrite (first_fit_at all 0 _ (Z.to_nat i) k Hk L); [f_equal; lia|]. intros j x Hj Hx.
  destruct (decide (j = Z.to_nat (i - 1))) as [->|Hn]; [congruence|]. destruct (HG j (Z.to_nat (i - 1)) x k' ltac:(lia) Hx Hk'); lia.
Qed.

(** Equal to a class above the first: that class. *)
Lemma fit_equal m all i z0 : graded m -> class_size m i = Some all -> class_size m 0 = Some z0 -> z0 < all -> first_fit all 0 (slabclass m) = Some i.
Proof.
  intros HG Hz H0 L. apply class_size_inv in Hz as (Hi & k & Hk & E), H0 as (_ & k0 & Hk0 & <-).
  rewrite (first_fit_at all 0 _ (Z.to_nat i) k Hk ltac:(lia)); [f_equal; lia|]. intros j x Hj Hx.
  destruct (HG j (Z.to_nat i) x k Hj Hx Hk) as [?|[? Hs]]; [lia|]. specialize (Hs k0 Hk0). lia.
Qed.

Lemma clsid_loop_ok m all z0 : graded m -> class_size m 0 = Some z0 -> z0 < all ->
  forall fuel low high, 1 <= low <= high -> high < free_len m - 1 -> high - low < Z.of_nat fuel ->
  (exists z, class_size m (low - 1) = Some z /\ z < all) -> (exists z, class_size m (high + 1) = Some z /\ all <= z) ->
  clsid_loop fuel m all low high = Some (first_fit all 0 (slabclass m)).
Proof.
  intros HG H0 L0. induction fuel as [|fuel IH]; intros low high Hlh Hh Hf Hl Hu; [lia|]. cbn [clsid_loop]. rewrite (proj2 (Z.leb_le _ _)) by lia.
  rewrite Z.shiftr_div_pow2 by lia. change (2 ^ 1) with 2. cbv zeta. set (mid := (low + high) / 2). assert (Hm : low <= mid <= high) by (unfold mid; split; [apply Z.div_le_lower_bound|apply Z.div_le_upper_bound]; lia).
  destruct (class_size_at m mid ltac:(lia)) as (k & Hk & Ek), (class_size_at m (mid - 1) ltac:(lia)) as (kp & Hkp & Ekp), (class_size_at m (mid + 1) ltac:(lia)) as (kn & Hkn & Ekn).
  rewrite Ek, (option_bind_eq _ _ _ eq_refl). destruct (Z.leb_spec all (k_size k)) as [L|L].
  - rewrite Ekp, (option_bind_eq _ _ _ eq_refl). destruct (Z.ltb_spec (k_size kp) all) as [L1|L1]; [by rewrite (fit_here m all mid _ _ HG Ek L Ekp L1)|].
    destruct (Z.eqb_spec all (k_size kp)) as [E|E]; [rewrite <-E in Ekp; by rewrite (fit_equal m all (mid - 1) z0 HG Ekp H0 L0)|].
    apply IH; try done; try lia; [|exists (k_size k); replace (mid - 1 + 1) with mid by lia; done].
    destruct (decide (mid = low)) as [El|]; [|lia]. destruct Hl as (z & Hz & Lz). rewrite <-El, Ekp in Hz. injection Hz as <-. lia.
  - rewrite Ekn, (option_bind_eq _ _ _ eq_refl). destruct (Z.leb_spec all (k_size kn)) as [L1|L1].
    { rewrite (fit_here m all (mid + 1) _ (k_size k) HG Ekn L1); [done| |done]. by replace (mid + 1 - 1) with mid by lia. }
    apply IH; try done; try lia; [|exists (k_size k); replace (mid + 1 - 1) with mid by lia; done].
    destruct (decide (mid = high)) as [El|]; [|lia]. destruct Hu as (z & Hz & Lz). rewrite <-El, Ekn in Hz. injection Hz as <-. lia.
Qed.

Lemma clsid_power_ok m sz up : graded m -> uptype m <> DFS_SLAB_UPTYPE_LINEAR -> 3 <= free_len m -> 0 < sz ->
  dfs_slabs_clsid m sz up = Some (first_fit (all_size sz) 0 (slabclass m)).
Proof.
  intros HG Hu Hn Hsz. unfold dfs_slabs_clsid. rewrite (proj2 (Z.eqb_neq _ _)) by lia. cbv zeta. set (all := all_size sz).
  destruct (class_size_at m (free_len m - 1) ltac:(lia)) as (km & Hkm & Em), (class_size_at m 0 ltac:(lia)) as (k0 & Hk0 & E0).
  rewrite Em, (option_bind_eq _ _ _ eq_refl), E0, (option_bind_eq _ _ _ eq_refl). destruct (Z.ltb_spec (k_size km) all) as [L1|L1].
  { rewrite first_fit_None; [done|]. apply Forall_lookup. intros i k Hk. apply lookup_lt_Some in Hk as Hi.
    destruct (decide (i = Z.to_nat (free_len m - 1))) as [->|Hne]; [congruence|]. unfold free_len in *. destruct (HG i (Z.to_nat (Z.of_nat (length (slabclass m)) - 1)) k km ltac:(lia) Hk Hkm); lia. }
  destruct (Z.leb_spec all (k_size k0)) as [L2|L2]. { rewrite (first_fit_at all 0 _ 0 k0 Hk0 L2); [done|]. intros; lia. }
  destruct (Z.eqb_spec all (k_size km)) as [E|E]. { rewrite <-E in Em. by rewrite (fit_equal m all _ _ HG Em E0 L2). }
  rewrite (proj2 (Z.eqb_neq _ _) Hu). apply (clsid_loop_ok m all (k_size k0) HG E0 L2); unfold free_len in *; [lia..| |].
  - exists (k_size k0). by replace (1 - 1) with 0 by lia.
  - exists (k_size km). replace (Z.of_nat (length (slabclass m)) - 1 - 1 + 1) with (Z.of_nat (length (slabclass m)) - 1) by lia. split; [done|lia].
Qed.

(** With two classes nothing between them is found. *)
Lemma clsid_two m sz up k0 k1 : uptype m <> DFS_SLAB_UPTYPE_LINEAR -> slabclass m = [k0; k1] -> 0 < sz -> k_size k0 < all_size sz < k_size k1 ->
  dfs_slabs_clsid m sz up = Some None.
Proof.
  intros Hu Hk Hsz Hb. assert (E1 : class_size m (free_len m - 1) = Some (k_size k1)) by (unfold class_size, free_len; by rewrite Hk).
  assert (E0 : class_size m 0 = Some (k_size k0)) by (unfold class_size; by rewrite Hk). assert (En : free_len m = 2) by (unfold free_len; by rewrite Hk).
  unfold dfs_slabs_clsid. rewrite (proj2 (Z.eqb_neq _ _)) by lia. cbv zeta. rewrite E1, (option_bind_eq _ _ _ eq_refl), E0, (option_bind_eq _ _ _ eq_refl).
  rewrite (proj2 (Z.ltb_ge _ _)), (proj2 (Z.leb_gt _ _)), (proj2 (Z.eqb_neq (all_size sz) _)), (proj2 (Z.eqb_neq _ _) Hu), En by lia. done.
Qed.

(** ** The classes of a new manager *)

Lemma all_size_eq x : 0 <= x < 2 ^ 63 -> all_size x = 8 * ((x + 7) / 8) + 32.
Proof.
  intros Hx. unfold all_size, DFS_SLAB_CHUNK_SIZE, Shmem.DFS_MATH_ALIGNMENT, Shmem.DFS_MATH_ALIGN_SIZE, u64. rewrite uwrap_small by (unfold in_u; lia).
  pose proof (Z.div_mod (x + 32) 8 ltac:(lia)). pose proof (Z.mod_pos_bound (x + 32) 8 ltac:(lia)).
  pose proof (Z.div_mod (x + 7) 8 ltac:(lia)). pose proof (Z.mod_pos_bound (x + 7) 8 ltac:(lia)).
  destruct (Z.eqb_spec ((x + 32) mod 8) 0); [lia|]. rewrite uwrap_small by (unfold in_u; lia). lia.
Qed.

Lemma all_size_mono x y : 0 <= x <= y -> y < 2 ^ 63 -> all_size x <= all_size y.
Proof. intros. rewrite !all_size_eq by lia. assert ((x + 7) / 8 <= (y + 7) / 8) by (apply Z.div_le_mono; lia). lia. Qed.

Lemma all_size_ge x : 0 <= x < 2 ^ 63 -> x + 32 <= all_size x < x + 40.
Proof. intros. rewrite all_size_eq by lia. pose proof (Z.div_mod (x + 7) 8 ltac:(lia)). pose proof (Z.mod_pos_bound (x + 7) 8 ltac:(lia)). lia. Qed.

Definition nth_size m (i : Z) : Z := if uptype m =? DFS_SLAB_UPTYPE_POWER then min_size m * 2 ^ i else min_size m + i * DFS_SLAB_LINEAR_FACTOR.

Record cfg m : Prop := {
  g_len : 2 <= free_len m;
  g_min : 0 < min_size m;
  g_type : uptype m = DFS_SLAB_UPTYPE_POWER \/ uptype m = DFS_SLAB_UPTYPE_LINEAR /\ factor m = DFS_SLAB_LINEAR_FACTOR;
  g_sizes : forall i k, slabclass m !! i = Some k -> k_size k = all_size (nth_size m (Z.of_nat i));
  g_top : nth_size m (free_len m - 1) < 2 ^ 62 }.

Lemma nth_grows m i j : cfg m -> 0 <= i < j -> nth_size m i < nth_size m j /\ (uptype m = DFS_SLAB_UPTYPE_POWER -> 2 * nth_size m i <= nth_size m j) /\
  (uptype m = DFS_SLAB_UPTYPE_LINEAR -> nth_size m i + 1024 <= nth_size m j).
Proof.
  intros HC Hij. pose proof (g_min m HC). unfold nth_size. destruct (g_type m HC) as [->|[-> _]]; cbn [Z.eqb DFS_SLAB_UPTYPE_POWER DFS_SLAB_UPTYPE_LINEAR Pos.eqb].
  - assert (2 ^ (i + 1) <= 2 ^ j) by (apply Z.pow_le_mono_r; lia). rewrite Z.pow_add_r in * by lia. assert (0 < 2 ^ i) by lia. split; [nia|]. split; [nia|done].
  - unfold DFS_SLAB_LINEAR_FACTOR. split; [lia|]. split; [done|lia].
Qed.

Lemma nth_range m i : cfg m -> 0 <= i < free_len m -> min_size m <= nth_size m i < 2 ^ 62.
Proof.
  intros HC Hi. pose proof (g_top m HC). assert (E0 : nth_size m 0 = min_size m) by (unfold nth_size; destruct (_ =? _); [rewrite Z.pow_0_r|]; lia). split.
  - destruct (decide (i = 0)) as [->|]; [lia|]. destruct (nth_grows m 0 i HC ltac:(lia)); lia.
  - destruct (decide (i = free_len m - 1)) as [->|]; [lia|]. destruct (nth_grows m i (free_len m - 1) HC ltac:(lia)); lia.
Qed.

Lemma cfg_graded m : cfg m -> graded m.
Proof.
  intros HC i j x y Hij Hx Hy. apply lookup_lt_Some in Hy as Hl. rewrite (g_sizes m HC _ _ Hx), (g_sizes m HC _ _ Hy).
  pose proof (nth_range m (Z.of_nat i) HC ltac:(unfold free_len; lia)) as R1. pose proof (nth_range m (Z.of_nat j) HC ltac:(unfold free_len; lia)) as R2.
  pose proof (nth_range m 0 HC ltac:(unfold free_len; lia)) as R0. pose proof (g_min m HC).
  assert (E0 : nth_size m 0 = min_size m) by (unfold nth_size; destruct (_ =? _); [rewrite Z.pow_0_r|]; lia).
  destruct (nth_grows m (Z.of_nat i) (Z.of_nat j) HC ltac:(lia)) as (_ & G1 & G2). rewrite !all_size_eq by lia. set (a := nth_size m (Z.of_nat i)) in *. set (b := nth_size m (Z.of_nat j)) in *.
  assert (Hc : a + 8 <= b \/ a < 8 /\ a < b). { destruct (g_type m HC) as [E|[E _]]; [specialize (G1 E)|specialize (G2 E)]; lia. }
  destruct Hc as [Hc|[Hc Hb]].
  - left. assert ((a + 7) / 8 + 1 <= (b + 7) / 8). { replace ((a + 7) / 8 + 1) with ((a + 7 + 1 * 8) / 8) by (rewrite Z.div_add; lia). apply Z.div_le_mono; lia. } lia.
  - assert (Ha : (a + 7) / 8 = 1) by (symmetry; apply (Z.div_unique _ _ _ (a - 1)); lia). assert (1 <= (b + 7) / 8) by (apply Z.div_le_lower_bound; lia).
    destruct (decide ((b + 7) / 8 = 1)) as [Hb1|]; [right|left; lia]. split; [lia|]. intros z Hz. rewrite (g_sizes m HC _ _ Hz). change (Z.of_nat 0) with 0. rewrite E0, all_size_eq by lia.
    assert ((min_size m + 7) / 8 = 1) by (symmetry; apply (Z.div_unique _ _ _ (min_size m - 1)); lia). lia.
Qed.

(** The class computed for growth by a constant. *)
Lemma clsid_linear m sz : cfg m -> uptype m = DFS_SLAB_UPTYPE_LINEAR -> 0 < sz < 2 ^ 63 ->
  exists r, dfs_slabs_clsid m sz true = Some r /\
    match r with
    | None => first_fit (all_size sz) 0 (slabclass m) = None
    | Some i => (exists z, class_size m i = Some z /\ all_size sz <= z) /\ (min_size m mod 8 = 0 -> first_fit (all_size sz) 0 (slabclass m) = Some i)
    end.
Proof.
  intros HC Hu Hsz. pose proof (cfg_graded m HC) as HG. pose proof (g_len m HC) as Hn. unfold dfs_slabs_clsid. rewrite (proj2 (Z.eqb_neq sz 0)) by lia. cbv zeta.
  destruct (class_size_at m (free_len m - 1) ltac:(lia)) as (km & Hkm & Em), (class_size_at m 0 ltac:(lia)) as (k0 & Hk0 & E0).
  rewrite Em, (option_bind_eq _ _ _ eq_refl), E0, (option_bind_eq _ _ _ eq_refl). destruct (Z.ltb_spec (k_size km) (all_size sz)) as [L1|L1].
  { eexists. split; [done|]. apply first_fit_None. apply Forall_lookup. intros i k Hk. apply lookup_lt_Some in Hk as Hi.
    destruct (decide (i = Z.to_nat (free_len m - 1))) as [->|Hne]; [congruence|]. unfold free_len in *. destruct (HG i (Z.to_nat (Z.of_nat (length (slabclass m)) - 1)) k km ltac:(lia) Hk Hkm); lia. }
  destruct (Z.leb_spec (all_size sz) (k_size k0)) as [L2|L2]. { eexists. split; [done|]. split; [eauto|]. intros _. rewrite (first_fit_at _ 0 _ 0 k0 Hk0 L2); [done|]. intros; lia. }
  destruct (Z.eqb_spec (all_size sz) (k_size km)) as [E|E]. { eexists. split; [done|]. split; [exists (k_size km); split; [done|lia]|]. intros _. rewrite <-E in Em. by rewrite (fit_equal m _ _ _ HG Em E0 L2). }
  rewrite (proj2 (Z.eqb_eq _ _) Hu). destruct (g_type m HC) as [Hp|[_ Hf]]; [rewrite Hp in Hu; done|]. rewrite Hf. unfold DFS_SLAB_LINEAR_FACTOR. cbn [Z.eqb andb].
  pose proof (g_sizes m HC _ _ Hk0) as S0. pose proof (g_sizes m HC _ _ Hkm) as Sm. pose proof (g_top m HC) as Ht. pose proof (g_min m HC) as Hmin.
  rewrite Z2Nat.id in S0, Sm by lia. unfold nth_size in S0, Sm, Ht. rewrite Hu in S0, Sm, Ht. cbn [Z.eqb DFS_SLAB_UPTYPE_POWER DFS_SLAB_UPTYPE_LINEAR Pos.eqb] in S0, Sm, Ht. unfold DFS_SLAB_LINEAR_FACTOR in *.
  assert (Hd1 : min_size m < sz). { destruct (Z.lt_ge_cases (min_size m) sz) as [?|L]; [done|]. pose proof (all_size_mono sz (min_size m) ltac:(lia) ltac:(lia)). rewrite Z.mul_0_l, Z.add_0_r in S0. lia. }
  assert (Hd2 : sz < min_size m + (free_len m - 1) * 1024). { destruct (Z.lt_ge_cases sz (min_size m + (free_len m - 1) * 1024)) as [?|L]; [done|].
    pose proof (all_size_mono (min_size m + (free_len m - 1) * 1024) sz ltac:(lia) ltac:(lia)). lia. }
  replace (u64 (sz - min_size m)) with (sz - min_size m) by (symmetry; apply uwrap_small; unfold in_u; lia).
  set (id := if negb ((sz - min_size m) mod 1024 =? 0) then (sz - min_size m) / 1024 + 1 else (sz - min_size m) / 1024).
  assert (Hid : min_size m + (id - 1) * 1024 < sz <= min_size m + id * 1024).
  { unfold id. pose proof (Z.div_mod (sz - min_size m) 1024 ltac:(lia)). pose proof (Z.mod_pos_bound (sz - min_size m) 1024 ltac:(lia)).
    destruct (Z.eqb_spec ((sz - min_size m) mod 1024) 0); cbn [negb]; lia. }
  eexists. split; [reflexivity|]. destruct (class_size_at m id ltac:(lia)) as (k & Hk & Ek). pose proof (g_sizes m HC _ _ Hk) as Sk. rewrite Z2Nat.id in Sk by lia.
  unfold nth_size in Sk. rewrite Hu in Sk. cbn [Z.eqb DFS_SLAB_UPTYPE_POWER DFS_SLAB_UPTYPE_LINEAR Pos.eqb] in Sk. unfold DFS_SLAB_LINEAR_FACTOR in Sk.
  assert (Lk : all_size sz <= k_size k) by (rewrite Sk; apply all_size_mono; lia). split; [eauto|]. intros H8.
  destruct (class_size_at m (id - 1) ltac:(lia)) as (k' & Hk' & Ek'). apply (fit_here m _ id _ _ HG Ek Lk Ek'). pose proof (g_sizes m HC _ _ Hk') as Sk'. rewrite Z2Nat.id in Sk' by lia.
  unfold nth_size in Sk'. rewrite Hu in Sk'. cbn [Z.eqb DFS_SLAB_UPTYPE_POWER DFS_SLAB_UPTYPE_LINEAR Pos.eqb] in Sk'. unfold DFS_SLAB_LINEAR_FACTOR in Sk'.
  rewrite Sk', !all_size_eq by lia. apply Z.mod_divide in H8 as [q Hq]; [|lia]. set (x := min_size m + (id - 1) * 1024) in *.
  assert (Hx : x = (q + (id - 1) * 128) * 8) by lia. assert ((x + 7) / 8 = q + (id - 1) * 128) by (rewrite Hx; symmetry; apply (Z.div_unique _ _ _ 7); lia).
  assert (q + (id - 1) * 128 + 1 <= (sz + 7) / 8) by (apply Z.div_le_lower_bound; lia). lia.
Qed.

(** C18. The class chosen for a request is the one a linear search finds, the
    first that is large enough, or none when no class is: by binary search for
    classes that double, when there are three or more, and by division for
    classes that grow by a constant, when the smallest size is aligned. *)
Theorem clsid_is_first_fit m sz : cfg m -> (uptype m = DFS_SLAB_UPTYPE_POWER -> 3 <= free_len m) -> (uptype m = DFS_SLAB_UPTYPE_LINEAR -> min_size m mod 8 = 0) ->
  0 < sz < 2 ^ 63 -> dfs_slabs_clsid m sz true = Some (first_fit (all_size sz) 0 (slabclass m)).
Proof.
  intros HC H3 H8 Hsz. destruct (g_type m HC) as [Hp|[Hl _]].
  - apply clsid_power_ok; [by apply cfg_graded|by rewrite Hp|by apply H3|lia].
  - destruct (clsid_linear m sz HC Hl Hsz) as (r & -> & Hr). f_equal. destruct r as [i|]; [|done]. symmetry. by apply Hr, H8.
Qed.

End search.

(** Four classes from 64 bytes on that double. *)
Definition doubling : dfs_slab_manager_t (A := option Shmem.dfs_shmem_t) := Mgr DFS_SLAB_UPTYPE_POWER DFS_SLAB_POWER_FACTOR 64 (Stat 0 0 0 0 0 0 0 0 0) None
  (classes 4 DFS_SLAB_UPTYPE_POWER DFS_SLAB_POWER_FACTOR 64) ∅.

Lemma doubling_cfg : cfg doubling.
Proof.
  constructor; [by vm_compute|done|by left| |by vm_compute]. intros i k Hk. apply lookup_lt_Some in Hk as Hi. cbn in Hi.
  do 4 (destruct i as [|i]; [injection Hk as <-; reflexivity|]). lia.
Qed.

Lemma clsid_is_first_fit_witness : dfs_slabs_clsid doubling 200 true = Some (Some 2).
Proof. apply (clsid_is_first_fit doubling 200 doubling_cfg); [by vm_compute|done|lia]. Defined.

End SlabsOk.
