(* ===== verification/SlabsProps.v ===== *)
(** * Slabs: the invariant, the operations and the theorems

    Everything is proved for any allocator that keeps the laws of the
    interface; the examples run over the allocator on shared memory. *)

From Stdlib Require Import ZArith Lia Bool.
From stdpp Require Import base numbers gmap option list.
From S2P Require Import Prelude DfsMath MemAllocator Shmem ShmemOk ShmemLaws Slabs SlabsOk.
Import MemAllocator Slabs SlabsOk.

Module SlabsProps.

Section ops.

Context {A : Type} `{HL : AllocatorLaws A}.

Implicit Types m : dfs_slab_manager_t (A := A).

(** A chunk in a free list, and a chunk handed out, with its usable size. *)
Definition listed m (c : Z) : Prop := exists i k, slabclass m !! i = Some k /\ c ∈ free_list k.
Definition handed m (c sz : Z) : Prop := exists h, chunks m !! c = Some h /\ c_size h = sz /\ ~ listed m c.

(** The class of a chunk, or the mark of a split one. *)
Definition id_ok m (h : chunk_link_t) : Prop :=
  c_id h = DFS_SLAB_SPLIT_ID \/ 0 <= c_id h /\ exists k, slabclass m !! Z.to_nat (c_id h) = Some k /\ c_size h = k_size k - DFS_SLAB_CHUNK_SIZE.

Record ok m : Prop := {
  o_cfg : cfg m;
  o_alloc : a_ok (allocator m);
  o_chunk : forall c h, chunks m !! c = Some h -> 0 <= c_size h /\ exists n, (c, n) ∈ a_live (allocator m) /\ c_size h + DFS_SLAB_CHUNK_SIZE <= n;
  o_id : forall c h, chunks m !! c = Some h -> id_ok m h;
  o_nodup : forall i k, slabclass m !! i = Some k -> NoDup (free_list k);
  o_list : forall i k c, slabclass m !! i = Some k -> c ∈ free_list k -> exists h, chunks m !! c = Some h /\ c_id h = Z.of_nat i;
  o_count : chunk_count (slab_stat m) = u64 (Z.of_nat (size (chunks m))) }.

(** Operations leave the classes and their sizes as they are. *)
Definition like m m' : Prop := (k_size <$> slabclass m') = (k_size <$> slabclass m) /\ uptype m' = uptype m /\ factor m' = factor m /\ min_size m' = min_size m.

#[global] Instance like_preorder : PreOrder like.
Proof. split; [done|]. intros x y z (? & ? & ? & ?) (? & ? & ? & ?). unfold like. split_and!; congruence. Qed.

Lemma like_len m m' : like m m' -> length (slabclass m') = length (slabclass m).
Proof. intros (H & _). apply (f_equal length) in H. by rewrite !length_fmap in H. Qed.

Lemma like_lookup m m' i k : like m m' -> slabclass m !! i = Some k -> exists k', slabclass m' !! i = Some k' /\ k_size k' = k_size k.
Proof.
  intros (H & _) Hk. assert (E : (k_size <$> slabclass m') !! i = Some (k_size k)) by (rewrite H, list_lookup_fmap, Hk; done).
  rewrite list_lookup_fmap in E. destruct (slabclass m' !! i) as [k'|]; [|done]. injection E as E. eauto.
Qed.

Lemma like_sym m m' : like m m' -> like m' m.
Proof. intros (? & ? & ? & ?). done. Qed.

Lemma like_cfg m m' : like m m' -> cfg m -> cfg m'.
Proof.
  intros HK HC. pose proof (like_len m m' HK) as EL. pose proof (like_lookup m' m) as HX. destruct (HK) as (H1 & H2 & H3 & H4).
  assert (EN : forall i, nth_size m' i = nth_size m i) by (intros i; unfold nth_size; by rewrite H2, H4).
  destruct HC as [C1 C2 C3 C4 C5]. unfold free_len in *. constructor; unfold free_len; rewrite ?EL, ?EN, ?H2, ?H3, ?H4; try done.
  intros i k Hk. destruct (HX i k (like_sym _ _ HK) Hk) as (k' & Hk' & <-). rewrite EN. by apply C4.
Qed.

Lemma k_range m i k : ok m -> slabclass m !! i = Some k -> 0 <= k_size k - DFS_SLAB_CHUNK_SIZE /\ k_size k < 2 ^ 63.
Proof.
  intros HO Hk. apply lookup_lt_Some in Hk as Hl. pose proof (o_cfg m HO) as HC. rewrite (g_sizes m HC _ _ Hk). pose proof (g_min m HC).
  pose proof (nth_range m (Z.of_nat i) HC ltac:(unfold free_len; lia)). pose proof (all_size_ge (nth_size m (Z.of_nat i)) ltac:(lia)). unfold DFS_SLAB_CHUNK_SIZE. lia.
Qed.

(** ** Free lists *)

Section change.

(** The list of the class [i] becomes [l]. *)
Context (m : dfs_slab_manager_t (A := A)) (HO : ok m) (i : nat) (k : slabclass_t) (l : list Z) (Hk : slabclass m !! i = Some k).

Let m' := set_class m (<[i := Class_ (k_size k) l]> (slabclass m)).

Lemma change_like : like m m'.
Proof using Hk.
  split; [|done]. cbn [m' set_class slabclass]. rewrite list_fmap_insert. cbn. apply list_insert_id. by rewrite list_lookup_fmap, Hk.
Qed.

Lemma change_listed c : listed m' c <-> c ∈ l \/ exists j x, j <> i /\ slabclass m !! j = Some x /\ c ∈ free_list x.
Proof using Hk.
  apply lookup_lt_Some in Hk as Hl. unfold listed. cbn [m' set_class slabclass]. split.
  - intros (j & x & Hx & Hc). destruct (decide (j = i)) as [->|Hj].
    + rewrite list_lookup_insert_eq in Hx by done. injection Hx as <-. by left.
    + rewrite list_lookup_insert_ne in Hx by done. right. eauto.
  - intros [Hc|(j & x & Hj & Hx & Hc)].
    + exists i. eexists. by rewrite list_lookup_insert_eq.
    + exists j, x. by rewrite list_lookup_insert_ne.
Qed.

Lemma other_class j x c : j <> i -> slabclass m !! j = Some x -> c ∈ free_list x -> c ∉ free_list k.
Proof using HO Hk.
  intros Hj Hx Hc Hc'. destruct (o_list m HO _ _ _ Hx Hc) as (h & Hh & E), (o_list m HO _ _ _ Hk Hc') as (h' & Hh' & E'). rewrite Hh in Hh'. injection Hh' as <-. lia.
Qed.

End change.

Lemma ok_stat m s : ok m -> chunk_count s = chunk_count (slab_stat m) -> ok (set_stat m s).
Proof. intros [C1 C2 C3 C4 C5 C6 C7] E. constructor; cbn; try done; [|by rewrite E]. by apply (like_cfg m). Qed.

Lemma ok_set_alloc m al : ok m -> a_ok al -> (forall b, b ∈ a_live (allocator m) -> b ∈ a_live al) -> ok (set_alloc m al).
Proof.
  intros [C1 C2 C3 C4 C5 C6 C7] HA Hl. constructor; cbn; try done; [by apply (like_cfg m)|]. intros c h Hh. destruct (C3 c h Hh) as (H1 & n & H2 & H3). eauto.
Qed.

(** A block of the allocator that is new has no header yet. *)
Lemma fresh_chunk m p sz l : ok m -> apart l -> l ≡ₚ (p, sz) :: a_live (allocator m) -> chunks m !! p = None.
Proof.
  intros HO HA HP. destruct (chunks m !! p) as [h|] eqn:E; [|done]. destruct (o_chunk m HO p h E) as (_ & n & Hn & _).
  apply (apart_perm _ _ HP), apart_cons in HA as [_ HA]. destruct (HA _ Hn) as [Hne _]. done.
Qed.

Lemma id_ok_like m m' h : like m m' -> id_ok m h -> id_ok m' h.
Proof.
  intros HK [?|(H0 & k & Hk & E)]; [by left|right]. split; [done|]. destruct (like_lookup m m' _ _ HK Hk) as (k' & Hk' & Ek). exists k'. split; [done|]. by rewrite Ek.
Qed.

Lemma ok_new m p n h s : ok m -> chunks m !! p = None -> (p, n) ∈ a_live (allocator m) -> 0 <= c_size h -> c_size h + DFS_SLAB_CHUNK_SIZE <= n -> id_ok m h ->
  chunk_count s = u64 (chunk_count (slab_stat m) + 1) -> let m' := set_chunks (set_stat m s) (<[p := h]> (chunks m)) in
  ok m' /\ like m m' /\ free_count m' = free_count m /\ forall c sz, handed m' c sz <-> handed m c sz \/ c = p /\ sz = c_size h.
Proof.
  intros HO Hp Hn H0 Hs Hi Es m'. assert (HK : like m m') by done. assert (Hun : ~ listed m p).
  { intros (i & k & Hk & Hc). destruct (o_list m HO _ _ _ Hk Hc) as (x & Hx & _). congruence. }
  destruct HO as [C1 C2 C3 C4 C5 C6 C7]. split; [|split; [done|split; [done|]]].
  - constructor; cbn; try done.
    + by apply (like_cfg m).
    + intros c x. rewrite lookup_insert_Some. intros [[<- <-]|[_ Hx]]; [eauto|by apply C3].
    + intros c x. rewrite lookup_insert_Some. intros [[<- <-]|[_ Hx]]; [by apply (id_ok_like m)|by apply (id_ok_like m), (C4 c)].
    + intros i k c Hk Hc. destruct (C6 _ _ _ Hk Hc) as (x & Hx & E). exists x. rewrite lookup_insert_ne; [done|]. intros ->. congruence.
    + rewrite Es, C7, map_size_insert_None by done. unfold u64 at 1. rewrite u64_add_l. unfold u64. f_equal. lia.
  - intros c sz. unfold handed. cbn [m' chunks set_chunks]. change (listed m' c) with (listed m c). destruct (decide (c = p)) as [->|Hc].
    + rewrite lookup_insert_eq. split; [intros (x & [= <-] & <- & _); by right|]. intros [(x & Hx & _)|[_ ->]]; [congruence|eauto].
    + rewrite lookup_insert_ne by done. split; [by left|]. intros [?|[? _]]; done.
Qed.

(** The request is written to the header of a chunk. *)
Lemma ok_mark m c h r s : ok m -> chunks m !! c = Some h -> chunk_count s = chunk_count (slab_stat m) ->
  let m' := set_stat (set_chunks m (<[c := Chunk (c_size h) r (c_id h)]> (chunks m))) s in
  ok m' /\ like m m' /\ free_count m' = free_count m /\ forall x sz, handed m' x sz <-> handed m x sz.
Proof.
  intros HO Hh Es m'. destruct HO as [C1 C2 C3 C4 C5 C6 C7]. split; [|split; [done|split; [done|]]].
  - constructor; cbn; try done.
    + by apply (like_cfg m).
    + intros x y. rewrite lookup_insert_Some. intros [[<- <-]|[_ Hy]]; [exact (C3 _ _ Hh)|by apply C3].
    + intros x y. rewrite lookup_insert_Some. intros [[<- <-]|[_ Hy]]; [exact (C4 _ _ Hh)|by apply (C4 x)].
    + intros i k x Hk Hx. destruct (C6 _ _ _ Hk Hx) as (y & Hy & E). destruct (decide (x = c)) as [->|Hne]; [|exists y; by rewrite lookup_insert_ne].
      eexists. rewrite lookup_insert_eq. split; [done|]. cbn. congruence.
    + rewrite Es, C7, map_size_insert_Some by eauto. done.
  - intros x sz. unfold handed. cbn [m' chunks set_chunks set_stat]. change (listed m' x) with (listed m x). destruct (decide (x = c)) as [->|Hne]; [|by rewrite lookup_insert_ne].
    rewrite lookup_insert_eq, Hh. split; intros (y & [= <-] & <- & Hn); eauto.
Qed.

(** The first chunk of a list leaves it, and a chunk enters one. *)
Lemma ok_pop m i k c l h s : ok m -> slabclass m !! i = Some k -> free_list k = c :: l -> chunks m !! c = Some h -> chunk_count s = chunk_count (slab_stat m) ->
  let m' := set_stat (set_class m (<[i := Class_ (k_size k) l]> (slabclass m))) s in
  ok m' /\ like m m' /\ (forall x, listed m' x <-> listed m x /\ x <> c) /\ forall x sz, handed m' x sz <-> handed m x sz \/ x = c /\ sz = c_size h.
Proof.
  intros HO Hk Hf Hh Es m'. pose proof (change_like m i k l Hk) as HK. pose proof (o_nodup m HO _ _ Hk) as HN. rewrite Hf in HN. apply NoDup_cons in HN as [Hc HN].
  apply lookup_lt_Some in Hk as Hl.
  assert (HLi : forall x, listed m' x <-> listed m x /\ x <> c).
  { intros x. change (listed m' x) with (listed (set_class m (<[i := Class_ (k_size k) l]> (slabclass m))) x). rewrite (change_listed m i k l Hk). split.
    - intros [Hx|(j & y & Hj & Hy & Hx)].
      + split; [exists i, k; rewrite Hf; split; [done|by right]|]. by intros ->.
      + split; [by exists j, y|]. intros ->. apply (other_class m HO i k Hk j y c Hj Hy Hx). rewrite Hf. by left.
    - intros [(j & y & Hy & Hx) Hne]. destruct (decide (j = i)) as [->|Hj]; [|right; eauto]. rewrite Hk in Hy. injection Hy as <-. rewrite Hf in Hx. apply elem_of_cons in Hx as [?|?]; [done|by left]. }
  assert (Hlc : listed m c) by (exists i, k; rewrite Hf; split; [done|by left]).
  split; [|split; [done|split; [done|]]].
  - destruct HO as [C1 C2 C3 C4 C5 C6 C7]. constructor; cbn; try done.
    + by apply (like_cfg m).
    + intros x y Hy. apply (id_ok_like m); [done|by apply (C4 x)].
    + intros j y. destruct (decide (j = i)) as [->|Hj]; [rewrite list_lookup_insert_eq by done; by intros [= <-]|rewrite list_lookup_insert_ne by done; apply C5].
    + intros j y x. destruct (decide (j = i)) as [->|Hj]; [|rewrite list_lookup_insert_ne by done; apply C6]. rewrite list_lookup_insert_eq by done. intros [= <-] Hx.
      apply (C6 i k x Hk). rewrite Hf. by right.
    + by rewrite Es.
  - intros x sz. unfold handed. cbn [m' chunks set_class set_stat]. setoid_rewrite HLi. destruct (decide (x = c)) as [->|Hne].
    + rewrite Hh. split; [intros (y & [= <-] & <- & _); by right|]. intros [(y & _ & _ & Hn)|[_ ->]]; [done|]. exists h. split; [done|]. split; [done|]. by intros [_ ?].
    + split; [intros (y & Hy & E & Hn); left; exists y; split; [done|]; split; [done|]; tauto|]. intros [(y & Hy & E & Hn)|[? _]]; [|done]. exists y. tauto.
Qed.

Lemma ok_push m i k c h s : ok m -> slabclass m !! i = Some k -> chunks m !! c = Some h -> c_id h = Z.of_nat i -> ~ listed m c -> chunk_count s = chunk_count (slab_stat m) ->
  let m' := set_stat (set_class m (<[i := Class_ (k_size k) (c :: free_list k)]> (slabclass m))) s in
  ok m' /\ like m m' /\ (forall x, listed m' x <-> listed m x \/ x = c) /\ forall x sz, handed m' x sz <-> handed m x sz /\ x <> c.
Proof.
  intros HO Hk Hh Hid Hn Es m'. pose proof (change_like m i k (c :: free_list k) Hk) as HK. apply lookup_lt_Some in Hk as Hl.
  assert (HLi : forall x, listed m' x <-> listed m x \/ x = c).
  { intros x. change (listed m' x) with (listed (set_class m (<[i := Class_ (k_size k) (c :: free_list k)]> (slabclass m))) x). rewrite (change_listed m i k _ Hk). split.
    - intros [Hx|(j & y & Hj & Hy & Hx)]; [|left; by exists j, y]. apply elem_of_cons in Hx as [->|Hx]; [by right|left; by exists i, k].
    - intros [(j & y & Hy & Hx)| ->]; [|left; by left]. destruct (decide (j = i)) as [->|Hj]; [|right; eauto]. rewrite Hk in Hy. injection Hy as <-. left. by right. }
  split; [|split; [done|split; [done|]]].
  - destruct HO as [C1 C2 C3 C4 C5 C6 C7]. constructor; cbn; try done.
    + by apply (like_cfg m).
    + intros x y Hy. apply (id_ok_like m); [done|by apply (C4 x)].
    + intros j y. destruct (decide (j = i)) as [->|Hj]; [rewrite list_lookup_insert_eq by done|rewrite list_lookup_insert_ne by done; apply C5].
      intros [= <-]. cbn. constructor; [|by eapply C5]. intros Hc. apply Hn. by exists i, k.
    + intros j y x. destruct (decide (j = i)) as [->|Hj]; [|rewrite list_lookup_insert_ne by done; apply C6]. rewrite list_lookup_insert_eq by done. intros [= <-] Hx.
      cbn in Hx. apply elem_of_cons in Hx as [->|Hx]; [eauto|by apply (C6 i k x Hk)].
    + by rewrite Es.
  - intros x sz. unfold handed. cbn [m' chunks set_class set_stat]. setoid_rewrite HLi. naive_solver.
Qed.

(** A chunk that is handed out or listed nowhere goes back to the allocator. *)
Lemma ok_drop m c h al n s : ok m -> chunks m !! c = Some h -> ~ listed m c -> a_ok al -> a_live (allocator m) ≡ₚ (c, n) :: a_live al ->
  chunk_count s = u64 (chunk_count (slab_stat m) + -1) -> let m' := set_chunks (set_alloc (set_stat m s) al) (delete c (chunks m)) in
  ok m' /\ like m m' /\ free_count m' = free_count m /\ forall x sz, handed m' x sz <-> handed m x sz /\ x <> c.
Proof.
  intros HO Hh Hn HA HP Es m'. destruct HO as [C1 C2 C3 C4 C5 C6 C7]. split; [|split; [done|split; [done|]]].
  - constructor; cbn; try done.
    + by apply (like_cfg m).
    + intros x y. rewrite lookup_delete_Some. intros [Hne Hy]. destruct (C3 x y Hy) as (H0 & z & Hz & Hs). split; [done|]. exists z. split; [|done].
      rewrite HP in Hz. apply elem_of_cons in Hz as [[= -> _]|Hz]; [done|done].
    + intros x y. rewrite lookup_delete_Some. intros [_ Hy]. apply (id_ok_like m); [done|by apply (C4 x)].
    + intros i k x Hk Hx. destruct (C6 _ _ _ Hk Hx) as (y & Hy & E). exists y. rewrite lookup_delete_ne; [done|]. intros ->. apply Hn. by exists i, k.
    + rewrite Es, C7, map_size_delete_Some by eauto. rewrite u64_add_l. f_equal. assert (size (chunks m) <> 0%nat); [|lia]. intros E. apply map_size_empty_inv in E. by rewrite E in Hh.
  - intros x sz. unfold handed. cbn [m' chunks set_chunks]. change (listed m' x) with (listed m x). setoid_rewrite lookup_delete_Some. naive_solver.
Qed.

(** ** Recovery *)

(** Chunks go from free lists to the allocator, nothing else changes. *)
Definition shrunk m m' : Prop := ok m' /\ like m m' /\ (free_count m' <= free_count m)%nat /\ forall c sz, handed m' c sz <-> handed m c sz.

Lemma shrunk_trans m1 m2 m3 : shrunk m1 m2 -> shrunk m2 m3 -> shrunk m1 m3.
Proof.
  intros (_ & K1 & F1 & H1) (O2 & K2 & F2 & H2). split; [done|]. split; [by etrans|]. split; [lia|]. intros c sz. by rewrite H2, H1.
Qed.

Lemma shrunk_stat m s : ok m -> chunk_count s = chunk_count (slab_stat m) -> shrunk m (set_stat m s).
Proof. intros HO E. split; [by apply ok_stat|]. done. Qed.

Lemma sum_insert (f : slabclass_t -> nat) l i k x : l !! i = Some k -> (sum_list_with f (<[i := x]> l) + f k = sum_list_with f l + f x)%nat.
Proof.
  revert i. induction l as [|y l IH]; intros [|i] Hk; [done..| |].
  - injection Hk as ->. cbn. lia.
  - change (<[S i := x]> (y :: l)) with (y :: <[i := x]> l). cbn [sum_list_with]. specialize (IH i Hk). lia.
Qed.

Lemma count_stays m : ok m -> u64 (chunk_count (slab_stat m) + 0) = chunk_count (slab_stat m).
Proof. intros HO. rewrite Z.add_0_r, (o_count m HO). unfold u64, uwrap. by rewrite Z.mod_mod. Qed.

Lemma give_back_ok m i : ok m -> has_free m i = true -> exists m' k, slabclass m !! i = Some k /\ give_back m i = Some m' /\ shrunk m m' /\ (free_count m' < free_count m)%nat.
Proof.
  intros HO Hf. unfold has_free in Hf. destruct (slabclass m !! i) as [k|] eqn:Hk; [|done]. destruct k as [ks [|c l]] eqn:Ek; [done|]. rewrite <-Ek in *.
  assert (Efl : free_list k = c :: l) by (by rewrite Ek). destruct (o_list m HO i k c Hk) as (h & Hh & Hid); [rewrite Efl; by left|].
  destruct (o_chunk m HO c h Hh) as (H0 & n & Hn & Hs). destruct (a_free_ok (allocator m) c n (o_alloc m HO) Hn) as (al & Ea & HA & HP).
  destruct (ok_pop m i k c l h (slab_stat m) HO Hk Efl Hh eq_refl) as (O1 & K1 & L1 & H1). set (m1 := set_stat _ _) in *.
  destruct (ok_drop m1 c h al n (stat_add (slab_stat m) 0 0 (- (k_size k - DFS_SLAB_CHUNK_SIZE)) (-1)) O1 Hh) as (O2 & K2 & F2 & H2); [rewrite L1; tauto|done|exact HP|done|].
  eexists _, k. split; [done|]. split; [unfold give_back; rewrite Hk, (option_bind_eq _ _ _ eq_refl), Efl, (option_bind_eq _ _ _ Ea); reflexivity|].
  assert (HF : (free_count m1 < free_count m)%nat).
  { unfold free_count. cbn [m1 set_stat set_class slabclass]. pose proof (sum_insert (fun k => length (free_list k)) (slabclass m) i k (Class_ (k_size k) l) Hk) as S. cbv beta in S. rewrite Efl in S. cbn [free_list length] in S. lia. }
  split; [|unfold free_count in *; exact HF]. split; [exact O2|]. split; [exact K1|]. split; [unfold free_count in *; cbn in *; lia|].
  intros x sz. etransitivity; [exact (H2 x sz)|]. rewrite H1. split; [tauto|]. intros Hx. split; [by left|]. intros ->. destruct Hx as (y & _ & _ & Hx). apply Hx. exists i, k. rewrite Efl. split; [done|by left].
Qed.

Lemma recover_up_ok n m i : ok m -> exists r, recover_up m i n = Some r /\ match r with Some m' => shrunk m m' /\ (free_count m' < free_count m)%nat | None => True end.
Proof.
  revert i. induction n as [|n IH]; intros i HO; cbn [recover_up]; [by eexists|]. destruct (has_free m i) eqn:Hf; [|by apply IH].
  destruct (give_back_ok m i HO Hf) as (m' & k & _ & -> & HS & HF). by eexists.
Qed.

Lemma drain_class_ok fuel m i cs sz : ok m -> (free_count m < fuel)%nat -> exists d sz' m', drain fuel m i cs sz = Some (d, sz', m') /\ shrunk m m' /\
  (has_free m i = true -> (free_count m' < free_count m)%nat) /\ (d = true -> (free_count m' < free_count m)%nat).
Proof.
  revert m sz. induction fuel as [|fuel IH]; intros m sz HO HF; [lia|]. cbn [drain]. destruct (has_free m i) eqn:Hf; [|by exists false, sz, m].
  destruct (give_back_ok m i HO Hf) as (m1 & k & Hk & E1 & S1 & F1). rewrite (option_bind_eq _ _ _ Hk), (option_bind_eq _ _ _ E1). cbv zeta.
  destruct (_ <=? _); [by exists true, (u64 (sz + k_size k)), m1|]. destruct (IH m1 (u64 (sz + k_size k)) (proj1 S1) ltac:(lia)) as (d & sz' & m' & E & S2 & _).
  exists d, sz', m'. pose proof S2 as (_ & _ & F2 & _). split; [done|]. split; [by eapply shrunk_trans|]. split; intros; lia.
Qed.

Lemma recover_down_ok i m cs sz flag : ok m -> exists d f m', recover_down m i cs sz flag = Some (d, f, m') /\ shrunk m m' /\
  (d || f = true -> flag = false -> (free_count m' < free_count m)%nat).
Proof.
  revert m sz flag. induction i as [|i IH]; intros m sz flag HO; cbn [recover_down]; [exists false, flag, m; split; [done|]; split; [by split|]; intros; by subst|].
  destruct (drain_class_ok (S (free_count m)) m i cs sz HO ltac:(lia)) as (d & sz1 & m1 & E1 & S1 & F1 & F1'). rewrite (option_bind_eq _ _ _ E1). destruct d.
  - exists true, (flag || has_free m i), m1. split; [done|]. split; [done|]. intros _ _. by apply F1'.
  - destruct (IH m1 sz1 (flag || has_free m i) (proj1 S1)) as (d & f & m' & E2 & S2 & F2). exists d, f, m'. split; [done|]. split; [by eapply shrunk_trans|].
    intros Hd ->. pose proof S2 as (_ & _ & F3 & _). destruct S1 as (_ & _ & F4 & _). destruct (has_free m i); [specialize (F1 eq_refl); lia|]. specialize (F2 Hd eq_refl). lia.
Qed.

Lemma recover_ok m cs id : ok m -> exists r m', dfs_slabs_recover m cs id = Some (r, m') /\ shrunk m m' /\ (r = true -> (free_count m' < free_count m)%nat).
Proof.
  intros HO. unfold dfs_slabs_recover. set (m0 := set_stat m _). assert (S0 : shrunk m m0) by (by apply shrunk_stat). cbv zeta.
  destruct (recover_up_ok (length (slabclass m0) - S id) m0 (S id) (proj1 S0)) as (u & Eu & Hu). rewrite (option_bind_eq _ _ _ Eu). change (free_count m) with (free_count m0). destruct u as [m1|].
  - destruct Hu as [S1 F1]. exists true, m1. split; [done|]. split; [exact (shrunk_trans _ _ _ S0 S1)|done].
  - destruct (recover_down_ok id m0 cs 0 false (proj1 S0)) as (d & f & m1 & E1 & S1 & F1). rewrite (option_bind_eq _ _ _ E1). destruct d.
    + exists true, m1. split; [done|]. split; [exact (shrunk_trans _ _ _ S0 S1)|]. intros _. by apply F1.
    + eexists _, _. split; [reflexivity|]. assert (S2 : shrunk m1 (set_stat m1 (stat_fail (slab_stat m1) 0 0 1 0))) by (apply shrunk_stat; [apply S1|done]).
      split; [exact (shrunk_trans _ _ _ (shrunk_trans _ _ _ S0 S1) S2)|]. intros ->. by apply F1.
Qed.

(** ** A chunk of a class *)

(** The allocator has given [p], of at least [sz] bytes, or nothing. *)
Lemma grab m sz : ok m -> 0 < sz < 2 ^ 64 -> exists p al, a_alloc (allocator m) sz = Some (p, al) /\ let m' := set_alloc m al in
  ok m' /\ like m m' /\ free_count m' = free_count m /\ (forall c z, handed m' c z <-> handed m c z) /\
  (p = 0 \/ 0 < p /\ chunks m' !! p = None /\ exists n, sz <= n /\ (p, n) ∈ a_live al).
Proof.
  intros HO Hsz. destruct (a_alloc_ok (allocator m) sz (o_alloc m HO) Hsz) as (p & al & E & HA & H). exists p, al. split; [done|]. cbv zeta.
  assert (O' : ok (set_alloc m al)). { apply ok_set_alloc; [done|done|]. intros b Hb. destruct H as [[_ ->]|(n & _ & ->)]; [done|by right]. }
  split; [done|]. split; [done|]. split; [done|]. split; [done|]. destruct H as [[-> _]|(n & Hn & HP)]; [by left|right].
  assert (Hin : (p, n) ∈ a_live al) by (rewrite HP; by left). destruct (a_range al p n HA Hin) as [Hp _]. split; [done|]. split; [|eauto].
  apply (fresh_chunk m p n (a_live al) HO (a_apart al HA) HP).
Qed.

Lemma alloc_loop_ok fuel m cs id : ok m -> 0 < cs < 2 ^ 64 -> (free_count m < fuel)%nat -> exists p m', alloc_loop fuel m cs id = Some (p, m') /\ ok m' /\ like m m' /\
  (forall c z, handed m' c z <-> handed m c z) /\ (p = 0 \/ 0 < p /\ chunks m' !! p = None /\ exists n, cs <= n /\ (p, n) ∈ a_live (allocator m')).
Proof.
  intros HO Hcs. revert m HO. induction fuel as [|fuel IH]; intros m HO HF; [lia|]. cbn [alloc_loop].
  destruct (recover_ok m cs id HO) as (r & m1 & E1 & (O1 & K1 & F1 & H1) & F1'). rewrite (option_bind_eq _ _ _ E1). destruct r; cbn [negb]; [specialize (F1' eq_refl)|].
  - destruct (grab m1 cs O1 Hcs) as (p & al & E2 & O2 & K2 & F2 & H2 & Hp). rewrite (option_bind_eq _ _ _ E2). cbv zeta. destruct (Z.eqb_spec p 0) as [->|Hp0].
    + destruct (IH (set_alloc m1 al) O2 ltac:(lia)) as (q & m' & E3 & O3 & K3 & H3 & Hq). exists q, m'. split; [done|]. split; [done|].
      split; [by etrans; [|etrans]|]. split; [|done]. intros c z. by rewrite H3, H2, H1.
    + destruct Hp as [?|Hp]; [done|]. exists p, (set_alloc m1 al). split; [done|]. split; [done|]. split; [by etrans|]. split; [intros c z; by rewrite H2, H1|by right].
  - exists 0, m1. split; [done|]. split; [done|]. split; [done|]. split; [done|by left].
Qed.

Lemma take_chunk_ok m id k : ok m -> 0 <= id -> slabclass m !! Z.to_nat id = Some k -> exists e c m', take_chunk m id k = Some (e, c, m') /\ ok m' /\ like m m' /\
  (c = 0 /\ (forall x z, handed m' x z <-> handed m x z) \/
   0 < c /\ (exists h, chunks m' !! c = Some h /\ c_id h = id /\ c_size h = k_size k - DFS_SLAB_CHUNK_SIZE) /\ (forall z, ~ handed m c z) /\
   forall x z, handed m' x z <-> handed m x z \/ x = c /\ z = k_size k - DFS_SLAB_CHUNK_SIZE).
Proof.
  intros HO Hid Hk. unfold take_chunk. destruct (k_range m _ k HO Hk) as [Hk0 Hk1]. destruct (free_list k) as [|c l] eqn:Ef.
  - destruct (grab m (k_size k) HO) as (p & al & E1 & O1 & K1 & F1 & H1 & Hp); [unfold DFS_SLAB_CHUNK_SIZE in *; lia|]. rewrite (option_bind_eq _ _ _ E1). cbv zeta. set (m1 := set_alloc m al) in *.
    assert (H2 : exists e q m2, (if p =? 0 then '(p, m) ← alloc_loop (S (free_count m1)) m1 (k_size k) (Z.to_nat id); Some (ALLOCATOR_ERROR, p, m) else Some (SLAB_NONE, p, m1)) = Some (e, q, m2) /\
      ok m2 /\ like m m2 /\ (forall c z, handed m2 c z <-> handed m c z) /\ (q = 0 \/ 0 < q /\ chunks m2 !! q = None /\ exists n, k_size k <= n /\ (q, n) ∈ a_live (allocator m2))).
    { destruct (Z.eqb_spec p 0) as [->|Hp0].
      - destruct (alloc_loop_ok (S (free_count m1)) m1 (k_size k) (Z.to_nat id) O1) as (q & m2 & E2 & O2 & K2 & H2 & Hq); [unfold DFS_SLAB_CHUNK_SIZE in *; lia|lia|].
        rewrite (option_bind_eq _ _ _ E2). do 3 eexists. split; [reflexivity|]. split; [done|]. split; [by etrans|]. split; [intros c z; by rewrite H2, H1|done].
      - do 3 eexists. split; [reflexivity|]. split; [done|]. split; [done|]. split; [done|done]. }
    destruct H2 as (e & q & m2 & E2 & O2 & K2 & H2 & Hq). rewrite (option_bind_eq _ _ _ E2). destruct (Z.eqb_spec q 0) as [->|Hq0].
    { exists e, 0, m2. split; [done|]. split; [done|]. split; [done|]. by left. }
    destruct Hq as [?|(Hqp & Hqn & n & Hn & Hql)]; [done|]. replace (u64 (k_size k - DFS_SLAB_CHUNK_SIZE)) with (k_size k - DFS_SLAB_CHUNK_SIZE) by (symmetry; apply uwrap_small; unfold in_u, DFS_SLAB_CHUNK_SIZE in *; lia).
    set (h := Chunk (k_size k - DFS_SLAB_CHUNK_SIZE) 0 id). destruct (like_lookup m m2 _ _ K2 Hk) as (k2 & Hk2 & Ek2).
    destruct (ok_new m2 q n h (stat_add (slab_stat m2) 0 0 0 1) O2 Hqn Hql) as (O3 & K3 & F3 & H3); [cbn; lia|cbn; lia|right; split; [done|]; exists k2; split; [done|]; by rewrite Ek2|done|].
    do 3 eexists. split; [reflexivity|]. split; [exact O3|]. split; [etrans; [exact K2|exact K3]|]. right. split; [done|]. split; [exists h; cbn; by rewrite lookup_insert_eq|].
    split; [|intros x z; rewrite H3, H2; done]. intros z Hz. apply H2 in Hz as (y & Hy & _). congruence.
  - destruct (o_list m HO _ _ c Hk) as (h & Hh & Ei); [rewrite Ef; by left|]. rewrite Hh, (option_bind_eq _ _ _ eq_refl).
    assert (Hs : c_size h = k_size k - DFS_SLAB_CHUNK_SIZE).
    { destruct (o_id m HO c h Hh) as [E|(_ & k' & Hk' & ->)]; [unfold DFS_SLAB_SPLIT_ID in E; lia|]. rewrite Ei, Nat2Z.id in Hk'. by rewrite Hk in Hk'; injection Hk' as <-. }
    destruct (ok_pop m _ k c l h (stat_add (slab_stat m) 0 0 (- c_size h) 0) HO Hk Ef Hh) as (O1 & K1 & L1 & H1); [cbn; by apply count_stays|].
    do 3 eexists. split; [reflexivity|]. split; [exact O1|]. split; [exact K1|]. right. destruct (o_chunk m HO c h Hh) as (_ & n & Hn & _). destruct (a_range _ c n (o_alloc m HO) Hn) as [Hc _].
    split; [done|]. split; [exists h; split; [exact Hh|]; split; [lia|done]|]. split; [|intros x z; rewrite H1, Hs; done].
    intros z (y & _ & _ & Hno). apply Hno. exists (Z.to_nat id), k. rewrite Ef. split; [done|by left].
Qed.

(** ** Allocation and release *)

Lemma first_fit_inv all i l j : first_fit all i l = Some j -> exists n k, j = i + Z.of_nat n /\ l !! n = Some k /\ all <= k_size k.
Proof.
  revert i. induction l as [|x l IH]; intros i; cbn [first_fit]; [done|]. destruct (Z.leb_spec all (k_size x)) as [L|L].
  - intros [= <-]. exists 0%nat, x. split; [lia|done].
  - intros H. destruct (IH _ H) as (n & k & -> & Hk & Hs). exists (S n), k. split; [lia|done].
Qed.

Lemma clsid_total m sz : cfg m -> 0 < sz < 2 ^ 63 -> exists r, dfs_slabs_clsid m sz true = Some r /\
  match r with Some i => 0 <= i /\ exists k, slabclass m !! Z.to_nat i = Some k /\ all_size sz <= k_size k | None => True end.
Proof.
  intros HC Hsz. pose proof (g_len m HC) as Hn. destruct (g_type m HC) as [Hp|[Hl _]].
  - destruct (decide (3 <= free_len m)) as [H3|H3].
    + rewrite (clsid_power_ok m sz true (cfg_graded m HC)) by (rewrite ?Hp; done || lia). eexists. split; [done|]. destruct (first_fit _ _ _) as [i|] eqn:E; [|done].
      apply first_fit_inv in E as (n & k & -> & Hk & Hs). split; [lia|]. exists k. by rewrite Z.add_0_l, Nat2Z.id.
    + assert (En : free_len m = 2) by lia. unfold free_len in En. destruct (slabclass m) as [|k0 [|k1 [|? ?]]] eqn:Ek; cbn [length] in En; try lia.
      destruct (Z.lt_ge_cases (k_size k0) (all_size sz)) as [L0|L0]; [destruct (Z.lt_ge_cases (all_size sz) (k_size k1)) as [L1|L1]|].
      * rewrite (clsid_two m sz true k0 k1); [by eexists|by rewrite Hp|done|lia|lia].
      * assert (E1 : class_size m (free_len m - 1) = Some (k_size k1)) by (unfold class_size, free_len; by rewrite Ek). assert (E0 : class_size m 0 = Some (k_size k0)) by (unfold class_size; by rewrite Ek).
        unfold dfs_slabs_clsid. rewrite (proj2 (Z.eqb_neq sz 0)) by lia. cbv zeta. rewrite E1, (option_bind_eq _ _ _ eq_refl), E0, (option_bind_eq _ _ _ eq_refl).
        destruct (Z.ltb_spec (k_size k1) (all_size sz)); [by eexists|]. rewrite (proj2 (Z.leb_gt _ _)), (proj2 (Z.eqb_eq (all_size sz) _)) by lia. eexists. split; [done|]. unfold free_len. rewrite Ek.
        cbn [length]. split; [lia|]. exists k1. split; [done|lia].
      * assert (E1 : class_size m (free_len m - 1) = Some (k_size k1)) by (unfold class_size, free_len; by rewrite Ek). assert (E0 : class_size m 0 = Some (k_size k0)) by (unfold class_size; by rewrite Ek).
        unfold dfs_slabs_clsid. rewrite (proj2 (Z.eqb_neq sz 0)) by lia. cbv zeta. rewrite E1, (option_bind_eq _ _ _ eq_refl), E0, (option_bind_eq _ _ _ eq_refl).
        destruct (Z.ltb_spec (k_size k1) (all_size sz)); [by eexists|]. rewrite (proj2 (Z.leb_le _ _)) by lia. eexists. split; [done|]. split; [lia|]. exists k0. done.
  - destruct (clsid_linear m sz HC Hl Hsz) as (r & -> & Hr). eexists. split; [done|]. destruct r as [i|]; [|done]. destruct Hr as [(z & Hz & Lz) _].
    apply class_size_inv in Hz as (Hi & k & Hk & <-). split; [lia|]. eauto.
Qed.

(** A new block of at least [sz] bytes at [p]. *)
Definition gives m m' (p sz : Z) : Prop := 0 < p /\ exists n, sz <= n /\ (forall z, ~ handed m (p - DFS_SLAB_CHUNK_SIZE) z) /\
  forall x z, handed m' x z <-> handed m x z \/ x = p - DFS_SLAB_CHUNK_SIZE /\ z = n.

Lemma slabs_alloc_ok m act rq : ok m -> 0 <= rq < 2 ^ 63 -> exists e p w m', dfs_slabs_alloc m act rq = Some (e, p, w, m') /\ ok m' /\ like m m' /\
  (p = 0 /\ (forall x z, handed m' x z <-> handed m x z) \/ gives m m' p rq).
Proof.
  intros HO Hrq. unfold dfs_slabs_alloc. destruct (Z.eqb_spec rq 0) as [->|H0]. { do 4 eexists. split; [reflexivity|]. split; [done|]. split; [done|]. by left. }
  destruct (clsid_total m rq (o_cfg m HO) ltac:(lia)) as (r & Er & Hr). rewrite (option_bind_eq _ _ _ Er). destruct r as [id|]. 2: { do 4 eexists. split; [reflexivity|]. split; [done|]. split; [done|]. by left. }
  destruct Hr as (Hid & k & Hk & Hs). rewrite (option_bind_eq _ _ _ Hk). destruct (take_chunk_ok m id k HO Hid Hk) as (e & c & m1 & E1 & O1 & K1 & H1). rewrite (option_bind_eq _ _ _ E1).
  destruct (Z.eqb_spec c 0) as [->|Hc].
  - destruct H1 as [[_ H1]|[? _]]; [|lia]. do 4 eexists. split; [reflexivity|]. split; [by apply ok_stat|]. split; [exact K1|]. left. split; [done|exact H1].
  - destruct H1 as [[? _]|(Hc0 & (h & Hh & Ei & Ehs) & Hno & H1)]; [done|]. rewrite Hh, (option_bind_eq _ _ _ eq_refl). cbv zeta. subst id.
    destruct (ok_mark m1 c h (if act then c_size h else rq) (stat_add (slab_stat m1) (c_size h) (if act then c_size h else rq) 0 0) O1 Hh) as (O2 & K2 & _ & H2); [cbn; by apply count_stays|].
    do 4 eexists. split; [reflexivity|]. split; [exact O2|]. split; [exact K1|]. right. unfold gives. replace (c + DFS_SLAB_CHUNK_SIZE - DFS_SLAB_CHUNK_SIZE) with c by lia.
    split; [unfold DFS_SLAB_CHUNK_SIZE; lia|]. exists (k_size k - DFS_SLAB_CHUNK_SIZE). pose proof (all_size_ge rq ltac:(lia)). split; [unfold DFS_SLAB_CHUNK_SIZE; lia|]. split; [done|].
    intros x z. etransitivity; [exact (H2 x z)|apply H1].
Qed.

Lemma slabs_split_ok m rq rmin : ok m -> 0 <= rq -> 0 <= rmin < 2 ^ 63 -> exists e p w m', dfs_slabs_split_alloc m rq rmin = Some (e, p, w, m') /\ ok m' /\ like m m' /\
  (p = 0 /\ (forall x z, handed m' x z <-> handed m x z) \/ gives m m' p rmin).
Proof.
  intros HO Hrq Hmin. unfold dfs_slabs_split_alloc. destruct (Z.eqb_spec rq 0) as [->|H0]. { do 4 eexists. split; [reflexivity|]. split; [done|]. split; [done|]. by left. }
  pose proof (g_len m (o_cfg m HO)). destruct (class_size_at m (free_len m - 1) ltac:(lia)) as (km & Hkm & Em). rewrite Em, (option_bind_eq _ _ _ eq_refl).
  destruct (_ <? _). { do 4 eexists. split; [reflexivity|]. split; [done|]. split; [done|]. by left. }
  destruct (a_split_ok (allocator m) (all_size rmin) (o_alloc m HO)) as (c & n & al & Ea & HA & H1). rewrite (option_bind_eq _ _ _ Ea). cbv zeta.
  assert (O1 : ok (set_alloc m al)). { apply ok_set_alloc; [done|done|]. intros b Hb. destruct H1 as [[_ ->]|[_ ->]]; [done|by right]. }
  destruct (Z.eqb_spec c 0) as [->|Hc]. { do 4 eexists. split; [reflexivity|]. split; [by apply ok_stat|]. split; [done|]. by left. }
  destruct H1 as [[? _]|[Hn HP]]; [done|]. assert (Hin : (c, n) ∈ a_live al) by (rewrite HP; by left). destruct (a_range al c n HA Hin) as (Hc0 & Hn0 & Hn1).
  pose proof (all_size_ge rmin ltac:(lia)). replace (u64 (n - DFS_SLAB_CHUNK_SIZE)) with (n - DFS_SLAB_CHUNK_SIZE) by (symmetry; apply uwrap_small; unfold in_u, DFS_SLAB_CHUNK_SIZE; lia).
  pose proof (fresh_chunk m c n (a_live al) HO (a_apart al HA) HP) as Hf. set (r := if _ <=? rq then _ else rq).
  destruct (ok_new (set_alloc m al) c n (Chunk (n - DFS_SLAB_CHUNK_SIZE) r DFS_SLAB_SPLIT_ID) (stat_add (slab_stat m) (n - DFS_SLAB_CHUNK_SIZE) r 0 1) O1 Hf Hin) as (O2 & K2 & _ & H2);
    [cbn; unfold DFS_SLAB_CHUNK_SIZE; lia|cbn; lia|by left|done|].
  do 4 eexists. split; [reflexivity|]. split; [exact O2|]. split; [done|]. right. unfold gives. replace (c + DFS_SLAB_CHUNK_SIZE - DFS_SLAB_CHUNK_SIZE) with c by lia.
  split; [unfold DFS_SLAB_CHUNK_SIZE; lia|]. exists (n - DFS_SLAB_CHUNK_SIZE). split; [unfold DFS_SLAB_CHUNK_SIZE; lia|]. split; [intros z (y & Hy & _); congruence|exact H2].
Qed.

(** A chunk handed out is a split one or is given back to its class. *)
Lemma slabs_free_ok m c sz : ok m -> handed m c sz -> exists e b m', dfs_slabs_free m (c + DFS_SLAB_CHUNK_SIZE) = Some (e, b, m') /\ ok m' /\ like m m' /\
  forall x z, handed m' x z <-> handed m x z /\ x <> c.
Proof.
  intros HO (h & Hh & Es & Hno). destruct (o_chunk m HO c h Hh) as (H0 & n & Hn & Hs). destruct (a_range _ c n (o_alloc m HO) Hn) as [Hc _].
  unfold dfs_slabs_free. rewrite (proj2 (Z.eqb_neq _ _)) by (unfold DFS_SLAB_CHUNK_SIZE; lia). cbv zeta. replace (c + DFS_SLAB_CHUNK_SIZE - DFS_SLAB_CHUNK_SIZE) with c by lia.
  rewrite Hh, (option_bind_eq _ _ _ eq_refl). destruct (Z.eqb_spec (c_id h) DFS_SLAB_SPLIT_ID) as [Ei|Ei].
  - destruct (a_free_ok (allocator m) c n (o_alloc m HO) Hn) as (al & Ea & HA & HP). cbn [allocator set_stat]. rewrite (option_bind_eq _ _ _ Ea).
    destruct (ok_drop m c h al n (stat_add (slab_stat m) (- c_size h) (- req_size h) 0 (-1)) HO Hh Hno HA HP eq_refl) as (O1 & K1 & _ & H1).
    do 3 eexists. split; [reflexivity|]. split; [exact O1|]. split; [exact K1|exact H1].
  - destruct (o_id m HO c h Hh) as [?|(Hi & k & Hk & Ek)]; [done|]. rewrite (proj2 (Z.leb_le _ _) Hi), (option_bind_eq _ _ _ Hk). destruct (_ <? _).
    + destruct (ok_push m _ k c h (slab_stat m) HO Hk Hh) as (O1 & K1 & _ & H1); [lia|done|done|]. do 3 eexists. split; [reflexivity|]. split; [exact O1|]. split; [exact K1|exact H1].
    + destruct (ok_push m _ k c h (stat_add (slab_stat m) (- c_size h) (- req_size h) (c_size h) 0) HO Hk Hh) as (O1 & K1 & _ & H1); [lia|done|cbn; by apply count_stays|].
      do 3 eexists. split; [reflexivity|]. split; [exact O1|]. split; [exact K1|exact H1].
Qed.

Lemma handed_apart m c1 c2 z1 z2 : ok m -> handed m c1 z1 -> handed m c2 z2 -> c1 <> c2 -> disjoint (c1 + DFS_SLAB_CHUNK_SIZE, z1) (c2 + DFS_SLAB_CHUNK_SIZE, z2).
Proof.
  intros HO (h1 & Hh1 & <- & _) (h2 & Hh2 & <- & _) Hne. destruct (o_chunk m HO _ _ Hh1) as (P1 & n1 & Hn1 & L1), (o_chunk m HO _ _ Hh2) as (P2 & n2 & Hn2 & L2).
  apply list_elem_of_lookup in Hn1 as [i Hi], Hn2 as [j Hj]. destruct (a_apart _ (o_alloc m HO) i j _ _ Hi Hj) as [_ Hd].
  - intros ->. rewrite Hi in Hj. by injection Hj.
  - unfold disjoint in *. cbn in *. unfold DFS_SLAB_CHUNK_SIZE in *. lia.
Qed.

(** ** Creation *)

Lemma classes_power n sz i : 0 < sz -> sz * 2 ^ Z.of_nat n < 2 ^ 64 -> (i < n)%nat ->
  classes n DFS_SLAB_UPTYPE_POWER DFS_SLAB_POWER_FACTOR sz !! i = Some (Class_ (all_size (sz * 2 ^ Z.of_nat i)) []).
Proof.
  revert sz i. induction n as [|n IH]; intros sz i Hs Ht Hi; [lia|]. rewrite Nat2Z.inj_succ, Z.pow_succ_r in Ht by lia. assert (0 < 2 ^ Z.of_nat n) by lia.
  destruct i as [|i]; cbn [classes]; [by rewrite Z.pow_0_r, Z.mul_1_r|]. change (DFS_SLAB_UPTYPE_POWER =? DFS_SLAB_UPTYPE_POWER) with true. cbn iota.
  replace (u64 (sz * DFS_SLAB_POWER_FACTOR)) with (2 * sz) by (symmetry; rewrite Z.mul_comm; apply uwrap_small; unfold in_u, DFS_SLAB_POWER_FACTOR; nia).
  change ((?x :: ?l) !! S i) with (l !! i). rewrite IH by nia. rewrite Nat2Z.inj_succ, Z.pow_succ_r by lia. do 3 f_equal. lia.
Qed.

Lemma classes_linear n sz i : 0 < sz -> sz + Z.of_nat n * 1024 < 2 ^ 64 -> (i < n)%nat ->
  classes n DFS_SLAB_UPTYPE_LINEAR DFS_SLAB_LINEAR_FACTOR sz !! i = Some (Class_ (all_size (sz + Z.of_nat i * 1024)) []).
Proof.
  revert sz i. induction n as [|n IH]; intros sz i Hs Ht Hi; [lia|]. destruct i as [|i]; cbn [classes]; [by rewrite Z.mul_0_l, Z.add_0_r|].
  change (DFS_SLAB_UPTYPE_LINEAR =? DFS_SLAB_UPTYPE_POWER) with false. cbn iota.
  replace (u64 (sz + DFS_SLAB_LINEAR_FACTOR)) with (sz + 1024) by (symmetry; apply uwrap_small; unfold in_u; lia).
  change ((?x :: ?l) !! S i) with (l !! i). rewrite IH by lia. do 3 f_equal. lia.
Qed.

Lemma classes_length n u f sz : length (classes n u f sz) = n.
Proof. revert sz. induction n as [|n IH]; intros sz; [done|]. cbn. by rewrite IH. Qed.

Definition good_range (min max : Z) : Prop := 0 <= min /\ 0 <= max < 2 ^ 58.

(** The number of classes, and the size of the last one. *)
Lemma class_count_ok ut fac min max : good_range min max -> 0 < min -> 2 <= max / min ->
  (exists e, class_count ut fac min max = inl e) \/
  (exists n, class_count ut fac min max = inr (Some n) /\ 1 <= n < 2 ^ 58 /\
    (ut = DFS_SLAB_UPTYPE_POWER /\ fac = DFS_SLAB_POWER_FACTOR /\ min * 2 ^ n < 2 ^ 61 \/ ut = DFS_SLAB_UPTYPE_LINEAR /\ fac = DFS_SLAB_LINEAR_FACTOR /\ min + n * 1024 < 2 ^ 61)).
Proof.
  intros [_ Hmx] Hm Hq. assert (Hmm : 2 * min <= max) by (pose proof (Z.mul_div_le max min Hm); nia). unfold class_count.
  destruct (Z.eqb_spec ut DFS_SLAB_UPTYPE_POWER) as [->|Hu].
  - destruct (Z.eqb_spec fac DFS_SLAB_POWER_FACTOR) as [->|]; cbn [negb]; [right|left; by eexists]. set (p := if max mod min =? 0 then _ else _).
    assert (Hp : 2 <= p /\ min * p <= max + min). { pose proof (Z.mul_div_le max min Hm). unfold p. destruct (_ =? _); nia. }
    rewrite (proj2 (DfsMath.dfslog2_spec p ltac:(nia))). eexists. split; [done|]. pose proof (Z.log2_up_spec p ltac:(lia)) as HS. pose proof (Z.log2_up_pos p ltac:(lia)).
    assert (Hpb : p < 2 ^ 59) by nia. assert (Z.log2_up p <= 59) by (apply Z.log2_up_le_pow2; lia). split; [lia|]. left. split; [done|]. split; [done|].
    replace (Z.log2_up p) with (Z.pred (Z.log2_up p) + 1) by lia. rewrite Z.pow_add_r by lia. nia.
  - destruct (Z.eqb_spec ut DFS_SLAB_UPTYPE_LINEAR) as [->|]; [|left; by eexists]. destruct (Z.eqb_spec fac DFS_SLAB_LINEAR_FACTOR) as [->|]; cbn [negb]; [right|left; by eexists].
    replace (u64 (max - min)) with (max - min) by (symmetry; apply uwrap_small; unfold in_u; lia). eexists. split; [done|]. unfold DFS_SLAB_LINEAR_FACTOR.
    pose proof (Z.div_mod (max - min) 1024 ltac:(lia)). pose proof (Z.mod_pos_bound (max - min) 1024 ltac:(lia)).
    destruct (Z.eqb_spec ((max - min) mod 1024) 0); (split; [lia|]); right; (split; [done|]); (split; [done|]); lia.
Qed.

Lemma slabs_create_ok al ut fac min max : a_ok al -> good_range min max -> exists e al' r, dfs_slabs_create al ut fac min max = Some (e, al', r) /\
  match r with Some m => e = SLAB_NONE /\ ok m /\ forall c z, ~ handed m c z | None => e <> SLAB_NONE end.
Proof.
  intros HA HR. pose proof HR as [Hmin Hmax]. unfold dfs_slabs_create. destruct ((min =? 0) || (max =? 0)) eqn:E0; [by do 3 eexists|]. apply orb_false_iff in E0 as [E0 E1].
  apply Z.eqb_neq in E0, E1. destruct (Z.ltb_spec (max / min) 2) as [L|L]; [by do 3 eexists|].
  destruct (class_count_ok ut fac min max HR ltac:(lia) L) as [(e & He)|(n & Hn & Hb & Ht)].
  - rewrite He. do 3 eexists. split; [reflexivity|]. intros ->. unfold class_count in He. repeat (destruct (_ =? _) in He; try done).
  - rewrite Hn, (option_bind_eq _ _ _ eq_refl). cbv zeta. destruct (a_alloc_ok al sizeof_slab_manager_t HA) as (p & al1 & Ep & HA1 & _); [unfold sizeof_slab_manager_t; lia|].
    rewrite (option_bind_eq _ _ _ Ep). destruct (p =? 0); [by do 3 eexists|].
    assert (Ew : u64 (sizeof_slabclass_t * (n + 1)) = 16 * (n + 1)) by (apply uwrap_small; unfold in_u, sizeof_slabclass_t; lia). rewrite Ew.
    destruct (a_alloc_ok al1 (16 * (n + 1)) HA1 ltac:(lia)) as (q & al2 & Eq & HA2 & _). rewrite (option_bind_eq _ _ _ Eq). destruct (q =? 0); [by do 3 eexists|].
    do 3 eexists. split; [reflexivity|]. split; [done|]. split; [|intros c z (h & Hh & _); cbn in Hh; by rewrite lookup_empty in Hh].
    assert (Hcl : forall i k, classes (Z.to_nat (n + 1)) ut fac min !! i = Some k -> (i < Z.to_nat (n + 1))%nat /\ free_list k = [] /\
      k_size k = all_size (if ut =? DFS_SLAB_UPTYPE_POWER then min * 2 ^ Z.of_nat i else min + Z.of_nat i * DFS_SLAB_LINEAR_FACTOR)).
    { intros i k Hk. apply lookup_lt_Some in Hk as Hi. rewrite classes_length in Hi. split; [done|]. destruct Ht as [(-> & -> & Ht)|(-> & -> & Ht)].
      - rewrite classes_power in Hk; [by injection Hk as <-|lia| |done]. rewrite Z2Nat.id, Z.pow_add_r by lia. lia.
      - rewrite classes_linear in Hk; [by injection Hk as <-|lia|lia|done]. }
    constructor; cbn; try done.
    + constructor; unfold free_len, nth_size; cbn [slabclass uptype factor min_size]; rewrite ?classes_length; try lia.
      * intros i k Hk. by apply Hcl in Hk as (_ & _ & ?).
      * rewrite Z2Nat.id by lia. replace (n + 1 - 1) with n by lia. destruct Ht as [(-> & _ & Ht)|(-> & _ & Ht)]; cbn; unfold DFS_SLAB_LINEAR_FACTOR; lia.
    + intros i k Hk. apply Hcl in Hk as (_ & -> & _). constructor.
    + intros i k c Hk. apply Hcl in Hk as (_ & -> & _). intros Hc. by apply not_elem_of_nil in Hc.
Qed.

(** ** Sequences of operations *)

Inductive op := Alloc (act : bool) (rq : Z) | Split (rq rmin : Z) | Release (ptr : Z).

Definition run_op (o : op) m : option dfs_slab_manager_t :=
  match o with
  | Alloc act rq => '(_, _, _, m) ← dfs_slabs_alloc m act rq; Some m
  | Split rq rmin => '(_, _, _, m) ← dfs_slabs_split_alloc m rq rmin; Some m
  | Release p => '(_, _, m) ← dfs_slabs_free m p; Some m
  end.

Definition allowed (o : op) m : Prop :=
  match o with
  | Alloc _ rq => 0 <= rq < 2 ^ 63
  | Split rq rmin => 0 <= rq /\ 0 <= rmin < 2 ^ 63
  | Release p => exists z, handed m (p - DFS_SLAB_CHUNK_SIZE) z
  end.

Fixpoint run_ops (os : list op) m : option dfs_slab_manager_t := match os with [] => Some m | o :: os' => m ← run_op o m; run_ops os' m end.
Fixpoint allowed_all (os : list op) m : Prop := match os with [] => True | o :: os' => allowed o m /\ forall m', run_op o m = Some m' -> allowed_all os' m' end.

Lemma slab_op_ok o m : ok m -> allowed o m -> exists m', run_op o m = Some m' /\ ok m'.
Proof.
  intros HO HA. destruct o as [act rq|rq rmin|p]; cbn [run_op allowed] in *.
  - destruct (slabs_alloc_ok m act rq HO HA) as (e & p & w & m' & E & O' & _). rewrite (option_bind_eq _ _ _ E). eauto.
  - destruct (slabs_split_ok m rq rmin HO (proj1 HA) (proj2 HA)) as (e & p & w & m' & E & O' & _). rewrite (option_bind_eq _ _ _ E). eauto.
  - destruct HA as [z HA]. destruct (slabs_free_ok m _ z HO HA) as (e & b & m' & E & O' & _). replace (p - DFS_SLAB_CHUNK_SIZE + DFS_SLAB_CHUNK_SIZE) with p in E by lia.
    rewrite (option_bind_eq _ _ _ E). eauto.
Qed.

Lemma slab_ops_ok os m : ok m -> allowed_all os m -> exists m', run_ops os m = Some m' /\ ok m'.
Proof.
  revert m. induction os as [|o os IH]; intros m HO HA; [by exists m|]. destruct HA as [HA HB]. destruct (slab_op_ok o m HO HA) as (m1 & E & O1).
  cbn [run_ops]. rewrite (option_bind_eq _ _ _ E). by apply IH; [|apply HB].
Qed.

(** ** Theorems *)

(** C17. Slabs over any allocator that keeps its laws: every sequence of
    allocations, split allocations and releases of chunks that are handed out,
    on a new manager, runs to its end without undefined behaviour, and the
    chunks handed out never overlap.  In particular the recovery of memory
    from other classes ends. *)
Theorem slabs_safe (al al' : A) ut fac min max os m :
  a_ok al -> good_range min max -> dfs_slabs_create al ut fac min max = Some (SLAB_NONE, al', Some m) -> allowed_all os m ->
  exists m', run_ops os m = Some m' /\ ok m' /\
    forall c1 c2 z1 z2, handed m' c1 z1 -> handed m' c2 z2 -> c1 <> c2 -> disjoint (c1 + DFS_SLAB_CHUNK_SIZE, z1) (c2 + DFS_SLAB_CHUNK_SIZE, z2).
Proof.
  intros HA HR E Hall. destruct (slabs_create_ok al ut fac min max HA HR) as (e & x & r & E' & H). rewrite E in E'. injection E' as <- <- <-. destruct H as (_ & HO & _).
  destruct (slab_ops_ok os m HO Hall) as (m' & Er & O'). exists m'. split; [done|]. split; [done|]. intros. by eapply handed_apart.
Qed.

(** An allocation returns null and leaves the chunks as they are, or it
    hands out exactly one new chunk with room for the request. *)
Theorem slabs_alloc_serves m act rq : ok m -> 0 <= rq < 2 ^ 63 -> exists e p w m', dfs_slabs_alloc m act rq = Some (e, p, w, m') /\
  (p = 0 /\ (forall x z, handed m' x z <-> handed m x z) \/ gives m m' p rq).
Proof. intros HO Hrq. destruct (slabs_alloc_ok m act rq HO Hrq) as (e & p & w & m' & E & _ & _ & H). eauto 10. Qed.

(** With two classes, which is what a range from [n] to [2 n] gives, every
    request strictly between their sizes is refused, although the second
    class is large enough. *)
Theorem slabs_two_classes_refuse m act rq k0 k1 : ok m -> uptype m = DFS_SLAB_UPTYPE_POWER -> slabclass m = [k0; k1] -> 0 < rq -> k_size k0 < all_size rq < k_size k1 ->
  first_fit (all_size rq) 0 (slabclass m) = Some 1 /\ dfs_slabs_alloc m act rq = Some (ALLOC_INVALID_ID, 0, None, m).
Proof.
  intros HO Hu Hk Hrq Hb. split.
  - rewrite Hk. cbn [first_fit]. rewrite (proj2 (Z.leb_gt _ _)), (proj2 (Z.leb_le _ _)) by lia. done.
  - unfold dfs_slabs_alloc. rewrite (proj2 (Z.eqb_neq _ _)), (clsid_two m rq true k0 k1) by (rewrite ?Hu; done || lia). done.
Qed.

(** Releasing the only chunk that is handed out reports an error and leaves
    the counters as they are, although the chunk has been put back into its
    list: the number of used bytes, which does not count headers, is compared
    with the size of the class, which does. *)
Theorem slabs_free_last_fails m c h : ok m -> chunks m !! c = Some h -> ~ listed m c -> c_id h <> DFS_SLAB_SPLIT_ID -> used_size (slab_stat m) = c_size h ->
  exists m', dfs_slabs_free m (c + DFS_SLAB_CHUNK_SIZE) = Some (FREE_CHUNK_ID, false, m') /\ listed m' c /\ slab_stat m' = slab_stat m.
Proof.
  intros HO Hh Hno Hid Hu. destruct (o_chunk m HO c h Hh) as (H0 & n & Hn & Hs). destruct (a_range _ c n (o_alloc m HO) Hn) as [Hc _].
  destruct (o_id m HO c h Hh) as [?|(Hi & k & Hk & Ek)]; [done|]. unfold dfs_slabs_free. rewrite (proj2 (Z.eqb_neq _ _)) by (unfold DFS_SLAB_CHUNK_SIZE; lia). cbv zeta.
  replace (c + DFS_SLAB_CHUNK_SIZE - DFS_SLAB_CHUNK_SIZE) with c by lia. rewrite Hh, (option_bind_eq _ _ _ eq_refl), (proj2 (Z.eqb_neq _ _) Hid), (proj2 (Z.leb_le _ _) Hi), (option_bind_eq _ _ _ Hk).
  cbn [slab_stat set_class]. rewrite Hu, (proj2 (Z.ltb_lt _ _)) by (unfold DFS_SLAB_CHUNK_SIZE in *; lia). eexists. split; [reflexivity|]. split; [|done].
  apply (change_listed m _ k (c :: free_list k) Hk). left. by left.
Qed.

End ops.

(** ** Examples *)

Definition memory : option Shmem.dfs_shmem_t := Some ShmemLaws.sample.

Lemma memory_ok : a_ok memory.
Proof. exact ShmemLaws.sample_wf. Qed.

Definition fresh_mgr (al : option Shmem.dfs_shmem_t) : dfs_slab_manager_t := Mgr 0 0 0 (Stat 0 0 0 0 0 0 0 0 0) al [] ∅.
Definition made (max : Z) : dfs_slab_manager_t := match dfs_slabs_create memory DFS_SLAB_UPTYPE_POWER DFS_SLAB_POWER_FACTOR 64 max with Some (_, _, Some m) => m | _ => fresh_mgr memory end.
Definition made_memory (max : Z) : option Shmem.dfs_shmem_t := match dfs_slabs_create memory DFS_SLAB_UPTYPE_POWER DFS_SLAB_POWER_FACTOR 64 max with Some (_, al, _) => al | _ => None end.
Definition after_ops (os : list op) : dfs_slab_manager_t := default (made 512) (run_ops os (made 512)).

Lemma made_created max : max = 512 \/ max = 128 -> dfs_slabs_create memory DFS_SLAB_UPTYPE_POWER DFS_SLAB_POWER_FACTOR 64 max = Some (SLAB_NONE, made_memory max, Some (made max)).
Proof. intros [->| ->]; vm_compute; reflexivity. Qed.

Lemma made_ok max : max = 512 \/ max = 128 -> ok (made max).
Proof.
  intros H. assert (HR : good_range 64 max) by (unfold good_range; lia).
  destruct (slabs_create_ok memory DFS_SLAB_UPTYPE_POWER DFS_SLAB_POWER_FACTOR 64 max memory_ok HR) as (e & al & r & E & Hr). rewrite made_created in E by done. injection E as <- <- <-. apply Hr.
Qed.

Lemma not_listed {A} (m : dfs_slab_manager_t (A := A)) c : Forall (fun k => c ∉ free_list k) (slabclass m) -> ~ listed m c.
Proof. intros H (i & k & Hk & Hc). rewrite Forall_lookup in H. exact (H i k Hk Hc). Qed.

Ltac next_mgr := let m := fresh "m" in let E := fresh "E" in intros m E; vm_compute in E; injection E as <-.
Ltac is_handed := eexists; split; [vm_compute; reflexivity|split; [reflexivity|apply not_listed; by_decide]].

Lemma slabs_safe_witness : allowed_all [Alloc false 100; Split 50 50; Release 66760; Alloc true 90] (made 512) /\
  exists m', run_ops [Alloc false 100; Split 50 50; Release 66760; Alloc true 90] (made 512) = Some m' /\ ok m' /\
    forall c1 c2 z1 z2, handed m' c1 z1 -> handed m' c2 z2 -> c1 <> c2 -> disjoint (c1 + DFS_SLAB_CHUNK_SIZE, z1) (c2 + DFS_SLAB_CHUNK_SIZE, z2).
Proof.
  assert (HA : allowed_all [Alloc false 100; Split 50 50; Release 66760; Alloc true 90] (made 512)).
  { split; [cbn; lia|]. next_mgr. split; [cbn; lia|]. next_mgr. split; [exists 128; is_handed|]. next_mgr. split; [cbn; lia|]. by next_mgr. }
  split; [exact HA|]. apply (slabs_safe memory (made_memory 512) DFS_SLAB_UPTYPE_POWER DFS_SLAB_POWER_FACTOR 64 512).
  - exact memory_ok.
  - unfold good_range. lia.
  - apply made_created. by left.
  - exact HA.
Defined.

Lemma slabs_alloc_serves_witness : exists e p w m', dfs_slabs_alloc (made 512) true 100 = Some (e, p, w, m') /\ gives (made 512) m' p 100.
Proof.
  destruct (slabs_alloc_serves (made 512) true 100 (made_ok 512 ltac:(by left)) ltac:(lia)) as (e & p & w & m' & E & H). exists e, p, w, m'. split; [exact E|].
  destruct H as [[Hp _]|H]; [|exact H]. vm_compute in E. injection E as _ <- _ _. done.
Defined.

Lemma slabs_two_classes_refuse_witness : first_fit (all_size 100) 0 (slabclass (made 128)) = Some 1 /\ dfs_slabs_alloc (made 128) true 100 = Some (ALLOC_INVALID_ID, 0, None, made 128).
Proof.
  apply (slabs_two_classes_refuse (made 128) true 100 (Class_ 96 []) (Class_ 160 [])).
  - apply made_ok. by right.
  - reflexivity.
  - reflexivity.
  - lia.
  - vm_compute. by split.
Defined.

Lemma slabs_free_last_fails_witness : exists m', dfs_slabs_free (after_ops [Alloc false 100]) 66760 = Some (FREE_CHUNK_ID, false, m') /\ listed m' 66728 /\
  slab_stat m' = slab_stat (after_ops [Alloc false 100]).
Proof.
  apply (slabs_free_last_fails (after_ops [Alloc false 100]) 66728 (Chunk 128 100 1)).
  - destruct (slab_ops_ok [Alloc false 100] (made 512) (made_ok 512 ltac:(by left))) as (m & E & HO); [split; [cbn; lia|by next_mgr]|]. unfold after_ops. rewrite E. exact HO.
  - vm_compute. reflexivity.
  - apply not_listed. by_decide.
  - discriminate.
  - reflexivity.
Defined.

End SlabsProps.
