(* ===== verification/ConnPool.v ===== *)
(** * Pools of connections

    core/dfs_conn_pool.c, .h.  Every thread has a pool of connections, a list
    linked through the connections themselves; [change_n] says how many
    connections a thread has to give to the common pool, or may take from it,
    after connections in use have moved between threads.

    The links are a store from the addresses of connections to the next one, 0
    at the end; an address without a link is not a connection.  The functions
    of the common pool run under its lock, each in one step, and a pool is used
    by its thread only, so an interleaving of threads is a sequence of
    operations.  The events of the connections, which the pool only sets up, are
    not modelled. *)

From Stdlib Require Import ZArith Lia Bool.
From stdpp Require Import base numbers gmap option list.
From S2P Require Import Prelude.

Module ConnPool.

Definition DFS_OK : Z := 0.
Definition DFS_ERROR : Z := -1.
Definition sizeof_conn_t : Z := 184.

Record conn_pool_t := Pool { connections : Z; connection_n : Z; change_n : Z; free_connections : Z; free_connection_n : Z; read_events : Z; write_events : Z; used_n : Z }.

Notation links := (gmap Z Z).

(** ** Set-up *)

Definition conn_at (base : Z) (i : nat) : Z := base + Z.of_nat i * sizeof_conn_t.

(** The links of [n] connections that start at [p], the last one's next is null. *)
Fixpoint init_links (p : Z) (n : nat) (s : links) : links :=
  match n with
  | O => s
  | S n => <[p := match n with O => 0 | S _ => p + sizeof_conn_t end]> (init_links (p + sizeof_conn_t) n s)
  end.

Fixpoint drop_links (p : Z) (n : nat) (s : links) : links := match n with O => s | S n => delete p (drop_links (p + sizeof_conn_t) n s) end.

Definition conn_pool_free (p : conn_pool_t) (s : links) : conn_pool_t * links :=
  (Pool 0 0 (change_n p) (free_connections p) 0 0 0 (used_n p), if connections p =? 0 then s else drop_links (connections p) (Z.to_nat (connection_n p)) s).

(** [c], [r] and [w] are the answers of the three allocations, 0 for failure. *)
Definition conn_pool_init (c r w : Z) (p : conn_pool_t) (n : Z) (s : links) : Z * conn_pool_t * links :=
  if n =? 0 then (DFS_ERROR, p, s)
  else if c =? 0 then (DFS_ERROR, Pool 0 n (change_n p) (free_connections p) (free_connection_n p) (read_events p) (write_events p) (used_n p), s)
  else if r =? 0 then let '(p, s) := conn_pool_free (Pool c n (change_n p) (free_connections p) (free_connection_n p) 0 (write_events p) (used_n p)) s in (DFS_ERROR, p, s)
  else if w =? 0 then let '(p, s) := conn_pool_free (Pool c n (change_n p) (free_connections p) (free_connection_n p) r 0 (used_n p)) s in (DFS_ERROR, p, s)
  else (DFS_OK, Pool c n (change_n p) c n r w (used_n p), init_links c (Z.to_nat n) s).

(** ** The common pool *)

Record state := St { comm_free : Z; comm_free_n : Z; next : links }.

Definition conn_pool_common_init (s : links) : state := St 0 0 s.

Definition put_comm_conn (c : Z) (st : state) : option state :=
  _ ← next st !! c; Some (St c (u32 (comm_free_n st + 1)) (<[c := comm_free st]> (next st))).

(** The loop of [get_comm_conn]: where the list is cut. *)
Fixpoint walk (s : links) (i : nat) (p plast : Z) : option (Z * Z) :=
  match i with
  | O => Some (p, plast)
  | S i => if p =? 0 then Some (p, plast) else q ← s !! p; walk s i q p
  end.

(** The first connection and how many come with it; 0 when there is none. *)
Definition get_comm_conn (n : Z) (st : state) : option (Z * Z * state) :=
  if comm_free_n st =? 0 then Some (0, 0, st)
  else if comm_free_n st <=? n then Some (comm_free st, comm_free_n st, St 0 0 (next st))
  else
  '(p, plast) ← walk (next st) (Z.to_nat n) (comm_free st) (comm_free st);
  _ ← next st !! plast;
  Some (comm_free st, n, St p (u32 (comm_free_n st - n)) (<[plast := 0]> (next st))).

(** ** The pool of a thread *)

Definition take (p : conn_pool_t) (c : Z) (st : state) : option (Z * conn_pool_t * state) :=
  q ← next st !! c;
  Some (c, Pool (connections p) (connection_n p) (change_n p) q (u32 (free_connection_n p - 1)) (read_events p) (write_events p) (u32 (used_n p + 1)), st).

Definition conn_pool_get_connection (p : conn_pool_t) (st : state) : option (Z * conn_pool_t * state) :=
  if negb (free_connections p =? 0) then take p (free_connections p) st
  else if 0 <=? change_n p then Some (0, p, st)
  else
  '(c, num, st) ← get_comm_conn (u32 (- change_n p)) st;
  if c =? 0 then Some (0, p, st)
  else take (Pool (connections p) (connection_n p) (change_n p + num) c (u32 (free_connection_n p + num)) (read_events p) (write_events p) (used_n p)) c st.

Definition conn_pool_free_connection (p : conn_pool_t) (c : Z) (st : state) : option (conn_pool_t * state) :=
  if 0 <? change_n p then
    st ← put_comm_conn c st;
    Some (Pool (connections p) (connection_n p) (change_n p - 1) (free_connections p) (free_connection_n p) (read_events p) (write_events p) (u32 (used_n p - 1)), st)
  else
  _ ← next st !! c;
  Some (Pool (connections p) (connection_n p) (change_n p) c (u32 (free_connection_n p + 1)) (read_events p) (write_events p) (u32 (used_n p - 1)),
        St (comm_free st) (comm_free_n st) (<[c := free_connections p]> (next st))).

Definition conn_pool_out (p : conn_pool_t) (n : Z) : conn_pool_t :=
  Pool (connections p) (connection_n p) (change_n p - n) (free_connections p) (free_connection_n p) (read_events p) (write_events p) (u32 (used_n p - n)).
Definition conn_pool_in (p : conn_pool_t) (n : Z) : conn_pool_t :=
  Pool (connections p) (connection_n p) (change_n p + n) (free_connections p) (free_connection_n p) (read_events p) (write_events p) (u32 (used_n p + n)).

(** ** Linked lists *)

Fixpoint linked (s : links) (p : Z) (l : list Z) : Prop :=
  match l with [] => p = 0 | c :: l' => p = c /\ c <> 0 /\ exists q, s !! c = Some q /\ linked s q l' end.

Lemma conn_list_frame s c q p l : c ∉ l -> linked s p l -> linked (<[c := q]> s) p l.
Proof.
  revert p. induction l as [|x l IH]; intros p Hc; [done|]. apply not_elem_of_cons in Hc as [H1 H2]. intros (-> & H0 & y & Hy & Hl).
  cbn. split; [done|]. split; [done|]. exists y. rewrite lookup_insert_ne by congruence. split; [done|]. by apply IH.
Qed.

Lemma linked_push s c p l : c ∉ l -> c <> 0 -> linked s p l -> linked (<[c := p]> s) c (c :: l).
Proof. intros Hc H0 Hl. split; [done|]. split; [done|]. exists p. rewrite lookup_insert_eq. split; [done|]. by apply conn_list_frame. Qed.

Lemma linked_in s p l c : linked s p l -> c ∈ l -> c <> 0 /\ is_Some (s !! c).
Proof.
  revert p. induction l as [|x l IH]; intros p; [by intros _ H; apply not_elem_of_nil in H|]. intros (_ & H0 & y & Hy & Hl) Hc.
  apply elem_of_cons in Hc as [->|Hc]; [eauto|by eapply IH].
Qed.

Lemma linked_empty s p l : linked s p l -> p = 0 <-> l = [].
Proof. destruct l as [|c l]; [done|]. intros (-> & H & _). done. Qed.

(** The walk stops after [n] connections; cutting there gives the two parts. *)
Lemma walk_ok s n p plast l : linked s p l -> (0 < n < length l)%nat ->
  exists x l1 l2 q, l = l1 ++ x :: l2 /\ length l1 = pred n /\ walk s n p plast = Some (q, x) /\ linked s q l2.
Proof.
  revert p plast l. induction n as [|n IH]; intros p plast l HC Hn; [lia|]. destruct l as [|c l]; [cbn in Hn; lia|]. destruct HC as (-> & H0 & q & Hq & HC).
  cbn [walk]. rewrite (proj2 (Z.eqb_neq _ _) H0), Hq, (option_bind_eq _ _ _ eq_refl). destruct n as [|n].
  - exists c, [], l, q. split; [done|]. split; [done|]. split; [done|done].
  - destruct (IH q c l HC) as (x & l1 & l2 & r & -> & Hl & E & H2); [cbn in Hn; lia|]. exists x, (c :: l1), l2, r. cbn in *. split; [done|]. split; [lia|done].
Qed.

Lemma linked_cut s p l1 x l2 : NoDup (l1 ++ x :: l2) -> linked s p (l1 ++ x :: l2) -> linked (<[x := 0]> s) p (l1 ++ [x]).
Proof.
  revert p. induction l1 as [|c l1 IH]; intros p HN HC.
  - destruct HC as (-> & H0 & _). split; [done|]. split; [done|]. exists 0. by rewrite lookup_insert_eq.
  - cbn [app] in HN. apply NoDup_cons in HN as [Hc HN]. destruct HC as (-> & H0 & q & Hq & HC). split; [done|]. split; [done|]. exists q.
    rewrite lookup_insert_ne by (intros ->; apply Hc, elem_of_app; right; by left). split; [done|]. by apply IH.
Qed.

(** ** All threads *)

Record world := W { pools : list conn_pool_t; common : state }.

Inductive op := Get (i : nat) | Put (i : nat) (c : Z) | Move (i j : nat) (n : Z).

(** The connection handed out, 0 for none. *)
Definition run_op (o : op) (w : world) : option (Z * world) :=
  match o with
  | Get i => p ← pools w !! i; '(c, p, st) ← conn_pool_get_connection p (common w); Some (c, W (<[i := p]> (pools w)) st)
  | Put i c => p ← pools w !! i; '(p, st) ← conn_pool_free_connection p c (common w); Some (0, W (<[i := p]> (pools w)) st)
  | Move i j n =>
      p ← pools w !! i; let ps := <[i := conn_pool_out p n]> (pools w) in
      q ← ps !! j; Some (0, W (<[j := conn_pool_in q n]> ps) (common w))
  end.

(** Sums over pools. *)
Fixpoint total (f : conn_pool_t -> Z) (l : list conn_pool_t) : Z := match l with [] => 0 | p :: l' => f p + total f l' end.

Lemma total_insert f l i p q : l !! i = Some p -> total f (<[i := q]> l) = total f l - f p + f q.
Proof.
  revert i. induction l as [|x l IH]; intros [|i] Hp; [done..| |].
  - injection Hp as ->. cbn. lia.
  - change (<[S i := q]> (x :: l)) with (x :: <[i := q]> l). cbn [total]. rewrite (IH i Hp). lia.
Qed.

Lemma concat_insert (fs : list (list Z)) i l l' : fs !! i = Some l -> concat (<[i := l']> fs) ++ l ≡ₚ concat fs ++ l'.
Proof.
  revert i. induction fs as [|x fs IH]; intros [|i] Hl; [done..| |].
  - injection Hl as ->. cbn. rewrite <-!app_assoc, (Permutation_app_comm (concat fs) l), (Permutation_app_comm (concat fs) l').
    rewrite !app_assoc. by rewrite (Permutation_app_comm l l').
  - change (<[S i := l']> (x :: fs)) with (x :: <[i := l']> fs). cbn [concat]. rewrite <-!app_assoc. by rewrite (IH i Hl).
Qed.

(** The free list of a pool, and its counters. *)
Record pool_ok (s : links) (p : conn_pool_t) (l : list Z) : Prop := {
  p_list : linked s (free_connections p) l;
  p_free : free_connection_n p = Z.of_nat (length l);
  p_used : 0 <= used_n p;
  p_sum : free_connection_n p + used_n p - change_n p = connection_n p;
  p_n : 0 <= connection_n p }.

(** The lists [fs] of the pools, [fc] of the common pool and the connections
    [H] in use are all of the connections [all], each once. *)
Record inv (all : list Z) (w : world) (fs : list (list Z)) (fc H : list Z) : Prop := {
  v_pools : Forall2 (pool_ok (next (common w))) (pools w) fs;
  v_comm : linked (next (common w)) (comm_free (common w)) fc;
  v_commn : comm_free_n (common w) = Z.of_nat (length fc);
  v_held : forall c, c ∈ H -> c <> 0 /\ is_Some (next (common w) !! c);
  v_perm : concat fs ++ fc ++ H ≡ₚ all;
  v_nodup : NoDup all;
  v_size : Z.of_nat (length all) < 2 ^ 31;
  v_change : total change_n (pools w) + comm_free_n (common w) = 0;
  v_used : total used_n (pools w) = Z.of_nat (length H);
  v_total : total connection_n (pools w) = Z.of_nat (length all) }.

Lemma total_bound f l i p : (forall q, q ∈ l -> 0 <= f q) -> l !! i = Some p -> f p <= total f l.
Proof.
  revert i. induction l as [|x l IH]; intros [|i] Hf Hp; [done..| |]; cbn [total]; assert (0 <= total f l) by (clear -Hf; induction l as [|y l IH]; cbn [total]; [lia|];
    assert (0 <= f y) by (apply Hf; right; by left); enough (0 <= total f l) by lia; apply IH; intros q Hq; apply Hf; apply elem_of_cons in Hq as [->|Hq]; [by left|right; by right]).
  - injection Hp as ->. lia.
  - assert (0 <= f x) by (apply Hf; by left). specialize (IH i ltac:(intros q Hq; apply Hf; by right) Hp). lia.
Qed.

Lemma parts_length all w fs fc H : inv all w fs fc H -> (length (concat fs) + length fc + length H = length all)%nat.
Proof. intros HV. pose proof (Permutation_length (v_perm _ _ _ _ _ HV)) as E. rewrite !length_app in E. lia. Qed.

Lemma length_concat_in (fs : list (list Z)) i l : fs !! i = Some l -> (length l <= length (concat fs))%nat.
Proof. intros Hl. apply list_elem_of_lookup_2 in Hl. apply list_elem_of_split in Hl as (a & b & ->). rewrite concat_app, !length_app. cbn. rewrite length_app. lia. Qed.

(** The pool of a thread, its list and the ranges of its counters. *)
Lemma pool_at all w fs fc H i p : inv all w fs fc H -> pools w !! i = Some p ->
  exists l, fs !! i = Some l /\ pool_ok (next (common w)) p l /\ 0 <= used_n p <= Z.of_nat (length H) /\ Z.of_nat (length l) + Z.of_nat (length fc) + Z.of_nat (length H) < 2 ^ 31 /\
    - 2 ^ 31 < change_n p < 2 ^ 31.
Proof.
  intros HV Hp. pose proof (v_pools _ _ _ _ _ HV) as HF. destruct (Forall2_lookup_l _ _ _ _ _ HF Hp) as (l & Hl & HO). exists l. split; [done|]. split; [done|].
  assert (Hq : forall q, q ∈ pools w -> 0 <= used_n q /\ 0 <= connection_n q).
  { intros q Hq. apply list_elem_of_lookup in Hq as [j Hj]. destruct (Forall2_lookup_l _ _ _ _ _ HF Hj) as (l' & _ & HO'). split; [apply (p_used _ _ _ HO')|apply (p_n _ _ _ HO')]. }
  pose proof (total_bound used_n (pools w) i p (fun q Hq' => proj1 (Hq q Hq')) Hp) as HU. rewrite (v_used _ _ _ _ _ HV) in HU.
  pose proof (total_bound connection_n (pools w) i p (fun q Hq' => proj2 (Hq q Hq')) Hp) as HN. rewrite (v_total _ _ _ _ _ HV) in HN.
  pose proof (parts_length _ _ _ _ _ HV). pose proof (length_concat_in fs i l Hl). pose proof (v_size _ _ _ _ _ HV). destruct HO as [_ P2 P3 P4 P5]. lia.
Qed.

Lemma linked_ext s s' p l : (forall c, c ∈ l -> s' !! c = s !! c) -> linked s p l -> linked s' p l.
Proof.
  revert p. induction l as [|x l IH]; intros p Hs; [done|]. intros (-> & H0 & q & Hq & Hl). split; [done|]. split; [done|]. exists q. rewrite Hs by (by left). split; [done|].
  apply IH; [|done]. intros c Hc. apply Hs. by right.
Qed.

Lemma concat_apart (fs : list (list Z)) i j l m c : NoDup (concat fs) -> fs !! i = Some l -> fs !! j = Some m -> i <> j -> c ∈ m -> c ∉ l.
Proof.
  intros HN Hi Hj Hij Hc Hl. pose proof (concat_insert fs i l [] Hi) as HP. rewrite app_nil_r in HP. rewrite <-HP in HN. apply NoDup_app in HN as (_ & HN & _). apply (HN c); [|done].
  apply list_elem_of_In, in_concat. exists m. split; apply list_elem_of_In; [|done]. eapply list_elem_of_lookup_2. by rewrite list_lookup_insert_ne.
Qed.

(** One pool and the common pool change, the rest stays. *)
Lemma inv_update all w fs fc H i p l p' l' st' fc' H' : inv all w fs fc H -> pools w !! i = Some p -> fs !! i = Some l ->
  pool_ok (next st') p' l' -> (forall c, c ∉ l -> c ∉ fc -> c ∉ H -> next st' !! c = next (common w) !! c) ->
  linked (next st') (comm_free st') fc' -> comm_free_n st' = Z.of_nat (length fc') -> (forall c, c ∈ H' -> c <> 0 /\ is_Some (next st' !! c)) ->
  l' ++ fc' ++ H' ≡ₚ l ++ fc ++ H -> change_n p' + comm_free_n st' = change_n p + comm_free_n (common w) ->
  used_n p' + Z.of_nat (length H) = used_n p + Z.of_nat (length H') -> connection_n p' = connection_n p ->
  inv all (W (<[i := p']> (pools w)) st') (<[i := l']> fs) fc' H'.
Proof.
  intros HV Hp Hl HO Hs HC Hn Hh HP Ec Eu En. assert (HA : NoDup (concat fs ++ fc ++ H)) by (rewrite (v_perm _ _ _ _ _ HV); apply (v_nodup _ _ _ _ _ HV)).
  apply NoDup_app in HA as (HA1 & HA2 & _). destruct HV as [V1 V2 V3 V4 V5 V6 V7 V8 V9 V10]. constructor; cbn [pools common]; try done.
  - apply Forall2_same_length_lookup. split; [rewrite !length_insert; by eapply Forall2_length|]. intros j q m. destruct (decide (j = i)) as [->|Hj].
    + rewrite !list_lookup_insert_eq by (by eapply lookup_lt_Some). by intros [= <-] [= <-].
    + rewrite !list_lookup_insert_ne by done. intros Hq Hm. destruct (Forall2_lookup_lr _ _ _ _ _ _ V1 Hq Hm) as [P1 P2 P3 P4 P5]. constructor; try done.
      apply (linked_ext (next (common w))); [|done]. intros c Hc. assert (Hcc : c ∈ concat fs) by (apply list_elem_of_In, in_concat; exists m; split; apply list_elem_of_In; [by eapply list_elem_of_lookup_2|done]).
      specialize (HA2 c Hcc). apply Hs; [|intros Hx; apply HA2, elem_of_app; by left|intros Hx; apply HA2, elem_of_app; by right]. by apply (concat_apart fs i j l m).
  - rewrite <-V5. apply (Permutation_app_inv_r l). rewrite <-app_assoc, (Permutation_app_comm (fc' ++ H') l), app_assoc, (concat_insert fs i l l' Hl), <-app_assoc, HP.
    by rewrite (Permutation_app_comm l (fc ++ H)), app_assoc.
  - rewrite (total_insert _ _ _ _ _ Hp). lia.
  - rewrite (total_insert _ _ _ _ _ Hp). lia.
  - rewrite (total_insert _ _ _ _ _ Hp). lia.
Qed.

(** Words of 32 bits. *)
Lemma u32_small z : 0 <= z < 2 ^ 31 -> u32 z = z.
Proof. intros. apply uwrap_small. unfold in_u. lia. Qed.

Lemma take_ok p st c r : linked (next st) c (c :: r) -> free_connection_n p = Z.of_nat (S (length r)) -> free_connection_n p < 2 ^ 31 -> 0 <= used_n p < 2 ^ 31 - 1 ->
  free_connection_n p + used_n p - change_n p = connection_n p -> 0 <= connection_n p ->
  exists p', take p c st = Some (c, p', st) /\ pool_ok (next st) p' r /\ change_n p' = change_n p /\ used_n p' = used_n p + 1 /\ connection_n p' = connection_n p.
Proof.
  intros (_ & H0 & q & Hq & HC) En Hf Hu Es H1. unfold take. rewrite Hq, (option_bind_eq _ _ _ eq_refl). rewrite !u32_small by lia. eexists. split; [reflexivity|]. split; [|done].
  constructor; cbn; [done|lia..|lia].
Qed.

(** The connection taken, and the pools after it. *)
Definition got (all : list Z) (w : world) (fs : list (list Z)) (fc H : list Z) (i : nat) (c : Z) (w' : world) : Prop :=
  c = 0 /\ w' = w /\ fs !! i = Some [] \/ c <> 0 /\ exists fs' fc', inv all w' fs' fc' (c :: H).

Lemma world_same w i p : pools w !! i = Some p -> W (<[i := p]> (pools w)) (common w) = w.
Proof. intros Hp. rewrite list_insert_id by done. by destruct w. Qed.

(** The pool takes [l1] from the common pool, which keeps [l2]. *)
Lemma refill_ok all w fs fc H i p c r l2 st1 num : inv all w fs fc H -> pools w !! i = Some p -> fs !! i = Some [] -> pool_ok (next (common w)) p [] ->
  0 <= used_n p <= Z.of_nat (length H) -> Z.of_nat (length fc) + Z.of_nat (length H) < 2 ^ 31 ->
  fc = (c :: r) ++ l2 -> linked (next st1) c (c :: r) -> linked (next st1) (comm_free st1) l2 -> comm_free_n st1 = Z.of_nat (length l2) -> num = Z.of_nat (S (length r)) ->
  (forall x, x ∉ fc -> next st1 !! x = next (common w) !! x) ->
  exists p', take (Pool (connections p) (connection_n p) (change_n p + num) c (u32 (free_connection_n p + num)) (read_events p) (write_events p) (used_n p)) c st1 = Some (c, p', st1) /\
    inv all (W (<[i := p']> (pools w)) st1) (<[i := r]> fs) l2 (c :: H).
Proof.
  intros HV Hp Hl [P1 P2 P3 P4 P5] Hu Hb -> HC HC2 Hn -> Hs. cbn [length] in P2. rewrite length_app in Hb. cbn [length] in Hb.
  assert (Ef : u32 (free_connection_n p + Z.of_nat (S (length r))) = Z.of_nat (S (length r))) by (rewrite P2; apply u32_small; lia). rewrite Ef.
  destruct (take_ok (Pool (connections p) (connection_n p) (change_n p + Z.of_nat (S (length r))) c (Z.of_nat (S (length r))) (read_events p) (write_events p) (used_n p)) st1 c r)
    as (p' & E & HO & E1 & E2 & E3); cbn [free_connection_n used_n change_n connection_n] in *; try done; try lia.
  exists p'. split; [exact E|].
  apply (inv_update all w fs ((c :: r) ++ l2) H i p [] p' r st1 l2 (c :: H) HV Hp Hl HO); try done.
  - intros x _ Hx _. by apply Hs.
  - intros x Hx. apply elem_of_cons in Hx as [->|Hx]; [apply (linked_in _ _ _ _ HC); by left|]. destruct (v_held _ _ _ _ _ HV x Hx) as [Hx0 Hx1]. split; [done|]. rewrite Hs; [done|].
    assert (HA : NoDup (concat fs ++ ((c :: r) ++ l2) ++ H)) by (rewrite (v_perm _ _ _ _ _ HV); apply (v_nodup _ _ _ _ _ HV)).
    apply NoDup_app in HA as (_ & _ & HA). apply NoDup_app in HA as (_ & HA & _). intros Hy. by apply (HA x).
  - cbn [app]. rewrite app_assoc. symmetry. apply (Permutation_middle (r ++ l2) H c).
  - rewrite Hn, (v_commn _ _ _ _ _ HV), E1, length_app. cbn [length]. lia.
  - rewrite E2. cbn [length]. lia.
Qed.

Lemma get_ok all w fs fc H i : inv all w fs fc H -> (i < length (pools w))%nat -> exists c w', run_op (Get i) w = Some (c, w') /\ got all w fs fc H i c w'.
Proof.
  intros HV Hi. apply lookup_lt_is_Some in Hi as [p Hp]. destruct (pool_at _ _ _ _ _ _ _ HV Hp) as (l & Hl & HO & Hu & Hb & Hch).
  cbn [run_op]. rewrite Hp, (option_bind_eq _ _ _ eq_refl). unfold conn_pool_get_connection. destruct (linked_empty _ _ _ (p_list _ _ _ HO)) as [Le1 Le2].
  destruct l as [|c l].
  - rewrite (proj2 (Z.eqb_eq _ _) (Le2 eq_refl)). cbn [negb]. destruct (Z.leb_spec 0 (change_n p)) as [L|L].
    { rewrite (option_bind_eq _ _ _ eq_refl), world_same by done. do 2 eexists. split; [reflexivity|]. by left. }
    replace (u32 (- change_n p)) with (- change_n p) by (symmetry; apply u32_small; lia). unfold get_comm_conn. pose proof (v_commn _ _ _ _ _ HV) as En.
    pose proof (v_comm _ _ _ _ _ HV) as HC. destruct (Z.eqb_spec (comm_free_n (common w)) 0) as [E0|E0].
    { rewrite (option_bind_eq _ _ _ eq_refl), Z.eqb_refl, (option_bind_eq _ _ _ eq_refl), world_same by done. do 2 eexists. split; [reflexivity|]. by left. }
    cbn [length] in Hb. assert (HA : NoDup (concat fs ++ fc ++ H)) by (rewrite (v_perm _ _ _ _ _ HV); apply (v_nodup _ _ _ _ _ HV)). apply NoDup_app in HA as (_ & _ & HA). apply NoDup_app in HA as (HN & _ & _).
    destruct (Z.leb_spec (comm_free_n (common w)) (- change_n p)) as [L2|L2].
    + destruct fc as [|c r]; [cbn in En; lia|]. destruct (HC) as (Ec & Hc0 & _). rewrite (option_bind_eq _ _ _ eq_refl), Ec, (proj2 (Z.eqb_neq _ _) Hc0).
      destruct (refill_ok all w fs (c :: r) H i p c r [] (St 0 0 (next (common w))) (comm_free_n (common w)) HV Hp Hl HO Hu ltac:(lia)) as (p' & E & HV'); try done; [by rewrite app_nil_r|by rewrite Ec in HC|].
      rewrite (option_bind_eq _ _ _ E). do 2 eexists. split; [reflexivity|]. right. split; [done|]. eauto.
    + destruct (walk_ok (next (common w)) (Z.to_nat (- change_n p)) (comm_free (common w)) (comm_free (common w)) fc HC ltac:(lia)) as (x & l1 & l2 & q & Efc & Hl1 & Ew & HC2).
      rewrite (option_bind_eq _ _ _ Ew). destruct (linked_in _ _ _ x HC) as [_ [y Hy]]; [rewrite Efc; apply elem_of_app; right; by left|]. rewrite Hy, (option_bind_eq _ _ _ eq_refl).
      rewrite Efc in HN, HC. pose proof (linked_cut _ _ _ _ _ HN HC) as HC1.
      assert (Hcr : exists c r, l1 ++ [x] = c :: r) by (destruct l1; cbn; eauto). destruct Hcr as (c & r & Ecr). rewrite Ecr in HC1. destruct (HC1) as (Ec & Hc0 & _).
      rewrite (option_bind_eq _ _ _ eq_refl), Ec, (proj2 (Z.eqb_neq _ _) Hc0).
      assert (Hlen : length fc = (length l1 + S (length l2))%nat) by (rewrite Efc, length_app; done). assert (Hr : S (length r) = S (length l1)) by (change (S (length r)) with (length (c :: r)); rewrite <-Ecr, length_app; cbn; lia).
      destruct (refill_ok all w fs fc H i p c r l2 (St q (u32 (comm_free_n (common w) - - change_n p)) (<[x := 0]> (next (common w)))) (- change_n p) HV Hp Hl HO Hu ltac:(lia)) as (p' & E & HV').
      * rewrite <-Ecr, <-app_assoc. exact Efc.
      * cbn [next]. by rewrite <-Ec at 1.
      * cbn [next comm_free]. apply conn_list_frame; [|done]. apply NoDup_app in HN as (_ & _ & HN). by apply NoDup_cons in HN as [? _].
      * cbn [comm_free_n]. rewrite u32_small; lia.
      * lia.
      * intros z Hz. cbn [next]. rewrite lookup_insert_ne; [done|]. intros ->. apply Hz. rewrite Efc. apply elem_of_app. right. by left.
      * rewrite (option_bind_eq _ _ _ E). do 2 eexists. split; [reflexivity|]. right. split; [done|]. eauto.
  - pose proof HO as [P1 P2 P3 P4 P5]. destruct (P1) as (Ec & Hc0 & _). rewrite Ec, (proj2 (Z.eqb_neq _ _) Hc0). cbn [negb]. cbn [length] in P2, Hb.
    rewrite Ec in P1. destruct (take_ok p (common w) c l P1) as (p' & E & HO' & E1 & E2 & E3); [lia..|]. rewrite (option_bind_eq _ _ _ E). do 2 eexists. split; [reflexivity|]. right. split; [done|].
    exists (<[i := l]> fs), fc. apply (inv_update all w fs fc H i p (c :: l) p' l (common w) fc (c :: H) HV Hp Hl HO'); try done; try apply HV.
    + intros x Hx. apply elem_of_cons in Hx as [->|Hx]; [apply (linked_in _ _ _ _ P1); by left|]. by apply (v_held _ _ _ _ _ HV).
    + rewrite app_assoc, <-Permutation_middle. by rewrite <-app_assoc.
    + lia.
    + rewrite E2. cbn [length]. lia.
Qed.

Lemma put_ok all w fs fc H1 c H2 i p : inv all w fs fc (H1 ++ c :: H2) -> pools w !! i = Some p -> 0 < used_n p ->
  exists w' fs' fc', run_op (Put i c) w = Some (0, w') /\ inv all w' fs' fc' (H1 ++ H2).
Proof.
  intros HV Hp Hu0. destruct (pool_at _ _ _ _ _ _ _ HV Hp) as (l & Hl & HO & Hu & Hb & Hch). cbn [run_op]. rewrite Hp, (option_bind_eq _ _ _ eq_refl).
  destruct (v_held _ _ _ _ _ HV c) as [Hc0 [q Hq]]; [apply elem_of_app; right; by left|].
  assert (HA : NoDup (concat fs ++ fc ++ H1 ++ c :: H2)) by (rewrite (v_perm _ _ _ _ _ HV); apply (v_nodup _ _ _ _ _ HV)).
  apply NoDup_app in HA as (_ & HA1 & HA). apply NoDup_app in HA as (_ & HA2 & HA3).
  assert (Hcl : c ∉ l). { intros Hc. apply (HA1 c); [apply list_elem_of_In, in_concat; exists l; split; apply list_elem_of_In; [by eapply list_elem_of_lookup_2|done]|].
    apply elem_of_app. right. apply elem_of_app. right. by left. }
  assert (Hcf : c ∉ fc). { intros Hc. apply (HA2 c Hc). apply elem_of_app. right. by left. }
  assert (Hh : forall q, forall x, x ∈ H1 ++ H2 -> x <> 0 /\ is_Some ((<[c := q]> (next (common w)) : links) !! x)).
  { intros q' x Hx. assert (x <> c). { intros ->. apply NoDup_app in HA3 as (_ & N1 & N2). apply NoDup_cons in N2 as [N2 _]. apply elem_of_app in Hx as [Hx|Hx]; [|done]. apply (N1 c Hx). by left. }
    rewrite lookup_insert_ne by done. apply (v_held _ _ _ _ _ HV). apply elem_of_app in Hx as [Hx|Hx]; apply elem_of_app; [by left|right; by right]. }
  unfold conn_pool_free_connection. pose proof HO as [P1 P2 P3 P4 P5]. pose proof (v_commn _ _ _ _ _ HV) as En. rewrite length_app in Hu, Hb. cbn [length] in Hu, Hb.
  destruct (Z.ltb_spec 0 (change_n p)) as [L|L].
  - unfold put_comm_conn. rewrite Hq, (option_bind_eq _ _ _ eq_refl). rewrite !(option_bind_eq _ _ _ eq_refl), !u32_small by lia. do 3 eexists. split; [reflexivity|].
    refine (inv_update all w fs fc (H1 ++ c :: H2) i p l _ l _ (c :: fc) (H1 ++ H2) HV Hp Hl _ _ _ _ _ _ _ _ _); cbn [next comm_free comm_free_n change_n used_n connection_n length].
    + constructor; cbn; [by apply conn_list_frame|lia..|lia].
    + intros x _ _ Hx. rewrite lookup_insert_ne; [done|]. intros ->. apply Hx, elem_of_app. right. by left.
    + by apply linked_push, HV.
    + lia.
    + apply Hh.
    + apply Permutation_app_head. cbn [app]. rewrite !app_assoc. apply Permutation_middle.
    + lia.
    + rewrite !length_app. cbn [length]. lia.
    + done.
  - rewrite Hq, (option_bind_eq _ _ _ eq_refl). rewrite !(option_bind_eq _ _ _ eq_refl), !u32_small by lia. do 3 eexists. split; [reflexivity|].
    refine (inv_update all w fs fc (H1 ++ c :: H2) i p l _ (c :: l) _ fc (H1 ++ H2) HV Hp Hl _ _ _ _ _ _ _ _ _); cbn [next comm_free comm_free_n change_n used_n connection_n length].
    + constructor; cbn; [by apply linked_push|lia..|lia].
    + intros x _ _ Hx. rewrite lookup_insert_ne; [done|]. intros ->. apply Hx, elem_of_app. right. by left.
    + by apply conn_list_frame, HV.
    + done.
    + apply Hh.
    + cbn [app]. rewrite !app_assoc. apply Permutation_middle.
    + lia.
    + rewrite !length_app. cbn [length]. lia.
    + done.
Qed.

(** A change of the counters of one pool. *)
Lemma forall2_insert_l s ps fs i p p' : Forall2 (pool_ok s) ps fs -> ps !! i = Some p -> (forall l, pool_ok s p l -> pool_ok s p' l) -> Forall2 (pool_ok s) (<[i := p']> ps) fs.
Proof.
  intros HF Hp H. apply Forall2_same_length_lookup. split; [rewrite length_insert; by eapply Forall2_length|]. intros j q m. destruct (decide (j = i)) as [->|Hj].
  - rewrite list_lookup_insert_eq by (by eapply lookup_lt_Some). intros [= <-] Hm. apply H. by eapply Forall2_lookup_lr.
  - rewrite list_lookup_insert_ne by done. intros Hq Hm. by eapply Forall2_lookup_lr.
Qed.

Lemma used_bound all w fs fc H i p : inv all w fs fc H -> pools w !! i = Some p -> used_n p < 2 ^ 31.
Proof. intros HV Hp. destruct (pool_at _ _ _ _ _ _ _ HV Hp) as (l & _ & _ & Hu & Hb & _). lia. Qed.

Lemma move_ok all w fs fc H i j n p : inv all w fs fc H -> pools w !! i = Some p -> (j < length (pools w))%nat -> 0 <= n <= used_n p ->
  exists w', run_op (Move i j n) w = Some (0, w') /\ inv all w' fs fc H.
Proof.
  intros HV Hp Hj Hn. cbn [run_op]. rewrite Hp, (option_bind_eq _ _ _ eq_refl). cbv zeta. pose proof (used_bound _ _ _ _ _ _ _ HV Hp) as Hb.
  set (ps := <[i := conn_pool_out p n]> (pools w)).
  destruct (lookup_lt_is_Some_2 ps j) as [q Hq]; [unfold ps; by rewrite length_insert|]. rewrite Hq, (option_bind_eq _ _ _ eq_refl). eexists. split; [reflexivity|].
  assert (Eo : used_n (conn_pool_out p n) = used_n p - n) by (cbn; apply u32_small; lia).
  assert (Hqb : 0 <= used_n q /\ used_n q + n < 2 ^ 31).
  { unfold ps in Hq. destruct (decide (j = i)) as [->|Hji].
    - rewrite list_lookup_insert_eq in Hq by (by eapply lookup_lt_Some). injection Hq as <-. lia.
    - rewrite list_lookup_insert_ne in Hq by done. destruct (pool_at _ _ _ _ _ _ _ HV Hq) as (l & _ & HO & Hu & Hb' & _).
      assert (used_n p + used_n q <= Z.of_nat (length H)); [|lia]. rewrite <-(v_used _ _ _ _ _ HV).
      pose proof (total_insert used_n (pools w) i p (Pool 0 0 0 0 0 0 0 0) Hp) as E. cbn [used_n] in E.
      assert (Hnn : forall r, r ∈ <[i := Pool 0 0 0 0 0 0 0 0]> (pools w) -> 0 <= used_n r).
      { intros r Hr. apply list_elem_of_lookup in Hr as [k Hk]. destruct (decide (k = i)) as [->|Hk']; [rewrite list_lookup_insert_eq in Hk by (by eapply lookup_lt_Some); by injection Hk as <-|].
        rewrite list_lookup_insert_ne in Hk by done. by destruct (pool_at _ _ _ _ _ _ _ HV Hk) as (? & _ & _ & [? _] & _). }
      pose proof (total_bound used_n _ j q Hnn) as B. rewrite list_lookup_insert_ne in B by done. specialize (B Hq). lia. }
  assert (Ei : used_n (conn_pool_in q n) = used_n q + n) by (cbn; apply u32_small; lia).
  destruct HV as [V1 V2 V3 V4 V5 V6 V7 V8 V9 V10]. constructor; cbn [pools common]; try done.
  - eapply forall2_insert_l; [|exact Hq|].
    + eapply forall2_insert_l; [exact V1|exact Hp|]. intros l [P1 P2 P3 P4 P5]. constructor; rewrite ?Eo; cbn; try done; lia.
    + intros l [P1 P2 P3 P4 P5]. constructor; rewrite ?Ei; cbn; try done; lia.
  - rewrite (total_insert _ _ _ _ _ Hq). unfold ps. rewrite (total_insert _ _ _ _ _ Hp). cbn. lia.
  - rewrite (total_insert _ _ _ _ _ Hq), Ei. unfold ps. rewrite (total_insert _ _ _ _ _ Hp), Eo. lia.
  - rewrite (total_insert _ _ _ _ _ Hq). unfold ps. rewrite (total_insert _ _ _ _ _ Hp). cbn. lia.
Qed.

(** ** Theorems *)

(** What the threads may do: a connection given back is in use, and no more
    connections move than are in use. *)
Definition allowed (o : op) (w : world) (H : list Z) : Prop :=
  match o with
  | Get i => (i < length (pools w))%nat
  | Put i c => c ∈ H /\ exists p, pools w !! i = Some p /\ 0 < used_n p
  | Move i j n => (j < length (pools w))%nat /\ exists p, pools w !! i = Some p /\ 0 <= n <= used_n p
  end.

(** The connections in use after an operation that returned [c]. *)
Definition in_use (o : op) (c : Z) (H : list Z) : list Z :=
  match o with
  | Get _ => if c =? 0 then H else c :: H
  | Put _ d => filter (fun x => x <> d) H
  | Move _ _ _ => H
  end.

Fixpoint run_ops (os : list op) (w : world) (H : list Z) : option (world * list Z) :=
  match os with [] => Some (w, H) | o :: os' => '(c, w) ← run_op o w; run_ops os' w (in_use o c H) end.
Fixpoint allowed_all (os : list op) (w : world) (H : list Z) : Prop :=
  match os with [] => True | o :: os' => allowed o w H /\ forall c w', run_op o w = Some (c, w') -> allowed_all os' w' (in_use o c H) end.

Lemma held_nodup all w fs fc H : inv all w fs fc H -> NoDup H.
Proof.
  intros HV. assert (HA : NoDup (concat fs ++ fc ++ H)) by (rewrite (v_perm _ _ _ _ _ HV); apply (v_nodup _ _ _ _ _ HV)).
  apply NoDup_app in HA as (_ & _ & HA). by apply NoDup_app in HA as (_ & _ & ?).
Qed.

Lemma filter_mid (H1 H2 : list Z) c : NoDup (H1 ++ c :: H2) -> filter (fun x => x <> c) (H1 ++ c :: H2) = H1 ++ H2.
Proof.
  intros HN. apply NoDup_app in HN as (_ & N1 & N2). apply NoDup_cons in N2 as [N2 _]. rewrite filter_app, filter_cons_False by tauto.
  rewrite !list_filter_all; [done|apply Forall_forall; intros x Hx ->; done|]. apply Forall_forall. intros x Hx ->. apply (N1 c Hx). by left.
Qed.

Lemma pool_op_ok all w fs fc H o : inv all w fs fc H -> allowed o w H -> exists c w' fs' fc', run_op o w = Some (c, w') /\ inv all w' fs' fc' (in_use o c H).
Proof.
  intros HV HA. destruct o as [i|i c|i j n]; cbn [allowed in_use] in *.
  - destruct (get_ok all w fs fc H i HV HA) as (c & w' & E & [(-> & -> & _)|(Hc & fs' & fc' & HV')]).
    + exists 0, w, fs, fc. split; [exact E|]. by rewrite Z.eqb_refl.
    + exists c, w', fs', fc'. split; [exact E|]. by rewrite (proj2 (Z.eqb_neq _ _) Hc).
  - destruct HA as [Hc (p & Hp & Hu)]. apply list_elem_of_split in Hc as (H1 & H2 & ->). destruct (put_ok all w fs fc H1 c H2 i p HV Hp Hu) as (w' & fs' & fc' & E & HV').
    exists 0, w', fs', fc'. split; [exact E|]. by rewrite filter_mid by (by eapply held_nodup).
  - destruct HA as [Hj (p & Hp & Hn)]. destruct (move_ok all w fs fc H i j n p HV Hp Hj Hn) as (w' & E & HV'). eauto 10.
Qed.

Lemma pool_ops_ok all os w fs fc H : inv all w fs fc H -> allowed_all os w H -> exists w' H' fs' fc', run_ops os w H = Some (w', H') /\ inv all w' fs' fc' H'.
Proof.
  revert w fs fc H. induction os as [|o os IH]; intros w fs fc H HV HA; [by exists w, H, fs, fc|]. destruct HA as [HA HB].
  destruct (pool_op_ok all w fs fc H o HV HA) as (c & w1 & fs1 & fc1 & E & HV1). cbn [run_ops]. rewrite (option_bind_eq _ _ _ E). eapply IH; [exact HV1|by apply HB].
Qed.

(** The pools of the threads, set up over arrays of connections that the allocator gave. *)
Definition zero_pool : conn_pool_t := Pool 0 0 0 0 0 0 0 0.
Fixpoint start (arrays : list (Z * Z)) : list conn_pool_t * links :=
  match arrays with
  | [] => ([], ∅)
  | (c, n) :: l => let '(ps, s) := start l in let '(_, p, s) := conn_pool_init c 1 1 zero_pool n s in (p :: ps, s)
  end.

Fixpoint conns (c : Z) (n : nat) : list Z := match n with O => [] | S n => c :: conns (c + sizeof_conn_t) n end.
Definition all_conns (arrays : list (Z * Z)) : list Z := concat ((fun a => conns a.1 (Z.to_nat a.2)) <$> arrays).

Record good_arrays (arrays : list (Z * Z)) : Prop := {
  ga_pos : Forall (fun a => 0 < a.1 /\ 0 < a.2) arrays;
  ga_apart : NoDup (all_conns arrays);
  ga_size : Z.of_nat (length (all_conns arrays)) < 2 ^ 31 }.

Lemma init_links_other c n s x : x ∉ conns c n -> init_links c n s !! x = s !! x.
Proof.
  revert c. induction n as [|n IH]; intros c Hx; [done|]. cbn [conns] in Hx. apply not_elem_of_cons in Hx as [H1 H2]. cbn [init_links]. rewrite lookup_insert_ne by congruence. by apply IH.
Qed.

Lemma conns_above c n x : x ∈ conns c n -> c <= x.
Proof.
  revert c. induction n as [|n IH]; intros c; cbn [conns]; [by intros H; apply not_elem_of_nil in H|]. intros H. apply elem_of_cons in H as [->|H]; [lia|]. apply IH in H. unfold sizeof_conn_t in *. lia.
Qed.

Lemma init_linked c n s : 0 < c -> linked (init_links c (S n) s) c (conns c (S n)).
Proof.
  revert c s. induction n as [|n IH]; intros c s Hc.
  - cbn. split; [done|]. split; [lia|]. exists 0. by rewrite lookup_insert_eq.
  - split; [done|]. split; [lia|]. exists (c + sizeof_conn_t). split; [cbn; by rewrite lookup_insert_eq|]. cbn [init_links].
    apply conn_list_frame; [|apply (IH (c + sizeof_conn_t) s); unfold sizeof_conn_t; lia]. intros H. apply conns_above in H. unfold sizeof_conn_t in H. lia.
Qed.

Lemma conns_length c n : length (conns c n) = n.
Proof. revert c. induction n as [|n IH]; intros c; [done|]. cbn. by rewrite IH. Qed.

Lemma start_ok arrays : good_arrays arrays -> let '(ps, s) := start arrays in
  inv (all_conns arrays) (W ps (conn_pool_common_init s)) ((fun a => conns a.1 (Z.to_nat a.2)) <$> arrays) [] [].
Proof.
  induction arrays as [|[c n] l IH]; intros [G1 G2 G3].
  - constructor; cbn; try done; try lia. intros c Hc. by apply not_elem_of_nil in Hc.
  - apply Forall_cons in G1 as [[Hc Hn] G1]. unfold all_conns in G2, G3. cbn in G2, G3, Hc, Hn. rewrite length_app in G3. apply NoDup_app in G2 as (N1 & N2 & N3).
    assert (GL : good_arrays l) by (constructor; [done|done|unfold all_conns; lia]). specialize (IH GL). cbn [start]. destruct (start l) as [ps s]. unfold conn_pool_init.
    rewrite (proj2 (Z.eqb_neq n 0)), (proj2 (Z.eqb_neq c 0)) by lia. cbn [Z.eqb]. destruct IH as [V1 V2 V3 V4 V5 V6 V7 V8 V9 V10]. cbn in V1, V5, V8, V9, V10. rewrite conns_length in G3.
    constructor; cbn; try done.
    + constructor.
      * constructor; cbn; rewrite ?conns_length; try lia. destruct (Z.to_nat n) as [|k] eqn:Ek; [lia|]. by apply init_linked.
      * apply Forall2_same_length_lookup. split; [by eapply Forall2_length|]. intros j p m Hp Hm. destruct (Forall2_lookup_lr _ _ _ _ _ _ V1 Hp Hm) as [P1 P2 P3 P4 P5]. constructor; try done.
        apply (linked_ext s); [|done]. intros x Hx. apply init_links_other. intros Hx'. apply (N2 x Hx'). apply list_elem_of_In, in_concat. exists m. split; apply list_elem_of_In; [by eapply list_elem_of_lookup_2|done].
    + by intros x Hx; apply not_elem_of_nil in Hx.
    + by rewrite app_nil_r.
    + apply NoDup_app. done.
    + rewrite length_app, conns_length. lia.
    + rewrite length_app, conns_length. unfold all_conns in V10. lia.
Qed.

(** C34. Connections are never lost or handed out twice.  Whatever the threads do
    in any order, taking connections, giving them back to their pool or to the
    common one, and moving connections in use between threads, the free lists
    of the pools, the common list and the connections in use are together all
    connections, each once; the counters are the lengths of the lists, and what
    the threads still owe the common pool is what it holds. *)
Theorem connections_conserved arrays os : good_arrays arrays ->
  let '(ps, s) := start arrays in allowed_all os (W ps (conn_pool_common_init s)) [] ->
  exists w H fs fc, run_ops os (W ps (conn_pool_common_init s)) [] = Some (w, H) /\ inv (all_conns arrays) w fs fc H.
Proof. intros HG. pose proof (start_ok arrays HG) as HS. destruct (start arrays) as [ps s]. intros HA. by eapply pool_ops_ok. Qed.

Ltac next_world := let c := fresh "c" in let w := fresh "w" in let E := fresh "E" in intros c w E; vm_compute in E; injection E as <- <-.

Lemma connections_conserved_witness : exists w H fs fc,
  run_ops [Get 0; Move 0 1 1; Put 1 1000; Get 0; Get 0; Get 0] (W (start [(1000, 2); (2000, 1)]).1 (conn_pool_common_init (start [(1000, 2); (2000, 1)]).2)) [] = Some (w, H) /\
  inv (all_conns [(1000, 2); (2000, 1)]) w fs fc H.
Proof.
  apply (connections_conserved [(1000, 2); (2000, 1)] [Get 0; Move 0 1 1; Put 1 1000; Get 0; Get 0; Get 0]).
  - constructor; by_decide.
  - split; [cbn; lia|]. next_world. split; [split; [cbn; lia|]; eexists; split; [reflexivity|]; cbn; lia|]. next_world.
    split; [split; [by_decide|]; eexists; split; [reflexivity|]; cbn; lia|]. next_world. split; [cbn; lia|]. next_world. split; [cbn; lia|]. next_world. split; [cbn; lia|]. by next_world.
Defined.

End ConnPool.
