(* ===== verification/MemPool.v ===== *)
(** * Memory pools

    core/dfs_memory_pool.c, .h: blocks obtained from malloc, from which memory
    is handed out in order, and large blocks of their own.  A pool is freed as a
    whole.

    malloc and free are an allocator of the interface of MemAllocator that
    aligns to 16 bytes.  The blocks of a pool are a list in the order of their
    links, [current] is the address of one of them, and the large blocks are a
    list of their nodes, which are memory of the pool.  A result [None] is
    exhausted fuel or a pointer to no block of the pool. *)

From Stdlib Require Import ZArith Lia Bool.
From stdpp Require Import base numbers gmap option list.
From S2P Require Import Prelude Mem MemAllocator.
Import MemAllocator.

Module MemPool.

Definition sizeof_pool_t : Z := 56.
Definition sizeof_pool_data_t : Z := 24.
Definition sizeof_pool_large_t : Z := 24.
Definition DFS_ALIGNMENT : Z := 8.

Definition dfs_align_ptr (p a : Z) : Z := Z.land (u64 (p + (a - 1))) (u64 (Z.lnot (a - 1))).

Record pool_data_t := Data { d_addr : Z; last : Z; end_ : Z }.
Record pool_large_t := Large { node : Z; l_alloc : Z; l_size : Z }.
Record pool_t := Pool { data : list pool_data_t; max : Z; current : Z; large : list pool_large_t }.

Definition set_data p d := Pool d (max p) (current p) (large p).
Definition set_large p l := Pool (data p) (max p) (current p) l.

Section pool.

Context {A : Type} `{!MemAllocator A}.

Definition memory_alloc (h : A) (sz : Z) : option (Z * A) := if sz =? 0 then Some (0, h) else a_alloc h sz.
Definition memory_free (h : A) (p : Z) : option A := if p =? 0 then Some h else snd <$> a_free h p.

Definition pool_create (h : A) (sz max_size : Z) : option (option pool_t * A) :=
  if sz =? 0 then Some (None, h)
  else
  let sz := if sz <? sizeof_pool_t then sz + sizeof_pool_t else sz in
  '(p, h) ← memory_alloc h sz;
  if p =? 0 then Some (None, h)
  else let rest := sz - sizeof_pool_t in
       Some (Some (Pool [Data p (p + sizeof_pool_t) (p + sz)] (if rest <? max_size then rest else max_size) p []), h).

(** The blocks from the current one on. *)
Fixpoint from_block (c : Z) (l : list pool_data_t) : option (list pool_data_t * list pool_data_t) :=
  match l with
  | [] => None
  | d :: l' => if d_addr d =? c then Some ([], l) else '(a, b) ← from_block c l'; Some (d :: a, b)
  end.

(** The loop of [pool_alloc]: the first block with room. *)
Fixpoint alloc_from (sz : Z) (l : list pool_data_t) : option (Z * list pool_data_t) :=
  match l with
  | [] => None
  | d :: l' =>
      let m := dfs_align_ptr (last d) DFS_ALIGNMENT in
      if (m <? end_ d) && (sz <=? end_ d - m) then Some (m, Data (d_addr d) (m + sz) (end_ d) :: l')
      else '(m, l'') ← alloc_from sz l'; Some (m, d :: l'')
  end.

(** The new current block: after the last block, but one, that is all but full. *)
Fixpoint next_current (l : list pool_data_t) (c : option Z) : option Z :=
  match l with
  | d :: (e :: _) as l' => next_current l' (if u64 (end_ d - last d) <? DFS_ALIGNMENT then Some (d_addr e) else c)
  | _ => c
  end.

Definition pool_alloc_block (h : A) (p : pool_t) (sz : Z) : option (Z * pool_t * A) :=
  if sz =? 0 then Some (0, p, h)
  else
  d ← head (data p);
  let psize := end_ d - d_addr d in
  '(nm, h) ← memory_alloc h psize;
  if nm =? 0 then Some (0, p, h)
  else
  '(_, l) ← from_block (current p) (data p);
  let m := dfs_align_ptr (nm + sizeof_pool_data_t) DFS_ALIGNMENT in
  let c := match next_current l None with Some c => c | None => nm end in
  Some (m, Pool (data p ++ [Data nm (m + sz) (nm + psize)]) (max p) c (large p), h).

Definition small_alloc (h : A) (p : pool_t) (sz : Z) : option (Z * pool_t * A) :=
  '(a, l) ← from_block (current p) (data p);
  match alloc_from sz l with
  | Some (m, l) => Some (m, set_data p (a ++ l), h)
  | None => pool_alloc_block h p sz
  end.

(** [pool_alloc] and [pool_alloc_large] call each other; [alloc] is the former. *)
Definition pool_alloc_large (alloc : A -> pool_t -> Z -> option (Z * pool_t * A)) (h : A) (p : pool_t) (sz : Z) : option (Z * pool_t * A) :=
  if sz =? 0 then Some (0, p, h)
  else
  '(b, h) ← memory_alloc h sz;
  if b =? 0 then Some (0, p, h)
  else
  '(n, p, h) ← alloc h p sizeof_pool_large_t;
  if n =? 0 then h ← memory_free h b; Some (0, p, h)
  else Some (b, set_large p (Large n b sz :: large p), h).

Fixpoint pool_alloc (fuel : nat) (h : A) (p : pool_t) (sz : Z) : option (Z * pool_t * A) :=
  if sz =? 0 then Some (0, p, h)
  else if sz <=? max p then small_alloc h p sz
  else match fuel with O => None | S fuel => pool_alloc_large (pool_alloc fuel) h p sz end.

(** The memory handed out is zeroed in [m]. *)
Definition pool_calloc (fuel : nat) (h : A) (p : pool_t) (sz : Z) (m : Mem.mem) : option (Z * pool_t * A * Mem.mem) :=
  '(a, p, h) ← pool_alloc fuel h p sz;
  if a =? 0 then Some (a, p, h, m) else m ← Mem.wr m a (replicate (Z.to_nat sz) 0); Some (a, p, h, m).

(** [posix_memalign] is not [malloc]: its answer is a parameter. *)
Definition pool_memalign (memalign : A -> Z -> Z -> option (Z * A)) (fuel : nat) (h : A) (p : pool_t) (sz al : Z) : option (Z * pool_t * A) :=
  '(b, h) ← (if sz =? 0 then Some (0, h) else memalign h al sz);
  if b =? 0 then Some (0, p, h)
  else
  '(n, p, h) ← pool_alloc fuel h p sizeof_pool_large_t;
  if n =? 0 then h ← memory_free h b; Some (0, p, h)
  else Some (b, set_large p (Large n b sz :: large p), h).

Fixpoint free_large (h : A) (l : list pool_large_t) : option A :=
  match l with [] => Some h | x :: l' => h ← memory_free h (l_alloc x); free_large h l' end.
Fixpoint free_blocks (h : A) (l : list pool_data_t) : option A :=
  match l with [] => Some h | d :: l' => h ← memory_free h (d_addr d); free_blocks h l' end.

Definition pool_reset (h : A) (p : pool_t) : option (pool_t * A) :=
  d ← head (data p);
  h ← free_large h (large p);
  Some (Pool ((fun d => Data (d_addr d) (d_addr d + sizeof_pool_t) (end_ d)) <$> data p) (max p) (d_addr d)
          ((fun x => Large (node x) 0 (l_size x)) <$> large p), h).

Definition pool_destroy (h : A) (p : pool_t) : option A := h ← free_large h (large p); free_blocks h (data p).

(** A division by zero is undefined. *)
Definition dfs_align (d a : Z) : option Z := if a =? 0 then None else Some (if d mod a =? 0 then d else u64 (d + (a - d mod a))).

End pool.

End MemPool.
