(* ===== verification/MemPoolOk.v ===== *)
(** * Memory pools, proved

    The invariant of a pool: its blocks and large blocks are blocks of the
    heap, the memory handed out lies in the used part of a block, and no two
    pieces of it overlap.  Every allocation keeps it, whether malloc succeeds
    or not, and the destruction returns to the heap all that the pool took. *)

From Stdlib Require Import ZArith Lia Bool.
From stdpp Require Import base numbers gmap option list.
From S2P Require Import Prelude MemAllocator MemPool.
Import MemAllocator MemPool.

Module MemPoolOk.

(** ** Alignment *)

Lemma align_ptr_down x : 0 <= x < 2 ^ 64 -> Z.land x (u64 (Z.lnot (DFS_ALIGNMENT - 1))) = 8 * (x / 8).
Proof.
  intros Hx. change (u64 (Z.lnot (DFS_ALIGNMENT - 1))) with (Z.ldiff (Z.ones 64) (Z.ones 3)).
  replace (8 * (x / 8)) with (Z.ldiff x (Z.ones 3)) by (rewrite Z.ldiff_ones_r, Z.shiftr_div_pow2, Z.shiftl_mul_pow2 by lia; change (2 ^ 3) with 8; lia).
  apply Z.bits_inj'. intros n Hn. rewrite Z.land_spec, !Z.ldiff_spec. destruct (Z.testbit x n) eqn:E; [|done]. cbn [andb].
  rewrite (Z.ones_spec_low 64); [done|]. split; [done|]. destruct (Z.lt_ge_cases n 64) as [|H]; [done|].
  rewrite Z.bits_above_log2 in E; [done|lia|]. destruct (Z.eq_dec x 0) as [->|]; [cbn; lia|]. apply Z.log2_lt_pow2; [lia|].
  apply Z.lt_le_trans with (2 ^ 64); [lia|]. apply Z.pow_le_mono_r; lia.
Qed.

Lemma align_ptr_up x : 0 <= x < 2 ^ 63 -> x <= dfs_align_ptr x DFS_ALIGNMENT <= x + 7 /\ dfs_align_ptr x DFS_ALIGNMENT mod 8 = 0.
Proof.
  intros Hx. unfold dfs_align_ptr. assert (u64 (x + (DFS_ALIGNMENT - 1)) = x + 7) as ->.
  { unfold u64, DFS_ALIGNMENT. rewrite uwrap_small; [lia|]. unfold in_u. lia. }
  rewrite align_ptr_down by lia. split; [|rewrite Z.mul_comm; apply Z.mod_mul; lia].
  pose proof (Z.div_mod (x + 7) 8 ltac:(lia)). pose proof (Z.mod_pos_bound (x + 7) 8 ltac:(lia)). lia.
Qed.

(** ** The loops *)

Lemma from_block_ok c l : c ∈ d_addr <$> l -> exists a d b, from_block c l = Some (a, d :: b) /\ l = a ++ d :: b.
Proof.
  induction l as [|d l IH]; [by intros H; apply elem_of_nil in H|]. cbn [fmap list_fmap from_block]. destruct (Z.eqb_spec (d_addr d) c) as [E|E].
  - intros _. by exists [], d, l.
  - intros H. apply elem_of_cons in H as [->|H]; [done|]. destruct (IH H) as (a & e & b & Eq & ->). exists (d :: a), e, b. by rewrite Eq.
Qed.

Lemma alloc_from_some sz l m l' : alloc_from sz l = Some (m, l') -> exists a d b, l = a ++ d :: b /\ m = dfs_align_ptr (last d) DFS_ALIGNMENT /\
  m + sz <= end_ d /\ l' = a ++ Data (d_addr d) (m + sz) (end_ d) :: b.
Proof.
  revert l'. induction l as [|d l IH]; intros l'; [done|]. cbn [alloc_from]. destruct (_ && _) eqn:E.
  - intros [= <- <-]. apply andb_true_iff in E as [_ E]. exists [], d, l. split; [done|]. split; [done|]. split; [lia|done].
  - destruct (alloc_from sz l) as [[m' l'']|]; [|done]. intros [= -> <-]. destruct (IH l'' eq_refl) as (a & e & b & -> & H & H' & ->).
    exists (d :: a), e, b. done.
Qed.

Lemma next_current_in l c c' : next_current l c = Some c' -> c = Some c' \/ c' ∈ d_addr <$> l.
Proof.
  revert c. induction l as [|d l IH]; intros c; [by left|]. destruct l as [|e l]; [by left|]. cbn [next_current]. intros H.
  apply IH in H as [H|H]; [|right; by right]. destruct (_ <? _); [|by left]. injection H as <-. right. right. by left.
Qed.

(** ** The invariant *)

Section pool.

Context {A : Type} `{!MemAllocator A, !AllocatorLaws A}.

(** malloc hands out addresses of the user's half of the address space. *)
Hypothesis malloc_range : forall (h : A) b, a_ok h -> b ∈ a_live h -> b.1 + b.2 < 2 ^ 63.

Record block_ok (psize : Z) (d : pool_data_t) (b : Z * Z) : Prop := {
  bk_addr : d_addr d = b.1;
  bk_end : end_ d = d_addr d + psize;
  bk_size : psize <= b.2;
  bk_last : d_addr d + sizeof_pool_data_t <= last d <= end_ d }.

Definition large_ok (x : pool_large_t) (b : Z * Z) : Prop := l_alloc x = b.1 /\ 0 < l_size x <= b.2.

(** A piece of memory in the used part of a block. *)
Definition in_block (l : list pool_data_t) (q : Z * Z) : Prop :=
  0 < q.2 /\ q.1 mod 8 = 0 /\ exists d, d ∈ l /\ d_addr d + sizeof_pool_data_t <= q.1 /\ q.1 + q.2 <= last d.

(** The nodes of the large blocks are memory of the pool, [us] is what its user got of the blocks. *)
Definition nodes (p : pool_t) : list (Z * Z) := (fun x => (node x, sizeof_pool_large_t)) <$> large p.
Definition areas (p : pool_t) : list (Z * Z) := (fun x => (l_alloc x, l_size x)) <$> large p.

Record ok (rest : list (Z * Z)) (psize : Z) (h : A) (p : pool_t) (bs ls us : list (Z * Z)) : Prop := {
  ok_heap : a_ok h;
  ok_live : a_live h ≡ₚ bs ++ ls ++ rest;
  ok_blocks : Forall2 (block_ok psize) (data p) bs;
  ok_large : Forall2 large_ok (large p) ls;
  ok_current : current p ∈ d_addr <$> data p;
  ok_max : sizeof_pool_large_t <= max p <= psize - sizeof_pool_t;
  ok_in : Forall (in_block (data p)) (us ++ nodes p);
  ok_apart : apart (us ++ nodes p) }.

Lemma pool_blocks_apart rest psize h p bs ls us : ok rest psize h p bs ls us -> apart bs.
Proof. intros [Hh HL _ _ _ _ _ _] i j x y Hi Hj. apply (apart_perm _ _ HL (a_apart _ Hh)); by apply lookup_app_l_Some. Qed.

Lemma block_range rest psize h p bs ls us d : ok rest psize h p bs ls us -> d ∈ data p -> 0 < d_addr d /\ end_ d < 2 ^ 63.
Proof.
  intros [Hh HL HB _ _ _ _ _] Hd. apply list_elem_of_lookup in Hd as [i Hi]. destruct (Forall2_lookup_l _ _ _ _ _ HB Hi) as (b & Hb & [-> -> ? _]).
  assert (b ∈ a_live h) as Hl. { rewrite HL. apply elem_of_app. left. by eapply list_elem_of_lookup_2. }
  pose proof (malloc_range h b Hh Hl). destruct b as [x n]. destruct (a_range h x n Hh Hl) as (? & ? & ?). cbn in *. lia.
Qed.

(** Blocks at different places of the list do not overlap. *)
Lemma blocks_disjoint rest psize h p bs ls us i j d e : ok rest psize h p bs ls us -> data p !! i = Some d -> data p !! j = Some e -> i <> j ->
  end_ d <= d_addr e \/ end_ e <= d_addr d.
Proof.
  intros H Hi Hj Hn. pose proof (ok_blocks _ _ _ _ _ _ _ H) as HB. destruct (Forall2_lookup_l _ _ _ _ _ HB Hi) as (b & Hb & [-> -> ? _]).
  destruct (Forall2_lookup_l _ _ _ _ _ HB Hj) as (c & Hc & [-> -> ? _]).
  destruct (pool_blocks_apart _ _ _ _ _ _ _ H i j b c Hb Hc Hn) as [_ [?|?]]; lia.
Qed.

(** ** Growing the used part of a block *)

Lemma grown_in a d b last' q : last d <= last' -> in_block (a ++ d :: b) q -> in_block (a ++ Data (d_addr d) last' (end_ d) :: b) q.
Proof.
  intros Hl (H0 & H8 & e & He & H1 & H2). split; [done|]. split; [done|]. apply elem_of_app in He as [He|He]; [|apply elem_of_cons in He as [->|He]].
  - exists e. split; [by apply elem_of_app; left|done].
  - eexists. split; [apply elem_of_app; right; by left|]. cbn. split; [done|lia].
  - exists e. split; [apply elem_of_app; right; by right|done].
Qed.

(** What was handed out before does not overlap the free part of a block. *)
Lemma used_below rest psize h p bs ls us a d b q m sz : ok rest psize h p bs ls us -> data p = a ++ d :: b -> q ∈ us ++ nodes p -> last d <= m -> 0 < sz -> m + sz <= end_ d ->
  m <> q.1 /\ disjoint (m, sz) q.
Proof.
  intros H E Hq Hm Hz He. pose proof (proj1 (Forall_forall _ _) (ok_in _ _ _ _ _ _ _ H) q Hq) as (H0 & _ & e & Hin & H1 & H2).
  unfold sizeof_pool_data_t in H1. assert (data p !! length a = Some d) as Hd by (rewrite E; by apply list_lookup_middle).
  apply list_elem_of_lookup in Hin as [j Hj]. unfold disjoint. cbn [fst snd]. destruct (decide (j = length a)) as [->|Hn].
  - rewrite Hd in Hj. injection Hj as <-. lia.
  - destruct (Forall2_lookup_l _ _ _ _ _ (ok_blocks _ _ _ _ _ _ _ H) Hj) as (? & _ & [_ _ _ ?]).
    destruct (Forall2_lookup_l _ _ _ _ _ (ok_blocks _ _ _ _ _ _ _ H) Hd) as (? & _ & [_ _ _ Hl]). unfold sizeof_pool_data_t in Hl.
    destruct (blocks_disjoint _ _ _ _ _ _ _ _ _ _ _ H Hd Hj ltac:(done)); lia.
Qed.

Lemma grow_ok rest psize h p bs ls us a d b m sz : ok rest psize h p bs ls us -> data p = a ++ d :: b -> last d <= m -> m mod 8 = 0 -> 0 < sz -> m + sz <= end_ d ->
  ok rest psize h (set_data p (a ++ Data (d_addr d) (m + sz) (end_ d) :: b)) bs ls ((m, sz) :: us).
Proof.
  intros H E Hm H8 Hz He. assert (forall q, q ∈ us ++ nodes p -> m <> q.1 /\ disjoint (m, sz) q) as HU by (intros q Hq; by eapply used_below).
  destruct H as [Hh HL HB HG HC HM HI HA]. rewrite E in HB, HC, HI. apply Forall2_app_inv_l in HB as (b1 & b2 & HB1 & HB2 & ->).
  apply Forall2_cons_inv_l in HB2 as (bd & b3 & HD & HB3 & ->). split; cbn [data max current large set_data]; [done|done| |done| |done| |].
  - apply Forall2_app; [done|]. constructor; [|done]. destruct HD as [? ? ? Hl]. split; cbn; [done..|]. lia.
  - rewrite fmap_app, fmap_cons in HC |- *. done.
  - change (nodes (set_data p _)) with (nodes p). cbn [app]. constructor.
    + split; [done|]. split; [done|]. eexists. split; [apply elem_of_app; right; by left|]. cbn. destruct HD as [_ _ _ Hl]. lia.
    + eapply Forall_impl; [exact HI|]. intros q. apply grown_in. lia.
  - change (nodes (set_data p _)) with (nodes p). cbn [app]. by apply apart_cons.
Qed.

(** ** A new block *)

Lemma in_block_more l l' q : in_block l q -> in_block (l ++ l') q.
Proof. intros (H0 & H8 & e & He & H1). split; [done|]. split; [done|]. exists e. split; [by apply elem_of_app; left|done]. Qed.

Lemma block_added rest psize h p bs ls us h' nm n c sz : ok rest psize h p bs ls us -> a_ok h' -> a_live h' ≡ₚ (nm, n) :: a_live h -> psize <= n -> 0 < sz <= max p ->
  c ∈ nm :: (d_addr <$> data p) -> let m := dfs_align_ptr (nm + sizeof_pool_data_t) DFS_ALIGNMENT in
  0 < m /\ ok rest psize h' (Pool (data p ++ [Data nm (m + sz) (nm + psize)]) (max p) c (large p)) (bs ++ [(nm, n)]) ls ((m, sz) :: us).
Proof.
  intros H Hh' HL' Hn Hz Hc m. assert ((nm, n) ∈ a_live h') as Hin by (rewrite HL'; by left).
  pose proof (malloc_range h' _ Hh' Hin) as Hr. destruct (a_range h' nm n Hh' Hin) as (Hnm & _ & _). cbn [fst snd] in Hr.
  pose proof (ok_max _ _ _ _ _ _ _ H) as HM. unfold sizeof_pool_large_t, sizeof_pool_t in HM.
  destruct (align_ptr_up (nm + sizeof_pool_data_t)) as [Hm H8]; [unfold sizeof_pool_data_t; lia|]. fold m in Hm, H8. unfold sizeof_pool_data_t in Hm.
  split; [lia|]. destruct H as [Hh HL HB HG HC _ HI HA]. split; cbn [data max current large]; [done| |  |done| |done| |].
  - rewrite HL', HL. by rewrite <-app_assoc, Permutation_middle.
  - apply Forall2_app; [done|]. constructor; [|done]. split; cbn; unfold sizeof_pool_data_t; [done|done|done|lia].
  - rewrite fmap_app. apply elem_of_app. apply elem_of_cons in Hc as [->|Hc]; [right; by left|by left].
  - change (nodes (Pool _ _ _ _)) with (nodes p). cbn [app]. constructor; [|eapply Forall_impl; [exact HI|]; intros q; apply in_block_more].
    split; [cbn; lia|]. split; [done|]. eexists. split; [apply elem_of_app; right; by left|]. cbn. unfold sizeof_pool_data_t. lia.
  - change (nodes (Pool _ _ _ _)) with (nodes p). cbn [app]. apply apart_cons. split; [done|]. intros q Hq.
    pose proof (proj1 (Forall_forall _ _) HI q Hq) as (H0 & _ & e & He & H1 & H2). apply list_elem_of_lookup in He as [j Hj].
    destruct (Forall2_lookup_l _ _ _ _ _ HB Hj) as (b & Hb & [E1 E2 ? Hl]). unfold sizeof_pool_data_t in *.
    assert (b ∈ a_live h) as Hbl by (rewrite HL; apply elem_of_app; left; by eapply list_elem_of_lookup_2).
    destruct (proj2 (proj1 (apart_cons _ _) (apart_perm _ _ HL' (a_apart _ Hh'))) b Hbl) as [_ HD]. unfold disjoint in *. cbn [fst snd] in *. lia.
Qed.

Lemma same_live rest psize h p bs ls us h' : ok rest psize h p bs ls us -> a_ok h' -> a_live h' ≡ₚ a_live h -> ok rest psize h' p bs ls us.
Proof. intros [Hh HL ? ? ? ? ? ?] Hh' E. split; try done. by rewrite E. Qed.

Lemma memory_alloc_ok (h : A) sz : a_ok h -> 0 < sz < 2 ^ 64 -> exists p h', memory_alloc h sz = Some (p, h') /\ a_ok h' /\
  (p = 0 /\ a_live h' = a_live h \/ exists n, p <> 0 /\ sz <= n /\ a_live h' ≡ₚ (p, n) :: a_live h).
Proof.
  intros Hh Hz. unfold memory_alloc. rewrite (proj2 (Z.eqb_neq _ _)) by lia. destruct (a_alloc_ok h sz Hh Hz) as (p & h' & -> & Hh' & [?|(n & Hn & HL)]).
  - exists p, h'. auto.
  - exists p, h'. split; [done|]. split; [done|]. right. exists n. split; [|done].
    destruct (a_range h' p n Hh') as (? & _); [rewrite HL; by left|lia].
Qed.

Lemma psize_range rest psize h p bs ls us : ok rest psize h p bs ls us -> exists d, head (data p) = Some d /\ end_ d - d_addr d = psize /\ 0 < psize < 2 ^ 63.
Proof.
  intros H. pose proof (ok_current _ _ _ _ _ _ _ H) as HC. destruct (data p) as [|d l] eqn:E; [by apply elem_of_nil in HC|]. exists d. split; [done|].
  assert (d ∈ data p) as Hd by (rewrite E; by left). pose proof (block_range _ _ _ _ _ _ _ _ H Hd). pose proof (ok_max _ _ _ _ _ _ _ H) as HM.
  pose proof (ok_blocks _ _ _ _ _ _ _ H) as HB. rewrite E in HB. apply Forall2_cons_inv_l in HB as (b & ? & [_ He _ _] & _ & _).
  unfold sizeof_pool_large_t, sizeof_pool_t in HM. lia.
Qed.

(** ** Allocation *)

(** An allocation from the blocks gives memory, or there is none and nothing changes. *)
Lemma small_alloc_ok rest psize h p bs ls us sz : ok rest psize h p bs ls us -> 0 < sz <= max p ->
  exists m p' h', small_alloc h p sz = Some (m, p', h') /\ max p' = max p /\ large p' = large p /\
  (m = 0 /\ p' = p /\ ok rest psize h' p bs ls us \/ m <> 0 /\ m mod 8 = 0 /\ exists bs', ok rest psize h' p' bs' ls ((m, sz) :: us)).
Proof.
  intros H Hz. unfold small_alloc. destruct (from_block_ok _ _ (ok_current _ _ _ _ _ _ _ H)) as (a & d & b & EF & ED). rewrite (option_bind_eq _ _ _ EF).
  destruct (alloc_from sz (d :: b)) as [[m l']|] eqn:EA.
  - apply alloc_from_some in EA as (a' & e & b' & E' & Em & He & ->). rewrite E', app_assoc in ED.
    assert (e ∈ data p) as Hin by (rewrite ED; apply elem_of_app; right; by left). pose proof (block_range _ _ _ _ _ _ _ _ H Hin) as Hr.
    apply list_elem_of_lookup in Hin as [j Hj]. destruct (Forall2_lookup_l _ _ _ _ _ (ok_blocks _ _ _ _ _ _ _ H) Hj) as (? & _ & [_ _ _ Hl]). unfold sizeof_pool_data_t in Hl.
    destruct (align_ptr_up (last e)) as [Hm H8]; [lia|]. rewrite <-Em in Hm, H8. do 3 eexists. split; [reflexivity|]. split; [done|]. split; [done|]. right.
    split; [lia|]. split; [done|]. exists bs. rewrite app_assoc. eapply grow_ok; try done; lia.
  - unfold pool_alloc_block. rewrite (proj2 (Z.eqb_neq _ _)) by lia. destruct (psize_range _ _ _ _ _ _ _ H) as (f & EH & EP & HP).
    rewrite (option_bind_eq _ _ _ EH), EP. cbv zeta. destruct (memory_alloc_ok h psize (ok_heap _ _ _ _ _ _ _ H)) as (nm & h' & EM & Hh' & [[-> HL]|(n & H0 & Hn & HL)]); [lia| |]; rewrite (option_bind_eq _ _ _ EM).
    + do 3 eexists. split; [reflexivity|]. split; [done|]. split; [done|]. left. split; [done|]. split; [done|]. eapply same_live; [done|done|by rewrite HL].
    + rewrite (proj2 (Z.eqb_neq _ _) H0), (option_bind_eq _ _ _ EF).
      destruct (block_added _ _ _ _ _ _ _ h' nm n (match next_current (d :: b) None with Some c => c | None => nm end) sz H Hh' HL Hn Hz) as [Hm HK].
      { destruct (next_current _ _) as [c|] eqn:EC; [|by left]. right. apply next_current_in in EC as [?|EC]; [done|]. rewrite ED, fmap_app. apply elem_of_app. by right. }
      do 3 eexists. split; [reflexivity|]. split; [done|]. split; [done|]. right. split; [lia|]. split; [|by eexists].
      destruct (align_ptr_up (nm + sizeof_pool_data_t)) as [_ H8]; [|exact H8]. assert ((nm, n) ∈ a_live h') as Hin by (rewrite HL; by left).
      pose proof (malloc_range h' _ Hh' Hin). pose proof (a_range h' nm n Hh' Hin). unfold sizeof_pool_data_t. pose proof (ok_max _ _ _ _ _ _ _ H) as HM.
      unfold sizeof_pool_large_t, sizeof_pool_t in HM. cbn in *. lia.
Qed.

Lemma memory_free_ok (h : A) b : a_ok h -> b ∈ a_live h -> exists h', memory_free h b.1 = Some h' /\ a_ok h' /\ a_live h ≡ₚ b :: a_live h'.
Proof.
  destruct b as [p n]. intros Hh Hb. destruct (a_free_ok h p n Hh Hb) as (h' & E & ? & ?). exists h'. unfold memory_free. cbn [fst].
  destruct (a_range h p n Hh Hb) as (? & _). rewrite (proj2 (Z.eqb_neq _ _)) by lia. by rewrite E.
Qed.

(** A block of the heap that the pool does not know yet becomes a large block. *)
Lemma large_added rest psize h p bs ls us m b n sz : ok ((b, n) :: rest) psize h p bs ls ((m, sizeof_pool_large_t) :: us) -> 0 < sz <= n ->
  ok rest psize h (set_large p (Large m b sz :: large p)) bs ((b, n) :: ls) us.
Proof.
  intros [Hh HL HB HG HC HM HI HA] Hz. split; cbn [data max current large set_large]; [done| |done| |done|done| |].
  - rewrite HL. by rewrite <-(Permutation_middle ls rest).
  - constructor; [|done]. split; [done|done].
  - change (nodes (set_large p _)) with ((m, sizeof_pool_large_t) :: nodes p). by rewrite <-Permutation_middle.
  - change (nodes (set_large p _)) with ((m, sizeof_pool_large_t) :: nodes p). eapply apart_perm; [|exact HA]. apply Permutation_middle.
Qed.

Lemma rest_added rest psize h p bs ls us h' x : ok rest psize h p bs ls us -> a_ok h' -> a_live h' ≡ₚ x :: a_live h -> ok (x :: rest) psize h' p bs ls us.
Proof. intros [? HL ? ? ? ? ? ?] Hh' HL'. split; try done. rewrite HL', HL. by rewrite !app_assoc, Permutation_middle. Qed.

Lemma rest_freed rest psize h p bs ls us x : ok (x :: rest) psize h p bs ls us -> exists h', memory_free h x.1 = Some h' /\ ok rest psize h' p bs ls us.
Proof.
  intros [Hh HL ? ? ? ? ? ?]. destruct (memory_free_ok h x Hh) as (h' & E & Hh' & HL'); [rewrite HL; apply elem_of_app; right; apply elem_of_app; right; by left|].
  exists h'. split; [done|]. split; try done. apply (Permutation_cons_inv (a := x)). rewrite <-HL', HL. by rewrite !app_assoc, Permutation_middle.
Qed.

(** The memory a request is answered with: of a block, or a large block. *)
Definition answered (rest : list (Z * Z)) (psize : Z) (us : list (Z * Z)) (p : pool_t) (sz m : Z) (h' : A) (p' : pool_t) : Prop :=
  if sz <=? max p then m mod 8 = 0 /\ large p' = large p /\ exists bs' ls', ok rest psize h' p' bs' ls' ((m, sz) :: us)
  else (exists n, large p' = Large n m sz :: large p) /\ exists bs' ls', ok rest psize h' p' bs' ls' us.

Definition outcome (rest : list (Z * Z)) (psize : Z) (us : list (Z * Z)) (p : pool_t) (sz m : Z) (h' : A) (p' : pool_t) : Prop :=
  max p' = max p /\ (m = 0 /\ p' = p /\ (exists bs' ls', ok rest psize h' p bs' ls' us) \/ m <> 0 /\ answered rest psize us p sz m h' p').

Lemma pool_alloc_small fuel h p sz : 0 < sz <= max p -> pool_alloc fuel h p sz = small_alloc h p sz.
Proof. intros Hz. destruct fuel; cbn [pool_alloc]; rewrite (proj2 (Z.eqb_neq _ _)), (proj2 (Z.leb_le _ _)) by lia; done. Qed.

Lemma alloc_large_ok rest psize h p bs ls us sz : ok rest psize h p bs ls us -> max p < sz -> 0 < sz < 2 ^ 64 ->
  exists m p' h', pool_alloc_large (pool_alloc 0) h p sz = Some (m, p', h') /\ outcome rest psize us p sz m h' p'.
Proof.
  intros H Hs Hz. unfold pool_alloc_large, outcome, answered. rewrite (proj2 (Z.eqb_neq _ _)), (proj2 (Z.leb_gt _ _) Hs) by lia.
  destruct (memory_alloc_ok h sz (ok_heap _ _ _ _ _ _ _ H) Hz) as (b & h1 & E1 & Hh1 & [[-> HL]|(n & H0 & Hn & HL)]); rewrite (option_bind_eq _ _ _ E1).
  { do 3 eexists. split; [reflexivity|]. split; [done|]. left. split; [done|]. split; [done|]. exists bs, ls. eapply same_live; [done|done|by rewrite HL]. }
  rewrite (proj2 (Z.eqb_neq _ _) H0). pose proof (ok_max _ _ _ _ _ _ _ H) as [HM _]. pose proof (rest_added _ _ _ _ _ _ _ _ _ H Hh1 HL) as HK.
  assert (0 < sizeof_pool_large_t <= max p) as HN by (split; [done|exact HM]). rewrite (pool_alloc_small 0 h1 p _ HN).
  destruct (small_alloc_ok _ _ _ _ _ _ _ sizeof_pool_large_t HK) as (m & p2 & h2 & E2 & EM & EL & [(-> & -> & HK2)|(Hm0 & H8 & bs' & HK2)]); [exact HN| |]; rewrite (option_bind_eq _ _ _ E2).
  - destruct (rest_freed _ _ _ _ _ _ _ _ HK2) as (h3 & E3 & HK3). cbn [fst Z.eqb] in E3 |- *. rewrite (option_bind_eq _ _ _ E3).
    do 3 eexists. split; [reflexivity|]. split; [done|]. left. eauto.
  - rewrite (proj2 (Z.eqb_neq _ _) Hm0). do 3 eexists. split; [reflexivity|]. split; [done|]. right. split; [done|]. split; [exists m; cbn; by rewrite EL|].
    exists bs', ((b, n) :: ls). apply large_added; [done|lia].
Qed.

Lemma pool_alloc_ok rest psize h p bs ls us sz : ok rest psize h p bs ls us -> 0 < sz < 2 ^ 64 ->
  exists m p' h', pool_alloc 1 h p sz = Some (m, p', h') /\ outcome rest psize us p sz m h' p'.
Proof.
  intros H Hz. destruct (Z.le_gt_cases sz (max p)) as [Hs|Hs].
  - rewrite pool_alloc_small by lia. unfold outcome, answered. rewrite (proj2 (Z.leb_le _ _) Hs).
    destruct (small_alloc_ok _ _ _ _ _ _ _ sz H ltac:(lia)) as (m & p' & h' & -> & EM & EL & [(-> & -> & HK)|(H0 & H8 & bs' & HK)]); do 3 eexists; (split; [reflexivity|]); (split; [done|]).
    + left. eauto.
    + right. eauto 8.
  - cbn [pool_alloc]. rewrite (proj2 (Z.eqb_neq _ _)), (proj2 (Z.leb_gt _ _) Hs) by lia. by eapply alloc_large_ok.
Qed.

(** ** Sequences of allocations, and the end of a pool *)

(** The requests that are answered, with the size asked for. *)
Fixpoint pool_allocs (h : A) (p : pool_t) (szs : list Z) : option (list (Z * Z) * pool_t * A) :=
  match szs with
  | [] => Some ([], p, h)
  | sz :: szs => '(m, p, h) ← pool_alloc 1 h p sz; '(l, p, h) ← pool_allocs h p szs; Some (if m =? 0 then l else (m, sz) :: l, p, h)
  end.

Lemma pool_allocs_ok szs rest psize h p bs ls us : ok rest psize h p bs ls us -> Forall (fun sz => 0 < sz < 2 ^ 64) szs ->
  exists l p' h' bs' ls' us', pool_allocs h p szs = Some (l, p', h') /\ ok rest psize h' p' bs' ls' us' /\ l ++ us ++ areas p ≡ₚ us' ++ areas p' /\ max p' = max p /\
  Forall (fun q => q.2 <= max p -> q.1 mod 8 = 0) l.
Proof.
  revert h p bs ls us. induction szs as [|sz szs IH]; intros h p bs ls us H HF; [by exists [], p, h, bs, ls, us|]. apply Forall_cons in HF as [Hz HF]. cbn [pool_allocs].
  destruct (pool_alloc_ok _ _ _ _ _ _ _ sz H Hz) as (m & p1 & h1 & E1 & EM & [(-> & -> & bs1 & ls1 & H1)|(H0 & HN)]); rewrite (option_bind_eq _ _ _ E1).
  - destruct (IH _ _ _ _ _ H1 HF) as (l & p' & h' & bs' & ls' & us' & E & K & HP & HX & H8). rewrite (option_bind_eq _ _ _ E). cbn [Z.eqb]. by exists l, p', h', bs', ls', us'.
  - unfold answered in HN. rewrite (proj2 (Z.eqb_neq _ _) H0). destruct (Z.leb_spec sz (max p)) as [Hs|Hs].
    + destruct HN as (Ha & EL & bs1 & ls1 & H1). destruct (IH _ _ _ _ _ H1 HF) as (l & p' & h' & bs' & ls' & us' & E & K & HP & HX & H8).
      rewrite (option_bind_eq _ _ _ E). exists ((m, sz) :: l), p', h', bs', ls', us'. split; [done|]. split; [done|]. rewrite EM in *. split; [|split; [done|by constructor]].
      rewrite <-HP. unfold areas. rewrite EL. cbn [app]. by rewrite <-Permutation_middle.
    + destruct HN as ((n & EL) & bs1 & ls1 & H1). destruct (IH _ _ _ _ _ H1 HF) as (l & p' & h' & bs' & ls' & us' & E & K & HP & HX & H8).
      rewrite (option_bind_eq _ _ _ E). exists ((m, sz) :: l), p', h', bs', ls', us'. split; [done|]. split; [done|]. rewrite EM in *. split; [|split; [done|]].
      * rewrite <-HP. unfold areas. rewrite EL, fmap_cons. cbn [l_alloc l_size app]. by rewrite <-!Permutation_middle.
      * constructor; [cbn; lia|done].
Qed.

Lemma free_large_ok xs : forall (h : A) ls rest, a_ok h -> a_live h ≡ₚ ls ++ rest -> Forall2 large_ok xs ls -> exists h', free_large h xs = Some h' /\ a_ok h' /\ a_live h' ≡ₚ rest.
Proof.
  induction xs as [|x xs IH]; intros h ls rest Hh HL HF; inversion HF as [|? b ? ls' [Ea _] HF' E1 E2]; subst; [by exists h|].
  destruct (memory_free_ok h b Hh) as (h1 & E & Hh1 & HL1); [rewrite HL; by left|]. cbn [free_large]. rewrite Ea, (option_bind_eq _ _ _ E).
  apply (IH h1 ls' rest); [done| |done]. apply (Permutation_cons_inv (a := b)). by rewrite <-HL1, HL.
Qed.

Lemma free_blocks_ok psize ds : forall (h : A) bs rest, a_ok h -> a_live h ≡ₚ bs ++ rest -> Forall2 (block_ok psize) ds bs -> exists h', free_blocks h ds = Some h' /\ a_ok h' /\ a_live h' ≡ₚ rest.
Proof.
  induction ds as [|d ds IH]; intros h bs rest Hh HL HF; inversion HF as [|? b ? bs' [Ea _ _ _] HF' E1 E2]; subst; [by exists h|].
  destruct (memory_free_ok h b Hh) as (h1 & E & Hh1 & HL1); [rewrite HL; by left|]. cbn [free_blocks]. rewrite Ea, (option_bind_eq _ _ _ E).
  apply (IH h1 bs' rest); [done| |done]. apply (Permutation_cons_inv (a := b)). by rewrite <-HL1, HL.
Qed.

Lemma pool_destroy_ok rest psize h p bs ls us : ok rest psize h p bs ls us -> exists h', pool_destroy h p = Some h' /\ a_ok h' /\ a_live h' ≡ₚ rest.
Proof.
  intros [Hh HL HB HG _ _ _ _]. unfold pool_destroy. destruct (free_large_ok (large p) h ls (bs ++ rest)) as (h1 & E & Hh1 & HL1); [done| |done|].
  - rewrite HL, !app_assoc. by rewrite (Permutation_app_comm bs ls).
  - rewrite (option_bind_eq _ _ _ E). by eapply free_blocks_ok.
Qed.

Lemma pool_create_ok h sz max_size p h' : a_ok h -> 0 < sz < 2 ^ 63 -> pool_create h sz max_size = Some (Some p, h') -> sizeof_pool_large_t <= max p ->
  exists psize bs, ok (a_live h) psize h' p bs [] [] /\ large p = [].
Proof.
  intros Hh Hz. unfold pool_create. rewrite (proj2 (Z.eqb_neq _ _)) by lia. set (sz' := if _ <? _ then _ else _).
  assert (56 <= sz' < 2 ^ 64) as Hz' by (unfold sz', sizeof_pool_t; destruct (Z.ltb_spec sz 56); lia).
  destruct (memory_alloc_ok h sz' Hh ltac:(lia)) as (a & h1 & E & Hh1 & [[-> HL]|(n & H0 & Hn & HL)]); rewrite (option_bind_eq _ _ _ E); [done|].
  rewrite (proj2 (Z.eqb_neq _ _) H0). intros [= <- <-] HM. exists sz', [(a, n)]. split; [|done]. split; cbn [data max current large] in *; [done|by rewrite HL| |done| | | |].
  - constructor; [|done]. split; cbn; unfold sizeof_pool_t, sizeof_pool_data_t; lia || done.
  - by left.
  - split; [done|]. destruct (Z.ltb_spec (sz' - sizeof_pool_t) max_size); lia.
  - constructor.
  - intros i j x y Hi. by destruct i.
Qed.

(** ** What is handed out is memory of its own *)

Definition inside (q b : Z * Z) : Prop := b.1 <= q.1 /\ q.1 + q.2 <= b.1 + b.2 /\ 0 < q.2.

Lemma apart_app l l' : apart (l ++ l') <-> apart l /\ apart l' /\ forall x y, x ∈ l -> y ∈ l' -> x.1 <> y.1 /\ disjoint x y.
Proof.
  induction l as [|a l IH]; cbn [app].
  - split; [|naive_solver]. intros H. split; [intros i j x y Hi; by destruct i|]. split; [done|]. intros x y Hx. by apply elem_of_nil in Hx.
  - rewrite !apart_cons, IH. setoid_rewrite elem_of_app. setoid_rewrite elem_of_cons. naive_solver.
Qed.

Lemma inside_apart q b c : inside q b -> 0 <= c.2 -> b.1 <> c.1 /\ disjoint b c -> q.1 <> c.1 /\ disjoint q c.
Proof. intros (H1 & H2 & H3) Hc [Hn HD]. unfold disjoint in *. lia. Qed.

Lemma insides_apart q b r c : inside q b -> inside r c -> b.1 <> c.1 /\ disjoint b c -> q.1 <> r.1 /\ disjoint q r.
Proof. intros (H1 & H2 & H3) (H4 & H5 & H6) [Hn HD]. unfold disjoint in *. lia. Qed.

Lemma parts_inside rest psize h p bs ls us q : ok rest psize h p bs ls us -> q ∈ us ++ nodes p -> exists b, b ∈ bs /\ inside q b.
Proof.
  intros H Hq. pose proof (proj1 (Forall_forall _ _) (ok_in _ _ _ _ _ _ _ H) q Hq) as (H0 & _ & e & He & H1 & H2). apply list_elem_of_lookup in He as [j Hj].
  destruct (Forall2_lookup_l _ _ _ _ _ (ok_blocks _ _ _ _ _ _ _ H) Hj) as (b & Hb & [E1 E2 ? Hl]). exists b. split; [by eapply list_elem_of_lookup_2|].
  unfold inside, sizeof_pool_data_t in *. lia.
Qed.

Lemma areas_inside rest psize h p bs ls us : ok rest psize h p bs ls us -> Forall2 inside (areas p) ls.
Proof.
  intros H. pose proof (ok_large _ _ _ _ _ _ _ H) as HG. unfold areas. apply Forall2_fmap_l. eapply Forall2_impl; [exact HG|]. intros x b [E1 E2]. unfold inside. cbn. lia.
Qed.

Lemma inside_list_apart l l' : Forall2 inside l l' -> apart l' -> apart l.
Proof.
  intros HF HA i j x y Hi Hj Hn. destruct (Forall2_lookup_l _ _ _ _ _ HF Hi) as (b & Hb & Hx). destruct (Forall2_lookup_l _ _ _ _ _ HF Hj) as (c & Hc & Hy).
  eapply insides_apart; [done..|]. by apply (HA i j).
Qed.

(** The memory handed out, the nodes and what the heap holds besides do not overlap. *)
Lemma all_apart rest psize h p bs ls us : ok rest psize h p bs ls us -> apart ((us ++ nodes p) ++ areas p ++ rest).
Proof.
  intros H. pose proof (apart_perm _ _ (ok_live _ _ _ _ _ _ _ H) (a_apart _ (ok_heap _ _ _ _ _ _ _ H))) as HL. apply apart_app in HL as (_ & HLR & HX).
  apply apart_app in HLR as (HL & HR & HY). pose proof (areas_inside _ _ _ _ _ _ _ H) as HI.
  assert (forall y, y ∈ rest -> 0 <= y.2) as HS. { intros [a n] Hy. apply (a_range h a n (ok_heap _ _ _ _ _ _ _ H)). rewrite (ok_live _ _ _ _ _ _ _ H). apply elem_of_app. right. apply elem_of_app. by right. }
  assert (forall y, y ∈ areas p -> exists c, c ∈ ls /\ inside y c) as HG.
  { intros y Hy. apply list_elem_of_lookup in Hy as [j Hj]. destruct (Forall2_lookup_l _ _ _ _ _ HI Hj) as (c & Hc & ?). exists c. split; [by eapply list_elem_of_lookup_2|done]. }
  apply apart_app. split; [apply (ok_apart _ _ _ _ _ _ _ H)|]. split.
  - apply apart_app. split; [by eapply inside_list_apart|]. split; [done|]. intros x y Hx Hy. destruct (HG x Hx) as (c & Hc & Hin).
    eapply inside_apart; [done|by apply HS|by apply HY].
  - intros x y Hx Hy. destruct (parts_inside _ _ _ _ _ _ _ _ H Hx) as (b & Hb & Hin). apply elem_of_app in Hy as [Hy|Hy].
    + destruct (HG y Hy) as (c & Hc & Hin'). eapply insides_apart; [done..|]. apply HX; [done|]. apply elem_of_app. by left.
    + eapply inside_apart; [done|by apply HS|]. apply HX; [done|]. apply elem_of_app. by right.
Qed.

(** Every answer lies in a block that the heap has handed out. *)
Lemma answers_inside rest psize h p bs ls us q : ok rest psize h p bs ls us -> q ∈ us ++ areas p -> exists b, b ∈ a_live h /\ inside q b.
Proof.
  intros H Hq. pose proof (ok_live _ _ _ _ _ _ _ H) as HL. setoid_rewrite HL. setoid_rewrite elem_of_app. setoid_rewrite elem_of_app. apply elem_of_app in Hq as [Hq|Hq].
  - destruct (parts_inside _ _ _ _ _ _ _ q H) as (b & Hb & Hin); [apply elem_of_app; by left|]. eauto.
  - apply list_elem_of_lookup in Hq as [j Hj]. destruct (Forall2_lookup_l _ _ _ _ _ (areas_inside _ _ _ _ _ _ _ H) Hj) as (c & Hc & ?). apply list_elem_of_lookup_2 in Hc. eauto.
Qed.

End pool.

(** ** The properties *)

(** C33. A pool hands out memory safely, whatever malloc answers: any sequence of
    requests on a new pool runs without undefined behaviour, each piece of
    memory handed out lies in a block that the pool has from malloc, pieces of
    a size within the limit of the pool are aligned, and no piece overlaps another, a node of the
    list of large blocks, or a block that was allocated before.  Destroying
    the pool then gives back to malloc exactly what the pool has taken.  The limit of
    the pool is at least the 24 bytes of a node of that list: with less, a large request
    would ask for its node as a large request again, without end. *)
Theorem pool_safe {A} `{!MemAllocator A, !AllocatorLaws A} (malloc_range : forall (h : A) b, a_ok h -> b ∈ a_live h -> b.1 + b.2 < 2 ^ 63)
  (h : A) sz max_size p h1 szs : a_ok h -> 0 < sz < 2 ^ 63 -> pool_create h sz max_size = Some (Some p, h1) -> sizeof_pool_large_t <= max p ->
  Forall (fun n => 0 < n < 2 ^ 64) szs ->
  exists given p' h2 h3, pool_allocs h1 p szs = Some (given, p', h2) /\ apart (given ++ nodes p' ++ a_live h) /\
    Forall (fun q => exists b, b ∈ a_live h2 /\ inside q b) given /\ Forall (fun q => q.2 <= max p -> q.1 mod 8 = 0) given /\
    pool_destroy h2 p' = Some h3 /\ a_live h3 ≡ₚ a_live h.
Proof.
  intros Hh Hz EC HM HF. destruct (pool_create_ok h sz max_size p h1 Hh Hz EC HM) as (psize & bs & HK & EL).
  destruct (pool_allocs_ok malloc_range szs _ _ _ _ _ _ _ HK HF) as (given & p' & h2 & bs' & ls' & us' & EA & HK' & HP & _ & H8).
  destruct (pool_destroy_ok _ _ _ _ _ _ _ HK') as (h3 & ED & _ & HL3). unfold areas in HP at 1. rewrite EL in HP. cbn [fmap list_fmap app] in HP. rewrite app_nil_r in HP.
  exists given, p', h2, h3. split; [done|]. split; [|split; [|done]].
  - eapply apart_perm; [|exact (all_apart _ _ _ _ _ _ _ HK')]. rewrite HP, <-!app_assoc. apply Permutation_app_head. rewrite !app_assoc. apply Permutation_app_tail, Permutation_app_comm.
  - apply Forall_forall. intros q Hq. eapply answers_inside; [done|]. by rewrite <-HP.
Qed.

(** The first request of a size within the limit is answered from the first block. *)
Lemma first_small {A} `{!MemAllocator A} (h : A) a e lim xs sz fuel : 0 < a -> e < 2 ^ 63 -> 0 < sz <= lim -> sz + 7 <= e - (a + sizeof_pool_t) ->
  let m := dfs_align_ptr (a + sizeof_pool_t) DFS_ALIGNMENT in
  m <> 0 /\ pool_alloc fuel h (Pool [Data a (a + sizeof_pool_t) e] lim a xs) sz = Some (m, Pool [Data a (m + sz) e] lim a xs, h).
Proof.
  intros Ha He Hz Hs m. destruct (align_ptr_up (a + sizeof_pool_t)) as [Hm _]; [unfold sizeof_pool_t in *; lia|]. fold m in Hm.
  split; [unfold sizeof_pool_t in *; lia|]. rewrite pool_alloc_small by done.
  unfold small_alloc. cbn [from_block data current d_addr]. rewrite Z.eqb_refl, (option_bind_eq _ _ _ eq_refl). cbn [alloc_from last end_]. fold m.
  rewrite (proj2 (Z.ltb_lt _ _)), (proj2 (Z.leb_le _ _)) by lia. done.
Qed.

(** The first large block of a new pool. *)
Lemma first_large {A} `{!MemAllocator A} (h : A) a e lim n b p1 h2 : 0 < a -> e < 2 ^ 63 -> sizeof_pool_large_t <= lim < n -> sizeof_pool_large_t + 7 <= e - (a + sizeof_pool_t) ->
  pool_alloc 1 h (Pool [Data a (a + sizeof_pool_t) e] lim a []) n = Some (b, p1, h2) -> b <> 0 ->
  let m := dfs_align_ptr (a + sizeof_pool_t) DFS_ALIGNMENT in p1 = Pool [Data a (m + sizeof_pool_large_t) e] lim a [Large m b n].
Proof.
  intros Ha He Hl Hs EA Hb m. assert (0 < sizeof_pool_large_t <= lim) as HN by (unfold sizeof_pool_large_t in *; lia). cbn [pool_alloc max] in EA.
  rewrite (proj2 (Z.eqb_neq n 0)), (proj2 (Z.leb_gt n lim)) in EA by lia. unfold pool_alloc_large in EA. rewrite (proj2 (Z.eqb_neq n 0)) in EA by lia.
  destruct (memory_alloc h n) as [[q g]|]; [|done]. rewrite (option_bind_eq _ _ _ eq_refl) in EA. destruct (q =? 0); [injection EA; congruence|].
  destruct (first_small g a e lim [] sizeof_pool_large_t 0 Ha He HN Hs) as [Hm ES]. fold m in Hm, ES. rewrite (option_bind_eq _ _ _ ES), (proj2 (Z.eqb_neq m 0) Hm) in EA.
  by injection EA as -> <- _.
Qed.

Lemma fresh_pool {A} `{!MemAllocator A} (h : A) sz max_size p h1 : pool_create h sz max_size = Some (Some p, h1) -> exists a e, p = Pool [Data a (a + sizeof_pool_t) e] (max p) a [].
Proof.
  unfold pool_create. destruct (sz =? 0); [done|]. destruct (memory_alloc h _) as [[q g]|]; [|done]. rewrite (option_bind_eq _ _ _ eq_refl). destruct (q =? 0); [done|].
  intros EC. injection EC as <- _. by do 2 eexists.
Qed.

(** A pool that is reset forgets the memory of the nodes of its large blocks
    but not the nodes: they stay in its list, and the next request that the
    first block answers gets the memory of a node that is still linked, which its
    user then overwrites. *)
Theorem pool_reset_reuses_nodes {A} `{!MemAllocator A, !AllocatorLaws A} (malloc_range : forall (h : A) b, a_ok h -> b ∈ a_live h -> b.1 + b.2 < 2 ^ 63)
  (h : A) sz max_size p h1 n b p1 h2 : a_ok h -> 0 < sz < 2 ^ 63 -> pool_create h sz max_size = Some (Some p, h1) -> 32 <= max p < n -> n < 2 ^ 64 ->
  pool_alloc 1 h1 p n = Some (b, p1, h2) -> b <> 0 ->
  exists p2 h3 x p3, pool_reset h2 p1 = Some (p2, h3) /\ pool_alloc 1 h3 p2 sizeof_pool_large_t = Some (x, p3, h3) /\ x <> 0 /\ x ∈ node <$> large p3.
Proof.
  intros Hh Hz EC HM Hn EA Hb. destruct (pool_create_ok h sz max_size p h1 Hh Hz EC) as (psize & bs & HK & EL); [unfold sizeof_pool_large_t; lia|].
  destruct (fresh_pool _ _ _ _ _ EC) as (a & e & Ep). destruct (pool_alloc_ok malloc_range _ _ _ _ _ _ _ n HK) as (b' & p1' & h2' & EA' & _ & HO); [lia|].
  rewrite EA in EA'. injection EA' as <- <- <-. destruct HO as [[? _]|[_ HO]]; [done|]. unfold answered in HO. rewrite (proj2 (Z.leb_gt n (max p))) in HO by lia. destruct HO as [_ (bs' & ls' & HK')].
  destruct (psize_range malloc_range _ _ _ _ _ _ _ HK) as (d & Hd & EP & _). assert (d = Data a (a + sizeof_pool_t) e) as -> by (rewrite Ep in Hd; by injection Hd).
  destruct (block_range malloc_range _ _ _ _ _ _ _ (Data a (a + sizeof_pool_t) e) HK) as [Ha He]; [rewrite Ep; by left|]. cbn [d_addr end_] in *.
  pose proof (proj2 (ok_max _ _ _ _ _ _ _ HK)) as HX. assert (sizeof_pool_large_t + 7 <= e - (a + sizeof_pool_t)) as Hroom by (unfold sizeof_pool_large_t; lia).
  rewrite Ep in EA. apply first_large in EA; [|done|done|unfold sizeof_pool_large_t; lia|done|done]. subst p1.
  destruct HK' as [Hh2 HL2 _ HG _ _ _ _]. assert (a_live h2 ≡ₚ ls' ++ bs' ++ a_live h) as HL3 by (by rewrite HL2, !app_assoc, (Permutation_app_comm bs' ls')).
  destruct (free_large_ok _ h2 ls' (bs' ++ a_live h) Hh2 HL3 HG) as (h3 & EF & _).
  unfold pool_reset. cbn [data head]. rewrite (option_bind_eq _ _ _ eq_refl), (option_bind_eq _ _ _ EF). cbn [fmap list_fmap data max large d_addr end_ node l_size].
  do 4 eexists. split; [reflexivity|]. destruct (first_small h3 a e (max p) [Large (dfs_align_ptr (a + sizeof_pool_t) DFS_ALIGNMENT) 0 n] sizeof_pool_large_t 1 Ha He) as [Hm ES]; [unfold sizeof_pool_large_t; lia|done|].
  rewrite ES. split; [reflexivity|]. split; [done|]. by left.
Qed.

(** ** An allocator *)

(** Memory is handed out upwards from an address and never reused. *)
Record bump := Bump { top : Z; blocks : list (Z * Z) }.

Definition bump_alloc (s : bump) (sz : Z) : option (Z * bump) := Some (if top s + sz <? 2 ^ 62 then (top s, Bump (top s + sz) ((top s, sz) :: blocks s)) else (0, s)).
Definition bump_free (s : bump) (p : Z) : option (bool * bump) := Some (true, Bump (top s) (filter (fun b => b.1 <> p) (blocks s))).

#[local] Instance bump_allocator : MemAllocator bump := {| a_alloc := bump_alloc; a_split_alloc s _ := Some (0, 0, s); a_free := bump_free |}.

Record bump_ok (s : bump) : Prop := {
  bu_top : 0 < top s < 2 ^ 62;
  bu_apart : apart (blocks s);
  bu_below : Forall (fun b => 0 < b.1 /\ 0 < b.2 /\ b.1 + b.2 <= top s) (blocks s) }.

Lemma apart_filter p sz l : apart l -> (p, sz) ∈ l -> l ≡ₚ (p, sz) :: filter (fun b => b.1 <> p) l.
Proof.
  induction l as [|[q n] l IH]; [intros _ H; by apply elem_of_nil in H|]. intros HA Hin. apply apart_cons in HA as [HA HQ]. apply elem_of_cons in Hin as [[= <- <-]|Hin].
  - rewrite filter_cons_False by (cbn; naive_solver). rewrite list_filter_all; [done|]. apply Forall_forall. intros b Hb E. destruct (HQ b Hb) as [Hn _]. by cbn in *.
  - rewrite filter_cons_True by (cbn; apply (HQ _ Hin)). rewrite (IH HA Hin) at 1. apply Permutation_swap.
Qed.

Lemma apart_sub l P `{!forall x, Decision (P x)} : apart l -> apart (filter P l).
Proof.
  induction l as [|b l IH]; [done|]. intros HA. apply apart_cons in HA as [HA HB]. rewrite filter_cons. destruct (decide (P b)); [|by apply IH].
  apply apart_cons. split; [by apply IH|]. intros y Hy. apply list_elem_of_filter in Hy as [_ Hy]. by apply HB.
Qed.

#[local] Program Instance bump_laws : AllocatorLaws bump := {| a_ok := bump_ok; a_live := blocks |}.
Next Obligation. by intros s []. Qed.
Next Obligation. intros s p sz [Ht _ HB] Hin. pose proof (proj1 (Forall_forall _ _) HB _ Hin). cbn in *. lia. Qed.
Next Obligation.
  intros s sz [Ht HA HB] Hz. unfold a_alloc. cbn [bump_allocator]. unfold bump_alloc. destruct (Z.ltb_spec (top s + sz) (2 ^ 62)) as [Hs|Hs]; [|exists 0, s; split; [done|]; split; [done|by left]].
  do 2 eexists. split; [reflexivity|]. split; [|right; exists sz; split; [lia|done]]. split; cbn [top blocks]; [lia| |].
  - apply apart_cons. split; [done|]. intros b Hb. pose proof (proj1 (Forall_forall _ _) HB b Hb) as Hx. cbn beta in Hx. unfold disjoint. cbn [fst snd]. lia.
  - constructor; [cbn; lia|]. eapply Forall_impl; [exact HB|]. intros b. cbn. lia.
Qed.
Next Obligation. intros s r H. exists 0, 0, s. split; [done|]. split; [done|]. by left. Qed.
Next Obligation.
  intros s p sz [Ht HA HB] Hin. eexists. split; [reflexivity|]. split; [|by apply apart_filter]. split; cbn [top blocks]; [done|by apply apart_sub|].
  apply Forall_forall. intros b Hb. apply list_elem_of_filter in Hb as [_ Hb]. by apply (proj1 (Forall_forall _ _) HB).
Qed.

Lemma bump_range (h : bump) b : a_ok h -> b ∈ a_live h -> b.1 + b.2 < 2 ^ 63.
Proof. intros [Ht _ HB] Hb. pose proof (proj1 (Forall_forall _ _) HB b Hb) as Hx. cbn beta in Hx. lia. Qed.

Definition heap0 : bump := Bump 4096 [].
Definition pool0 : pool_t := Pool [Data 4096 4152 4608] 256 4096 [].
Definition heap1 : bump := Bump 4608 [(4096, 512)].

Lemma heap0_ok : a_ok heap0.
Proof. split; [done| |constructor]. intros i j x y Hi. by destruct i. Qed.

Lemma pool_safe_witness : exists given p' h2 h3, pool_allocs heap1 pool0 [100; 200; 256; 1000; 2 ^ 62; 8] = Some (given, p', h2) /\ apart (given ++ nodes p' ++ a_live heap0) /\
  Forall (fun q => exists b, b ∈ a_live h2 /\ inside q b) given /\ Forall (fun q => q.2 <= max pool0 -> q.1 mod 8 = 0) given /\ pool_destroy h2 p' = Some h3 /\ a_live h3 ≡ₚ a_live heap0.
Proof. apply (pool_safe bump_range heap0 512 256 pool0 heap1); [exact heap0_ok|lia|reflexivity|done|repeat constructor; lia]. Defined.

Lemma pool_reset_reuses_nodes_witness : exists p2 h3 x p3,
  pool_reset (Bump 5608 [(4608, 1000); (4096, 512)]) (Pool [Data 4096 4176 4608] 256 4096 [Large 4152 4608 1000]) = Some (p2, h3) /\
  pool_alloc 1 h3 p2 sizeof_pool_large_t = Some (x, p3, h3) /\ x <> 0 /\ x ∈ node <$> large p3.
Proof. apply (pool_reset_reuses_nodes bump_range heap0 512 256 pool0 heap1 1000 4608); [exact heap0_ok|lia|reflexivity|done|lia|vm_compute; reflexivity|lia]. Defined.

End MemPoolOk.
