(* ===== verification/Faio.v ===== *)
(** * Asynchronous file I/O: the queue of tasks and the managers

    faio/faio_data_manager.c, faio_handler_manager.c, faio_notifier_manager.c
    and faio_manager.c.  The event loops push tasks on one queue, linked
    through the tasks themselves, and the worker threads pop them, run the handler of
    their type and call back.

    Tasks are a store from addresses to records; an address outside it is not
    a task, and using one is undefined ([None]).  The lock of the queue makes a
    push and a pop one step each; the look at the size before a push, which is
    not under the lock, is part of the operation here and a step of its own among
    the threads in FaioWorker. *)

From Stdlib Require Import ZArith Lia Bool.
From stdpp Require Import base numbers gmap option list.
From S2P Require Import Prelude.

Module Faio.

Definition FAIO_OK : Z := 0.
Definition FAIO_ERROR : Z := -1.
Definition DEFAULT_QUE_SIZE : Z := 1024.
Definition NULL : Z := 0.

Inductive FAIO_IO_TYPE := FAIO_IO_TYPE_READ | FAIO_IO_TYPE_WRITE | FAIO_IO_TYPE_SENDFILE.
Inductive FAIO_TASK_STATE := FAIO_STATE_WAIT | FAIO_STATE_DOING | FAIO_STATE_DONE | FAIO_STATE_CANCEL.
Inductive faio_err := ERR_NONE | ERR_DATA_CALLBACK_NULL | ERR_DATA_TASK_NULL | ERR_DATA_TASK_TOO_MANY | ERR_DATA_NOTIFIER_NULL | ERR_HANDLER_NULL | ERR_HANDLER_REDEF.
Inductive task_err := TASK_NO_ERR | TASK_TOO_MANY | TASK_HANDLER_NULL | TASK_HANDLER_ERR.

Record faio_data_task_t := Task { next : Z; io_type : FAIO_IO_TYPE; notifier : Z; t_err : task_err; cancel_flag : bool; t_state : FAIO_TASK_STATE }.

Notation tasks := (gmap Z faio_data_task_t).

Definition set_next (t : faio_data_task_t) (n : Z) := Task n (io_type t) (notifier t) (t_err t) (cancel_flag t) (t_state t).
Definition set_err (t : faio_data_task_t) (e : task_err) := Task (next t) (io_type t) (notifier t) e (cancel_flag t) (t_state t).
Definition set_state (t : faio_data_task_t) (s : FAIO_TASK_STATE) := Task (next t) (io_type t) (notifier t) (t_err t) (cancel_flag t) s.

(** ** The queue *)

Record faio_data_queue_t := Que { queue_start : Z; queue_end : Z; size : Z }.
Record faio_data_manager_t := Mgr { req_queue : faio_data_queue_t; max_size : Z }.

Definition faio_data_manager_init (max_task : Z) : faio_data_manager_t := Mgr (Que NULL NULL 0) (if max_task =? 0 then DEFAULT_QUE_SIZE else max_task).
Definition faio_data_manager_get_size (m : faio_data_manager_t) : Z := size (req_queue m).
Definition faio_data_manager_release (m : faio_data_manager_t) : faio_data_manager_t := Mgr (Que NULL NULL 0) 0.

Definition faio_data_push_req (q : faio_data_queue_t) (s : tasks) (t : Z) : option (faio_data_queue_t * tasks) :=
  if negb (size q =? 0) then
    e ← s !! queue_end q;
    Some (Que (queue_start q) t (u64 (size q + 1)), <[queue_end q := set_next e t]> s)
  else Some (Que t t (u64 (size q + 1)), s).

(** 0 when there is no task. *)
Definition faio_data_pop_req (q : faio_data_queue_t) (s : tasks) : option (Z * faio_data_queue_t * tasks) :=
  if negb (size q =? 0) then
    if queue_start q =? NULL then Some (NULL, q, s)
    else
    t ← s !! queue_start q;
    Some (queue_start q, Que (next t) (if next t =? NULL then NULL else queue_end q) (u64 (size q - 1)), <[queue_start q := set_next t NULL]> s)
  else Some (NULL, q, s).

(** [cb]: whether there is a callback; [released]: the [release_flag] of the manager. *)
Definition faio_data_push_task (cb released : bool) (m : faio_data_manager_t) (s : tasks) (t n : Z) (ty : FAIO_IO_TYPE) : option (Z * faio_err * faio_data_manager_t * tasks) :=
  if negb cb then Some (FAIO_ERROR, ERR_DATA_CALLBACK_NULL, m, s)
  else if t =? NULL then Some (FAIO_ERROR, ERR_DATA_TASK_NULL, m, s)
  else
  _ ← s !! t;
  let s := <[t := Task NULL ty n TASK_NO_ERR false FAIO_STATE_WAIT]> s in
  if max_size m <=? size (req_queue m) then Some (FAIO_ERROR, ERR_DATA_TASK_TOO_MANY, m, <[t := Task NULL ty n TASK_TOO_MANY false FAIO_STATE_WAIT]> s)
  else if released then Some (FAIO_ERROR, ERR_NONE, m, s)
  else '(q, s) ← faio_data_push_req (req_queue m) s t; Some (FAIO_OK, ERR_NONE, Mgr q (max_size m), s).

Definition faio_remove_task (s : tasks) (t : Z) : option (Z * tasks) :=
  if t =? NULL then Some (FAIO_ERROR, s)
  else k ← s !! t; Some (FAIO_OK, <[t := Task (next k) (io_type k) (notifier k) (t_err k) true (t_state k)]> s).

(** ** Handlers *)

(** A handler answers whether it succeeded. *)
Record handlers (W : Type) := Handlers { h_read : option (Z -> W -> option (bool * W)); h_write : option (Z -> W -> option (bool * W)); h_sendfile : option (Z -> W -> option (bool * W)) }.
Arguments Handlers {W}.
Arguments h_read {W}.
Arguments h_write {W}.
Arguments h_sendfile {W}.

Section handlers.

Context {W : Type}.

Definition faio_handler_manager_init : handlers W := Handlers None None None.

Definition handler_of (hs : handlers W) (ty : FAIO_IO_TYPE) : option (Z -> W -> option (bool * W)) :=
  match ty with FAIO_IO_TYPE_READ => h_read hs | FAIO_IO_TYPE_WRITE => h_write hs | FAIO_IO_TYPE_SENDFILE => h_sendfile hs end.

Definition faio_handler_register (hs : handlers W) (h : option (Z -> W -> option (bool * W))) (ty : FAIO_IO_TYPE) : Z * faio_err * handlers W :=
  match h with
  | None => (FAIO_ERROR, ERR_HANDLER_NULL, hs)
  | Some h =>
      match handler_of hs ty with
      | Some _ => (FAIO_ERROR, ERR_HANDLER_REDEF, hs)
      | None =>
          (FAIO_OK, ERR_NONE, match ty with
            | FAIO_IO_TYPE_READ => Handlers (Some h) (h_write hs) (h_sendfile hs)
            | FAIO_IO_TYPE_WRITE => Handlers (h_read hs) (Some h) (h_sendfile hs)
            | FAIO_IO_TYPE_SENDFILE => Handlers (h_read hs) (h_write hs) (Some h) end)
      end
  end.

Definition faio_handler_exec (hs : handlers W) (s : tasks) (t : Z) (w : W) : option (tasks * W) :=
  k ← s !! t;
  match handler_of hs (io_type k) with
  | None => Some (<[t := set_err k TASK_HANDLER_NULL]> s, w)
  | Some h => '(ok, w) ← h t w; Some (if (ok : bool) then s else <[t := set_err k TASK_HANDLER_ERR]> s, w)
  end.

(** The work of a thread on one task, without the notification. *)
Definition worker_exec (hs : handlers W) (callback : Z -> W -> option W) (s : tasks) (t : Z) (w : W) : option (tasks * W) :=
  k ← s !! t;
  '(s, w) ← (if cancel_flag k then Some (<[t := set_state k FAIO_STATE_CANCEL]> s, w)
             else '(s, w) ← faio_handler_exec hs (<[t := set_state k FAIO_STATE_DOING]> s) t w;
                  k ← s !! t; Some (<[t := set_state k FAIO_STATE_DONE]> s, w));
  w ← callback t w; Some (s, w).

End handlers.

(** ** Notifiers *)

(** [nfd]: whether the descriptor is open, and the counter of the eventfd. *)
Record faio_notifier_manager_t := Noty { nfd : option Z; n_count : Z; noticed : bool; n_release : bool }.

Definition faio_notifier_count_inc (n : faio_notifier_manager_t) : faio_notifier_manager_t := Noty (nfd n) (u64 (n_count n + 1)) (noticed n) (n_release n).

(** Whether the thread that waits in the release is signalled. *)
Definition faio_notifier_count_dec (n : faio_notifier_manager_t) : bool * faio_notifier_manager_t :=
  let c := u64 (n_count n - 1) in (n_release n && (c =? 0), Noty (nfd n) c (noticed n) (n_release n)).

(** [ok]: whether write(2) succeeds. *)
Definition faio_notifier_send (ok : bool) (n : faio_notifier_manager_t) : Z * faio_notifier_manager_t :=
  match nfd n with
  | None => (FAIO_ERROR, n)
  | Some c =>
      if noticed n then (FAIO_OK, n)
      else if ok then (FAIO_OK, Noty (Some (c + 1)) (n_count n) true (n_release n))
      else (FAIO_ERROR, Noty (Some c) (n_count n) true (n_release n))
  end.

(** read(2) blocks while the counter is zero: [None]. *)
Definition faio_notifier_receive (n : faio_notifier_manager_t) : option (Z * faio_notifier_manager_t) :=
  match nfd n with
  | None => Some (FAIO_ERROR, n)
  | Some c => if c =? 0 then None else Some (FAIO_OK, Noty (Some 0) (n_count n) false (n_release n))
  end.

(** [faio_read], [faio_write] and [faio_sendfile] differ in the type only; the start of a thread is in FaioWorker. *)
Definition faio_submit (cb released : bool) (m : faio_data_manager_t) (s : tasks) (n : option (Z * faio_notifier_manager_t)) (t : Z) (ty : FAIO_IO_TYPE) :
  option (Z * faio_err * faio_data_manager_t * tasks * option (Z * faio_notifier_manager_t)) :=
  match n with
  | None => Some (FAIO_ERROR, ERR_DATA_NOTIFIER_NULL, m, s, n)
  | Some (a, k) =>
      '(rc, e, m, s) ← faio_data_push_task cb released m s t a ty;
      Some (rc, e, m, s, Some (a, if rc =? FAIO_ERROR then k else faio_notifier_count_inc k))
  end.

(** ** The queue is a list *)

Fixpoint linked_from (s : tasks) (p : Z) (l : list Z) : Prop :=
  match l with
  | [] => p = NULL
  | t :: l' => p = t /\ t <> NULL /\ exists k, s !! t = Some k /\ linked_from s (next k) l'
  end.

Record represents (s : tasks) (q : faio_data_queue_t) (l : list Z) : Prop := {
  rp_linked : linked_from s (queue_start q) l;
  rp_end : l <> [] -> list.last l = Some (queue_end q);
  rp_size : size q = Z.of_nat (length l);
  rp_nodup : NoDup l }.

Lemma linked_from_start s p l : linked_from s p l -> head l = if p =? NULL then None else Some p.
Proof. destruct l as [|t l]; [by intros ->|]. intros (-> & H & _). by rewrite (proj2 (Z.eqb_neq _ _) H). Qed.

Lemma linked_from_other s p l t k : t ∉ l -> linked_from s p l -> linked_from (<[t := k]> s) p l.
Proof.
  revert p. induction l as [|x l IH]; intros p Hn; [done|]. apply not_elem_of_cons in Hn as [Hx Hn]. intros (-> & H0 & j & Hj & HL).
  split; [done|]. split; [done|]. exists j. rewrite lookup_insert_ne by congruence. split; [done|]. by apply IH.
Qed.

(** Linking a task behind the last one. *)
Lemma linked_from_push s p l e k t kt : linked_from s p (l ++ [e]) -> NoDup (l ++ [e]) -> t ∉ l ++ [e] -> t <> NULL -> s !! e = Some k -> s !! t = Some kt -> next kt = NULL ->
  linked_from (<[e := set_next k t]> s) p (l ++ [e; t]).
Proof.
  revert p. induction l as [|x l IH]; intros p HL HN Ht H0 He Hkt Hn; cbn [app] in *.
  - destruct HL as (-> & Hz & _). split; [done|]. split; [done|]. eexists. rewrite lookup_insert_eq. split; [reflexivity|]. split; [done|]. split; [done|].
    exists kt. rewrite lookup_insert_ne by set_solver. done.
  - destruct HL as (-> & Hz & j & Hj & HL). apply NoDup_cons in HN as [Hx HN]. apply not_elem_of_cons in Ht as [_ Ht]. split; [done|]. split; [done|]. exists j.
    rewrite lookup_insert_ne by (intros ->; apply Hx, elem_of_app; right; by left). split; [done|]. by apply IH.
Qed.

Lemma push_req_ok s q l t kt : represents s q l -> t ∉ l -> t <> NULL -> s !! t = Some kt -> next kt = NULL -> Z.of_nat (length l) + 1 < 2 ^ 64 ->
  exists q' s', faio_data_push_req q s t = Some (q', s') /\ represents s' q' (l ++ [t]) /\ (forall x, x ∉ l -> s' !! x = s !! x) /\ (forall x, is_Some (s !! x) -> is_Some (s' !! x)).
Proof.
  intros [HL HE HS HN] Ht H0 Hkt Hk Hb. unfold faio_data_push_req. assert (u64 (size q + 1) = size q + 1) as -> by (unfold u64; apply uwrap_small; unfold in_u; lia).
  destruct l as [|e l _] using rev_ind.
  - cbn in HS. rewrite HS. cbn [Z.eqb negb]. do 2 eexists. split; [reflexivity|]. split; [|done]. split; cbn; [|done|lia|apply NoDup_singleton]. split; [done|]. split; [done|]. by exists kt.
  - rewrite length_app in HS. cbn in HS. rewrite (proj2 (Z.eqb_neq (size q) 0)) by lia. cbn [negb]. specialize (HE ltac:(by destruct l)). rewrite last_snoc in HE. injection HE as HE.
    assert (exists k, s !! e = Some k) as [k Hke].
    { clear -HL. revert HL. generalize (queue_start q). induction l as [|x l IH]; intros p HL; cbn [app] in HL; [destruct HL as (_ & _ & k & ? & _); eauto|]. destruct HL as (_ & _ & ? & _ & HL). by eapply IH. }
    rewrite <-HE, (option_bind_eq _ _ _ Hke). do 2 eexists. split; [reflexivity|]. split; [split; cbn [queue_start queue_end size]|].
    + rewrite <-app_assoc. by eapply linked_from_push.
    + intros _. by rewrite last_snoc.
    + rewrite !length_app. cbn. lia.
    + apply NoDup_app. split; [done|]. split; [|apply NoDup_singleton]. intros x Hx Hx'. apply list_elem_of_singleton in Hx' as ->. done.
    + split; [intros x Hx; apply lookup_insert_ne; intros ->; apply Hx, elem_of_app; right; by left|].
      intros x Hx. destruct (decide (x = e)) as [->|]; [rewrite lookup_insert_eq; eauto|by rewrite lookup_insert_ne].
Qed.

Lemma pop_req_ok s q l : represents s q l -> Z.of_nat (length l) < 2 ^ 64 ->
  exists q' s', faio_data_pop_req q s = Some (default NULL (head l), q', s') /\ represents s' q' (tail l) /\ (forall x, is_Some (s !! x) -> is_Some (s' !! x)).
Proof.
  intros [HL HE HS HN] Hb. unfold faio_data_pop_req. destruct l as [|t l]; [cbn in HS; rewrite HS; cbn; do 2 eexists; split; [reflexivity|]; split; [by split|done]|].
  cbn in HS. rewrite (proj2 (Z.eqb_neq (size q) 0)) by lia. cbn [negb]. destruct HL as (E & H0 & k & Hk & HL). rewrite E, (proj2 (Z.eqb_neq _ _) H0), (option_bind_eq _ _ _ Hk).
  apply NoDup_cons in HN as [Ht HN]. do 2 eexists. split; [reflexivity|]. split; [split; cbn [queue_start queue_end size tail]|].
  - by apply linked_from_other.
  - intros Hl. destruct l as [|u l]; [done|]. destruct HL as (E' & H1 & _). rewrite E', (proj2 (Z.eqb_neq _ _) H1). by apply HE.
  - unfold u64. rewrite uwrap_small; [lia|]. unfold in_u. cbn [length] in Hb. lia.
  - done.
  - intros x Hx. destruct (decide (x = t)) as [->|]; [rewrite lookup_insert_eq; eauto|by rewrite lookup_insert_ne].
Qed.

(** ** Any sequence of pushes and pops *)

Inductive qop := Push (t n : Z) (ty : FAIO_IO_TYPE) | Pop.

(** The answers: for a push its result, for a pop the task. *)
Fixpoint run_queue (os : list qop) (m : faio_data_manager_t) (s : tasks) : option (list Z * faio_data_manager_t * tasks) :=
  match os with
  | [] => Some ([], m, s)
  | Push t n ty :: os => '(rc, _, m, s) ← faio_data_push_task true false m s t n ty; '(l, m, s) ← run_queue os m s; Some (rc :: l, m, s)
  | Pop :: os => '(t, q, s) ← faio_data_pop_req (req_queue m) s; '(l, m, s) ← run_queue os (Mgr q (max_size m)) s; Some (t :: l, m, s)
  end.

(** The queue as a list of at most [cap] tasks. *)
Fixpoint list_queue (cap : Z) (os : list qop) (l : list Z) : list Z * list Z :=
  match os with
  | [] => ([], l)
  | Push t _ _ :: os => if cap <=? Z.of_nat (length l) then let '(r, l) := list_queue cap os l in (FAIO_ERROR :: r, l)
                        else let '(r, l) := list_queue cap os (l ++ [t]) in (FAIO_OK :: r, l)
  | Pop :: os => let '(r, l') := list_queue cap os (tail l) in (default NULL (head l) :: r, l')
  end.

(** A task is not pushed while it is queued. *)
Fixpoint pushes_fresh (cap : Z) (s : tasks) (os : list qop) (l : list Z) : Prop :=
  match os with
  | [] => True
  | Push t _ _ :: os => t <> NULL /\ is_Some (s !! t) /\ t ∉ l /\ pushes_fresh cap s os (if cap <=? Z.of_nat (length l) then l else l ++ [t])
  | Pop :: os => pushes_fresh cap s os (tail l)
  end.

Lemma represents_other s q l t k : t ∉ l -> represents s q l -> represents (<[t := k]> s) q l.
Proof. intros Ht [HL HE HS HN]. split; [by apply linked_from_other|done..]. Qed.

Lemma pushes_fresh_mono cap s s' os l : (forall x, is_Some (s !! x) -> is_Some (s' !! x)) -> pushes_fresh cap s os l -> pushes_fresh cap s' os l.
Proof. intros H. revert l. induction os as [|[t n ty|] os IH]; intros l; cbn [pushes_fresh]; [done|naive_solver|apply IH]. Qed.

Lemma insert_is_some (s : tasks) t k x : is_Some (s !! x) -> is_Some (<[t := k]> s !! x).
Proof. intros Hx. destruct (decide (x = t)) as [->|]; [rewrite lookup_insert_eq; eauto|by rewrite lookup_insert_ne]. Qed.

Lemma run_queue_ok os m s l : represents s (req_queue m) l -> 0 <= max_size m < 2 ^ 32 -> Z.of_nat (length l) <= max_size m -> pushes_fresh (max_size m) s os l ->
  exists m' s', run_queue os m s = Some ((list_queue (max_size m) os l).1, m', s') /\ represents s' (req_queue m') (list_queue (max_size m) os l).2.
Proof.
  revert m s l. induction os as [|[t n ty|] os IH]; intros m s l HR HM HL HF; cbn [run_queue list_queue pushes_fresh] in *; [by exists m, s| |].
  - destruct HF as (H0 & [k Hk] & Ht & HF). unfold faio_data_push_task. cbn [negb]. rewrite (proj2 (Z.eqb_neq _ _) H0), (option_bind_eq _ _ _ Hk), (rp_size _ _ _ HR).
    destruct (Z.leb_spec (max_size m) (Z.of_nat (length l))) as [Hc|Hc].
    + rewrite (option_bind_eq _ _ _ eq_refl), insert_insert_eq. destruct (IH m (<[t := Task NULL ty n TASK_TOO_MANY false FAIO_STATE_WAIT]> s) l) as (m' & s' & E & K); [by apply represents_other|done|done| |].
      * eapply pushes_fresh_mono; [|exact HF]. intros x. apply insert_is_some.
      * rewrite (option_bind_eq _ _ _ E). destruct (list_queue _ _ _) as [r l']. by exists m', s'.
    + set (s1 := <[t := _]> s). assert (s1 !! t = Some (Task NULL ty n TASK_NO_ERR false FAIO_STATE_WAIT)) as Hs1 by apply lookup_insert_eq.
      destruct (push_req_ok s1 (req_queue m) l t _ (represents_other _ _ _ _ _ Ht HR) Ht H0 Hs1 eq_refl ltac:(lia)) as (q' & s' & E & K & _ & HS).
      rewrite (option_bind_eq _ _ _ E), (option_bind_eq _ _ _ eq_refl). destruct (IH (Mgr q' (max_size m)) s' (l ++ [t])) as (m2 & s2 & E2 & K2); [done|done|rewrite length_app; cbn; lia| |].
      * eapply pushes_fresh_mono; [|exact HF]. intros x Hx. by apply HS, insert_is_some.
      * rewrite (option_bind_eq _ _ _ E2). cbn [max_size]. destruct (list_queue _ _ _) as [r l']. by exists m2, s2.
  - destruct (pop_req_ok s (req_queue m) l HR ltac:(lia)) as (q' & s' & E & K & HS). rewrite (option_bind_eq _ _ _ E).
    destruct (IH (Mgr q' (max_size m)) s' (tail l)) as (m2 & s2 & E2 & K2); [done|done|destruct l; cbn in *; lia|by eapply pushes_fresh_mono|].
    rewrite (option_bind_eq _ _ _ E2). cbn [max_size]. destruct (list_queue _ _ _) as [r l']. by exists m2, s2.
Qed.

(** The queue of tasks, linked through the tasks, is a first-in first-out list
    of bounded length: whatever is pushed and popped, a pop gets the task that
    was pushed first, and a push beyond the bound is refused and changes
    nothing, as long as no task is pushed while it is queued. *)
Theorem faio_queue_refines os n s : 0 <= n < 2 ^ 32 -> pushes_fresh (max_size (faio_data_manager_init n)) s os [] ->
  exists m s', run_queue os (faio_data_manager_init n) s = Some ((list_queue (max_size (faio_data_manager_init n)) os []).1, m, s') /\
    represents s' (req_queue m) (list_queue (max_size (faio_data_manager_init n)) os []).2.
Proof.
  intros Hn HF. apply run_queue_ok; [|unfold faio_data_manager_init; cbn [max_size]|unfold faio_data_manager_init; cbn [max_size length]|done].
  - split; [done|done|done|apply NoDup_nil_2].
  - unfold DEFAULT_QUE_SIZE. destruct (n =? 0); lia.
  - unfold DEFAULT_QUE_SIZE. destruct (n =? 0); lia.
Qed.

Definition blank : faio_data_task_t := Task 7 FAIO_IO_TYPE_READ 0 TASK_NO_ERR true FAIO_STATE_DONE.

Lemma faio_queue_refines_witness : exists m s', run_queue [Push 8 1 FAIO_IO_TYPE_WRITE; Push 16 1 FAIO_IO_TYPE_READ; Push 24 1 FAIO_IO_TYPE_READ; Pop; Push 8 1 FAIO_IO_TYPE_WRITE; Push 24 1 FAIO_IO_TYPE_READ; Pop; Pop; Pop]
    (faio_data_manager_init 2) {[8 := blank; 16 := blank; 24 := blank]} = Some ([0; 0; -1; 8; 0; -1; 16; 8; 0], m, s') /\ represents s' (req_queue m) [].
Proof.
  apply (faio_queue_refines [Push 8 1 FAIO_IO_TYPE_WRITE; Push 16 1 FAIO_IO_TYPE_READ; Push 24 1 FAIO_IO_TYPE_READ; Pop; Push 8 1 FAIO_IO_TYPE_WRITE; Push 24 1 FAIO_IO_TYPE_READ; Pop; Pop; Pop] 2
    {[8 := blank; 16 := blank; 24 := blank]}); [lia|].
  cbn. repeat (split; [done|]; split; [by eexists|]; split; [set_solver|]). done.
Defined.

End Faio.
