(* ===== verification/FaioWorker.v ===== *)
(** * Asynchronous file I/O: the threads

    faio/faio_worker_manager.c.  Threads that submit tasks and worker threads
    interleave; the queue has a lock of its own, so that pushes and pops happen at any
    time, while the counters of idle and started threads and the condition
    variable are used under the lock of the manager.

    A state has the place of every thread in its code; a step is what a thread
    does between two points where another can act.  Reading the length of the
    queue is a step of its own, also before a push, which happens later and
    looks no second time: the queue can grow beyond its bound.  A signal wakes one waiting thread if there is
    any, and a waiting thread may wake up without one.  The queue is the list
    that Faio shows it to be; the release of the manager, which ends the
    threads, is not part of the steps. *)

From Stdlib Require Import ZArith Lia Bool.
From stdpp Require Import base numbers option list relations.
From S2P Require Import Prelude.

Module FaioWorker.

(** ** Properties of the manager *)

Definition FAIO_WORKER_MAX_THREADS : Z := 1024.
Definition FAIO_WORKER_MAX_IDLE_TIMEOUT : Z := 600.
Definition FAIO_WORKDE_IDLE_TIMEOUT : Z := 10.

Inductive worker_err := WORKER_OK | ERR_GET_CPU | ERR_INIT_MAX_THREAD | ERR_INIT_MAX_IDLE | ERR_PRE_START | ERR_INIT_IDLE_TIMEOUT | ERR_SET_MAX_IDLE | ERR_SET_MAX_THREAD | ERR_SET_IDLE_TIMEOUT.

Record faio_worker_properties_t := Props { max_idle : Z; idle_timeout : Z; max_thread : Z; pre_start : Z }.

(** [cpu_num]: what sysconf(3) answers. *)
Definition faio_worker_init_properties (cpu_num : Z) (properties : option faio_worker_properties_t) (old : faio_worker_properties_t) : worker_err * faio_worker_properties_t :=
  if (cpu_num <? 0) || (FAIO_WORKER_MAX_THREADS <? cpu_num) then (ERR_GET_CPU, old)
  else match properties with
  | None => (WORKER_OK, Props cpu_num FAIO_WORKDE_IDLE_TIMEOUT (cpu_num * 2) (cpu_num * 2))
  | Some p =>
      if (max_thread p =? 0) || (FAIO_WORKER_MAX_THREADS <? max_thread p) then (ERR_INIT_MAX_THREAD, old)
      else if (max_idle p =? 0) || (max_thread p <? max_idle p) then (ERR_INIT_MAX_IDLE, old)
      else if max_thread p <? pre_start p then (ERR_PRE_START, old)
      else if idle_timeout p =? 0 then (ERR_INIT_IDLE_TIMEOUT, old)
      else (WORKER_OK, p)
  end.

(** The check is on the old value. *)
Definition faio_worker_set_max_idle (p : faio_worker_properties_t) (n : Z) : worker_err * faio_worker_properties_t :=
  if max_thread p <? max_idle p then (ERR_SET_MAX_IDLE, p) else (WORKER_OK, Props n (idle_timeout p) (max_thread p) (pre_start p)).
Definition faio_worker_set_max_threads (p : faio_worker_properties_t) (n : Z) : worker_err * faio_worker_properties_t :=
  if FAIO_WORKER_MAX_THREADS <? n then (ERR_SET_MAX_THREAD, p) else (WORKER_OK, Props (max_idle p) (idle_timeout p) n (pre_start p)).
Definition faio_worker_set_idle_timeout (p : faio_worker_properties_t) (n : Z) : worker_err * faio_worker_properties_t :=
  if FAIO_WORKER_MAX_IDLE_TIMEOUT <? n then (ERR_SET_IDLE_TIMEOUT, p) else (WORKER_OK, Props (max_idle p) n (max_thread p) (pre_start p)).

(** ** Threads *)

(** Where a worker is, with its flag [to_quit]. *)
Inductive worker :=
  | W_pop (quit : bool)   (** before [faio_data_pop_req] *)
  | W_exec (t : Z)        (** running a task *)
  | W_lock (quit : bool)  (** has found no task, before the lock *)
  | W_size (quit : bool)  (** idle, with the lock, before it reads the length of the queue *)
  | W_sleep (quit : bool) (** has read zero, before it waits *)
  | W_wait (timed quit : bool)
  | W_wake (quit : bool)  (** woken up, before it has the lock again *)
  | W_end                 (** has left the loop *)
  | W_gone.

(** Where a thread is in the submission of a task. *)
Inductive pusher :=
  | P_none
  | P_push     (** has seen that the queue has room, before the push *)
  | P_first    (** has pushed, before the first look at the length *)
  | P_lock     (** before the lock *)
  | P_second   (** with the lock, before the second look *)
  | P_signal   (** before it looks at [idle] *)
  | P_cmp      (** before it compares [started] *)
  | P_start    (** without the lock, before it creates a thread *)
  | P_started. (** before it counts the thread *)

(** [pushed] and [popped] record all tasks in order. *)
Record state := St { queue : list Z; idle : Z; started : Z; locked : bool; workers : list worker; pushers : list pusher; pushed : list Z; popped : list Z }.

Definition set_worker (i : nat) (w : worker) (s : state) := St (queue s) (idle s) (started s) (locked s) (<[i := w]> (workers s)) (pushers s) (pushed s) (popped s).
Definition set_pusher (j : nat) (p : pusher) (s : state) := St (queue s) (idle s) (started s) (locked s) (workers s) (<[j := p]> (pushers s)) (pushed s) (popped s).
Definition set_idle (n : Z) (s : state) := St (queue s) n (started s) (locked s) (workers s) (pushers s) (pushed s) (popped s).
Definition set_started (n : Z) (s : state) := St (queue s) (idle s) n (locked s) (workers s) (pushers s) (pushed s) (popped s).
Definition set_locked (b : bool) (s : state) := St (queue s) (idle s) (started s) b (workers s) (pushers s) (pushed s) (popped s).
Definition push (t : Z) (s : state) := St (queue s ++ [t]) (idle s) (started s) (locked s) (workers s) (pushers s) (pushed s ++ [t]) (popped s).
Definition pop (t : Z) (l : list Z) (s : state) := St l (idle s) (started s) (locked s) (workers s) (pushers s) (pushed s) (popped s ++ [t]).
Definition new_worker (s : state) := St (queue s) (idle s) (started s) (locked s) (workers s ++ [W_pop false]) (pushers s) (pushed s) (popped s).

Section steps.

Context (pr : faio_worker_properties_t) (max_size : Z).

(** [faio_worker_fun] and [faio_worker_end_thread]. *)
Inductive worker_step (i : nat) (s : state) : state -> Prop :=
  | w_pop_some q t l : workers s !! i = Some (W_pop q) -> queue s = t :: l -> worker_step i s (set_worker i (W_exec t) (pop t l s))
  | w_pop_none q : workers s !! i = Some (W_pop q) -> queue s = [] -> worker_step i s (set_worker i (W_lock q) s)
  | w_done t : workers s !! i = Some (W_exec t) -> worker_step i s (set_worker i (W_pop false) s)
  | w_quit : workers s !! i = Some (W_lock true) -> locked s = false -> max_idle pr <= idle s ->
      worker_step i s (set_worker i W_end (set_started (u32 (started s - 1)) s))
  | w_idle q : workers s !! i = Some (W_lock q) -> locked s = false -> q = false \/ idle s < max_idle pr ->
      worker_step i s (set_worker i (W_size q) (set_idle (idle s + 1) (set_locked true s)))
  | w_busy q : workers s !! i = Some (W_size q) -> queue s <> [] -> worker_step i s (set_worker i (W_pop q) (set_idle (idle s - 1) (set_locked false s)))
  | w_sleep q : workers s !! i = Some (W_size q) -> queue s = [] -> worker_step i s (set_worker i (W_sleep q) s)
  | w_wait q : workers s !! i = Some (W_sleep q) -> worker_step i s (set_worker i (W_wait (max_idle pr <? idle s) q) (set_locked false s))
  | w_spurious b q : workers s !! i = Some (W_wait b q) -> worker_step i s (set_worker i (W_wake q) s)
  | w_timeout q : workers s !! i = Some (W_wait true q) -> worker_step i s (set_worker i (W_wake true) s)
  | w_wake q : workers s !! i = Some (W_wake q) -> locked s = false -> worker_step i s (set_worker i (W_pop q) (set_idle (idle s - 1) s))
  | w_end : workers s !! i = Some W_end -> locked s = false -> worker_step i s (set_worker i W_gone s).

(** [faio_data_push_task], [faio_worker_maybe_start_thread] and [faio_worker_start_thread]. *)
Inductive pusher_step (j : nat) (s : state) : state -> Prop :=
  | p_room : pushers s !! j = Some P_none -> Z.of_nat (length (queue s)) < max_size -> pusher_step j s (set_pusher j P_push s)
  | p_push t : pushers s !! j = Some P_push -> pusher_step j s (set_pusher j P_first (push t s))
  | p_first_none : pushers s !! j = Some P_first -> queue s = [] -> pusher_step j s (set_pusher j P_none s)
  | p_first : pushers s !! j = Some P_first -> queue s <> [] -> pusher_step j s (set_pusher j P_lock s)
  | p_lock : pushers s !! j = Some P_lock -> locked s = false -> pusher_step j s (set_pusher j P_second (set_locked true s))
  | p_second_none : pushers s !! j = Some P_second -> queue s = [] -> pusher_step j s (set_pusher j P_none (set_locked false s))
  | p_second : pushers s !! j = Some P_second -> queue s <> [] -> pusher_step j s (set_pusher j P_signal s)
  | p_no_idle : pushers s !! j = Some P_signal -> idle s = 0 -> pusher_step j s (set_pusher j P_cmp s)
  | p_signal i b q : pushers s !! j = Some P_signal -> idle s <> 0 -> workers s !! i = Some (W_wait b q) -> pusher_step j s (set_pusher j P_cmp (set_worker i (W_wake q) s))
  | p_nobody : pushers s !! j = Some P_signal -> idle s <> 0 -> (forall i b q, workers s !! i <> Some (W_wait b q)) -> pusher_step j s (set_pusher j P_cmp s)
  | p_enough : pushers s !! j = Some P_cmp -> max_thread pr <= started s \/ Z.of_nat (length (queue s)) <= started s -> pusher_step j s (set_pusher j P_none (set_locked false s))
  | p_more : pushers s !! j = Some P_cmp -> started s < max_thread pr -> started s < Z.of_nat (length (queue s)) -> pusher_step j s (set_pusher j P_start (set_locked false s))
  | p_create : pushers s !! j = Some P_start -> pusher_step j s (set_pusher j P_started (new_worker s))
  | p_fail : pushers s !! j = Some P_start -> pusher_step j s (set_pusher j P_none s)
  | p_started : pushers s !! j = Some P_started -> locked s = false -> pusher_step j s (set_pusher j P_none (set_started (u32 (started s + 1)) s)).

Inductive step (s s' : state) : Prop :=
  | step_worker i : worker_step i s s' -> step s s'
  | step_pusher j : pusher_step j s s' -> step s s'.

(** After [faio_worker_manager_init]. *)
Definition init (n m : nat) : state := St [] 0 (Z.of_nat n) false (replicate n (W_pop false)) (replicate m P_none) [] [].

Definition reachable (n m : nat) (s : state) : Prop := rtc step (init n m) s.

End steps.

End FaioWorker.
