(* ===== verification/FaioWorkerOk.v ===== *)
(** * Asynchronous file I/O: no task is stranded

    The invariant of the interleavings of FaioWorker, by induction on the
    steps, and the progress it gives: while tasks are queued, a thread that
    will look at the queue again is on its way, so the first task can always
    be run. *)

From Stdlib Require Import ZArith Lia Bool.
From stdpp Require Import base numbers option list relations.
From S2P Require Import Prelude FaioWorker.

Module FaioWorkerOk.
Import FaioWorker.

(** ** Counting *)

Fixpoint count {A} (f : A -> bool) (l : list A) : Z := match l with [] => 0 | x :: l' => Z.b2z (f x) + count f l' end.

Lemma count_insert {A} (f : A -> bool) l i x y : l !! i = Some x -> count f (<[i := y]> l) = count f l - Z.b2z (f x) + Z.b2z (f y).
Proof.
  revert i. induction l as [|z l IH]; intros [|i] Hx; [done..| |].
  - injection Hx as ->. cbn. lia.
  - change (<[S i := y]> (z :: l)) with (z :: <[i := y]> l). cbn [count]. rewrite (IH i Hx). lia.
Qed.

Lemma count_nonneg {A} (f : A -> bool) l : 0 <= count f l.
Proof. induction l as [|x l IH]; cbn; [done|]. destruct (f x); cbn; lia. Qed.

Lemma count_in {A} (f : A -> bool) l i x : l !! i = Some x -> f x = true -> 1 <= count f l.
Proof.
  revert i. induction l as [|z l IH]; intros [|i] Hx Hf; [done..| |]; cbn.
  - injection Hx as ->. rewrite Hf. pose proof (count_nonneg f l). cbn. lia.
  - pose proof (IH i Hx Hf). destruct (f z); cbn; lia.
Qed.

Lemma count_pos {A} (f : A -> bool) l : 0 < count f l -> exists i x, l !! i = Some x /\ f x = true.
Proof.
  induction l as [|z l IH]; cbn; [lia|]. destruct (f z) eqn:E; [intros _; by exists 0%nat, z|]. cbn. intros H. destruct (IH H) as (i & x & Hx & Hf). by exists (S i), x.
Qed.

Lemma count_app {A} (f : A -> bool) l l' : count f (l ++ l') = count f l + count f l'.
Proof. induction l as [|x l IH]; cbn; [done|]. rewrite IH. lia. Qed.

Lemma count_replicate {A} (f : A -> bool) n x : f x = false -> count f (replicate n x) = 0.
Proof. intros E. induction n; cbn; [done|]. rewrite E. cbn. lia. Qed.

(** ** The invariant *)

(** The threads counted in [idle], and those that have the lock. *)
Definition is_idle (w : worker) : bool := match w with W_size _ | W_sleep _ | W_wait _ _ | W_wake _ => true | _ => false end.
Definition w_holds (w : worker) : bool := match w with W_size _ | W_sleep _ => true | _ => false end.
Definition p_holds (p : pusher) : bool := match p with P_second | P_signal | P_cmp => true | _ => false end.
#[global] Instance wait_dec w : Decision (exists b q, w = W_wait b q).
Proof. destruct w as [| | | | |b q| | |]; try (right; by intros (? & ? & ?)). left. by exists b, q. Defined.

Definition is_live (w : worker) : bool := match w with W_end | W_gone => false | _ => true end.

(** A submission that has not looked at [idle] yet. *)
Definition pending (p : pusher) : bool := match p with P_first | P_lock | P_second | P_signal => true | _ => false end.

(** A worker that will look at the queue before it waits or ends. *)
Definition awake (idle max_idle : Z) (w : worker) : bool :=
  match w with
  | W_pop _ | W_exec _ | W_size _ | W_wake _ => true
  | W_lock q => negb q || (idle <? max_idle)
  | _ => false
  end.

Definition attended (mi : Z) (s : state) : Prop := (exists j p, pushers s !! j = Some p /\ pending p = true) \/ (exists i w, workers s !! i = Some w /\ awake (idle s) mi w = true).

Record inv (pr : faio_worker_properties_t) (s : state) : Prop := {
  inv_idle : idle s = count is_idle (workers s);
  inv_lock : count w_holds (workers s) + count p_holds (pushers s) = Z.b2z (locked s);
  inv_live : 0 < count is_live (workers s);
  inv_attended : queue s <> [] -> attended (max_idle pr) s;
  inv_history : pushed s = popped s ++ queue s }.

Section proofs.

Context (pr : faio_worker_properties_t) (max_size : Z).
Hypothesis some_idle : 1 <= max_idle pr.

(** Replacing a thread that did not attend to the queue keeps it attended. *)
Lemma attended_worker s s' i w w' : attended (max_idle pr) s -> workers s !! i = Some w -> awake (idle s) (max_idle pr) w = false -> idle s' = idle s ->
  workers s' = <[i := w']> (workers s) -> pushers s' = pushers s -> attended (max_idle pr) s'.
Proof.
  intros [(j & p & Hj & Hp)|(k & x & Hk & Hx)] Hw Hn EI EW EP; [left; exists j, p; by rewrite EP|right]. exists k, x. rewrite EI, EW.
  rewrite list_lookup_insert_ne; [done|]. intros ->. rewrite Hw in Hk. injection Hk as ->. congruence.
Qed.

Lemma attended_pusher s s' j p p' : attended (max_idle pr) s -> pushers s !! j = Some p -> pending p = false -> idle s' = idle s ->
  pushers s' = <[j := p']> (pushers s) -> workers s' = workers s -> attended (max_idle pr) s'.
Proof.
  intros [(k & x & Hk & Hx)|(i & w & Hi & Hw)] Hp Hn EI EP EW; [left|right; exists i, w; by rewrite EI, EW]. exists k, x. rewrite EP.
  rewrite list_lookup_insert_ne; [done|]. intros ->. rewrite Hp in Hk. injection Hk as ->. congruence.
Qed.

Lemma attended_by_worker s i w : workers s !! i = Some w -> awake (idle s) (max_idle pr) w = true -> attended (max_idle pr) s.
Proof. intros. right. eauto. Qed.

Lemma attended_by_pusher s j p : pushers s !! j = Some p -> pending p = true -> attended (max_idle pr) s.
Proof. intros. left. eauto. Qed.

(** When a submission has looked at [idle], a worker is awake. *)
Lemma no_idle_awake s : inv pr s -> idle s = 0 -> exists i w, workers s !! i = Some w /\ awake (idle s) (max_idle pr) w = true.
Proof.
  intros H E. destruct (count_pos _ _ (inv_live _ _ H)) as (i & w & Hi & Hl). exists i, w. split; [done|]. pose proof (inv_idle _ _ H) as HI.
  destruct (is_idle w) eqn:EI; [pose proof (count_in _ _ _ _ Hi EI); lia|]. destruct w; try done. cbn. rewrite E. rewrite (proj2 (Z.ltb_lt _ _)) by lia. apply orb_true_r.
Qed.

Lemma holder_unique s j p i w : inv pr s -> pushers s !! j = Some p -> p_holds p = true -> workers s !! i = Some w -> w_holds w = false.
Proof.
  intros H Hj Hp Hi. destruct (w_holds w) eqn:E; [|done]. pose proof (count_in _ _ _ _ Hj Hp). pose proof (count_in _ _ _ _ Hi E). pose proof (inv_lock _ _ H).
  destruct (locked s); cbn in *; lia.
Qed.

Lemma nobody_awake s j : inv pr s -> pushers s !! j = Some P_signal -> idle s <> 0 -> (forall i b q, workers s !! i <> Some (W_wait b q)) ->
  exists i w, workers s !! i = Some w /\ awake (idle s) (max_idle pr) w = true.
Proof.
  intros H Hj Hi Hn. pose proof (inv_idle _ _ H) as HI. pose proof (count_nonneg is_idle (workers s)). destruct (count_pos is_idle (workers s)) as (i & w & Hw & Ew); [lia|].
  exists i, w. split; [done|]. pose proof (holder_unique _ _ _ _ _ H Hj eq_refl Hw). destruct w; try done. by destruct (Hn i timed quit).
Qed.

(** An idle worker is another one than the one that ends. *)
Lemma quit_live s i : inv pr s -> workers s !! i = Some (W_lock true) -> max_idle pr <= idle s -> 0 < count is_live (<[i := W_end]> (workers s)).
Proof.
  intros H Hi Hm. rewrite (inv_idle _ _ H) in Hm. destruct (count_pos is_idle (workers s)) as (k & w & Hk & Ek); [lia|]. assert (i <> k) as Hn by (intros ->; congruence || (rewrite Hi in Hk; injection Hk as <-; done)).
  assert (<[i := W_end]> (workers s) !! k = Some w) as Hk' by (by rewrite list_lookup_insert_ne). pose proof (count_in is_live _ _ _ Hk' ltac:(by destruct w)). lia.
Qed.

Lemma worker_locked s i w : inv pr s -> workers s !! i = Some w -> w_holds w = true -> Z.b2z (locked s) = 1.
Proof. intros H Hi Hw. pose proof (count_in _ _ _ _ Hi Hw). pose proof (count_nonneg p_holds (pushers s)). pose proof (inv_lock _ _ H). destruct (locked s); cbn in *; lia. Qed.

Lemma pusher_locked s j p : inv pr s -> pushers s !! j = Some p -> p_holds p = true -> Z.b2z (locked s) = 1.
Proof. intros H Hj Hp. pose proof (count_in _ _ _ _ Hj Hp). pose proof (count_nonneg w_holds (workers s)). pose proof (inv_lock _ _ H). destruct (locked s); cbn in *; lia. Qed.

Ltac unfold_sets := cbn [queue idle started locked workers pushers pushed popped set_worker set_pusher set_idle set_started set_locked push pop new_worker].
Ltac counts := erewrite ?count_insert by eassumption; cbn [is_idle w_holds p_holds is_live Z.b2z]; lia.
Ltac by_worker i := intros _; eapply (attended_by_worker _ i); [unfold_sets; apply list_lookup_insert_eq; eassumption|reflexivity].

Lemma worker_step_inv i s s' : inv pr s -> worker_step pr i s s' -> inv pr s'.
Proof.
  intros H HS. pose proof H as [HI HL HV HA HH]. destruct HS as [q t l Hi Hq|q Hi Hq|t Hi|Hi HF Hm|q Hi HF Hm|q Hi Hq|q Hi Hq|q Hi|b q Hi|q Hi|q Hi HF|Hi HF];
    pose proof (lookup_lt_Some _ _ _ Hi) as Hlt; try (pose proof (worker_locked s i _ H Hi eq_refl) as HK); try (rewrite HF in HL; cbn [Z.b2z] in HL); split; unfold_sets; try done; try counts; try by_worker i.
  - by rewrite HH, Hq, <-app_assoc.
  - rewrite HF. counts.
  - by apply quit_live.
  - intros Hq. eapply attended_worker; [by apply HA|done| |done..]. cbn. by rewrite (proj2 (Z.ltb_ge _ _) Hm).
  - intros Hq. by eapply attended_worker; [apply HA|..].
  - rewrite HF. counts.
  - rewrite HF. counts.
  - intros Hq. by eapply attended_worker; [apply HA|..].
Qed.

Ltac by_pusher j := intros _; eapply (attended_by_pusher _ j); [unfold_sets; apply list_lookup_insert_eq; eassumption|reflexivity].

Lemma pusher_step_inv j s s' : inv pr s -> pusher_step pr max_size j s s' -> inv pr s'.
Proof.
  intros H HS. pose proof H as [HI HL HV HA HH].
  destruct HS as [Hj Hq|t Hj|Hj Hq|Hj Hq|Hj HF|Hj Hq|Hj Hq|Hj Hz|i b q Hj Hz Hi|Hj Hz Hn|Hj Hc|Hj Hc Hc'|Hj|Hj|Hj HF];
    pose proof (lookup_lt_Some _ _ _ Hj) as Hlt; try (pose proof (pusher_locked s j _ H Hj eq_refl) as HK); try (rewrite HF in HL; cbn [Z.b2z] in HL); split; unfold_sets; try done; try counts; try by_pusher j.
  - intros Hne. by eapply attended_pusher; [apply HA|..].
  - by rewrite HH, app_assoc.
  - intros _. destruct (no_idle_awake s H Hz) as (i & w & Hi & Hw). by eapply attended_by_worker.
  - intros _. pose proof (lookup_lt_Some _ _ _ Hi). eapply (attended_by_worker _ i); [unfold_sets; by apply list_lookup_insert_eq|done].
  - intros _. destruct (nobody_awake s j H Hj Hz Hn) as (i & w & Hi & Hw). by eapply attended_by_worker.
  - intros Hq. by eapply attended_pusher; [apply HA|..].
  - intros Hq. by eapply attended_pusher; [apply HA|..].
  - rewrite count_app. cbn. lia.
  - rewrite count_app. erewrite count_insert by eassumption. cbn. lia.
  - rewrite count_app. cbn. lia.
  - intros Hq. eapply (attended_by_worker _ (length (workers s))); [unfold_sets; by apply list_lookup_middle|done].
  - intros Hq. by eapply attended_pusher; [apply HA|..].
  - rewrite HF. counts.
  - intros Hq. by eapply attended_pusher; [apply HA|..].
Qed.

Lemma step_inv s s' : inv pr s -> step pr max_size s s' -> inv pr s'.
Proof. intros H [i HS|j HS]; [by eapply worker_step_inv|by eapply pusher_step_inv]. Qed.

Lemma steps_inv s s' : inv pr s -> rtc (step pr max_size) s s' -> inv pr s'.
Proof. intros H HR. induction HR as [|s1 s2 s3 HS _ IH]; [done|]. by apply IH, (step_inv s1). Qed.

Lemma init_inv n m : (0 < n)%nat -> inv pr (init n m).
Proof.
  intros Hn. split; cbn [queue idle started locked workers pushers pushed popped init]; [by rewrite count_replicate|by rewrite !count_replicate| |done|done].
  destruct n; [lia|]. cbn. pose proof (count_nonneg is_live (replicate n (W_pop false))). lia.
Qed.

(** ** Progress *)

(** Steps that push no task and take none from the queue. *)
Definition same_queue (s s' : state) : Prop := rtc (step pr max_size) s s' /\ queue s' = queue s /\ pushed s' = pushed s.

Lemma same_refl s : same_queue s s.
Proof. split; [done|done]. Qed.

Lemma same_worker i s s1 s2 : worker_step pr i s s1 -> queue s1 = queue s -> pushed s1 = pushed s -> same_queue s1 s2 -> same_queue s s2.
Proof. intros HS E1 E2 (HR & E3 & E4). split; [|by rewrite E3, E4]. eapply rtc_l; [|done]. by eapply step_worker. Qed.

Lemma same_pusher j s s1 s2 : pusher_step pr max_size j s s1 -> queue s1 = queue s -> pushed s1 = pushed s -> same_queue s1 s2 -> same_queue s s2.
Proof. intros HS E1 E2 (HR & E3 & E4). split; [|by rewrite E3, E4]. eapply rtc_l; [|done]. by eapply step_pusher. Qed.

(** Whoever compares the number of threads releases the lock and wakes up nobody, nor puts anyone to sleep. *)
Lemma run_cmp j s : pushers s !! j = Some P_cmp -> exists s', same_queue s s' /\ locked s' = false /\ workers s' = workers s /\ idle s' = idle s.
Proof.
  intros Hj. destruct (decide (max_thread pr <= started s \/ Z.of_nat (length (queue s)) <= started s)) as [Hc|Hc].
  - eexists. split; [eapply same_pusher; [by apply p_enough|done|done|apply same_refl]|]. done.
  - eexists. split; [eapply same_pusher; [apply p_more; [done|lia|lia]|done|done|apply same_refl]|]. done.
Qed.

Lemma run_signal j s : inv pr s -> pushers s !! j = Some P_signal -> exists s' i w, same_queue s s' /\ locked s' = false /\ workers s' !! i = Some w /\ awake (idle s') (max_idle pr) w = true.
Proof.
  intros H Hj. pose proof (lookup_lt_Some _ _ _ Hj) as Hlt.
  assert (exists s1, pusher_step pr max_size j s s1 /\ queue s1 = queue s /\ pushed s1 = pushed s /\ pushers s1 !! j = Some P_cmp /\ exists i w, workers s1 !! i = Some w /\ awake (idle s1) (max_idle pr) w = true)
    as (s1 & HS & EQ & EP & Hj1 & i & w & Hi & Hw).
  { destruct (decide (idle s = 0)) as [Hz|Hz].
    - eexists. split; [by apply p_no_idle|]. split; [done|]. split; [done|]. split; [unfold_sets; by apply list_lookup_insert_eq|]. exact (no_idle_awake s H Hz).
    - destruct (decide (Exists (fun w => exists b q, w = W_wait b q) (workers s))) as [HE|HE].
      + apply Exists_exists in HE as (w & Hw & b & q & ->). apply list_elem_of_lookup in Hw as [i Hi]. eexists. split; [by eapply p_signal|]. split; [done|]. split; [done|].
        split; [unfold_sets; by apply list_lookup_insert_eq|]. exists i, (W_wake q). split; [|done]. unfold_sets. apply list_lookup_insert_eq. by eapply lookup_lt_Some.
      + assert (forall i b q, workers s !! i <> Some (W_wait b q)) as Hn. { intros i b q Hi. apply HE, Exists_exists. exists (W_wait b q). split; [by eapply list_elem_of_lookup_2|eauto]. }
        eexists. split; [by apply p_nobody|]. split; [done|]. split; [done|]. split; [unfold_sets; by apply list_lookup_insert_eq|]. exact (nobody_awake s j H Hj Hz Hn). }
  destruct (run_cmp j s1 Hj1) as (s2 & HR & HF & EW & EI). exists s2, i, w. split; [by eapply same_pusher|]. split; [done|]. by rewrite EW, EI.
Qed.

(** Some worker is awake and the lock is free. *)
Definition ready (s : state) : Prop := locked s = false /\ exists i w, workers s !! i = Some w /\ awake (idle s) (max_idle pr) w = true.

Lemma ready_pending j p s : inv pr s -> queue s <> [] -> locked s = false -> pushers s !! j = Some p -> pending p = true -> exists s', same_queue s s' /\ ready s'.
Proof.
  intros H Hq HF Hj Hp. pose proof (lookup_lt_Some _ _ _ Hj) as Hlt. assert (exists s1, same_queue s s1 /\ locked s1 = false /\ pushers s1 !! j = Some P_lock) as (s1 & HR1 & HF1 & Hj1).
  { destruct p; try done; try (pose proof (pusher_locked s j _ H Hj eq_refl) as HK; by rewrite HF in HK).
    - eexists. split; [eapply same_pusher; [by apply p_first|done|done|apply same_refl]|]. split; [done|]. unfold_sets. by apply list_lookup_insert_eq.
    - exists s. split; [apply same_refl|done]. }
  pose proof (lookup_lt_Some _ _ _ Hj1) as Hlt1. destruct HR1 as (HR1 & EQ1 & EP1). pose proof (steps_inv _ _ H HR1) as H1.
  set (s2 := set_pusher j P_second (set_locked true s1)). assert (pusher_step pr max_size j s1 s2) as HS2 by (by apply p_lock).
  set (s3 := set_pusher j P_signal s2). assert (pushers s2 !! j = Some P_second) as Hj2 by (by apply list_lookup_insert_eq).
  assert (pusher_step pr max_size j s2 s3) as HS3 by (apply p_second; [done|cbn; by rewrite EQ1]). pose proof (pusher_step_inv _ _ _ (pusher_step_inv _ _ _ H1 HS2) HS3) as H3.
  destruct (run_signal j s3 H3) as (s4 & i & w & HR4 & HF4 & Hi & Hw); [apply list_lookup_insert_eq; by eapply lookup_lt_Some|].
  exists s4. split; [|split; [done|eauto]]. pose proof (same_pusher j s1 s2 s4 HS2 eq_refl eq_refl (same_pusher j s2 s3 s4 HS3 eq_refl eq_refl HR4)) as (HR & EQ & EP).
  split; [by etransitivity|]. by rewrite EQ, EP.
Qed.

Lemma ready_free s : inv pr s -> queue s <> [] -> locked s = false -> exists s', same_queue s s' /\ ready s'.
Proof.
  intros H Hq HF. destruct (inv_attended _ _ H Hq) as [(j & p & Hj & Hp)|HW]; [by eapply ready_pending|]. exists s. split; [apply same_refl|done].
Qed.

(** Whoever has the lock gives it back. *)
Lemma release s : inv pr s -> queue s <> [] -> exists s', same_queue s s' /\ locked s' = false.
Proof.
  intros H Hq. destruct (locked s) eqn:EL; [|exists s; by split; [apply same_refl|]]. pose proof (inv_lock _ _ H) as HL. rewrite EL in HL. cbn in HL.
  pose proof (count_nonneg p_holds (pushers s)) as HP. pose proof (count_nonneg w_holds (workers s)) as HW. destruct (decide (0 < count w_holds (workers s))) as [Hc|Hc].
  - apply count_pos in Hc as (i & w & Hi & Ew). destruct w; try done.
    + eexists. split; [eapply same_worker; [by apply w_busy|done|done|apply same_refl]|done].
    + eexists. split; [eapply same_worker; [by apply w_wait|done|done|apply same_refl]|done].
  - destruct (count_pos p_holds (pushers s)) as (j & p & Hj & Ep); [lia|]. pose proof (lookup_lt_Some _ _ _ Hj) as Hlt. destruct p; try done.
    + set (s1 := set_pusher j P_signal s). assert (pusher_step pr max_size j s s1) as HS by (by apply p_second).
      destruct (run_signal j s1) as (s2 & _ & _ & HR & HF & _); [by eapply pusher_step_inv|by apply list_lookup_insert_eq|]. exists s2. split; [by eapply same_pusher|done].
    + destruct (run_signal j s H Hj) as (s2 & _ & _ & HR & HF & _). by exists s2.
    + destruct (run_cmp j s Hj) as (s2 & HR & HF & _). by exists s2.
Qed.

(** An awake worker gets to the queue. *)
Lemma run_awake i w s : queue s <> [] -> locked s = false -> workers s !! i = Some w -> awake (idle s) (max_idle pr) w = true -> exists s' q, same_queue s s' /\ workers s' !! i = Some (W_pop q).
Proof.
  intros Hq HF Hi Hw. pose proof (lookup_lt_Some _ _ _ Hi) as Hlt. destruct w as [q|t|q|q|q|b q|q| |]; try done.
  - exists s, q. split; [apply same_refl|done].
  - eexists _, _. split; [eapply same_worker; [by eapply w_done|done|done|apply same_refl]|]. unfold_sets. by apply list_lookup_insert_eq.
  - set (s1 := set_worker i (W_size q) (set_idle (idle s + 1) (set_locked true s))). assert (worker_step pr i s s1) as HS.
    { apply w_idle; [done|done|]. cbn in Hw. apply orb_true_iff in Hw as [Hw|Hw]; [left; by destruct q|right; lia]. }
    eexists _, _. split; [eapply same_worker; [exact HS|done|done|]; eapply same_worker; [eapply w_busy; [by apply list_lookup_insert_eq|done]|done|done|apply same_refl]|].
    unfold_sets. apply list_lookup_insert_eq. unfold s1. unfold_sets. by rewrite length_insert.
  - eexists _, _. split; [eapply same_worker; [by apply w_busy|done|done|apply same_refl]|]. unfold_sets. by apply list_lookup_insert_eq.
  - eexists _, _. split; [eapply same_worker; [by apply w_wake|done|done|apply same_refl]|]. unfold_sets. by apply list_lookup_insert_eq.
Qed.

Lemma inv_runs s t l : inv pr s -> queue s = t :: l -> exists s' i, rtc (step pr max_size) s s' /\ pushed s' = pushed s /\ queue s' = l /\ workers s' !! i = Some (W_exec t).
Proof.
  intros H Hq. assert (queue s <> []) as Hn by (by rewrite Hq). destruct (release s H Hn) as (s1 & (HR1 & EQ1 & EP1) & HF1). pose proof (steps_inv _ _ H HR1) as H1.
  destruct (ready_free s1 H1) as (s2 & (HR2 & EQ2 & EP2) & HF2 & i & w & Hi & Hw); [by rewrite EQ1|done|].
  destruct (run_awake i w s2) as (s3 & q & (HR3 & EQ3 & EP3) & Hp); [by rewrite EQ2, EQ1|done|done|done|]. exists (set_worker i (W_exec t) (pop t l s3)), i.
  split; [|split; [by cbn; rewrite EP3, EP2, EP1|split; [done|unfold_sets; apply list_lookup_insert_eq; by eapply lookup_lt_Some]]].
  etransitivity; [exact HR1|]. etransitivity; [exact HR2|]. etransitivity; [exact HR3|]. apply rtc_once, (step_worker _ _ _ _ i). eapply w_pop_some; [done|]. by rewrite EQ3, EQ2, EQ1.
Qed.

End proofs.

(** C30. No task is stranded.  In every interleaving of any number of threads that
    submit tasks and of the workers, with spurious wake-ups and failing thread creations,
    the tasks taken from the queue are the first ones that were pushed, in
    order; and whenever tasks are queued, the threads can go on so that a worker
    runs the first one, without another submission: a wake-up is never
    lost and not all workers wait or end. *)
Theorem faio_task_runs pr max_size n m s : 1 <= max_idle pr -> (0 < n)%nat -> reachable pr max_size n m s ->
  pushed s = popped s ++ queue s /\
  (forall t l, queue s = t :: l -> exists s' i, rtc (step pr max_size) s s' /\ pushed s' = pushed s /\ queue s' = l /\ workers s' !! i = Some (W_exec t)) /\
  (queue s <> [] -> attended (max_idle pr) s).
Proof.
  intros Hm Hn HR. pose proof (steps_inv pr max_size Hm _ _ (init_inv pr n m Hn) HR) as H. split; [apply (inv_history _ _ H)|]. split; [|apply (inv_attended _ _ H)].
  intros t l Hq. by apply inv_runs.
Qed.

Definition props0 : faio_worker_properties_t := Props 2 5 20 1.

(** The only worker waits and a task is pushed. *)
Definition waiting : state := St [7] 1 1 false [W_wait false false] [P_first] [7] [].

Lemma faio_task_runs_witness : exists s' i, rtc (step props0 1024) waiting s' /\ pushed s' = [7] /\ queue s' = [] /\ workers s' !! i = Some (W_exec 7).
Proof.
  refine (proj1 (proj2 (faio_task_runs props0 1024 1 1 waiting _ _ _)) 7 [] eq_refl); [done|lia|].
  eapply rtc_l; [apply (step_worker _ _ _ _ 0), (w_pop_none _ 0 _ false); reflexivity|]. eapply rtc_l; [apply (step_worker _ _ _ _ 0), (w_idle _ 0 _ false); [reflexivity|reflexivity|by left]|].
  eapply rtc_l; [apply (step_worker _ _ _ _ 0), (w_sleep _ 0 _ false); reflexivity|]. eapply rtc_l; [apply (step_worker _ _ _ _ 0), (w_wait _ 0 _ false); reflexivity|].
  eapply rtc_l; [apply (step_pusher _ _ _ _ 0), (p_room _ _ 0); [reflexivity|done]|].
  apply rtc_once, (step_pusher _ _ _ _ 0). match goal with |- pusher_step _ _ _ ?s _ => change waiting with (set_pusher 0 P_first (push 7 s)) end. apply p_push; reflexivity.
Defined.

End FaioWorkerOk.
