(* ===== verification/Fio.v ===== *)
(** * Tasks of file I/O

    cfs/cfs_fio.c, .h: every worker thread of the datanode keeps a stock of
    tasks, each allocated together with the header of its buffer; requests take a task and
    give it back.

    Tasks and buffers are stores from addresses to records: an access to an
    address outside them is undefined ([None]).  [heap] has the blocks that malloc and
    posix_memalign handed out; addresses are never reused, and [mallocs] says
    which allocations succeed, all of them when it is exhausted.  The rings are lists. *)

From Stdlib Require Import ZArith Lia Bool.
From stdpp Require Import base numbers gmap option list.
From S2P Require Import Prelude Mem Buffer.

Module Fio.
Import Buffer.

Definition DFS_OK : Z := 0.
Definition DFS_ERROR : Z := -1.
Definition MAX_TASK_IDLE : Z := 32.
Definition GB_SIZE : Z := 2 ^ 30.
Definition sizeof_file_io_t : Z := 176.

Inductive aio_result := AIO_FAILED | AIO_OK | AIO_PENDING.

(** The completion handlers, which are in dn_request.c. *)
Inductive completion := No_handler | Block_read_complete | Block_write_complete.

(** [event] is left out: nothing sets it, so it has the value 0, AIO_READ_EV, of a zeroed task; so are [index], [able], [type] and [error], which nothing reads. *)
Record file_io_t := Task { offset : Z; need : Z; f_fd : Z; b : Z; f_data : Z; h : completion; ret : Z; result : aio_result; faio_ret : Z; sf_chain_task : Z }.

Record fio_manager_t := Mgr {
  fios : gmap Z file_io_t; bufs : gmap Z buffer_t; heap : list Z; brk : Z; mallocs : list bool;
  freeq : list Z; task_used : list Z; free : Z; busy : Z; nelts : Z; max : Z; f_idle : Z; batch : Z; refill_level : Z; f_size : Z }.

Definition set_store (m : fio_manager_t) (f : gmap Z file_io_t) (bs : gmap Z buffer_t) : fio_manager_t :=
  Mgr f bs (heap m) (brk m) (mallocs m) (freeq m) (task_used m) (free m) (busy m) (nelts m) (max m) (f_idle m) (batch m) (refill_level m) (f_size m).
Definition set_heap (m : fio_manager_t) (hp : list Z) (a : Z) (ms : list bool) : fio_manager_t :=
  Mgr (fios m) (bufs m) hp a ms (freeq m) (task_used m) (free m) (busy m) (nelts m) (max m) (f_idle m) (batch m) (refill_level m) (f_size m).
Definition set_freeq (m : fio_manager_t) (l : list Z) : fio_manager_t :=
  Mgr (fios m) (bufs m) (heap m) (brk m) (mallocs m) l (task_used m) (free m) (busy m) (nelts m) (max m) (f_idle m) (batch m) (refill_level m) (f_size m).
Definition set_used (m : fio_manager_t) (l : list Z) : fio_manager_t :=
  Mgr (fios m) (bufs m) (heap m) (brk m) (mallocs m) (freeq m) l (free m) (busy m) (nelts m) (max m) (f_idle m) (batch m) (refill_level m) (f_size m).
Definition set_counts (m : fio_manager_t) (f bz n : Z) : fio_manager_t :=
  Mgr (fios m) (bufs m) (heap m) (brk m) (mallocs m) (freeq m) (task_used m) f bz n (max m) (f_idle m) (batch m) (refill_level m) (f_size m).

(** ** Allocation *)

Definition malloc (m : fio_manager_t) (sz : Z) : Z * fio_manager_t :=
  match mallocs m with
  | false :: l => (0, set_heap m (heap m) (brk m) l)
  | l => (brk m, set_heap m (brk m :: heap m) (brk m + sz) (tail l))
  end.

(** [free(3)]: undefined for what was not allocated. *)
Definition memory_free (m : fio_manager_t) (p : Z) : option fio_manager_t :=
  if p =? 0 then Some m
  else if bool_decide (p ∈ heap m) then Some (set_heap m (filter (fun x => x <> p) (heap m)) (brk m) (mallocs m)) else None.

(** The header of a task's buffer is behind the task; freeing the task frees both. *)
Definition own_buffer (f : Z) : Z := f + sizeof_file_io_t.
Definition free_task (m : fio_manager_t) (f : Z) : option fio_manager_t :=
  m ← memory_free m f; Some (set_store m (delete f (fios m)) (delete (own_buffer f) (bufs m))).

Definition my_align (d a : Z) : Z := if d mod a =? 0 then d else d + (a - d mod a).

(** The loop of [cfs_fio_manager_refill]. *)
Fixpoint refill_loop (n : nat) (m : fio_manager_t) : Z * fio_manager_t :=
  match n with
  | O => (0, m)
  | S n =>
      let '(f, m) := malloc m (sizeof_file_io_t + sizeof_buffer_t) in
      if f =? 0 then (0, m)
      else
      let reallength := my_align (f_size m) 512 in
      let '(st, m) := malloc m reallength in
      let m := set_store m (<[f := Task 0 0 0 (own_buffer f) 0 No_handler 0 AIO_FAILED 0 0]> (fios m))
                           (<[own_buffer f := Buf st st 0 0 st (st + reallength) false true false]> (bufs m)) in
      let '(i, m) := refill_loop n (set_freeq m (freeq m ++ [f])) in (i + 1, m)
  end.

Definition cfs_fio_manager_refill (m : fio_manager_t) (n : Z) : Z * fio_manager_t :=
  let bt := if max m <=? u64 (nelts m + n) then u64 (max m - nelts m) else n in
  let '(i, m) := refill_loop (Z.to_nat bt) m in
  (i, set_counts m (u64 (free m + i)) (busy m) (u64 (nelts m + i))).

Definition cfs_fio_manager_get_task (m : fio_manager_t) : Z * fio_manager_t :=
  let m := if free m <? refill_level m then (cfs_fio_manager_refill m (batch m)).2 else m in
  match freeq m with
  | [] => (0, m)
  | f :: l => (f, set_counts (set_freeq m l) (u64 (free m - 1)) (u64 (busy m + 1)) (nelts m))
  end.

(** [fio->b->last = fio->b->pos = fio->b->start]. *)
Definition reset_buffer (m : fio_manager_t) (a : Z) : option fio_manager_t := k ← bufs m !! a; Some (set_store m (fios m) (<[a := buffer_reset k]> (bufs m))).

(** The fields that [cfs_fio_manager_alloc] and [cfs_fio_manager_free] set; the former also sets the offset. *)
Definition cleared (k : file_io_t) : file_io_t := Task (offset k) (need k) (-1) (b k) (f_data k) (h k) (ret k) AIO_PENDING (faio_ret k) (sf_chain_task k).
Definition taken (k : file_io_t) : file_io_t := Task 0 (need k) (-1) (b k) (f_data k) (h k) (ret k) AIO_PENDING (faio_ret k) (sf_chain_task k).

(** 0 when there is no task. *)
Definition cfs_fio_manager_alloc (m : fio_manager_t) : option (Z * fio_manager_t) :=
  let '(stop, m) := match freeq m with
    | [] => if max m <=? nelts m then (true, m) else let '(n, m) := cfs_fio_manager_refill m (batch m) in (n =? 0, m)
    | _ => (false, m) end in
  if (stop : bool) then Some (0, m)
  else
  let '(f, m) := cfs_fio_manager_get_task m in
  k ← fios m !! f;
  m ← reset_buffer m (b k);
  let m := set_store m (<[f := taken k]> (fios m)) (bufs m) in
  Some (f, set_used m (task_used m ++ [f])).

(** The loop of [cfs_fio_manager_indeed_free]; the number of tasks freed. *)
Fixpoint indeed_loop (n : nat) (m : fio_manager_t) : option (Z * fio_manager_t) :=
  match n with
  | O => Some (0, m)
  | S n =>
      match freeq m with
      | [] => Some (0, m)
      | f :: l =>
          k ← fios m !! f;
          bu ← bufs m !! b k;
          m ← memory_free (set_freeq m l) (start bu);
          m ← free_task m f;
          '(i, m) ← indeed_loop n m; Some (i + 1, m)
      end
  end.

Definition cfs_fio_manager_indeed_free (m : fio_manager_t) (n : Z) : option fio_manager_t :=
  let fr := if n =? 0 then u64 (free m - f_idle m) else n in
  if fr =? 0 then Some m
  else '(i, m) ← indeed_loop (Z.to_nat fr) m; Some (set_counts m (u64 (free m - i)) (busy m) (u64 (nelts m - i))).

Definition cfs_fio_manager_free (m : fio_manager_t) (f : Z) : option fio_manager_t :=
  if bool_decide (f ∈ task_used m) then
    k ← fios m !! f;
    m ← reset_buffer m (b k);
    let m := set_store m (<[f := cleared k]> (fios m)) (bufs m) in
    let m := set_freeq (set_used m (filter (fun x => x <> f) (task_used m))) (f :: freeq m) in
    let m := set_counts m (u64 (free m + 1)) (u64 (busy m - 1)) (nelts m) in
    if f_idle m <? free m then cfs_fio_manager_indeed_free m (Z.shiftr (free m - f_idle m) 2) else Some m
  else None.

(** The loop that frees the tasks, in [cfs_fio_manager_init] and [cfs_fio_manager_destroy]; the memory of the buffers stays. *)
Fixpoint destroy_loop (n : nat) (m : fio_manager_t) : option fio_manager_t :=
  match n, freeq m with
  | S n, f :: l => m ← free_task (set_freeq m l) f; destroy_loop n m
  | _, _ => Some m
  end.

Definition cfs_fio_manager_destroy (m : fio_manager_t) : option fio_manager_t := destroy_loop (length (freeq m)) m.

(** [5 * GB_SIZE] is computed as an [int]; the overflow wraps around. *)
Definition cfs_fio_manager_init (a : Z) (ms : list bool) : option (Z * fio_manager_t) :=
  let sz := 1024 * 512 in
  let mx := s32 (5 * GB_SIZE) / (sz + sizeof_buffer_t + sizeof_file_io_t) in
  let m := Mgr ∅ ∅ [] a ms [] [] 0 0 0 mx MAX_TASK_IDLE (Z.shiftr MAX_TASK_IDLE 2) (Z.shiftr MAX_TASK_IDLE 3) sz in
  let '(n, m) := cfs_fio_manager_refill m MAX_TASK_IDLE in
  if n =? MAX_TASK_IDLE then Some (DFS_OK, m) else m ← destroy_loop (Z.to_nat n) m; Some (DFS_ERROR, m).

End Fio.
