(* ===== verification/FioOk.v ===== *)
(** * Tasks of file I/O, proved

    The invariant of the stock of tasks and that allocation and release keep
    it, whatever malloc answers, as long as a task keeps the buffer it was
    allocated with: the heap holds exactly the tasks and their buffers. *)

From Stdlib Require Import ZArith Lia Bool.
From stdpp Require Import base numbers gmap option list.
From S2P Require Import Prelude Mem Buffer Fio.

Module FioOk.
Import Buffer Fio.

(** ** The store *)

Definition start_of (bs : gmap Z buffer_t) (f : Z) : Z := match bs !! own_buffer f with Some k => start k | None => 0 end.

(** The blocks of a task: the task and, unless posix_memalign failed, the memory of its buffer. *)
Definition blocks_of (bs : gmap Z buffer_t) (f : Z) : list Z := if start_of bs f =? 0 then [f] else [f; start_of bs f].
Definition blocks (bs : gmap Z buffer_t) (l : list Z) : list Z := concat (blocks_of bs <$> l).

Record task_ok (m : fio_manager_t) (f : Z) : Prop := {
  tk_below : own_buffer f < brk m;
  tk_task : exists k, fios m !! f = Some k /\ b k = own_buffer f;
  tk_buf : is_Some (bufs m !! own_buffer f) }.

(** [l] are all tasks. *)
Record base (m : fio_manager_t) (l : list Z) : Prop := {
  bs_tasks : Forall (task_ok m) l;
  bs_blocks : heap m ≡ₚ blocks (bufs m) l;
  bs_nodup : NoDup (heap m);
  bs_range : Forall (fun a => 0 < a < brk m) (heap m);
  bs_brk : 0 < brk m;
  bs_size : 0 < f_size m }.

#[global] Instance blocks_perm bs : Proper ((≡ₚ) ==> (≡ₚ)) (blocks bs).
Proof. intros l l' HP. unfold blocks. induction HP as [|x l l' _ IH|x y l|l1 l2 l3 _ IH1 _ IH2]; cbn; [done|by rewrite IH|by rewrite !app_assoc, (Permutation_app_comm (blocks_of bs y))|by etransitivity]. Qed.

Lemma blocks_ext bs bs' l : (forall f, f ∈ l -> start_of bs f = start_of bs' f) -> blocks bs l = blocks bs' l.
Proof.
  unfold blocks. induction l as [|f l IH]; intros H; [done|]. cbn. rewrite IH by (intros g Hg; apply H; by right). f_equal. unfold blocks_of. by rewrite (H f) by (by left).
Qed.

Lemma task_blocks_in bs f l : f ∈ l -> f ∈ blocks bs l.
Proof.
  unfold blocks. induction l as [|g l IH]; [by intros H; apply elem_of_nil in H|]. intros H. cbn. apply elem_of_app. apply elem_of_cons in H as [->|H]; [left|right; by apply IH].
  unfold blocks_of. destruct (_ =? _); by left.
Qed.

Lemma base_nodup m l : base m l -> NoDup l.
Proof.
  intros [_ HB HN _ _ _]. rewrite HB in HN. clear HB. unfold blocks in HN. induction l as [|f l IH]; [apply NoDup_nil_2|]. cbn in HN. apply NoDup_app in HN as (_ & HD & HN).
  apply NoDup_cons. split; [|by apply IH]. intros Hf. apply (HD f); [unfold blocks_of; destruct (_ =? _); by left|]. by apply (task_blocks_in (bufs m) f l).
Qed.

Lemma base_in_heap m l f : base m l -> f ∈ l -> f ∈ heap m /\ 0 < f < brk m.
Proof.
  intros H Hf. assert (f ∈ heap m) as Hh by (rewrite (bs_blocks _ _ H); by apply task_blocks_in). split; [done|]. exact (proj1 (Forall_forall _ _) (bs_range _ _ H) f Hh).
Qed.

Lemma base_perm m l l' : l ≡ₚ l' -> base m l -> base m l'.
Proof. intros HP [HT HB HN HR HK HS]. split; try done; [by rewrite <-HP|by rewrite HB, HP]. Qed.

Lemma base_same m m' l : fios m' = fios m -> bufs m' = bufs m -> heap m' = heap m -> brk m' = brk m -> f_size m' = f_size m -> base m l -> base m' l.
Proof.
  intros E1 E2 E3 E4 E5 [HT HB HN HR HK HS]. split; rewrite ?E2, ?E3, ?E4, ?E5; try done. eapply Forall_impl; [exact HT|]. intros f [? ? ?]. split; by rewrite ?E1, ?E2, ?E4.
Qed.

(** Changing a task or the window of its buffer. *)
Lemma base_task m l f k k' bu bu' : base m l -> f ∈ l -> fios m !! f = Some k -> b k' = b k -> bufs m !! own_buffer f = Some bu -> start bu' = start bu ->
  base (set_store m (<[f := k']> (fios m)) (<[own_buffer f := bu']> (bufs m))) l.
Proof.
  intros [HT HB HN HR HK HS] Hf Hk Eb Hbu Hst. split; cbn [heap brk f_size fios bufs set_store]; try done.
  - eapply Forall_impl; [exact HT|]. intros g [H1 (kg & Hkg & Ebg) H3]. split; [done| |]; cbn [fios bufs set_store].
    + destruct (decide (f = g)) as [->|Hn]; [|exists kg; by rewrite lookup_insert_ne]. exists k'. rewrite lookup_insert_eq. rewrite Hkg in Hk. injection Hk as ->. split; [done|congruence].
    + destruct (decide (own_buffer f = own_buffer g)) as [->|Hn]; [rewrite lookup_insert_eq; eauto|by rewrite lookup_insert_ne].
  - rewrite HB. erewrite blocks_ext; [reflexivity|]. intros g Hg. unfold start_of. destruct (decide (own_buffer f = own_buffer g)) as [E|Hn]; [|by rewrite lookup_insert_ne].
    by rewrite <-E, lookup_insert_eq, Hbu, Hst.
Qed.

(** ** Freeing *)

Lemma filter_out (x : Z) l r : NoDup l -> l ≡ₚ x :: r -> filter (fun y => y <> x) l ≡ₚ r.
Proof.
  intros HN HP. rewrite HP in HN |- *. apply NoDup_cons in HN as [Hx _]. rewrite filter_cons_False by naive_solver. rewrite list_filter_all; [done|].
  apply Forall_forall. intros y Hy ->. done.
Qed.

Lemma heap_free_ok m x r : NoDup (heap m) -> heap m ≡ₚ x :: r -> x <> 0 -> exists hp, memory_free m x = Some (set_heap m hp (brk m) (mallocs m)) /\ hp ≡ₚ r /\ NoDup hp.
Proof.
  intros HN HP H0. unfold memory_free. rewrite (proj2 (Z.eqb_neq _ _) H0), bool_decide_true by (rewrite HP; by left). eexists. split; [reflexivity|]. split; [by apply filter_out|by apply NoDup_filter].
Qed.

(** A free task and its buffer are given back. *)
Lemma release_task m f l k bu : base m (f :: l) -> fios m !! f = Some k -> bufs m !! own_buffer f = Some bu ->
  exists m1 m2, memory_free m (start bu) = Some m1 /\ free_task m1 f = Some m2 /\ base m2 l /\
    m2 = set_store (set_heap m (heap m2) (brk m) (mallocs m)) (delete f (fios m)) (delete (own_buffer f) (bufs m)).
Proof.
  intros H Hk Hbu. pose proof (base_nodup _ _ H) as HNL. destruct (base_in_heap _ _ f H ltac:(by left)) as [_ Hpos]. apply NoDup_cons in HNL as [Hf HNL].
  destruct H as [HT HB HN HR HK HS]. apply Forall_cons in HT as [_ HT]. change (heap m ≡ₚ blocks_of (bufs m) f ++ blocks (bufs m) l) in HB.
  assert (blocks_of (bufs m) f = if start bu =? 0 then [f] else [f; start bu]) as Ef by (unfold blocks_of, start_of; by rewrite Hbu). rewrite Ef in HB.
  assert (exists m1, memory_free m (start bu) = Some m1 /\ m1 = set_heap m (heap m1) (brk m) (mallocs m) /\ NoDup (heap m1) /\ heap m1 ≡ₚ f :: blocks (bufs m) l) as (m1 & E1 & Em1 & HN1 & HP1).
  { destruct (Z.eqb_spec (start bu) 0) as [E|E].
    - exists m. unfold memory_free. rewrite E. split; [done|]. split; [by destruct m|]. split; [done|]. by rewrite HB.
    - destruct (heap_free_ok m (start bu) (f :: blocks (bufs m) l) HN) as (hp & E1 & HP & HNh); [rewrite HB; apply Permutation_swap|done|]. eexists. split; [exact E1|]. done. }
  destruct (heap_free_ok m1 f (blocks (bufs m) l) HN1 HP1) as (hp & E2 & HP2 & HN2); [lia|]. exists m1. eexists. split; [done|]. split; [unfold free_task; by rewrite (option_bind_eq _ _ _ E2)|].
  rewrite Em1. split; [|done]. assert (forall g, g ∈ l -> own_buffer f <> own_buffer g) as Hne by (intros g Hg E; apply Hf; by replace f with g by (unfold own_buffer in E; lia)).
  split; cbn [heap brk f_size fios bufs set_store set_heap]; try done.
  - apply Forall_forall. intros g Hg. destruct (proj1 (Forall_forall _ _) HT g Hg) as [H1 (kg & Hkg & Ebg) H3]. split; cbn [fios bufs brk set_store set_heap]; [done| |].
    + exists kg. rewrite lookup_delete_ne; [done|]. by intros ->.
    + rewrite lookup_delete_ne; [done|]. by apply Hne.
  - rewrite HP2. erewrite blocks_ext; [reflexivity|]. intros g Hg. unfold start_of. by rewrite lookup_delete_ne by (by apply Hne).
  - apply Forall_forall. intros a Ha. apply (proj1 (Forall_forall _ _) HR). rewrite HB. assert (a ∈ blocks (bufs m) l) as Hb by (by rewrite <-HP2). apply elem_of_app. by right.
Qed.

(** ** Refilling *)

Lemma malloc_cases m sz p m' : malloc m sz = (p, m') ->
  exists ms, (mallocs m = [] -> ms = []) /\ (p = 0 /\ m' = set_heap m (heap m) (brk m) ms /\ mallocs m <> [] \/ p = brk m /\ m' = set_heap m (brk m :: heap m) (brk m + sz) ms).
Proof. unfold malloc. intros E. destruct (mallocs m) as [|[] ms]; injection E as <- <-; eexists; (split; [|by auto]); done. Qed.

(** A new task, of which the memory of the buffer may be missing. *)
Definition fresh_task (f : Z) : file_io_t := Task 0 0 0 (own_buffer f) 0 No_handler 0 AIO_FAILED 0 0.

(** The memory is there or not: [hp], [st] and [a] are the heap, the address and the break after both allocations. *)
Lemma base_new m l st hp a ms e : base m l -> (st = 0 /\ hp = brk m :: heap m /\ a = brk m + 232 \/ st = brk m + 232 /\ hp = st :: brk m :: heap m /\ a > st) ->
  base (set_store (set_heap m hp a ms) (<[brk m := fresh_task (brk m)]> (fios m)) (<[own_buffer (brk m) := Buf st st 0 0 st e false true false]> (bufs m))) (brk m :: l).
Proof.
  intros H Hst. pose proof H as [HT HB HN HR HK HS]. assert (forall x, x ∈ heap m -> 0 < x < brk m) as HR' by (by apply Forall_forall). set (f := brk m) in *.
  assert (forall g, g ∈ l -> own_buffer f <> own_buffer g) as Hne by (intros g Hg E; destruct (base_in_heap _ _ g H Hg) as [_ Hlt]; fold f in Hlt; unfold own_buffer in E; lia).
  assert (own_buffer f = f + 176) as Eo by done.
  set (bs := <[_ := _]> (bufs m)). assert (start_of bs f = st) as Es by (unfold start_of, bs; by rewrite lookup_insert_eq).
  assert (blocks bs l = blocks (bufs m) l) as Ebl by (apply blocks_ext; intros g Hg; unfold start_of, bs; by rewrite lookup_insert_ne by (by apply Hne)).
  split; cbn [heap brk f_size fios bufs set_store set_heap]; try done; fold bs.
  - apply Forall_cons. split.
    + split; cbn [heap brk fios bufs set_store set_heap]; [lia|eexists; by rewrite lookup_insert_eq|unfold bs; rewrite lookup_insert_eq; eauto].
    + apply Forall_forall. intros g Hg. destruct (proj1 (Forall_forall _ _) HT g Hg) as [H1 (kg & Hkg & Ebg) H3]. destruct (base_in_heap _ _ g H Hg) as [_ Hlt]. fold f in H1, Hlt.
      split; cbn [heap brk fios bufs set_store set_heap]; [lia| |unfold bs; rewrite lookup_insert_ne; [done|by apply Hne]]. exists kg. rewrite lookup_insert_ne; [done|lia].
  - change (hp ≡ₚ blocks_of bs f ++ blocks bs l). rewrite Ebl. unfold blocks_of. rewrite Es, <-HB. destruct Hst as [(-> & -> & _)|(-> & -> & _)]; [done|].
    rewrite (proj2 (Z.eqb_neq _ _)) by lia. apply Permutation_swap.
  - assert (f ∉ heap m) as Hf by (intros Hf%HR'; lia). destruct Hst as [(_ & -> & _)|(-> & -> & _)]; repeat (apply NoDup_cons; split); try done. intros [E|Hi%HR']%elem_of_cons; lia.
  - destruct Hst as [(_ & -> & ->)|(-> & -> & Ha)]; repeat (apply Forall_cons; split); try lia; (eapply Forall_impl; [exact HR|]; cbn; lia).
  - lia.
Qed.

Lemma malloc_buffer m l ms1 st m2 : base m l -> malloc (set_heap m (brk m :: heap m) (brk m + 232) ms1) (my_align (f_size m) 512) = (st, m2) ->
  exists hp a ms, m2 = set_heap m hp a ms /\ (st = 0 /\ hp = brk m :: heap m /\ a = brk m + 232 \/ st = brk m + 232 /\ hp = st :: brk m :: heap m /\ a > st) /\ (ms1 = [] -> ms = []).
Proof.
  intros H E. pose proof (bs_size _ _ H) as Hsz. assert (0 < my_align (f_size m) 512) as Hal by (unfold my_align; destruct (_ =? _); pose proof (Z.mod_pos_bound (f_size m) 512); lia).
  apply malloc_cases in E as (ms & Hms & [(-> & -> & _)|(-> & ->)]); cbn in *.
  - exists (brk m :: heap m), (brk m + 232), ms. split; [done|]. split; [by left|done].
  - exists (brk m + 232 :: brk m :: heap m), (brk m + 232 + my_align (f_size m) 512), ms. split; [done|]. split; [right; split_and!; [done|done|lia]|done].
Qed.

(** What the loop leaves alone. *)
Definition same_limits (m m' : fio_manager_t) : Prop :=
  task_used m' = task_used m /\ max m' = max m /\ f_idle m' = f_idle m /\ batch m' = batch m /\ refill_level m' = refill_level m /\ f_size m' = f_size m.

Lemma refill_loop_ok n : forall m used, base m (freeq m ++ used) -> forall i m', refill_loop n m = (i, m') ->
  base m' (freeq m' ++ used) /\ same_limits m m' /\ free m' = free m /\ busy m' = busy m /\ nelts m' = nelts m /\
  0 <= i <= Z.of_nat n /\ (exists t, freeq m' = freeq m ++ t /\ Z.of_nat (length t) = i) /\ (mallocs m = [] -> i = Z.of_nat n).
Proof.
  induction n as [|n IH]; intros m used H i m' E; cbn [refill_loop] in E.
  { injection E as <- <-. split_and!; try done; try lia. exists []. by rewrite app_nil_r. }
  destruct (malloc m _) as [f m1] eqn:E1. apply malloc_cases in E1 as (ms1 & Hms1 & [(-> & -> & Hn1)|(-> & ->)]).
  { rewrite Z.eqb_refl in E. injection E as <- <-. split_and!; try done; try lia; [|exists []; by rewrite app_nil_r]. by eapply base_same; [..|exact H]. }
  pose proof (bs_brk _ _ H) as Hk. rewrite (proj2 (Z.eqb_neq _ _)) in E by lia. change (sizeof_file_io_t + sizeof_buffer_t) with 232 in E.
  destruct (malloc _ _) as [st m2] eqn:E2. destruct (refill_loop n _) as [i' m''] eqn:E3. injection E as <- <-.
  destruct (malloc_buffer _ _ _ _ _ H E2) as (hp & a & ms & -> & Hst & Hms).
  destruct (fun P => IH _ used P _ _ E3) as (HB & (HL1 & HL2 & HL3 & HL4 & HL5 & HL6) & Hfr & Hbz & Hne & Hi & (t & Et & Ht) & Hall).
  { cbn [freeq set_freeq set_store set_heap]. eapply base_perm; [|eapply base_same; [..|exact (base_new m (freeq m ++ used) st hp a ms (st + my_align (f_size m) 512) H Hst)]; reflexivity].
    rewrite <-app_assoc. exact (Permutation_middle (freeq m) used (brk m)). }
  split_and!; try done; try lia.
  - exists (brk m :: t). rewrite Et. cbn. rewrite <-app_assoc. split; [done|lia].
  - intros Em. rewrite Hall; [lia|]. cbn. auto.
Qed.

(** ** The invariant *)

Lemma u64_small z : 0 <= z < 2 ^ 63 -> u64 z = z.
Proof. intros H. apply uwrap_small. unfold in_u. lia. Qed.

Record ok (m : fio_manager_t) : Prop := {
  ok_base : base m (freeq m ++ task_used m);
  ok_free : free m = Z.of_nat (length (freeq m));
  ok_busy : busy m = Z.of_nat (length (task_used m));
  ok_nelts : nelts m = free m + busy m;
  ok_max : nelts m <= max m < 2 ^ 62;
  ok_idle : free m <= f_idle m;
  ok_levels : 0 < batch m /\ 0 <= refill_level m /\ refill_level m + batch m <= f_idle m < 2 ^ 32 }.

(** The invariant but for the number of free tasks. *)
Record ok' (m : fio_manager_t) : Prop := {
  ok'_base : base m (freeq m ++ task_used m);
  ok'_free : free m = Z.of_nat (length (freeq m));
  ok'_busy : busy m = Z.of_nat (length (task_used m));
  ok'_nelts : nelts m = free m + busy m;
  ok'_max : nelts m <= max m < 2 ^ 62 }.

Lemma ok_ok' m : ok m -> ok' m.
Proof. by intros [? ? ? ? ? _ _]. Qed.

Lemma fio_refill_ok m n : ok' m -> 0 <= n < 2 ^ 62 -> exists i m' t, cfs_fio_manager_refill m n = (i, m') /\ ok' m' /\ same_limits m m' /\ freeq m' = freeq m ++ t /\
  0 <= i <= n /\ free m' = free m + i /\ (mallocs m = [] -> i = Z.min n (max m - nelts m)).
Proof.
  intros [HB HF HZ HN HM] Hn. unfold cfs_fio_manager_refill. assert (0 <= free m /\ 0 <= busy m) as Hpos by lia.
  rewrite (u64_small (nelts m + n)), (u64_small (max m - nelts m)) by lia.
  set (bt := if _ <=? _ then _ else _). assert (0 <= bt <= n /\ nelts m + bt <= max m /\ bt = Z.min n (max m - nelts m)) as Hbt by (subst bt; destruct (Z.leb_spec (max m) (nelts m + n)); lia).
  destruct (refill_loop _ m) as [i m1] eqn:E. destruct (refill_loop_ok _ m (task_used m) HB _ _ E) as (HB' & HL & Hfr & Hbz & Hne & Hi & (t & Et & Ht) & Hall).
  exists i. eexists. exists t. split; [done|]. pose proof HL as (HL1 & HL2 & _).
  cbn [set_counts freeq free]. assert (Z.of_nat (length (freeq m1)) = free m + i) as HL' by (rewrite Et, length_app; lia).
  rewrite !u64_small by lia. split_and!; try done; try lia; [|intros Hm; rewrite (Hall Hm); lia].
  split; cbn [set_counts freeq free task_used busy nelts max]; rewrite ?HL1; try lia. eapply base_same; [..|exact HB']; done.
Qed.

(** ** Allocation *)

Definition limits (m : fio_manager_t) : Z * Z := (max m, f_idle m).
Definition levels (m : fio_manager_t) : Prop := 0 < batch m /\ 0 <= refill_level m /\ refill_level m + batch m <= f_idle m < 2 ^ 32.

Lemma same_levels m m' : same_limits m m' -> levels m -> levels m'.
Proof. intros (_ & _ & E1 & E2 & E3 & _). unfold levels. by rewrite E1, E2, E3. Qed.

Lemma fio_get_task_ok m f0 l0 : ok' m -> levels m -> free m <= f_idle m -> freeq m = f0 :: l0 ->
  exists m', cfs_fio_manager_get_task m = (f0, m') /\ same_limits m m' /\ base m' (f0 :: freeq m' ++ task_used m) /\ f0 ∉ task_used m /\
    free m' = Z.of_nat (length (freeq m')) /\ busy m' = Z.of_nat (length (task_used m)) + 1 /\ nelts m' = free m' + busy m' /\ nelts m' <= max m < 2 ^ 62 /\ free m' < f_idle m.
Proof.
  intros H HL Hid Ef. unfold cfs_fio_manager_get_task.
  assert (exists m1 t, (if free m <? refill_level m then (cfs_fio_manager_refill m (batch m)).2 else m) = m1 /\ ok' m1 /\ same_limits m m1 /\ freeq m1 = f0 :: t /\ free m1 <= f_idle m) as (m1 & t & -> & [HB HF HZ HN HM] & HL1 & Ef1 & Hid1).
  { destruct (Z.ltb_spec (free m) (refill_level m)); [|exists m, l0; by split_and!].
    destruct HL as (Hb & Hr & Hs). destruct (fio_refill_ok m (batch m) H ltac:(lia)) as (i & m1 & t & -> & H1 & HL1 & Et & Hi & Hfr & _).
    exists m1, (l0 ++ t). split; [done|]. split; [done|]. split; [done|]. split; [by rewrite Et, Ef|lia]. }
  rewrite Ef1 in *. pose proof HL1 as (HU & HMx & _). rewrite HU, HMx in *. cbn [length] in HF. eexists. split; [done|]. cbn [set_counts set_freeq freeq free busy nelts].
  rewrite !u64_small by lia. split; [done|]. split; [by eapply base_same; [..|exact HB]|]. apply base_nodup in HB. cbn in HB. apply NoDup_cons in HB as [HB _]. split; [intros Hi; apply HB, elem_of_app; by right|]. lia.
Qed.

(** A task that is not in use is handed out, or none: then the limit is reached or memory is short. *)
Lemma fio_alloc_ok m : ok m -> exists f m', cfs_fio_manager_alloc m = Some (f, m') /\ ok m' /\ limits m' = limits m /\
  (f = 0 /\ task_used m' = task_used m /\ (nelts m = max m /\ freeq m = [] \/ mallocs m <> []) \/ 0 < f /\ f ∉ task_used m /\ task_used m' = task_used m ++ [f] /\ free m' < f_idle m).
Proof.
  intros H. pose proof (ok_ok' _ H) as H'. pose proof (ok_levels _ H) as HL. unfold cfs_fio_manager_alloc.
  assert (exists stop m1, match freeq m with [] => if max m <=? nelts m then (true, m) else let '(n, m) := cfs_fio_manager_refill m (batch m) in (n =? 0, m) | _ => (false, m) end = (stop, m1) /\
    ok' m1 /\ same_limits m m1 /\ free m1 <= f_idle m /\ if (stop : bool) then nelts m = max m /\ freeq m = [] \/ mallocs m <> [] else freeq m1 <> []) as (stop & m1 & -> & H1 & HL1 & Hid & Hst).
  { destruct (freeq m) as [|f0 l0] eqn:Ef; [|exists false, m; split_and!; try done; [apply H|by rewrite Ef]].
    destruct (Z.leb_spec (max m) (nelts m)); [exists true, m; split_and!; try done; [apply H|left; pose proof (ok_max _ H); split; [lia|done]]|].
    destruct HL as (Hb & Hr & Hs). destruct (fio_refill_ok m (batch m) H' ltac:(lia)) as (i & m1 & t & -> & H1 & HL1 & Et & Hi & Hfr & Hall).
    exists (i =? 0), m1. pose proof (ok_free _ H) as Hf0. rewrite Ef in Hf0. cbn in Hf0. split_and!; try done; [lia|].
    destruct (Z.eqb_spec i 0) as [E0|E0]; [right; intros Em; specialize (Hall Em); lia|]. intros E. pose proof (ok'_free _ H1) as Hf1. rewrite E in Hf1. cbn in Hf1. lia. }
  pose proof HL1 as (HU & HMx & HId & _). destruct stop.
  { exists 0, m1. split; [done|]. split; [|unfold limits; by rewrite HU, HMx, HId; auto]. apply (same_levels _ _ HL1) in HL. destruct H1. split; try done. by rewrite HId. }
  destruct (freeq m1) as [|f0 l0] eqn:Ef; [done|]. destruct (fio_get_task_ok m1 f0 l0 H1 (same_levels _ _ HL1 HL) ltac:(lia) Ef) as (m2 & -> & HL2 & HB & Hni & Hfr & Hbz & Hne & Hmx & Hid2).
  pose proof HL2 as (HU2 & HMx2 & HId2 & _). destruct (base_in_heap _ _ f0 HB ltac:(by left)) as [_ Hpos].
  destruct (proj1 (Forall_forall _ _) (bs_tasks _ _ HB) f0 ltac:(by left)) as [_ (k & Hk & Ebk) (bu & Hbu)].
  rewrite (option_bind_eq _ _ _ Hk), Ebk. unfold reset_buffer. rewrite (option_bind_eq _ _ _ Hbu). cbn. eexists _, _. split; [done|].
  split; [|cbn; split; [unfold limits; cbn; congruence|right; split; [lia|]; rewrite HU2, HU in *; split_and!; try done; lia]].
  pose proof (same_levels _ _ HL2 (same_levels _ _ HL1 HL)) as HL3. cbn. split; cbn [set_used set_store freeq task_used free busy nelts max f_idle batch refill_level]; rewrite ?length_app, ?HU2; cbn [length]; try done; try lia.
  rewrite app_assoc. eapply base_perm; [apply Permutation_cons_append|]. eapply base_same; [..|exact (base_task _ _ f0 k (taken k) bu (buffer_reset bu) HB ltac:(by left) Hk eq_refl Hbu eq_refl)]; done.
Qed.

(** ** Release *)

Lemma indeed_loop_ok n : forall m used, base m (freeq m ++ used) -> exists m', indeed_loop n m = Some (Z.min (Z.of_nat n) (Z.of_nat (length (freeq m))), m') /\
  base m' (freeq m' ++ used) /\ same_limits m m' /\ free m' = free m /\ busy m' = busy m /\ nelts m' = nelts m /\ freeq m' = drop n (freeq m).
Proof.
  induction n as [|n IH]; intros m used H; cbn [indeed_loop].
  { exists m. by replace (Z.min _ _) with 0 by lia. }
  destruct (freeq m) as [|f l] eqn:Ef; [exists m; rewrite Ef; by replace (Z.min _ _) with 0 by (cbn; lia)|].
  destruct (proj1 (Forall_forall _ _) (bs_tasks _ _ H) f ltac:(by left)) as [_ (k & Hk & Ebk) (bu & Hbu)].
  rewrite (option_bind_eq _ _ _ Hk), Ebk, (option_bind_eq _ _ _ Hbu).
  assert (base (set_freeq m l) (f :: l ++ used)) as H0 by (by eapply base_same; [..|exact H]).
  destruct (release_task _ f (l ++ used) k bu H0 Hk Hbu) as (m1 & m2 & E1 & E2 & HB & Em). rewrite (option_bind_eq _ _ _ E1), (option_bind_eq _ _ _ E2).
  assert (freeq m2 = l) as El by (by rewrite Em). destruct (IH m2 used) as (m' & E3 & HB' & HL & Hfr & Hbz & Hne & Hq); [by rewrite El|].
  rewrite (option_bind_eq _ _ _ E3). exists m'. split; [f_equal; f_equal; rewrite El; cbn [length]; lia|]. unfold same_limits in *. rewrite Em in *. cbn in HL, Hfr, Hbz, Hne, Hq |- *. done.
Qed.

Lemma filter_task (f : Z) l : NoDup l -> f ∈ l -> l ≡ₚ f :: filter (fun x => x <> f) l /\ Z.of_nat (length (filter (fun x => x <> f) l)) = Z.of_nat (length l) - 1.
Proof.
  intros HN (l1 & l2 & ->)%list_elem_of_split. assert (filter (fun x => x <> f) (l1 ++ f :: l2) ≡ₚ l1 ++ l2) as HP by (apply filter_out; [done|symmetry; apply Permutation_middle]).
  split; [by rewrite HP, Permutation_middle|]. rewrite HP, !length_app. cbn. lia.
Qed.

(** The tasks above the idle limit are given back. *)
Lemma indeed_free_ok m : ok' m -> levels m -> free m = f_idle m + 1 ->
  exists m', cfs_fio_manager_indeed_free m (Z.shiftr (free m - f_idle m) 2) = Some m' /\ ok m' /\ limits m' = limits m /\ task_used m' = task_used m.
Proof.
  intros [HB HF HZ HN HM] HL Hfr. unfold cfs_fio_manager_indeed_free. replace (free m - f_idle m) with 1 by lia. change (Z.shiftr 1 2 =? 0) with true. cbn -[indeed_loop].
  destruct (indeed_loop_ok 1 m _ HB) as (m' & E & HB' & HL' & Hfr' & Hbz & Hne & Hq). rewrite (option_bind_eq _ _ _ E). pose proof HL' as (HU & HMx & HI & _). pose proof HL as (Hl1 & Hl2 & Hl3).
  eexists. split; [done|]. split; [|unfold limits; cbn; by rewrite HMx, HI]. replace (Z.min _ _) with 1 by lia. rewrite !u64_small by lia.
  assert (Z.of_nat (length (freeq m')) = free m - 1) as HQ by (rewrite Hq, length_drop; lia).
  split; cbn [set_counts freeq task_used free busy nelts max f_idle]; rewrite ?HU, ?HMx, ?HI; try lia; [|pose proof (same_levels _ _ HL' HL) as HL3; unfold levels in HL3; rewrite HI in HL3; exact HL3]. by eapply base_same; [..|exact HB'].
Qed.

Lemma fio_free_ok m f : ok m -> f ∈ task_used m -> exists m', cfs_fio_manager_free m f = Some m' /\ ok m' /\ limits m' = limits m /\ task_used m' = filter (fun x => x <> f) (task_used m).
Proof.
  intros H Hf. unfold cfs_fio_manager_free. rewrite bool_decide_true by done. pose proof H as [HB HF HZ HN HM HI HL]. assert (f ∈ freeq m ++ task_used m) as Hfa by (apply elem_of_app; by right).
  destruct (proj1 (Forall_forall _ _) (bs_tasks _ _ HB) f Hfa) as [_ (k & Hk & Ebk) (bu & Hbu)].
  rewrite (option_bind_eq _ _ _ Hk), Ebk. unfold reset_buffer. rewrite (option_bind_eq _ _ _ Hbu). cbn -[cfs_fio_manager_indeed_free Z.shiftr].
  pose proof (base_nodup _ _ HB) as ND. apply NoDup_app in ND as (_ & _ & ND). destruct (filter_task f _ ND Hf) as [HP HLen].
  set (m1 := set_counts _ _ _ _). pose proof HL as (Hl1 & Hl2 & Hl3). assert (0 < busy m) as Hbz by (rewrite HZ; clear -Hf; destruct (task_used m); [by apply elem_of_nil in Hf|cbn; lia]).
  assert (ok' m1 /\ free m1 = free m + 1) as [H1 Hfr].
  { subst m1. cbn [set_counts free]. rewrite !u64_small by lia. split; [|done]. split; cbn [set_counts set_freeq set_used set_store freeq task_used free busy nelts max length]; try lia.
    eapply base_same; [..|eapply base_perm; [|exact (base_task _ _ f k (cleared k) bu (buffer_reset bu) HB Hfa Hk eq_refl Hbu eq_refl)]]; try done. etransitivity; [apply Permutation_app_head, HP|symmetry; apply Permutation_middle]. }
  rewrite u64_small by lia. destruct (Z.ltb_spec (f_idle m) (free m + 1)) as [Hlt|Hge].
  - rewrite <-Hfr. destruct (indeed_free_ok m1 H1 HL) as (m' & E & H2 & HMx & HU); [change (f_idle m1) with (f_idle m); lia|]. exists m'. split; [exact E|]. split; [done|]. by rewrite HMx, HU.
  - eexists. split; [done|]. split; [|done]. destruct H1. split; try done. rewrite Hfr. exact Hge.
Qed.

(** ** Histories *)

Inductive op := Alloc | Free (f : Z).

(** The tasks the program holds, in the order in which it got them: releasing one that it does not hold is not its doing. *)
Definition does (m : fio_manager_t) (o : op) : option fio_manager_t :=
  match o with
  | Alloc => '(_, m) ← cfs_fio_manager_alloc m; Some m
  | Free f => if bool_decide (f ∈ task_used m) then cfs_fio_manager_free m f else Some m
  end.

Definition history (os : list op) (m : fio_manager_t) : option fio_manager_t := foldl (fun r o => m ← r; does m o) (Some m) os.

Lemma does_ok m o : ok m -> exists m', does m o = Some m' /\ ok m' /\ limits m' = limits m.
Proof.
  intros H. destruct o as [|f]; cbn.
  - destruct (fio_alloc_ok m H) as (f & m' & E & H' & HM & _). rewrite (option_bind_eq _ _ _ E). eauto.
  - case_bool_decide as Hf; [|eauto]. destruct (fio_free_ok m f H Hf) as (m' & E & H' & HM & _). eauto.
Qed.

Lemma history_ok os : forall m, ok m -> exists m', history os m = Some m' /\ ok m' /\ limits m' = limits m.
Proof.
  induction os as [|o os IH]; intros m H; [by exists m|]. destruct (does_ok m o H) as (m1 & E1 & H1 & M1). destruct (IH m1 H1) as (m2 & E2 & H2 & M2).
  exists m2. split; [|split; [done|congruence]]. unfold history. cbn [foldl]. by rewrite (option_bind_eq _ _ _ eq_refl), E1.
Qed.

Lemma fio_init_ok a ms m : 0 < a -> cfs_fio_manager_init a ms = Some (DFS_OK, m) -> ok m /\ limits m = (2047, 32).
Proof.
  intros Ha. unfold cfs_fio_manager_init. set (m0 := Mgr _ _ _ _ _ _ _ _ _ _ _ _ _ _ _). assert (ok' m0) as H0 by (split; cbn; try done; split; cbn; try done; apply NoDup_nil_2).
  destruct (fio_refill_ok m0 MAX_TASK_IDLE H0 ltac:(done)) as (i & m1 & t & E & [H1 H2 H3 H4 H5] & HL & Et & Hi & Hfr & _). unfold MAX_TASK_IDLE in *. rewrite E. pose proof HL as (HU & HMx & HId & HBt & HRl & _).
  destruct (Z.eqb_spec i 32) as [->|Hn].
  - injection 1 as <-. split; [|unfold limits; by rewrite HMx, HId]. split; try done; [by rewrite Hfr, HId|]. rewrite HBt, HRl, HId. done.
  - destruct (destroy_loop _ m1); cbn; done.
Qed.

(** C31. The stock of I/O tasks ([cfs_fio_manager_init], [alloc], [free],
    [refill] and [indeed_free]), whatever malloc and posix_memalign answer,
    for every sequence of allocations and of releases of tasks in use, by a
    program that leaves the buffers of the tasks where they are: nothing is
    undefined; the tasks, free and in use, are distinct; the heap holds them
    and the memory of their buffers, each once, and nothing else, so nothing
    leaks or is freed twice; the counters are exact, the tasks never exceed
    the limit of 2047 and the free ones never the idle limit; and the next
    allocation gives a task that is not in use, or none, and none only if the
    limit is reached or malloc has failures to come. *)
Theorem fio_stock_exact (a : Z) (ms : list bool) (m : fio_manager_t) (os : list op) :
  0 < a -> cfs_fio_manager_init a ms = Some (DFS_OK, m) ->
  exists m', history os m = Some m' /\
    NoDup (freeq m' ++ task_used m') /\ NoDup (heap m') /\ heap m' ≡ₚ blocks (bufs m') (freeq m' ++ task_used m') /\
    free m' = Z.of_nat (length (freeq m')) /\ busy m' = Z.of_nat (length (task_used m')) /\
    nelts m' = free m' + busy m' /\ nelts m' <= 2047 /\ free m' <= MAX_TASK_IDLE /\
    exists f m'', cfs_fio_manager_alloc m' = Some (f, m'') /\
      (f = 0 /\ (nelts m' = 2047 \/ mallocs m' <> []) \/ 0 < f /\ f ∉ task_used m' /\ task_used m'' = task_used m' ++ [f]).
Proof.
  intros Ha HI. destruct (fio_init_ok a ms m Ha HI) as [H HM]. destruct (history_ok os m H) as (m' & E & H' & HM'). exists m'. split; [done|].
  rewrite HM in HM'. injection HM' as Emax Eidle. pose proof H' as [HB HF HZ HN HMx HId _]. unfold MAX_TASK_IDLE.
  split_and!; [by eapply base_nodup|apply HB|apply HB|done..|lia|lia|].
  destruct (fio_alloc_ok m' H') as (f & m'' & E' & _ & _ & HC). exists f, m''. split; [done|]. rewrite Emax in HC. naive_solver.
Qed.

(** malloc succeeds for the 32 tasks of the start and fails then. *)
Definition answers : list bool := replicate 64 true ++ replicate 8 false.
Definition start_manager : fio_manager_t := match cfs_fio_manager_init 4096 answers with Some (_, m) => m | None => Mgr ∅ ∅ [] 0 [] [] [] 0 0 0 0 0 0 0 0 end.
Definition some_ops : list op := [Alloc; Alloc; Free 4096; Alloc].

Lemma fio_stock_exact_witness : option_map task_used (history some_ops start_manager) = Some [528616; 4096] /\ exists m, history some_ops start_manager = Some m /\ nelts m <= 2047.
Proof.
  split; [vm_compute; reflexivity|].
  destruct (fio_stock_exact 4096 answers start_manager some_ops ltac:(done)) as (m' & E' & _ & _ & _ & _ & _ & _ & HN & _); [vm_compute; reflexivity|]. exists m'. by split.
Defined.

End FioOk.
