(* ===== verification/SysIo.v ===== *)
(** * Chains over sockets: src/core/dfs_sysio.c and the output of dfs_chain.c

    A chain of buffers, in memory or in a file, is written to a socket and
    filled from one.  The socket is an oracle: one element per system call
    says what the call does, and when there is none left the socket is not
    ready.  Reading or writing memory that is not there is undefined
    ([None]). *)

From Stdlib Require Import ZArith Lia Bool.
From stdpp Require Import base numbers gmap option list.
From S2P Require Import Prelude Mem Buffer NnConn.

Module SysIo.
Import Mem Buffer.

Notation rx_t := NnConn.rx_t.
Notation tx_t := NnConn.tx_t.

Definition DFS_OK : Z := 0.
Definition DFS_ERROR : Z := -1.
Definition DFS_AGAIN : Z := -2.
Definition DFS_IOVS_REV : Z := 16.
Definition DFS_IOVS_MAX : Z := 32.
Definition DFS_MAX_LIMIT : Z := 2147479552.

(** The sending side of a connection: [c->write->ready], [c->sent], the oracle and the bytes that the peer gets. *)
Record sock_t := Sock { ready : bool; c_sent : Z; tx : list tx_t; peer : list Z }.

Definition set_ready (r : bool) (s : sock_t) : sock_t := Sock r (c_sent s) (tx s) (peer s).
Definition set_tx (t : list tx_t) (s : sock_t) : sock_t := Sock (ready s) (c_sent s) t (peer s).
(** [c->sent += n], after the bytes have left. *)
Definition count_sent (bs : list Z) (s : sock_t) : sock_t := Sock (ready s) (u64 (c_sent s + Z.of_nat (length bs))) (tx s) (peer s ++ bs).

(** ** Receiving *)

(** The calls of recv(2) for at most [size] bytes: the result, the rest of the oracle and the bytes. *)
Fixpoint recv_calls (rx : list rx_t) (size : Z) : Z * list rx_t * list Z :=
  match rx with
  | [] => (DFS_AGAIN, [], [])
  | NnConn.Rx bs :: rx =>
      let n := Z.min (Z.of_nat (length bs)) size in
      (n, if n <? Z.of_nat (length bs) then NnConn.Rx (drop (Z.to_nat n) bs) :: rx else rx, take (Z.to_nat n) bs)
  | NnConn.RxEof :: rx => (0, rx, [])
  | NnConn.RxIntr :: rx => recv_calls rx size
  | NnConn.RxAgain :: rx => (DFS_AGAIN, rx, [])
  | NnConn.RxErr :: rx => (DFS_ERROR, rx, [])
  end.

(** [sysio_udp_unix_recv] lacks the check of the buffer. *)
Definition sysio_udp_unix_recv (rx : list rx_t) (m : mem) (buf size : Z) : option (Z * list rx_t * mem) :=
  let '(n, rx, bs) := recv_calls rx size in m ← wr m buf bs; Some (n, rx, m).

Definition sysio_unix_recv (rx : list rx_t) (m : mem) (buf size : Z) : option (Z * list rx_t * mem) :=
  if buf =? 0 then Some (DFS_ERROR, rx, m) else sysio_udp_unix_recv rx m buf size.

(** The loop that makes the vector of [sysio_readv_chain]; neighbours in memory are one entry. *)
Fixpoint readv_iovs (cl : chain_t) (iovs : list (Z * Z)) (prev : Z) : option (list (Z * Z)) :=
  match cl with
  | [] => Some iovs
  | b :: cl =>
      if Z.of_nat (length iovs) <? DFS_IOVS_REV then
        let len := end_ b - last b in
        if prev =? last b then
          match list.last iovs with
          | None => None
          | Some (a, n) => readv_iovs cl (removelast iovs ++ [(a, n + len)]) (end_ b)
          end
        else readv_iovs cl (iovs ++ [(last b, len)]) (end_ b)
      else Some iovs
  end.

(** The kernel stores the bytes into the entries in order. *)
Fixpoint scatter (m : mem) (iovs : list (Z * Z)) (bs : list Z) : option mem :=
  match iovs with
  | [] => Some m
  | (a, n) :: iovs => m ← wr m a (take (Z.to_nat n) bs); scatter m iovs (drop (Z.to_nat n) bs)
  end.

Definition iovs_size (iovs : list (Z * Z)) : Z := foldr (fun v n => v.2 + n) 0 iovs.

Fixpoint readv_loop (rx : list rx_t) (m : mem) (iovs : list (Z * Z)) : option (Z * list rx_t * mem) :=
  match rx with
  | [] => Some (DFS_AGAIN, [], m)
  | NnConn.Rx bs :: rx =>
      let n := Z.min (Z.of_nat (length bs)) (iovs_size iovs) in
      m ← scatter m iovs (take (Z.to_nat n) bs);
      Some (n, if n <? Z.of_nat (length bs) then NnConn.Rx (drop (Z.to_nat n) bs) :: rx else rx, m)
  | NnConn.RxEof :: rx => Some (0, rx, m)
  | NnConn.RxIntr :: rx => readv_loop rx m iovs
  | NnConn.RxAgain :: rx => Some (DFS_AGAIN, rx, m)
  | NnConn.RxErr :: rx => Some (DFS_ERROR, rx, m)
  end.

Definition sysio_readv_chain (rx : list rx_t) (m : mem) (cl : chain_t) : option (Z * list rx_t * mem) :=
  iovs ← readv_iovs cl [] 0; readv_loop rx m iovs.

(** ** Sending *)

(** [sysio_pack_chain_to_iovs] from an entry on; [i] is the length of the vector. *)
Fixpoint pack_loop (cl : chain_t) (iovs : list (Z * Z)) (size limit last_pos : Z) : option (list (Z * Z) * Z) :=
  match cl with
  | [] => Some (iovs, size)
  | b :: cl =>
      if (Z.of_nat (length iovs) <? DFS_IOVS_MAX) && (size <? limit) then
        if negb (memory b) then Some (iovs, size)
        else
        let bsize := buffer_size b in
        if bsize <=? 0 then pack_loop cl iovs size limit last_pos
        else
        let bsize := if limit <? size + bsize then limit - size else bsize in
        if last_pos =? pos b then
          match list.last iovs with
          | None => None
          | Some (a, n) => pack_loop cl (removelast iovs ++ [(a, n + bsize)]) (size + bsize) limit (pos b)
          end
        else pack_loop cl (iovs ++ [(pos b, bsize)]) (size + bsize) limit (pos b)
      else Some (iovs, size)
  end.

Definition sysio_pack_chain_to_iovs (cl : chain_t) (last_size limit : Z) : option (list (Z * Z) * Z) := pack_loop cl [] last_size limit 0.

Fixpoint gather (m : mem) (iovs : list (Z * Z)) : option (list Z) :=
  match iovs with
  | [] => Some []
  | (a, n) :: iovs => bs ← rd m a (Z.to_nat n); l ← gather m iovs; Some (bs ++ l)
  end.

(** writev(2) in [sysio_writev_iovs], for a vector of [bs]: the result, the rest of the oracle and the bytes that leave. *)
Fixpoint sysio_writev_iovs (t : list tx_t) (bs : list Z) : Z * list tx_t * list Z :=
  match t with
  | [] => (DFS_AGAIN, [], [])
  | NnConn.Tx n :: t => let out := take (Z.to_nat n) bs in (match out with [] => DFS_ERROR | _ => Z.of_nat (length out) end, t, out)
  | NnConn.TxIntr :: t => sysio_writev_iovs t bs
  | NnConn.TxAgain :: t => (DFS_AGAIN, t, [])
  | NnConn.TxErr :: t => (DFS_ERROR, t, [])
  end.

(** The loop of [sysio_writev_chain].  The chain that is returned; [None] in it is DFS_CHAIN_ERROR. *)
Fixpoint writev_chain_loop (fuel : nat) (m : mem) (cl : chain_t) (packall_size limit : Z) (s : sock_t) : option (option chain_t * sock_t) :=
  match fuel with
  | O => None
  | S fuel =>
      match cl with
      | [] => Some (Some [], s)
      | b :: _ =>
          if packall_size <? limit then
            if negb (memory b) then Some (Some cl, s)
            else
            '(iovs, packall_size) ← sysio_pack_chain_to_iovs cl packall_size limit;
            match iovs with
            | [] => Some (Some [], s)
            | _ =>
                bs ← gather m iovs;
                let '(sent_size, t, out) := sysio_writev_iovs (tx s) bs in
                let s := set_tx t s in
                if 0 <? sent_size then
                  let s := count_sent out s in
                  let cl := (chain_write_update cl sent_size).2 in
                  if limit <=? packall_size then Some (Some cl, s) else writev_chain_loop fuel m cl packall_size limit s
                else if sent_size =? DFS_AGAIN then Some (Some cl, set_ready false s)
                else Some (None, s)
            end
          else Some (Some cl, s)
      end
  end.

(** The largest amount of one call. *)
Definition real_limit (limit : Z) : Z := if (limit =? 0) || (DFS_MAX_LIMIT <? limit) then DFS_MAX_LIMIT else limit.

Definition sysio_writev_chain (m : mem) (cl : chain_t) (limit : Z) (s : sock_t) : option (option chain_t * sock_t) :=
  if negb (ready s) then Some (Some cl, s) else writev_chain_loop (S (length (tx s))) m cl 0 (real_limit limit) s.

(** sendfile(2) of [n] bytes from [p] on. *)
Definition file_bytes (file : list Z) (p n : Z) : list Z := if p <? 0 then [] else take (Z.to_nat n) (drop (Z.to_nat p) file).

(** The loop of [sysio_sendfile_chain]. *)
Fixpoint sendfile_chain_loop (fuel : nat) (file : list Z) (cl : chain_t) (sent limit : Z) (s : sock_t) : option (option chain_t * sock_t) :=
  match fuel with
  | O => None
  | S fuel =>
      match cl with
      | [] => Some (Some [], s)
      | b :: cl' =>
          if sent <? limit then
            if memory b then Some (Some cl, s)
            else
            let pack_size := buffer_size b in
            if pack_size =? 0 then sendfile_chain_loop fuel file cl' sent limit s
            else
            let pack_size := if limit <? sent + pack_size then limit - sent else pack_size in
            match tx s with
            | [] => Some (Some cl, set_ready false s)
            | NnConn.TxAgain :: t => Some (Some cl, set_ready false (set_tx t s))
            | NnConn.TxIntr :: t => sendfile_chain_loop fuel file cl sent limit (set_tx t s)
            | NnConn.TxErr :: t => Some (None, set_tx t s)
            | NnConn.Tx n :: t =>
                let out := file_bytes file (file_pos b) (Z.min n pack_size) in
                match out with
                | [] => Some (None, set_tx t s)
                | _ =>
                    let rc := Z.of_nat (length out) in
                    let b := set_file_pos b (file_pos b + rc) in
                    sendfile_chain_loop fuel file (if buffer_size b =? 0 then cl' else b :: cl') (sent + rc) limit (count_sent out (set_tx t s))
                end
            end
          else Some (Some cl, s)
      end
  end.

Definition sysio_sendfile_chain (file : list Z) (cl : chain_t) (limit : Z) (s : sock_t) : option (option chain_t * sock_t) :=
  if negb (ready s) then Some (Some cl, s) else sendfile_chain_loop (S (length (tx s) + length cl)) file cl 0 (real_limit limit) s.

(** ** Output of a chain *)

(** [c->send_chain] or [c->sendfile_chain], by the kind of the first buffer. *)
Definition send_first (m : mem) (file : list Z) (cl : chain_t) (limit : Z) (s : sock_t) : option (option chain_t * sock_t) :=
  match cl with
  | b :: _ => if memory b then sysio_writev_chain m cl limit s else sysio_sendfile_chain file cl limit s
  | [] => Some (Some [], s)
  end.

(** The loop of [chain_output] and its answer, with [ctx->out]. *)
Fixpoint output_loop (fuel : nat) (m : mem) (file : list Z) (out : chain_t) (limit : Z) (s : sock_t) : option (Z * option chain_t * sock_t) :=
  match fuel with
  | O => None
  | S fuel =>
      match out with
      | [] => Some (DFS_OK, Some [], s)
      | _ =>
          if ready s then
            '(o, s) ← send_first m file out limit s;
            match o with None => Some (DFS_ERROR, None, s) | Some out => output_loop fuel m file out limit s end
          else Some (DFS_AGAIN, Some out, s)
      end
  end.

(** [ctx] and [ctx->connection] are there. *)
Definition chain_output (m : mem) (file : list Z) (out inp : chain_t) (limit : Z) (s : sock_t) : option (Z * option chain_t * sock_t) :=
  let out := chain_append_all out inp in
  if chain_empty out then Some (DFS_OK, Some out, s)
  else output_loop (S (length (tx s) + length out)) m file out limit s.

(** The loop of [chain_output_with_limit]; [cur_limit] goes on as a size_t. *)
Fixpoint limited_loop (fuel : nat) (m : mem) (file : list Z) (out : chain_t) (limit cur_limit sent : Z) (s : sock_t) : option (option chain_t * sock_t) :=
  match fuel with
  | O => None
  | S fuel =>
      match out with
      | [] => Some (Some [], s)
      | _ =>
          if ready s then
            '(o, s) ← send_first m file out (u64 cur_limit) s;
            match o with
            | None => Some (None, s)
            | Some out =>
                if negb (ready s) then Some (Some out, s)
                else if limit =? 0 then limited_loop fuel m file out limit cur_limit sent s
                else
                let cur_limit := s64 (cur_limit - u64 (c_sent s - sent)) in
                if cur_limit <=? 0 then Some (Some out, s) else limited_loop fuel m file out limit cur_limit (c_sent s) s
            end
          else Some (Some out, s)
      end
  end.

Definition chain_output_with_limit (m : mem) (file : list Z) (out : chain_t) (limit : Z) (s : sock_t) : option (Z * option chain_t * sock_t) :=
  '(o, s) ← limited_loop (S (length (tx s) + length out)) m file out limit (s64 limit) (c_sent s) s;
  Some (match o with None => DFS_ERROR | Some [] => DFS_OK | Some _ => DFS_AGAIN end, o, s).

(** ** What is sent *)

(** The byte in a cell, and the bytes that a chain has pending. *)
Definition value (m : mem) (file : list Z) (c : bool * Z) : Z := if c.1 then default 0 (m !! c.2) else default 0 (file !! Z.to_nat c.2).
Definition data (m : mem) (file : list Z) (cl : chain_t) : list Z := value m file <$> chain_cells cl.

(** A buffer in memory has pending bytes, all of them there; one in a file ends in the file. *)
Definition sendable (m : mem) (file : list Z) (b : buffer_t) : Prop :=
  buffer_ok b /\ if memory b then 0 < pos b < last b /\ mapped m (pos b) (last b - pos b) else 0 <= file_pos b /\ file_last b <= Z.of_nat (length file).

(** A buffer does not start inside the one before it. *)
Fixpoint apart (cl : chain_t) : Prop :=
  match cl with
  | b1 :: (b2 :: _) as cl' => ~ (memory b1 = true /\ memory b2 = true /\ pos b1 <= pos b2 < last b1) /\ apart cl'
  | _ => True
  end.

Definition chain_ok (m : mem) (file : list Z) (cl : chain_t) : Prop := Forall (sendable m file) cl /\ apart cl.

Lemma rd_value m file a n : mapped m a n -> rd m a (Z.to_nat n) = Some (value m file <$> (pair true <$> seqZ a n)).
Proof.
  intros H. rewrite <-list_fmap_compose. destruct (Z.le_gt_cases n 0) as [Hn|Hn]; [rewrite seqZ_nil by lia; by replace (Z.to_nat n) with O by lia|].
  remember (Z.to_nat n) as k eqn:Ek. assert (n = Z.of_nat k) as -> by lia. clear Ek Hn. revert a H. induction k as [|k IH]; intros a H; [done|].
  cbn [rd]. destruct (H a ltac:(lia)) as [x Hx]. rewrite Hx. cbn [mbind option_bind]. rewrite (IH (a + 1)) by (intros i Hi; apply H; lia).
  rewrite (seqZ_cons a) by lia. cbn. rewrite Hx. repeat f_equal; lia.
Qed.

Definition icells (iovs : list (Z * Z)) : list (bool * Z) := concat ((fun v => pair true <$> seqZ v.1 v.2) <$> iovs).

Lemma gather_ok m file iovs : Forall (fun v => mapped m v.1 v.2) iovs -> gather m iovs = Some (value m file <$> icells iovs).
Proof.
  induction 1 as [|[a n] iovs H _ IH]; [done|]. cbn [gather]. rewrite (rd_value m file) by done. cbn. rewrite IH. cbn. by rewrite fmap_app.
Qed.

Lemma icells_snoc iovs a n : icells (iovs ++ [(a, n)]) = icells iovs ++ (pair true <$> seqZ a n).
Proof. unfold icells. rewrite fmap_app, concat_app. cbn. by rewrite app_nil_r. Qed.

(** The vector describes the first bytes of the chain. *)
Lemma pack_loop_ok m file cl : forall iovs size limit lp, chain_ok m file cl -> Forall (fun v => mapped m v.1 v.2) iovs -> 0 <= size ->
  match cl with b :: _ => memory b = true -> lp <> pos b | [] => True end ->
  exists iovs' k, pack_loop cl iovs size limit lp = Some (iovs', size + k) /\ Forall (fun v => mapped m v.1 v.2) iovs' /\ 0 <= k /\
    icells iovs' = icells iovs ++ take (Z.to_nat k) (chain_cells cl) /\
    (exists t, iovs' = iovs ++ t) /\ match cl with b :: _ => memory b = true -> size < limit -> Z.of_nat (length iovs) < DFS_IOVS_MAX -> 0 < k /\ iovs' <> [] | [] => True end.
Proof.
  induction cl as [|b cl IH]; intros iovs size limit lp [HC HA] HI Hs Hlp; cbn [pack_loop].
  { exists iovs, 0. rewrite Z.add_0_r. change (Z.to_nat 0) with O. rewrite take_0, app_nil_r. split_and!; try done. exists []. by rewrite app_nil_r. }
  assert (exists iovs' k, Some (iovs, size) = Some (iovs', size + k) /\ Forall (fun v => mapped m v.1 v.2) iovs' /\ 0 <= k /\
    icells iovs' = icells iovs ++ take (Z.to_nat k) (chain_cells (b :: cl)) /\ (exists t, iovs' = iovs ++ t) /\ k = 0) as Hstop.
  { exists iovs, 0. rewrite Z.add_0_r. change (Z.to_nat 0) with O. rewrite take_0, app_nil_r. split_and!; try done. exists []. by rewrite app_nil_r. }
  destruct (Z.ltb_spec (Z.of_nat (length iovs)) DFS_IOVS_MAX) as [Hi|Hi]; cbn [andb].
  2: { destruct Hstop as (iovs' & k & ? & ? & ? & ? & ? & ?). exists iovs', k. split_and!; try done. intros _ _ ?. lia. }
  destruct (Z.ltb_spec size limit) as [Hl|Hl].
  2: { destruct Hstop as (iovs' & k & ? & ? & ? & ? & ? & ?). exists iovs', k. split_and!; try done. intros _ ? _. lia. }
  destruct (memory b) eqn:Eb; cbn [negb].
  2: { destruct Hstop as (iovs' & k & ? & ? & ? & ? & ? & ?). exists iovs', k. by split_and!. }
  apply Forall_cons in HC as [[HB Hb] HC]. rewrite Eb in Hb. destruct Hb as [Hp Hm]. assert (buffer_size b = last b - pos b) as Es by (unfold buffer_size, buffer_in_memory; by rewrite Eb).
  assert (cells b = pair true <$> seqZ (pos b) (last b - pos b)) as Ec by (unfold cells; by rewrite Eb).
  rewrite Es. rewrite (proj2 (Z.leb_gt _ _)) by lia. set (n := if _ <? _ then _ else _). assert (0 < n <= last b - pos b /\ size + n <= limit /\ (n = last b - pos b \/ size + n = limit)) as Hn by (subst n; destruct (Z.ltb_spec limit (size + (last b - pos b))); lia).
  rewrite (proj2 (Z.eqb_neq lp (pos b))) by auto.
  destruct (IH (iovs ++ [(pos b, n)]) (size + n) limit (pos b)) as (iovs' & k & E & HI' & Hk & HC' & (t & Et) & _).
  { split; [done|]. destruct cl; [done|]. apply HA. }
  { apply Forall_app. split; [done|]. apply Forall_singleton. cbn. intros i Hii. apply Hm. lia. }
  { lia. }
  { destruct cl as [|b2 cl]; [done|]. intros E2 E3. destruct HA as [HA _]. apply HA. split; [done|]. split; [done|]. lia. }
  exists iovs', (n + k). rewrite E, Z.add_assoc. split; [done|]. split; [done|]. split; [lia|]. split; [|split; [exists ((pos b, n) :: t); by rewrite Et, <-app_assoc|intros _ _ _; split; [lia|]; rewrite Et; by destruct iovs]].
  rewrite HC', icells_snoc, <-app_assoc. f_equal. change (chain_cells (b :: cl)) with (cells b ++ chain_cells cl). rewrite Ec.
  destruct Hn as (Hn1 & Hn2 & [En|En]).
  - rewrite En, take_app_ge by (rewrite length_fmap, length_seqZ; lia). f_equal. f_equal. rewrite length_fmap, length_seqZ. lia.
  - assert (k = 0) as ->. { clear -E En. destruct cl as [|b2 cl]; cbn [pack_loop] in E; [injection E; lia|]. rewrite (proj2 (Z.ltb_ge (size + n) limit)), andb_false_r in E by lia. injection E. lia. }
    change (Z.to_nat 0) with O. rewrite take_0, app_nil_r, Z.add_0_r, take_app_le by (rewrite length_fmap, length_seqZ; lia). rewrite <-fmap_take. f_equal.
    replace (last b - pos b) with (n + (last b - pos b - n)) by lia. rewrite seqZ_app by lia. rewrite take_app_length'; [done|]. by rewrite length_seqZ.
Qed.

Lemma chain_ok_tail m file b cl : chain_ok m file (b :: cl) -> chain_ok m file cl.
Proof. intros [HC HA]. apply Forall_cons in HC as [_ HC]. split; [done|]. destruct cl; [done|]. apply HA. Qed.

(** Advancing the first buffer. *)
Lemma chain_ok_advance m file b cl s : chain_ok m file (b :: cl) -> 0 <= s < buffer_size b ->
  chain_ok m file ((if memory b then set_window b (pos b + s) (last b) else set_file_pos b (file_pos b + s)) :: cl).
Proof.
  intros [HC HA] Hs. apply Forall_cons in HC as [[(H1 & H2 & H3 & H4 & H5) Hb] HC]. unfold buffer_size, buffer_in_memory in Hs. destruct (memory b) eqn:Eb.
  - destruct Hb as [Hp Hm]. split.
    + apply Forall_cons. split; [|done]. unfold sendable, buffer_ok. cbn. rewrite Eb. split; [lia|]. split; [lia|]. intros i Hi. apply Hm. lia.
    + destruct cl as [|b2 cl]; [done|]. destruct HA as [HA HA']. split; [|done]. cbn. rewrite Eb. intros (_ & E2 & E3). apply HA. split; [done|]. split; [done|]. lia.
  - split.
    + apply Forall_cons. split; [|done]. unfold sendable, buffer_ok. cbn. rewrite Eb. lia.
    + destruct cl as [|b2 cl]; [done|]. destruct HA as [HA HA']. split; [|done]. cbn. rewrite Eb. by intros (? & _).
Qed.

Lemma chain_write_update_ok m file cl : forall n, chain_ok m file cl -> 0 <= n -> chain_ok m file (chain_write_update cl n).2.
Proof.
  induction cl as [|b cl IH]; intros n HC Hn; [done|]. cbn [chain_write_update]. destruct (Z.ltb_spec 0 n); [|done].
  assert (buffer_ok b) as HB by (destruct HC as [HC _]; apply Forall_cons in HC as [[? _] _]; done). rewrite (buffer_size_u64 _ HB). destruct (Z.ltb_spec n (buffer_size b)).
  - cbn [snd]. apply chain_ok_advance; [done|lia].
  - specialize (IH (n - buffer_size b) (chain_ok_tail _ _ _ _ HC) ltac:(lia)). by destruct (chain_write_update cl _).
Qed.

Lemma chain_write_update_data m file cl n : chain_ok m file cl -> 0 <= n -> data m file (chain_write_update cl n).2 = drop (Z.to_nat n) (data m file cl).
Proof.
  intros [HC _] Hn. assert (Forall buffer_ok cl) as HB by (eapply Forall_impl; [exact HC|]; by intros b [? _]).
  pose proof (chain_write_update_consumes cl n HB Hn) as H. destruct (chain_write_update cl n) as [passed rest]. destruct H as (_ & E & _). unfold data. cbn [snd]. by rewrite E, fmap_drop.
Qed.

(** From [cl] and [s] to [o] and [s']: bytes [e] of the chain have left. *)
Definition sends (m : mem) (file : list Z) (cl : chain_t) (s : sock_t) (o : option chain_t) (s' : sock_t) : Prop :=
  exists e, peer s' = peer s ++ e /\ u64 (c_sent s') = u64 (c_sent s + Z.of_nat (length e)) /\ (length (tx s') <= length (tx s))%nat /\ (ready s' = true -> ready s = true) /\
    match o with None => exists r, data m file cl = e ++ r | Some cl' => data m file cl = e ++ data m file cl' /\ chain_ok m file cl' /\ (length cl' <= length cl)%nat end.

Lemma sends_none m file cl s o s' : chain_ok m file cl -> peer s' = peer s -> c_sent s' = c_sent s -> (length (tx s') <= length (tx s))%nat -> (ready s' = true -> ready s = true) -> (o = None \/ o = Some cl) -> sends m file cl s o s'.
Proof. intros HC Hp Hs Ht Hr Ho. exists []. rewrite Hp, Hs, app_nil_r, Z.add_0_r. split_and!; try done. destruct Ho as [->| ->]; [eexists; reflexivity|done]. Qed.

Lemma sends_trans m file cl s cl1 s1 o s' : sends m file cl s (Some cl1) s1 -> sends m file cl1 s1 o s' -> sends m file cl s o s'.
Proof.
  intros (e1 & Ep1 & Es1 & Et1 & Er1 & Ed1 & _ & HL1) (e2 & Ep2 & Es2 & Et2 & Er2 & Ho). exists (e1 ++ e2). rewrite Ep2, Ep1, app_assoc, length_app, Nat2Z.inj_add. split; [done|]. split; [|split; [lia|split; [auto|]]].
  - rewrite Es2. unfold u64, uwrap in *. rewrite Zplus_mod, Es1, <-Zplus_mod. f_equal. lia.
  - destruct o as [cl'|]; [destruct Ho as (Ed2 & HC & HL2)|destruct Ho as [r Ed2]; exists r]; rewrite Ed1, Ed2, app_assoc; [split_and!; [done|done|lia]|done].
Qed.

(** Either side of the chain gets shorter, or the socket is not ready. *)
Definition progress (cl : chain_t) (s : sock_t) (o : option chain_t) (s' : sock_t) : Prop :=
  ready s' = false \/ match o with None => True | Some cl' => (length (tx s') + length cl' < length (tx s) + length cl)%nat end.

Lemma writev_iovs_ok t bs : let '(rc, t', out) := sysio_writev_iovs t bs in
  (exists p, t = p ++ t' /\ (t <> [] -> p <> [])) /\ (exists r, bs = out ++ r) /\ (0 < rc /\ rc = Z.of_nat (length out) /\ t <> [] \/ rc = DFS_AGAIN /\ out = [] \/ rc = DFS_ERROR /\ out = [] /\ t <> []).
Proof.
  induction t as [|x t IH]; cbn [sysio_writev_iovs]; [split; [by exists []|]; split; [by exists bs|by auto]|].
  destruct x as [n| | |]; [|destruct (sysio_writev_iovs t bs) as [[rc t'] out]; destruct IH as ((p & -> & _) & Hr & Hc)|..].
  - split; [by exists [NnConn.Tx n]|]. split; [exists (drop (Z.to_nat n) bs); by rewrite take_drop|]. destruct (take (Z.to_nat n) bs) eqn:E; [right; right; done|left; cbn; split; [lia|done]].
  - split; [by exists (NnConn.TxIntr :: p)|]. split; [done|]. naive_solver.
  - split; [by exists [NnConn.TxAgain]|]. split; [by exists bs|]. auto.
  - split; [by exists [NnConn.TxErr]|]. split; [by exists bs|]. auto.
Qed.

Lemma chain_write_update_length m file cl n : chain_ok m file cl -> 0 <= n -> (length (chain_write_update cl n).2 <= length cl)%nat.
Proof.
  intros [HC _] Hn. assert (Forall buffer_ok cl) as HB by (eapply Forall_impl; [exact HC|]; by intros b [? _]).
  pose proof (chain_write_update_consumes cl n HB Hn) as H. destruct (chain_write_update cl n) as [passed rest]. destruct H as (_ & _ & E). cbn. lia.
Qed.

(** One call of writev(2) that has written. *)
Lemma sends_count m file cl s t' out k : chain_ok m file cl -> (length t' <= length (tx s))%nat -> (exists r, value m file <$> take k (chain_cells cl) = out ++ r) ->
  sends m file cl s (Some (chain_write_update cl (Z.of_nat (length out))).2) (count_sent out (set_tx t' s)).
Proof.
  intros HC Ht [r Er]. exists out. split; [done|]. split; [cbn; unfold u64, uwrap; by rewrite Zmod_mod|]. split; [done|]. split; [done|].
  split; [|split; [apply chain_write_update_ok; [done|lia]|eapply chain_write_update_length; [done|lia]]].
  rewrite chain_write_update_data by (done || lia). rewrite Nat2Z.id. rewrite fmap_take in Er. fold (data m file cl) in Er.
  rewrite <-(take_drop k (data m file cl)), Er, <-app_assoc, drop_app_length. done.
Qed.

Lemma writev_chain_loop_ok m file fuel : forall cl pk limit s, chain_ok m file cl -> 0 <= pk -> (length (tx s) < fuel)%nat ->
  exists o s', writev_chain_loop fuel m cl pk limit s = Some (o, s') /\ sends m file cl s o s' /\
    (match cl with b :: _ => memory b = true /\ pk < limit | [] => False end -> progress cl s o s').
Proof.
  induction fuel as [|fuel IH]; intros cl pk limit s HC Hpk Hf; [lia|]. cbn [writev_chain_loop]. destruct cl as [|b cl]; [exists (Some []), s; split_and!; try done; apply sends_none; auto|].
  destruct (Z.ltb_spec pk limit) as [Hl|Hl]; [|exists (Some (b :: cl)), s; split_and!; try done; [apply sends_none; auto|intros [_ ?]; lia]].
  destruct (memory b) eqn:Eb; cbn [negb]; [|exists (Some (b :: cl)), s; split_and!; try done; [apply sends_none; auto|by intros [? _]]].
  assert (0 <> pos b) as Hp0 by (destruct HC as [HC _]; apply Forall_cons in HC as [[_ HC] _]; rewrite Eb in HC; lia).
  destruct (pack_loop_ok m file (b :: cl) [] pk limit 0 HC ltac:(by constructor) Hpk (fun _ => Hp0)) as (iovs & k & E & HI & Hk & HIC & _ & Hpos). destruct (Hpos Eb Hl ltac:(done)) as [Hk0 Hne].
  unfold sysio_pack_chain_to_iovs. rewrite (option_bind_eq _ _ _ E). destruct iovs as [|v iovs]; [done|]. rewrite (option_bind_eq _ _ _ (gather_ok m file _ HI)), HIC.
  set (bs := value m file <$> _). pose proof (writev_iovs_ok (tx s) bs) as HW. destruct (sysio_writev_iovs (tx s) bs) as [[rc t'] out]. destruct HW as ((p & Et & Hp) & Er & HW).
  assert (length (tx s) = length p + length t')%nat as Elen by (by rewrite Et, length_app).
  destruct HW as [(Hrc & -> & Ht)|[(-> & ->)|(-> & -> & Ht)]].
  - rewrite (proj2 (Z.ltb_lt _ _)) by done. assert (length t' < length (tx s))%nat as Hlt by (specialize (Hp Ht); destruct p; [done|cbn in Elen; lia]).
    pose proof (sends_count m file (b :: cl) s t' out (Z.to_nat k) HC ltac:(lia) Er) as H1. set (cl' := (chain_write_update (b :: cl) _).2) in *. set (s1 := count_sent out (set_tx t' s)) in *.
    pose proof H1 as (? & _ & _ & _ & _ & _ & HC1 & HL1). destruct (limit <=? pk + k); [exists (Some cl'), s1; split_and!; try done; intros _; right; cbn in *; lia|].
    destruct (IH cl' (pk + k) limit s1 HC1 ltac:(lia) ltac:(cbn; lia)) as (o & s' & E2 & H2 & _). exists o, s'. split; [exact E2|]. split; [by eapply sends_trans|].
    intros _. right. destruct H2 as (? & _ & _ & Ht2 & _ & Ho). destruct o; [|done]. destruct Ho as (_ & _ & HL2). cbn in *. lia.
  - exists (Some (b :: cl)). eexists. split; [done|]. split; [apply sends_none; cbn; auto; lia|]. by left.
  - exists None. eexists. split; [done|]. split; [apply sends_none; cbn; auto; lia|]. by right.
Qed.

Lemma real_limit_pos limit : 0 <= limit -> 0 < real_limit limit.
Proof. intros H. unfold real_limit, DFS_MAX_LIMIT. destruct (Z.eqb_spec limit 0); cbn [orb]; [lia|]. destruct (_ <? _); lia. Qed.

Lemma file_bytes_value m file p n : 0 <= p -> 0 <= n -> p + n <= Z.of_nat (length file) -> file_bytes file p n = value m file <$> (pair false <$> seqZ p n).
Proof.
  intros Hp Hn Hl. unfold file_bytes. rewrite (proj2 (Z.ltb_ge p 0)) by lia. rewrite <-list_fmap_compose. apply list_eq. intros i. rewrite list_lookup_fmap.
  destruct (Z.lt_ge_cases (Z.of_nat i) n) as [Hi|Hi]; [|by rewrite lookup_seqZ_ge, lookup_take_ge by lia].
  rewrite lookup_seqZ_lt, lookup_take_lt, lookup_drop by lia. cbn. replace (Z.to_nat (p + Z.of_nat i)) with (Z.to_nat p + i)%nat by lia.
  destruct (lookup_lt_is_Some_2 file (Z.to_nat p + i)) as [x Hx]; [lia|]. by rewrite Hx.
Qed.

(** One call of sendfile(2) that has written. *)
Lemma sends_file m file b cl s t' n : chain_ok m file (b :: cl) -> memory b = false -> (length t' <= length (tx s))%nat -> n <= buffer_size b ->
  let out := file_bytes file (file_pos b) n in let b' := set_file_pos b (file_pos b + Z.of_nat (length out)) in
  sends m file (b :: cl) s (Some (if buffer_size b' =? 0 then cl else b' :: cl)) (count_sent out (set_tx t' s)) /\ Z.of_nat (length out) = Z.max 0 n.
Proof.
  intros HC Eb Ht Hn out b'. pose proof HC as [HF _]. apply Forall_cons in HF as [[HB Hb] _]. rewrite Eb in Hb. pose proof HB as (_ & _ & _ & HB1 & HB2). assert (buffer_size b = file_last b - file_pos b) as Es by (unfold buffer_size, buffer_in_memory; by rewrite Eb).
  set (k := Z.max 0 n). assert (out = file_bytes file (file_pos b) k) as Eo by (unfold out, file_bytes; destruct (_ <? _); [done|]; f_equal; lia).
  rewrite (file_bytes_value m) in Eo by lia. assert (Z.of_nat (length out) = k) as El by (rewrite Eo, !length_fmap, length_seqZ; lia). split; [|done].
  assert (cells b = (pair false <$> seqZ (file_pos b) k) ++ cells b') as Ec.
  { pose proof (cells_advance b k ltac:(lia)) as Hc. rewrite Eb in Hc. unfold b'. rewrite El, Hc. unfold cells. rewrite Eb, <-fmap_drop, drop_seqZ, <-fmap_app, <-seqZ_app by lia. f_equal. f_equal. lia. }
  exists out. split; [done|]. split; [cbn; unfold u64, uwrap; by rewrite Zmod_mod|]. split; [done|]. split; [done|].
  assert (data m file (b :: cl) = out ++ data m file (b' :: cl)) as Ed by (unfold data; rewrite Eo, <-fmap_app; f_equal; change (chain_cells (b :: cl)) with (cells b ++ chain_cells cl); by rewrite Ec, <-app_assoc).
  assert (buffer_size b' = buffer_size b - k) as Es' by (rewrite <-El, Es; unfold b', buffer_size, buffer_in_memory; cbn; rewrite Eb; lia).
  destruct (Z.eqb_spec (buffer_size b') 0) as [E0|E0].
  - rewrite Ed. split; [|split; [by eapply chain_ok_tail|cbn; lia]]. f_equal. unfold data. f_equal. change (chain_cells (b' :: cl)) with (cells b' ++ chain_cells cl).
    assert (cells b' = []) as ->; [|done]. unfold cells, b'. cbn. rewrite Eb. unfold b', buffer_size, buffer_in_memory in E0. cbn in E0. rewrite Eb in E0. by rewrite seqZ_nil by lia.
  - split; [done|]. split; [|done]. pose proof (chain_ok_advance m file b cl k HC ltac:(lia)) as HA. rewrite Eb in HA. unfold b'. by rewrite El.
Qed.

Lemma sendfile_chain_loop_ok m file fuel : forall cl sent limit s, chain_ok m file cl -> 0 <= sent -> (length (tx s) + length cl < fuel)%nat ->
  exists o s', sendfile_chain_loop fuel file cl sent limit s = Some (o, s') /\ sends m file cl s o s' /\
    (match cl with b :: _ => memory b = false /\ sent < limit | [] => False end -> progress cl s o s').
Proof.
  induction fuel as [|fuel IH]; intros cl sent limit s HC Hs Hf; [lia|]. cbn [sendfile_chain_loop]. destruct cl as [|b cl]; [exists (Some []), s; split_and!; try done; apply sends_none; auto|].
  destruct (Z.ltb_spec sent limit) as [Hl|Hl]; [|exists (Some (b :: cl)), s; split_and!; try done; [apply sends_none; auto|intros [_ ?]; lia]].
  destruct (memory b) eqn:Eb; [exists (Some (b :: cl)), s; split_and!; try done; [apply sends_none; auto|by intros [? _]]|]. cbn in Hf.
  assert (forall o s' cl1 s1, sends m file (b :: cl) s (Some cl1) s1 -> (length (tx s1) + length cl1 < length (tx s) + S (length cl))%nat -> sends m file cl1 s1 o s' -> sends m file (b :: cl) s o s' /\ progress (b :: cl) s o s') as Hgo.
  { intros o s' cl1 s1 H1 HL H2. split; [by eapply sends_trans|]. right. destruct H2 as (? & _ & _ & Ht & _ & Ho). destruct o; [|done]. destruct Ho as (_ & _ & HL'). cbn. lia. }
  destruct (Z.eqb_spec (buffer_size b) 0) as [E0|E0].
  - destruct (IH cl sent limit s (chain_ok_tail _ _ _ _ HC) Hs ltac:(lia)) as (o & s' & E & H & _). exists o, s'. split; [done|].
    destruct (Hgo o s' cl s) as [H1 H2]; [|lia|done|done]. exists []. rewrite app_nil_r, Z.add_0_r. split_and!; try done; [|by eapply chain_ok_tail|cbn; lia].
    unfold data. cbn [app]. f_equal. change (chain_cells (b :: cl)) with (cells b ++ chain_cells cl). unfold buffer_size, buffer_in_memory in E0. rewrite Eb in E0. unfold cells. rewrite Eb, seqZ_nil by lia. done.
  - assert (0 < buffer_size b) as Hpos by (destruct HC as [HC _]; apply Forall_cons in HC as [[HB _] _]; pose proof (buffer_size_range _ HB); lia).
    set (pk := if _ <? _ then _ else _). assert (0 < pk <= buffer_size b) as Hpk by (subst pk; destruct (Z.ltb_spec limit (sent + buffer_size b)); lia).
    destruct (tx s) as [|x t'] eqn:Et; [eexists _, _; split; [done|]; split; [apply sends_none; cbn; auto; lia|by left]|]. cbn in Hf. destruct x as [n| | |].
    + destruct (sends_file m file b cl s t' (Z.min n pk) HC Eb ltac:(rewrite Et; cbn; lia) ltac:(lia)) as [H1 HL]. set (out := file_bytes _ _ _) in *.
      destruct out as [|x out'] eqn:Eo; [exists None; eexists; split; [done|]; split; [apply sends_none; cbn; try done; [rewrite Et; cbn; lia|auto]|by right]|]. rewrite <-Eo in *.
      set (cl1 := if _ =? _ then _ else _) in *. set (s1 := count_sent _ _) in *. pose proof H1 as (? & _ & _ & _ & _ & _ & HC1 & HL1). cbn in HL1.
      destruct (IH cl1 (sent + Z.of_nat (length out)) limit s1 HC1 ltac:(lia) ltac:(cbn; lia)) as (o & s' & E & H & _). exists o, s'. split; [exact E|].
      destruct (Hgo o s' cl1 s1 H1 ltac:(cbn; lia) H). done.
    + destruct (IH (b :: cl) sent limit (set_tx t' s) HC Hs ltac:(cbn; lia)) as (o & s' & E & H & _). exists o, s'. split; [exact E|].
      destruct (Hgo o s' (b :: cl) (set_tx t' s)) as [H1 H2]; [apply sends_none; cbn; try done; [rewrite Et; cbn; lia|auto]|cbn; lia|done|done].
    + eexists _, _. split; [done|]. split; [apply sends_none; cbn; try done; [rewrite Et; cbn; lia|by right]|by left].
    + exists None. eexists. split; [done|]. split; [apply sends_none; cbn; try done; [rewrite Et; cbn; lia|auto]|by right].
Qed.

Lemma send_first_ok m file b cl limit s : chain_ok m file (b :: cl) -> 0 <= limit -> ready s = true ->
  exists o s', send_first m file (b :: cl) limit s = Some (o, s') /\ sends m file (b :: cl) s o s' /\ progress (b :: cl) s o s'.
Proof.
  intros HC Hl Hr. pose proof (real_limit_pos limit Hl). unfold send_first, sysio_writev_chain, sysio_sendfile_chain. rewrite Hr. cbn [negb]. destruct (memory b) eqn:Eb.
  - destruct (writev_chain_loop_ok m file (S (length (tx s))) (b :: cl) 0 (real_limit limit) s HC) as (o & s' & E & H1 & H2); [lia|lia|]. exists o, s'. auto.
  - destruct (sendfile_chain_loop_ok m file (S (length (tx s) + length (b :: cl))) (b :: cl) 0 (real_limit limit) s HC) as (o & s' & E & H1 & H2); [lia|lia|]. exists o, s'. auto.
Qed.

Lemma output_loop_ok m file fuel : forall out limit s, chain_ok m file out -> 0 <= limit -> (length (tx s) + length out < fuel)%nat ->
  exists rc o s', output_loop fuel m file out limit s = Some (rc, o, s') /\ sends m file out s o s' /\
    (rc = DFS_OK /\ o = Some [] \/ rc = DFS_AGAIN /\ ready s' = false /\ (exists cl, o = Some cl /\ cl <> []) \/ rc = DFS_ERROR /\ o = None).
Proof.
  induction fuel as [|fuel IH]; intros out limit s HC Hl Hf; [lia|]. cbn [output_loop]. destruct out as [|b out]; [exists DFS_OK, (Some []), s; split_and!; try done; [apply sends_none; auto|by left]|].
  destruct (ready s) eqn:Hr; [|exists DFS_AGAIN, (Some (b :: out)), s; split_and!; try done; [apply sends_none; auto|right; left; eauto]].
  destruct (send_first_ok m file b out limit s HC Hl Hr) as (o & s1 & E & H1 & HP). rewrite (option_bind_eq _ _ _ E). destruct o as [cl1|]; [|exists DFS_ERROR, None, s1; split_and!; [done..|by right; right]].
  destruct HP as [Hr1|HP].
  - destruct fuel as [|fuel]; [cbn in Hf; lia|]. cbn [output_loop]. rewrite Hr1. destruct cl1 as [|b1 cl1]; [exists DFS_OK, (Some []), s1; split_and!; [done..|by left]|]. exists DFS_AGAIN, (Some (b1 :: cl1)), s1. split_and!; try done. right. left. eauto.
  - pose proof H1 as (? & _ & _ & _ & _ & _ & HC1 & _). destruct (IH cl1 limit s1 HC1 Hl) as (rc & o & s' & E2 & H2 & HR); [lia|]. exists rc, o, s'. split; [done|]. split; [by eapply sends_trans|done].
Qed.

Lemma chain_empty_data m file cl : chain_ok m file cl -> chain_empty cl = true -> data m file cl = [].
Proof.
  intros [HC _]. unfold data. induction HC as [|b cl [HB _] HC IH]; [done|]. cbn [chain_empty]. destruct (Z.ltb_spec 0 (buffer_size b)) as [|Hs]; [done|]. intros E.
  change (chain_cells (b :: cl)) with (cells b ++ chain_cells cl). rewrite fmap_app, IH, app_nil_r by done. pose proof (buffer_size_range _ HB). pose proof (cells_length _ HB) as HL. destruct (cells b); [done|cbn in HL; lia].
Qed.

(** C32. [chain_output] with [sysio_writev_chain] and [sysio_sendfile_chain],
    whatever the socket does, on a chain of buffers in memory and in a file of
    which those in memory are not empty and none starts inside the one before
    it: the call ends; the peer gets the first bytes of the chain, in order
    and each once, and they are counted; DFS_OK means that all have left,
    DFS_AGAIN that the socket is not ready and that what is left in the chain
    is exactly what has not left, DFS_ERROR that a part has left. *)
Theorem chain_output_sends (m : mem) (file : list Z) (out inp : chain_t) (limit : Z) (s : sock_t) : chain_ok m file (out ++ inp) -> 0 <= limit ->
  exists rc o s' e, chain_output m file out inp limit s = Some (rc, o, s') /\ peer s' = peer s ++ e /\ u64 (c_sent s') = u64 (c_sent s + Z.of_nat (length e)) /\
    (rc = DFS_OK /\ e = data m file (out ++ inp) \/
     rc = DFS_AGAIN /\ ready s' = false /\ (exists cl, o = Some cl /\ chain_ok m file cl /\ data m file (out ++ inp) = e ++ data m file cl) \/
     rc = DFS_ERROR /\ o = None /\ exists r, data m file (out ++ inp) = e ++ r).
Proof.
  intros HC Hl. unfold chain_output, chain_append_all. destruct (chain_empty (out ++ inp)) eqn:Ee.
  - exists DFS_OK, (Some (out ++ inp)), s, []. rewrite app_nil_r, Z.add_0_r, chain_empty_data by done. split_and!; [done..|by left].
  - destruct (output_loop_ok m file (S (length (tx s) + length (out ++ inp))) (out ++ inp) limit s HC Hl ltac:(lia)) as (rc & o & s' & E & (e & Ep & Es & _ & _ & Ho) & HR).
    exists rc, o, s', e. split; [done|]. split; [done|]. split; [done|]. destruct HR as [(-> & ->)|[(-> & Hr & cl & -> & Hn)|(-> & ->)]].
    + left. split; [done|]. destruct Ho as (Ed & _). by rewrite Ed, app_nil_r.
    + right. left. destruct Ho as (Ed & HC' & _). split; [done|]. split; [done|]. by exists cl.
    + right. right. done.
Qed.

(** A buffer in memory with nothing pending in front of one in a file:
    [sysio_pack_chain_to_iovs] packs nothing, [sysio_writev_chain] answers with the
    end of the chain, and [chain_output] says that all is sent although the
    file has not been touched. *)
Theorem chain_output_drops_file (m : mem) (file : list Z) (b f : buffer_t) (inp : chain_t) (limit : Z) (s : sock_t) :
  memory b = true -> pos b = last b -> memory f = false -> file_pos f < file_last f -> 0 <= limit -> ready s = true ->
  chain_output m file [b] (f :: inp) limit s = Some (DFS_OK, Some [], s).
Proof.
  intros Eb Ep Ef Hf Hl Hr. pose proof (real_limit_pos limit Hl) as HL. unfold chain_output, chain_append_all. cbn [app chain_empty]. unfold buffer_size, buffer_in_memory. rewrite Eb, Ef.
  rewrite (proj2 (Z.ltb_ge 0 (last b - pos b))), (proj2 (Z.ltb_lt 0 (file_last f - file_pos f))) by lia. replace (length (tx s) + length (b :: f :: inp))%nat with (S (length (tx s) + S (length inp))) by (cbn; lia). cbn [output_loop send_first]. rewrite Hr, Eb. unfold sysio_writev_chain. rewrite Hr. cbn [negb writev_chain_loop].
  rewrite (proj2 (Z.ltb_lt 0 (real_limit limit))) by done. rewrite Eb. cbn [negb]. unfold sysio_pack_chain_to_iovs. cbn [pack_loop length]. rewrite (proj2 (Z.ltb_lt 0 (real_limit limit))) by done.
  rewrite Eb, Ef. unfold buffer_size, buffer_in_memory. rewrite Eb, (proj2 (Z.leb_le (last b - pos b) 0)) by lia. done.
Qed.

Definition mem0 : mem := list_to_map ((fun i => (100 + Z.of_nat i, Z.of_nat i)) <$> seq 0 8).
Definition b0 : buffer_t := Buf 100 103 0 0 100 104 true true false.
Definition b1 : buffer_t := Buf 104 108 0 0 104 108 true true false.
Definition f0 : buffer_t := Buf 0 0 1 4 0 0 true false true.
Definition s0 : sock_t := Sock true 0 [NnConn.Tx 2; NnConn.TxIntr; NnConn.Tx 9; NnConn.Tx 2] [].

Lemma chain_output_sends_witness : exists o s', chain_output mem0 [7; 8; 9; 10] [b0; b1] [f0] 0 s0 = Some (DFS_AGAIN, o, s') /\ peer s' = [0; 1; 2; 4; 5; 6; 7; 8; 9] /\ ready s' = false.
Proof.
  destruct (chain_output_sends mem0 [7; 8; 9; 10] [b0; b1] [f0] 0 s0) as (rc & o & s' & e & E & Ep & _ & H); [|lia|].
  - split; [|by vm_compute; intuition congruence]. repeat constructor; try done; intros i Hi; cbn in Hi.
    + assert (i = 100 \/ i = 101 \/ i = 102) as [->|[->| ->]] by lia; vm_compute; eauto.
    + assert (i = 104 \/ i = 105 \/ i = 106 \/ i = 107) as [->|[->|[->| ->]]] by lia; vm_compute; eauto.
  - exists o, s'. vm_compute in E. injection E as <- <- <-. done.
Defined.

Lemma chain_output_drops_file_witness : chain_output mem0 [7; 8; 9; 10] [Buf 104 104 0 0 104 108 true true false] [f0] 0 s0 = Some (DFS_OK, Some [], s0).
Proof. apply (chain_output_drops_file mem0 [7; 8; 9; 10] (Buf 104 104 0 0 104 108 true true false) f0 [] 0 s0); done. Defined.

End SysIo.
