(* ===== verification/DnRequest.v ===== *)
(** * Requests of the datanode: src/datanode/dn_request.c, with cfs/cfs.c and cfs/cfs_faio.c

    A connection sends a header of 48 bytes and then a block to store, or
    gets a block.  The event loop runs the handlers of this file; transfers
    to and from files are tasks (Fio) that worker threads run, which then
    post the task back to the event loop.

    A request is known by its address, which lies in the pool of its
    connection: after [dn_request_close] any use of it is undefined ([None]).
    So is the use of what was allocated from the pool of the request, and of
    a task that is in two lists at once.  Descriptors are numbers and are used
    again, smallest first, after they are closed; a socket is an oracle as in
    SysIo.  The lists [pools] and [epolls] say which allocations from pools and
    which calls of epoll_ctl(2) succeed; when they are exhausted, all do. *)

From Stdlib Require Import ZArith Lia Bool.
From stdpp Require Import base numbers gmap option list.
From S2P Require Import Prelude Mem Buffer NnConn SysIo Posix Cache DnStorage Faio Fio.

Module DnRequest.
Import Mem Buffer Fio.
Import Faio (FAIO_IO_TYPE(..)).

Definition OP_WRITE_BLOCK : Z := 80.
Definition OP_READ_BLOCK : Z := 81.
Definition EAGAIN : Z := 11.
Definition DFS_AGAIN : Z := -2.
Definition sizeof_header : nat := 48.
Definition sizeof_header_rsp : Z := 8.
Definition sizeof_sendfile_chain_task_t : Z := 48.

(** ** State *)

Record event_t := Ev { active : bool; ready : bool; timedout : bool; timer_set : bool }.

(** The values of [read_event_handler] and [write_event_handler]. *)
Inductive handler := Null | Read_header | Block_reading | Check_read | Recv_block | Send_header | Block_writing | Send_again | Send_write_done | Send_read_done.

(** The request with its connection.  [started]: the events are handled by
    [dn_request_process_handler]; [header]: its bytes; [path_cap]: the size of
    the memory of [path]; [in_pool], [pool_mem]: what the pool of the request
    holds, as addresses of structures and ranges of bytes. *)
Record dn_request_t := Rq {
  c_fd : Z; started : bool; rev : event_t; wev : event_t; read_event_handler : handler; write_event_handler : handler;
  input : Z; output : option chain_t; header : list Z; store_fd : Z; path : list Z; path_cap : nat; done : Z; fio : Z;
  in_pool : list Z; pool_mem : list (Z * Z) }.

(** The file of a descriptor: by its path, or its contents once the path leads elsewhere. *)
Inductive target := At (p : list Posix.name) | Gone (d : list Z).
Inductive fdesc := Socket (rx : list SysIo.rx_t) (tx : list SysIo.tx_t) (sent : list Z) | File_rd (t : target) | File_wr (t : target).

Record sendfile_chain_task_t := Sf { conn_fd : Z; sf_store_fd : Z }.

(** [jobs]: the tasks with the worker threads; [fio_timers]: the requests whose [ev_timer] is set; [gone]: what the peers of closed sockets got. *)
Record world := Wd {
  reqs : gmap Z dn_request_t; mgr : fio_manager_t; memory_ : mem; sfs : gmap Z sendfile_chain_task_t; fds : gmap Z fdesc; store : DnStorage.dn;
  jobs : list (Z * FAIO_IO_TYPE); posted_events : list Z; posted_bad_events : list Z; pools : list bool; epolls : list bool; fio_timers : list Z; gone : list (list Z) }.

Definition set_req (w : world) (r : Z) (k : dn_request_t) : world :=
  Wd (<[r := k]> (reqs w)) (mgr w) (memory_ w) (sfs w) (fds w) (store w) (jobs w) (posted_events w) (posted_bad_events w) (pools w) (epolls w) (fio_timers w) (gone w).
Definition set_mgr (w : world) (m : fio_manager_t) : world :=
  Wd (reqs w) m (memory_ w) (sfs w) (fds w) (store w) (jobs w) (posted_events w) (posted_bad_events w) (pools w) (epolls w) (fio_timers w) (gone w).
Definition set_mem (w : world) (m : mem) : world :=
  Wd (reqs w) (mgr w) m (sfs w) (fds w) (store w) (jobs w) (posted_events w) (posted_bad_events w) (pools w) (epolls w) (fio_timers w) (gone w).
Definition set_sfs (w : world) (m : gmap Z sendfile_chain_task_t) : world :=
  Wd (reqs w) (mgr w) (memory_ w) m (fds w) (store w) (jobs w) (posted_events w) (posted_bad_events w) (pools w) (epolls w) (fio_timers w) (gone w).
Definition set_fds (w : world) (m : gmap Z fdesc) : world :=
  Wd (reqs w) (mgr w) (memory_ w) (sfs w) m (store w) (jobs w) (posted_events w) (posted_bad_events w) (pools w) (epolls w) (fio_timers w) (gone w).
Definition set_dn (w : world) (s : DnStorage.dn) : world :=
  Wd (reqs w) (mgr w) (memory_ w) (sfs w) (fds w) s (jobs w) (posted_events w) (posted_bad_events w) (pools w) (epolls w) (fio_timers w) (gone w).
Definition set_jobs (w : world) (l : list (Z * FAIO_IO_TYPE)) : world :=
  Wd (reqs w) (mgr w) (memory_ w) (sfs w) (fds w) (store w) l (posted_events w) (posted_bad_events w) (pools w) (epolls w) (fio_timers w) (gone w).
Definition set_posted (w : world) (l lb : list Z) : world :=
  Wd (reqs w) (mgr w) (memory_ w) (sfs w) (fds w) (store w) (jobs w) l lb (pools w) (epolls w) (fio_timers w) (gone w).
Definition set_pools (w : world) (l : list bool) : world :=
  Wd (reqs w) (mgr w) (memory_ w) (sfs w) (fds w) (store w) (jobs w) (posted_events w) (posted_bad_events w) l (epolls w) (fio_timers w) (gone w).
Definition set_epolls (w : world) (l : list bool) : world :=
  Wd (reqs w) (mgr w) (memory_ w) (sfs w) (fds w) (store w) (jobs w) (posted_events w) (posted_bad_events w) (pools w) l (fio_timers w) (gone w).
Definition set_timers (w : world) (l : list Z) : world :=
  Wd (reqs w) (mgr w) (memory_ w) (sfs w) (fds w) (store w) (jobs w) (posted_events w) (posted_bad_events w) (pools w) (epolls w) l (gone w).
Definition drop_req (w : world) (r : Z) : world :=
  Wd (delete r (reqs w)) (mgr w) (memory_ w) (sfs w) (fds w) (store w) (jobs w) (posted_events w) (posted_bad_events w) (pools w) (epolls w) (fio_timers w) (gone w).

Definition set_gone (w : world) (l : list (list Z)) : world :=
  Wd (reqs w) (mgr w) (memory_ w) (sfs w) (fds w) (store w) (jobs w) (posted_events w) (posted_bad_events w) (pools w) (epolls w) (fio_timers w) l.

Definition set_events (k : dn_request_t) (re we : event_t) : dn_request_t :=
  Rq (c_fd k) (started k) re we (read_event_handler k) (write_event_handler k) (input k) (output k) (header k) (store_fd k) (path k) (path_cap k) (done k) (fio k) (in_pool k) (pool_mem k).
Definition set_handlers (k : dn_request_t) (rh wh : handler) : dn_request_t :=
  Rq (c_fd k) (started k) (rev k) (wev k) rh wh (input k) (output k) (header k) (store_fd k) (path k) (path_cap k) (done k) (fio k) (in_pool k) (pool_mem k).
Definition set_started (k : dn_request_t) : dn_request_t :=
  Rq (c_fd k) true (rev k) (wev k) (read_event_handler k) (write_event_handler k) (input k) (output k) (header k) (store_fd k) (path k) (path_cap k) (done k) (fio k) (in_pool k) (pool_mem k).
Definition set_input (k : dn_request_t) (b : Z) : dn_request_t :=
  Rq (c_fd k) (started k) (rev k) (wev k) (read_event_handler k) (write_event_handler k) b (output k) (header k) (store_fd k) (path k) (path_cap k) (done k) (fio k) (in_pool k) (pool_mem k).
Definition set_output (k : dn_request_t) (o : chain_t) : dn_request_t :=
  Rq (c_fd k) (started k) (rev k) (wev k) (read_event_handler k) (write_event_handler k) (input k) (Some o) (header k) (store_fd k) (path k) (path_cap k) (done k) (fio k) (in_pool k) (pool_mem k).
Definition set_header (k : dn_request_t) (hd : list Z) : dn_request_t :=
  Rq (c_fd k) (started k) (rev k) (wev k) (read_event_handler k) (write_event_handler k) (input k) (output k) hd (store_fd k) (path k) (path_cap k) (done k) (fio k) (in_pool k) (pool_mem k).
Definition set_store_fd (k : dn_request_t) (fd : Z) : dn_request_t :=
  Rq (c_fd k) (started k) (rev k) (wev k) (read_event_handler k) (write_event_handler k) (input k) (output k) (header k) fd (path k) (path_cap k) (done k) (fio k) (in_pool k) (pool_mem k).
Definition set_path (k : dn_request_t) (p : list Z) (cap : nat) : dn_request_t :=
  Rq (c_fd k) (started k) (rev k) (wev k) (read_event_handler k) (write_event_handler k) (input k) (output k) (header k) (store_fd k) p cap (done k) (fio k) (in_pool k) (pool_mem k).
Definition set_done (k : dn_request_t) (n : Z) : dn_request_t :=
  Rq (c_fd k) (started k) (rev k) (wev k) (read_event_handler k) (write_event_handler k) (input k) (output k) (header k) (store_fd k) (path k) (path_cap k) n (fio k) (in_pool k) (pool_mem k).
Definition set_fio (k : dn_request_t) (f : Z) : dn_request_t :=
  Rq (c_fd k) (started k) (rev k) (wev k) (read_event_handler k) (write_event_handler k) (input k) (output k) (header k) (store_fd k) (path k) (path_cap k) (done k) f (in_pool k) (pool_mem k).
Definition set_pool (k : dn_request_t) (l : list Z) (lm : list (Z * Z)) : dn_request_t :=
  Rq (c_fd k) (started k) (rev k) (wev k) (read_event_handler k) (write_event_handler k) (input k) (output k) (header k) (store_fd k) (path k) (path_cap k) (done k) (fio k) l lm.

Definition set_rev (k : dn_request_t) (e : event_t) : dn_request_t := set_events k e (wev k).
Definition set_wev (k : dn_request_t) (e : event_t) : dn_request_t := set_events k (rev k) e.
Definition with_active (e : event_t) (b : bool) : event_t := Ev b (ready e) (timedout e) (timer_set e).
Definition with_ready (e : event_t) (b : bool) : event_t := Ev (active e) b (timedout e) (timer_set e).
Definition with_timer (e : event_t) (b : bool) : event_t := Ev (active e) (ready e) (timedout e) b.
Definition expired (e : event_t) : event_t := Ev (active e) (ready e) true false.

(** ** The header *)

Definition field (off len : nat) (hd : list Z) : Z := le_dec (take len (drop off hd)).
Definition op_type (k : dn_request_t) : Z := s32 (field 0 4 (header k)).
Definition namespace_id (k : dn_request_t) : Z := s64 (field 8 8 (header k)).
Definition block_id (k : dn_request_t) : Z := s64 (field 16 8 (header k)).
Definition start_offset (k : dn_request_t) : Z := s64 (field 32 8 (header k)).
Definition len (k : dn_request_t) : Z := s64 (field 40 8 (header k)).

(** ** Memory of the pools *)

Definition next_alloc (w : world) : bool * world := match pools w with [] => (true, w) | a :: l => (a, set_pools w l) end.
Definition next_epoll (w : world) : bool * world := match epolls w with [] => (true, w) | a :: l => (a, set_epolls w l) end.

Definition new_bytes (m : mem) (a n : Z) : mem := foldr (fun i m => <[i := 0]> m) m (seqZ a n).
Definition lose_bytes (m : mem) (q : Z * Z) : mem := foldr (fun i m => delete i m) m (seqZ q.1 q.2).

(** An address that was never used, or 0. *)
Definition pool_alloc (w : world) (n : Z) : Z * world :=
  let '(ok, w) := next_alloc w in
  if (ok : bool) then let m := mgr w in (brk m, set_mgr w (set_heap m (heap m) (brk m + n) (mallocs m))) else (0, w).

(** A buffer with its bytes; 0 when there is no memory. *)
Definition buffer_create (w : world) (k : dn_request_t) (size : Z) : Z * world * dn_request_t :=
  if size =? 0 then (0, w, k) else
  let '(a, w) := pool_alloc w sizeof_buffer_t in
  if a =? 0 then (0, w, k) else
  let '(d, w) := pool_alloc w size in
  if d =? 0 then (0, w, k) else
  let m := mgr w in
  (a, set_mem (set_mgr w (set_store m (fios m) (<[a := Buf d d 0 0 d (d + size) true true false]> (bufs m)))) (new_bytes (memory_ w) d size),
   set_pool k (a :: in_pool k) ((d, size) :: pool_mem k)).

Definition pool_destroy (w : world) (k : dn_request_t) : world :=
  let m := mgr w in
  let w := set_mgr w (set_store m (fios m) (foldr (fun a s => delete a s) (bufs m) (in_pool k))) in
  let w := set_sfs w (foldr (fun a s => delete a s) (sfs w) (in_pool k)) in
  set_mem w (foldl lose_bytes (memory_ w) (pool_mem k)).

(** ** Descriptors and files *)

(** The smallest that is free. *)
Definition new_fd (f : gmap Z fdesc) : Z :=
  match filter (fun n => f !! n = None) (seqZ 3 (Z.of_nat (S (size f)))) with n :: _ => n | [] => -1 end.

Definition cfs_close (w : world) (fd : Z) : world :=
  let w' := set_fds w (delete fd (fds w)) in
  match fds w !! fd with Some (Socket _ _ sent) => set_gone w' (gone w ++ [sent]) | _ => w' end.

Definition content (w : world) (t : target) : list Z :=
  match t with
  | At p => match DnStorage.files (store w) !! p with Some (Posix.File d) => d | _ => [] end
  | Gone d => d
  end.

(** [cfs_open] for reading. *)
Definition cfs_open_rd (w : world) (s : list Z) : Z * world :=
  match DnStorage.files (store w) !! Posix.resolve s with
  | Some (Posix.File _) => let fd := new_fd (fds w) in if fd <? 0 then (-1, w) else (fd, set_fds w (<[fd := File_rd (At (Posix.resolve s))]> (fds w)))
  | _ => (-1, w)
  end.

(** [cfs_open] with O_CREAT, O_WRONLY and O_TRUNC. *)
Definition cfs_open_wr (w : world) (s : list Z) : Z * world :=
  let fd := new_fd (fds w) in
  if fd <? 0 then (-1, w) else
  match Posix.creat (DnStorage.files (store w)) s with
  | Some f => (fd, set_fds (set_dn w (DnStorage.set_files (store w) f)) (<[fd := File_wr (At (Posix.resolve s))]> (fds w)))
  | None => (-1, w)
  end.

(** pwrite(2). *)
Definition pwrite (d : list Z) (off : Z) (bs : list Z) : list Z :=
  take (Z.to_nat off) (d ++ replicate (Z.to_nat off - length d) 0) ++ bs ++ drop (Z.to_nat off + length bs) d.

Definition set_content (w : world) (fd : Z) (t : target) (d : list Z) : world :=
  match t with
  | At p => set_dn w (DnStorage.set_files (store w) (<[p := Posix.File d]> (DnStorage.files (store w))))
  | Gone _ => set_fds w (<[fd := File_wr (Gone d)]> (fds w))
  end.

(** rename(2) of [p] to [q], for the descriptors that are open. *)
Definition relink (p q : list Posix.name) (old : list Z) (d : fdesc) : fdesc :=
  let go t := match t with At x => if bool_decide (x = p) then At q else if bool_decide (x = q) then Gone old else t | Gone _ => t end in
  match d with File_rd t => File_rd (go t) | File_wr t => File_wr (go t) | _ => d end.

(** ** Submission of tasks *)

(** [faio_write] and [faio_sendfile] on the queue of Faio: a task that is queued already is linked twice. *)
Definition submit (w : world) (f : Z) (ty : FAIO_IO_TYPE) : option (Z * world) :=
  if bool_decide (f ∈ (jobs w).*1) then None
  else if Faio.DEFAULT_QUE_SIZE <=? Z.of_nat (length (jobs w)) then Some (DFS_ERROR, w)
  else Some (DFS_OK, set_jobs w (jobs w ++ [(f, ty)])).

Definition cfs_write (w : world) (f : Z) : option (Z * world) := submit w f FAIO_IO_TYPE_WRITE.
Definition cfs_sendfile_chain (w : world) (f : Z) : option (Z * world) := submit w f FAIO_IO_TYPE_SENDFILE.

(** ** The end of a request *)

(** [conn_release] closes the socket and destroys the pool of the connection, which holds the request. *)
Definition dn_request_close (w : world) (r : Z) : option world :=
  k ← reqs w !! r;
  w ← (if fio k =? 0 then Some w
       else if bool_decide (fio k ∈ posted_events w ++ posted_bad_events w) then None
       else m ← cfs_fio_manager_free (mgr w) (fio k); Some (set_mgr w m));
  let w := if 0 <? store_fd k then cfs_close w (store_fd k) else w in
  let w := pool_destroy w k in
  let w := if 0 <? c_fd k then cfs_close w (c_fd k) else w in
  Some (drop_req w r).

(** ** Events of a connection *)

Definition event_handle_read (w : world) (r : Z) : option (Z * world) :=
  k ← reqs w !! r;
  if negb (active (rev k)) && negb (ready (rev k)) then
    let '(ok, w) := next_epoll w in
    Some (if (ok : bool) then DFS_OK else DFS_ERROR, set_req w r (set_rev k (with_active (rev k) ok)))
  else Some (DFS_OK, w).

Definition event_handle_write (w : world) (r : Z) : option (Z * world) :=
  k ← reqs w !! r;
  if negb (active (wev k)) && negb (ready (wev k)) then
    let '(ok, w) := next_epoll w in
    Some (if (ok : bool) then DFS_OK else DFS_ERROR, set_req w r (set_wev k (with_active (wev k) ok)))
  else Some (DFS_OK, w).

(** [event_delete] of [c->read]. *)
Definition event_delete_read (w : world) (r : Z) : option (Z * world) :=
  k ← reqs w !! r;
  let '(ok, w) := next_epoll w in
  if (ok : bool) then Some (DFS_OK, set_req w r (set_rev k (with_active (rev k) false))) else Some (DFS_ERROR, w).

Definition dn_request_block_reading (w : world) (r : Z) : option world :=
  '(rc, w) ← event_delete_read w r; if rc =? DFS_ERROR then dn_request_close w r else Some w.

(** The event is [c->read] here too. *)
Definition dn_request_block_writing (w : world) (r : Z) : option world :=
  '(rc, w) ← event_delete_read w r; if rc =? DFS_ERROR then dn_request_close w r else Some w.

(** recv(2) with MSG_PEEK. *)
Definition dn_request_check_connection (w : world) (r : Z) : option world :=
  k ← reqs w !! r;
  if timedout (rev k) then dn_request_close w r
  else match fds w !! c_fd k with
  | Some (Socket rx tx sent) =>
      let stay rx := Some (set_fds w (<[c_fd k := Socket rx tx sent]> (fds w))) in
      match rx with
      | [] | NnConn.Rx (_ :: _) :: _ => Some w
      | NnConn.RxAgain :: rx | NnConn.RxIntr :: rx => stay rx
      | NnConn.Rx [] :: _ | NnConn.RxEof :: _ | NnConn.RxErr :: _ => dn_request_close w r
      end
  | _ => None
  end.

(** ** Receiving a block *)

(** The loop of [recv_block_handler]; the last result of recv(2), or DFS_AGAIN when the buffer is full. *)
Fixpoint recv_loop (fuel : nat) (w : world) (k : dn_request_t) : option (Z * world) :=
  match fuel with
  | O => None
  | S fuel =>
      bu ← bufs (mgr w) !! input k;
      '(m, bu) ← buffer_shrink (memory_ w) bu;
      let put m bu w := set_mem (set_mgr w (set_store (mgr w) (fios (mgr w)) (<[input k := bu]> (bufs (mgr w))))) m in
      let blen := buffer_free_size bu in
      if blen =? 0 then Some (DFS_AGAIN, put m bu w)
      else match fds w !! c_fd k with
      | Some (Socket rx tx sent) =>
          '(rs, rx, m) ← SysIo.sysio_unix_recv rx m (last bu) blen;
          let w := set_fds w (<[c_fd k := Socket rx tx sent]> (fds w)) in
          if 0 <? rs then recv_loop fuel (put m (buffer_used bu rs) w) k else Some (rs, put m bu w)
      | _ => None
      end
  end.

Definition rx_of (w : world) (k : dn_request_t) : list SysIo.rx_t := match fds w !! c_fd k with Some (Socket rx _ _) => rx | _ => [] end.

Definition recv_block_handler (w : world) (r : Z) : option world :=
  k ← reqs w !! r;
  if timedout (rev k) then dn_request_close w r
  else
  let k := if timer_set (rev k) then set_rev k (with_timer (rev k) false) else k in
  '(rs, w) ← recv_loop (S (S (length (rx_of w k)))) (set_req w r k) k;
  if (rs =? 0) || (rs =? DFS_ERROR) then dn_request_close w r
  else
  let k := set_handlers k Block_reading (write_event_handler k) in
  t ← fios (mgr w) !! fio k;
  bu ← bufs (mgr w) !! input k;
  let t := Task (done k) (u32 (buffer_size bu)) (store_fd k) (input k) r Block_write_complete (ret t) (result t) DFS_ERROR (sf_chain_task t) in
  let w := set_mgr (set_req w r k) (set_store (mgr w) (<[fio k := t]> (fios (mgr w))) (bufs (mgr w))) in
  '(rc, w) ← cfs_write w (fio k);
  if rc =? DFS_OK then Some w else dn_request_close w r.

Definition dn_request_recv_block (w : world) (r : Z) : option world :=
  k ← reqs w !! r;
  let k := set_handlers k Recv_block Block_writing in
  let w := set_req w r k in
  if ready (rev k) then recv_block_handler w r
  else
  '(rc, w) ← event_handle_read w r;
  if rc =? DFS_ERROR then dn_request_close w r
  else k ← reqs w !! r; Some (set_req w r (set_rev k (with_timer (rev k) true))).

(** ** Sending a block *)

Definition dn_request_send_block (w : world) (r : Z) : option world :=
  k ← reqs w !! r;
  let k := set_handlers k (read_event_handler k) Block_writing in
  let w := set_req w r k in
  t ← fios (mgr w) !! fio k;
  let '(sf, w, k) :=
    if sf_chain_task t =? 0 then
      let '(a, w) := pool_alloc w sizeof_sendfile_chain_task_t in
      if a =? 0 then (0, w, k)
      else (a, set_sfs w (<[a := Sf (c_fd k) (store_fd k)]> (sfs w)), set_pool k (a :: in_pool k) (pool_mem k))
    else (sf_chain_task t, w, k) in
  let w := set_req w r k in
  if sf =? 0 then dn_request_close w r
  else
  let t := Task (start_offset k) (u32 (len k)) (store_fd k) (b t) r Block_read_complete (ret t) (result t) DFS_ERROR sf in
  let w := set_mgr w (set_store (mgr w) (<[fio k := t]> (fios (mgr w))) (bufs (mgr w))) in
  '(rc, w) ← cfs_sendfile_chain w (fio k);
  if rc =? DFS_OK then Some w else dn_request_close w r.

Definition dn_request_send_block_again (w : world) (r : Z) : option world :=
  k ← reqs w !! r;
  if timedout (wev k) then dn_request_close w r
  else
  let w := if timer_set (wev k) then set_req w r (set_wev k (with_timer (wev k) false)) else w in
  '(rc, w) ← cfs_sendfile_chain w (fio k);
  if rc =? DFS_OK then Some w else dn_request_close w r.

Definition dn_request_process_body (w : world) (r : Z) : option world :=
  k ← reqs w !! r;
  '(f, w) ← (if fio k =? 0 then '(f, m) ← cfs_fio_manager_alloc (mgr w); Some (f, set_mgr w m) else Some (fio k, w));
  let w := set_req w r (set_fio k f) in
  if f =? 0 then Some (set_timers w (r :: fio_timers w))
  else if op_type k =? OP_WRITE_BLOCK then dn_request_recv_block w r
  else if op_type k =? OP_READ_BLOCK then dn_request_send_block w r
  else Some w.

(** The handler of [ev_timer]: a task may be free now. *)
Definition fio_task_alloc_timeout (ev_timedout : bool) (w : world) (r : Z) : option world := if ev_timedout then dn_request_process_body w r else dn_request_close w r.

(** ** Responses *)

(** The loop of [send_header_response]. *)
Fixpoint send_rsp_loop (fuel : nat) (m : mem) (out : chain_t) (s : SysIo.sock_t) : option (option chain_t * SysIo.sock_t) :=
  match fuel with
  | O => None
  | S fuel =>
      match out with
      | [] => Some (Some [], s)
      | _ =>
          if SysIo.ready s then
            '(o, s) ← SysIo.sysio_writev_chain m out 0 s;
            match o with
            | None => Some (None, s)
            | Some out => if SysIo.ready s then send_rsp_loop fuel m out s else Some (Some out, s)
            end
          else Some (Some out, s)
      end
  end.

Definition send_header_response (w : world) (r : Z) : option (Z * world) :=
  k ← reqs w !! r;
  out ← output k;
  match fds w !! c_fd k with
  | Some (Socket rx tx sent) =>
      '(o, s) ← send_rsp_loop (S (length tx + length out)) (memory_ w) out (SysIo.Sock (ready (wev k)) 0 tx sent);
      let w := set_fds w (<[c_fd k := Socket rx (SysIo.tx s) (SysIo.peer s)]> (fds w)) in
      let k := set_wev k (with_ready (wev k) (SysIo.ready s)) in
      Some (match o with
        | None => (DFS_ERROR, set_req w r k)
        | Some [] => (DFS_OK, set_req w r (set_output k []))
        | Some out => (DFS_AGAIN, set_req w r (set_output k out)) end)
  | _ => None
  end.

(** [dn_request_send_header_response], [dn_request_send_write_done_response] and
    [dn_request_send_read_done_response] differ in what follows the response. *)
Definition send_response (next : world -> Z -> option world) (w : world) (r : Z) : option world :=
  k ← reqs w !! r;
  if timedout (wev k) then dn_request_close w r
  else
  let w := if timer_set (wev k) then set_req w r (set_wev k (with_timer (wev k) false)) else w in
  '(rs, w) ← send_header_response w r;
  if rs =? DFS_OK then next w r
  else if rs =? DFS_AGAIN then k ← reqs w !! r; Some (set_req w r (set_wev k (with_timer (wev k) true)))
  else dn_request_close w r.

Definition dn_request_send_header_response : world -> Z -> option world := send_response dn_request_process_body.
Definition dn_request_send_write_done_response : world -> Z -> option world := send_response (fun w _ => Some w).
Definition dn_request_send_read_done_response : world -> Z -> option world := send_response (fun w _ => Some w).

(** [op_status] and [err], both 0. *)
Definition header_rsp : list Z := [0; 0; 0; 0; 0; 0; 0; 0].

(** [dn_request_header_response], [dn_request_write_done_response] and
    [dn_request_read_done_response], with the handler [h] and its code. *)
Definition response (h : handler) (send : world -> Z -> option world) (w : world) (r : Z) : option world :=
  k ← reqs w !! r;
  let '(node, w) := pool_alloc w 16 in
  if node =? 0 then dn_request_close w r
  else
  let '(a, w, k) := buffer_create w k sizeof_header_rsp in
  let w := set_req w r k in
  if a =? 0 then dn_request_close w r
  else
  bu ← bufs (mgr w) !! a;
  m ← wr (memory_ w) (last bu) header_rsp;
  let bu := buffer_used bu sizeof_header_rsp in
  let w := set_mem w m in
  let '(ctx, w) := match output k with None => pool_alloc w 48 | Some _ => (1, w) end in
  if ctx =? 0 then dn_request_close w r
  else
  let k := set_handlers (set_output k [bu]) Check_read h in
  let w := set_req w r k in
  if ready (wev k) then send w r
  else
  '(rc, w) ← event_handle_write w r;
  if rc =? DFS_ERROR then dn_request_close w r
  else k ← reqs w !! r; Some (set_req w r (set_wev k (with_timer (wev k) true))).

Definition dn_request_header_response : world -> Z -> option world := response Send_header dn_request_send_header_response.
Definition dn_request_write_done_response : world -> Z -> option world := response Send_write_done dn_request_send_write_done_response.
Definition dn_request_read_done_response : world -> Z -> option world := response Send_read_done dn_request_send_read_done_response.

(** ** Completion of tasks *)

(** [write_block_done], with the descriptors that follow its rename(2). *)
Definition write_done (w : world) (k : dn_request_t) : option world :=
  let q := DnStorage.Req (block_id k) (namespace_id k) (len k) (path k) (path_cap k) in
  '(_, s) ← DnStorage.write_block_done (store w) q;
  curDir ← DnStorage.get_disk_id (store w) (block_id k);
  let p := Posix.resolve (path k) in
  let d := Posix.resolve (DnStorage.blk_dir curDir (namespace_id k) (block_id k)) in
  Some (set_dn (if bool_decide (DnStorage.files s = DnStorage.files (store w)) then w else set_fds w (relink p d (content w (At d)) <$> fds w)) s).

Definition block_write_complete (w : world) (r f : Z) : option world :=
  k ← reqs w !! r;
  t ← fios (mgr w) !! f;
  if faio_ret t =? DFS_ERROR then dn_request_close w r
  else if negb (faio_ret t =? need t) then dn_request_close w r
  else
  let k := set_done k (done k + faio_ret t) in
  let w := set_req w r k in
  if done k <? len k then
    bu ← bufs (mgr w) !! input k;
    recv_block_handler (set_mgr w (set_store (mgr w) (fios (mgr w)) (<[input k := buffer_reset bu]> (bufs (mgr w))))) r
  else
  let w := cfs_close w (store_fd k) in
  let k := set_store_fd k (-1) in
  w ← write_done (set_req w r k) k;
  w ← dn_request_write_done_response w r;
  dn_request_close w r.

Definition block_read_complete (w : world) (r f : Z) : option world :=
  k ← reqs w !! r;
  t ← fios (mgr w) !! f;
  if faio_ret t =? EAGAIN then
    let k := set_handlers k (read_event_handler k) Send_again in
    let w := set_req w r k in
    if ready (wev k) then dn_request_send_block_again w r
    else
    '(rc, w) ← event_handle_write w r;
    if rc =? DFS_ERROR then dn_request_close w r
    else k ← reqs w !! r; Some (set_req w r (set_wev k (with_timer (wev k) true)))
  else if faio_ret t =? DFS_ERROR then dn_request_close w r
  else w ← dn_request_read_done_response w r; dn_request_close w r.

(** [ioevents_process_posted], for one task. *)
Definition run_posted (w : world) (f : Z) : option world :=
  t ← fios (mgr w) !! f;
  match h t with
  | No_handler => None
  | Block_read_complete => block_read_complete w (f_data t) f
  | Block_write_complete => block_write_complete w (f_data t) f
  end.

(** ** The worker threads *)

(** [cfs_faio_io_write]; [res]: how much pwrite(2) writes, or that it fails. *)
Definition cfs_faio_io_write (w : world) (t : file_io_t) (res : option Z) : option (Z * world) :=
  bu ← bufs (mgr w) !! b t;
  bs ← rd (memory_ w) (start bu) (Z.to_nat (last bu - start bu));
  match fds w !! f_fd t, res with
  | Some (File_wr tg), Some n =>
      let out := take (Z.to_nat n) bs in
      Some (Z.of_nat (length out), set_content w (f_fd t) tg (pwrite (content w tg) (offset t) out))
  | _, _ => Some (faio_ret t, w)
  end.

(** [cfs_faio_io_read]. *)
Definition cfs_faio_io_read (w : world) (t : file_io_t) (res : option Z) : option (Z * world) :=
  bu ← bufs (mgr w) !! b t;
  match fds w !! f_fd t, res with
  | Some (File_rd tg), Some n =>
      let out := SysIo.file_bytes (content w tg) (offset t) (Z.min n (need t)) in
      m ← wr (memory_ w) (last bu) out; Some (Z.of_nat (length out), set_mem w m)
  | _, _ => Some (faio_ret t, w)
  end.

(** The loop of [cfs_faio_io_send_file]: the new [faio_ret], the rest of the oracle, the new offset and need, and the bytes that left. *)
Fixpoint sendfile_loop (tx : list SysIo.tx_t) (file : list Z) (off n : Z) (out : list Z) : Z * list SysIo.tx_t * Z * Z * list Z :=
  if n <=? 0 then (DFS_OK, tx, off, n, out) else
  match tx with
  | [] => (EAGAIN, [], off, n, out)
  | NnConn.TxAgain :: tx => (EAGAIN, tx, off, n, out)
  | NnConn.TxIntr :: tx => sendfile_loop tx file off n out
  | NnConn.TxErr :: tx => (DFS_ERROR, tx, off, n, out)
  | NnConn.Tx c :: tx =>
      match SysIo.file_bytes file off (Z.min (Z.min c n) SysIo.DFS_MAX_LIMIT) with
      | [] => (DFS_ERROR, tx, off, n, out)
      | bs => sendfile_loop tx file (off + Z.of_nat (length bs)) (n - Z.of_nat (length bs)) (out ++ bs)
      end
  end.

(** The offset and the need of the task change too.  Sending to something that is not a socket is not modelled. *)
Definition cfs_faio_io_send_file (w : world) (t : file_io_t) : option (file_io_t * world) :=
  sf ← sfs w !! sf_chain_task t;
  let moved rc off n := Task off n (f_fd t) (b t) (f_data t) (h t) (ret t) (result t) rc (sf_chain_task t) in
  if need t <=? 0 then Some (moved DFS_OK (offset t) (need t), w)
  else match fds w !! conn_fd sf, fds w !! sf_store_fd sf with
  | Some (Socket rx tx sent), Some (File_rd tg) =>
      let '(rc, tx, off, n, out) := sendfile_loop tx (content w tg) (offset t) (need t) [] in
      Some (moved rc off n, set_fds w (<[conn_fd sf := Socket rx tx (sent ++ out)]> (fds w)))
  | Some (File_rd _), _ | Some (File_wr _), _ => None
  | _, _ => Some (moved DFS_ERROR (offset t) (need t), w)
  end.

(** [cfs_faio_read_callback], which all callbacks call: the task is linked into a list, through the link of the free list. *)
Definition callback (w : world) (f : Z) : option world :=
  t ← fios (mgr w) !! f;
  if bool_decide (f ∈ freeq (mgr w) ++ posted_events w ++ posted_bad_events w) then None
  else
  let res := faio_ret t in
  let done_ rs := Task (offset t) (need t) (f_fd t) (b t) (f_data t) (h t) res rs res (sf_chain_task t) in
  if res <? 0 then
    Some (set_posted (set_mgr w (set_store (mgr w) (<[f := done_ AIO_FAILED]> (fios (mgr w))) (bufs (mgr w)))) (posted_events w) (posted_bad_events w ++ [f]))
  else
  bu ← bufs (mgr w) !! b t;
  Some (set_posted (set_mgr w (set_store (mgr w) (<[f := done_ AIO_OK]> (fios (mgr w))) (<[b t := buffer_used bu res]> (bufs (mgr w))))) (posted_events w ++ [f]) (posted_bad_events w)).

Definition run_job (w : world) (f : Z) (ty : FAIO_IO_TYPE) (res : option Z) : option world :=
  t ← fios (mgr w) !! f;
  '(t, w) ← match ty with
    | FAIO_IO_TYPE_WRITE => '(rc, w) ← cfs_faio_io_write w t res; Some (Task (offset t) (need t) (f_fd t) (b t) (f_data t) (h t) (ret t) (result t) rc (sf_chain_task t), w)
    | FAIO_IO_TYPE_READ => '(rc, w) ← cfs_faio_io_read w t res; Some (Task (offset t) (need t) (f_fd t) (b t) (f_data t) (h t) (ret t) (result t) rc (sf_chain_task t), w)
    | FAIO_IO_TYPE_SENDFILE => cfs_faio_io_send_file w t
    end;
  callback (set_mgr w (set_store (mgr w) (<[f := t]> (fios (mgr w))) (bufs (mgr w)))) f.

(** ** The start of a request *)

Definition dn_request_read_file (w : world) (r : Z) : option world :=
  k ← reqs w !! r;
  x ← DnStorage.block_object_get (store w) (block_id k);
  match x with
  | None => dn_request_close w r
  | Some x =>
      bi ← Cache.objs (DnStorage.g_dn_bcm (store w)) !! x;
      if store_fd k <? 0 then
        let '(fd, w) := cfs_open_rd w (DnStorage.b_path bi) in
        if fd <? 0 then dn_request_close w r
        else dn_request_header_response (set_req w r (set_store_fd k fd)) r
      else dn_request_header_response w r
  end.

Section config.

(** [sconf->recv_buff_len]. *)
Context (recv_buff_len : Z).

Definition dn_request_write_file (w : world) (r : Z) : option world :=
  k ← reqs w !! r;
  let '(a, w, k) := buffer_create w k (recv_buff_len * 2) in
  let k := set_input k a in
  let w := set_req w r k in
  if a =? 0 then dn_request_close w r
  else
  let '(ok, w) := next_alloc w in
  '(rc, q) ← DnStorage.get_block_temp_path ok (store w) (DnStorage.Req (block_id k) (namespace_id k) (len k) (path k) (path_cap k));
  let k := set_path k (DnStorage.r_path q) (DnStorage.r_cap q) in
  let w := set_req w r k in
  if negb (rc =? DFS_OK) then dn_request_close w r
  else if store_fd k <? 0 then
    let '(fd, w) := cfs_open_wr w (path k) in
    if fd <? 0 then dn_request_close w r
    else dn_request_header_response (set_req w r (set_store_fd k fd)) r
  else dn_request_header_response w r.

Definition dn_request_parse_header (w : world) (r : Z) : option world :=
  k ← reqs w !! r;
  let w := set_req w r (set_handlers k Block_reading (write_event_handler k)) in
  if op_type k =? OP_WRITE_BLOCK then dn_request_write_file w r
  else if op_type k =? OP_READ_BLOCK then dn_request_read_file w r
  else dn_request_close w r.

Definition dn_request_read_header (w : world) (r : Z) : option world :=
  k ← reqs w !! r;
  if timedout (rev k) then dn_request_close w r
  else
  let k := if timer_set (rev k) then set_rev k (with_timer (rev k) false) else k in
  match fds w !! c_fd k with
  | Some (Socket rx tx sent) =>
      let '(rs, rx, bs) := if ready (rev k) then SysIo.recv_calls rx (Z.of_nat sizeof_header) else (DFS_AGAIN, rx, []) in
      let w := set_fds w (<[c_fd k := Socket rx tx sent]> (fds w)) in
      if 0 <? rs then dn_request_parse_header (set_req w r (set_header k (bs ++ drop (length bs) (header k)))) r
      else if rs =? DFS_AGAIN then Some (set_req w r (set_rev k (with_ready (with_timer (rev k) true) false)))
      else dn_request_close (set_req w r k) r
  | _ => None
  end.

Definition dn_request_init (w : world) (r : Z) : option world :=
  k ← reqs w !! r;
  dn_request_read_header (set_req w r (set_handlers (set_started k) Read_header (write_event_handler k))) r.

(** [dn_conn_init] for a connection that was accepted. *)
Definition dn_conn_init (w : world) (rx : list SysIo.rx_t) (tx : list SysIo.tx_t) : option world :=
  let fd := new_fd (fds w) in
  if fd <? 0 then Some w else
  let w := set_fds w (<[fd := Socket rx tx []]> (fds w)) in
  let '(r, w) := pool_alloc w 400 in
  if r =? 0 then Some (cfs_close w fd)
  else
  let e := Ev false false false false in
  let w := set_req w r (Rq fd false e e Null Null 0 None (replicate sizeof_header 0) (-1) [] 0 0 0 [] []) in
  let '(ok, w) := next_alloc w in
  if negb ok then dn_request_close w r
  else '(rc, w) ← event_handle_read w r; if rc =? DFS_ERROR then dn_request_close w r else Some w.

(** ** Events *)

Definition run_handler (h : handler) (w : world) (r : Z) : option world :=
  match h with
  | Null => Some w
  | Read_header => dn_request_read_header w r
  | Block_reading => dn_request_block_reading w r
  | Check_read => dn_request_check_connection w r
  | Recv_block => recv_block_handler w r
  | Send_header => dn_request_send_header_response w r
  | Block_writing => dn_request_block_writing w r
  | Send_again => dn_request_send_block_again w r
  | Send_write_done => dn_request_send_write_done_response w r
  | Send_read_done => dn_request_send_read_done_response w r
  end.

(** [rev->handler] and [wev->handler]: at first [dn_request_init] and [dn_empty_handler], then [dn_request_process_handler]. *)
Definition read_handler (w : world) (r : Z) (k : dn_request_t) : option world := if started k then run_handler (read_event_handler k) w r else dn_request_init w r.
Definition write_handler (w : world) (r : Z) (k : dn_request_t) : option world := if started k then run_handler (write_event_handler k) w r else Some w.

Inductive event := Accept (rx : list SysIo.rx_t) (tx : list SysIo.tx_t) | Readable (r : Z) | Writable (r : Z) | Read_timeout (r : Z) | Write_timeout (r : Z) | Fio_timeout (r : Z)
  | Work (i : nat) (res : option Z) | Posted | Posted_bad.

(** What the event loop or a worker does; events of connections that are closed are not delivered. *)
Definition step (e : event) (w : world) : option world :=
  match e with
  | Accept rx tx => dn_conn_init w rx tx
  | Readable r =>
      match reqs w !! r with
      | Some k => if active (rev k) then let k := set_rev k (with_ready (rev k) true) in read_handler (set_req w r k) r k else Some w
      | None => Some w
      end
  | Writable r =>
      match reqs w !! r with
      | Some k => if active (wev k) then let k := set_wev k (with_ready (wev k) true) in write_handler (set_req w r k) r k else Some w
      | None => Some w
      end
  | Read_timeout r =>
      match reqs w !! r with
      | Some k => if timer_set (rev k) then let k := set_rev k (expired (rev k)) in read_handler (set_req w r k) r k else Some w
      | None => Some w
      end
  | Write_timeout r =>
      match reqs w !! r with
      | Some k => if timer_set (wev k) then let k := set_wev k (expired (wev k)) in write_handler (set_req w r k) r k else Some w
      | None => Some w
      end
  | Fio_timeout r => if bool_decide (r ∈ fio_timers w) then fio_task_alloc_timeout true (set_timers w (filter (fun x => x <> r) (fio_timers w))) r else Some w
  | Work i res => match jobs w !! i with Some (f, ty) => run_job (set_jobs w (delete i (jobs w))) f ty res | None => Some w end
  | Posted => match posted_events w with f :: l => run_posted (set_posted w l (posted_bad_events w)) f | [] => Some w end
  | Posted_bad => match posted_bad_events w with f :: l => run_posted (set_posted w (posted_events w) l) f | [] => Some w end
  end.

Fixpoint run (es : list event) (w : world) : option world := match es with [] => Some w | e :: es => w ← step e w; run es w end.

End config.

End DnRequest.
