(* ===== verification/DnAccept.v ===== *)
(** * The start of a request of the datanode, proved

    From the accepted connection to the answer to its header, when memory,
    tasks and epoll are available: what the header makes the datanode open,
    and that the connection is then ready for its block. *)

From Stdlib Require Import ZArith Lia Bool.
From stdpp Require Import base numbers gmap option list sets.
From S2P Require Import Prelude Mem Buffer NnConn SysIo Posix DnStorage Faio Fio FioOk DnRequest.

Module DnAccept.
Import Mem Buffer Fio DnRequest.

(** ** Descriptors and memory *)

Lemma new_fd_ok (f : gmap Z fdesc) : 3 <= new_fd f /\ f !! new_fd f = None.
Proof.
  unfold new_fd. destruct (filter _ _) as [|n l] eqn:E.
  - exfalso. set (L := seqZ 3 (Z.of_nat (S (size f)))) in *. assert (forall n, n ∈ L -> n ∈ dom f) as H.
    { intros n Hn. apply elem_of_dom. destruct (f !! n) eqn:Ef; [eauto|]. exfalso. assert (n ∈ filter (fun n => f !! n = None) L) as Hf by (apply list_elem_of_filter; done). rewrite E in Hf. by apply elem_of_nil in Hf. }
    assert ((list_to_set L : gset Z) ⊆ dom f) as HS by (intros n Hn; apply H; by apply elem_of_list_to_set in Hn). apply subseteq_size in HS.
    rewrite size_list_to_set in HS by apply NoDup_seqZ. rewrite size_dom in HS. unfold L in HS. rewrite length_seqZ in HS. lia.
  - assert (n ∈ filter (fun n => f !! n = None) (seqZ 3 (Z.of_nat (S (size f))))) as Hn by (rewrite E; by left). apply list_elem_of_filter in Hn as [Hn Hs]. apply elem_of_seqZ in Hs. split; [lia|done].
Qed.

(** Nothing is pending and all allocations succeed; with [rm], a task can be had too. *)
Record calm_with (rm : bool) (w : world) : Prop := {
  cm_pools : pools w = [];
  cm_epolls : epolls w = [];
  cm_jobs : jobs w = [];
  cm_posted : posted_events w = [];
  cm_bad : posted_bad_events w = [];
  cm_ok : FioOk.ok (mgr w);
  cm_mallocs : mallocs (mgr w) = [];
  cm_room : if rm then nelts (mgr w) < max (mgr w) \/ freeq (mgr w) <> [] else True }.

Notation calm := (calm_with true).

(** What is below the break is kept. *)
Record extends (w w' : world) : Prop := {
  ex_brk : brk (mgr w) <= brk (mgr w');
  ex_stock : (fios (mgr w'), freeq (mgr w'), task_used (mgr w'), free (mgr w'), f_idle (mgr w')) = (fios (mgr w), freeq (mgr w), task_used (mgr w), free (mgr w), f_idle (mgr w));
  ex_below : forall x, x < brk (mgr w) -> bufs (mgr w') !! x = bufs (mgr w) !! x /\ memory_ w' !! x = memory_ w !! x;
  ex_rest : (sfs w', fds w', store w', gone w', fio_timers w') = (sfs w, fds w, store w, gone w, fio_timers w) }.

(** Tasks do not notice what is allocated beside them. *)
Lemma ok_above m nb bs : FioOk.ok m -> brk m <= nb -> (forall x, x < brk m -> bs !! x = bufs m !! x) -> FioOk.ok (set_store (set_heap m (heap m) nb (mallocs m)) (fios m) bs).
Proof.
  intros [[HT HB HN HR HK HS] H2 H3 H4 H5 H6 H7] Hnb Hbs. assert (forall f, f ∈ freeq m ++ task_used m -> own_buffer f < brk m) as Hown by (intros f Hf; by destruct (proj1 (Forall_forall _ _) HT f Hf)).
  split; cbn; try done. split; cbn; try done; try lia.
  - apply Forall_forall. intros f Hf. destruct (proj1 (Forall_forall _ _) HT f Hf) as [J1 J2 J3]. split; cbn; [lia|done|]. by rewrite Hbs.
  - rewrite HB. erewrite FioOk.blocks_ext; [reflexivity|]. intros f Hf. unfold FioOk.start_of. rewrite Hbs; [done|]. by apply Hown.
  - eapply Forall_impl; [exact HR|]. cbn. lia.
Qed.

Lemma new_bytes_mapped m a n : mapped (new_bytes m a n) a n.
Proof.
  unfold new_bytes, mapped. intros i Hi. assert (i ∈ seqZ a n) as Hin by (apply elem_of_seqZ; lia). clear Hi. induction (seqZ a n) as [|x l IH]; [by apply elem_of_nil in Hin|].
  cbn. destruct (decide (x = i)) as [->|Hn]; [rewrite lookup_insert_eq; eauto|]. rewrite lookup_insert_ne by done. apply IH. apply elem_of_cons in Hin as [->|?]; done.
Qed.

Lemma new_bytes_other m a n i : ~ (a <= i < a + n) -> new_bytes m a n !! i = m !! i.
Proof.
  intros Hi. unfold new_bytes. assert (i ∉ seqZ a n) as Hin by (rewrite elem_of_seqZ; lia). clear Hi. induction (seqZ a n) as [|x l IH]; [done|]. cbn. apply not_elem_of_cons in Hin as [H1 H2]. rewrite lookup_insert_ne by done. by apply IH.
Qed.

Lemma pool_alloc_calm rm w n : calm_with rm w -> 0 <= n -> exists w', pool_alloc w n = (brk (mgr w), w') /\ calm_with rm w' /\ extends w w' /\ brk (mgr w') = brk (mgr w) + n /\ 0 < brk (mgr w) /\ w' = set_mgr w (set_heap (mgr w) (heap (mgr w)) (brk (mgr w) + n) (mallocs (mgr w))).
Proof.
  intros [H1 H2 H3 H4 H5 H6 H7 H8] Hn. unfold pool_alloc, next_alloc. rewrite H1. eexists. split; [done|].
  assert (0 < brk (mgr w)) as Hb by apply H6. split_and!; try done; [|split; cbn; try done; lia]. split; cbn; try done. apply (ok_above (mgr w) (brk (mgr w) + n) (bufs (mgr w)) H6); [lia|done].
Qed.

Lemma extends_trans w w1 w2 : extends w w1 -> extends w1 w2 -> extends w w2.
Proof.
  intros [A1 A2 A3 A4] [B1 B2 B3 B4]. split; [lia|congruence| |congruence]. intros x Hx. destruct (A3 x Hx) as [C1 C2]. destruct (B3 x ltac:(lia)) as [D1 D2]. split; congruence.
Qed.

Lemma buffer_create_calm rm w k size : calm_with rm w -> 0 < size -> exists d w', buffer_create w k size = (brk (mgr w), w', set_pool k (brk (mgr w) :: in_pool k) ((d, size) :: pool_mem k)) /\
  calm_with rm w' /\ extends w w' /\ 0 < brk (mgr w) < d /\ d + size <= brk (mgr w') /\ bufs (mgr w') !! brk (mgr w) = Some (Buf d d 0 0 d (d + size) true true false) /\ mapped (memory_ w') d size /\ reqs w' = reqs w.
Proof.
  intros HC Hs. unfold buffer_create. rewrite (proj2 (Z.eqb_neq size 0)) by lia. destruct (pool_alloc_calm rm w sizeof_buffer_t HC ltac:(done)) as (w1 & E1 & HC1 & HX1 & Hb1 & Hp1 & Ew1). rewrite E1, (proj2 (Z.eqb_neq _ 0)) by lia.
  destruct (pool_alloc_calm rm w1 size HC1 ltac:(lia)) as (w2 & E2 & HC2 & HX2 & Hb2 & Hp2 & Ew2). rewrite E2, (proj2 (Z.eqb_neq _ 0)) by lia. unfold sizeof_buffer_t in Hb1. set (a := brk (mgr w)) in *. set (d := brk (mgr w1)) in *.
  exists d. eexists. split; [done|]. set (bu := Buf _ _ _ _ _ _ _ _ _). rewrite Ew1 in Ew2. assert (bufs (mgr w2) = bufs (mgr w) /\ memory_ w2 = memory_ w) as [Eb Em] by (by rewrite Ew2). split_and!; try lia.
  - destruct HC2 as [H1 H2 H3 H4 H5 H6 H7 H8]. split; cbn; try done. rewrite Ew2. cbn. apply (ok_above (mgr w) (d + size) (<[a := bu]> (bufs (mgr w))) (cm_ok _ _ HC)); [lia|]. intros x Hx. apply lookup_insert_ne. lia.
  - split; cbn; [lia|by rewrite Ew2| |by rewrite Ew2]. intros x Hx. rewrite Eb, Em. split; [apply lookup_insert_ne; lia|apply new_bytes_other; lia].
  - cbn. lia.
  - cbn. by rewrite lookup_insert_eq.
  - cbn. apply new_bytes_mapped.
  - by rewrite Ew2.
Qed.

(** ** Accepting *)

Definition quiet : event_t := Ev false false false false.
Definition fresh_request (fd : Z) : dn_request_t := Rq fd false (Ev true false false false) quiet Null Null 0 None (replicate sizeof_header 0) (-1) [] 0 0 0 [] [].

Lemma calm_reqs rm w w' : calm_with rm w -> pools w' = pools w -> epolls w' = epolls w -> jobs w' = jobs w -> posted_events w' = posted_events w -> posted_bad_events w' = posted_bad_events w -> mgr w' = mgr w -> calm_with rm w'.
Proof. intros [H1 H2 H3 H4 H5 H6 H7 H8] E1 E2 E3 E4 E5 E6. split; rewrite ?E1, ?E2, ?E3, ?E4, ?E5, ?E6; done. Qed.

Lemma accept_ok rbl w rx tx : calm w -> exists w1, step rbl (Accept rx tx) w = Some w1 /\ calm w1 /\ reqs w1 = <[brk (mgr w) := fresh_request (new_fd (fds w))]> (reqs w) /\
  fds w1 = <[new_fd (fds w) := Socket rx tx []]> (fds w) /\ store w1 = store w /\ gone w1 = gone w /\ fios (mgr w1) = fios (mgr w) /\ brk (mgr w1) = brk (mgr w) + 400 /\ (sfs w1, freeq (mgr w1)) = (sfs w, freeq (mgr w)).
Proof.
  intros HC. cbn [step]. unfold dn_conn_init. destruct (new_fd_ok (fds w)) as [Hfd _]. rewrite (proj2 (Z.ltb_ge _ 0)) by lia. set (fd := new_fd (fds w)). set (w0 := set_fds w _).
  assert (calm w0) as HC0 by (by apply (calm_reqs true w)). destruct (pool_alloc_calm true w0 400 HC0 ltac:(lia)) as (w1 & E1 & HC1 & HX1 & Hb1 & Hp1 & Ew1). rewrite E1. change (brk (mgr w0)) with (brk (mgr w)) in *.
  rewrite (proj2 (Z.eqb_neq _ 0)) by lia. set (r := brk (mgr w)) in *. set (w2 := set_req w1 r _). unfold next_alloc. rewrite (cm_pools _ _ HC1 : pools w2 = []). cbn [negb]. unfold event_handle_read.
  assert (reqs w2 !! r = Some (Rq fd false quiet quiet Null Null 0 None (replicate sizeof_header 0) (-1) [] 0 0 0 [] [])) as Er by (cbn; by rewrite lookup_insert_eq). rewrite (option_bind_eq _ _ _ Er). cbn [rev active ready quiet negb andb].
  unfold next_epoll. rewrite (cm_epolls _ _ HC1 : epolls w2 = []), (option_bind_eq _ _ _ eq_refl). change (DFS_OK =? DFS_ERROR) with false. cbn iota. eexists. split; [reflexivity|].
  split; [by apply (calm_reqs true w1)|]. subst w1. split_and!; try done. cbn. by rewrite insert_insert_eq.
Qed.

(** ** The answer to a header *)

(** A response of 8 bytes is ready to be sent. *)
Definition pending_rsp (w : world) (bu : buffer_t) : Prop :=
  memory bu = true /\ 0 < pos bu /\ last bu = pos bu + 8 /\ buffer_ok bu /\ rd (memory_ w) (pos bu) 8 = Some header_rsp.

Lemma response_ok rm h send w r k : calm_with rm w -> reqs w !! r = Some k -> output k = None -> ready (wev k) = false -> active (wev k) = false ->
  exists w' bu l lm, response h send w r = Some w' /\ calm_with rm w' /\ extends w w' /\
    reqs w' = <[r := set_wev (set_handlers (set_output (set_pool k l lm) [bu]) Check_read h) (Ev true false (timedout (wev k)) true)]> (reqs w) /\ pending_rsp w' bu /\
    exists a, l = a :: in_pool k /\ brk (mgr w) <= a < brk (mgr w').
Proof.
  intros HC Hk Ho Hr Ha. unfold response. rewrite (option_bind_eq _ _ _ Hk). destruct (pool_alloc_calm rm w 16 HC ltac:(lia)) as (w1 & E1 & HC1 & HX1 & Hb1 & Hp1 & Ew1). rewrite E1, (proj2 (Z.eqb_neq _ 0)) by lia.
  destruct (buffer_create_calm rm w1 k sizeof_header_rsp HC1 ltac:(done)) as (d & w2 & E2 & HC2 & HX2 & Hd & Hb2 & Hbu & Hm & Hr2). rewrite E2. set (a := brk (mgr w1)) in *. set (k2 := set_pool k _ _). rewrite (proj2 (Z.eqb_neq a 0)) by lia.
  unfold sizeof_header_rsp in *. set (w3 := set_req w2 r k2). change (mgr w3) with (mgr w2). rewrite (option_bind_eq _ _ _ Hbu). cbn [last]. change (memory_ w3) with (memory_ w2).
  destruct (wr_mapped (memory_ w2) d header_rsp) as [m Em]; [exact Hm|]. rewrite (option_bind_eq _ _ _ Em). cbn [output set_pool k2]. rewrite Ho. set (w4 := set_mem w3 m).
  assert (calm_with rm w4) as HC4 by (by apply (calm_reqs rm w2)). destruct (pool_alloc_calm rm w4 48 HC4 ltac:(lia)) as (w5 & E5 & HC5 & HX5 & Hb5 & Hp5 & Ew5). rewrite E5, (proj2 (Z.eqb_neq _ 0)) by lia.
  set (bu := buffer_used _ 8). set (k5 := set_handlers (set_output k2 [bu]) Check_read h). set (w6 := set_req w5 r k5). change (wev k5) with (wev k). rewrite Hr.
  unfold event_handle_write. assert (reqs w6 !! r = Some k5) as E6 by (cbn; by rewrite lookup_insert_eq). rewrite (option_bind_eq _ _ _ E6). change (wev k5) with (wev k). rewrite Hr, Ha. cbn [negb andb].
  unfold next_epoll. rewrite (cm_epolls _ _ HC5 : epolls w6 = []), (option_bind_eq _ _ _ eq_refl). change (DFS_OK =? DFS_ERROR) with false. cbn iota. cbn [reqs set_req]. rewrite (option_bind_eq _ _ _ (lookup_insert_eq _ _ _)).
  eexists _, bu, _, _. split; [reflexivity|]. split; [by apply (calm_reqs rm w5)|]. split; [|split; [|split]].
  - eapply extends_trans; [exact HX1|]. eapply (extends_trans _ w4).
    + destruct HX2 as [A1 A2 A3 A4]. split; cbn; try done. intros x Hx. destruct (A3 x Hx) as [B1 B2]. split; [done|]. rewrite <-B2. apply (wr_lookup_ne _ _ _ _ _ Em). fold a in Hx. lia.
    + destruct HX5 as [A1 A2 A3 A4]. by split.
  - cbn. rewrite Ew5. cbn. rewrite Hr2, Ew1, !insert_insert_eq. unfold k5, k2, with_timer, with_active. cbn. rewrite Hr. reflexivity.
  - unfold pending_rsp, buffer_ok. cbn. rewrite Ew5. cbn. split_and!; try lia; try done. exact (wr_rd _ _ _ _ Em).
  - exists a. split; [done|]. cbn. cbn in Hb5. lia.
Qed.

(** The request of a header, before its path is known. *)
Definition asked (hd : list Z) : DnStorage.dn_request_t := DnStorage.Req (s64 (field 16 8 hd)) (s64 (field 8 8 hd)) (s64 (field 40 8 hd)) [] 0.

Definition awake : event_t := Ev true true false false.

(** The header has arrived; its request is parsed. *)
Lemma read_header_ok rbl w r fd hd rx tx sent : reqs w !! r = Some (fresh_request fd) -> fds w !! fd = Some (Socket (NnConn.Rx hd :: rx) tx sent) -> length hd = sizeof_header ->
  exists w', step rbl (Readable r) w = dn_request_parse_header rbl w' r /\ reqs w' = <[r := Rq fd true awake quiet Read_header Null 0 None hd (-1) [] 0 0 0 [] []]> (reqs w) /\
    fds w' = <[fd := Socket rx tx sent]> (fds w) /\ (pools w', epolls w', jobs w', posted_events w', posted_bad_events w', mgr w') = (pools w, epolls w, jobs w, posted_events w, posted_bad_events w, mgr w) /\
    (memory_ w', sfs w', store w', gone w', fio_timers w') = (memory_ w, sfs w, store w, gone w, fio_timers w).
Proof.
  intros Hr Hfd Hl. cbn [step]. rewrite Hr. cbn [rev fresh_request active]. unfold read_handler. cbn [started set_rev set_events fresh_request]. unfold dn_request_init. cbn [reqs set_req].
  rewrite (option_bind_eq _ _ _ (lookup_insert_eq _ _ _)). unfold dn_request_read_header. cbn [reqs set_req]. rewrite (option_bind_eq _ _ _ (lookup_insert_eq _ _ _)). cbn [rev timedout timer_set set_rev set_events set_handlers set_started with_ready fresh_request c_fd fds set_req ready].
  rewrite Hfd. cbn [SysIo.recv_calls]. rewrite Hl. replace (Z.min (Z.of_nat sizeof_header) (Z.of_nat sizeof_header)) with (Z.of_nat sizeof_header) by lia. rewrite Z.ltb_irrefl. rewrite (take_ge hd) by lia. rewrite Hl.
  change (0 <? Z.of_nat sizeof_header) with true. cbn iota. eexists. split; [reflexivity|]. cbn. rewrite !insert_insert_eq. split_and!; try done. f_equal. unfold set_header. cbn. f_equal. by rewrite app_nil_r.
Qed.

Lemma input_above w w' a bu : extends w w' -> bufs (mgr w) !! a = Some bu -> a < brk (mgr w) -> end_ bu <= brk (mgr w) -> mapped (memory_ w) (start bu) (end_ bu - start bu) ->
  bufs (mgr w') !! a = Some bu /\ mapped (memory_ w') (start bu) (end_ bu - start bu).
Proof.
  intros [_ _ HX _] Hb Ha He Hm. split; [by rewrite (proj1 (HX a Ha))|]. intros i Hi. rewrite (proj2 (HX i ltac:(lia))). by apply Hm.
Qed.

(** The header asks to store a block: the temporary file is there and empty, and the response waits for the socket. *)
Lemma header_write_ok rbl w r fd hd rx tx q f : calm w -> reqs w !! r = Some (fresh_request fd) -> fds w !! fd = Some (Socket (NnConn.Rx hd :: rx) tx []) -> length hd = sizeof_header -> s32 (field 0 4 hd) = OP_WRITE_BLOCK ->
  DnStorage.get_block_temp_path true (store w) (asked hd) = Some (DFS_OK, q) -> Posix.creat (DnStorage.files (store w)) (DnStorage.r_path q) = Some f -> 0 < rbl < 2 ^ 30 ->
  exists w' bu a l lm fd2, step rbl (Readable r) w = Some w' /\ calm w' /\
    reqs w' !! r = Some (Rq fd true awake (Ev true false false true) Check_read Send_header a (Some [bu]) hd fd2 (DnStorage.r_path q) (DnStorage.r_cap q) 0 0 l lm) /\
    fds w' !! fd = Some (Socket rx tx []) /\ fds w' !! fd2 = Some (File_wr (At (Posix.resolve (DnStorage.r_path q)))) /\ store w' = DnStorage.set_files (store w) f /\ gone w' = gone w /\ pending_rsp w' bu /\
    exists bi, bufs (mgr w') !! a = Some bi /\ pos bi = start bi /\ last bi = start bi /\ memory bi = true /\ 0 < start bi /\ end_ bi - start bi = rbl * 2 /\ mapped (memory_ w') (start bi) (end_ bi - start bi) /\ a < brk (mgr w') /\ end_ bi <= brk (mgr w').
Proof.
  intros HC Hr Hfd Hl Hop Hq Hf Hrbl. destruct (read_header_ok rbl w r fd hd rx tx [] Hr Hfd Hl) as (w1 & -> & Hq1 & Ef1 & Ec1 & Er1). assert (reqs w1 !! r = Some (Rq fd true awake quiet Read_header Null 0 None hd (-1) [] 0 0 0 [] [])) as Hk1 by (by rewrite Hq1, lookup_insert_eq). injection Ec1 as C1 C2 C3 C4 C5 C6. injection Er1 as R1 R2 R3 R4 R5.
  unfold dn_request_parse_header. rewrite (option_bind_eq _ _ _ Hk1). unfold op_type. cbn [header]. rewrite Hop. change (OP_WRITE_BLOCK =? OP_WRITE_BLOCK) with true. cbn iota.
  unfold dn_request_write_file. cbn [reqs set_req]. rewrite (option_bind_eq _ _ _ (lookup_insert_eq _ _ _)). set (k2 := set_handlers _ _ _). set (w2 := set_req w1 r k2).
  assert (calm w2) as HC2 by (apply (calm_reqs true w); done). destruct (buffer_create_calm true w2 k2 (rbl * 2) HC2 ltac:(lia)) as (d & w3 & E3 & HC3 & HX3 & Hd & Hb3 & Hbu3 & Hm3 & Hr3). rewrite E3. set (a := brk (mgr w2)) in *.
  rewrite (proj2 (Z.eqb_neq a 0)) by lia. set (k3 := set_input _ _). set (w4 := set_req w3 r k3). unfold next_alloc. rewrite (cm_pools _ _ HC3 : pools w4 = []).
  assert (store w4 = store w) as Es4 by (destruct HX3 as [_ _ _ HX]; injection HX as _ _ Es _ _; cbn; rewrite Es; exact R3).
  change (DnStorage.Req (block_id k3) (namespace_id k3) (len k3) (path k3) (path_cap k3)) with (asked hd). rewrite Es4, (option_bind_eq _ _ _ Hq). change (DFS_OK =? DFS_OK) with true. cbn [negb].
  set (k5 := set_path _ _ _). set (w5 := set_req w4 r k5). change (store_fd k5 <? 0) with true. cbn iota. unfold cfs_open_wr. change (store w5) with (store w4). change (path k5) with (DnStorage.r_path q). rewrite Es4, Hf.
  change (fds w5) with (fds w3). destruct (new_fd_ok (fds w3)) as [Hn1 Hn2]. set (fd2 := new_fd (fds w3)) in *. rewrite (proj2 (Z.ltb_ge fd2 0)) by lia. rewrite (proj2 (Z.ltb_ge fd2 0)) by lia.
  set (k6 := set_store_fd k5 fd2). set (w6 := set_req _ r k6). unfold dn_request_header_response.
  assert (calm w6) as HC6 by (apply (calm_reqs true w3); done).
  destruct (response_ok true Send_header dn_request_send_header_response w6 r k6 HC6) as (w7 & bu & l & lm & E7 & HC7 & HX7 & Hk7 & Hrsp & _); [cbn; by rewrite lookup_insert_eq|done|done|done|].
  pose proof HX7 as [_ _ _ HXr]. injection HXr as X1 X2 X3 X4 X5. assert (fds w3 = <[fd := Socket rx tx []]> (fds w)) as Ef3 by (destruct HX3 as [_ _ _ HX]; injection HX as _ Ef _ _ _; rewrite Ef; exact Ef1).
  assert (fd <> fd2) as Hne by (intros E; rewrite <-E, Ef3, lookup_insert_eq in Hn2; done).
  exists w7, bu, a, l, lm, fd2. split; [exact E7|]. split; [done|]. split; [by rewrite Hk7, lookup_insert_eq|]. rewrite X2, X3, X4. cbn [fds set_req set_fds set_dn w6 w5 w4 store gone]. rewrite lookup_insert_eq, lookup_insert_ne, Ef3, lookup_insert_eq by done.
  assert (gone w3 = gone w) as Eg by (destruct HX3 as [_ _ _ HX]; injection HX as _ _ _ Eg _; rewrite Eg; exact R4). split_and!; try done.
  set (bi := Buf _ _ _ _ _ _ _ _ _) in Hbu3. destruct (input_above w6 w7 a bi HX7 Hbu3) as [Hb7 Hm7]; [cbn; lia|cbn; lia|cbn; by replace (d + rbl * 2 - d) with (rbl * 2) by lia|].
  exists bi. pose proof (ex_brk _ _ HX7). cbn in *. split_and!; try done; lia.
Qed.

(** ** Sending an answer *)

Lemma pack_rsp bu : memory bu = true -> 0 < pos bu -> last bu = pos bu + 8 -> SysIo.sysio_pack_chain_to_iovs [bu] 0 (SysIo.real_limit 0) = Some ([(pos bu, 8)], 8).
Proof.
  intros Hm Hp Hl. assert (buffer_size bu = 8) as Es by (unfold buffer_size, buffer_in_memory; rewrite Hm; lia). unfold SysIo.sysio_pack_chain_to_iovs. cbn [SysIo.pack_loop]. rewrite Hm, Es.
  change ((Z.of_nat (length ([] : list (Z * Z))) <? SysIo.DFS_IOVS_MAX) && (0 <? SysIo.real_limit 0)) with true. cbn iota. cbn [negb]. change (8 <=? 0) with false. change (SysIo.real_limit 0 <? 0 + 8) with false. cbn iota. rewrite (proj2 (Z.eqb_neq 0 (pos bu))) by lia. done.
Qed.

Lemma writev_rsp m bu n tx sent : memory bu = true -> 0 < pos bu -> last bu = pos bu + 8 -> rd m (pos bu) 8 = Some header_rsp -> 8 <= n ->
  SysIo.sysio_writev_chain m [bu] 0 (SysIo.Sock true 0 (NnConn.Tx n :: tx) sent) = Some (Some [], SysIo.Sock true 8 tx (sent ++ header_rsp)).
Proof.
  intros Hm Hp Hl Hrd Hn. unfold SysIo.sysio_writev_chain. cbn [SysIo.ready negb SysIo.tx length SysIo.writev_chain_loop]. change (0 <? SysIo.real_limit 0) with true. cbn iota. rewrite Hm. cbn [negb].
  assert (buffer_size bu = 8) as Es by (unfold buffer_size, buffer_in_memory; rewrite Hm; lia).
  rewrite pack_rsp by done.
  rewrite (option_bind_eq _ _ _ eq_refl). cbn [SysIo.gather]. change (Z.to_nat 8) with 8%nat. rewrite Hrd. cbn [mbind option_bind]. cbn [SysIo.sysio_writev_iovs]. rewrite app_nil_r, take_ge by (cbn; lia). cbn [header_rsp length]. change (0 <? Z.of_nat 8) with true. cbn iota.
  unfold chain_write_update. cbn. rewrite Es. cbn. destruct (length tx); done.
Qed.

(** The answer leaves at once. *)
Lemma send_at_once next w r k bu n rx tx sent : reqs w !! r = Some k -> timedout (wev k) = false -> ready (wev k) = true -> output k = Some [bu] -> pending_rsp w bu -> fds w !! c_fd k = Some (Socket rx (NnConn.Tx n :: tx) sent) -> 8 <= n ->
  send_response next w r = next (set_req (set_fds w (<[c_fd k := Socket rx tx (sent ++ header_rsp)]> (fds w))) r (set_output (set_wev k (Ev (active (wev k)) true false false)) [])) r.
Proof.
  intros Hk Ht Hr Ho (Hm & Hp & Hl & _ & Hrd) Hfd Hn. unfold send_response. rewrite (option_bind_eq _ _ _ Hk), Ht. set (w0 := if timer_set (wev k) then _ else _).
  assert (exists k0, w0 = set_req w r k0 /\ k0 = set_wev k (Ev (active (wev k)) true false false)) as (k0 & -> & Ek0).
  { subst w0. destruct k as [? ? ? [a1 a2 a3 a4]]; cbn in *; subst. destruct a4; eexists; (split; [|reflexivity]); [done|]. unfold set_req. rewrite insert_id by done. by destruct w. }
  unfold send_header_response. cbn [reqs set_req]. rewrite (option_bind_eq _ _ _ (lookup_insert_eq _ _ _)). assert (output k0 = Some [bu] /\ c_fd k0 = c_fd k /\ ready (wev k0) = true) as (Eo & Ec & Er) by (by rewrite Ek0). rewrite (option_bind_eq _ _ _ Eo), Ec, Er. cbn [fds set_req]. rewrite Hfd.
  cbn [length send_rsp_loop SysIo.ready Nat.add]. rewrite (option_bind_eq _ _ _ (writev_rsp (memory_ w) bu n tx sent Hm Hp Hl Hrd Hn)). cbn [SysIo.ready]. replace (length tx + 1)%nat with (S (length tx)) by lia. cbn [send_rsp_loop]. rewrite (option_bind_eq _ _ _ eq_refl), (option_bind_eq _ _ _ eq_refl).
  change (DFS_OK =? DFS_OK) with true. cbn iota. cbn [SysIo.ready SysIo.tx SysIo.peer]. f_equal. unfold set_req, set_fds. cbn. rewrite insert_insert_eq, Ek0. done.
Qed.

(** ** The task of a request *)

Definition tasks (m : fio_manager_t) : list Z := freeq m ++ task_used m.

(** An allocation leaves the empty buffers as they are; new tasks are above the break. *)
Definition keeps (m m' : fio_manager_t) : Prop :=
  (brk m <= brk m' /\ forall f, f ∈ tasks m' -> f ∈ tasks m \/ f = 0 \/ brk m <= f) /\ f_size m' = f_size m /\ (forall a bu, a < brk m -> bufs m !! a = Some bu -> buffer_reset bu = bu -> bufs m' !! a = Some bu) /\ (mallocs m = [] -> mallocs m' = []).

Lemma keeps_refl m : keeps m m.
Proof. split_and!; auto; lia. Qed.

Lemma keeps_trans m m1 m2 : keeps m m1 -> keeps m1 m2 -> keeps m m2.
Proof.
  intros ([A1 A5] & A2 & A3 & A4) ([B1 B5] & B2 & B3 & B4). split_and!; [lia| |congruence| |auto]; [intros f Hf; destruct (B5 f Hf) as [H|[H|H]]; [auto|auto|right; right; lia]|]. intros a bu Ha Hb Hr. apply B3; [lia|by apply A3|done].
Qed.

(** A change of counters, blocks and buffers that are not below the break. *)
Lemma keeps_store m m' : brk m <= brk m' -> f_size m' = f_size m -> (mallocs m = [] -> mallocs m' = []) -> (forall x, x < brk m -> bufs m' !! x = bufs m !! x) ->
  (forall f, f ∈ tasks m' -> f ∈ tasks m \/ f = 0 \/ brk m <= f) -> keeps m m'.
Proof. intros H1 H2 H3 H4 H5. split_and!; try done. intros a bu Ha Hb _. by rewrite H4. Qed.

Lemma refill_keeps n : forall m, 0 < f_size m -> keeps m (refill_loop n m).2.
Proof.
  induction n as [|n IH]; intros m Hs; [apply keeps_refl|]. cbn [refill_loop]. destruct (malloc m _) as [f m1] eqn:E1. apply FioOk.malloc_cases in E1 as (ms1 & Hms1 & [(-> & -> & _)|(-> & ->)]); [by apply keeps_store; cbn; auto|].
  change (sizeof_file_io_t + sizeof_buffer_t) with 232. destruct (brk m =? 0); [apply keeps_store; cbn; auto; lia|]. set (m1 := set_heap m _ _ _). assert (0 <= my_align (f_size m) 512) as Hal by (unfold my_align; destruct (_ =? _); [lia|]; pose proof (Z.mod_pos_bound (f_size m) 512); lia).
  cbv zeta. destruct (malloc m1 _) as [st m2] eqn:E2. set (m3 := set_freeq _ _).
  assert (brk m <= brk m2 /\ f_size m2 = f_size m /\ bufs m2 = bufs m /\ tasks m2 = tasks m /\ freeq m2 = freeq m /\ (mallocs m = [] -> mallocs m2 = [])) as (B1 & B2 & B3 & B4 & B5 & B6).
  { apply FioOk.malloc_cases in E2 as (ms2 & Hms2 & [(_ & -> & _)|(_ & ->)]); cbn in *; split_and!; try done; try lia; auto. }
  assert (keeps m m3) as H3.
  { apply keeps_store; unfold m3; cbn; auto; [intros x Hx; rewrite lookup_insert_ne by (unfold own_buffer, sizeof_file_io_t; lia); by rewrite B3|].
    intros f Hf. unfold tasks in *. cbn in Hf. rewrite <-B4. apply elem_of_app in Hf as [Hf|Hf]; [|left; apply elem_of_app; by right]. apply elem_of_app in Hf as [Hf|Hf]; [left; apply elem_of_app; by left|]. apply list_elem_of_singleton in Hf. right. right. lia. }
  destruct (refill_loop n m3) as [i m'] eqn:E3. cbn. eapply keeps_trans; [exact H3|]. replace m' with (refill_loop n m3).2 by (by rewrite E3). apply IH. destruct H3 as (_ & -> & _). done.
Qed.

Lemma manager_refill_keeps m n : 0 < f_size m -> keeps m (cfs_fio_manager_refill m n).2.
Proof.
  intros Hs. unfold cfs_fio_manager_refill. set (bt := Z.to_nat _). pose proof (refill_keeps bt m Hs) as HK. destruct (refill_loop bt m) as [i m']. destruct HK as ([A1 A5] & A2 & A3 & A4). by split_and!.
Qed.

Lemma get_task_keeps m : 0 < f_size m -> keeps m (cfs_fio_manager_get_task m).2 /\ let f := (cfs_fio_manager_get_task m).1 in f ∈ tasks m \/ f = 0 \/ brk m <= f.
Proof.
  intros Hs. unfold cfs_fio_manager_get_task. set (m2 := if free m <? refill_level m then _ else _). assert (keeps m m2) as ([A1 A5] & A2 & A3 & A4) by (subst m2; destruct (_ <? _); [by apply manager_refill_keeps|apply keeps_refl]). unfold tasks in *.
  destruct (freeq m2) as [|f l] eqn:Ef; (split; [split_and!; try done|]); cbn in *; try by auto.
  - intros g Hg. unfold tasks in Hg. rewrite Ef in Hg. by apply A5.
  - intros g Hg. apply A5. by right.
  - apply A5. by left.
Qed.

Lemma alloc_keeps m f m' : 0 < f_size m -> cfs_fio_manager_alloc m = Some (f, m') -> keeps m m'.
Proof.
  intros Hs. unfold cfs_fio_manager_alloc. set (p := match freeq m with [] => _ | _ => _ end). assert (keeps m p.2) as Hp.
  { subst p. destruct (freeq m); [|apply keeps_refl]. destruct (_ <=? _); [apply keeps_refl|]. pose proof (manager_refill_keeps m (batch m) Hs). by destruct (cfs_fio_manager_refill m (batch m)). }
  destruct p as [stop m1]. cbn in Hp. destruct stop; [by injection 1 as <- <-|]. destruct (get_task_keeps m1) as [H1 H2]; [by destruct Hp as (_ & -> & _)|].
  destruct (cfs_fio_manager_get_task m1) as [f0 m2]. cbn in H1, H2. pose proof (keeps_trans _ _ _ Hp H1) as ([K1 K5] & K2 & K3 & K4). intros E. apply bind_Some in E as (t & Ht & E). apply bind_Some in E as (m3 & E3 & E). injection E as <- <-.
  unfold reset_buffer in E3. apply bind_Some in E3 as (bu0 & Hb0 & E3). injection E3 as <-. cbn. split_and!; try done.
  - intros g Hg. unfold tasks in *. cbn in Hg. rewrite app_assoc in Hg. apply elem_of_app in Hg as [Hg|Hg]; [by apply K5|]. apply list_elem_of_singleton in Hg as ->. destruct Hp as ([P1 P5] & _). destruct H2 as [H2|[H2|H2]]; [by apply P5|by auto|right; right; lia].
  - intros a bu Ha Hb Hr. cbn. specialize (K3 a bu Ha Hb Hr). destruct (decide (b t = a)) as [<-|Hn]; [|by rewrite lookup_insert_ne]. rewrite lookup_insert_eq. rewrite K3 in Hb0. injection Hb0 as ->. by rewrite Hr.
Qed.

End DnAccept.
