(* ===== verification/DnRequestOk.v ===== *)
(** * Requests of the datanode, proved

    A block that is received is stored byte by byte, however it is cut into
    pieces, and a block that is sent leaves as it is stored; and what happens
    to the tasks of requests that are over. *)

From Stdlib Require Import ZArith Lia Bool String.
From stdpp Require Import base numbers gmap option list.
From S2P Require Import Prelude CString Mem Buffer NnConn SysIo Posix DnStorage DnProps Faio Fio FioOk DnRequest DnAccept.

Module DnRequestOk.
Import Mem Buffer Fio DnRequest.
Import Faio (FAIO_IO_TYPE(..)).

(** ** Receiving *)

(** The bytes an oracle delivers; a client that is slow or interrupted, but neither fails nor closes. *)
Definition payload (rx : list SysIo.rx_t) : list Z := concat ((fun x => match x with NnConn.Rx bs => bs | _ => [] end) <$> rx).
Definition patient (rx : list SysIo.rx_t) : Prop := Forall (fun x => match x with NnConn.Rx (_ :: _) | NnConn.RxIntr | NnConn.RxAgain => True | _ => False end) rx.

Definition measure (rx : list SysIo.rx_t) : nat := (length rx + length (payload rx))%nat.

(** One call: it gets the next bytes, or the socket is not ready. *)
Lemma recv_calls_ok rx size : patient rx -> 0 < size -> let '(rs, rx', bs) := SysIo.recv_calls rx size in
  patient rx' /\ payload rx = bs ++ payload rx' /\ (rx <> [] -> (measure rx' < measure rx)%nat) /\ (length rx' <= length rx)%nat /\
  (0 < rs /\ rs = Z.of_nat (length bs) /\ rs <= size /\ ((length rx' < length rx)%nat \/ rs = size) \/ rs = DFS_AGAIN /\ bs = []).
Proof.
  intros HP Hs. induction HP as [|x rx Hx HP IH]; cbn [SysIo.recv_calls]; [split_and!; [by constructor|done|done|done|by right]|].
  destruct x as [bs| | | |]; [|done| |..|done].
  - destruct bs as [|y bs]; [done|]. set (l := y :: bs) in *. assert (0 < Z.of_nat (length l)) as Hl by (subst l; cbn; lia). clearbody l. set (n := Z.min _ _).
    assert (Z.of_nat (length (take (Z.to_nat n) l)) = n) as Htk by (rewrite length_take; lia).
    assert (payload (NnConn.Rx l :: rx) = l ++ payload rx) as Epay by done.
    destruct (Z.ltb_spec n (Z.of_nat (length l))) as [Hlt|Hge].
    + assert (payload (NnConn.Rx (drop (Z.to_nat n) l) :: rx) = drop (Z.to_nat n) l ++ payload rx) as Epay' by done.
      split_and!; [| |intros _| |left; split_and!; [lia|lia|lia|right; lia]].
      * constructor; [|done]. destruct (drop (Z.to_nat n) l) eqn:Ed; [|done]. apply (f_equal length) in Ed. rewrite length_drop in Ed. cbn in Ed. lia.
      * rewrite Epay, Epay', app_assoc, take_drop. done.
      * unfold measure. rewrite Epay, Epay', !length_app, length_drop. cbn. lia.
      * cbn. lia.
    + assert (take (Z.to_nat n) l = l) as Et by (apply take_ge; lia). rewrite Et in *. split_and!; [done|done|intros _; unfold measure; rewrite Epay, length_app; cbn; lia|cbn; lia|left; split_and!; [lia|lia|lia|left; cbn; lia]].
  - destruct (SysIo.recv_calls rx size) as [[rs rx'] bs]. destruct IH as (I1 & I2 & I3 & I4 & I5). split_and!; [done|done| |cbn; lia|destruct I5 as [(?&?&?&?)|?]; [left; split_and!; [done|done|done|cbn; lia]|by right]].
    intros _. change (measure (NnConn.RxIntr :: rx)) with (S (measure rx)). destruct rx as [|z rx]; [|specialize (I3 ltac:(done)); lia]. assert (rx' = []) as -> by (destruct rx'; [done|cbn in I4; lia]). lia.
  - split_and!; [done|done|intros _; change (measure (NnConn.RxAgain :: rx)) with (S (measure rx)); lia|cbn; lia|by right].
Qed.

(** The buffer that receives: its pending bytes start at its start. *)
Record input_ok (w : world) (k : dn_request_t) (bu : buffer_t) (acc : list Z) : Prop := {
  io_buf : bufs (mgr w) !! input k = Some bu;
  io_pos : pos bu = start bu;
  io_last : last bu = start bu + Z.of_nat (length acc);
  io_mem : memory bu = true;
  io_start : 0 < start bu /\ last bu <= end_ bu /\ 0 < end_ bu - start bu < 2 ^ 31;
  io_mapped : mapped (memory_ w) (start bu) (end_ bu - start bu);
  io_bytes : rd (memory_ w) (start bu) (length acc) = Some acc }.

(** What the loop of [recv_block_handler] changes. *)
Definition received (w : world) (k : dn_request_t) (bu : buffer_t) (m : mem) (d : fdesc) : world :=
  set_fds (set_mem (set_mgr w (set_store (mgr w) (fios (mgr w)) (<[input k := bu]> (bufs (mgr w))))) m) (<[c_fd k := d]> (fds w)).

Lemma received_twice w k bu m d bu' m' d' : received (received w k bu m d) k bu' m' d' = received w k bu' m' d'.
Proof. unfold received. cbn. unfold set_store. cbn. by rewrite !insert_insert_eq. Qed.

Lemma rd_concat m a l1 l2 : rd m a (length l1) = Some l1 -> rd m (a + Z.of_nat (length l1)) (length l2) = Some l2 -> rd m a (length (l1 ++ l2)) = Some (l1 ++ l2).
Proof.
  revert a. induction l1 as [|x l1 IH]; intros a H1 H2; cbn [length app rd] in *; [by replace (a + Z.of_nat 0) with a in H2 by lia|].
  destruct (m !! a) as [y|]; [|done]. cbn in H1 |- *. destruct (rd m (a + 1) (length l1)) eqn:E; [|done]. cbn in H1. injection H1 as -> ->. rewrite (IH (a + 1)); [done|done|]. rewrite <-H2. f_equal. lia.
Qed.

Lemma recv_loop_ok fuel : forall w k bu acc rx tx sent, patient rx -> input_ok w k bu acc -> fds w !! c_fd k = Some (Socket rx tx sent) -> (length rx + 1 < fuel)%nat \/ (last bu = end_ bu /\ (0 < fuel)%nat) ->
  exists rx' got bu' m', recv_loop fuel w k = Some (DFS_AGAIN, received w k bu' m' (Socket rx' tx sent)) /\ patient rx' /\ payload rx = got ++ payload rx' /\
    input_ok (received w k bu' m' (Socket rx' tx sent)) k bu' (acc ++ got) /\ start bu' = start bu /\ end_ bu' = end_ bu /\ (measure rx' <= measure rx)%nat /\ (rx <> [] -> last bu < end_ bu -> (measure rx' < measure rx)%nat).
Proof.
  induction fuel as [|fuel IH]; intros w k bu acc rx tx sent HP [H1 H2 H3 H4 H5 H6 H7] Hfd Hf; [lia|]. cbn [recv_loop]. rewrite (option_bind_eq _ _ _ H1).
  assert (buffer_shrink (memory_ w) bu = Some (memory_ w, bu)) as Esh by (unfold buffer_shrink; by rewrite (proj2 (Z.eqb_eq _ _) (eq_sym H2))). rewrite (option_bind_eq _ _ _ Esh).
  unfold buffer_free_size. destruct (Z.eqb_spec (end_ bu - last bu) 0) as [E0|E0].
  { exists rx, [], bu, (memory_ w). unfold received. rewrite app_nil_r. cbn [fds set_mem set_mgr]. rewrite (insert_id (fds w)) by done. split_and!; try done; [|lia].
    split; cbn; rewrite ?lookup_insert_eq; done. }
  
  rewrite Hfd. unfold SysIo.sysio_unix_recv. rewrite (proj2 (Z.eqb_neq _ _)) by lia. unfold SysIo.sysio_udp_unix_recv.
  pose proof (recv_calls_ok rx (end_ bu - last bu) HP ltac:(lia)) as HR. destruct (SysIo.recv_calls rx _) as [[rs rx'] bs]. destruct HR as (HP' & Epay & Hme & Hle & HR).
  assert (measure rx' <= measure rx)%nat as Hme' by (destruct rx as [|x rx]; [destruct rx'; [done|cbn in Hle; lia]|specialize (Hme ltac:(done)); lia]).
  destruct HR as [(Hrs & Ers & Hsz & Hpr)|(-> & ->)].
  2: { cbn. exists rx', [], bu, (memory_ w). rewrite app_nil_r. split; [done|]. split; [done|]. split; [done|]. split; [|by auto]. split; cbn; rewrite ?lookup_insert_eq; done. }
  destruct (wr_mapped (memory_ w) (last bu) bs) as [m1 Ew]; [intros i Hi; apply H6; lia|]. rewrite (option_bind_eq _ _ _ Ew), (option_bind_eq _ _ _ eq_refl), (proj2 (Z.ltb_lt _ _)) by done.
  set (bu1 := buffer_used bu rs). change (set_mem _ m1) with (received w k bu1 m1 (Socket rx' tx sent)). set (w1 := received w k bu1 m1 (Socket rx' tx sent)).
  destruct (IH w1 k bu1 (acc ++ bs) rx' tx sent HP') as (rx2 & got & bu2 & m2 & E & HP2 & Epay2 & HI2 & Es & Ee & Hme2 & _).
  - split; cbn; try done; [by rewrite lookup_insert_eq|rewrite length_app; lia|lia|by eapply mapped_wr|].
    apply rd_concat; [by rewrite (rd_wr_disjoint _ _ _ _ _ _ Ew) by lia|]. rewrite H3 in Ew. by rewrite (wr_rd _ _ _ _ Ew).
  - cbn. by rewrite lookup_insert_eq.
  - cbn. destruct Hf as [Hf|[Hf _]]; [|lia]. destruct Hpr as [Hpr|Hpr]; [left; lia|right; lia].
  - unfold w1 in E, HI2. rewrite received_twice in E, HI2. exists rx2, (bs ++ got), bu2, m2. split; [exact E|]. split; [done|]. split; [by rewrite Epay, Epay2, app_assoc|]. split; [by rewrite app_assoc|]. split; [done|]. split; [done|].
    split; [lia|]. intros Hrx _. specialize (Hme Hrx). lia.
Qed.

(** ** One piece of a block *)

(** What a transfer leaves alone in a request. *)
Definition fixed (k : dn_request_t) := (c_fd k, started k, input k, header k, store_fd k, path k, path_cap k, fio k, in_pool k, pool_mem k).

Definition stored (s0 : DnStorage.dn) (p : list Posix.name) (d : list Z) : DnStorage.dn := DnStorage.set_files s0 (<[p := Posix.File d]> (DnStorage.files s0)).

(** The request between two tasks: [got] is in the file, [rx] is still to come. *)
Record between (s0 : DnStorage.dn) (p : list Posix.name) (w : world) (r : Z) (k : dn_request_t) (rx : list SysIo.rx_t) (got : list Z) : Prop := {
  bt_req : reqs w !! r = Some k;
  bt_time : timedout (rev k) = false;
  bt_sock : exists tx, fds w !! c_fd k = Some (Socket rx tx header_rsp);
  bt_file : fds w !! store_fd k = Some (File_wr (At p));
  bt_store : store w = stored s0 p got;
  bt_done : done k = Z.of_nat (length got);
  bt_task : exists t, fios (mgr w) !! fio k = Some t;
  bt_free : fio k ∉ freeq (mgr w);
  bt_patient : patient rx }.

(** Before the task is submitted, and while it is with the workers. *)
Definition ready_to_receive (s0 : DnStorage.dn) (p : list Posix.name) (w : world) (r : Z) (k : dn_request_t) (rx : list SysIo.rx_t) (got : list Z) : Prop :=
  between s0 p w r k rx got /\ jobs w = [] /\ posted_events w = [] /\ posted_bad_events w = [] /\ exists bu, input_ok w k bu [].

Definition writing (s0 : DnStorage.dn) (p : list Posix.name) (w : world) (r : Z) (k : dn_request_t) (rx : list SysIo.rx_t) (got piece : list Z) : Prop :=
  between s0 p w r k rx got /\ jobs w = [(fio k, FAIO_IO_TYPE_WRITE)] /\ posted_events w = [] /\ posted_bad_events w = [] /\ (exists bu, input_ok w k bu piece) /\
  exists t, fios (mgr w) !! fio k = Some t /\ offset t = done k /\ need t = Z.of_nat (length piece) /\ f_fd t = store_fd k /\ b t = input k /\ f_data t = r /\ h t = Block_write_complete.

Lemma recv_block_handler_ok s0 p w r k rx got : ready_to_receive s0 p w r k rx got ->
  exists w1 k1 rx1 piece, recv_block_handler w r = Some w1 /\ writing s0 p w1 r k1 rx1 got piece /\ fixed k1 = fixed k /\
    payload rx = piece ++ payload rx1 /\ (rx <> [] -> (measure rx1 < measure rx)%nat) /\ Z.of_nat (length piece) < 2 ^ 31.
Proof.
  intros (HB & HJ & HQ & HQ' & bu & HI). pose proof HB as [H1 H2 (tx & H3) H4 H5 H6 (t & H7) H8 HP].
  unfold recv_block_handler. rewrite (option_bind_eq _ _ _ H1), H2. set (k0 := if timer_set (rev k) then _ else _).
  assert (fixed k0 = fixed k /\ done k0 = done k /\ timedout (rev k0) = false /\ write_event_handler k0 = write_event_handler k) as (Ef & Ed & Et & _) by (subst k0; by destruct (timer_set (rev k))).
  injection Ef as F1 F2 F3 F4 F5 F6 F7 F8 F9 F10. unfold rx_of. rewrite F1, H3.
  destruct (recv_loop_ok (S (S (length rx))) (set_req w r k0) k0 bu [] rx tx header_rsp HP) as (rx1 & piece & bu1 & m1 & E & HP1 & Epay & HI1 & Es & Ee & _ & Hme).
  { destruct HI. split; cbn; by rewrite ?F3. }
  { cbn. by rewrite F1. }
  { left. lia. }
  rewrite (option_bind_eq _ _ _ E). change ((DFS_AGAIN =? 0) || (DFS_AGAIN =? DFS_ERROR)) with false. cbn iota. set (w0 := received _ _ _ _ _) in *.
  assert (fios (mgr w0) !! fio k0 = Some t) as Ht by (cbn; by rewrite F8). cbn [fio set_handlers]. rewrite (option_bind_eq _ _ _ Ht).
  cbn [input set_handlers]. rewrite (option_bind_eq _ _ _ (io_buf _ _ _ _ HI1)).
  pose proof HI1 as [I1 I2 I3 I4 I5 I6 I7]. cbn [app] in I3, I7.
  assert (buffer_size bu1 = Z.of_nat (length piece)) as Esz by (unfold buffer_size, buffer_in_memory; rewrite I4; lia). rewrite Esz.
  assert (u32 (Z.of_nat (length piece)) = Z.of_nat (length piece)) as -> by (apply uwrap_small; unfold in_u; lia).
  unfold cfs_write, submit. cbn [jobs set_mgr set_req set_mem set_fds w0 received]. rewrite HJ. cbn [fmap list_fmap length app]. rewrite bool_decide_false by apply not_elem_of_nil.
  change (Faio.DEFAULT_QUE_SIZE <=? Z.of_nat 0) with false. cbn iota. rewrite (option_bind_eq _ _ _ eq_refl). change (DFS_OK =? DFS_OK) with true. cbn iota.
  set (k1 := set_handlers k0 Block_reading (write_event_handler k0)). eexists _, k1, rx1, piece. split; [reflexivity|]. split; [|split; [unfold fixed; cbn; congruence|split; [done|split; [|lia]]]].
  - split_and!.
    + split; cbn; rewrite ?lookup_insert_eq; try done; [eauto| | |by eexists|by rewrite F8].
      * rewrite lookup_insert_ne; [by rewrite F5|]. intros Ec. rewrite F1, F5 in Ec. rewrite Ec in H3. congruence.
      * congruence.
    + done.
    + done.
    + done.
    + exists bu1. split; cbn; rewrite ?lookup_insert_eq; done.
    + eexists. cbn. rewrite lookup_insert_eq. split; [reflexivity|]. cbn. done.
  - intros Hrx. apply Hme; [done|]. destruct HI as [_ _ J3 _ J5 _ _]. cbn in J3. lia.
Qed.

Lemma pwrite_end d bs : pwrite d (Z.of_nat (length d)) bs = d ++ bs.
Proof. unfold pwrite. rewrite Nat2Z.id, Nat.sub_diag. cbn [replicate]. rewrite app_nil_r, firstn_all, drop_ge by lia. by rewrite app_nil_r. Qed.

(** The buffer can receive once it is reset. *)
Definition input_area (w : world) (k : dn_request_t) : Prop :=
  exists bu, bufs (mgr w) !! input k = Some bu /\ memory bu = true /\ 0 < start bu /\ 0 < end_ bu - start bu < 2 ^ 31 /\ mapped (memory_ w) (start bu) (end_ bu - start bu).

(** The task is done and posted. *)
Definition written (s0 : DnStorage.dn) (p : list Posix.name) (w : world) (r : Z) (k : dn_request_t) (rx : list SysIo.rx_t) (got piece : list Z) : Prop :=
  between s0 p (set_dn w (stored s0 p got)) r k rx got /\ store w = stored s0 p (got ++ piece) /\ jobs w = [] /\ posted_events w = [fio k] /\ posted_bad_events w = [] /\ input_area w k /\
  exists t, fios (mgr w) !! fio k = Some t /\ faio_ret t = Z.of_nat (length piece) /\ need t = Z.of_nat (length piece) /\ f_data t = r /\ h t = Block_write_complete.

Lemma run_write_ok s0 p rbl w r k rx got piece n : writing s0 p w r k rx got piece -> Z.of_nat (length piece) <= n ->
  exists w2, step rbl (Work 0 (Some n)) w = Some w2 /\ written s0 p w2 r k rx got piece.
Proof.
  intros (HB & HJ & HQ & HQ' & (bu & HI) & t & Ht & T1 & T2 & T3 & T4 & T5 & T6) Hn. pose proof HB as [H1 H2 (tx & H3) H4 H5 H6 _ H8 HP]. pose proof HI as [I1 I2 I3 I4 I5 I6 I7].
  cbn [step]. rewrite HJ. cbn [lookup list_lookup delete list_delete]. unfold run_job. cbn [mgr set_jobs]. rewrite (option_bind_eq _ _ _ Ht).
  unfold cfs_faio_io_write. cbn [mgr memory_ fds set_jobs]. rewrite T4, (option_bind_eq _ _ _ I1). replace (Z.to_nat (last bu - start bu)) with (length piece) by lia. rewrite (option_bind_eq _ _ _ I7), T3, H4.
  rewrite take_ge by lia. rewrite (option_bind_eq _ _ _ eq_refl), (option_bind_eq _ _ _ eq_refl).
  assert (content (set_jobs w []) (At p) = got) as Ec by (cbn; rewrite H5; cbn; by rewrite lookup_insert_eq). rewrite Ec, T1, H6, pwrite_end. cbn [set_content].
  unfold callback. cbn [mgr set_mgr set_dn set_jobs fios set_store]. rewrite (option_bind_eq _ _ _ (lookup_insert_eq _ _ _)). cbn [freeq set_store posted_events posted_bad_events set_mgr set_dn set_jobs mgr].
  rewrite HQ, HQ', !app_nil_r, bool_decide_false by done. cbn [faio_ret b]. rewrite (proj2 (Z.ltb_ge _ 0)) by lia. cbn [bufs set_store mgr set_mgr]. rewrite (option_bind_eq _ _ _ I1).
  eexists. split; [reflexivity|]. split_and!; try done.
  - split; cbn; try done; [by exists tx|]. eexists. by rewrite lookup_insert_eq.
  - cbn. rewrite H5. unfold stored. cbn. by rewrite insert_insert_eq.
  - exists (buffer_used bu (Z.of_nat (length piece))). cbn. rewrite lookup_insert_eq. split_and!; try done; lia.
  - eexists. cbn. rewrite lookup_insert_eq. split; [reflexivity|]. done.
Qed.

(** The task is back in the event loop: the next piece, or the end. *)
Lemma block_write_complete_ok s0 p rbl w r k rx got piece : written s0 p w r k rx got piece ->
  let k' := set_done k (Z.of_nat (length (got ++ piece))) in
  (Z.of_nat (length (got ++ piece)) < len k -> exists w', step rbl Posted w = recv_block_handler w' r /\ ready_to_receive s0 p w' r k' rx (got ++ piece)) /\
  (len k <= Z.of_nat (length (got ++ piece)) ->
    let w' := set_req (cfs_close (set_posted w [] []) (store_fd k)) r (set_store_fd k' (-1)) in
    step rbl Posted w = (w ← write_done w' (set_store_fd k' (-1)); w ← dn_request_write_done_response w r; dn_request_close w r)).
Proof.
  intros ([H1 H2 (tx & H3) H4 H5 H6 _ H8 HP] & Hs & HJ & HQ & HQ' & (bu & I1 & I2 & I3 & I4 & I5) & t & Ht & T1 & T2 & T3 & T4). intros k'.
  cbn [step]. rewrite HQ. unfold run_posted. cbn [mgr set_posted]. rewrite (option_bind_eq _ _ _ Ht), T4, T3. unfold block_write_complete. cbn [reqs set_posted set_dn mgr] in *. rewrite (option_bind_eq _ _ _ H1), (option_bind_eq _ _ _ Ht), T1, T2.
  rewrite (proj2 (Z.eqb_neq _ DFS_ERROR)) by (unfold DFS_ERROR; lia). rewrite Z.eqb_refl. cbn [negb]. assert (done k + Z.of_nat (length piece) = Z.of_nat (length (got ++ piece))) as -> by (rewrite length_app; lia). fold k'. cbn [done set_done].
  split; intros Hl.
  - rewrite (proj2 (Z.ltb_lt _ _)) by done. cbn [mgr set_req set_posted input set_done]. rewrite (option_bind_eq _ _ _ I1). eexists. split; [reflexivity|]. split_and!; try done.
    + split; cbn; rewrite ?lookup_insert_eq; try done; [by exists tx|by exists t].
    + exists (buffer_reset bu). split; cbn; rewrite ?lookup_insert_eq; try done; lia.
  - rewrite (proj2 (Z.ltb_ge _ _)) by done. rewrite HQ'. unfold cfs_close. cbn [fds set_dn] in H4. cbn [fds set_req set_posted store_fd set_done k']. rewrite H4. unfold set_req at 1. cbn. by rewrite insert_insert_eq.
Qed.

(** ** A whole block *)

(** A worker writes as much as it is asked to. *)
Definition all_of_it : option Z := Some (2 ^ 31).
Definition rounds (n : nat) : list event := concat (replicate n [Work 0 all_of_it; Posted]).

Lemma run_app rbl es es' w w' : run rbl es w = Some w' -> run rbl (es ++ es') w = run rbl es' w'.
Proof.
  revert w. induction es as [|e es IH]; intros w E; cbn [run app] in *; [by injection E as ->|]. destruct (step rbl e w) as [w1|] eqn:E1; [|done]. rewrite (option_bind_eq _ _ _ eq_refl). by apply IH.
Qed.

Lemma transfer_ok rbl s0 p n : forall w r k rx got, (measure rx <= n)%nat -> ready_to_receive s0 p w r k rx got -> payload rx <> [] -> Z.of_nat (length got) + Z.of_nat (length (payload rx)) = len k ->
  exists w1 i w2 k2 rx2 got2 piece, recv_block_handler w r = Some w1 /\ run rbl (rounds i ++ [Work 0 all_of_it]) w1 = Some w2 /\
    written s0 p w2 r k2 rx2 got2 piece /\ fixed k2 = fixed k /\ got2 ++ piece = got ++ payload rx.
Proof.
  induction n as [|n IH]; intros w r k rx got Hn HR Hne Hlen; [destruct rx; [done|unfold measure in Hn; cbn in Hn; lia]|].
  destruct (recv_block_handler_ok s0 p w r k rx got HR) as (w1 & k1 & rx1 & piece & E1 & HW & Ef & Epay & Hme & Hp). destruct (run_write_ok s0 p rbl w1 r k1 rx1 got piece (2 ^ 31) HW ltac:(lia)) as (w2 & E2 & H2). change (Some (2 ^ 31)) with all_of_it in E2.
  specialize (Hme ltac:(by intros ->)). destruct (block_write_complete_ok s0 p rbl w2 r k1 rx1 got piece H2) as [Hmore _]. assert (len k1 = len k) as El by (injection Ef as _ _ _ Eh; unfold len; by rewrite Eh).
  destruct (decide (payload rx1 = [])) as [E0|E0].
  - exists w1, O, w2, k1, rx1, got, piece. split; [done|]. split; [change (rounds 0 ++ [Work 0 all_of_it]) with [Work 0 all_of_it]; cbn [run]; by rewrite (option_bind_eq _ _ _ E2)|]. split; [done|]. split; [done|]. by rewrite Epay, E0, app_nil_r.
  - rewrite Epay, length_app in Hlen. assert (0 < length (payload rx1))%nat by (destruct (payload rx1); [done|cbn; lia]).
    destruct Hmore as (w3 & E3 & H3); [rewrite El, length_app; lia|].
    destruct (IH w3 r (set_done k1 (Z.of_nat (length (got ++ piece)))) rx1 (got ++ piece)) as (w4 & i & w5 & k5 & rx5 & got5 & piece5 & E4 & E5 & H5 & Ef5 & Eg); [lia|done|done|change (len (set_done k1 _)) with (len k1); rewrite El, length_app; lia|].
    exists w1, (S i), w5, k5, rx5, got5, piece5. split; [done|]. split; [|split; [done|split; [by rewrite Ef5|by rewrite Eg, Epay, app_assoc]]].
    change (rounds (S i)) with ([Work 0 all_of_it; Posted] ++ rounds i). rewrite <-app_assoc. cbn [app run]. rewrite (option_bind_eq _ _ _ E2), E3, (option_bind_eq _ _ _ E4). exact E5.
Qed.

(** ** From the first byte *)

Lemma creat_inv f s f' : Posix.creat f s = Some f' -> f' = <[Posix.resolve s := Posix.File []]> f.
Proof. unfold Posix.creat. destruct (_ && _); [|done]. by injection 1 as <-. Qed.

Lemma temp_path_req s r q : DnStorage.get_block_temp_path true s r = Some (DFS_OK, q) -> q = DnStorage.Req (DnStorage.block_id r) (DnStorage.namespace_id r) (DnStorage.r_len r) (DnStorage.r_path q) (DnStorage.r_cap q).
Proof. unfold DnStorage.get_block_temp_path. intros E. apply bind_Some in E as (cur & _ & E). apply bind_Some in E as (t & _ & E). by injection E as <-. Qed.

(** The answer to the header leaves, and the datanode receives the block. *)
Lemma respond_write_ok rbl s0 p w r k bu bi n rx tx : DnAccept.calm w -> reqs w !! r = Some k -> started k = true -> wev k = Ev true false false true -> timedout (rev k) = false -> ready (rev k) = true -> write_event_handler k = Send_header -> output k = Some [bu] ->
  fio k = 0 -> done k = 0 -> op_type k = OP_WRITE_BLOCK -> fds w !! c_fd k = Some (Socket rx (NnConn.Tx n :: tx) []) -> fds w !! store_fd k = Some (File_wr (At p)) -> store w = stored s0 p [] -> DnAccept.pending_rsp w bu -> 8 <= n -> patient rx ->
  input_ok w k bi [] -> input k < brk (mgr w) ->
  exists w' k', step rbl (Writable r) w = recv_block_handler w' r /\ ready_to_receive s0 p w' r k' rx [] /\ (header k', path k', path_cap k', store_fd k', input k', c_fd k') = (header k, path k, path_cap k, store_fd k, input k, c_fd k).
Proof.
  intros HC Hk Hst Hwe Hrt Hrr Hwh Ho Hf Hd Hop Hfd Hsf Hs Hrsp Hn HP [I1 I2 I3 I4 I5 I6 I7] Hin. cbn [step]. rewrite Hk, Hwe. cbn [active with_ready ready timedout timer_set]. set (k1 := set_wev k _). unfold write_handler. change (started k1) with (started k). rewrite Hst. change (write_event_handler k1) with (write_event_handler k). rewrite Hwh. cbn [run_handler].
  unfold dn_request_send_header_response. rewrite (DnAccept.send_at_once _ (set_req w r k1) r k1 bu n rx tx []); [|cbn; by rewrite lookup_insert_eq|done|done|done|done|done|done].
  set (k2 := set_output _ _). set (w2 := set_req _ r k2). unfold dn_request_process_body. cbn [reqs set_req w2]. rewrite (option_bind_eq _ _ _ (lookup_insert_eq _ _ _)). change (fio k2) with (fio k). rewrite Hf. change (0 =? 0) with true. cbn iota.
  pose proof (DnAccept.cm_ok _ _ HC) as HK. change (mgr w2) with (mgr w). destruct (FioOk.fio_alloc_ok (mgr w) HK) as (f & m & E & HK' & _ & Hcase). pose proof (DnAccept.alloc_keeps _ _ _ ltac:(apply HK) E) as (_ & _ & Hkeep & _).
  destruct Hcase as [(_ & _ & [[Hx Hx']|Hx])|(Hf0 & Hfn & Hu & _)]; [destruct (DnAccept.cm_room _ _ HC); [lia|done]|by rewrite (DnAccept.cm_mallocs _ _ HC) in Hx|]. rewrite (option_bind_eq _ _ _ E). cbn [mbind option_bind]. rewrite (proj2 (Z.eqb_neq f 0)) by lia.
  change (op_type k2) with (op_type k). rewrite Hop. change (OP_WRITE_BLOCK =? OP_WRITE_BLOCK) with true. cbn iota. unfold dn_request_recv_block. cbn [reqs set_req]. rewrite (option_bind_eq _ _ _ (lookup_insert_eq _ _ _)).
  cbn [rev set_handlers set_fio]. change (rev k2) with (rev k). rewrite Hrr. eexists _, (set_handlers (set_fio k2 f) Recv_block Block_writing). split; [reflexivity|]. split; [|done].
  assert (f ∈ freeq m ++ task_used m) as Hin' by (rewrite Hu; set_solver). destruct (proj1 (Forall_forall _ _) (FioOk.bs_tasks _ _ (FioOk.ok_base _ HK')) f Hin') as [_ (t & Ht & _) _]. pose proof (FioOk.base_nodup _ _ (FioOk.ok_base _ HK')) as ND.
  assert (bufs m !! input k = Some bi) as Hbi by (apply Hkeep; [done|done|]; destruct bi; cbn in *; unfold buffer_reset, set_window; cbn; f_equal; lia).
  split; [|split; [exact (DnAccept.cm_jobs _ _ HC)|split; [exact (DnAccept.cm_posted _ _ HC)|split; [exact (DnAccept.cm_bad _ _ HC)|]]]].
  - split; cbn; rewrite ?lookup_insert_eq; try done; [by exists tx| |by exists t|].
    + rewrite lookup_insert_ne; [done|]. change (c_fd k1) with (c_fd k). intros Ec. rewrite Ec in Hfd. congruence.
    + intros Hff. apply NoDup_app in ND as (_ & ND & _). apply (ND f Hff). rewrite Hu. set_solver.
  - exists bi. split; cbn; done.
Qed.

(** The last task is back: the block is complete, and its path overruns. *)
Lemma complete_write_overruns rbl s0 p w r k rx got piece hd q : written s0 p w r k rx got piece -> len k <= Z.of_nat (length (got ++ piece)) ->
  DnStorage.get_block_temp_path true s0 (DnAccept.asked hd) = Some (DFS_OK, q) -> (header k, path k, path_cap k) = (hd, DnStorage.r_path q, DnStorage.r_cap q) -> DnProps.can_complete (store w) q -> step rbl Posted w = None.
Proof.
  intros HW Hl Hq Ek HD. injection Ek as E1 E2 E3. rewrite (proj2 (block_write_complete_ok s0 p rbl w r k rx got piece HW) Hl). set (k' := set_store_fd _ _). set (w' := set_req _ r k'). unfold write_done. cbv zeta.
  assert (store w' = store w) as Es by (unfold w', cfs_close; cbn; by destruct (fds w !! store_fd k) as [[]|]).
  assert (DnStorage.Req (block_id k') (namespace_id k') (len k') (path k') (path_cap k') = q) as -> by (rewrite (temp_path_req _ _ _ Hq); unfold block_id, namespace_id, len; cbn; by rewrite E1, E2, E3).
  rewrite Es, (DnProps.complete_overruns s0 (store w) (DnAccept.asked hd) q Hq); [done| |done]. destruct HW as (_ & -> & _). done.
Qed.

(** A datanode with nothing pending, memory and a free task gets a
    connection that sends a header to store a block and then the bytes of the
    block, in any pieces, with interruptions and with times at which nothing
    has arrived ([dn_conn_init], [dn_request_read_header],
    [dn_request_write_file], [dn_request_process_body], [recv_block_handler],
    [cfs_faio_io_write], the callback, [block_write_complete]): after finitely
    many tasks the temporary file of the block holds the bytes of the block in
    order and nothing else of the files has changed; the client has got the
    answer to its header; and, if the block can be moved to its place, the
    completion then writes past the end of the path of the request. *)
Theorem write_request_stores rbl w hd rx n tx q f : DnAccept.calm w -> length hd = sizeof_header -> s32 (field 0 4 hd) = OP_WRITE_BLOCK ->
  DnStorage.get_block_temp_path true (store w) (DnAccept.asked hd) = Some (DFS_OK, q) -> Posix.creat (DnStorage.files (store w)) (DnStorage.r_path q) = Some f -> 0 < rbl < 2 ^ 30 -> 8 <= n -> patient rx ->
  payload rx <> [] -> Z.of_nat (length (payload rx)) = s64 (field 40 8 hd) ->
  exists i w', run rbl ([Accept (NnConn.Rx hd :: rx) (NnConn.Tx n :: tx); Readable (brk (mgr w)); Writable (brk (mgr w))] ++ rounds i ++ [Work 0 all_of_it]) w = Some w' /\
    store w' = stored (store w) (Posix.resolve (DnStorage.r_path q)) (payload rx) /\ (exists rx' tx', fds w' !! new_fd (fds w) = Some (Socket rx' tx' header_rsp)) /\
    (DnProps.can_complete (store w') q -> step rbl Posted w' = None).
Proof.
  intros HC Hl Hop Hq Hf Hrbl Hn HP Hne Hlen. set (r := brk (mgr w)). set (fd := new_fd (fds w)). set (p := Posix.resolve (DnStorage.r_path q)).
  destruct (DnAccept.accept_ok rbl w (NnConn.Rx hd :: rx) (NnConn.Tx n :: tx) HC) as (w1 & E1 & HC1 & Hq1 & Hf1 & Hs1 & _). assert (reqs w1 !! r = Some (DnAccept.fresh_request fd)) as Hk1 by (by rewrite Hq1, lookup_insert_eq).
  destruct (DnAccept.header_write_ok rbl w1 r fd hd rx (NnConn.Tx n :: tx) q f HC1 Hk1) as (w2 & bu & a & l & lm & fd2 & E2 & HC2 & Hk2 & Hfd & Hfd2 & Hs2 & _ & Hrsp & bi & B1 & B2 & B3 & B4 & B5 & B6 & B7 & B8 & B9); try done; [by rewrite Hf1, lookup_insert_eq|by rewrite Hs1|by rewrite Hs1|].
  set (k2 := Rq _ _ _ _ _ _ _ _ _ _ _ _ _ _ _ _) in Hk2. destruct (respond_write_ok rbl (store w) p w2 r k2 bu bi n rx tx HC2 Hk2) as (w3 & k3 & E3 & HR & Ek3); try done.
  { rewrite Hs2, Hs1. unfold stored. by rewrite (creat_inv _ _ _ Hf). }
  { split; cbn; try done; lia. }
  injection Ek3 as F1 F2 F3 F4 F5 F6. destruct (transfer_ok rbl (store w) p _ w3 r k3 rx [] (Nat.le_refl _) HR Hne) as (w4 & i & w5 & k5 & rx5 & got & piece & E4 & E5 & HW & Ef5 & Eg); [unfold len; rewrite F1; cbn; lia|].
  injection Ef5 as G1 G2 G3 G4 G5 G6 G7 _ _ _. cbn [app] in Eg. exists i, w5. split; [cbn [run app]; by rewrite (option_bind_eq _ _ _ E1), (option_bind_eq _ _ _ E2), E3, (option_bind_eq _ _ _ E4)|].
  pose proof HW as ([_ _ (tx5 & Hsock) _ _ _ _ _ _] & Hst & _). cbn [fds set_dn] in Hsock. split; [by rewrite Hst, Eg|]. split.
  - exists rx5, tx5. rewrite <-Hsock, G1, F6. done.
  - intros HD. apply (complete_write_overruns rbl (store w) p w5 r k5 rx5 got piece hd q HW); try done; [|congruence]. unfold len. rewrite G4, F1, Eg. cbn. lia.
Qed.

Definition idle_manager : fio_manager_t := match cfs_fio_manager_init 4096 [] with Some (_, m) => m | None => Mgr ∅ ∅ [] 0 [] [] [] 0 0 0 0 0 0 0 0 end.
Definition idle_at (s : DnStorage.dn) : world := Wd ∅ idle_manager ∅ ∅ ∅ s [] [] [] [] [] [] [].
Definition idle_world : world := idle_at DnProps.sample_writing.

Lemma idle_init : cfs_fio_manager_init 4096 [] = Some (DFS_OK, idle_manager).
Proof. vm_compute. reflexivity. Qed.

Lemma idle_stock : mallocs idle_manager = [] /\ (nelts idle_manager < max idle_manager \/ freeq idle_manager <> []).
Proof. split; [vm_compute; reflexivity|left; vm_compute; reflexivity]. Qed.

Lemma idle_calm s : DnAccept.calm (idle_at s).
Proof. split; [reflexivity..|exact (proj1 (FioOk.fio_init_ok 4096 [] idle_manager ltac:(done) idle_init))|apply idle_stock|apply idle_stock]. Qed.

(** Stores 3 bytes of the block 7 of the namespace 1. *)
Definition write_header : list Z := le_enc 4 80 ++ le_enc 4 0 ++ le_enc 8 1 ++ le_enc 8 7 ++ le_enc 8 0 ++ le_enc 8 0 ++ le_enc 8 3.
Definition pieces : list SysIo.rx_t := [NnConn.RxAgain; NnConn.Rx [4]; NnConn.RxIntr; NnConn.Rx [5; 6]].

Definition sample_temp : list Z := lit "d/current/NS-1/blocksBeingWritten/blk_7".

Lemma sample_creat : Posix.creat (DnStorage.files DnProps.sample_writing) sample_temp = Some (<[Posix.resolve sample_temp := Posix.File []]> (DnStorage.files DnProps.sample_writing)).
Proof.
  unfold Posix.creat. assert (negb (bool_decide (DnStorage.files DnProps.sample_writing !! Posix.resolve sample_temp = Some Posix.Dir)) && Posix.is_dir (DnStorage.files DnProps.sample_writing) (Posix.parent (Posix.resolve sample_temp)) = true) as E by (vm_compute; reflexivity).
  cbv zeta. by rewrite E.
Qed.

Lemma write_request_stores_witness : exists i w', let r := brk (mgr idle_world) in
  run 1 ([Accept (NnConn.Rx write_header :: pieces) [NnConn.Tx 8]; Readable r; Writable r] ++ rounds i ++ [Work 0 all_of_it]) idle_world = Some w' /\
  DnStorage.files (store w') !! [lit "."; lit "d"; lit "current"; lit "NS-1"; lit "blocksBeingWritten"; lit "blk_7"] = Some (Posix.File [4; 5; 6]) /\ step 1 Posted w' = None.
Proof.
  destruct (write_request_stores 1 idle_world write_header pieces 8 [] (DnStorage.Req 7 1 3 sample_temp 40)
    _ (idle_calm _) eq_refl eq_refl ltac:(vm_compute; reflexivity) sample_creat) as (i & w' & E & Es & _ & Hd); [done|done|by repeat constructor|done|vm_compute; reflexivity|].
  change (store idle_world) with DnProps.sample_writing in Es. exists i, w'. split; [exact E|]. rewrite Es. split; [by vm_compute|]. apply Hd. rewrite Es. intros cur Hc. vm_compute in Hc. injection Hc as <-. by_decide.
Defined.

End DnRequestOk.
