(* ===== verification/DnReadOk.v ===== *)
(** * Reading a block from the datanode, proved

    A block that is asked for leaves as it is stored, however slowly the
    client takes it, and nothing stays behind but the task of the request,
    which the next one uses. *)

From Stdlib Require Import ZArith Lia Bool String.
From stdpp Require Import base numbers gmap option list.
From S2P Require Import Prelude CString Mem Buffer NnConn SysIo Posix Cache DnStorage DnProps Faio Fio FioOk DnRequest DnAccept DnRequestOk.

Module DnReadOk.
Import Mem Buffer Fio DnRequest DnAccept.
Import Faio (FAIO_IO_TYPE(..)).

(** ** Tasks that never sent *)

Definition clean (m : fio_manager_t) : Prop := forall f t, fios m !! f = Some t -> sf_chain_task t = 0.

Lemma clean_insert m f t m' : clean m -> sf_chain_task t = 0 -> fios m' = <[f := t]> (fios m) -> clean m'.
Proof. intros H Ht E g u. rewrite E. destruct (decide (f = g)) as [->|Hn]; [rewrite lookup_insert_eq; by intros [= <-]|rewrite lookup_insert_ne by done; apply H]. Qed.

Lemma malloc_fios m n : fios (malloc m n).2 = fios m.
Proof. unfold malloc. by destruct (mallocs m) as [|[]]. Qed.

Lemma refill_clean n : forall m, clean m -> clean (refill_loop n m).2.
Proof.
  induction n as [|n IH]; intros m H; [done|]. cbn [refill_loop]. pose proof (malloc_fios m (sizeof_file_io_t + sizeof_buffer_t)) as E1. destruct (malloc m _) as [f m1]. cbn in E1. destruct (f =? 0); [cbn; intros g u; rewrite E1; apply H|]. cbv zeta.
  pose proof (malloc_fios m1 (my_align (f_size m1) 512)) as E2. destruct (malloc m1 _) as [st m2]. cbn in E2. set (m3 := set_freeq _ _). specialize (IH m3). destruct (refill_loop n m3) as [i m']. cbn in *. apply IH.
  eapply (clean_insert m); [done| |cbn; by rewrite E2, E1]. done.
Qed.

Lemma manager_refill_clean m n : clean m -> clean (cfs_fio_manager_refill m n).2.
Proof. intros H. unfold cfs_fio_manager_refill. set (bt := Z.to_nat _). pose proof (refill_clean bt m H) as HK. by destruct (refill_loop bt m). Qed.

Lemma alloc_clean m f m' : clean m -> cfs_fio_manager_alloc m = Some (f, m') -> clean m'.
Proof.
  intros H. unfold cfs_fio_manager_alloc. set (p := match freeq m with [] => _ | _ => _ end). assert (clean p.2) as Hp.
  { subst p. destruct (freeq m); [|done]. destruct (_ <=? _); [done|]. pose proof (manager_refill_clean m (batch m) H). by destruct (cfs_fio_manager_refill m (batch m)). }
  destruct p as [stop m1]. cbn in Hp. destruct stop; [by injection 1 as <- <-|]. assert (clean (cfs_fio_manager_get_task m1).2) as H1.
  { unfold cfs_fio_manager_get_task. set (m2 := if _ <? _ then _ else _). assert (clean m2) by (subst m2; destruct (_ <? _); [by apply manager_refill_clean|done]). by destruct (freeq m2). }
  destruct (cfs_fio_manager_get_task m1) as [f0 m2]. cbn in H1. intros E. apply bind_Some in E as (t & Ht & E). apply bind_Some in E as (m3 & E3 & E). injection E as <- <-.
  unfold reset_buffer in E3. apply bind_Some in E3 as (bu0 & Hb0 & E3). injection E3 as <-. eapply (clean_insert m2); [done| |done]. exact (H1 _ _ Ht).
Qed.

(** ** Tasks in use *)

(** The fields of a task other than its buffer change, and the window of its buffer. *)
Lemma ok_task m f t t' bu bu' : FioOk.ok m -> f ∈ tasks m -> fios m !! f = Some t -> b t' = b t -> bufs m !! b t = Some bu -> start bu' = start bu ->
  FioOk.ok (set_store m (<[f := t']> (fios m)) (<[b t := bu']> (bufs m))).
Proof.
  intros [HB H1 H2 H3 H4 H5 H6] Hf Ht Eb Hbu Hs. destruct (proj1 (Forall_forall _ _) (FioOk.bs_tasks _ _ HB) f Hf) as [_ (t0 & Ht0 & Et0) _]. rewrite Ht in Ht0. injection Ht0 as <-. rewrite Et0 in *.
  split; try done. exact (FioOk.base_task _ _ f t t' bu bu' HB Hf Ht ltac:(congruence) Hbu Hs).
Qed.

Lemma ok_task_only m f t t' : FioOk.ok m -> f ∈ tasks m -> fios m !! f = Some t -> b t' = b t -> FioOk.ok (set_store m (<[f := t']> (fios m)) (bufs m)).
Proof.
  intros H Hf Ht Eb. destruct (proj1 (Forall_forall _ _) (FioOk.bs_tasks _ _ (FioOk.ok_base _ H)) f Hf) as [_ (t0 & Ht0 & Et0) (bu & Hbu)]. rewrite Ht in Ht0. injection Ht0 as <-. rewrite <-Et0 in Hbu.
  pose proof (ok_task m f t t' bu bu H Hf Ht Eb Hbu eq_refl) as H'. by rewrite (insert_id (bufs m)) in H'.
Qed.

Lemma task_buffer m f t : FioOk.ok m -> f ∈ tasks m -> fios m !! f = Some t -> b t = own_buffer f /\ is_Some (bufs m !! b t).
Proof. intros H Hf Ht. destruct (proj1 (Forall_forall _ _) (FioOk.bs_tasks _ _ (FioOk.ok_base _ H)) f Hf) as [_ (t0 & Ht0 & Et0) Hbu]. rewrite Ht in Ht0. injection Ht0 as <-. by rewrite Et0. Qed.

(** A task is released and stays in the stock. *)
Lemma free_below_idle m f t : FioOk.ok m -> f ∈ task_used m -> fios m !! f = Some t -> free m < f_idle m ->
  exists m', cfs_fio_manager_free m f = Some m' /\ FioOk.ok m' /\ freeq m' = f :: freeq m /\ (forall g, g ∈ tasks m' -> g ∈ tasks m) /\ fios m' !! f = Some (cleared t) /\ mallocs m' = mallocs m /\ brk m' = brk m.
Proof.
  intros H Hf Ht Hid. destruct (FioOk.fio_free_ok m f H Hf) as (m' & E & H' & _ & Hu). exists m'. split; [done|]. split; [done|]. unfold cfs_fio_manager_free in E. rewrite bool_decide_true, (option_bind_eq _ _ _ Ht) in E by done.
  apply bind_Some in E as (m1 & E1 & E). apply bind_Some in E1 as (bu & Hbu & E1). injection E1 as <-. revert E. cbn [f_idle free set_counts set_freeq set_used set_store]. pose proof (FioOk.ok_free _ H) as Hfr. pose proof (FioOk.ok_levels _ H) as HL.
  rewrite FioOk.u64_small by lia. rewrite (proj2 (Z.ltb_ge _ _)) by lia. intros [= <-]. unfold tasks. cbn. rewrite lookup_insert_eq. split_and!; try done.
  intros g Hg. apply elem_of_cons in Hg as [->|Hg]; [apply elem_of_app; by right|]. apply elem_of_app in Hg as [Hg|Hg]; apply elem_of_app; [by left|right]. by apply list_elem_of_filter in Hg as [_ Hg].
Qed.

(** ** The header *)

(** The header asks for a block that is stored: its file is open, and the response waits for the socket. *)
Lemma header_read_ok rbl w r fd hd rx tx x bi d : calm w -> reqs w !! r = Some (fresh_request fd) -> fds w !! fd = Some (Socket (NnConn.Rx hd :: rx) tx []) -> length hd = sizeof_header -> s32 (field 0 4 hd) = OP_READ_BLOCK ->
  DnStorage.block_object_get (store w) (s64 (field 16 8 hd)) = Some (Some x) -> Cache.objs (DnStorage.g_dn_bcm (store w)) !! x = Some bi -> DnStorage.files (store w) !! Posix.resolve (DnStorage.b_path bi) = Some (Posix.File d) ->
  exists w' bu a lm, let fds1 := <[fd := Socket rx tx []]> (fds w) in let fd2 := new_fd fds1 in step rbl (Readable r) w = Some w' /\ calm w' /\ extends (set_fds w (<[fd2 := File_rd (At (Posix.resolve (DnStorage.b_path bi)))]> fds1)) w' /\
    reqs w' = <[r := Rq fd true awake (Ev true false false true) Check_read Send_header 0 (Some [bu]) hd fd2 [] 0 0 0 [a] lm]> (reqs w) /\ pending_rsp w' bu /\ brk (mgr w) <= a < brk (mgr w').
Proof.
  intros HC Hr Hfd Hl Hop Hx Hbi Hd. destruct (read_header_ok rbl w r fd hd rx tx [] Hr Hfd Hl) as (w1 & E1 & Hq1 & Ef1 & Ec1 & Er1). assert (reqs w1 !! r = Some (Rq fd true awake quiet Read_header Null 0 None hd (-1) [] 0 0 0 [] [])) as Hk1 by (by rewrite Hq1, lookup_insert_eq). injection Ec1 as C1 C2 C3 C4 C5 C6. injection Er1 as R1 R2 R3 R4 R5.
  assert (dn_request_parse_header rbl w1 r = dn_request_read_file (set_req w1 r (Rq fd true awake quiet Block_reading Null 0 None hd (-1) [] 0 0 0 [] [])) r) as E2.
  { unfold dn_request_parse_header. rewrite (option_bind_eq _ _ _ Hk1). unfold op_type. cbn [header]. rewrite Hop. done. }
  rewrite E2 in E1. unfold dn_request_read_file in E1. cbn [reqs set_req] in E1. rewrite (option_bind_eq _ _ _ (lookup_insert_eq _ _ _)) in E1. unfold block_id in E1. cbn [header store set_req store_fd] in E1. rewrite R3, (option_bind_eq _ _ _ Hx), (option_bind_eq _ _ _ Hbi) in E1.
  change (-1 <? 0) with true in E1. cbn iota in E1. unfold cfs_open_rd in E1. cbn [store set_req fds] in E1. rewrite R3, Hd, Ef1 in E1. set (fds1 := <[fd := _]> (fds w)) in *. destruct (new_fd_ok fds1) as [Hn1 Hn2]. set (fd2 := new_fd fds1) in *.
  rewrite (proj2 (Z.ltb_ge fd2 0)) in E1 by lia. rewrite (proj2 (Z.ltb_ge fd2 0)) in E1 by lia. set (w2 := set_req (set_fds _ _) r _) in E1. set (k2 := set_store_fd _ fd2) in w2.
  assert (calm w2) as HC2 by (by apply (calm_reqs true w)).
  destruct (response_ok true Send_header dn_request_send_header_response w2 r k2 HC2) as (w3 & bu & l & lm & E3 & HC3 & HX3 & Hk3 & Hrsp & a & -> & Ha); [cbn; by rewrite lookup_insert_eq|done|done|done|].
  exists w3, bu, a, lm. cbv zeta. split; [rewrite E1; exact E3|]. split; [done|]. split; [|split; [cbn in Hk3; by rewrite Hk3, Hq1, !insert_insert_eq|split; [done|cbn in Ha; by rewrite C6 in Ha]]].
  destruct HX3 as [X1 X2 X3 X4]. cbn in X1, X2, X3, X4. rewrite C6 in *. split; cbn; try done; [|by rewrite X4, R2, R3, R4, R5]. intros y Hy. rewrite R1 in X3. by apply X3.
Qed.

(** ** Sending *)

(** What is left of the socket after [n] bytes of a file: the client takes them in any pieces, at any times. *)
Fixpoint after (tx : list SysIo.tx_t) (n : Z) : option (list SysIo.tx_t) :=
  if n <=? 0 then Some tx else
  match tx with
  | NnConn.Tx c :: tx => if 0 <? c then after tx (n - Z.min (Z.min c n) SysIo.DFS_MAX_LIMIT) else None
  | NnConn.TxIntr :: tx | NnConn.TxAgain :: tx => after tx n
  | _ => None
  end.

Lemma file_bytes_length d off k : 0 <= off -> 0 <= k -> off + k <= Z.of_nat (length d) -> Z.of_nat (length (SysIo.file_bytes d off k)) = k.
Proof. intros H1 H2 H3. unfold SysIo.file_bytes. rewrite (proj2 (Z.ltb_ge _ _)), length_take, length_drop by lia. lia. Qed.

Lemma file_bytes_app d off k l : 0 <= off -> 0 <= k -> 0 <= l -> SysIo.file_bytes d off k ++ SysIo.file_bytes d (off + k) l = SysIo.file_bytes d off (k + l).
Proof.
  intros H1 H2 H3. unfold SysIo.file_bytes. rewrite !(proj2 (Z.ltb_ge _ _)) by lia. replace (Z.to_nat (k + l)) with (Z.to_nat k + Z.to_nat l)%nat by lia. replace (Z.to_nat (off + k)) with (Z.to_nat off + Z.to_nat k)%nat by lia.
  rewrite <-drop_drop. set (y := drop (Z.to_nat off) d). rewrite <-(take_drop (Z.to_nat k) (take (Z.to_nat k + Z.to_nat l) y)), take_take, Nat.min_l by lia. by rewrite skipn_firstn_comm, Nat.add_comm, Nat.add_sub.
Qed.

Lemma sendfile_loop_ok d rest tx : forall off n acc, 0 <= off -> 0 <= n -> off + n <= Z.of_nat (length d) -> after tx n = Some rest ->
  exists rc tx' k, 0 <= k <= n /\ sendfile_loop tx d off n acc = (rc, tx', off + k, n - k, acc ++ SysIo.file_bytes d off k) /\
    (rc = DFS_OK /\ k = n /\ tx' = rest \/ rc = EAGAIN /\ after tx' (n - k) = Some rest /\ (length tx' < length tx)%nat).
Proof.
  assert (forall off (acc : list Z), 0 <= off -> acc ++ SysIo.file_bytes d off 0 = acc) as H0 by (intros off acc Ho; unfold SysIo.file_bytes; rewrite (proj2 (Z.ltb_ge _ _)) by lia; apply app_nil_r).
  induction tx as [|x tx IH]; intros off n acc Ho Hn Hd Ha; cbn [after sendfile_loop] in *; destruct (Z.leb_spec n 0) as [Hn0|Hn0]; try done.
  1,2: injection Ha as <-; exists DFS_OK; eexists _, 0; rewrite H0, Z.add_0_r, Z.sub_0_r by done; split; [lia|]; split; [done|]; left; split_and!; try done; lia.
  destruct x as [c| | |]; try done.
  - destruct (Z.ltb_spec 0 c) as [Hc|]; [|done]. set (j := Z.min (Z.min c n) SysIo.DFS_MAX_LIMIT) in *. assert (0 < j <= n) as Hj by (unfold SysIo.DFS_MAX_LIMIT in j; lia).
    pose proof (file_bytes_length d off j Ho ltac:(lia) ltac:(lia)) as HL. destruct (SysIo.file_bytes d off j) as [|y l] eqn:Ef; [cbn in HL; lia|]. rewrite <-Ef in *. rewrite HL.
    destruct (IH (off + j) (n - j) (acc ++ SysIo.file_bytes d off j)) as (rc & tx' & k & Hk & E & Hrc); [lia|lia|lia|done|].
    exists rc, tx', (j + k). split; [lia|]. rewrite E, <-app_assoc, file_bytes_app by lia. replace (off + (j + k)) with (off + j + k) by lia. replace (n - (j + k)) with (n - j - k) by lia. split; [done|].
    destruct Hrc as [(-> & -> & ->)|(-> & Hr & Hl)]; [left; split_and!; try done; lia|right; split_and!; try done; cbn; lia].
  - destruct (IH off n acc Ho Hn Hd Ha) as (rc & tx' & k & Hk & E & Hrc). exists rc, tx', k. split; [done|]. split; [done|]. destruct Hrc as [?|(? & ? & ?)]; [by left|right; split_and!; try done; cbn; lia].
  - exists EAGAIN, tx, 0. rewrite H0, Z.add_0_r, Z.sub_0_r by done. split; [lia|]. split; [done|]. right. split_and!; try done. cbn. lia.
Qed.

Definition sent_at : event_t := Ev true true false false.

(** ** The last answer *)

(** The socket takes the answer at once, or nothing of it. *)
Definition final (tx : list SysIo.tx_t) : Prop := match tx with NnConn.Tx m :: _ => 8 <= m | [] | NnConn.TxAgain :: _ => True | _ => False end.
Definition answer (tx : list SysIo.tx_t) : list Z := match tx with NnConn.Tx _ :: _ => header_rsp | _ => [] end.

Lemma writev_full m bu tx sent : memory bu = true -> 0 < pos bu -> last bu = pos bu + 8 -> rd m (pos bu) 8 = Some header_rsp -> final tx -> answer tx = [] ->
  SysIo.sysio_writev_chain m [bu] 0 (SysIo.Sock true 0 tx sent) = Some (Some [bu], SysIo.Sock false 0 (tail tx) sent).
Proof.
  intros Hm Hp Hl Hrd Hf Ha. unfold SysIo.sysio_writev_chain. cbn [SysIo.ready negb SysIo.tx length SysIo.writev_chain_loop]. change (0 <? SysIo.real_limit 0) with true. cbn iota. rewrite Hm. cbn [negb].
  rewrite pack_rsp by done. rewrite (option_bind_eq _ _ _ eq_refl). cbn [SysIo.gather]. change (Z.to_nat 8) with 8%nat. rewrite Hrd. cbn [mbind option_bind]. destruct tx as [|[]]; try done.
Qed.

Lemma send_full next w r k bu rx tx sent : reqs w !! r = Some k -> wev k = sent_at -> output k = Some [bu] -> pending_rsp w bu -> fds w !! c_fd k = Some (Socket rx tx sent) -> final tx -> answer tx = [] ->
  send_response next w r = Some (set_req (set_fds w (<[c_fd k := Socket rx (tail tx) sent]> (fds w))) r (set_wev k (Ev true false false true))).
Proof.
  intros Hk Hw Ho (Hm & Hp & Hl & _ & Hrd) Hfd Hf Ha. unfold send_response. rewrite (option_bind_eq _ _ _ Hk), Hw. cbn [timedout timer_set sent_at]. unfold send_header_response. rewrite (option_bind_eq _ _ _ Hk), (option_bind_eq _ _ _ Ho), Hfd, Hw. cbn [ready sent_at].
  cbn [length send_rsp_loop SysIo.ready Nat.add]. rewrite (option_bind_eq _ _ _ (writev_full (memory_ w) bu tx sent Hm Hp Hl Hrd Hf Ha)). cbn [SysIo.ready mbind option_bind SysIo.tx SysIo.peer]. change (DFS_AGAIN =? DFS_OK) with false. change (DFS_AGAIN =? DFS_AGAIN) with true. cbn iota.
  cbn [reqs set_req]. rewrite (option_bind_eq _ _ _ (lookup_insert_eq _ _ _)). f_equal. unfold set_req. cbn. rewrite insert_insert_eq. f_equal. destruct k; cbn in *; subst. done.
Qed.

Lemma done_response_ok w r k rx tx sent : calm_with false w -> reqs w !! r = Some k -> output k = Some [] -> wev k = sent_at -> fds w !! c_fd k = Some (Socket rx tx sent) -> final tx ->
  exists w' k' a tx', dn_request_read_done_response w r = Some w' /\ calm_with false w' /\ reqs w' = <[r := k']> (reqs w) /\ (c_fd k', store_fd k', fio k', in_pool k') = (c_fd k, store_fd k, fio k, a :: in_pool k) /\
    brk (mgr w) <= a < brk (mgr w') /\ extends (set_fds w (<[c_fd k := Socket rx tx' (sent ++ answer tx)]> (fds w))) w'.
Proof.
  intros HC Hk Ho Hw Hfd Hfin. unfold dn_request_read_done_response, response. rewrite (option_bind_eq _ _ _ Hk). destruct (pool_alloc_calm false w 16 HC ltac:(lia)) as (w1 & E1 & HC1 & HX1 & Hb1 & Hp1 & Ew1). rewrite E1, (proj2 (Z.eqb_neq _ 0)) by lia.
  destruct (buffer_create_calm false w1 k sizeof_header_rsp HC1 ltac:(done)) as (d & w2 & E2 & HC2 & HX2 & Hd & Hb2 & Hbu & Hm & Hr2). rewrite E2. set (a := brk (mgr w1)) in *. set (k2 := set_pool k _ _). rewrite (proj2 (Z.eqb_neq a 0)) by lia.
  unfold sizeof_header_rsp in *. cbn [mgr set_req]. rewrite (option_bind_eq _ _ _ Hbu). cbn [last memory_ set_req]. destruct (wr_mapped (memory_ w2) d header_rsp) as [m Em]; [exact Hm|]. rewrite (option_bind_eq _ _ _ Em).
  change (output k2) with (output k). rewrite Ho. change (1 =? 0) with false. cbn iota. set (bu := buffer_used _ 8). set (k3 := set_handlers (set_output k2 [bu]) Check_read Send_read_done). change (wev k3) with (wev k). rewrite Hw. cbn [ready sent_at]. set (w3 := set_req _ r k3).
  assert (extends w w2) as HX by (by eapply extends_trans). assert (fds w3 = fds w) as Ef by (destruct HX as [_ _ _ X]; by injection X).
  assert (reqs w3 = <[r := k3]> (reqs w)) as Er by (cbn; by rewrite insert_insert_eq, Hr2, Ew1).
  assert (pending_rsp w3 bu) as Hrsp by (unfold pending_rsp, buffer_ok; cbn; split_and!; try lia; try done; exact (wr_rd _ _ _ _ Em)).
  assert (forall f, extends (set_fds w f) (set_fds w3 f)) as HX3.
  { intros f. destruct HX as [X1 X2 X3 X4]. injection X4 as Y1 Y2 Y3 Y4 Y5. split; cbn; try done; [|by rewrite Y1, Y3, Y4, Y5]. intros x Hx. destruct (X3 x Hx) as [Z1 Z2]. split; [done|]. rewrite <-Z2. apply (wr_lookup_ne _ _ _ _ _ Em). lia. }
  assert (exists k' tx', send_response (fun w _ => Some w) w3 r = Some (set_req (set_fds w3 (<[c_fd k := Socket rx tx' (sent ++ answer tx)]> (fds w3))) r k') /\ (c_fd k', store_fd k', fio k', in_pool k') = (c_fd k, store_fd k, fio k, a :: in_pool k)) as (k' & tx' & E & Ek').
  { assert (reqs w3 !! r = Some k3) as Hk3 by (by rewrite Er, lookup_insert_eq). assert (fds w3 !! c_fd k3 = Some (Socket rx tx sent)) as Hfd3 by (by rewrite Ef). destruct (answer tx) eqn:Ea.
    - exists (set_wev k3 (Ev true false false true)), (tail tx). rewrite app_nil_r. split; [|done]. by apply (send_full _ w3 r k3 bu rx tx sent).
    - rewrite <-Ea. destruct tx as [|[n| | |] tx]; try done. exists (set_output (set_wev k3 (Ev (active (wev k3)) true false false)) []), tx. split; [|done]. apply (send_at_once (fun w _ => Some w) w3 r k3 bu n rx tx sent); try done; cbn; by rewrite Hw. }
  rewrite Ef in E. eexists _, k', a, tx'. split; [exact E|]. split; [by apply (calm_reqs false w2)|]. split; [cbn; by rewrite insert_insert_eq, Hr2, Ew1, insert_insert_eq|]. split; [done|]. split; [cbn; lia|].
  destruct (HX3 (<[c_fd k := Socket rx tx' (sent ++ answer tx)]> (fds w))) as [X1 X2 X3 X4]. by split.
Qed.

(** ** The end *)

Lemma lookup_deletes {A} (m : gmap Z A) (l : list Z) x : foldr (fun a s => delete a s) m l !! x = if bool_decide (x ∈ l) then None else m !! x.
Proof.
  induction l as [|y l IH]; cbn; [by rewrite bool_decide_false by apply not_elem_of_nil|]. destruct (decide (x = y)) as [->|Hn]; [by rewrite lookup_delete_eq, bool_decide_true by (by left)|].
  rewrite lookup_delete_ne, IH by done. case_bool_decide as H1; case_bool_decide as H2; try done; exfalso; [apply H2; by right|]. apply elem_of_cons in H2 as [?|?]; done.
Qed.

(** The pool of a request takes no buffer of a task with it. *)
Lemma ok_deletes m l : FioOk.ok m -> (forall x, x ∈ tasks m -> own_buffer x ∉ l) -> FioOk.ok (set_store m (fios m) (foldr (fun a s => delete a s) (bufs m) l)).
Proof.
  intros [[HT HB HN HR HK HS] H1 H2 H3 H4 H5 H6] Hl. assert (forall x, x ∈ freeq m ++ task_used m -> foldr (fun a s => delete a s) (bufs m) l !! own_buffer x = bufs m !! own_buffer x) as E by (intros x Hx; rewrite lookup_deletes, bool_decide_false; [done|by apply Hl]).
  split; cbn; try done. split; cbn; try done.
  - apply Forall_forall. intros x Hx. destruct (proj1 (Forall_forall _ _) HT x Hx) as [J1 J2 J3]. split; cbn; [done|done|]. by rewrite E.
  - rewrite HB. erewrite FioOk.blocks_ext; [reflexivity|]. intros x Hx. unfold FioOk.start_of. by rewrite E.
Qed.

Lemma close_eq w r k m rx tx sent fl : reqs w !! r = Some k -> posted_events w = [] -> posted_bad_events w = [] -> 0 < fio k -> cfs_fio_manager_free (mgr w) (fio k) = Some m ->
  0 < c_fd k -> 0 < store_fd k -> c_fd k <> store_fd k -> fds w !! c_fd k = Some (Socket rx tx sent) -> fds w !! store_fd k = Some (File_rd fl) ->
  dn_request_close w r = Some (drop_req (set_gone (set_fds (pool_destroy (set_fds (set_mgr w m) (delete (store_fd k) (fds w))) k) (delete (c_fd k) (delete (store_fd k) (fds w)))) (gone w ++ [sent])) r).
Proof.
  intros Hk C4 C5 Hf E Hc Hs Hne Hfd Hfd2. unfold dn_request_close. rewrite (option_bind_eq _ _ _ Hk), (proj2 (Z.eqb_neq _ _)) by lia. rewrite C4, C5, bool_decide_false by apply not_elem_of_nil.
  rewrite (option_bind_eq _ _ _ E), (option_bind_eq _ _ _ eq_refl), !(proj2 (Z.ltb_lt 0 _)) by done.
  assert (cfs_close (set_mgr w m) (store_fd k) = set_fds (set_mgr w m) (delete (store_fd k) (fds w))) as -> by (unfold cfs_close; cbn; by rewrite Hfd2). set (w1 := pool_destroy _ k).
  assert (cfs_close w1 (c_fd k) = set_gone (set_fds w1 (delete (c_fd k) (delete (store_fd k) (fds w)))) (gone w ++ [sent])) as -> by (unfold cfs_close; cbn; by rewrite lookup_delete_ne, Hfd by done). done.
Qed.

Lemma close_ok w r k t rx tx sent fl : calm_with false w -> reqs w !! r = Some k -> 0 < fio k -> fio k ∈ task_used (mgr w) -> fios (mgr w) !! fio k = Some t -> free (mgr w) < f_idle (mgr w) -> (forall x, x ∈ tasks (mgr w) -> own_buffer x ∉ in_pool k) ->
  0 < c_fd k -> 0 < store_fd k -> c_fd k <> store_fd k -> fds w !! c_fd k = Some (Socket rx tx sent) -> fds w !! store_fd k = Some (File_rd fl) ->
  exists w', dn_request_close w r = Some w' /\ calm w' /\ reqs w' = delete r (reqs w) /\ fds w' = delete (c_fd k) (delete (store_fd k) (fds w)) /\ gone w' = gone w ++ [sent] /\ store w' = store w /\
    freeq (mgr w') = fio k :: freeq (mgr w) /\ fios (mgr w') !! fio k = Some (cleared t) /\ sfs w' = foldr (fun a s => delete a s) (sfs w) (in_pool k).
Proof.
  intros [C1 C2 C3 C4 C5 C6 C7 _] Hk Hf Hu Ht Hid Hap Hc Hs Hne Hfd Hfd2. destruct (free_below_idle (mgr w) (fio k) t C6 Hu Ht Hid) as (m & E & HK & Hq & Htk & Hft & Hm & Hb). rewrite (close_eq w r k m rx tx sent fl) by done.
  eexists. split; [reflexivity|]. split; [|cbn; done]. split; cbn; try done; [|by rewrite Hm|right; by rewrite Hq]. apply ok_deletes; [done|]. intros x Hx. by apply Hap, Htk.
Qed.

Section sending.

(** The request [r] with its task, its structure for sendfile and its pool; the file; the other descriptors and requests; and what is asked for. *)
Context (rbl r f sf fd fd2 : Z) (pl : list Z) (p : list Posix.name) (d : list Z) (s : DnStorage.dn) (F : gmap Z fdesc) (g : list (list Z)) (rx : list SysIo.rx_t) (off n : Z) (R : gmap Z dn_request_t) (Q : list Z).
Hypothesis Hfile : DnStorage.files s !! p = Some (Posix.File d).
Hypothesis Hfd2 : F !! fd2 = Some (File_rd (At p)).
Hypothesis Hne : fd <> fd2.
Hypothesis Hnew : R !! r = None.
Hypothesis Hpos : 0 < fd /\ 0 < fd2 /\ 0 < f.
Hypothesis Hrange : 0 <= off /\ 0 <= n /\ off + n <= Z.of_nat (length d).

(** [c] bytes of the range have been sent. *)
Record sending (w : world) (k : dn_request_t) (t : file_io_t) (tx : list SysIo.tx_t) (c : Z) : Prop := {
  sd_req : reqs w = <[r := k]> R;
  sd_k : (c_fd k, store_fd k, fio k, output k, in_pool k, wev k) = (fd, fd2, f, Some [], pl, sent_at);
  sd_fds : fds w = <[fd := Socket rx tx (header_rsp ++ SysIo.file_bytes d off c)]> F;
  sd_world : (store w, gone w, pools w, epolls w, posted_bad_events w) = (s, g, [], [], []);
  sd_sf : sfs w !! sf = Some (Sf fd fd2);
  sd_mgr : FioOk.ok (mgr w) /\ mallocs (mgr w) = [] /\ free (mgr w) < f_idle (mgr w) /\ f ∈ task_used (mgr w) /\ freeq (mgr w) = Q;
  sd_apart : (forall x, x ∈ tasks (mgr w) -> own_buffer x ∉ pl) /\ Forall (fun a => a < brk (mgr w)) pl;
  sd_task : fios (mgr w) !! f = Some t /\ (sf_chain_task t, f_data t, h t, offset t, need t) = (sf, r, Block_read_complete, off + c, n - c);
  sd_count : 0 <= c <= n }.

Lemma used_task m : f ∈ task_used m -> f ∈ tasks m.
Proof. intros H. apply elem_of_app. by right. Qed.

(** One turn of a worker. *)
Lemma sendfile_work w k t tx c rest res : sending w k t tx c -> jobs w = [(f, FAIO_IO_TYPE_SENDFILE)] -> posted_events w = [] -> after tx (n - c) = Some rest ->
  exists w' t' tx' c', step rbl (Work 0 res) w = Some w' /\ sending w' k t' tx' c' /\ jobs w' = [] /\ posted_events w' = [f] /\
    (faio_ret t' = DFS_OK /\ c' = n /\ tx' = rest \/ faio_ret t' = EAGAIN /\ after tx' (n - c') = Some rest /\ (length tx' < length tx)%nat).
Proof.
  intros [H1 H2 H3 H4 H5 (M1 & M2 & M3 & M4 & M5) [H7 H7'] [T1 T2] H9] HJ HQ Ha. injection H2 as K1 K2 K3 K4 K5 K6. injection H4 as W1 W2 W3 W4 W5. injection T2 as U1 U2 U3 U4 U5. pose proof (used_task _ M4) as Hin.
  destruct (task_buffer _ _ _ M1 Hin T1) as [Eb (bu & Hbu)].
  assert (exists rc tx' c' w1, cfs_faio_io_send_file (set_jobs w []) t = Some (Task (off + c') (n - c') (f_fd t) (b t) (f_data t) (h t) (ret t) (result t) rc sf, w1) /\ 0 <= c' <= n /\
    fds w1 = <[fd := Socket rx tx' (header_rsp ++ SysIo.file_bytes d off c')]> F /\ w1 = set_fds (set_jobs w []) (fds w1) /\
    (rc = DFS_OK /\ c' = n /\ tx' = rest \/ rc = EAGAIN /\ after tx' (n - c') = Some rest /\ (length tx' < length tx)%nat)) as (rc & tx' & c' & w1 & E & Hc' & Ef1 & Ew1 & Hrc).
  { unfold cfs_faio_io_send_file. cbn [sfs set_jobs fds]. rewrite U1, (option_bind_eq _ _ _ H5). cbn [conn_fd sf_store_fd]. rewrite H3, lookup_insert_eq, lookup_insert_ne, Hfd2 by done.
    rewrite U4, U5. destruct (Z.leb_spec (n - c) 0) as [Hn0|Hn0].
    - exists DFS_OK, tx, c, (set_jobs w []). split; [done|]. split; [done|]. split; [done|]. split; [by destruct w|]. left. assert (c = n) by lia. split_and!; try done. destruct tx; cbn [after] in Ha; rewrite (proj2 (Z.leb_le _ _)) in Ha by lia; by injection Ha.
    - assert (content (set_jobs w []) (At p) = d) as -> by (cbn; by rewrite W1, Hfile). destruct (sendfile_loop_ok d rest tx (off + c) (n - c) [] ltac:(lia) ltac:(lia) ltac:(lia) Ha) as (rc & tx' & j & Hj & E & Hrc). rewrite E. cbn [app].
      exists rc, tx', (c + j). eexists. replace (off + (c + j)) with (off + c + j) by lia. replace (n - (c + j)) with (n - c - j) by lia. split; [reflexivity|]. split; [lia|]. cbn [fds set_fds]. rewrite insert_insert_eq, <-app_assoc, file_bytes_app by lia. split; [done|]. split; [done|].
      destruct Hrc as [(-> & -> & ->)|Hrc]; [left; split_and!; try done; lia|by right]. }
  cbn [step]. rewrite HJ. cbn [lookup list_lookup delete list_delete]. unfold run_job. cbn [mgr set_jobs]. rewrite (option_bind_eq _ _ _ T1), (option_bind_eq _ _ _ E). set (t1 := Task _ _ _ _ _ _ _ _ _ _).
  assert (mgr w1 = mgr w) as Em by (by rewrite Ew1). unfold callback. cbn [mgr set_mgr fios set_store freeq posted_events posted_bad_events]. rewrite Em, (option_bind_eq _ _ _ (lookup_insert_eq _ _ _)).
  assert (posted_events w1 = [] /\ posted_bad_events w1 = []) as [-> ->] by (rewrite Ew1; done). rewrite !app_nil_r, bool_decide_false.
  2: { intros Hf. pose proof (FioOk.base_nodup _ _ (FioOk.ok_base _ M1)) as ND. apply NoDup_app in ND as (_ & ND & _). by apply (ND f Hf). }
  change (faio_ret t1) with rc. assert (0 <= rc) as Hrc0 by (destruct Hrc as [(-> & _)|(-> & _)]; done). rewrite (proj2 (Z.ltb_ge _ _)) by done. change (b t1) with (b t). cbn [bufs set_store]. rewrite (option_bind_eq _ _ _ Hbu). set (t2 := Task _ _ _ _ _ _ _ AIO_OK _ _).
  eexists _, t2, tx', c'. split; [reflexivity|]. split; [|split; [rewrite Ew1; done|split; [done|exact Hrc]]]. cbn [app]. unfold set_store. cbn [fios bufs]. rewrite insert_insert_eq. rewrite Ew1. split; cbn; try done; [by rewrite K1, K2, K3, K4, K5, K6|by rewrite W1, W2, W3, W4| |by rewrite lookup_insert_eq; rewrite U2, U3].
  split_and!; try done. exact (ok_task (mgr w) f t t2 bu (buffer_used bu rc) M1 Hin T1 eq_refl Hbu eq_refl).
Qed.

(** The socket was full: the task goes to the workers again. *)
Lemma send_again w k t tx c : sending w k t tx c -> jobs w = [] -> posted_events w = [f] -> faio_ret t = EAGAIN ->
  exists w' k', step rbl Posted w = Some w' /\ sending w' k' t tx c /\ jobs w' = [(f, FAIO_IO_TYPE_SENDFILE)] /\ posted_events w' = [].
Proof.
  intros [H0 H2 H3 H4 H5 H6 H7 [T1 T2] H9] HJ HQ Ht. assert (reqs w !! r = Some k) as H1 by (by rewrite H0, lookup_insert_eq). injection H2 as K1 K2 K3 K4 K5 K6. injection H4 as W1 W2 W3 W4 W5. injection T2 as U1 U2 U3 U4 U5. cbn [step]. rewrite HQ. unfold run_posted. cbn [mgr set_posted]. rewrite (option_bind_eq _ _ _ T1), U3, U2.
  unfold block_read_complete. cbn [reqs set_posted mgr]. rewrite (option_bind_eq _ _ _ H1), (option_bind_eq _ _ _ T1), Ht. change (EAGAIN =? EAGAIN) with true. cbn iota. cbn [wev set_handlers]. rewrite K6. cbn [ready sent_at].
  unfold dn_request_send_block_again. cbn [reqs set_req]. rewrite (option_bind_eq _ _ _ (lookup_insert_eq _ _ _)). cbn [wev set_handlers fio]. rewrite K6, K3. cbn [timedout timer_set sent_at]. unfold cfs_sendfile_chain, submit. cbn [jobs set_req set_posted]. rewrite HJ.
  cbn [fmap list_fmap length app]. rewrite bool_decide_false by apply not_elem_of_nil. change (Faio.DEFAULT_QUE_SIZE <=? Z.of_nat 0) with false. cbn iota. rewrite (option_bind_eq _ _ _ eq_refl). change (DFS_OK =? DFS_OK) with true. cbn iota.
  eexists _, (set_handlers k (read_event_handler k) Send_again). split; [reflexivity|]. split; [|done]. split; cbn; rewrite ?lookup_insert_eq; try done; [by rewrite H0, insert_insert_eq|by rewrite K1, K2, K3, K4, K5, K6|by rewrite W1, W2, W3, W4, W5|by rewrite U1, U2, U3, U4, U5].
Qed.

(** The whole range has been sent: the last answer, and the end of the request. *)
Lemma send_done w k t tx : sending w k t tx n -> jobs w = [] -> posted_events w = [f] -> faio_ret t = DFS_OK -> final tx -> sf ∈ pl ->
  exists w', step rbl Posted w = Some w' /\ calm w' /\ reqs w' = R /\ fds w' = delete fd (delete fd2 F) /\ gone w' = g ++ [header_rsp ++ SysIo.file_bytes d off n ++ answer tx] /\ store w' = s /\
    freeq (mgr w') = f :: Q /\ sfs w' !! sf = None /\ exists t', fios (mgr w') !! f = Some t' /\ sf_chain_task t' = sf.
Proof.
  intros [H0 H2 H3 H4 H5 (M1 & M2 & M3 & M4 & M5) [H7 H7'] [T1 T2] H9] HJ HQ Hret Hfin Hsf. assert (reqs w !! r = Some k) as H1 by (by rewrite H0, lookup_insert_eq). injection H2 as K1 K2 K3 K4 K5 K6. injection H4 as W1 W2 W3 W4 W5. injection T2 as U1 U2 U3 U4 U5.
  cbn [step]. rewrite HQ. unfold run_posted. cbn [mgr set_posted]. rewrite (option_bind_eq _ _ _ T1), U3, U2. unfold block_read_complete. cbn [reqs set_posted mgr]. rewrite (option_bind_eq _ _ _ H1), (option_bind_eq _ _ _ T1), Hret.
  change (DFS_OK =? EAGAIN) with false. change (DFS_OK =? DFS_ERROR) with false. cbn iota. rewrite W5. set (w0 := set_posted w [] []). assert (calm_with false w0) as HC by (by split).
  destruct (done_response_ok w0 r k rx tx (header_rsp ++ SysIo.file_bytes d off n) HC H1 K4 K6) as (w1 & k1 & a & tx1 & E1 & HC1 & Hr1 & Ek1 & Ha & HX); [cbn; by rewrite K1, H3, lookup_insert_eq|done|].
  rewrite (option_bind_eq _ _ _ E1). injection Ek1 as J1 J2 J3 J4. destruct HX as [X1 X2 X3 X4]. cbn in X1, X2, X3, X4, Ha, Hr1. injection X4 as Y1 Y2 Y3 Y4 _. injection X2 as Q0 Q1 Q2 Q3 Q4. rewrite K1, K2, K3, K5 in *. rewrite H3, insert_insert_eq in Y2.
  destruct (close_ok w1 r k1 t rx tx1 ((header_rsp ++ SysIo.file_bytes d off n) ++ answer tx) (At p) HC1) as (w2 & E2 & HC2 & Hr2 & Hf2 & Hg2 & Hs2 & Hq2 & Ht2 & Hsf2); rewrite ?J1, ?J2, ?J3, ?J4, ?Q0, ?Q2, ?Q3, ?Q4, ?Y2; try done; try lia.
  - by rewrite Hr1, lookup_insert_eq.
  - intros x Hx. assert (x ∈ tasks (mgr w)) as Hx' by (unfold tasks in *; by rewrite Q1, Q2 in Hx). apply not_elem_of_cons. split; [|by apply H7]. destruct (proj1 (Forall_forall _ _) (FioOk.bs_tasks _ _ (FioOk.ok_base _ M1)) x Hx') as [Hbk _ _]. lia.
  - by rewrite lookup_insert_eq.
  - by rewrite lookup_insert_ne.
  - exists w2. rewrite J1, J2, J3, J4, Y2, Y1, Y4 in *. split; [done|]. split; [done|]. split; [by rewrite Hr2, Hr1, H0, insert_insert_eq, delete_insert_id by done|]. split; [by rewrite Hf2, delete_insert_ne, delete_insert_eq by done|]. split; [by rewrite Hg2, W2, <-app_assoc|].
    split; [by rewrite Hs2, Y3|]. split; [by rewrite Hq2, Q1, M5|]. split; [rewrite Hsf2, lookup_deletes, bool_decide_true; [done|by right]|]. eexists. split; [exact Ht2|]. by cbn.
Qed.

(** All turns of the workers. *)
Lemma send_all rest m : forall w k t tx c, (length tx <= m)%nat -> sending w k t tx c -> jobs w = [(f, FAIO_IO_TYPE_SENDFILE)] -> posted_events w = [] -> after tx (n - c) = Some rest ->
  exists i w' k' t', run rbl (DnRequestOk.rounds i ++ [Work 0 DnRequestOk.all_of_it]) w = Some w' /\ sending w' k' t' rest n /\ jobs w' = [] /\ posted_events w' = [f] /\ faio_ret t' = DFS_OK.
Proof.
  induction m as [|m IH]; intros w k t tx c Hm HS HJ HQ Ha; destruct (sendfile_work w k t tx c rest DnRequestOk.all_of_it HS HJ HQ Ha) as (w1 & t1 & tx1 & c1 & E1 & HS1 & HJ1 & HQ1 & [(Hr & -> & ->)|(Hr & Ha1 & Hlt)]); try lia.
  1,2: exists O, w1, k, t1; split; [change (DnRequestOk.rounds 0 ++ [Work 0 DnRequestOk.all_of_it]) with [Work 0 DnRequestOk.all_of_it]; cbn [run]; by rewrite (option_bind_eq _ _ _ E1)|done].
  destruct (send_again w1 k t1 tx1 c1 HS1 HJ1 HQ1 Hr) as (w2 & k2 & E2 & HS2 & HJ2 & HQ2). destruct (IH w2 k2 t1 tx1 c1 ltac:(lia) HS2 HJ2 HQ2 Ha1) as (i & w' & k' & t' & E3 & HS3 & HJ3 & HQ3 & Hr3).
  exists (S i), w', k', t'. split; [|done]. change (DnRequestOk.rounds (S i)) with ([Work 0 DnRequestOk.all_of_it; Posted] ++ DnRequestOk.rounds i). rewrite <-app_assoc. cbn [app run]. by rewrite (option_bind_eq _ _ _ E1), (option_bind_eq _ _ _ E2).
Qed.

End sending.

(** ** A whole request *)

(** The answer to the header leaves; the request has a task. *)
Lemma respond_read_ok rbl w r k bu m0 rx tx f m : reqs w !! r = Some k -> started k = true -> wev k = Ev true false false true -> write_event_handler k = Send_header -> output k = Some [bu] -> fio k = 0 -> op_type k = OP_READ_BLOCK ->
  fds w !! c_fd k = Some (Socket rx (NnConn.Tx m0 :: tx) []) -> pending_rsp w bu -> 8 <= m0 -> cfs_fio_manager_alloc (mgr w) = Some (f, m) -> f <> 0 ->
  step rbl (Writable r) w = dn_request_send_block (set_req (set_mgr (set_fds w (<[c_fd k := Socket rx tx header_rsp]> (fds w))) m) r (set_fio (set_output (set_wev k sent_at) []) f)) r.
Proof.
  intros Hk Hst Hwe Hwh Ho Hf Hop Hfd Hrsp Hn E Hf0. cbn [step]. rewrite Hk, Hwe. cbn [active with_ready ready timedout timer_set]. set (k1 := set_wev k _). unfold write_handler. change (started k1) with (started k). rewrite Hst. change (write_event_handler k1) with (write_event_handler k). rewrite Hwh. cbn [run_handler].
  unfold dn_request_send_header_response. rewrite (send_at_once _ (set_req w r k1) r k1 bu m0 rx tx []); [|cbn; by rewrite lookup_insert_eq|done|done|done|done|done|done].
  unfold dn_request_process_body. cbn [reqs set_req]. rewrite (option_bind_eq _ _ _ (lookup_insert_eq _ _ _)). cbn [fio set_output set_wev set_events k1]. rewrite Hf. change (0 =? 0) with true. cbn iota.
  cbn [mgr set_req set_fds]. rewrite (option_bind_eq _ _ _ E), (option_bind_eq _ _ _ eq_refl), (proj2 (Z.eqb_neq f 0)) by done. match goal with |- context [op_type ?x] => change (op_type x) with (op_type k) end. rewrite Hop. change (OP_READ_BLOCK =? OP_WRITE_BLOCK) with false. change (OP_READ_BLOCK =? OP_READ_BLOCK) with true. cbn iota.
  apply (f_equal (fun w => dn_request_send_block w r)). subst k1. clear -w. destruct w. unfold set_req, set_mgr, set_fds. cbn. by rewrite !insert_insert_eq.
Qed.

Lemma set_req_again w r k m z k' : set_req (set_sfs (set_mgr (set_req w r k) m) z) r k' = set_sfs (set_mgr (set_req w r k') m) z.
Proof. unfold set_req at 1 3. cbn. by rewrite insert_insert_eq. Qed.

(** A task that never sent gets its structure for sendfile from the pool, and goes to the workers. *)
Lemma send_block_ok w r k t : reqs w !! r = Some k -> jobs w = [] -> pools w = [] -> FioOk.ok (mgr w) -> fios (mgr w) !! fio k = Some t -> sf_chain_task t = 0 ->
  let m := mgr w in let a := brk m in let t' := Task (start_offset k) (u32 (len k)) (store_fd k) (b t) r Block_read_complete (ret t) (result t) DFS_ERROR a in
  dn_request_send_block w r = Some (set_jobs (set_mgr (set_sfs (set_mgr (set_req w r (set_pool (set_handlers k (read_event_handler k) Block_writing) (a :: in_pool k) (pool_mem k))) (set_heap m (heap m) (a + sizeof_sendfile_chain_task_t) (mallocs m)))
    (<[a := Sf (c_fd k) (store_fd k)]> (sfs w))) (set_store (set_heap m (heap m) (a + sizeof_sendfile_chain_task_t) (mallocs m)) (<[fio k := t']> (fios m)) (bufs m))) [(fio k, FAIO_IO_TYPE_SENDFILE)]).
Proof.
  intros Hk HJ HP HK Ht Hs m a t'. unfold dn_request_send_block. rewrite (option_bind_eq _ _ _ Hk). cbn [mgr set_req fio set_handlers]. rewrite (option_bind_eq _ _ _ Ht), Hs. change (0 =? 0) with true. cbn iota. unfold pool_alloc, next_alloc. cbn [pools set_req]. rewrite HP. cbn [mgr set_req].
  assert (0 < brk (mgr w)) by apply HK. rewrite (proj2 (Z.eqb_neq (brk (mgr w)) 0)) by lia. rewrite (proj2 (Z.eqb_neq (brk (mgr w)) 0)) by lia. unfold cfs_sendfile_chain, submit. cbn [jobs set_mgr set_req set_sfs]. rewrite HJ.
  cbn [fmap list_fmap length app]. rewrite bool_decide_false by apply not_elem_of_nil. change (Faio.DEFAULT_QUE_SIZE <=? Z.of_nat 0) with false. cbn iota. rewrite (option_bind_eq _ _ _ eq_refl). change (DFS_OK =? DFS_OK) with true. cbn iota.
  rewrite set_req_again. reflexivity.
Qed.

(** A header asks for a range of a stored block. *)
Record asks (w : world) (hd : list Z) (bi : DnStorage.block_info_t) (d : list Z) : Prop := {
  as_len : length hd = sizeof_header;
  as_op : s32 (field 0 4 hd) = OP_READ_BLOCK;
  as_block : exists x, DnStorage.block_object_get (store w) (s64 (field 16 8 hd)) = Some (Some x) /\ Cache.objs (DnStorage.g_dn_bcm (store w)) !! x = Some bi;
  as_file : DnStorage.files (store w) !! Posix.resolve (DnStorage.b_path bi) = Some (Posix.File d);
  as_range : 0 <= s64 (field 32 8 hd) /\ 0 <= s64 (field 40 8 hd) < 2 ^ 32 /\ s64 (field 32 8 hd) + s64 (field 40 8 hd) <= Z.of_nat (length d) }.

(** Up to the task: what the request has, and who has the task. *)
Lemma read_accepted rbl w hd rx m0 tx bi d : calm w -> asks w hd bi d -> 8 <= m0 ->
  let r := brk (mgr w) in let fd := new_fd (fds w) in
  exists w2 a bu lm fd2 f m, run rbl [Accept (NnConn.Rx hd :: rx) (NnConn.Tx m0 :: tx); Readable r] w = Some w2 /\ calm w2 /\
    let k := Rq fd true awake (Ev true false false true) Check_read Send_header 0 (Some [bu]) hd fd2 [] 0 0 0 [a] lm in let k' := set_fio (set_output (set_wev k sent_at) []) f in
    cfs_fio_manager_alloc (mgr w2) = Some (f, m) /\ FioOk.ok m /\ 0 < f /\ f ∈ task_used m /\ free m < f_idle m /\ mallocs m = [] /\ (forall x, x ∈ tasks m -> own_buffer x <> a) /\ a < brk m /\
    (fios (mgr w2), sfs w2, store w2, gone w2, freeq (mgr w2)) = (fios (mgr w), sfs w, store w, gone w, freeq (mgr w)) /\ reqs w2 = <[r := k]> (reqs w) /\ 3 <= fd /\ 3 <= fd2 /\ fd <> fd2 /\ fds w !! fd = None /\
    fds w2 = <[fd2 := File_rd (At (Posix.resolve (DnStorage.b_path bi)))]> (<[fd := Socket rx (NnConn.Tx m0 :: tx) []]> (fds w)) /\ fds w !! fd2 = None /\
    step rbl (Writable r) w2 = dn_request_send_block (set_req (set_mgr (set_fds w2 (<[fd := Socket rx tx header_rsp]> (fds w2))) m) r k') r.
Proof.
  intros HC [A1 A2 (x & A3 & A3') A4 A5] Hm0 r fd. destruct (accept_ok rbl w (NnConn.Rx hd :: rx) (NnConn.Tx m0 :: tx) HC) as (w1 & E1 & HC1 & Hq1 & Hf1 & Hs1 & Hg1 & Hfi1 & Hb1 & Hst1). destruct (new_fd_ok (fds w)) as [Hn1 Hn2]. fold fd in Hn1, Hn2, Hf1, Hq1. fold r in Hq1.
  destruct (header_read_ok rbl w1 r fd hd rx (NnConn.Tx m0 :: tx) x bi d HC1) as (w2 & bu & a & lm & E2 & HC2 & HX & Hq2 & Hrsp & Ha); rewrite ?Hs1; try done; [by rewrite Hq1, lookup_insert_eq|by rewrite Hf1, lookup_insert_eq|].
  rewrite Hf1, insert_insert_eq in HX, Hq2. set (fds1 := <[fd := Socket rx (NnConn.Tx m0 :: tx) []]> (fds w)) in *. destruct (new_fd_ok fds1) as [Hn3 Hn4]. set (fd2 := new_fd fds1) in *. assert (fd <> fd2) as Hne by (intros Ee; rewrite <-Ee in Hn4; unfold fds1 in Hn4; by rewrite lookup_insert_eq in Hn4).
  destruct HX as [X1 X2 X3 X4]. cbn in X1, X2, X3, X4. injection X2 as S1 S2 S3 S4 S5. injection X4 as Y1 Y2 Y3 Y4 Y5. pose proof (cm_ok _ _ HC2) as HK. destruct (FioOk.fio_alloc_ok (mgr w2) HK) as (f & m & E & HK' & _ & Hcase). pose proof (alloc_keeps _ _ _ ltac:(apply HK) E) as ([Kb Kt] & _ & _ & Km).
  destruct Hcase as [(_ & _ & [[Hx Hx']|Hx])|(Hf0 & Hfn & Hu & Hid)]; [destruct (cm_room _ _ HC2); [lia|done]|by rewrite (cm_mallocs _ _ HC2) in Hx|].
  exists w2, a, bu, lm, fd2, f, m. split; [cbn [run]; by rewrite (option_bind_eq _ _ _ E1), (option_bind_eq _ _ _ E2)|]. split; [done|]. intros k k'. split; [done|]. split; [done|]. split; [done|]. split; [rewrite Hu; set_solver|].
  assert (f_idle m = f_idle (mgr w2)) as Ei by (pose proof (FioOk.fio_alloc_ok (mgr w2) HK) as (f' & m' & E' & _ & HL & _); rewrite E in E'; injection E' as <- <-; by injection HL). split; [lia|]. split; [apply Km, (cm_mallocs _ _ HC2)|]. split.
  { intros y Hy. pose proof (FioOk.base_in_heap _ _ y (FioOk.ok_base _ HK') Hy) as [_ Hy0]. unfold own_buffer, sizeof_file_io_t. destruct (Kt y Hy) as [Hold|[->|Hnew]]; [|lia|lia]. assert (y ∈ tasks (mgr w1)) as Hy1 by (unfold tasks in *; by rewrite S2, S3 in Hold).
    destruct (proj1 (Forall_forall _ _) (FioOk.bs_tasks _ _ (FioOk.ok_base _ (cm_ok _ _ HC1))) y Hy1) as [Hbk _ _]. unfold own_buffer, sizeof_file_io_t in Hbk. lia. }
  split; [lia|]. split; [injection Hst1 as Z1 Z2; by rewrite S1, Y1, Y3, Y4, S2, Hfi1, Hs1, Hg1, Z1, Z2|]. split; [by rewrite Hq2, Hq1, insert_insert_eq|]. split_and!; try done; [unfold fds1 in Hn4; by rewrite lookup_insert_ne in Hn4|].
  assert (reqs w2 !! r = Some k) as Hk by (by rewrite Hq2, lookup_insert_eq). apply (respond_read_ok rbl w2 r k bu m0 rx tx f m Hk); try done; [|lia]. cbn. rewrite Y2, lookup_insert_ne by done. unfold fds1. by rewrite lookup_insert_eq.
Qed.

(** With a task that never sent, the request is at its first turn. *)
Lemma read_started rbl w hd rx m0 tx bi d : calm w -> clean (mgr w) -> asks w hd bi d -> 8 <= m0 ->
  let r := brk (mgr w) in let fd := new_fd (fds w) in
  exists w3 f sf fd2 a F k t Q, run rbl [Accept (NnConn.Rx hd :: rx) (NnConn.Tx m0 :: tx); Readable r; Writable r] w = Some w3 /\
    sending r f sf fd fd2 [sf; a] d (store w) F (gone w) rx (s64 (field 32 8 hd)) (s64 (field 40 8 hd)) (reqs w) Q w3 k t tx 0 /\ jobs w3 = [(f, FAIO_IO_TYPE_SENDFILE)] /\ posted_events w3 = [] /\
    F !! fd2 = Some (File_rd (At (Posix.resolve (DnStorage.b_path bi)))) /\ fd <> fd2 /\ (0 < fd /\ 0 < fd2 /\ 0 < f) /\ delete fd (delete fd2 F) = fds w /\ 0 < sf /\ (rev k, started k, read_event_handler k) = (awake, true, Check_read).
Proof.
  intros HC HCl HA Hm0 r fd. destruct (read_accepted rbl w hd rx m0 tx bi d HC HA Hm0) as (w2 & a & bu & lm & fd2 & f & m & E2 & HC2 & E & HK & Hf0 & Hu & Hid & Hml & Hown & Ham & Eq & Hr2 & G1 & G2 & G3 & G4 & Hfds & G5 & Est). injection Eq as S1 S2 S3 S4 S5. fold r in E2, Hr2, Est. fold fd in Hr2, Est, G1, G3, G4, Hfds.
  assert (clean m) as HCm by (apply (alloc_clean (mgr w2) f m); [|done]; intros y t Hy; rewrite S1 in Hy; by apply (HCl y)). pose proof (used_task _ _ Hu) as Hin. destruct (proj1 (Forall_forall _ _) (FioOk.bs_tasks _ _ (FioOk.ok_base _ HK)) f Hin) as [_ (t & Ht & Etb) _].
  set (k' := set_fio _ f) in Est. assert (u32 (len k') = s64 (field 40 8 hd)) as El by (apply uwrap_small; destruct HA as [_ _ _ _ (_ & R & _)]; exact R). set (W := set_req (set_mgr _ m) r k') in Est. rewrite (send_block_ok W r k' t) in Est; [|cbn; by rewrite lookup_insert_eq|exact (cm_jobs _ _ HC2)|exact (cm_pools _ _ HC2)|done|done|by apply (HCm f)].
  change (mgr W) with m in Est. set (t' := Task _ _ _ _ _ _ _ _ _ _) in Est. set (k2 := set_pool _ _ _) in Est. destruct HA as [_ _ _ _ (R1 & R2 & R3)].
  eexists _, f, (brk m), fd2, a, (fds w2), k2, t', (freeq m). split; [rewrite (DnRequestOk.run_app rbl [_; _] [Writable r] w w2 E2 : run rbl [_; _; Writable r] w = _); cbn [run]; by rewrite (option_bind_eq _ _ _ Est)|].
  split; [|split; [done|split; [exact (cm_posted _ _ HC2)|split; [by rewrite Hfds, lookup_insert_eq|split; [done|split; [lia|split; [|split; [apply HK|done]]]]]]]].
  - split; cbn; try done.
    + by rewrite Hr2, !insert_insert_eq.
    + unfold SysIo.file_bytes. by rewrite (proj2 (Z.ltb_ge _ _)) by lia.
    + rewrite S3, S4, (cm_pools _ _ HC2), (cm_epolls _ _ HC2), (cm_bad _ _ HC2). done.
    + by rewrite lookup_insert_eq.
    + split; [|done]. pose proof (ok_above m (brk m + sizeof_sendfile_chain_task_t) (bufs m) HK ltac:(unfold sizeof_sendfile_chain_task_t; lia) ltac:(done)) as HK2. exact (ok_task_only _ f t t' HK2 Hin Ht eq_refl).
    + split; [|repeat constructor; unfold sizeof_sendfile_chain_task_t; lia]. intros x Hx Hxi. destruct (proj1 (Forall_forall _ _) (FioOk.bs_tasks _ _ (FioOk.ok_base _ HK)) x Hx) as [Hb _ _]. apply elem_of_cons in Hxi as [Hxi|Hxi]; [lia|]. apply list_elem_of_singleton in Hxi. by apply (Hown x).
    + rewrite lookup_insert_eq. split; [done|]. rewrite Z.add_0_r, Z.sub_0_r, <-(El : u32 (len k') = _). done.
    + lia.
  - rewrite Hfds, delete_insert_id, delete_insert_id; [done|done|]. by rewrite lookup_insert_ne by done.
Qed.

(** The request is over: its answers and the range have left, and its task is the next one. *)
Lemma read_served rbl w hd rx m0 tx bi d rest : calm w -> clean (mgr w) -> reqs w !! brk (mgr w) = None -> asks w hd bi d -> 8 <= m0 -> after tx (s64 (field 40 8 hd)) = Some rest -> final rest ->
  exists i w', run rbl ([Accept (NnConn.Rx hd :: rx) (NnConn.Tx m0 :: tx); Readable (brk (mgr w)); Writable (brk (mgr w))] ++ DnRequestOk.rounds i ++ [Work 0 DnRequestOk.all_of_it; Posted]) w = Some w' /\
    gone w' = gone w ++ [header_rsp ++ SysIo.file_bytes d (s64 (field 32 8 hd)) (s64 (field 40 8 hd)) ++ answer rest] /\
    calm w' /\ reqs w' = reqs w /\ fds w' = fds w /\ store w' = store w /\
    exists f t l, freeq (mgr w') = f :: l /\ fios (mgr w') !! f = Some t /\ sf_chain_task t <> 0 /\ sfs w' !! sf_chain_task t = None.
Proof.
  intros HC HCl Hnew HA Hm0 Hafter Hfin. pose proof HA as [_ _ _ Hfile Hrange]. destruct (read_started rbl w hd rx m0 tx bi d HC HCl HA Hm0) as (w3 & f & sf & fd2 & a & F & k & t & Q & E & HS & HJ & HQ & HF & Hne & Hpos & Hdel & Hsf & _).
  set (fd := new_fd (fds w)) in *. set (off := s64 (field 32 8 hd)) in *. set (n := s64 (field 40 8 hd)) in *. assert (0 <= off /\ 0 <= n /\ off + n <= Z.of_nat (length d)) as Hr by lia.
  destruct (send_all rbl _ f sf fd fd2 [sf; a] _ d (store w) F (gone w) rx off n (reqs w) Q Hfile HF Hne Hr rest (length tx) w3 k t tx 0 ltac:(lia) HS HJ HQ) as (i & w4 & k4 & t4 & E4 & HS4 & HJ4 & HQ4 & Hr4); [by rewrite Z.sub_0_r|].
  destruct (send_done rbl _ f sf fd fd2 [sf; a] _ d (store w) F (gone w) rx off n (reqs w) Q HF Hne Hnew Hpos w4 k4 t4 rest HS4 HJ4 HQ4 Hr4 Hfin ltac:(by left)) as (w5 & E5 & HC5 & R5 & F5 & G5 & S5 & Hq5 & Hs5 & t5 & Ht5 & Et5).
  exists i, w5. split; [|rewrite F5; split_and!; try done; exists f, t5, Q; rewrite Et5; split_and!; try done; lia].
  rewrite (DnRequestOk.run_app _ _ _ _ _ E). change [Work 0 DnRequestOk.all_of_it; Posted] with ([Work 0 DnRequestOk.all_of_it] ++ [Posted]). rewrite app_assoc, (DnRequestOk.run_app _ _ _ _ _ E4). cbn [run]. by rewrite (option_bind_eq _ _ _ E5).
Qed.


(** A datanode that has stored the block 7. *)
Definition read_store : DnStorage.dn := match DnStorage.write_block_done DnProps.sample_writing (DnStorage.Req 7 1 3 DnRequestOk.sample_temp 256) with Some (_, s) => s | None => DnProps.sample_writing end.
Definition read_world : world := DnRequestOk.idle_at read_store.
Definition read_header : list Z := le_enc 4 81 ++ le_enc 4 0 ++ le_enc 8 1 ++ le_enc 8 7 ++ le_enc 8 0 ++ le_enc 8 1 ++ le_enc 8 2.
Definition sample_block_info : DnStorage.block_info_t := DnStorage.Bi 7 3 (lit "d/current/NS-1/current/subdir7/subdir7/blk_7").

Lemma idle_clean : clean DnRequestOk.idle_manager.
Proof. enough (map_Forall (fun _ t => sf_chain_task t = 0) (fios DnRequestOk.idle_manager)) as H by exact H. by_decide. Qed.

Lemma read_asks : asks read_world read_header sample_block_info [1; 2; 3].
Proof. split; [reflexivity|vm_compute; reflexivity|exists 100; split; vm_compute; reflexivity|vm_compute; reflexivity|]. assert (s64 (field 32 8 read_header) = 1 /\ s64 (field 40 8 read_header) = 2) as [-> ->] by (vm_compute; done). cbn. lia. Qed.

Definition takes : list SysIo.tx_t := [NnConn.TxAgain; NnConn.Tx 1; NnConn.TxIntr; NnConn.Tx 5; NnConn.Tx 8].


(** ** The next request *)

Lemma refill_fios n x : forall m, 0 < f_size m -> x < brk m -> (fios (refill_loop n m).2 !! x = fios m !! x /\ bufs (refill_loop n m).2 !! x = bufs m !! x) /\ exists l, freeq (refill_loop n m).2 = freeq m ++ l.
Proof.
  induction n as [|n IH]; intros m Hs Hx; [split; [done|exists []; by rewrite app_nil_r]|]. cbn [refill_loop]. destruct (malloc m _) as [f m1] eqn:E1. apply FioOk.malloc_cases in E1 as (ms1 & _ & [(-> & -> & _)|(-> & ->)]); [split; [done|exists []; by rewrite app_nil_r]|].
  change (sizeof_file_io_t + sizeof_buffer_t) with 232. destruct (brk m =? 0); [split; [done|exists []; by rewrite app_nil_r]|]. set (m1 := set_heap m _ _ _). assert (0 <= my_align (f_size m) 512) as Hal by (unfold my_align; destruct (_ =? _); [lia|]; pose proof (Z.mod_pos_bound (f_size m) 512); lia).
  cbv zeta. destruct (malloc m1 _) as [st m2] eqn:E2. set (m3 := set_freeq _ _).
  assert (brk m <= brk m2 /\ f_size m2 = f_size m /\ fios m2 = fios m /\ freeq m2 = freeq m /\ bufs m2 = bufs m) as (B1 & B2 & B3 & B4 & B5) by (apply FioOk.malloc_cases in E2 as (ms2 & _ & [(_ & -> & _)|(_ & ->)]); cbn in *; split_and!; try done; lia).
  destruct (IH m3) as [[I1 I3] (l & I2)]; [cbn; lia|cbn; lia|]. destruct (refill_loop n m3) as [i m']. cbn in *. rewrite I1, I2, I3. split; [split; rewrite lookup_insert_ne by (unfold own_buffer, sizeof_file_io_t; lia); by rewrite ?B3, ?B5|]. exists (brk m :: l). by rewrite B4, <-app_assoc.
Qed.

Lemma get_task_first m f l x : 0 < f_size m -> freeq m = f :: l -> f < brk m -> x < brk m ->
  exists m', cfs_fio_manager_get_task m = (f, m') /\ fios m' !! f = fios m !! f /\ bufs m' !! x = bufs m !! x.
Proof.
  intros Hs Hq Hf Hx. unfold cfs_fio_manager_get_task. set (m1 := if _ <? _ then _ else _).
  assert (fios m1 !! f = fios m !! f /\ bufs m1 !! x = bufs m !! x /\ exists l', freeq m1 = f :: l') as (E1 & E3 & (l' & E2)).
  { subst m1. destruct (_ <? _); [|split_and!; try done; by exists l]. unfold cfs_fio_manager_refill. set (bt := Z.to_nat _). destruct (refill_fios bt f m Hs Hf) as [[H1 _] (l1 & H2)]. destruct (refill_fios bt x m Hs Hx) as [[_ H3] _]. destruct (refill_loop bt m) as [i m2]. cbn in *. rewrite H1, H2, H3, Hq. split_and!; try done. by exists (l ++ l1). }
  rewrite E2. eexists. split; [done|]. by cbn.
Qed.

(** The next task is the first of the free ones, with its structure for sendfile. *)
Lemma alloc_first m f t l f' m' : 0 < f_size m -> freeq m = f :: l -> f < brk m -> fios m !! f = Some t -> cfs_fio_manager_alloc m = Some (f', m') -> f' = f /\ fios m' !! f = Some (taken t).
Proof.
  intros Hs Hq Hf Ht. unfold cfs_fio_manager_alloc. rewrite Hq. destruct (get_task_first m f l f Hs Hq Hf Hf) as (m1 & -> & E1 & _). rewrite E1, Ht. cbn -[reset_buffer].
  intros E. apply bind_Some in E as (m3 & E3 & E). injection E as <- <-. unfold reset_buffer in E3. apply bind_Some in E3 as (bu & _ & E3). injection E3 as <-. split; [done|]. cbn. by rewrite lookup_insert_eq.
Qed.

(** C38. After a request for a block has been served, the next one is served
    with the structure for sendfile of the first, which was freed with the
    pool of the first connection: the worker that sends uses freed memory. *)
Theorem second_read_undefined rbl w hd rx m0 tx bi d rest : calm w -> clean (mgr w) -> reqs w !! brk (mgr w) = None -> asks w hd bi d -> 8 <= m0 -> after tx (s64 (field 40 8 hd)) = Some rest -> final rest ->
  exists i w', run rbl ([Accept (NnConn.Rx hd :: rx) (NnConn.Tx m0 :: tx); Readable (brk (mgr w)); Writable (brk (mgr w))] ++ DnRequestOk.rounds i ++ [Work 0 DnRequestOk.all_of_it; Posted]) w = Some w' /\
    forall hd2 rx2 m2 tx2 bi2 d2 res, asks w hd2 bi2 d2 -> 8 <= m2 ->
      run rbl [Accept (NnConn.Rx hd2 :: rx2) (NnConn.Tx m2 :: tx2); Readable (brk (mgr w')); Writable (brk (mgr w')); Work 0 res] w' = None.
Proof.
  intros HC HCl Hnew HA Hm0 Hafter Hfin. destruct (read_served rbl w hd rx m0 tx bi d rest HC HCl Hnew HA Hm0 Hafter Hfin) as (i & w' & E & _ & HC' & _ & _ & Hs & f & t & l & Hq & Ht & Hsf & Hno). exists i, w'. split; [done|].
  intros hd2 rx2 m2 tx2 bi2 d2 res HA2 Hm2. assert (asks w' hd2 bi2 d2) as HA' by (destruct HA2; by split; rewrite ?Hs).
  destruct (read_accepted rbl w' hd2 rx2 m2 tx2 bi2 d2 HC' HA' Hm2) as (w2 & a & bu & lm & fd2 & f' & m & E2 & HC2 & Ea & HK & Hf0 & Hu & _ & _ & _ & _ & Eq & Hr2 & _ & _ & _ & _ & _ & _ & Est). injection Eq as S1 S2 S3 S4 S5.
  assert (f' = f /\ fios m !! f = Some (taken t)) as [-> Htk].
  { pose proof (cm_ok _ _ HC2) as HK2. apply (alloc_first (mgr w2) f t l f' m); [apply HK2|congruence| |congruence|done]. apply (FioOk.base_in_heap _ (freeq (mgr w2) ++ task_used (mgr w2))); [apply HK2|]. rewrite S5, Hq. by left. }
  change [Accept (NnConn.Rx hd2 :: rx2) (NnConn.Tx m2 :: tx2); Readable (brk (mgr w')); Writable (brk (mgr w')); Work 0 res] with ([Accept (NnConn.Rx hd2 :: rx2) (NnConn.Tx m2 :: tx2); Readable (brk (mgr w'))] ++ [Writable (brk (mgr w')); Work 0 res]).
  rewrite (DnRequestOk.run_app _ _ _ _ _ E2). cbn [run]. rewrite Est. unfold dn_request_send_block. cbn [reqs set_req]. rewrite (option_bind_eq _ _ _ (lookup_insert_eq _ _ _)). cbn [mgr set_req set_mgr fio set_handlers set_fio]. rewrite (option_bind_eq _ _ _ Htk).
  cbn [sf_chain_task taken]. rewrite (proj2 (Z.eqb_neq _ 0) Hsf), (proj2 (Z.eqb_neq _ 0) Hsf). unfold cfs_sendfile_chain, submit. cbn [jobs set_mgr set_req set_fds]. rewrite (cm_jobs _ _ HC2).
  cbn [fmap list_fmap length app]. rewrite bool_decide_false by apply not_elem_of_nil. change (Faio.DEFAULT_QUE_SIZE <=? Z.of_nat 0) with false. cbn iota. rewrite (option_bind_eq _ _ _ eq_refl). change (DFS_OK =? DFS_OK) with true. cbn iota.
  cbn [mbind option_bind step jobs set_jobs lookup list_lookup delete list_delete]. unfold run_job. cbn [mgr set_jobs set_mgr fios set_store]. rewrite (option_bind_eq _ _ _ (lookup_insert_eq _ _ _)). unfold cfs_faio_io_send_file. cbn [sfs set_jobs set_mgr set_req set_fds sf_chain_task]. by rewrite S2, Hno.
Qed.

Lemma second_read_undefined_witness : exists i w', let r := brk (mgr read_world) in
  run 1 ([Accept [NnConn.Rx read_header] (NnConn.Tx 8 :: takes); Readable r; Writable r] ++ DnRequestOk.rounds i ++ [Work 0 DnRequestOk.all_of_it; Posted]) read_world = Some w' /\
  let r' := brk (mgr w') in run 1 [Accept [NnConn.Rx read_header] (NnConn.Tx 8 :: takes); Readable r'; Writable r'; Work 0 None] w' = None.
Proof.
  destruct (second_read_undefined 1 read_world read_header [] 8 takes sample_block_info [1; 2; 3] [NnConn.Tx 8] (DnRequestOk.idle_calm _) idle_clean (lookup_empty _) read_asks ltac:(lia) ltac:(vm_compute; reflexivity) ltac:(cbn; lia)) as (i & w' & E & H). exists i, w'. split; [exact E|].
  exact (H read_header [] 8 takes sample_block_info [1; 2; 3] None read_asks ltac:(lia)).
Defined.

(** A client that asked for a block and closes its side of the connection
    while a worker sends the block makes the event loop close the request
    ([dn_request_check_connection]): the worker then uses the structure for
    sendfile of the request, which was freed with the pool. *)
Theorem hangup_while_sending_undefined rbl w hd rx m0 tx bi d res : calm w -> clean (mgr w) -> asks w hd bi d -> 8 <= m0 ->
  let r := brk (mgr w) in
  is_Some (run rbl [Accept (NnConn.Rx hd :: NnConn.RxEof :: rx) (NnConn.Tx m0 :: tx); Readable r; Writable r; Readable r] w) /\
  run rbl [Accept (NnConn.Rx hd :: NnConn.RxEof :: rx) (NnConn.Tx m0 :: tx); Readable r; Writable r; Readable r; Work 0 res] w = None.
Proof.
  intros HC HCl HA Hm0 r. destruct (read_started rbl w hd (NnConn.RxEof :: rx) m0 tx bi d HC HCl HA Hm0) as (w3 & f & sf & fd2 & a & F & k & t & Q & E & HS & HJ & HQ & HF & Hne & Hpos & _ & _ & Ek).
  fold r in E, HS. injection Ek as K7 K8 K9. destruct HS as [H0 H2 H3 H4 H5 (M1 & M2 & M3 & M4 & M5) _ [T1 T2] H9]. injection H2 as K1 K2 K3 K4 K5 K6. injection H4 as W1 W2 W3 W4 W5. injection T2 as U1 U2 U3 U4 U5.
  assert (exists w4, step rbl (Readable r) w3 = Some w4 /\ step rbl (Work 0 res) w4 = None) as (w4 & E4 & E5).
  { cbn [step]. rewrite H0, lookup_insert_eq, K7. cbn [active awake]. set (k1 := set_rev k _). unfold read_handler. change (started k1) with (started k). rewrite K8. change (read_event_handler k1) with (read_event_handler k). rewrite K9. cbn [run_handler]. unfold dn_request_check_connection. cbn [reqs set_req]. rewrite (option_bind_eq _ _ _ (lookup_insert_eq _ _ _)).
    change (timedout (rev k1)) with false. cbn iota. cbn [fds set_req]. change (c_fd k1) with (c_fd k). rewrite K1, H3, lookup_insert_eq. destruct (free_below_idle (mgr w3) f t M1 M4 T1 M3) as (m & Em & _ & _ & _ & Hft & _ & _).
    assert (fio k1 = f /\ c_fd k1 = new_fd (fds w) /\ store_fd k1 = fd2 /\ in_pool k1 = [sf; a]) as (F1 & F2 & F3 & F4) by done.
    erewrite (close_eq (set_req w3 r k1) r k1 m _ _ _ (At (Posix.resolve (DnStorage.b_path bi)))); rewrite ?F1, ?F2, ?F3; try done; try lia; [|cbn; by rewrite lookup_insert_eq|cbn; by rewrite H3, lookup_insert_eq|cbn; by rewrite H3, lookup_insert_ne].
    eexists. split; [reflexivity|]. cbn [step jobs drop_req set_gone set_fds pool_destroy set_mem set_sfs set_mgr set_req]. rewrite HJ. cbn [lookup list_lookup delete list_delete]. unfold run_job. cbn [mgr set_jobs drop_req set_gone set_fds pool_destroy set_mem set_sfs set_mgr set_req fios set_store].
    rewrite (option_bind_eq _ _ _ Hft). unfold cfs_faio_io_send_file. cbn [sfs set_jobs drop_req set_gone set_fds pool_destroy set_mem set_sfs set_mgr set_req sf_chain_task cleared]. rewrite U1, lookup_deletes, F4, bool_decide_true by (by left). done. }
  split.
  - change [Accept (NnConn.Rx hd :: NnConn.RxEof :: rx) (NnConn.Tx m0 :: tx); Readable r; Writable r; Readable r] with ([Accept (NnConn.Rx hd :: NnConn.RxEof :: rx) (NnConn.Tx m0 :: tx); Readable r; Writable r] ++ [Readable r]). rewrite (DnRequestOk.run_app _ _ _ _ _ E). cbn [run]. rewrite (option_bind_eq _ _ _ E4). by eexists.
  - change [Accept (NnConn.Rx hd :: NnConn.RxEof :: rx) (NnConn.Tx m0 :: tx); Readable r; Writable r; Readable r; Work 0 res] with ([Accept (NnConn.Rx hd :: NnConn.RxEof :: rx) (NnConn.Tx m0 :: tx); Readable r; Writable r] ++ [Readable r; Work 0 res]). rewrite (DnRequestOk.run_app _ _ _ _ _ E). cbn [run]. by rewrite (option_bind_eq _ _ _ E4), E5.
Qed.

Lemma hangup_while_sending_undefined_witness : let r := brk (mgr read_world) in run 1 [Accept [NnConn.Rx read_header; NnConn.RxEof] (NnConn.Tx 8 :: takes); Readable r; Writable r; Readable r; Work 0 None] read_world = None.
Proof. exact (proj2 (hangup_while_sending_undefined 1 read_world read_header [] 8 takes sample_block_info [1; 2; 3] None (DnRequestOk.idle_calm _) idle_clean read_asks ltac:(lia))). Defined.

(** A request that has received a part of its block, with its task and its buffer. *)
Record receiving (w : world) (r : Z) (k : dn_request_t) (t : file_io_t) (bu : buffer_t) : Prop := {
  rc_req : reqs w !! r = Some k;
  rc_task : fio k ∈ task_used (mgr w) /\ fio k ∉ posted_events w ++ posted_bad_events w /\ fios (mgr w) !! fio k = Some t /\ 0 < fio k < brk (mgr w);
  rc_buf : b t = input k /\ bufs (mgr w) !! input k = Some bu /\ input k ∈ in_pool k /\ input k < brk (mgr w);
  rc_start : start bu <> 0 /\ start bu ∉ heap (mgr w);
  rc_sizes : 0 < f_size (mgr w) /\ 0 <= free (mgr w) < 2 ^ 62 /\ 0 < f_idle (mgr w) < 2 ^ 32 }.

Lemma cfs_close_mgr w fd : mgr (cfs_close w fd) = mgr w.
Proof. unfold cfs_close. by destruct (fds w !! fd) as [[]|]. Qed.

(** A request that stores a block and ends early, with its task pointing
    to the buffer of the request ([r->fio->b = r->input]), spoils the stock of
    tasks.  Below the idle limit [dn_request_close] puts the task back, and
    the next allocation, which takes this task, resets a buffer that was freed
    with the pool of the connection.  At the idle limit the task is given
    back to the heap at once, and with it memory that came from the pool. *)
Theorem closed_write_spoils_task w r k t bu : receiving w r k t bu ->
  (free (mgr w) < f_idle (mgr w) -> exists w', dn_request_close w r = Some w' /\ cfs_fio_manager_alloc (mgr w') = None) /\
  (free (mgr w) = f_idle (mgr w) -> dn_request_close w r = None).
Proof.
  intros [H1 (T1 & T2 & T3 & T4) (B1 & B2 & B3 & B4) [S1 S2] (Z1 & Z2 & Z3)]. unfold dn_request_close. rewrite (option_bind_eq _ _ _ H1), (proj2 (Z.eqb_neq _ _)) by lia. rewrite bool_decide_false by done.
  unfold cfs_fio_manager_free. rewrite bool_decide_true, (option_bind_eq _ _ _ T3) by done. unfold reset_buffer. rewrite B1, (option_bind_eq _ _ _ B2), (option_bind_eq _ _ _ eq_refl). cbv zeta. set (m1 := set_counts _ _ _ _).
  assert (free m1 = free (mgr w) + 1) as Ef by (cbn; by rewrite FioOk.u64_small by lia). assert (f_idle m1 = f_idle (mgr w)) as Ei by done. rewrite Ef, Ei.
  split; intros Hid; [rewrite (proj2 (Z.ltb_ge (f_idle (mgr w)) (free (mgr w) + 1))) by lia|rewrite (proj2 (Z.ltb_lt (f_idle (mgr w)) (free (mgr w) + 1))) by lia].
  - cbn [mbind option_bind]. eexists. split; [reflexivity|]. assert (forall w c, mgr (drop_req (if 0 <? c then cfs_close w c else w) r) = mgr w) as -> by (intros v c; cbn; destruct (0 <? c); [apply cfs_close_mgr|done]).
    set (v := if 0 <? store_fd k then _ else _). assert (mgr v = m1) as Ev by (subst v; destruct (0 <? store_fd k); [by rewrite cfs_close_mgr|done]). unfold pool_destroy. cbn [mgr set_mem set_sfs set_mgr]. rewrite Ev.
    set (m2 := set_store m1 _ _). unfold cfs_fio_manager_alloc. change (freeq m2) with (fio k :: freeq (mgr w)). cbn iota. destruct (get_task_first m2 (fio k) (freeq (mgr w)) (input k) Z1 eq_refl ltac:(apply T4) B4) as (m3 & -> & E1 & E2).
    assert (fios m3 !! fio k = Some (cleared t)) as E3 by (rewrite E1; cbn; by rewrite lookup_insert_eq). rewrite (option_bind_eq _ _ _ E3). cbn [b cleared]. unfold reset_buffer. rewrite B1, E2. cbn [bufs set_store m2]. by rewrite lookup_deletes, bool_decide_true.
  - unfold cfs_fio_manager_indeed_free. replace (free (mgr w) + 1 - f_idle (mgr w)) with 1 by lia. rewrite Ef, Ei. replace (free (mgr w) + 1 - f_idle (mgr w)) with 1 by lia. change (Z.shiftr 1 2 =? 0) with true. cbn iota. change (u64 1 =? 0) with false. cbn iota. change (Z.to_nat (u64 1)) with 1%nat.
    cbn [indeed_loop]. change (freeq m1) with (fio k :: freeq (mgr w)). cbn iota. assert (fios m1 !! fio k = Some (cleared t)) as E1 by (cbn; by rewrite lookup_insert_eq). rewrite (option_bind_eq _ _ _ E1). cbn [b cleared]. rewrite B1.
    assert (bufs m1 !! input k = Some (buffer_reset bu)) as E2 by (cbn; by rewrite lookup_insert_eq). rewrite (option_bind_eq _ _ _ E2). unfold memory_free. cbn [start buffer_reset set_window heap set_freeq]. change (heap m1) with (heap (mgr w)). by rewrite (proj2 (Z.eqb_neq _ _)), bool_decide_false by done.
Qed.

(** One byte of the block has been stored; the client has gone. *)
Definition half_way : world :=
  let r := brk DnRequestOk.idle_manager in
  match run 1 [Accept [NnConn.Rx DnRequestOk.write_header; NnConn.Rx [4]; NnConn.RxAgain; NnConn.RxEof] [NnConn.Tx 8]; Readable r; Writable r; Work 0 (Some 8)] DnRequestOk.idle_world with
  | Some w => set_posted w [] []
  | None => DnRequestOk.idle_world
  end.
Definition half_k : dn_request_t := default (fresh_request 0) (reqs half_way !! brk DnRequestOk.idle_manager).
Definition half_t : file_io_t := default (Task 0 0 0 0 0 No_handler 0 AIO_OK 0 0) (fios (mgr half_way) !! fio half_k).
Definition half_b : buffer_t := default (Buf 0 0 0 0 0 0 false false false) (bufs (mgr half_way) !! input half_k).

Lemma closed_write_spoils_task_witness : let r := brk DnRequestOk.idle_manager in
  done half_k = 0 /\ exists w', dn_request_close half_way r = Some w' /\ cfs_fio_manager_alloc (mgr w') = None.
Proof.
  intros r. split; [vm_compute; reflexivity|]. apply (closed_write_spoils_task half_way r half_k half_t half_b); [|vm_compute; reflexivity].
  split; [vm_compute; reflexivity|split_and!; [by_decide|by_decide|vm_compute; reflexivity|by_decide|by_decide]|split_and!; [vm_compute; reflexivity|vm_compute; reflexivity|by_decide|by_decide]|split; by_decide|split_and!; by_decide].
Defined.

End DnReadOk.
