(* ===== verification/Client.v ===== *)
(** * The client: src/client/dfscli_main.c, dfscli_put.c, dfscli_get.c

    The command line, the requests to the namenode, and the transfers to and
    from the datanodes.  The namenode is a parameter, what it answers to a
    frame on a descriptor; a connection to a datanode is the answers that
    [send], [sendfile], [recv] and [splice] give on it, in order, and the
    calls block, so that a socket with no more answers is closed by its peer.
    The threads of a put are steps that interleave. *)

From Stdlib Require Import ZArith Lia Bool String.
From stdpp Require Import base numbers gmap option list.
From S2P Require Import Prelude Libc CString Mem Buffer Task Hashtable Cache Stdio Posix NnTypes Permission NnPath NnConn DnStorage DnService SysIo DnRequest.

Module Client.
Import NnTypes Mem Task DnService.

Definition PATH_LEN : nat := 256.
Definition SLASH : Z := 47.

(** ** Paths *)

Fixpoint isPathValid (path : list Z) : bool :=
  match path with
  | [] => true
  | c :: path' =>
      if (c =? 92) || (c =? 58) || (c =? 42) || (c =? 63) || (c =? 34) || (c =? 60) || (c =? 62) || (c =? 124)
      then false else isPathValid path'
  end.

(** [*d++ = c] in an array. *)
Definition put (dst : list Z) (d : nat) (c : Z) : option (list Z * nat) :=
  if (d <? length dst)%nat then Some (<[d := c]> dst, S d) else None.

Fixpoint valid_loop (s : list Z) (l : Z) (dst : list Z) (d : nat) : option (list Z * nat * Z) :=
  match s with
  | [] => Some (dst, d, l)
  | c :: s' =>
      if (l =? SLASH) && (c =? SLASH) then valid_loop s' c dst d
      else
        '(dst, d) ← (if l =? SLASH then put dst d l else Some (dst, d));
        '(dst, d) ← put dst d c;
        valid_loop s' (hd 0 s') dst d
  end.

(** The array [dst], of zeros before. *)
Definition getValidPath (src : list Z) : option (list Z) :=
  let dst := replicate PATH_LEN 0 in
  if bool_decide (src = [SLASH]) || bool_decide (src = [SLASH; SLASH]) then Some (<[0%nat := SLASH]> dst)
  else
    '(dst, d, l) ← valid_loop src SLASH dst 0;
    if l =? SLASH then '(dst, _) ← put dst d 0; Some dst else Some dst.

(** The string in an array; without a NUL reading it leaves the array. *)
Definition str (a : list Z) : option (list Z) := if (Libc.strlen a <? length a)%nat then Some (Libc.cstr a) else None.

(** [strcpy] to an array of [cap] bytes. *)
Definition strcpy (cap : nat) (s : list Z) : option (list Z) := if (length s <? cap)%nat then Some s else None.

(** ** Requests to the namenode *)

(** [key] is an array of zeros before. *)
Definition keyEncode (path : list Z) : option (list Z) :=
  let e := CString.string_base64_encode path in
  if (length e <=? KEY_LEN)%nat then Some (e ++ replicate (KEY_LEN - length e) 0) else None.

(** What [printf] shows of [path], an array of zeros before. *)
Definition keyDecode (key : list Z) : list Z :=
  match CString.string_base64_decode (Libc.cstr key) with Some p => Libc.cstr p | None => [] end.

(** The names of the user and of its group, as [getpwuid] and [getgrgid] say. *)
Record user_t := User { pw_name : list Z; gr_name : list Z }.

(** The two names in their arrays. *)
Definition getUserInfo (u : user_t) : option (list Z * list Z) :=
  n ← strcpy OWNER_LEN (pw_name u);
  g ← strcpy GROUP_LEN (gr_name u);
  Some (n ++ replicate (OWNER_LEN - length n) 0, g ++ replicate (GROUP_LEN - length g) 0).

(** A zeroed task with its command, key, user and permission; [len] bytes of
    data are at [data]. *)
Definition user_task (u : user_t) (cmd : Z) (path : list Z) (permission len data : Z) : option task_t :=
  key ← keyEncode path;
  '(user, group) ← getUserInfo u;
  Some (Tsk cmd 0 0 0 0 0 key user group permission 0 len 0 data).

(** The lines a command prints about an answer. *)
Inductive message := Is_exist | Parent_not_directory | Permission_deny | Use_rm | Use_rmr | Doesnt_exist | Is_creating | Not_a_file | No_datanode | Other_ret (ret : Z).

Record rw_context_t := Ctx {
  src : list Z; dst : list Z; nn_fd : Z; dn_fd : list Z; blk_sz : Z; blk_rep : Z; blk_id : Z; namespace_id : Z;
  dn_num : Z; dn_index : Z; dn_ips : list (list Z); res : list Z; fsize : Z; write_done_blk_rep : Z
}.

Record create_resp_info_t := Resp { r_blk_id : Z; r_blk_sz : Z; r_namespace_id : Z; r_dn_num : Z; r_dn_ips : list (list Z) }.

Definition sizeof_resp : nat := 128.

(** The bytes of the answer over a zeroed structure. *)
Definition resp_info (bs : list Z) : option create_resp_info_t :=
  if (length bs <=? sizeof_resp)%nat then
    let b := bs ++ replicate (sizeof_resp - length bs) 0 in
    Some (Resp (le_dec (Task.field b 0 8)) (le_dec (Task.field b 8 8)) (le_dec (Task.field b 16 8)) (s16 (le_dec (Task.field b 24 2)))
      [Task.field b 26 32; Task.field b 58 32; Task.field b 90 32])
  else None.

(** The bytes of a [create_blk_info_t]. *)
Definition blk_info (c : rw_context_t) : list Z := le_enc 8 (blk_sz c) ++ le_enc 2 (blk_rep c) ++ replicate 6 0.

(** An inode of a listing, the fields that are shown. *)
Record shown := Shown { sh_directory : bool; sh_permission : list Z; sh_replication : Z; sh_owner : list Z; sh_group : list Z; sh_length : Z; sh_seconds : Z; sh_path : list Z }.

Definition sizeof_inode : nat := 864.

(** The seconds that [getTimeStr] converts to a date. *)
Definition getTimeStr (msec : Z) : Z := msec / 1000 + 28800.

(** [len] is an [int]; the structure is copied in full whatever [len] is. *)
Fixpoint showDirsFiles (fuel : nat) (m : mem) (p len : Z) : option (list shown) :=
  match fuel with
  | O => None
  | S fuel' =>
      if len <=? 0 then Some [] else
      b ← rd m p sizeof_inode;
      permission ← Permission.get_permission (s16 (le_dec (Task.field b 264 2)));
      rest ← showDirsFiles fuel' m (p + Z.of_nat sizeof_inode) (len - Z.of_nat sizeof_inode);
      Some (Shown (Z.odd (le_dec (Task.field b 320 4))) permission (s16 (le_dec (Task.field b 344 2))) (Libc.cstr (Task.field b 266 16)) (Libc.cstr (Task.field b 282 16))
        (s64 (le_dec (Task.field b 328 8))) (getTimeStr (le_dec (Task.field b 304 8))) (keyDecode (Task.field b 0 256)) :: rest)
  end.

Section requests.

Context {P : Type}.

(** [dial_nn]: [dfs_connect] to the namenode; [net]: an exchange on a
    descriptor. *)
Variable dial_nn : P -> P * Z.
Variable net : P -> Z -> list Z -> P * exchange.
Variable u : user_t.
Variable memory_ok : bool.

(** A request whose answer is read to [rBuf], with what it makes of [ret]. *)
Definition simple_request (cmd permission : Z) (path : list Z) (say : Z -> message) (p : P) : option (Z * option message * P) :=
  let '(p, fd) := dial_nn p in
  if fd <? 0 then Some (DFS_ERROR, None, p) else
  t ← user_task u cmd path permission 0 0;
  frame ← encode_out t [];
  let '(p, e) := net p fd frame in
  match e with
  | WriteErr | ReadErr => Some (DFS_ERROR, None, p)
  | Answer bs => in_t ← answer_task bs; Some (DFS_OK, if ret in_t =? DFS_OK then None else Some (say (ret in_t)), p)
  end.

Definition dfscli_mkdir (path : list Z) (p : P) : option (Z * option message * P) :=
  simple_request NN_MKDIR 755 path (fun r =>
    if r =? KEY_EXIST then Is_exist else if r =? NOT_DIRECTORY then Parent_not_directory
    else if r =? PERMISSION_DENY then Permission_deny else Other_ret r) p.

Definition dfscli_rmr (path : list Z) (p : P) : option (Z * option message * P) :=
  simple_request NN_RMR 0 path (fun r =>
    if r =? NOT_DIRECTORY then Use_rm else if r =? KEY_NOTEXIST then Doesnt_exist
    else if r =? PERMISSION_DENY then Permission_deny else Other_ret r) p.

Definition dfscli_rm (path : list Z) (p : P) : option (Z * option message * P) :=
  simple_request NN_RM 0 path (fun r =>
    if r =? NOT_FILE then Use_rmr else if r =? KEY_NOTEXIST then Doesnt_exist
    else if r =? PERMISSION_DENY then Permission_deny else Other_ret r) p.

(** The answer in memory of its own: [None] when there is none. *)
Definition own_answer (bs : list Z) : option (option (mem * task_t)) := if memory_ok then heap_answer bs else Some None.

Definition dfscli_ls (path : list Z) (p : P) : option (Z * option message * list shown * P) :=
  let '(p, fd) := dial_nn p in
  if fd <? 0 then Some (DFS_ERROR, None, [], p) else
  t ← user_task u NN_LS path 0 0 0;
  frame ← encode_out t [];
  let '(p, e) := net p fd frame in
  match e with
  | WriteErr | ReadErr => Some (DFS_ERROR, None, [], p)
  | Answer bs =>
      a ← own_answer bs;
      match a with
      | None => Some (DFS_ERROR, None, [], p)
      | Some (m, in_t) =>
          if negb (ret in_t =? DFS_OK) then
            let r := ret in_t in
            Some (DFS_OK, Some (if r =? KEY_NOTEXIST then Doesnt_exist else if r =? PERMISSION_DENY then Permission_deny else Other_ret r), [], p)
          else if negb (data in_t =? 0) && (0 <? data_len in_t)
          then ls ← showDirsFiles (S (Z.to_nat (data_len in_t))) m (data in_t) (data_len in_t); Some (DFS_OK, None, ls, p)
          else Some (DFS_OK, None, [], p)
      end
  end.

(** A request with the block size, on the descriptor [fd]; [take_]: what an
    answer with data changes. *)
Definition block_request (t : task_t) (fd : Z) (take_ : rw_context_t -> create_resp_info_t -> rw_context_t) (say : Z -> message)
    (c : rw_context_t) (p : P) : option (Z * option message * rw_context_t * P) :=
  frame ← encode_out t (blk_info c);
  let '(p, e) := net p fd frame in
  match e with
  | WriteErr | ReadErr => Some (DFS_ERROR, None, c, p)
  | Answer bs =>
      a ← own_answer bs;
      match a with
      | None => Some (DFS_ERROR, None, c, p)
      | Some (m, in_t) =>
          if negb (ret in_t =? DFS_OK) then Some (DFS_ERROR, Some (say (ret in_t)), c, p)
          else if negb (data in_t =? 0) && (0 <? data_len in_t)
          then b ← rd m (data in_t) (Z.to_nat (data_len in_t)); r ← resp_info b; Some (DFS_OK, None, take_ c r, p)
          else Some (DFS_OK, None, c, p)
      end
  end.

Definition dfs_create (c : rw_context_t) (p : P) : option (Z * option message * rw_context_t * P) :=
  let '(p, fd) := dial_nn p in
  if fd <? 0 then Some (DFS_ERROR, None, c, p) else
  t ← user_task u NN_CREATE (dst c) 755 16 RBI;
  block_request t fd
    (fun c r => Ctx (src c) (dst c) fd (dn_fd c) (blk_sz c) (blk_rep c) (r_blk_id r) (r_namespace_id r) (r_dn_num r) (dn_index c) (r_dn_ips r) (res c) (fsize c) (write_done_blk_rep c))
    (fun r => if r =? KEY_EXIST then Is_exist else if r =? KEY_STATE_CREATING then Is_creating else if r =? NOT_DIRECTORY then Parent_not_directory
       else if r =? PERMISSION_DENY then Permission_deny else if r =? NOT_DATANODE then No_datanode else Other_ret r) c p.

Definition dfs_open (c : rw_context_t) (p : P) : option (Z * option message * rw_context_t * P) :=
  let '(p, fd) := dial_nn p in
  if fd <? 0 then Some (DFS_ERROR, None, c, p) else
  t ← user_task u NN_OPEN (src c) 755 16 RBI;
  block_request t fd
    (fun c r => Ctx (src c) (dst c) fd (dn_fd c) (r_blk_sz r) (blk_rep c) (r_blk_id r) (r_namespace_id r) (r_dn_num r) (dn_index c) (r_dn_ips r) (res c) (fsize c) (write_done_blk_rep c))
    (fun r => if r =? KEY_NOTEXIST then Doesnt_exist else if r =? KEY_STATE_CREATING then Is_creating else if r =? NOT_FILE then Not_a_file
       else if r =? PERMISSION_DENY then Permission_deny else Other_ret r) c p.

(** Neither user nor permission are in the task. *)
Definition plain_task (cmd ret : Z) (path : list Z) (len data : Z) : option task_t :=
  key ← keyEncode path;
  Some (Tsk cmd ret 0 0 0 0 key (replicate OWNER_LEN 0) (replicate GROUP_LEN 0) 0 0 len 0 data).

Definition dfs_get_additional_blk (c : rw_context_t) (p : P) : option (Z * option message * rw_context_t * P) :=
  t ← plain_task NN_GET_ADDITIONAL_BLK 0 (dst c) 16 RBI;
  block_request t (nn_fd c)
    (fun c r => Ctx (src c) (dst c) (nn_fd c) (dn_fd c) (blk_sz c) (blk_rep c) (r_blk_id r) (r_namespace_id r) (r_dn_num r) (dn_index c) (r_dn_ips r) (res c) (fsize c) (write_done_blk_rep c))
    Other_ret c p.

Definition dfs_write_next_blk (c : rw_context_t) (p : P) : option (Z * option message * rw_context_t * P) :=
  '(rc, msg, c, p) ← dfs_get_additional_blk c p;
  Some (if rc =? DFS_OK then DFS_OK else DFS_ERROR, msg, c, p).

(** [ret] is an [int], [write_done_blk_rep] a [short]. *)
Definition dfs_close (c : rw_context_t) (p : P) : option (Z * option message * P) :=
  t ← plain_task NN_CLOSE (write_done_blk_rep c) (dst c) 8 RBI;
  frame ← encode_out t (le_enc 8 (fsize c));
  let '(p, e) := net p (nn_fd c) frame in
  match e with
  | WriteErr | ReadErr => Some (DFS_ERROR, None, p)
  | Answer bs => in_t ← answer_task bs; Some (if ret in_t =? DFS_OK then (DFS_OK, None, p) else (DFS_ERROR, Some (Other_ret (ret in_t)), p))
  end.

End requests.

(** ** Connections to the datanodes *)

Definition OP_STATUS_SUCCESS : Z := 0.

(** What [sendfile] gives: how much it takes, or the error. *)
Inductive sf_t := Sf (n : Z) | SfAgain | SfReset | SfErr.

(** The result of [send] for the header, of [sendfile], of the calls that
    receive, of [pipe] and of [splice] to the file ([None]: an error). *)
Record dn_conn := Dc { hdr : option Z; sends : list sf_t; rx : list NnConn.rx_t; pipe_ok : bool; outs : list (option nat) }.

(** Receives at most [n] bytes: [Some []] at the end, [None] on an error. *)
Definition recv (n : nat) (rx : list NnConn.rx_t) : option (list Z) * list NnConn.rx_t :=
  match rx with
  | [] | NnConn.RxEof :: _ => (Some [], rx)
  | NnConn.Rx bs :: rx' => (Some (take n bs), if (n <? length bs)%nat then NnConn.Rx (drop n bs) :: rx' else rx')
  | _ :: rx' => (None, rx')
  end.

(** A [data_transfer_header_rsp_t] over zeros is received and accepted. *)
Definition recv_rsp (rx : list NnConn.rx_t) : bool * list NnConn.rx_t :=
  let '(got, rx) := recv 8 rx in
  match got with
  | None => (false, rx)
  | Some bs =>
      let rsp := bs ++ replicate (8 - length bs) 0 in
      let op_status := s32 (le_dec (Task.field rsp 0 4)) in
      let err := s32 (le_dec (Task.field rsp 4 4)) in
      (negb (negb (op_status =? OP_STATUS_SUCCESS) && negb (err =? DFS_OK)), rx)
  end.

(** The bytes of a [data_transfer_header_t]. *)
Definition header (op namespace_id block_id len : Z) : list Z :=
  le_enc 4 op ++ le_enc 4 0 ++ le_enc 8 namespace_id ++ le_enc 8 block_id ++ le_enc 8 0 ++ le_enc 8 0 ++ le_enc 8 len.

(** The result, an [int], and how much has left; a [sendfile] without an entry
    takes the rest. *)
Fixpoint write_blk_to_dn (fsize done : Z) (sends : list sf_t) : Z * Z :=
  if fsize <=? 0 then (s32 done, done) else
  match sends with
  | [] => (s32 (done + fsize), done + fsize)
  | Sf n :: sends' => let send_sz := Z.min n fsize in write_blk_to_dn (fsize - send_sz) (done + send_sz) sends'
  | SfAgain :: sends' | SfReset :: sends' => write_blk_to_dn fsize done sends'
  | SfErr :: _ => (DFS_ERROR, done)
  end.

(** The thread once it is connected: [res] and what the datanode was sent. *)
Definition send_block (d : list Z) (c : rw_context_t) (k : dn_conn) : Z * list Z :=
  let blk_sz := Z.of_nat (length d) in
  match hdr k with
  | None => (DFS_ERROR, [])
  | Some n =>
      let wire := take (Z.to_nat n) (header DnRequest.OP_WRITE_BLOCK (namespace_id c) (blk_id c) blk_sz) in
      let '(ok, rx) := recv_rsp (rx k) in
      if negb ok then (DFS_ERROR, wire) else
      let '(write_sz, done) := write_blk_to_dn blk_sz 0 (sends k) in
      let wire := wire ++ take (Z.to_nat done) d in
      if negb (write_sz =? blk_sz) then (DFS_ERROR, wire) else
      let '(ok, _) := recv_rsp rx in
      (if ok then DFS_OK else DFS_ERROR, wire)
  end.

Definition set_res (c : rw_context_t) (i : Z) (r : Z) : option rw_context_t :=
  if (0 <=? i) && (i <? Z.of_nat (length (res c)))
  then Some (Ctx (src c) (dst c) (nn_fd c) (dn_fd c) (blk_sz c) (blk_rep c) (blk_id c) (namespace_id c) (dn_num c) (dn_index c) (dn_ips c) (<[Z.to_nat i := r]> (res c)) (fsize c) (write_done_blk_rep c))
  else None.
Definition set_fsize (c : rw_context_t) (n : Z) : rw_context_t :=
  Ctx (src c) (dst c) (nn_fd c) (dn_fd c) (blk_sz c) (blk_rep c) (blk_id c) (namespace_id c) (dn_num c) (dn_index c) (dn_ips c) (res c) n (write_done_blk_rep c).
Definition set_index (c : rw_context_t) (i : Z) : rw_context_t :=
  Ctx (src c) (dst c) (nn_fd c) (dn_fd c) (blk_sz c) (blk_rep c) (blk_id c) (namespace_id c) (dn_num c) i (dn_ips c) (res c) (fsize c) (write_done_blk_rep c).
Definition inc_done (c : rw_context_t) : rw_context_t :=
  Ctx (src c) (dst c) (nn_fd c) (dn_fd c) (blk_sz c) (blk_rep c) (blk_id c) (namespace_id c) (dn_num c) (dn_index c) (dn_ips c) (res c) (fsize c) (s16 (write_done_blk_rep c + 1)).

(** ** The threads of a put *)

(** [dfs_write_blk] with its threads: how many are created and joined, the
    index each has read, which have ended, what the datanodes were sent, and
    the result. *)
Record put_t := Put { ctx : rw_context_t; spawned : Z; picked : gmap nat Z; ended : list nat; joined : Z; wires : list (list Z * list Z); result : option Z }.

(** [Spawn] and [Join] are turns of the two loops, with the success of the
    calls; [Pick] is the read of [dn_index] at the start of a thread, and
    [Transfer] the rest of the thread. *)
Inductive put_event := Spawn (ok : bool) | Pick (i : nat) | Transfer (i : nat) | Join (ok : bool).

Section threads.

(** The file [src], if it can be opened, and the connection that thread [i]
    gets to an address. *)
Variable file : option (list Z).
Variable dial : nat -> list Z -> option dn_conn.

(** A thread that has read [idx]. *)
Definition write_blk_start (i : nat) (idx : Z) (c : rw_context_t) : option (rw_context_t * list (list Z * list Z)) :=
  match file with
  | None => c ← set_res c idx DFS_ERROR; Some (c, [])
  | Some d =>
      if idx <? 0 then None else
      ip ← dn_ips c !! Z.to_nat idx;
      let ip := Libc.cstr ip in
      match dial i ip with
      | None => c ← set_res c idx DFS_ERROR; Some (c, [])
      | Some k =>
          let '(r, wire) := send_block d c k in
          c ← set_res (set_fsize c (Z.of_nat (length d))) idx r; Some (c, [(ip, wire)])
      end
  end.

(** [None]: the event cannot occur now, or an array is overrun. *)
Definition put_step (e : put_event) (s : put_t) : option put_t :=
  match e with
  | Spawn ok =>
      if negb (bool_decide (result s = None) && (spawned s <? dn_num (ctx s))) then None else
      let c := set_index (ctx s) (spawned s) in
      if 3 <=? spawned s then None
      else if ok then Some (Put c (spawned s + 1) (picked s) (ended s) (joined s) (wires s) None)
      else Some (Put c (spawned s) (picked s) (ended s) (joined s) (wires s) (Some DFS_ERROR))
  | Pick i =>
      if negb ((Z.of_nat i <? spawned s) && bool_decide (picked s !! i = None)) then None
      else Some (Put (ctx s) (spawned s) (<[i := dn_index (ctx s)]> (picked s)) (ended s) (joined s) (wires s) (result s))
  | Transfer i =>
      idx ← picked s !! i;
      if bool_decide (i ∈ ended s) then None else
      '(c, ws) ← write_blk_start i idx (ctx s);
      Some (Put c (spawned s) (picked s) (i :: ended s) (joined s) (wires s ++ ws) (result s))
  | Join ok =>
      if negb (bool_decide (result s = None) && (dn_num (ctx s) <=? spawned s) && (joined s <? dn_num (ctx s))) then None else
      let i := Z.to_nat (joined s) in
      if negb (bool_decide (i ∈ ended s)) then None else
      if negb ok then Some (Put (ctx s) (spawned s) (picked s) (ended s) (joined s) (wires s) (Some DFS_ERROR)) else
      r ← res (ctx s) !! i;
      if negb (r =? DFS_OK) then Some (Put (ctx s) (spawned s) (picked s) (ended s) (joined s) (wires s) (Some DFS_ERROR))
      else Some (Put (inc_done (ctx s)) (spawned s) (picked s) (ended s) (joined s + 1) (wires s)
        (if joined s + 1 <? dn_num (ctx s) then None else Some DFS_OK))
  end.

Definition put_start (c : rw_context_t) : put_t := Put c 0 ∅ [] 0 [] (if 0 <? dn_num c then None else Some DFS_OK).

Fixpoint dfs_write_blk (evs : list put_event) (s : put_t) : option put_t :=
  match evs with
  | [] => Some s
  | e :: evs' => s ← put_step e s; dfs_write_blk evs' s
  end.

End threads.

(** ** Reading a block *)

(** The bytes of the pipe go to the file; a [splice] without an entry moves
    all of them. *)
Fixpoint drain (outs : list (option nat)) (bs file : list Z) : bool * list Z * list (option nat) :=
  match bs, outs with
  | [], _ => (true, file, outs)
  | _, [] => (true, file ++ bs, [])
  | _, None :: outs' => (false, file, outs')
  | _, Some n :: outs' => drain outs' (drop n bs) (file ++ take n bs)
  end.

(** The result, an [int], the file, and what is left on the socket. *)
Fixpoint splice_loop (fuel : nat) (rx : list NnConn.rx_t) (outs : list (option nat)) (rc total : Z) (file : list Z) : option (Z * list Z * list NnConn.rx_t) :=
  match fuel with
  | O => None
  | S fuel' =>
      if rc <=? 0 then Some (s32 total, file, rx) else
      let '(got, rx) := recv (Z.to_nat (Z.min rc 16384)) rx in
      match got with
      | None | Some [] => Some (DFS_ERROR, file, rx)
      | Some bs =>
          let '(ok, file, outs) := drain outs bs file in
          if negb ok then Some (DFS_ERROR, file, rx)
          else let nread := Z.of_nat (length bs) in splice_loop fuel' rx outs (rc - nread) (total + nread) file
      end
  end.

Definition do_recvfile_splice (k : dn_conn) (rx : list NnConn.rx_t) (count : Z) : option (Z * list Z * list NnConn.rx_t) :=
  if negb (pipe_ok k) then Some (DFS_ERROR, [], rx)
  else splice_loop (S (Z.to_nat count)) rx (outs k) count 0 [].

Definition unlink (f : Posix.fs) (p : list Z) : Posix.fs := match Posix.unlink f p with Some f => f | None => f end.

(** The result, the files, and what the datanode was sent. *)
Definition dfs_read_blk (dial : list Z -> option dn_conn) (c : rw_context_t) (f : Posix.fs) : option (Z * Posix.fs * list Z) :=
  match Posix.creat f (dst c) with
  | None => Some (DFS_ERROR, f, [])
  | Some f =>
      ip ← dn_ips c !! 0%nat;
      match dial (Libc.cstr ip) with
      | None => Some (DFS_ERROR, unlink f (dst c), [])
      | Some k =>
          let fsize := s64 (blk_sz c) in
          match hdr k with
          | None => Some (DFS_ERROR, unlink f (dst c), [])
          | Some n =>
              let wire := take (Z.to_nat n) (header DnRequest.OP_READ_BLOCK (namespace_id c) (blk_id c) fsize) in
              let '(ok, rx) := recv_rsp (rx k) in
              if negb ok then Some (DFS_ERROR, unlink f (dst c), wire) else
              '(rc, content, rx) ← do_recvfile_splice k rx fsize;
              let f := Posix.write f (dst c) content in
              if rc =? DFS_ERROR then Some (DFS_ERROR, unlink f (dst c), wire) else
              let '(ok, _) := recv_rsp rx in
              if negb ok then Some (DFS_ERROR, unlink f (dst c), wire) else Some (DFS_OK, f, wire)
          end
      end
  end.

(** ** Commands *)

(** The context is memory of the pool, [garbage] before; [sz] and [rep] are of
    the configuration. *)
Definition new_context (garbage : rw_context_t) (s d : list Z) (sz rep : Z) : option rw_context_t :=
  s ← strcpy PATH_LEN s; d ← strcpy PATH_LEN d;
  Some (Ctx s d (nn_fd garbage) (dn_fd garbage) sz rep (blk_id garbage) (namespace_id garbage) (dn_num garbage) (dn_index garbage)
    (dn_ips garbage) (res garbage) (fsize garbage) (write_done_blk_rep garbage)).

(** The descriptors that are closed at the end. *)
Definition closed_fds (c : rw_context_t) : option (list Z) :=
  if Z.of_nat (length (dn_fd c)) <? dn_num c then None
  else Some (filter (fun fd => 0 < fd) (nn_fd c :: take (Z.to_nat (dn_num c)) (dn_fd c))).

Section commands.

Context {P : Type}.
Variable dial_nn : P -> P * Z.
Variable net : P -> Z -> list Z -> P * exchange.
Variable u : user_t.
Variable memory_ok : bool.
Variable sz rep : Z.
Variable garbage : rw_context_t.
Variable dial : nat -> list Z -> option dn_conn.

(** [evs]: how the threads run.  The source is a regular file or is not there;
    a directory, which [open] accepts, is not considered.  The result, what the datanodes were sent, the
    line about the failure and the closed descriptors. *)
Definition dfscli_put (evs : list put_event) (s d : list Z) (f : Posix.fs) (p : P) : option (Z * list (list Z * list Z) * option message * list Z * P) :=
  if negb memory_ok then Some (DFS_ERROR, [], None, [], p) else
  c ← new_context garbage s d sz rep;
  '(rc, msg, c, p) ← dfs_create dial_nn net u memory_ok c p;
  if negb (rc =? DFS_OK) then Some (DFS_ERROR, [], msg, [], p) else
  file ← match f !! Posix.resolve (src c) with Some (Posix.File x) => Some (Some x) | Some Posix.Dir => None | None => Some None end;
  w ← dfs_write_blk file dial evs (put_start c);
  _ ← result w;
  '(_, msg, p) ← dfs_close net (ctx w) p;
  fds ← closed_fds (ctx w);
  Some (DFS_OK, wires w, msg, fds, p).

Definition dfscli_get (s d : list Z) (f : Posix.fs) (p : P) : option (Z * Posix.fs * list Z * option message * list Z * P) :=
  if negb memory_ok then Some (DFS_ERROR, f, [], None, [], p) else
  c ← new_context garbage s d sz rep;
  '(rc, msg, c, p) ← dfs_open dial_nn net u memory_ok c p;
  if negb (rc =? DFS_OK) then Some (DFS_ERROR, f, [], msg, [], p) else
  '(_, f, wire) ← dfs_read_blk (dial 0%nat) c f;
  fds ← closed_fds c;
  Some (DFS_OK, f, wire, None, fds, p).

End commands.

(** What [main] calls. *)
Inductive command := Nothing | Help | Mkdir (path : list Z) | Rmr (path : list Z) | Ls (path : list Z) | Put_file (src dst : list Z) | Get_file (src dst : list Z) | Rm (path : list Z).

Definition is_cmd (cmd : list Z) (name : list Z) : bool := Libc.strncmp cmd name (length name) =? 0.

Definition main (argv : list (list Z)) : option command :=
  let argc := length argv in
  if (argc <? 3)%nat then Some Help else
  arg1 ← argv !! 1%nat; arg2 ← argv !! 2%nat;
  cmd ← strcpy 16 arg1;
  if (PATH_LEN <? length arg2)%nat then Some Nothing else
  path ← strcpy PATH_LEN arg2;
  let vPath := (a ← getValidPath path; str a) in
  if is_cmd cmd (lit "-mkdir") then if negb (isPathValid path) then Some Nothing else Mkdir <$> vPath
  else if is_cmd cmd (lit "-rmr") then Rmr <$> vPath
  else if is_cmd cmd (lit "-ls") then Ls <$> vPath
  else if (argc =? 4)%nat && is_cmd cmd (lit "-put") then
    arg3 ← argv !! 3%nat; tmp ← strcpy PATH_LEN arg3; src ← vPath; dst ← (a ← getValidPath tmp; str a); Some (Put_file src dst)
  else if (argc =? 4)%nat && is_cmd cmd (lit "-get") then
    src ← vPath; arg3 ← argv !! 3%nat; dst ← strcpy PATH_LEN arg3; Some (Get_file src dst)
  else if is_cmd cmd (lit "-rm") then Rm <$> vPath
  else Some Help.

End Client.
