(* ===== verification/ClientOk.v ===== *)
(** * The client, proved

    What the command line gives reaches the namenode as the path it names;
    a block that is got from a datanode is the block that is stored there, and
    a file that is put is what the datanode stores; the threads of a put, when
    they take turns and when they do not. *)

From Stdlib Require Import ZArith Lia Bool String.
From stdpp Require Import base numbers gmap option list.
From S2P Require Import Prelude Libc CString Mem Buffer Task Hashtable Cache Stdio Posix NnTypes Permission NnPath FileIndex Namespace NsRefine NnPaxos NnConn DnStorage DnService DnServiceOk SysIo DnProps Fio DnRequest DnAccept DnRequestOk DnReadOk Client.

Module ClientOk.
Import NnTypes Mem Task DnService DnServiceOk Client.

(** ** Paths *)

(** What the loop writes. *)
Fixpoint emitted (s : list Z) (l : Z) : list Z :=
  match s with
  | [] => []
  | c :: s' => if (l =? SLASH) && (c =? SLASH) then emitted s' c else (if l =? SLASH then [l] else []) ++ c :: emitted s' (hd 0 s')
  end.

Definition padded (s : list Z) : list Z := s ++ replicate (PATH_LEN - length s) 0.

Lemma padded_length s : (length s <= PATH_LEN)%nat -> length (padded s) = PATH_LEN.
Proof. intros H. unfold padded. rewrite length_app, length_replicate. lia. Qed.

Lemma put_padded s c : (length s < PATH_LEN)%nat -> Client.put (padded s) (length s) c = Some (padded (s ++ [c]), S (length s)).
Proof.
  intros H. unfold Client.put. rewrite padded_length by lia. rewrite (proj2 (Nat.ltb_lt _ _)) by done. do 2 f_equal.
  unfold padded. rewrite insert_app_r_alt, Nat.sub_diag by done. destruct (PATH_LEN - length s)%nat as [|n] eqn:E; [lia|]. cbn [replicate list_insert insert].
  rewrite length_app, <-app_assoc. cbn [length app]. by replace (PATH_LEN - (length s + 1))%nat with n by lia.
Qed.

Lemma valid_loop_ok s : forall l pre, (length pre + length (emitted s l) <= PATH_LEN)%nat ->
  exists l', valid_loop s l (padded pre) (length pre) = Some (padded (pre ++ emitted s l), length (pre ++ emitted s l), l').
Proof.
  induction s as [|c s IH]; intros l pre H; cbn [valid_loop emitted] in *; [exists l; by rewrite app_nil_r|].
  destruct ((l =? SLASH) && (c =? SLASH)) eqn:E; [by apply IH|].
  set (pre1 := pre ++ if l =? SLASH then [l] else []). rewrite !length_app in H. cbn [length] in H.
  assert ((if l =? SLASH then Client.put (padded pre) (length pre) l else Some (padded pre, length pre)) = Some (padded pre1, length pre1)) as ->.
  { unfold pre1. destruct (l =? SLASH); [|by rewrite app_nil_r]. cbn [length] in H. rewrite put_padded by lia. by rewrite length_app, Nat.add_1_r. }
  assert (length pre1 + S (length (emitted s (hd 0%Z s))) <= PATH_LEN)%nat as H1 by (unfold pre1; rewrite length_app; lia).
  cbn [mbind option_bind]. rewrite put_padded by lia. cbn [mbind option_bind]. destruct (IH (hd 0 s) (pre1 ++ [c])) as (l' & E'); [rewrite length_app; cbn [length]; lia|].
  exists l'. rewrite length_app, Nat.add_1_r in E'. rewrite E'. unfold pre1. by rewrite <-!app_assoc.
Qed.

(** It writes the names, each after a slash. *)
Lemma emitted_tokens s : emitted s SLASH = concat (map (cons SLASH) (Libc.tokens_from SLASH s [])) /\
  forall cur, cur <> [] -> SLASH :: cur ++ emitted s (hd 0 s) = concat (map (cons SLASH) (Libc.tokens_from SLASH s cur)).
Proof.
  induction s as [|c s [IH1 IH2]]; [split; [done|]; intros [|x cur] H; [done|]; cbn; by rewrite !app_nil_r|]. cbn [emitted Libc.tokens_from hd].
  destruct (Z.eqb_spec c SLASH) as [->|Hc].
  - rewrite Z.eqb_refl. cbn [andb]. split; [done|]. intros [|x cur] H; [done|]. cbn [map concat]. by rewrite IH1.
  - cbn [andb]. rewrite andb_false_r. split; [|intros cur H].
    + change (SLASH =? SLASH) with true. cbn [app]. by apply (IH2 [c]).
    + cbn [app]. rewrite <-IH2 by (by destruct cur). by rewrite <-app_assoc.
Qed.

Lemma tokens_valid s : forall cur, Libc.is_cstr s -> (Forall (fun c => 1 <= c < 256 /\ c <> NnPath.SLASH) cur) -> NnPath.valid_path (Libc.tokens_from NnPath.SLASH s cur).
Proof.
  induction s as [|c s IH]; intros cur Hs Hcur; cbn [Libc.tokens_from]; [destruct cur; [by apply Forall_nil|apply Forall_singleton; by split]|].
  apply Forall_cons_1 in Hs as [Hc Hs]. destruct (Z.eqb_spec c NnPath.SLASH).
  - destruct cur; [by apply IH|]. apply Forall_cons. split; [by split|by apply IH].
  - apply IH; [done|]. apply Forall_app. split; [done|]. by apply Forall_singleton.
Qed.

Lemma padded_str s : Libc.is_cstr s -> (length s < PATH_LEN)%nat -> str (padded s) = Some s.
Proof.
  intros Hs Hl. assert (Libc.strlen (padded s) = length s) as E.
  { unfold padded. destruct (PATH_LEN - length s)%nat as [|n] eqn:En; [lia|]. cbn [replicate]. clear -Hs. induction Hs as [|c s Hc _ IH]; [done|]. cbn [app Libc.strlen length]. rewrite (proj2 (Z.eqb_neq c 0)) by lia. by rewrite IH. }
  unfold str, Libc.cstr. rewrite E, padded_length by lia. rewrite (proj2 (Nat.ltb_lt _ _)) by done. unfold padded. by rewrite take_app_length.
Qed.

Abbreviation names s := (Libc.strtok_tokens SLASH s).

Lemma valid_path_array s : s <> [SLASH] -> s <> [SLASH; SLASH] -> (length (concat (map (cons SLASH) (names s))) < PATH_LEN)%nat ->
  getValidPath s = Some (padded (concat (map (cons SLASH) (names s)))).
Proof.
  intros H1 H2 H. unfold getValidPath. rewrite !bool_decide_false by done. cbn [orb]. unfold Libc.strtok_tokens in *. rewrite <-(proj1 (emitted_tokens s)) in *.
  change (replicate PATH_LEN 0) with (padded []). destruct (valid_loop_ok s SLASH []) as (l & E); [cbn [length]; lia|]. cbn [app length] in E. rewrite E. cbn [mbind option_bind].
  destruct (l =? SLASH); [|done]. unfold Client.put. rewrite padded_length, (proj2 (Nat.ltb_lt _ _)) by lia. cbn [mbind option_bind]. f_equal. apply list_insert_id.
  unfold padded. rewrite lookup_app_r, Nat.sub_diag by done. apply lookup_replicate. lia.
Qed.

(** The path the client makes of an argument, if it has a name or is "/" or "//". *)
Lemma valid_path_str s : Libc.is_cstr s -> names s <> [] \/ s = [SLASH] \/ s = [SLASH; SLASH] -> (length (NnPath.path_str (names s)) < PATH_LEN)%nat ->
  (a ← getValidPath s; str a) = Some (NnPath.path_str (names s)).
Proof.
  intros Hs Hn Hl. pose proof (NnPath.path_str_cstr _ (tokens_valid s [] Hs ltac:(constructor))) as Hc. change (Libc.tokens_from NnPath.SLASH s []) with (names s) in Hc.
  destruct (decide (s = [SLASH])) as [->|H1]; [done|]. destruct (decide (s = [SLASH; SLASH])) as [->|H2]; [done|]. destruct Hn as [Hn|[Hn|Hn]]; try done.
  assert (NnPath.path_str (names s) = concat (map (cons SLASH) (names s))) as E by (by destruct (names s)). rewrite E in *.
  rewrite (option_bind_eq _ _ _ (valid_path_array s H1 H2 Hl)). by apply padded_str.
Qed.

Lemma names_path ns : NnPath.valid_path ns -> names (NnPath.path_str ns) = ns.
Proof. intros H. destruct ns as [|n ns]; [done|]. apply (NnPath.tokens_path (n :: ns) [] H). Qed.

Lemma key_array ns : NnPath.valid_path ns -> NnPath.fits ns -> keyEncode (NnPath.path_str ns) = Some (NnPath.key_of ns ++ replicate (KEY_LEN - length (NnPath.key_of ns)) 0) /\
  Libc.cstr (NnPath.key_of ns ++ replicate (KEY_LEN - length (NnPath.key_of ns)) 0) = NnPath.key_of ns.
Proof.
  intros HV HF. pose proof (NnPath.key_of_fits ns HF) as Hl. unfold NnPath.PATH_LEN in Hl. split.
  - unfold keyEncode. change (CString.string_base64_encode (NnPath.path_str ns)) with (NnPath.key_of ns). rewrite (proj2 (Nat.leb_le _ _)) by (unfold KEY_LEN; lia). done.
  - pose proof (padded_str (NnPath.key_of ns) (NnPath.key_of_cstr ns HV) Hl) as E. unfold str in E. destruct (_ <? _)%nat; [|done]. by injection E.
Qed.

(** C6. What the client sends as a key names the path that was meant: an
    argument with at least one name, or "/" or "//", whatever slashes are
    before, between and after its names, becomes the path of its names
    ([getValidPath]), which the next call leaves as it is, if that path has
    less than 256 bytes; and if it has at most 189, so that its key fits its array,
    the namenode decodes the key ([keyEncode], [get_store_path],
    [get_path_names]) to the root and the names of the argument, in order. *)
Theorem argument_names_path s : Libc.is_cstr s -> names s <> [] \/ s = [SLASH] \/ s = [SLASH; SLASH] -> (length (NnPath.path_str (names s)) < PATH_LEN)%nat ->
  (a ← getValidPath s; str a) = Some (NnPath.path_str (names s)) /\
  (a ← getValidPath (NnPath.path_str (names s)); str a) = Some (NnPath.path_str (names s)) /\
  (NnPath.fits (names s) -> exists key, keyEncode (NnPath.path_str (names s)) = Some key /\ fst (NnPath.get_path_names (NnPath.get_store_path (Libc.cstr key))) = [SLASH] :: names s).
Proof.
  intros Hs Hn Hl. pose proof (tokens_valid s [] Hs ltac:(done)) as HV. change (Libc.tokens_from NnPath.SLASH s []) with (names s) in HV.
  pose proof (names_path _ HV) as En. split_and!; [by apply valid_path_str| |].
  - rewrite valid_path_str; rewrite ?En; try done; [by apply NnPath.path_str_cstr|]. destruct (names s); [right; by left|by left].
  - intros HF. destruct (key_array _ HV HF) as [K1 K2]. eexists. split; [exact K1|]. rewrite K2, NnPath.store_path, NnPath.path_names by done. done.
Qed.

Lemma argument_names_path_witness : (a ← getValidPath (lit "home//user/"); str a) = Some (lit "/home/user") /\
  exists key, keyEncode (lit "/home/user") = Some key /\ fst (NnPath.get_path_names (NnPath.get_store_path (Libc.cstr key))) = [lit "/"; lit "home"; lit "user"].
Proof.
  destruct (argument_names_path (lit "home//user/")) as (H1 & _ & H2); [by_decide|left; vm_compute; done|vm_compute; lia|].
  split; [exact H1|]. apply H2. unfold NnPath.fits. vm_compute. lia.
Defined.

(** Three slashes or more name no path: the client asks for the empty one. *)
Lemma slashes_name_nothing n : (3 <= n < 256)%nat -> (a ← getValidPath (replicate n SLASH); str a) = Some [].
Proof.
  intros Hn. assert (names (replicate n SLASH) = []) as E by (clear Hn; induction n as [|n IH]; [done|]; exact IH).
  rewrite (option_bind_eq _ _ _ (valid_path_array (replicate n SLASH) ltac:(intros H%(f_equal length); rewrite length_replicate in H; cbn in H; lia) ltac:(intros H%(f_equal length); rewrite length_replicate in H; cbn in H; lia) ltac:(rewrite E; cbn; unfold PATH_LEN; lia))).
  rewrite E. by apply padded_str; [apply Forall_nil|unfold PATH_LEN; cbn; lia].
Qed.

(** ** Requests *)

Lemma cstr_pad s n : Libc.is_cstr s -> (0 < n)%nat -> Libc.cstr (s ++ replicate n 0) = s.
Proof.
  intros Hs Hn. unfold Libc.cstr. replace (Libc.strlen (s ++ replicate n 0)) with (length s); [apply take_app_length|].
  destruct n as [|n]; [lia|]. clear Hn. induction Hs as [|c s Hc _ IH]; [done|]. cbn [app Libc.strlen length]. rewrite (proj2 (Z.eqb_neq c 0)) by lia. by rewrite <-IH.
Qed.

(** The user's names are C strings that fit their arrays. *)
Definition user_ok (u : user_t) : Prop := Libc.is_cstr (pw_name u) /\ Libc.is_cstr (gr_name u) /\ (length (pw_name u) < 16)%nat /\ (length (gr_name u) < 16)%nat.

Lemma user_task_ok u c ns perm n a : user_ok u -> NnPath.valid_path ns -> NnPath.fits ns -> in_u 32 c -> in_s 16 perm -> in_s 32 n -> in_u 64 a -> exists t, user_task u c (NnPath.path_str ns) perm n a = Some t /\ task_ok t /\
  data_len t = n /\ data t = a /\ (cmd t, Libc.cstr (key t), Libc.cstr (user t), Libc.cstr (group t), permission t, ret t) = (c, NnPath.key_of ns, pw_name u, gr_name u, perm, 0).
Proof.
  intros (U1 & U2 & U3 & U4) HV HF Hc Hp Hn Ha. destruct (key_array ns HV HF) as [K1 K2]. unfold user_task. rewrite (option_bind_eq _ _ _ K1). unfold getUserInfo, strcpy. rewrite !(proj2 (Nat.ltb_lt _ _)) by done. cbn [mbind option_bind].
  eexists. split; [reflexivity|]. pose proof (NnPath.key_of_fits ns HF) as Hl. unfold NnPath.PATH_LEN in Hl. split; [|cbn [cmd ret key user group permission data_len data]; rewrite K2, !cstr_pad by (done || unfold OWNER_LEN, GROUP_LEN; lia); done].
  unfold task_ok. cbn [cmd ret Task.seq pad0 opq master_nodeid key user group permission pad1 data_len pad2 data]. rewrite !length_app, !length_replicate. unfold KEY_LEN, OWNER_LEN, GROUP_LEN, in_u, in_s in *. repeat split; lia.
Qed.

(** What a handler of the namenode sees of a task without data. *)
Definition request_of (t : task_t) : NnPaxos.request := NnPaxos.Request (cmd t) (Libc.cstr (key t)) (Libc.cstr (user t)) (Libc.cstr (group t)) (permission t) (ret t) 0 0 0.
Definition set_ret (t : task_t) (r : Z) : task_t :=
  Tsk (cmd t) r (Task.seq t) (pad0 t) (opq t) (master_nodeid t) (key t) (user t) (group t) (permission t) (pad1 t) (data_len t) (pad2 t) (data t).

(** A namenode that decodes a frame, runs a handler and answers with the task
    it got; [None] once it has run into undefined behaviour. *)
Definition serve (handler : NnPaxos.nnstate -> NnPaxos.request -> option (NnPaxos.answer * NnPaxos.nnstate)) (s : option NnPaxos.nnstate) (fd : Z) (frame : list Z) : option NnPaxos.nnstate * exchange :=
  match (s ← s; '(_, t) ← task_decodefstr (bytes_at SBUF frame) SBUF (Z.of_nat (length frame)) task_clear; '(a, s) ← handler s (request_of t); Some (s, frame_bytes (set_ret t (NnPaxos.ret a)) [])) with
  | Some (s, bs) => (Some s, Answer bs)
  | None => (None, ReadErr)
  end.

Lemma frame_decodes a n t : task_ok t -> data_len t = 0 -> frame_len [] <= n -> forall m, rd m a (length (frame_bytes t [])) = Some (frame_bytes t []) -> task_decodefstr m a n task_clear = Some (344, received t a 0).
Proof.
  intros OK L Hn m Hr. rewrite frame_len_bytes in Hr by done. destruct (decode_frame m a t [] n task_clear OK L ltac:(done) Hr Hn) as [E _]. exact E.
Qed.

Lemma received_plain t a : data_len t = 0 -> opq t = 0 -> received t a 0 = t.
Proof. intros L O. unfold received. rewrite L. cbn. destruct t. cbn in *. by rewrite <-O. Qed.

Lemma answer_frame_task t : task_ok t -> data_len t = 0 -> opq t = 0 -> answer_task (frame_bytes t []) = Some t.
Proof.
  intros OK L O. unfold answer_task. pose proof (frame_len_bytes t [] OK) as Hl. cbn [length] in Hl. rewrite take_ge by (rewrite Hl; unfold BUF_SZ, sizeof_task_t; lia).
  set (m := bytes_at _ _). assert (rd m RBUF (length (frame_bytes t [])) = Some (frame_bytes t [])) as Hr.
  { apply rd_lookups. intros j b Hj. unfold m. rewrite bytes_at_lookup, decide_True by lia. replace (Z.to_nat (RBUF + Z.of_nat j - RBUF)) with j by lia. by apply lookup_app_l_Some. }
  rewrite (option_bind_eq _ _ _ (frame_decodes RBUF (Z.of_nat (length (frame_bytes t []))) t OK L ltac:(rewrite Hl; unfold frame_len, sizeof_task_t; cbn; lia) m Hr)). by rewrite received_plain.
Qed.

(** A request without data is answered by the handler: its return value is
    what the client sees. *)
Lemma simple_request_ok handler u c perm ns say s fd a s' : user_ok u -> NnPath.valid_path ns -> NnPath.fits ns -> in_u 32 c -> in_s 16 perm -> 0 <= fd -> in_s 32 (NnPaxos.ret a) ->
  handler s (NnPaxos.Request c (NnPath.key_of ns) (pw_name u) (gr_name u) perm 0 0 0 0) = Some (a, s') ->
  simple_request (fun p => (p, fd)) (serve handler) u c perm (NnPath.path_str ns) say (Some s) =
  Some (DFS_OK, if NnPaxos.ret a =? DFS_OK then None else Some (say (NnPaxos.ret a)), Some s').
Proof.
  intros HU HV HF Hc Hp Hfd Ha Hh. destruct (user_task_ok u c ns perm 0 0 HU HV HF Hc Hp ltac:(by_decide) ltac:(by_decide)) as (t & Et & OK & L & D & Ef). unfold simple_request. rewrite (proj2 (Z.ltb_ge _ _)) by done. rewrite (option_bind_eq _ _ _ Et), (option_bind_eq _ _ _ (encode_out_ok t [] OK L ltac:(cbn; lia) ltac:(by right))).
  assert (opq t = 0) as O. { unfold user_task in Et. destruct (keyEncode _); [|done]. cbn [mbind option_bind] in Et. destruct (getUserInfo u) as [[]|]; [|done]. by injection Et as <-. }
  pose proof (frame_len_bytes t [] OK) as Hl. unfold serve. cbn [mbind option_bind].
  pose proof (rd_bytes_at ∅ SBUF (frame_bytes t [])) as Hr. rewrite map_union_empty in Hr.
  rewrite (option_bind_eq _ _ _ (frame_decodes SBUF (Z.of_nat (length (frame_bytes t []))) t OK L ltac:(rewrite Hl; unfold frame_len, sizeof_task_t; cbn; lia) _ Hr)), received_plain by done.
  assert (request_of t = NnPaxos.Request c (NnPath.key_of ns) (pw_name u) (gr_name u) perm 0 0 0 0) as -> by (unfold request_of; by injection Ef as -> -> -> -> -> ->).
  rewrite (option_bind_eq _ _ _ Hh). rewrite (option_bind_eq _ _ _ (answer_frame_task (set_ret t (NnPaxos.ret a)) ltac:(destruct OK as (? & ? & ?); by split) L O)). done.
Qed.

(** The command line of a mkdir. *)
Lemma main_mkdir prog p : Libc.is_cstr p -> isPathValid p = true -> names p <> [] -> NnPath.fits (names p) -> (length p < PATH_LEN)%nat -> Client.main [prog; lit "-mkdir"; p] = Some (Mkdir (NnPath.path_str (names p))).
Proof.
  intros Hp HV Hn HF Hl. unfold Client.main. change (length [prog; lit "-mkdir"; p] <? 3)%nat with false. cbn [lookup list_lookup mbind option_bind]. change (strcpy 16 (lit "-mkdir")) with (Some (lit "-mkdir")). cbn [mbind option_bind].
  rewrite (proj2 (Nat.ltb_ge _ _)) by (unfold PATH_LEN in *; lia). unfold strcpy. rewrite (proj2 (Nat.ltb_lt _ _)) by done. cbn [mbind option_bind]. change (is_cmd (lit "-mkdir") (lit "-mkdir")) with true. cbn iota. rewrite HV. cbn [negb].
  pose proof (valid_path_str p Hp ltac:(by left) ltac:(unfold NnPath.fits, PATH_LEN in *; lia)) as E. cbn [mbind option_bind] in E. by rewrite E.
Qed.

Section mkdir.
Import NnPath Namespace NsRefine NnPaxos.

Context (paxos_is_master : Z -> bool) (paxos_master : Z -> Z) (paxos_propose : Z -> log_op -> option Z).
Context (m_iGroupCount : Z) (admin : list Z) (index_num checkpoint_num : Z) (dfs_current_msec : Z) (stack : nat -> Z).
Context (chosen : forall g v, exists id, paxos_propose g v = Some id).

Abbreviation handler := (log_mkdir paxos_is_master paxos_master paxos_propose m_iGroupCount admin index_num checkpoint_num dfs_current_msec stack).

(** C2. From the command line to the tree: [dfscli -mkdir p] of the superuser,
    for a path [p] with any slashes whose first [e] ancestors exist, parses its
    arguments, sends the key of the path in one frame, and the namenode that
    decodes it has all missing directories of the path afterwards, in a tree
    that is otherwise as before; the client reads the answer and reports
    nothing.  The argument has less than 256 bytes and none of the symbols that
    the client refuses, the path at most 189, the names of user and group
    less than 16.  The namenode is the master of the path and phxpaxos chooses
    its proposals; its state is one that the log leads to, with objects for the new
    directories below the configured limit, and no key is a prefix of another one of
    its bucket.  The slots of [finodes] on the stack, which the handler reads
    without having set them, are null. *)
Theorem mkdir_command prog p u fd s V e : let ns := names p in
  Libc.is_cstr p -> isPathValid p = true -> ns <> [] -> fits ns -> (length p < PATH_LEN)%nat -> user_ok u -> 0 <= fd ->
  history (fs s) V -> IsIMMaster paxos_is_master m_iGroupCount (key_of ns) = true -> Permission.is_super (pw_name u) admin = true ->
  (forall j, stack j = 0) -> Cache.objs (FileIndex.g_fcm (fs s)) !! 0 = None -> (e <= length ns)%nat ->
  (forall j, (j < e)%nat -> V !! take j ns = Some (Entry true true)) -> (forall j, (e <= j <= length ns)%nat -> V !! take j ns = None) ->
  (S (length ns) - e <= length (Cache.free (FileIndex.g_fcm (fs s))))%nat ->
  FileIndex.is_FsObjectExceed (fs s) index_num (Z.of_nat (S (length ns)) - (Z.of_nat e - 1) - 1) = false ->
  clash_free (Cache.size_ (FileIndex.g_fcm (fs s))) (dom V ∪ prefixes ns) ->
  exists s' v, Client.main [prog; lit "-mkdir"; p] = Some (Client.Mkdir v) /\
    dfscli_mkdir (fun x => (x, fd)) (serve handler) u v (Some s) = Some (DFS_OK, None, Some s') /\
    implements (fs s') (add_dirs V ns e (S (length ns) - e)).
Proof.
  intros ns Hp HV Hne HF Hl HU Hfd HH HM HS Hst H0 He HE HN HFr HX HC. pose proof HU as (_ & _ & U3 & U4). pose proof (tokens_valid p [] Hp ltac:(done)) as HVn. change (Libc.tokens_from SLASH p []) with ns in HVn.
  destruct (mkdir_creates_ancestors paxos_is_master paxos_master paxos_propose m_iGroupCount admin index_num checkpoint_num dfs_current_msec stack chosen s V (Request NN_MKDIR (key_of ns) (pw_name u) (gr_name u) 755 0 0 0 0) ns e) as (s' & E & HI); try done; [by apply Nat.leb_le|by apply Nat.leb_le|].
  exists s', (path_str ns). split; [by apply main_mkdir|]. split; [|done]. unfold dfscli_mkdir. assert (in_u 32 NN_MKDIR /\ in_s 16 755 /\ in_s 32 SUCC) as (I1 & I2 & I3) by by_decide.
  rewrite (simple_request_ok handler u NN_MKDIR 755 ns _ s fd (NnPaxos.Answer SUCC NoData) s' HU HVn HF I1 I2 Hfd I3 E). reflexivity.
Qed.

End mkdir.

Definition super : user_t := User (lit "root") (lit "users").

Lemma mkdir_command_witness : exists s' v, Client.main [lit "dfscli"; lit "-mkdir"; lit "/a//b/c/"] = Some (Client.Mkdir v) /\
  dfscli_mkdir (fun x => (x, 5)) (serve NnPaxos.sample_mkdir) super v (Some NnPaxos.nn2) = Some (DFS_OK, None, Some s').
Proof.
  destruct (mkdir_command NnPaxos.yes (fun _ => 1) NnPaxos.chosen1 1 (lit "root") 100 1000 50 NnPaxos.nulls NnPaxos.chosen1_ok (lit "dfscli") (lit "/a//b/c/") super 5 NnPaxos.nn2 NsRefine.V2 2) as (s' & v & E1 & E2 & _);
    [by_decide|vm_compute; reflexivity|vm_compute; discriminate|vm_compute; lia|vm_compute; lia|split_and!; [by_decide|by_decide|vm_compute; lia|vm_compute; lia]|lia|apply NsRefine.sample_history2|reflexivity|vm_compute; reflexivity|reflexivity|vm_compute; reflexivity|vm_compute; lia| | |vm_compute; lia|vm_compute; reflexivity|apply NsRefine.clash_free_dec; by_decide|].
  - intros [|[|j]] Hj; [vm_compute; reflexivity|vm_compute; reflexivity|lia].
  - intros [|[|[|[|j]]]] [Hj1 Hj2]; [lia|lia|vm_compute; reflexivity|vm_compute; reflexivity|vm_compute in Hj2; lia].
  - exists s', v. split; [exact E1|exact E2].
Defined.

(** ** What the namenode answers about a block *)

(** The bytes of a [create_resp_info_t], with its padding. *)
Definition resp_bytes (r : create_resp_info_t) : list Z :=
  le_enc 8 (r_blk_id r) ++ le_enc 8 (r_blk_sz r) ++ le_enc 8 (r_namespace_id r) ++ le_enc 2 (r_dn_num r) ++ concat (r_dn_ips r) ++ replicate 6 0.

Definition resp_ok (r : create_resp_info_t) : Prop :=
  in_u 64 (r_blk_id r) /\ in_u 64 (r_blk_sz r) /\ in_u 64 (r_namespace_id r) /\ in_s 16 (r_dn_num r) /\ exists a b c, r_dn_ips r = [a; b; c] /\ length a = 32%nat /\ length b = 32%nat /\ length c = 32%nat.

Lemma resp_bytes_length r : resp_ok r -> length (resp_bytes r) = 128%nat.
Proof. intros (_ & _ & _ & _ & a & b & c & E & A & B & C). unfold resp_bytes. rewrite E. cbn [concat]. by rewrite !length_app, !le_enc_length, A, B, C. Qed.

(** The client reads the structure that was sent. *)
Lemma resp_info_bytes r : resp_ok r -> resp_info (resp_bytes r) = Some r.
Proof.
  intros HR. unfold resp_info. rewrite (resp_bytes_length r HR). cbn [Nat.leb sizeof_resp Nat.sub replicate]. rewrite app_nil_r. destruct HR as (H1 & H2 & H3 & H4 & a & b & c & E & A & B & C). destruct r as [bi bz ns num ips0]. cbn [r_blk_id r_blk_sz r_namespace_id r_dn_num r_dn_ips] in *. subst ips0.
  unfold resp_bytes. cbn [r_blk_id r_blk_sz r_namespace_id r_dn_num r_dn_ips concat]. rewrite <-!app_assoc. cbn [app]. cbv zeta.
  repeat match goal with |- context [Task.field (?x ++ ?y) ?o ?k] => first [rewrite (field_here x y k) by (rewrite ?le_enc_length; lia)|rewrite (field_skip x y o k) by (rewrite ?le_enc_length; lia); rewrite ?le_enc_length, ?A, ?B, ?C; simpl (_ - _)%nat] end.
  rewrite !le_dec_enc_u, s16_le_enc by done. done.
Qed.

Section opening.

Context {P : Type} (dial_nn : P -> P * Z) (net : P -> Z -> list Z -> P * exchange) (u : user_t).

(** An answer with the block is taken over as it was sent. *)
Lemma block_request_ok t fd take_ say c p p' a r : task_ok t -> data_len t = 16 -> data t = RBI -> resp_ok r -> task_ok a -> ret a = DFS_OK -> data_len a = 128 ->
  net p fd (frame_bytes t (blk_info c)) = (p', DnService.Answer (frame_bytes a (resp_bytes r))) -> block_request net true t fd take_ say c p = Some (DFS_OK, None, take_ c r, p').
Proof.
  intros OK L D HR OKa Ra La Hnet. unfold block_request. assert (length (blk_info c) = 16%nat) as Hb by (unfold blk_info; by rewrite !length_app, !le_enc_length).
  rewrite (option_bind_eq _ _ _ (encode_out_ok t (blk_info c) OK ltac:(by rewrite Hb, L) ltac:(lia) ltac:(by left))), Hnet. unfold own_answer. pose proof (resp_bytes_length r HR) as Hl.
  destruct (heap_answer_ok a (resp_bytes r) OKa ltac:(by rewrite Hl, La) ltac:(unfold frame_len; rewrite Hl; lia)) as [-> Hrd]. cbn [mbind option_bind]. unfold received. rewrite La. cbn [Z.ltb Z.compare].
  change (ret (set_opq (set_data a (PNEXT + 344)) 0)) with (ret a). change (data (set_opq (set_data a (PNEXT + 344)) 0)) with (PNEXT + 344). change (data_len (set_opq (set_data a (PNEXT + 344)) 0)) with (data_len a). rewrite Ra, La. cbn [negb Z.eqb].
  change (negb (PNEXT + 344 =? 0) && (0 <? 128)) with true. cbn iota. rewrite Hl in Hrd. change (Z.to_nat 128) with 128%nat. change (negb (DFS_OK =? DFS_OK)) with false. cbn iota. by rewrite (option_bind_eq _ _ _ Hrd), (option_bind_eq _ _ _ (resp_info_bytes r HR)).
Qed.

(** The context after an open: the block is the one of the answer. *)
Definition opened (c : rw_context_t) (fd : Z) (r : create_resp_info_t) : rw_context_t :=
  Ctx (src c) (dst c) fd (dn_fd c) (r_blk_sz r) (blk_rep c) (r_blk_id r) (r_namespace_id r) (r_dn_num r) (dn_index c) (r_dn_ips r) (res c) (fsize c) (write_done_blk_rep c).

Lemma dfs_open_ok ns c fd p p1 p' a r : user_ok u -> NnPath.valid_path ns -> NnPath.fits ns -> src c = NnPath.path_str ns -> dial_nn p = (p1, fd) -> 0 <= fd -> resp_ok r -> task_ok a -> ret a = DFS_OK -> data_len a = 128 ->
  (forall t, (cmd t, Libc.cstr (key t), Libc.cstr (user t), Libc.cstr (group t)) = (NN_OPEN, NnPath.key_of ns, pw_name u, gr_name u) -> net p1 fd (frame_bytes t (blk_info c)) = (p', DnService.Answer (frame_bytes a (resp_bytes r)))) ->
  dfs_open dial_nn net u true c p = Some (DFS_OK, None, opened c fd r, p').
Proof.
  intros HU HV HF Hs Hd Hfd HR OKa Ra La Hnet. unfold dfs_open. rewrite Hd, (proj2 (Z.ltb_ge _ _)), Hs by done.
  destruct (user_task_ok u NN_OPEN ns 755 16 RBI HU HV HF ltac:(by_decide) ltac:(by_decide) ltac:(by_decide) ltac:(by_decide)) as (t & Et & OK & L & D & Ef). rewrite (option_bind_eq _ _ _ Et).
  rewrite (block_request_ok t fd _ _ c p1 p' a r OK L D HR OKa Ra La); [done|]. apply Hnet. by injection Ef as -> -> -> -> _ _.
Qed.

End opening.

(** ** Receiving *)

(** Bytes that arrive in pieces of any size, and then the end. *)
Definition chunks (rx : list NnConn.rx_t) : Prop := Forall (fun x => match x with NnConn.Rx (_ :: _) => True | _ => False end) rx.
Abbreviation payload := DnRequestOk.payload.

Lemma payload_cons bs rx : payload (NnConn.Rx bs :: rx) = bs ++ payload rx.
Proof. done. Qed.

Lemma recv_chunks n rx : chunks rx -> (0 < n)%nat -> exists got rx', recv n rx = (Some got, rx') /\ chunks rx' /\ payload rx = got ++ payload rx' /\ (length got <= n)%nat /\ (got = [] -> rx = []).
Proof.
  intros [|x rx' Hx HR] Hn; [exists [], []; split_and!; try done; [by apply Forall_nil|cbn; lia]|]. destruct x as [bs| | | |]; try done. destruct bs as [|b bs]; [done|]. set (l := b :: bs). assert (l <> []) as Hl by done. clearbody l.
  cbn [recv]. eexists _, _. split; [reflexivity|]. rewrite payload_cons, length_take. split_and!; [| |lia|].
  - destruct (Nat.ltb_spec n (length l)); [|done]. apply Forall_cons. split; [|done]. destruct (drop n l) eqn:E; [|done]. apply (f_equal length) in E. rewrite length_drop in E. cbn in E. lia.
  - destruct (Nat.ltb_spec n (length l)); [by rewrite payload_cons, app_assoc, take_drop|by rewrite take_ge by lia].
  - intros E%(f_equal length). rewrite length_take in E. destruct l; [done|]. cbn in E. lia.
Qed.

Lemma pipe_drains outs : forall bs file, Forall is_Some outs -> exists outs', drain outs bs file = (true, file ++ bs, outs') /\ Forall is_Some outs'.
Proof.
  induction outs as [|o outs IH]; intros bs file H; [exists []; destruct bs; cbn; by rewrite ?app_nil_r|].
  destruct bs as [|b bs]; [exists (o :: outs); cbn; by rewrite app_nil_r|]. set (l := b :: bs). apply Forall_cons in H as [[n ->] H]. cbn [drain].
  destruct (IH (drop n l) (file ++ take n l) H) as (outs' & E & H'). exists outs'. split; [|done]. unfold l in *. by rewrite E, <-app_assoc, take_drop.
Qed.

(** As many bytes as asked for are in the file, and no more are taken. *)
Lemma splice_loop_ok fuel : forall rx outs bs rest total file, chunks rx -> Forall is_Some outs -> payload rx = bs ++ rest -> (length bs < fuel)%nat ->
  exists rx', splice_loop fuel rx outs (Z.of_nat (length bs)) total file = Some (s32 (total + Z.of_nat (length bs)), file ++ bs, rx') /\ chunks rx' /\ payload rx' = rest.
Proof.
  induction fuel as [|fuel IH]; intros rx outs bs rest total file HC HO HP Hf; [lia|]. cbn [splice_loop]. destruct bs as [|b bs']; [exists rx; cbn; by rewrite Z.add_0_r, app_nil_r|].
  set (bs := b :: bs') in *. assert (0 < length bs)%nat as Hb by (cbn; lia). clearbody bs. rewrite (proj2 (Z.leb_gt _ _)) by lia.
  set (n := Z.to_nat _). assert (0 < n <= length bs)%nat as Hn by lia. destruct (recv_chunks n rx HC) as (got & rx1 & E & HC1 & HP1 & Hg & Hne); [lia|]. rewrite E.
  destruct got as [|g got']; [rewrite (Hne eq_refl) in HP; destruct bs; [cbn in Hb; lia|done]|]. set (got := g :: got') in *. assert (0 < length got)%nat as Hg0 by (cbn; lia). clearbody got.
  assert (exists more, bs = got ++ more) as (more & ->).
  { exists (drop (length got) bs). rewrite HP1 in HP. apply (f_equal (take (length got))) in HP. rewrite take_app_length, take_app_le in HP by lia. rewrite HP at 1. symmetry. apply take_drop. }
  rewrite length_app in *. rewrite HP1, <-app_assoc in HP. apply app_inv_head in HP. destruct (pipe_drains outs got file HO) as (outs1 & -> & HO1). cbn [negb].
  destruct (IH rx1 outs1 more rest (total + Z.of_nat (length got)) (file ++ got) HC1 HO1 HP) as (rx' & E' & HC' & HP'); [lia|]. exists rx'. split; [|done].
  replace (Z.of_nat (length got + length more) - Z.of_nat (length got)) with (Z.of_nat (length more)) by lia. rewrite E', <-app_assoc. by replace (total + Z.of_nat (length got) + Z.of_nat (length more)) with (total + Z.of_nat (length got + length more)) by lia.
Qed.

(** An answer of zeros, or the part of it that came, is accepted. *)
Lemma recv_rsp_zeros rx got rx' : recv 8 rx = (Some got, rx') -> got `prefix_of` DnRequest.header_rsp -> recv_rsp rx = (true, rx').
Proof.
  intros E [more Hm]. unfold recv_rsp. rewrite E. assert (got ++ replicate (8 - length got) 0 = replicate 8 0) as ->; [|done].
  pose proof (f_equal length Hm) as Hl. rewrite length_app in Hl. cbn [DnRequest.header_rsp length] in Hl. apply (f_equal (take (length got))) in Hm. rewrite take_app_length in Hm.
  rewrite <-Hm at 1. change DnRequest.header_rsp with (replicate 8 0). rewrite take_replicate, <-replicate_add. f_equal. lia.
Qed.

Lemma recv_rsp_first b rx tail : chunks (NnConn.Rx b :: rx) -> (8 <= length b)%nat -> payload (NnConn.Rx b :: rx) = DnRequest.header_rsp ++ tail ->
  exists rx', recv_rsp (NnConn.Rx b :: rx) = (true, rx') /\ chunks rx' /\ payload rx' = tail.
Proof.
  intros HC Hb HP. destruct (recv_chunks 8 _ HC) as (got & rx' & E & HC' & HP' & _); [lia|]. exists rx'. pose proof E as [= Eg _].
  assert (got = DnRequest.header_rsp) as ->.
  { assert (length got = 8%nat) as Hg by (rewrite <-Eg, length_take; lia). rewrite HP' in HP. by apply app_inj_1 in HP as [-> _]. }
  split; [by apply (recv_rsp_zeros _ _ _ E)|]. split; [done|]. rewrite HP' in HP. by apply app_inv_head in HP.
Qed.

Lemma recv_rsp_last rx : chunks rx -> payload rx `prefix_of` DnRequest.header_rsp -> (recv_rsp rx).1 = true.
Proof.
  intros HC HP. destruct (recv_chunks 8 _ HC) as (got & rx' & E & _ & HP' & _); [lia|]. rewrite (recv_rsp_zeros rx got rx' E); [done|]. etrans; [|exact HP]. exists (payload rx'). done.
Qed.

(** ** Headers *)


Lemma header_length op ns id n : length (Client.header op ns id n) = 48%nat.
Proof. unfold Client.header. by rewrite !length_app, !le_enc_length. Qed.


(** ** Getting a file *)

Lemma read_blk_ok dial c f f1 ip k n b rx d tail : Posix.creat f (dst c) = Some f1 -> dn_ips c !! 0%nat = Some ip -> dial (Libc.cstr ip) = Some k -> hdr k = Some n -> 48 <= n -> pipe_ok k = true -> Forall is_Some (outs k) ->
  Client.rx k = NnConn.Rx b :: rx -> chunks (NnConn.Rx b :: rx) -> (8 <= length b)%nat -> payload (NnConn.Rx b :: rx) = DnRequest.header_rsp ++ d ++ tail -> tail `prefix_of` DnRequest.header_rsp ->
  s64 (blk_sz c) = Z.of_nat (length d) -> s32 (Z.of_nat (length d)) <> DFS_ERROR ->
  dfs_read_blk dial c f = Some (DFS_OK, Posix.write f1 (dst c) d, Client.header DnRequest.OP_READ_BLOCK (namespace_id c) (blk_id c) (Z.of_nat (length d))).
Proof.
  intros Hf Hip Hk Hn Hn48 Hpipe HO Hrx HC Hb HP Htail Hsz Hne. unfold dfs_read_blk. rewrite Hf, (option_bind_eq _ _ _ Hip), Hk. cbv zeta. rewrite Hn, Hsz, Hrx.
  destruct (recv_rsp_first b rx _ HC Hb HP) as (rx1 & -> & HC1 & HP1). cbn [negb]. unfold do_recvfile_splice. rewrite Hpipe. cbn [negb].
  destruct (splice_loop_ok (S (Z.to_nat (Z.of_nat (length d)))) rx1 (outs k) d tail 0 [] HC1 HO HP1) as (rx2 & E2 & HC2 & HP2); [lia|]. rewrite (option_bind_eq _ _ _ E2), Z.add_0_l. cbv beta iota.
  rewrite (proj2 (Z.eqb_neq _ _) Hne). pose proof (recv_rsp_last rx2 HC2 ltac:(by rewrite HP2)) as E3. destruct (recv_rsp rx2) as [ok rx3]. cbn in E3. subst ok. cbn [negb app].
  rewrite take_ge by (rewrite header_length; lia). done.
Qed.






(** The whole command, when the namenode answers the open with the block and
    its datanode sends it. *)
Lemma dfscli_get_ok {P} (dial_nn : P -> P * Z) net u sz rep g dial ns dst0 f f1 fd p p1 p' a r k n b rx d tail : user_ok u -> NnPath.valid_path ns -> NnPath.fits ns -> (length dst0 < PATH_LEN)%nat -> dial_nn p = (p1, fd) -> 0 < fd ->
  resp_ok r -> task_ok a -> ret a = DFS_OK -> data_len a = 128 -> r_dn_num r <= 3 -> length (dn_fd g) = 3%nat ->
  (forall t, (cmd t, Libc.cstr (key t), Libc.cstr (user t), Libc.cstr (group t)) = (NN_OPEN, NnPath.key_of ns, pw_name u, gr_name u) -> net p1 fd (frame_bytes t (le_enc 8 sz ++ le_enc 2 rep ++ replicate 6 0)) = (p', DnService.Answer (frame_bytes a (resp_bytes r)))) ->
  Posix.creat f dst0 = Some f1 -> (forall ip, dial 0%nat ip = Some k) -> hdr k = Some n -> 48 <= n -> pipe_ok k = true -> Forall is_Some (outs k) ->
  Client.rx k = NnConn.Rx b :: rx -> chunks (NnConn.Rx b :: rx) -> (8 <= length b)%nat -> payload (NnConn.Rx b :: rx) = DnRequest.header_rsp ++ d ++ tail -> tail `prefix_of` DnRequest.header_rsp ->
  s64 (r_blk_sz r) = Z.of_nat (length d) -> s32 (Z.of_nat (length d)) <> DFS_ERROR ->
  exists fds, dfscli_get dial_nn net u true sz rep g dial (NnPath.path_str ns) dst0 f p =
    Some (DFS_OK, Posix.write f1 dst0 d, Client.header DnRequest.OP_READ_BLOCK (r_namespace_id r) (r_blk_id r) (Z.of_nat (length d)), None, fds, p') /\ fd ∈ fds.
Proof.
  intros HU HV HF Hdst Hd Hfd HR OKa Ra La Hnum Hg Hnet Hf Hk Hn Hn48 Hpipe HO Hrx HC Hb HP Ht Hsz Hne. unfold dfscli_get, new_context, strcpy. cbn [negb]. assert (length (NnPath.path_str ns) < PATH_LEN)%nat as Hl by (unfold NnPath.fits, PATH_LEN in *; lia).
  rewrite !(proj2 (Nat.ltb_lt _ _)) by done. cbn [mbind option_bind]. set (c := Ctx _ _ _ _ _ _ _ _ _ _ _ _ _ _).
  pose proof (dfs_open_ok dial_nn net u ns c fd p p1 p' a r HU HV HF eq_refl Hd ltac:(lia) HR OKa Ra La Hnet) as Eo. rewrite (option_bind_eq _ _ _ Eo). change (negb (DFS_OK =? DFS_OK)) with false. cbn iota. pose proof HR as (_ & _ & _ & _ & ip & i2 & i3 & Eip & _).
  pose proof (read_blk_ok (dial 0%nat) (opened c fd r) f f1 ip k n b rx d tail Hf ltac:(cbn [opened dn_ips]; by rewrite Eip) (Hk _) Hn Hn48 Hpipe HO Hrx HC Hb HP Ht Hsz Hne) as Er. rewrite (option_bind_eq _ _ _ Er).
  unfold closed_fds. cbn [opened dn_fd dn_num nn_fd]. change (dn_fd c) with (dn_fd g). rewrite Hg, (proj2 (Z.ltb_ge _ _)) by lia. cbn [mbind option_bind]. eexists. split; [reflexivity|]. apply list_elem_of_filter. split; [done|by left].
Qed.

Lemma le_dec_zeros bs : Forall (eq 0) bs -> le_dec bs = 0.
Proof. induction 1 as [|x bs <- _ IH]; [done|]. cbn. by rewrite IH. Qed.

(** An answer whose [err] is zero is accepted, whatever its status. *)
Lemma recv_rsp_err rx got rx' : recv 8 rx = (Some got, rx') -> Forall (eq 0) (drop 4 got) -> recv_rsp rx = (true, rx').
Proof.
  intros E H. unfold recv_rsp. rewrite E. cbv zeta. rewrite (le_dec_zeros (Task.field _ 4 4)); [change (negb (s32 0 =? DFS_OK)) with false; by rewrite andb_false_r|].
  unfold Task.field. apply Forall_take. rewrite drop_app. apply Forall_app. split; [done|]. apply Forall_drop, Forall_replicate. done.
Qed.

(** C40. The client does not wait for the whole of an answer.  If the first
    piece that arrives is four to seven bytes of the answer to the header, the
    others are taken for the start of the block: the local file begins with
    them, lacks as many bytes at its end, and the get ends with success.  The
    block has at least 8 bytes and is below 2 GiB. *)
Theorem get_short_answer_shifts c f f1 d n j rx sends outs : Posix.creat f (dst c) = Some f1 -> is_Some (dn_ips c !! 0%nat) -> blk_sz c = Z.of_nat (length d) -> (8 <= length d)%nat -> blk_sz c < 2 ^ 31 ->
  (4 <= j < 8)%nat -> chunks rx -> payload rx = replicate (8 - j) 0 ++ d ++ DnRequest.header_rsp -> Forall is_Some outs ->
  exists wire, dfs_read_blk (fun _ => Some (Dc (Some n) sends (NnConn.Rx (replicate j 0) :: rx) true outs)) c f =
    Some (DFS_OK, Posix.write f1 (dst c) (replicate (8 - j) 0 ++ take (length d - (8 - j)) d), wire).
Proof.
  intros Hf [ip Hip] Hsz Hd Hlt Hj HC HP HO. unfold dfs_read_blk. rewrite Hf, (option_bind_eq _ _ _ Hip). cbv zeta. cbn [hdr Client.rx].
  assert (recv 8 (NnConn.Rx (replicate j 0) :: rx) = (Some (replicate j 0), rx)) as E1 by (cbn [recv]; rewrite take_ge, length_replicate, (proj2 (Nat.ltb_ge _ _)) by (rewrite ?length_replicate; lia); done).
  rewrite (recv_rsp_err _ _ _ E1) by (rewrite drop_replicate; by apply Forall_replicate). cbn [negb]. unfold do_recvfile_splice. cbn [pipe_ok Client.outs negb].
  set (bs := replicate (8 - j) 0 ++ take (length d - (8 - j)) d). set (rest := drop (length d - (8 - j)) d ++ DnRequest.header_rsp).
  assert (s64 (blk_sz c) = Z.of_nat (length bs)) as Hs by (unfold bs; rewrite length_app, length_replicate, length_take; unfold s64; rewrite swrap_small by (unfold in_s; lia); lia).
  destruct (splice_loop_ok (S (Z.to_nat (Z.of_nat (length bs)))) rx outs bs rest 0 [] HC HO) as (rx2 & E2 & HC2 & HP2); [unfold bs, rest; rewrite HP, <-!app_assoc; f_equal; by rewrite app_assoc, take_drop|lia|].
  rewrite Hs, (option_bind_eq _ _ _ E2), Z.add_0_l. cbv beta iota. assert (s32 (Z.of_nat (length bs)) <> DFS_ERROR) as Hne.
  { rewrite <-Hs. unfold s64, s32. rewrite (swrap_small 64), swrap_small by (unfold in_s; lia). unfold DFS_ERROR. lia. }
  rewrite (proj2 (Z.eqb_neq _ _) Hne). destruct (recv_chunks 8 rx2 HC2) as (got & rx3 & E3 & _ & HP3 & _); [lia|]. rewrite (recv_rsp_err _ _ _ E3); [by eexists|].
  assert (Forall (eq 0) (drop 4 rest)) as Hz by (unfold rest; rewrite drop_app_ge by (rewrite length_drop; lia); apply Forall_drop; by repeat constructor).
  rewrite <-HP2, HP3, drop_app in Hz. by apply Forall_app in Hz as [Hz _].
Qed.

Definition short_context : rw_context_t := Ctx (lit "/f") (lit "/x") 5 [0; 0; 0] 8 1 7 1 1 0 [lit "10.0.0.1"; []; []] [0; 0; 0] 0 0.
Definition short_pieces : list NnConn.rx_t := [NnConn.Rx ([0; 0] ++ [1; 2; 3; 4; 5; 6; 7; 8] ++ DnRequest.header_rsp)].

Lemma get_short_answer_shifts_witness : exists wire,
  dfs_read_blk (fun _ => Some (Dc (Some 48) [] (NnConn.Rx [0; 0; 0; 0; 0; 0] :: short_pieces) true [])) short_context ∅ =
  Some (DFS_OK, Posix.write (<[[lit "x"] := Posix.File []]> ∅) (lit "/x") [0; 0; 1; 2; 3; 4; 5; 6], wire).
Proof.
  exact (get_short_answer_shifts short_context ∅ (<[[lit "x"] := Posix.File []]> ∅) [1; 2; 3; 4; 5; 6; 7; 8] 48 6 short_pieces [] [] eq_refl ltac:(by eexists) eq_refl ltac:(cbn; lia) ltac:(cbn; lia) ltac:(lia) ltac:(by repeat constructor) eq_refl ltac:(by apply Forall_nil)).
Defined.

(** ** Putting a file *)

(** [sendfile] takes bytes or asks to be called again. *)
Definition sending (sends : list sf_t) : Prop := Forall (fun x => match x with Sf n => 0 <= n | SfErr => False | _ => True end) sends.

Lemma write_blk_to_dn_ok sends : forall n z, sending sends -> 0 <= n -> write_blk_to_dn n z sends = (s32 (z + n), z + n).
Proof.
  induction sends as [|x sends IH]; intros n z H Hn; cbn [write_blk_to_dn]; (destruct (Z.leb_spec n 0); [assert (n = 0) as -> by lia; by rewrite Z.add_0_r|]); [done|].
  apply Forall_cons in H as [Hx H]. destruct x as [k| | |]; try done; [|by apply IH..]. cbv zeta. rewrite IH by (done || lia). by replace (z + Z.min k n + (n - Z.min k n)) with (z + n) by lia.
Qed.

(** Everything is sent; the result depends on the size and the last answer. *)
(** The result is an error, or all bytes have left. *)
Lemma write_blk_to_dn_all sends : forall fsize done, 0 <= fsize ->
  write_blk_to_dn fsize done sends = (s32 (done + fsize), done + fsize) \/ (write_blk_to_dn fsize done sends).1 = DFS_ERROR.
Proof.
  induction sends as [|e sends IH]; intros fsize done_ Hf; cbn [write_blk_to_dn]; destruct (Z.leb_spec fsize 0); try (left; f_equal; [f_equal|]; lia).
  - by left.
  - destruct e as [n| | |]; [|by apply IH|by apply IH|by right]. cbv zeta.
    destruct (IH (fsize - Z.min n fsize) (done_ + Z.min n fsize) ltac:(lia)) as [E|E]; [left|by right].
    rewrite E. f_equal; [f_equal|]; lia.
Qed.

Lemma send_block_success d c k : (send_block d c k).1 = DFS_OK -> exists n, hdr k = Some n /\ Z.of_nat (length d) < 2 ^ 31 /\
  (send_block d c k).2 = take (Z.to_nat n) (Client.header DnRequest.OP_WRITE_BLOCK (namespace_id c) (blk_id c) (Z.of_nat (length d))) ++ d.
Proof.
  unfold send_block. destruct (hdr k) as [n|]; [|done]. intros H. exists n. split; [done|]. revert H. cbv zeta. destruct (recv_rsp (Client.rx k)) as [[] rx]; cbn [negb]; [|done].
  pose proof (write_blk_to_dn_all (sends k) (Z.of_nat (length d)) 0 ltac:(lia)) as HW. destruct (write_blk_to_dn _ _ _) as [w m].
  destruct (Z.eqb_spec w (Z.of_nat (length d))) as [Hw|]; cbn [negb]; [|done]. destruct HW as [[= E1 E2]|E]; [|cbn in E; unfold DFS_ERROR in E; lia].
  destruct (recv_rsp rx) as [ok ?]. intros _. cbn [snd]. split.
  - pose proof (swrap_range 32 (0 + Z.of_nat (length d)) ltac:(lia)) as [_ H]. change (swrap 32) with s32 in H. change (2 ^ (32 - 1)) with (2 ^ 31) in H. lia.
  - rewrite E2, Z.add_0_l, Nat2Z.id, (take_ge d) by lia. done.
Qed.

Lemma send_block_sends d c k n b rx tail : hdr k = Some n -> 48 <= n -> sending (sends k) -> Client.rx k = NnConn.Rx b :: rx -> chunks (NnConn.Rx b :: rx) -> (8 <= length b)%nat ->
  payload (NnConn.Rx b :: rx) = DnRequest.header_rsp ++ tail -> tail `prefix_of` DnRequest.header_rsp ->
  send_block d c k = (if s32 (Z.of_nat (length d)) =? Z.of_nat (length d) then DFS_OK else DFS_ERROR, Client.header DnRequest.OP_WRITE_BLOCK (namespace_id c) (blk_id c) (Z.of_nat (length d)) ++ d).
Proof.
  intros Hn Hn48 HS Hrx HC Hb HP Ht. unfold send_block. rewrite Hn, Hrx. cbv zeta. destruct (recv_rsp_first b rx tail HC Hb HP) as (rx1 & -> & HC1 & HP1). cbn [negb].
  rewrite (write_blk_to_dn_ok _ _ _ HS) by lia. rewrite Z.add_0_l, Nat2Z.id, firstn_all, take_ge by (rewrite header_length; lia). destruct (_ =? _); [|done]. cbn [negb].
  pose proof (recv_rsp_last rx1 HC1 ltac:(by rewrite HP1)) as E. destruct (recv_rsp rx1). cbn in E. by subst.
Qed.


(** The namespace 1 and the block 7, as the namenode gave them. *)
Definition put_context : rw_context_t := Ctx (lit "/x") (lit "/f") 5 [0; 0; 0] 3 1 7 1 1 0 [lit "10.0.0.1"; []; []] [0; 0; 0] 0 0.
Definition put_conn : dn_conn := Dc (Some 48) [Sf 1; SfAgain; Sf 5] [NnConn.Rx DnRequest.header_rsp] true [].


Lemma long_file n : 0 <= n -> exists d : list Z, Z.of_nat (length d) = n.
Proof. intros H. exists (replicate (Z.to_nat n) 0). rewrite length_replicate. lia. Qed.

(** C36. A file of 2 GiB or more cannot be put: [write_blk_to_dn] returns the
    number of bytes as an [int], so that after the whole file has been sent
    and the datanode has accepted it, the thread takes the transfer as failed. *)
Theorem put_large_fails d c k n b rx tail : 2 ^ 31 <= Z.of_nat (length d) -> hdr k = Some n -> 48 <= n -> sending (sends k) -> Client.rx k = NnConn.Rx b :: rx -> chunks (NnConn.Rx b :: rx) -> (8 <= length b)%nat ->
  payload (NnConn.Rx b :: rx) = DnRequest.header_rsp ++ tail -> tail `prefix_of` DnRequest.header_rsp ->
  exists hd, send_block d c k = (DFS_ERROR, hd ++ d) /\ length hd = DnRequest.sizeof_header.
Proof.
  intros Hd Hn Hn48 HS Hrx HC Hb HP Ht. eexists. rewrite (send_block_sends d c k n b rx tail) by done. split; [|apply header_length].
  rewrite (proj2 (Z.eqb_neq _ _)); [done|]. pose proof (swrap_range 32 (Z.of_nat (length d)) ltac:(lia)) as H. unfold in_s in H. fold s32 in H. change (2 ^ (32 - 1)) with (2 ^ 31) in H. lia.
Qed.

Lemma put_large_fails_witness : exists d hd, send_block d put_context put_conn = (DFS_ERROR, hd ++ d).
Proof.
  destruct (long_file (2 ^ 31) ltac:(lia)) as [d Hd]. exists d.
  destruct (put_large_fails d put_context put_conn 48 DnRequest.header_rsp [] [] ltac:(lia) eq_refl ltac:(lia) ltac:(by repeat constructor) eq_refl ltac:(by repeat constructor) ltac:(cbn; lia) eq_refl ltac:(apply prefix_nil)) as (hd & E & _). by exists hd.
Defined.

(** ** The threads of a put *)

Section threads.

Variable c : rw_context_t.
Variable d : list Z.
Variable dial : nat -> list Z -> option dn_conn.

Hypothesis replicas : 0 < dn_num c <= 3.
Hypothesis ips : length (dn_ips c) = 3%nat.
Hypothesis slots : length (res c) = 3%nat.

Definition ip_of (i : nat) : list Z := Libc.cstr (default [] (dn_ips c !! i)).

(** What thread [i] reports and sends when it works on datanode [i]. *)
Definition outcome (i : nat) : Z := match dial i (ip_of i) with None => DFS_ERROR | Some k => (send_block d c k).1 end.
Definition sent_by (i : nat) : list (list Z * list Z) := match dial i (ip_of i) with None => [] | Some k => [(ip_of i, (send_block d c k).2)] end.

(** No thread is created before the one before it has read its index. *)
Definition all_picked (s : put_t) : bool := forallb (fun i => bool_decide (is_Some (picked s !! i))) (List.seq 0 (Z.to_nat (spawned s))).
Fixpoint orderly (evs : list put_event) (s : put_t) : bool :=
  match evs with
  | [] => true
  | e :: evs' =>
      (match e with Spawn _ => all_picked s | _ => true end) &&
      match put_step (Some d) dial e s with Some s' => orderly evs' s' | None => true end
  end.

Lemma all_picked_true s : all_picked s = true -> forall i, Z.of_nat i < spawned s -> is_Some (picked s !! i).
Proof.
  unfold all_picked. rewrite forallb_forall. intros H i Hi. specialize (H i). rewrite bool_decide_eq_true, in_seq in H. apply H. lia.
Qed.

(** The parts of the context that no step changes. *)
Definition kept (x : rw_context_t) := (src x, dst x, nn_fd x, blk_id x, namespace_id x, dn_num x, dn_ips x).

Record threads_ok (s : put_t) : Prop := {
  to_kept : kept (ctx s) = kept c;
  to_slots : length (res (ctx s)) = 3%nat;
  to_spawned : 0 <= spawned s <= dn_num c;
  to_index : dn_index (ctx s) = spawned s - 1 \/ forall i, Z.of_nat i < spawned s -> is_Some (picked s !! i);
  to_before : forall i, Z.of_nat i < spawned s - 1 -> is_Some (picked s !! i);
  to_picked : forall i x, picked s !! i = Some x -> x = Z.of_nat i /\ Z.of_nat i < spawned s;
  to_ended : forall i, i ∈ ended s -> is_Some (picked s !! i) /\ res (ctx s) !! i = Some (outcome i);
  to_wires : wires s = concat (map sent_by (reverse (ended s)));
  to_joined : 0 <= joined s <= dn_num c;
  to_accepted : forall i, Z.of_nat i < joined s -> i ∈ ended s /\ outcome i = DFS_OK;
  to_done : write_done_blk_rep (ctx s) = Nat.iter (Z.to_nat (joined s)) (fun z => s16 (z + 1)) (write_done_blk_rep c);
  to_result : result s = Some DFS_OK -> joined s = dn_num c
}.

Lemma put_start_ok : threads_ok (put_start c).
Proof.
  unfold put_start. rewrite (proj2 (Z.ltb_lt _ _)) by lia. split; cbn; try done; try lia.
  - right. intros i Hi. lia.
  - intros i Hi. by apply not_elem_of_nil in Hi.
Qed.

Lemma send_block_kept x k : kept x = kept c -> send_block d x k = send_block d c k.
Proof. intros [= _ _ _ H1 H2 _ _]. unfold send_block. by rewrite H1, H2. Qed.

(** A thread that has the index [j]. *)
Lemma write_blk_start_at i j x : kept x = kept c -> length (res x) = 3%nat -> Z.of_nat j < dn_num c ->
  exists x', write_blk_start (Some d) dial i (Z.of_nat j) x = Some (x', match dial i (ip_of j) with None => [] | Some k => [(ip_of j, (send_block d c k).2)] end) /\ kept x' = kept c /\
    res x' = <[j := match dial i (ip_of j) with None => DFS_ERROR | Some k => (send_block d c k).1 end]> (res x) /\ dn_index x' = dn_index x /\ write_done_blk_rep x' = write_done_blk_rep x.
Proof.
  intros HK Hl Hi. pose proof HK as [= K1 K2 K3 K4 K5 K6 K7]. unfold write_blk_start. rewrite (proj2 (Z.ltb_ge _ _)), Nat2Z.id, K7 by lia.
  destruct (lookup_lt_is_Some_2 (dn_ips c) j ltac:(lia)) as [ip Hip]. rewrite (option_bind_eq _ _ _ Hip). assert (Libc.cstr ip = ip_of j) as -> by (unfold ip_of; by rewrite Hip). cbv zeta.
  assert (forall y r, length (res y) = 3%nat -> exists y', set_res y (Z.of_nat j) r = Some y' /\ kept y' = kept y /\ res y' = <[j := r]> (res y) /\ dn_index y' = dn_index y /\ write_done_blk_rep y' = write_done_blk_rep y) as HR.
  { intros y r Hy. unfold set_res. rewrite (proj2 (Z.leb_le _ _)), (proj2 (Z.ltb_lt _ _)) by lia. eexists. split; [reflexivity|]. cbn. by rewrite Nat2Z.id. }
  destruct (dial i (ip_of j)) as [k|].
  - rewrite (send_block_kept x k HK). destruct (send_block d c k) as [r wire]. destruct (HR (set_fsize x (Z.of_nat (length d))) r Hl) as (y & E & H1 & H2 & H3 & H4). exists y. rewrite (option_bind_eq _ _ _ E). cbn in *. split_and!; try done. by rewrite H1.
  - destruct (HR x DFS_ERROR Hl) as (y & E & H1 & H2 & H3 & H4). exists y. rewrite (option_bind_eq _ _ _ E). split_and!; try done. by rewrite H1.
Qed.

Lemma run_cons e evs s s1 : put_step (Some d) dial e s = Some s1 -> dfs_write_blk (Some d) dial (e :: evs) s = dfs_write_blk (Some d) dial evs s1.
Proof. intros E. apply (option_bind_eq _ _ _ E). Qed.

Lemma put_spawn_ok ok s s' : threads_ok s -> (forall i, Z.of_nat i < spawned s -> is_Some (picked s !! i)) -> put_step (Some d) dial (Spawn ok) s = Some s' -> threads_ok s'.
Proof.
  intros [H1 H2 H3 H4 H5 H6 H7 H8 H9 H10 H11 H12] HO E. pose proof H1 as [= K1 K2 K3 K4 K5 K6 K7]. cbn [put_step] in E. case_bool_decide as Hr; [|done]. rewrite K6 in E. destruct (Z.ltb_spec (spawned s) (dn_num c)); [|done]. cbn [andb negb] in E.
  destruct (3 <=? spawned s); [done|]. destruct ok; injection E as <-; split; cbn; try done; try lia.
  - intros i Hi. apply HO. lia.
  - intros i x Hx. destruct (H6 i x Hx). split; [done|lia].
  - by right.
Qed.

Lemma put_pick_ok i s s' : threads_ok s -> put_step (Some d) dial (Pick i) s = Some s' -> threads_ok s'.
Proof.
  intros [H1 H2 H3 H4 H5 H6 H7 H8 H9 H10 H11 H12] E. cbn [put_step] in E. destruct (Z.ltb_spec (Z.of_nat i) (spawned s)); [|done]. case_bool_decide as Hp; [|done]. cbn [andb negb] in E. injection E as <-.
  assert (forall j, is_Some (picked s !! j) -> is_Some (<[i := dn_index (ctx s)]> (picked s) !! j)) as HM by (intros j Hj; destruct (decide (i = j)) as [->|]; [rewrite lookup_insert_eq|rewrite lookup_insert_ne by done]; done).
  assert (Z.of_nat i = spawned s - 1) as Hi by (destruct (Z.lt_ge_cases (Z.of_nat i) (spawned s - 1)) as [Hlt|]; [destruct (H5 i Hlt); congruence|lia]).
  split; cbn; try done.
  - destruct H4 as [H4|H4]; [by left|right; auto].
  - intros j Hj. auto.
  - intros j x. destruct (decide (i = j)) as [->|]; [rewrite lookup_insert_eq; intros [= <-]|rewrite lookup_insert_ne by done; apply H6]. destruct H4 as [->|H4]; [split; lia|]. destruct (H4 j ltac:(lia)). congruence.
  - intros j Hj. destruct (H7 j Hj). auto.
Qed.

Lemma put_transfer_ok i s s' : threads_ok s -> put_step (Some d) dial (Transfer i) s = Some s' -> threads_ok s'.
Proof.
  intros [H1 H2 H3 H4 H5 H6 H7 H8 H9 H10 H11 H12] E. cbn [put_step] in E. destruct (picked s !! i) as [x|] eqn:Hx; [|done]. cbn [mbind option_bind] in E. destruct (H6 i x Hx) as [-> Hlt]. case_bool_decide as He; [done|].
  destruct (write_blk_start_at i i (ctx s) H1 H2 ltac:(lia)) as (c' & Ec & F1 & F2 & F3 & F4). rewrite (option_bind_eq _ _ _ Ec) in E. injection E as <-. split; cbn [ctx spawned picked ended joined wires result]; try done.
  - by rewrite F2, length_insert.
  - rewrite F3. done.
  - intros j Hj. rewrite F2. destruct (decide (i = j)) as [->|Hn]; [split; [done|]; apply list_lookup_insert_eq; lia|]. rewrite list_lookup_insert_ne by done. apply H7. by apply elem_of_cons in Hj as [->|].
  - rewrite reverse_cons, map_app, concat_app, H8. cbn. by rewrite app_nil_r.
  - intros j Hj. destruct (H10 j Hj). split; [by right|done].
  - by rewrite F4.
Qed.

Lemma put_join_ok ok s s' : threads_ok s -> put_step (Some d) dial (Join ok) s = Some s' -> threads_ok s'.
Proof.
  intros [H1 H2 H3 H4 H5 H6 H7 H8 H9 H10 H11 H12] E. pose proof H1 as [= K1 K2 K3 K4 K5 K6 K7]. cbn [put_step] in E. case_bool_decide as Hr; [|done]. rewrite K6 in E. destruct (Z.leb_spec (dn_num c) (spawned s)); [|done]. destruct (Z.ltb_spec (joined s) (dn_num c)); [|done]. cbn [andb negb] in E.
  case_bool_decide as He; [|done]. cbn [negb] in E. destruct ok; cbn [negb] in E; [|by injection E as <-; split].
  destruct (H7 _ He) as [_ Hres]. rewrite (option_bind_eq _ _ _ Hres) in E. destruct (Z.eqb_spec (outcome (Z.to_nat (joined s))) DFS_OK) as [Ho|]; cbn [negb] in E; [|by injection E as <-; split].
  injection E as <-. split; cbn; try done; try lia.
  - intros i Hi. destruct (decide (i = Z.to_nat (joined s))) as [->|]; [done|]. apply H10. lia.
  - rewrite H11. replace (Z.to_nat (joined s + 1)) with (S (Z.to_nat (joined s))) by lia. done.
  - destruct (Z.ltb_spec (joined s + 1) (dn_num c)); [done|]. lia.
Qed.

Lemma steps_ok evs : forall s s', threads_ok s -> orderly evs s = true -> dfs_write_blk (Some d) dial evs s = Some s' -> threads_ok s'.
Proof.
  induction evs as [|e evs IH]; intros s s' HT HO E; [by injection E as <-|]. cbn [dfs_write_blk] in E. cbn [orderly] in HO. apply andb_prop in HO as [HO1 HO2]. destruct (put_step (Some d) dial e s) as [s1|] eqn:E1; [|done].
  apply (IH s1); [|done..]. destruct e; [apply (put_spawn_ok ok s); [done|by apply all_picked_true|done]|by apply (put_pick_ok i s)|by apply (put_transfer_ok i s)|by apply (put_join_ok ok s)].
Qed.

End threads.

Lemma count_done n z : 0 <= z -> z + Z.of_nat n < 2 ^ 15 -> Nat.iter n (fun z => s16 (z + 1)) z = z + Z.of_nat n.
Proof.
  intros Hz. induction n as [|n IH]; intros Hn; [cbn; lia|]. rewrite Nat.iter_succ, IH by lia. unfold s16. rewrite swrap_small by (unfold in_s; lia). lia.
Qed.

(** C12. A put that reports success has sent the whole file to every datanode, of
    one to three, if each thread reads its index before the next one is created: however the
    threads of [dfs_write_blk] then interleave with each other and with the
    joins, the thread of every datanode was connected to it, ended with success,
    and sent it what [send] took of the header, which is not checked, and then all
    bytes of the file, which is below 2 GiB.  Success does not mean that the
    datanode has the block: a closed connection is taken for a positive answer.  The
    number of replicas that [dfs_close] tells the namenode is the number of
    datanodes plus what the counter, which is not cleared, held before. *)
Theorem put_success_all_replicas c d dial evs s : 0 < dn_num c <= 3 -> length (dn_ips c) = 3%nat -> length (res c) = 3%nat -> 0 <= write_done_blk_rep c < 2 ^ 14 ->
  orderly d dial evs (put_start c) = true -> dfs_write_blk (Some d) dial evs (put_start c) = Some s -> result s = Some DFS_OK ->
  write_done_blk_rep (ctx s) = write_done_blk_rep c + dn_num c /\
  forall i, Z.of_nat i < dn_num c -> exists k n, dial i (ip_of c i) = Some k /\ (send_block d c k).1 = DFS_OK /\ hdr k = Some n /\ Z.of_nat (length d) < 2 ^ 31 /\
    (ip_of c i, take (Z.to_nat n) (Client.header DnRequest.OP_WRITE_BLOCK (namespace_id c) (blk_id c) (Z.of_nat (length d))) ++ d) ∈ wires s.
Proof.
  intros Hn Hi Hr Hw HO E Hres. destruct (steps_ok c d dial Hn Hi Hr evs _ _ (put_start_ok c d dial Hn Hi Hr) HO E) as [_ _ _ _ _ _ _ Hwires _ Hacc Hdone Hj]. specialize (Hj Hres). split; [rewrite Hdone, Hj, count_done; lia|].
  intros i Hlt. destruct (Hacc i ltac:(lia)) as [Hin Hok]. unfold outcome in Hok. destruct (dial i (ip_of c i)) as [k|] eqn:Ek; [|done]. destruct (send_block_success d c k Hok) as (n & Hk & Hd & Hw2). exists k, n. split_and!; [done..|].
  rewrite <-Hw2, Hwires. apply list_elem_of_In, in_concat. exists (sent_by c d dial i). split; [|unfold sent_by; rewrite Ek; by left]. apply in_map, list_elem_of_In. by apply elem_of_reverse.
Qed.

Definition two_replicas : rw_context_t := Ctx (lit "/x") (lit "/f") 5 [0; 0; 0] 3 2 7 1 2 0 [lit "10.0.0.1"; lit "10.0.0.2"; []] [0; 0; 0] 0 0.
Definition in_turn : list put_event := [Spawn true; Pick 0; Spawn true; Transfer 0; Pick 1; Transfer 1; Join true; Join true].

Lemma put_success_all_replicas_witness : exists s, dfs_write_blk (Some [4; 5; 6]) (fun _ _ => Some put_conn) in_turn (put_start two_replicas) = Some s /\ write_done_blk_rep (ctx s) = 2.
Proof.
  destruct (dfs_write_blk (Some [4; 5; 6]) (fun _ _ => Some put_conn) in_turn (put_start two_replicas)) as [s|] eqn:E; [|exfalso; vm_compute in E; discriminate]. exists s. split; [done|].
  refine (proj1 (put_success_all_replicas two_replicas [4; 5; 6] (fun _ _ => Some put_conn) in_turn s ltac:(cbn; lia) eq_refl eq_refl ltac:(cbn; lia) _ E _)).
  - vm_compute. reflexivity.
  - apply (f_equal (option_map result)) in E. assert (option_map result (Some s) = Some (Some DFS_OK)) as [= H] by (rewrite <-E; vm_compute; reflexivity). exact H.
Defined.

(** Both threads have read the index of the second datanode. *)
Definition late_reads : list put_event := [Spawn true; Spawn true; Pick 0; Pick 1; Transfer 0; Transfer 1; Join true; Join true].

(** C39. The threads of a put race for [dn_index]: with two datanodes, if both
    threads read it after the second was set, both send the file to the second
    datanode; the first gets nothing, its result stays what the memory held,
    and when that is zero the put counts two replicas and reports success. *)
Theorem put_index_race c d dial k0 k1 : dn_num c = 2 -> length (dn_ips c) = 3%nat -> length (res c) = 3%nat -> res c !! 0%nat = Some DFS_OK ->
  dial 0%nat (ip_of c 1) = Some k0 -> dial 1%nat (ip_of c 1) = Some k1 -> (send_block d c k0).1 = DFS_OK -> (send_block d c k1).1 = DFS_OK ->
  exists s, dfs_write_blk (Some d) dial late_reads (put_start c) = Some s /\ result s = Some DFS_OK /\ write_done_blk_rep (ctx s) = s16 (s16 (write_done_blk_rep c + 1) + 1) /\
    wires s = [(ip_of c 1, (send_block d c k0).2); (ip_of c 1, (send_block d c k1).2)].
Proof.
  intros Hn Hi Hr H0 E0 E1 S0 S1. pose proof (write_blk_start_at c d dial ltac:(lia) Hi Hr) as HW. set (c2 := set_index (set_index c 0) 1). set (m := <[1%nat := 1]> (<[0%nat := 1]> ∅) : gmap nat Z).
  assert (dfs_write_blk (Some d) dial late_reads (put_start c) = dfs_write_blk (Some d) dial (drop 4 late_reads) (Put c2 2 m [] 0 [] None)) as ->.
  { unfold late_reads, put_start. rewrite Hn. repeat (erewrite run_cons by (cbn [put_step ctx result spawned dn_num set_index]; rewrite ?Hn; reflexivity)). done. }
  destruct (HW 0%nat 1%nat c2 eq_refl Hr ltac:(lia)) as (c3 & W3 & K3 & R3 & I3 & D3). rewrite E0, S0 in *. destruct (HW 1%nat 1%nat c3 K3 ltac:(by rewrite R3, length_insert) ltac:(lia)) as (c4 & W4 & K4 & R4 & I4 & D4). rewrite E1, S1 in *.
  unfold late_reads. cbn [drop]. set (w0 := (ip_of c 1, (send_block d c k0).2)) in *. set (w1 := (ip_of c 1, (send_block d c k1).2)) in *.
  rewrite (run_cons d dial (Transfer 0) _ _ (Put c3 2 m [0%nat] 0 [w0] None)) by (cbn [put_step picked]; change (m !! 0%nat) with (Some (Z.of_nat 1)); cbn [mbind option_bind]; change (ctx (Put c2 2 m [] 0 [] None)) with c2; by rewrite (option_bind_eq _ _ _ W3)).
  rewrite (run_cons d dial (Transfer 1) _ _ (Put c4 2 m [1%nat; 0%nat] 0 [w0; w1] None)) by (cbn [put_step picked]; change (m !! 1%nat) with (Some (Z.of_nat 1)); cbn [mbind option_bind]; change (ctx (Put c3 2 m [0%nat] 0 [w0] None)) with c3; by rewrite (option_bind_eq _ _ _ W4)).
  assert (dn_num c4 = 2) as N4 by (injection K4; congruence). assert (res c4 !! 0%nat = Some DFS_OK /\ res c4 !! 1%nat = Some DFS_OK) as [R40 R41].
  { rewrite R4, R3. split; [rewrite !list_lookup_insert_ne by done; exact H0|]. apply list_lookup_insert_eq. rewrite length_insert. change (res c2) with (res c). lia. }
  rewrite (run_cons d dial (Join true) _ _ (Put (inc_done c4) 2 m [1%nat; 0%nat] 1 [w0; w1] None)) by (cbn [put_step ctx result spawned joined ended wires picked]; rewrite N4; change (Z.to_nat 0) with 0%nat; by rewrite R40).
  rewrite (run_cons d dial (Join true) _ _ (Put (inc_done (inc_done c4)) 2 m [1%nat; 0%nat] 2 [w0; w1] (Some DFS_OK))) by (cbn [put_step ctx result spawned joined ended wires picked]; change (dn_num (inc_done c4)) with (dn_num c4); rewrite N4; change (Z.to_nat 1) with 1%nat; change (res (inc_done c4)) with (res c4); by rewrite R41).
  eexists. split; [reflexivity|]. cbn. rewrite D4, D3. done.
Qed.

Lemma put_index_race_witness : exists s, dfs_write_blk (Some [4; 5; 6]) (fun _ _ => Some put_conn) late_reads (put_start two_replicas) = Some s /\ result s = Some DFS_OK.
Proof.
  destruct (put_index_race two_replicas [4; 5; 6] (fun _ _ => Some put_conn) put_conn put_conn eq_refl eq_refl eq_refl eq_refl eq_refl eq_refl ltac:(vm_compute; reflexivity) ltac:(vm_compute; reflexivity)) as (s & E & Hs & _). exists s. split; [exact E|exact Hs].
Defined.

End ClientOk.
